(* ===== verification/_CoqProject ===== *)
-Q . S2P
Prelude.v
ListLib.v
ListLibSpec.v
PartA.v
PartASpec.v
PartAProps.v
PartA4Spec.v
Grep.v
Primes.v
PrimesSpec.v
PrimesProps.v
Find.v
FindSpec.v
Sh.v
ShSpec.v
ShProps.v
ShRun.v
CString.v
Ulib.v
Umalloc.v
UmallocSpec.v
UmallocProps.v
Spinlock.v
Kalloc.v
Vm.v
VmSpec.v
VmProps.v
VmCopy.v
Pipe.v
Proc.v
ProcSpec.v
Sleeplock.v
BlockCache.v
Bio.v
BioSpec.v
Log.v
LogSpec.v
LogProps.v
Fs.v
FsBlocks.v
FsFile.v
FsWrite.v
FsTrunc.v
FsTable.v
FsDir.v
FsPath.v
FsNamei.v
FsProps.v
File.v
FileProps.v
FileCount.v
Console.v
ConsoleProps.v
Printf.v
PrintfProps.v
UserProgs.v
UserProgsProps.v
Virtio.v
VirtioSpec.v
VirtioProps.v
Exec.v
ExecProps.v
ProcOps.v
ProcExit.v
ProcInv.v
ProcProps.v
Syscall.v
SyscallProps.v
ProcKeeps.v
Trap.v
TrapProps.v
Uart.v
UartProps.v
