(* ===== verification/Prelude.v ===== *)
(** * Verification of the list library, the Part A drivers and the xv6 kernel

    The repository is a student's operating-systems assignment in three parts, all in C:
    a list library over static pools (src/a1-phase2), four drivers that compute squares
    in threads or processes until a deadline (src/a1-phase3), and the xv6 kernel with its
    user programs, extended by a trace system call and by the programs primes, find and
    trace (src/xv6-A1).  This library models the code of all three and proves what makes
    it correct; where the code misbehaves, that is a theorem too.

    ** How code is modelled

    C integers are [Z], wrapped to their width where it matters ([u32], [u64], [i32]).
    Code that changes state runs in the monad [M S A] of this file: a call returns a
    value and a new state ([Ok]), goes to sleep on a channel in the state it has reached
    ([Blocked]), or faults ([Fault]) by a kernel panic, by something C leaves undefined
    or by running out of fuel.  Concurrency is explicit: threads and processes are
    programs that take turns one instruction or one system call at a time, and theorems
    quantify over all the interleavings; a kernel activation that sleeps ends there, and
    what it does when it is resumed is a definition of its own.  What a component calls of
    another one is a class ([ProcEnv], [BufCache], [lockref], [sleepref], [Machine],
    [Serial], [Sys]) with its laws.

    ** The files, and the sources they model

    - [Prelude]: machine integers, the monad, loops, arrays, and the lemmas all share.
    - [ListLib], [ListLibSpec]: a1-phase2/list.h and list_*.c.  The state is the two
      pools; [lib_rep] relates it to abstract sequences.
    - [PartA], [PartASpec], [PartA4Spec], [PartAProps]: a1-phase3/square.c and
      partA1.c to partA4.c as commands of an interleaving machine with heap objects.
    - User programs: [Grep] (user/grep.c, matcher and buffering loop); [Primes] with
      [PrimesSpec], [PrimesProps] (primes.c, a process per stage, a step per system call);
      [Find], [FindSpec] (find.c, with descriptors and stack counted); [Sh], [ShSpec],
      [ShProps], [ShRun] (sh.c, the parser and runcmd); [UserProgs], [UserProgsProps]
      (cat.c, wc.c, echo.c, rm.c, mkdir.c, ln.c, kill.c, ls.c); [CString], [Ulib]
      (kernel/string.c, user/ulib.c, user/trace.c on byte memory); [Umalloc],
      [UmallocSpec], [UmallocProps] (umalloc.c, the ring of free blocks in the heap).
    - [Printf], [PrintfProps]: user/printf.c and kernel/printf.c.
    - Locks and memory: [Spinlock], [Sleeplock] (spinlock.c, sleeplock.c, over any state
      that contains a lock); [Kalloc] (kalloc.c, the free list inside physical memory);
      [Vm], [VmSpec], [VmProps], [VmCopy] (vm.c, the page table macros of riscv.h and the
      page table routines of proc.c, on the memory of [Kalloc]).
    - Processes: [Proc], [ProcSpec], [ProcOps], [ProcExit], [ProcInv], [ProcProps],
      [ProcKeeps] (proc.c, the table with its locks, the scheduler and what resumes after a
      switch); [Syscall], [SyscallProps] (syscall.c and sysproc.c, the tracing included);
      [Trap], [TrapProps] (trap.c, plic.c and forkret, on the table and the control
      registers); [Exec], [ExecProps] (exec.c and sys_exec); [Pipe] (pipe.c, with its ring,
      counters and sleeps).
    - File system: [Virtio], [VirtioSpec], [VirtioProps] (virtio_disk.c, with the device as
      a transition relation); [BlockCache], the interface between the log and the buffer
      cache, [Bio] and [BioSpec] (bio.c and its proof of that interface), [Log], [LogSpec],
      [LogProps] (log.c, proved against the interface); [Fs] (fs.c) with its proofs in
      [FsBlocks], [FsFile], [FsWrite], [FsTrunc], [FsTable], [FsDir], [FsPath], [FsNamei] and
      [FsProps]; [File], [FileProps], [FileCount] (file.c, sysfile.c and pipealloc).
    - Terminal: [Console], [ConsoleProps] (console.c); [Uart], [UartProps] (uart.c).

    ** What the theorems show

    - List library: the adders and the movers refine operations on sequences under stated
      conditions on the cursor; errors change nothing; and the edges that the code gets
      wrong.
    - Part A: Square computes and counts; under every interleaving no driver touches
      memory that is not its own before main frees the counters; children stop within one
      call of the deadline; the summary of partA4 is final; a use after free that partA1
      and partA3 can reach.
    - User programs: match accepts exactly what the pattern describes and grep prints the
      matching lines; every interleaving of primes is safe, ends within 1882 calls and
      prints the primes; find prints exactly the files it should, ends, and overruns its
      stack with seven directories inside each other; the shell accepts exactly the lines of
      its grammar and connects the programs of a line as the line says; wc counts as a
      reference does and cat concatenates, however reads cut their input; malloc and free
      keep the blocks of any program apart and intact and lose no memory.
    - printf: a format whose conversions have arguments of their types prints what it says,
      in the kernel and in user programs, and numbers print as numerals that atoi reads back.
    - Memory: mutual exclusion of spinlocks; kinit, kfree and kalloc; mappages and uvmalloc
      on page tables as maps, failures included; what copyout puts into user memory through
      the page table, copyin reads back.
    - Processes: the invariant of the process table from boot through any sequence of
      activations; what fork, exit, wait and kill do; tracing; every trap from user mode is
      handled, and returns with the registers as the way back to user mode needs them; exec
      replaces the image of the process as a whole or leaves it as it was; the bytes that
      pass through a pipe.
    - File system: requests to the disk are carried out once and whole, for every device
      that follows the virtio protocol; the buffer cache is a map in front of the disk;
      transactions survive a crash at any point whole or not at all, the space of the log,
      and the panic that NBUF = LOGBLOCKS allows; files are byte maps that grow, directories
      are maps from names, paths are followed, references are counted and unreferenced
      inodes freed; what is written through a descriptor is read back, and descriptors keep
      the counts of open files.
    - Terminal: the console refines a line editor; the serial line loses no character.

    ** Bounds and fuel

    Loops over arrays and lists are structural.  Fuel is used where the code's own loop
    is not: walks over linked structures and strings take as much fuel as the structure
    has elements (the theorems give the fuel and conclude with [Ok], so that it is
    enough); find takes one more than NOFILE, as each level keeps a descriptor open; the
    loops of vm.c take one turn per page or per byte; printint takes 65 turns, one more
    than the bits of a number; a chain of descriptors has at most NUM links; cat and wc take
    one turn more than a file has bytes; the interrupt handler of the disk takes 2^16 turns,
    the range of the index it chases.  The constants (NPROC, NOFILE, NBUF, pool sizes,
    PIPESIZE) are those of the source.

    ** Assumptions

    The classes state what the rest of the kernel promises: for the process table, memory,
    page tables and files ([ProcEnv]); for the log, the cache (discharged by [BioSpec]); for
    traps, the handlers of the devices and vmfault; for file.c, pipes, devices and user
    memory; for sys_exec, fetchaddr and fetchstr; for the programs of [UserProgs], a file
    system that keeps its files.  Devices are any that follow their specification: the disk
    the transitions of [VirtioSpec], the serial line the registers of a 16550.  A disk write
    changes one whole block.  Each kernel activation runs between two switches on one CPU;
    several CPUs are followed only in [Spinlock].  fork is taken to succeed in primes.
    umalloc.c is the only caller of sbrk in its program.  find meets a file system that does
    not change.

    ** Not modelled

    Start-up code and assembly (start.c, the .S files) and the accessors of control
    registers, which are machine instructions.  The main
    programs of grep and init, the prompt loop of the shell, and start and the sbrk wrappers
    of ulib.c, which only pass on to system calls.  Tests (usertests.c, grind.c, forktest.c,
    stressfs.c, logstress.c, zombie.c, forphan.c, dorphan.c, mytestlist.c) and the phase 2
    prototypes of Part A: partA1.c is the program of phase 3 but for its comments and
    colours, the others are trials that phase 3 replaces.  kvmmake, uvmcopy, freewalk and
    copyinstr are modelled in [Vm], and rm, mkdir, ln, kill and ls in [UserProgs], without
    theorems. *)

From Stdlib Require Import ZArith Lia.
From stdpp Require Import base numbers list gmap strings.
Open Scope Z_scope.

(** ** Machine integers

    A C integer is a [Z]; an assignment to a [w]-bit unsigned variable stores
    its value modulo [2^w], and a conversion to a signed type keeps the low
    bits read in two's complement. *)

Definition uwrap (w x : Z) : Z := x mod 2 ^ w.
Definition swrap (w x : Z) : Z := (x + 2 ^ (w - 1)) mod 2 ^ w - 2 ^ (w - 1).

Definition u8 : Z -> Z := uwrap 8.
Definition u16 : Z -> Z := uwrap 16.
Definition u32 : Z -> Z := uwrap 32.
Definition u64 : Z -> Z := uwrap 64.
Definition i8 : Z -> Z := swrap 8.
Definition i16 : Z -> Z := swrap 16.
Definition i32 : Z -> Z := swrap 32.
Definition i64 : Z -> Z := swrap 64.

Definition INT_MAX : Z := 2 ^ 31 - 1.
Definition INT_MIN : Z := - 2 ^ 31.
Definition in_int (x : Z) : Prop := INT_MIN <= x <= INT_MAX.
#[export] Instance in_int_dec x : Decision (in_int x).
Proof. unfold in_int. apply _. Defined.

Lemma uwrap_range w x : 0 <= w -> 0 <= uwrap w x < 2 ^ w.
Proof. intros. apply Z.mod_pos_bound. apply Z.pow_pos_nonneg; lia. Qed.

Lemma uwrap_small w x : 0 <= x < 2 ^ w -> uwrap w x = x.
Proof. apply Z.mod_small. Qed.

Lemma uwrap_idemp w x : 0 <= w -> uwrap w (uwrap w x) = uwrap w x.
Proof. intros. apply uwrap_small, uwrap_range; done. Qed.

Lemma swrap_small w x :
  0 < w -> - 2 ^ (w - 1) <= x < 2 ^ (w - 1) -> swrap w x = x.
Proof.
  intros Hw Hx. unfold swrap. rewrite Z.mod_small; [lia|].
  replace (2 ^ w) with (2 * 2 ^ (w - 1)); [lia|].
  rewrite <- Z.pow_succ_r by lia. f_equal; lia.
Qed.

Lemma swrap_range w x : 0 < w -> - 2 ^ (w - 1) <= swrap w x < 2 ^ (w - 1).
Proof.
  intros Hw. unfold swrap.
  assert (2 ^ w = 2 * 2 ^ (w - 1)) as E.
  { rewrite <- Z.pow_succ_r by lia. f_equal; lia. }
  pose proof (Z.mod_pos_bound (x + 2 ^ (w - 1)) (2 ^ w)). 
  assert (0 < 2 ^ (w - 1)) by (apply Z.pow_pos_nonneg; lia). lia.
Qed.

Lemma i32_small x : in_int x -> i32 x = x.
Proof.
  unfold in_int, INT_MIN, INT_MAX, i32. intros. apply swrap_small; [done|].
  change (2 ^ (32 - 1)) with 2147483648. lia.
Qed.

Lemma swrap_uwrap w x : 0 < w -> swrap w (uwrap w x) = swrap w x.
Proof.
  intros Hw. unfold swrap, uwrap. rewrite Zplus_mod_idemp_l. done.
Qed.

Lemma i32_u32 x : in_int x -> i32 (u32 x) = x.
Proof. intros Hx. unfold i32, u32. rewrite swrap_uwrap by done. by apply i32_small. Qed.

(** ** Outcomes of C code

    A call ends in one of three ways: it returns a value in a new state; the
    caller goes to sleep on a channel in the state reached so far (the kernel's
    [sleep]); or it faults, by a kernel [panic] or by a use that C leaves
    undefined, such as an array access out of range. *)

Inductive fault : Type :=
| Panic (msg : string)
| Undef (what : string)
| OutOfFuel.

Inductive res (S A : Type) : Type :=
| Ok (a : A) (s : S)
| Blocked (chan : Z) (s : S)
| Fault (f : fault).
Arguments Ok {S A} a s.
Arguments Blocked {S A} chan s.
Arguments Fault {S A} f.

Definition M (S A : Type) : Type := S -> res S A.

Definition ret {S A} (a : A) : M S A := fun s => Ok a s.
Definition bind {S A B} (m : M S A) (k : A -> M S B) : M S B := fun s =>
  match m s with
  | Ok a s' => k a s'
  | Blocked c s' => Blocked c s'
  | Fault f => Fault f
  end.
Definition get {S} : M S S := fun s => Ok s s.
Definition gets {S A} (f : S -> A) : M S A := fun s => Ok (f s) s.
Definition put {S} (s : S) : M S unit := fun _ => Ok tt s.
Definition modify {S} (f : S -> S) : M S unit := fun s => Ok tt (f s).
Definition panic {S A} (msg : string) : M S A := fun _ => Fault (Panic msg).
Definition undef {S A} (what : string) : M S A := fun _ => Fault (Undef what).
Definition block {S A} (chan : Z) : M S A := fun s => Blocked chan s.
Definition from_option {S A} (what : string) (o : option A) : M S A :=
  match o with Some a => ret a | None => undef what end.

Declare Scope c_scope.
Delimit Scope c_scope with C.
Notation "'let!' x ':=' m 'in' k" := (bind m (fun x => k))
  (at level 10, x pattern, m at level 100, k at level 200,
   format "'[v' 'let!'  x  ':='  m  'in' '/' k ']'") : c_scope.
Notation "m ;; k" := (bind m (fun _ => k))
  (at level 100, k at level 200, right associativity) : c_scope.
Open Scope c_scope.

(** [for (x in l) body(x)], stopping at the first non-[Ok] outcome. *)
Fixpoint for_each {S A} (l : list A) (body : A -> M S unit) : M S unit :=
  match l with
  | [] => ret tt
  | x :: l' => body x ;; for_each l' body
  end.

(** A loop over [l] that may [return v] (or [break] with a result) early:
    the body yields [Some v] to leave the loop. *)
Fixpoint for_until {S A B} (l : list A) (body : A -> M S (option B)) : M S (option B) :=
  match l with
  | [] => ret None
  | x :: l' =>
      let! r := body x in
      match r with
      | Some v => ret (Some v)
      | None => for_until l' body
      end
  end.

(** [for (i = lo; i < hi; i++)] ranges over this list of indices. *)
Definition zrange (lo hi : Z) : list Z := seqZ lo (hi - lo).

(** [while] with fuel: the body returns [Some v] to leave the loop. *)
Fixpoint while_fuel {S A} (fuel : nat) (body : M S (option A)) : M S A :=
  match fuel with
  | O => fun _ => Fault OutOfFuel
  | S n =>
      let! r := body in
      match r with
      | Some v => ret v
      | None => while_fuel n body
      end
  end.

(** C arrays indexed by a signed integer: an access out of range is undefined. *)
Definition arr_get {A} (l : list A) (i : Z) : option A :=
  if decide (0 <= i) then l !! Z.to_nat i else None.
Definition arr_set {A} (l : list A) (i : Z) (x : A) : option (list A) :=
  if decide (0 <= i < Z.of_nat (length l)) then Some (<[Z.to_nat i := x]> l) else None.

(** ** Laws of outcomes and loops *)

Lemma bind_ok {S A B} (m : M S A) (k : A -> M S B) s a s' :
  m s = Ok a s' -> bind m k s = k a s'.
Proof. unfold bind. by intros ->. Qed.

Lemma bind_inv {S A B} (m : M S A) (k : A -> M S B) s b s'' :
  bind m k s = Ok b s'' -> exists a s', m s = Ok a s' /\ k a s' = Ok b s''.
Proof. unfold bind. destruct (m s) eqn:E; naive_solver. Qed.

Lemma bind_assoc {S A B C} (m : M S A) (k : A -> M S B) (h : B -> M S C) s :
  bind (bind m k) h s = bind m (fun a => bind (k a) h) s.
Proof. unfold bind. by destruct (m s). Qed.

Lemma for_each_app {S A} (l1 l2 : list A) (body : A -> M S unit) s :
  for_each (l1 ++ l2) body s = (for_each l1 body ;; for_each l2 body) s.
Proof.
  revert s. induction l1 as [|x l1 IH]; intros s; [done|]. simpl.
  unfold bind. destruct (body x s); [|done|done]. apply IH.
Qed.

(** Loop invariant rule for a loop whose body always succeeds. *)
Lemma for_each_inv {S A} (I : list A -> S -> Prop) (body : A -> M S unit) l s :
  I [] s ->
  (forall done x rest s0, l = done ++ x :: rest -> I done s0 ->
     exists s1, body x s0 = Ok tt s1 /\ I (done ++ [x]) s1) ->
  exists s', for_each l body s = Ok tt s' /\ I l s'.
Proof.
  intros H0 Hstep.
  assert (forall rest done s0, l = done ++ rest -> I done s0 ->
            exists s', for_each rest body s0 = Ok tt s' /\ I l s') as G.
  { induction rest as [|x rest IH]; intros dn s0 Hl HI; simpl.
    - exists s0. rewrite app_nil_r in Hl. by subst.
    - destruct (Hstep dn x rest s0 Hl HI) as (s1 & Hb & HI').
      rewrite (bind_ok _ _ _ _ _ Hb). apply (IH (dn ++ [x])); [|done].
      by rewrite <- app_assoc. }
  by apply (G l []).
Qed.

Lemma for_until_none {S A B} (body : A -> M S (option B)) l s :
  (forall x, x ∈ l -> body x s = Ok None s) -> for_until l body s = Ok None s.
Proof.
  induction l as [|x l IH]; intros H; [done|]. simpl.
  rewrite (bind_ok _ _ _ None s) by (apply H; left).
  apply IH. intros y Hy. apply H. by right.
Qed.

Lemma for_until_found {S A B} (body : A -> M S (option B)) l1 x l2 s v s' :
  (forall y, y ∈ l1 -> body y s = Ok None s) ->
  body x s = Ok (Some v) s' ->
  for_until (l1 ++ x :: l2) body s = Ok (Some v) s'.
Proof.
  induction l1 as [|y l1 IH]; intros Hn Hx; simpl.
  - by rewrite (bind_ok _ _ _ _ _ Hx).
  - rewrite (bind_ok _ _ _ None s) by (apply Hn; left).
    apply IH; [|done]. intros z Hz. apply Hn. by right.
Qed.

Lemma arr_get_Some {A} (l : list A) i x :
  arr_get l i = Some x <-> 0 <= i /\ l !! Z.to_nat i = Some x.
Proof. unfold arr_get. case_decide; naive_solver. Qed.

Lemma arr_get_lt {A} (l : list A) i :
  0 <= i < Z.of_nat (length l) -> exists x, arr_get l i = Some x.
Proof.
  intros H. destruct (lookup_lt_is_Some_2 l (Z.to_nat i)) as [x Hx]; [lia|].
  exists x. apply arr_get_Some. split; [lia|done].
Qed.

Lemma arr_get_range {A} (l : list A) i x :
  arr_get l i = Some x -> 0 <= i < Z.of_nat (length l).
Proof. intros [? H]%arr_get_Some. apply lookup_lt_Some in H. lia. Qed.

Lemma arr_set_Some {A} (l : list A) i x :
  0 <= i < Z.of_nat (length l) -> arr_set l i x = Some (<[Z.to_nat i := x]> l).
Proof. intros. unfold arr_set. by rewrite decide_True. Qed.

Lemma arr_set_length {A} (l l' : list A) i x :
  arr_set l i x = Some l' -> length l' = length l.
Proof. unfold arr_set. case_decide; intros; simplify_eq. by rewrite length_insert. Qed.

Lemma arr_get_set {A} (l l' : list A) i j x :
  arr_set l i x = Some l' ->
  arr_get l' j = if decide (i = j) then Some x else arr_get l j.
Proof.
  unfold arr_set, arr_get. case_decide; intros; simplify_eq.
  repeat case_decide; subst; try lia; try done.
  - apply list_lookup_insert_eq. lia.
  - apply list_lookup_insert_ne. lia.
Qed.

Lemma arr_get_alter {A} (f : A -> A) (l : list A) i j :
  0 <= i ->
  arr_get (alter f (Z.to_nat i) l) j =
    if decide (i = j) then f <$> arr_get l j else arr_get l j.
Proof.
  intros. unfold arr_get. repeat case_decide; subst; try lia; try done.
  - by rewrite list_lookup_alter_eq.
  - rewrite list_lookup_alter_ne; [done|]. lia.
Qed.

Lemma alter_alter {A} (f g : A -> A) i (l : list A) :
  alter f i (alter g i l) = alter (fun x => f (g x)) i l.
Proof. revert i. induction l as [|x l IH]; intros [|i]; simpl; try done. f_equal. apply IH. Qed.

Lemma elem_of_zrange lo hi i : i ∈ zrange lo hi <-> lo <= i < hi.
Proof. unfold zrange. rewrite elem_of_seqZ. lia. Qed.

Lemma zrange_split lo mid hi :
  lo <= mid <= hi -> zrange lo hi = zrange lo mid ++ zrange mid hi.
Proof.
  intros. unfold zrange.
  replace (hi - lo) with ((mid - lo) + (hi - mid)) by lia.
  rewrite seqZ_app by lia. do 2 f_equal; lia.
Qed.

Lemma zrange_cons lo hi : lo < hi -> zrange lo hi = lo :: zrange (lo + 1) hi.
Proof. intros. unfold zrange. rewrite seqZ_cons by lia. f_equal. f_equal; lia. Qed.

Lemma zrange_nil lo hi : hi <= lo -> zrange lo hi = [].
Proof. intros. unfold zrange. apply seqZ_nil. lia. Qed.

Lemma zrange_one lo : zrange lo (lo + 1) = [lo].
Proof. rewrite zrange_cons by lia. by rewrite zrange_nil. Qed.

(** The first element of a list that satisfies [P], if any. *)
Lemma first_split {A} (P : A -> Prop) `{forall x, Decision (P x)} (l : list A) :
  (forall x, x ∈ l -> ~ P x) \/
  exists l1 x l2, l = l1 ++ x :: l2 /\ P x /\ forall y, y ∈ l1 -> ~ P y.
Proof.
  induction l as [|a l IH]; [left; by intros x Hx%not_elem_of_nil|].
  destruct (decide (P a)) as [Ha|Ha].
  - right. exists [], a, l. split_and!; try done. by intros y Hy%not_elem_of_nil.
  - destruct IH as [Hn|(l1 & x & l2 & -> & Hx & Hy)].
    + left. intros x [->|Hx]%elem_of_cons; [done|by apply Hn].
    + right. exists (a :: l1), x, l2. split_and!; try done.
      intros y [->|Hin]%elem_of_cons; [done|by apply Hy].
Qed.

(** ** Proof automation *)

Create HintDb cdb.
#[export] Hint Resolve uwrap_range swrap_range : cdb.
Create Rewrite HintDb clen.
#[export] Hint Rewrite @length_insert @length_replicate @length_app @length_seqZ : clen.

(** Invert every [bind] that is known to have succeeded. *)
Ltac inv_bind :=
  repeat match goal with
  | H : bind _ _ _ = Ok _ _ |- _ =>
      let a := fresh "a" in let s := fresh "s" in let E := fresh "E" in
      apply bind_inv in H as (a & s & E & H)
  | H : Ok _ _ = Ok _ _ |- _ => inversion H; subst; clear H
  | H : ret _ _ = Ok _ _ |- _ => unfold ret in H
  | H : gets _ _ = Ok _ _ |- _ => unfold gets in H
  | H : modify _ _ = Ok _ _ |- _ => unfold modify in H
  end.

(** Open existentials and conjunctions of the context. *)
Ltac deex :=
  repeat match goal with
  | H : exists x, _ |- _ => let x' := fresh x in destruct H as [x' H]
  | H : _ /\ _ |- _ => destruct H
  end.
