(* ===== verification/ListLib.v ===== *)
(** * The list library of phase 2 (a1-phase2/list.h, list_adders.c,
      list_movers.c, list_removers.c)

    Lists live in two static pools: [pool_nodes] (nodes linked by index through
    [next]/[prev], or through [link] while free) and [pool_lists].  A [LIST *]
    is [None] for NULL and [Some l] for [&pool_lists[l]]; a [void *] item is an
    address, 0 being NULL.  An index outside a pool is undefined behaviour in C
    and a fault here.  Messages printed to stdout are not part of the state. *)

From Stdlib Require Import ZArith Lia.
From stdpp Require Import base numbers list gmap strings.
From S2P Require Import Prelude.
Open Scope Z_scope.

Definition MAX_LISTS : Z := 2.
Definition MAX_NODES : Z := 10.

Record LIST : Type := mkLIST {
  head : Z; tail : Z; curr : Z; count : Z;
  before : Z; after : Z; llink : Z }.

Record NODE : Type := mkNODE { item : Z; next : Z; prev : Z; link : Z }.

Record lib : Type := mkLib {
  pool_nodes : list NODE;
  pool_lists : list LIST;
  free_node_head : Z;
  free_list_head : Z;
  initialized : Z }.

(** Field assignment, one function per assigned field. *)
Definition set_head v L := mkLIST v (tail L) (curr L) (count L) (before L) (after L) (llink L).
Definition set_tail v L := mkLIST (head L) v (curr L) (count L) (before L) (after L) (llink L).
Definition set_curr v L := mkLIST (head L) (tail L) v (count L) (before L) (after L) (llink L).
Definition set_count v L := mkLIST (head L) (tail L) (curr L) v (before L) (after L) (llink L).
Definition set_before v L := mkLIST (head L) (tail L) (curr L) (count L) v (after L) (llink L).
Definition set_after v L := mkLIST (head L) (tail L) (curr L) (count L) (before L) v (llink L).
Definition set_llink v L := mkLIST (head L) (tail L) (curr L) (count L) (before L) (after L) v.

Definition set_item v n := mkNODE v (next n) (prev n) (link n).
Definition set_next v n := mkNODE (item n) v (prev n) (link n).
Definition set_prev v n := mkNODE (item n) (next n) v (link n).
Definition set_link v n := mkNODE (item n) (next n) (prev n) v.

Definition with_nodes (f : list NODE -> list NODE) s :=
  mkLib (f (pool_nodes s)) (pool_lists s) (free_node_head s) (free_list_head s) (initialized s).
Definition with_lists (f : list LIST -> list LIST) s :=
  mkLib (pool_nodes s) (f (pool_lists s)) (free_node_head s) (free_list_head s) (initialized s).
Definition set_free_node_head v s :=
  mkLib (pool_nodes s) (pool_lists s) v (free_list_head s) (initialized s).
Definition set_free_list_head v s :=
  mkLib (pool_nodes s) (pool_lists s) (free_node_head s) v (initialized s).
Definition set_initialized v s :=
  mkLib (pool_nodes s) (pool_lists s) (free_node_head s) (free_list_head s) v.

(** The zero-initialised globals of mytestlist.c. *)
Definition NODE0 : NODE := mkNODE 0 0 0 0.
Definition LIST0 : LIST := mkLIST 0 0 0 0 0 0 0.
Definition lib0 : lib :=
  mkLib (replicate (Z.to_nat MAX_NODES) NODE0) (replicate (Z.to_nat MAX_LISTS) LIST0) 0 0 0.

(** [pool_nodes[i]], [pool_nodes[i].f = v], [pool_lists[i]], [list->f = v]. *)
Definition node (i : Z) : M lib NODE := fun s =>
  match arr_get (pool_nodes s) i with
  | Some nd => Ok nd s
  | None => Fault (Undef "pool_nodes index")
  end.
Definition upd_node (i : Z) (f : NODE -> NODE) : M lib unit := fun s =>
  match arr_get (pool_nodes s) i with
  | Some _ => Ok tt (with_nodes (alter f (Z.to_nat i)) s)
  | None => Fault (Undef "pool_nodes index")
  end.
Definition plist (i : Z) : M lib LIST := fun s =>
  match arr_get (pool_lists s) i with
  | Some L => Ok L s
  | None => Fault (Undef "pool_lists index")
  end.
Definition upd_list (i : Z) (f : LIST -> LIST) : M lib unit := fun s =>
  match arr_get (pool_lists s) i with
  | Some _ => Ok tt (with_lists (alter f (Z.to_nat i)) s)
  | None => Fault (Undef "pool_lists index")
  end.

(** ** list_adders.c *)

Definition nodeAllocator : M lib Z :=
  let! h := gets free_node_head in
  if decide (h = -1) then ret (-1)
  else
    let i := h in
    let! nd := node i in
    modify (set_free_node_head (link nd)) ;;
    upd_node i (set_link (-1)) ;;
    upd_node i (set_next (-1)) ;;
    upd_node i (set_prev (-1)) ;;
    ret i.

Definition ListAppend (list : option Z) (x : Z) : M lib Z :=
  match list with
  | None => ret (-1)
  | Some l =>
      if decide (x = 0) then ret (-1)
      else
        let! newNodeIdx := nodeAllocator in
        if decide (newNodeIdx = -1) then ret (-1)
        else
          upd_node newNodeIdx (set_item x) ;;
          let! L := plist l in
          (if decide (count L = 0) then
             upd_list l (fun L =>
               set_after 0 (set_before 0 (set_curr newNodeIdx
                 (set_tail newNodeIdx (set_head newNodeIdx L)))))
           else ret tt) ;;
          let! L := plist l in
          upd_node newNodeIdx (set_prev (curr L)) ;;
          upd_node (tail L) (set_next newNodeIdx) ;;
          upd_list l (set_tail newNodeIdx) ;;
          upd_list l (fun L => set_count (i32 (count L + 1)) L) ;;
          upd_list l (set_curr newNodeIdx) ;;
          upd_list l (set_before 0) ;;
          upd_list l (set_after 0) ;;
          ret 0
  end.

Definition ListPrepend (list : option Z) (x : Z) : M lib Z :=
  match list with
  | None => ret (-1)
  | Some l =>
      if decide (x = 0) then ret (-1)
      else
        let! newNodeIdx := nodeAllocator in
        if decide (newNodeIdx = -1) then ret (-1)
        else
          upd_node newNodeIdx (set_item x) ;;
          let! L := plist l in
          (if decide (count L = 0) then
             upd_list l (fun L =>
               set_after 0 (set_before 0 (set_curr newNodeIdx
                 (set_tail newNodeIdx (set_head newNodeIdx L)))))
           else ret tt) ;;
          let! L := plist l in
          upd_node newNodeIdx (set_item x) ;;
          upd_node newNodeIdx (set_next (head L)) ;;
          upd_node newNodeIdx (set_prev (-1)) ;;
          upd_node (head L) (set_prev newNodeIdx) ;;
          upd_list l (set_head newNodeIdx) ;;
          upd_list l (set_curr newNodeIdx) ;;
          upd_list l (fun L => set_count (i32 (count L + 1)) L) ;;
          ret 0
  end.

Definition ListAdd (list : option Z) (x : Z) : M lib Z :=
  match list with
  | None => ret (-1)
  | Some l =>
      if decide (x = 0) then ret (-1)
      else
        let! L := plist l in
        if decide (count L = 0 \/ after L = 1 \/ curr L = -1) then ListAppend list x
        else if decide (before L = 1) then ListPrepend list x
        else
          let! newNodeIdx := nodeAllocator in
          if decide (newNodeIdx = -1) then ret (-1)
          else
            let! L := plist l in
            upd_node newNodeIdx (set_prev (curr L)) ;;
            upd_node newNodeIdx (set_item x) ;;
            let! c := node (curr L) in
            upd_node newNodeIdx (set_next (next c)) ;;
            let! c := node (curr L) in
            (if decide (next c <> -1) then
               upd_node (next c) (set_prev newNodeIdx)
             else ret tt) ;;
            upd_node (curr L) (set_next newNodeIdx) ;;
            upd_list l (fun L => set_count (i32 (count L + 1)) L) ;;
            ret 0
  end.

Definition ListInsert (list : option Z) (x : Z) : M lib Z :=
  match list with
  | None => ret (-1)
  | Some l =>
      if decide (x = 0) then ret (-1)
      else
        let! L := plist l in
        if decide (count L = 0) then ListAppend list x
        else if decide (before L = 1) then ListPrepend list x
        else if decide (after L = 1) then ListAppend list x
        else
          let! newNodeIdx := nodeAllocator in
          if decide (newNodeIdx = -1) then ret (-1)
          else
            let! L := plist l in
            upd_node newNodeIdx (set_item x) ;;
            upd_node newNodeIdx (set_next (curr L)) ;;
            let! c := node (curr L) in
            upd_node newNodeIdx (set_prev (prev c)) ;;
            let! c := node (curr L) in
            (if decide (prev c <> -1) then
               upd_node (prev c) (set_next newNodeIdx)
             else ret tt) ;;
            upd_node (curr L) (set_prev newNodeIdx) ;;
            (if decide (head L = curr L) then upd_list l (set_head newNodeIdx)
             else ret tt) ;;
            upd_list l (set_curr newNodeIdx) ;;
            upd_list l (fun L => set_count (i32 (count L + 1)) L) ;;
            ret 0
  end.

(** ** list_movers.c *)

Definition ListCount (list : option Z) : M lib Z :=
  match list with
  | None => ret (-1)
  | Some l => let! L := plist l in ret (count L)
  end.

Definition ListSearch (list : option Z) (comparator : option (Z -> Z -> Z))
    (comparisonArg : Z) : M lib Z :=
  match list, comparator with
  | Some _, Some _ => ret 0
  | _, _ => ret 0
  end.

Definition ListFirst (list : option Z) : M lib Z :=
  match list with
  | None => ret 0
  | Some l =>
      let! L := plist l in
      if decide (count L = 0) then ret 0
      else
        upd_list l (set_curr (head L)) ;;
        upd_list l (set_before 0) ;;
        upd_list l (set_after 0) ;;
        let! L := plist l in
        let! c := node (curr L) in
        ret (item c)
  end.

Definition ListLast (list : option Z) : M lib Z :=
  match list with
  | None => ret 0
  | Some l =>
      let! L := plist l in
      if decide (count L = 0) then ret 0
      else
        upd_list l (set_curr (tail L)) ;;
        upd_list l (set_before 0) ;;
        let! L := plist l in
        let! c := node (curr L) in
        ret (item c)
  end.

Definition ListNext (list : option Z) : M lib Z :=
  match list with
  | None => ret 0
  | Some l =>
      let! L := plist l in
      if decide (after L = 1) then ret 0
      else
        let! c := node (curr L) in
        upd_list l (set_curr (next c)) ;;
        if decide (next c = -1) then
          upd_list l (set_after 1) ;;
          upd_list l (set_before 0) ;;
          ret 0
        else
          let! d := node (next c) in
          ret (item d)
  end.

Definition ListPrev (list : option Z) : M lib Z :=
  match list with
  | None => ret 0
  | Some l =>
      let! L := plist l in
      if decide (before L = 1) then ret 0
      else
        let! c := node (curr L) in
        upd_list l (set_curr (prev c)) ;;
        if decide (prev c = -1) then
          upd_list l (set_before 1) ;;
          upd_list l (set_after 0) ;;
          ret 0
        else
          let! d := node (prev c) in
          ret (item d)
  end.

Definition ListCurr (list : option Z) : M lib Z :=
  match list with
  | None => ret 0
  | Some l =>
      let! L := plist l in
      if decide (curr L <> -1) then let! c := node (curr L) in ret (item c)
      else ret 0
  end.

(** ** list_removers.c *)

Definition init_pools : M lib unit :=
  for_each (zrange 0 MAX_NODES) (fun i =>
    upd_node i (set_next (-1)) ;;
    upd_node i (set_prev (-1)) ;;
    upd_node i (set_item 0) ;;
    upd_node i (set_link (i + 1))) ;;
  upd_node (MAX_NODES - 1) (set_link (-1)) ;;
  for_each (zrange 0 MAX_LISTS) (fun i =>
    upd_list i (set_head (-1)) ;;
    upd_list i (set_tail (-1)) ;;
    upd_list i (set_curr (-1)) ;;
    upd_list i (set_count 0) ;;
    upd_list i (set_before 1) ;;
    upd_list i (set_after 0) ;;
    upd_list i (set_llink (i + 1))) ;;
  upd_list (MAX_LISTS - 1) (set_llink (-1)) ;;
  modify (set_initialized 1).

Definition ListCreate : M lib (option Z) :=
  let! b := gets initialized in
  (if decide (b = 0) then init_pools else ret tt) ;;
  let! freeListIdx := gets free_list_head in
  if decide (freeListIdx = -1) then ret None
  else
    let! L := plist freeListIdx in
    modify (set_free_list_head (llink L)) ;;
    upd_list freeListIdx (set_llink (-1)) ;;
    ret (Some freeListIdx).

Definition ListRemove (list : option Z) : M lib Z :=
  match list with None => ret 0 | Some _ => ret 0 end.

Definition ListConcat (list1 list2 : option Z) : M lib unit :=
  match list1, list2 with
  | Some l1, Some l2 =>
      let! L2 := plist l2 in
      if decide (count L2 = 0) then ret tt
      else
        let! L1 := plist l1 in
        let! L2 := plist l2 in
        upd_node (tail L1) (set_next (head L2)) ;;
        upd_node (head L2) (set_prev (tail L1)) ;;
        upd_list l1 (set_tail (tail L2)) ;;
        let! L1 := plist l1 in
        let! L2 := plist l2 in
        upd_list l1 (set_count (i32 (count L1 + count L2))) ;;
        upd_list l2 (set_head (-1)) ;;
        upd_list l2 (set_tail (-1)) ;;
        upd_list l2 (set_curr (-1)) ;;
        upd_list l2 (set_count 0) ;;
        upd_list l2 (set_before 1) ;;
        upd_list l2 (set_after 0)
  | _, _ => ret tt
  end.

Definition ListFree (list : option Z) (itemFree : option (Z -> M lib unit)) : M lib unit :=
  match list with None => ret tt | Some _ => ret tt end.

Definition ListTrim (list : option Z) : M lib Z :=
  match list with None => ret 0 | Some _ => ret 0 end.
