(* ===== verification/ListLibSpec.v ===== *)
(** * Specification of the list library

    [lib_rep s fs abs] relates a state of the pools to the free nodes [fs], in
    allocation order, and to the abstract lists [abs]: for each list its nodes
    in order and the items they hold.  Every node is free or on exactly one
    list.  The forward links and the counts are what the library maintains on
    every path; the [prev] links are not part of the invariant because
    [ListAppend] does not keep them (see the theorems at the end). *)

From Stdlib Require Import ZArith Lia.
From stdpp Require Import base numbers list gmap strings.
From S2P Require Import Prelude ListLib.
Open Scope Z_scope.

Definition fnode (nodes : list NODE) (n : Z) : option (Z * Z) :=
  (fun nd => (item nd, next nd)) <$> arr_get nodes n.

(** [ns] is the chain of nodes from [h] through [next], holding [xs]; the
    [next] of the last node is unconstrained. *)
Fixpoint fwd (nodes : list NODE) (h : Z) (ns xs : list Z) : Prop :=
  match ns, xs with
  | [], [] => True
  | n :: ns', x :: xs' =>
      h = n /\ exists nx, fnode nodes n = Some (x, nx) /\ fwd nodes nx ns' xs'
  | _, _ => False
  end.

(** The free list from [h] through [link], ended by -1. *)
Fixpoint free_chain (nodes : list NODE) (h : Z) (fs : list Z) : Prop :=
  match fs with
  | [] => h = -1
  | f :: fs' => h = f /\ exists nd, arr_get nodes f = Some nd /\ free_chain nodes (link nd) fs'
  end.

Record list_rep (nodes : list NODE) (L : LIST) (ns xs : list Z) : Prop := {
  lr_count : count L = Z.of_nat (length ns);
  lr_fwd : fwd nodes (head L) ns xs;
  lr_tail : forall t, last ns = Some t -> tail L = t;
  lr_curr : curr L = -1 \/ curr L ∈ ns }.

Record lib_rep (s : lib) (fs : list Z) (abs : list (list Z * list Z)) : Prop := {
  lib_nodes : length (pool_nodes s) = Z.to_nat MAX_NODES;
  lib_lists : length (pool_lists s) = length abs;
  lib_free : free_chain (pool_nodes s) (free_node_head s) fs;
  lib_part : fs ++ concat (abs.*1) ≡ₚ zrange 0 MAX_NODES;
  lib_each : forall i L ns xs,
    arr_get (pool_lists s) i = Some L -> arr_get abs i = Some (ns, xs) ->
    list_rep (pool_nodes s) L ns xs }.

(** ** Segments of nodes *)

Lemma fwd_length nodes h ns xs : fwd nodes h ns xs -> length ns = length xs.
Proof.
  revert h xs. induction ns as [|n ns IH]; intros h [|x xs]; simpl; try done.
  intros (-> & nx & _ & H). f_equal. eauto.
Qed.

Lemma fwd_cons nodes n ns x xs nx :
  fnode nodes n = Some (x, nx) -> fwd nodes nx ns xs -> fwd nodes n (n :: ns) (x :: xs).
Proof. intros. split; [done|]. by exists nx. Qed.

Lemma fwd_frame nodes nodes' h ns xs :
  (forall n, n ∈ ns -> fnode nodes' n = fnode nodes n) ->
  fwd nodes h ns xs -> fwd nodes' h ns xs.
Proof.
  revert h xs. induction ns as [|n ns IH]; intros h [|x xs] Hf; simpl; try done.
  intros (-> & nx & Hn & H). split; [done|]. exists nx. split.
  - rewrite Hf; [done|left].
  - apply IH; [|done]. intros m Hm. apply Hf. by right.
Qed.

Lemma fwd_app_intro nodes h ns1 xs1 t xt nx ns2 xs2 :
  fwd nodes h ns1 xs1 -> last ns1 = Some t -> fnode nodes t = Some (xt, nx) ->
  fwd nodes nx ns2 xs2 -> fwd nodes h (ns1 ++ ns2) (xs1 ++ xs2).
Proof.
  revert h xs1. induction ns1 as [|n ns1 IH]; intros h [|x xs1]; simpl; try done.
  intros (-> & ny & Hn & H) Hl Ht H2. split; [done|]. exists ny. split; [done|].
  destruct ns1 as [|n' ns1].
  - destruct xs1; [|done]. simplify_eq/=. congruence.
  - eapply IH; eauto.
Qed.

Lemma fwd_app_elim nodes h ns1 ns2 xs1 xs2 :
  length ns1 = length xs1 ->
  fwd nodes h (ns1 ++ ns2) (xs1 ++ xs2) ->
  fwd nodes h ns1 xs1 /\
  (forall t, last ns1 = Some t ->
     exists xt nx, fnode nodes t = Some (xt, nx) /\ fwd nodes nx ns2 xs2) /\
  (ns1 = [] -> fwd nodes h ns2 xs2).
Proof.
  revert h xs1. induction ns1 as [|n ns1 IH]; intros h [|x xs1] Hlen; simpl in *; try done.
  injection Hlen as Hlen. intros (-> & nx & Hn & H).
  destruct (IH nx xs1 Hlen H) as (H1 & H2 & H3).
  split; [by eauto|split; [|done]].
  intros t Ht. destruct ns1 as [|n' ns1]; [|by apply H2].
  simplify_eq/=. exists x, nx. split; [done|]. by apply H3.
Qed.

(** Redirecting the [next] of the last node does not disturb the chain. *)
Lemma fwd_set_last nodes nodes' h ns xs t xt nx nx' :
  fwd nodes h ns xs -> last ns = Some t -> NoDup ns ->
  fnode nodes t = Some (xt, nx) -> fnode nodes' t = Some (xt, nx') ->
  (forall m, m ∈ ns -> m <> t -> fnode nodes' m = fnode nodes m) ->
  fwd nodes' h ns xs.
Proof.
  intros Hf Hl Hnd Ht Ht' Hm. apply last_Some in Hl as (ns1 & ->).
  assert (exists xs1, xs = xs1 ++ [xt] /\ length ns1 = length xs1) as (xs1 & -> & Hlen).
  { destruct (exists_last (l := xs)) as (xs1 & y & ->).
    { intros ->. apply fwd_length in Hf. rewrite length_app in Hf. simpl in Hf. lia. }
    assert (length ns1 = length xs1) as Hlen.
    { apply fwd_length in Hf. rewrite !length_app in Hf. simpl in Hf. lia. }
    exists xs1. split; [|done]. f_equal.
    destruct ns1 as [|a ns1 _] using rev_ind.
    { destruct xs1; [|done]. simpl in Hf. destruct Hf as (_ & ? & ? & _). congruence. }
    apply fwd_app_elim in Hf as (_ & H & _); [|done].
    destruct (H a) as (? & ? & _ & Hy); [by rewrite last_snoc|]. simpl in Hy.
    destruct Hy as (_ & ? & ? & _). congruence. }
  apply NoDup_app in Hnd as (Hnd & Hdisj & _).
  pose proof (fwd_app_elim _ _ _ _ _ _ Hlen Hf) as (H1 & H2 & H3).
  destruct ns1 as [|a ns1 _] using rev_ind.
  - destruct xs1; [|done]. simpl in *. destruct Hf as (-> & _). eauto.
  - assert (a ≠ t) as Hat.
    { intros ->. apply (Hdisj t); [|by left]. apply elem_of_app. right. by left. }
    destruct (H2 a) as (xa & na & Ha & Hrest); [by rewrite last_snoc|].
    eapply (fwd_app_intro _ _ _ _ a xa na); [|by rewrite last_snoc| |].
    + eapply fwd_frame; [|exact H1]. intros m Hmem. apply Hm.
      * apply elem_of_app. by left.
      * intros ->. by apply (Hdisj t); [|left].
    + rewrite Hm; [done| |done]. apply elem_of_app. left. apply elem_of_app. right. by left.
    + simpl in *. destruct Hrest as (-> & _). eauto.
Qed.

Lemma fwd_lookup nodes h ns xs n :
  fwd nodes h ns xs -> n ∈ ns -> exists x nx, fnode nodes n = Some (x, nx).
Proof.
  revert h xs. induction ns as [|m ns IH]; intros h [|x xs]; simpl; try done.
  - by intros _ ?%elem_of_nil.
  - intros (-> & nx & Hn & H) [->|Hin]%elem_of_cons; eauto.
Qed.

Lemma free_chain_frame nodes nodes' h fs :
  (forall n, n ∈ fs -> link <$> arr_get nodes' n = link <$> arr_get nodes n) ->
  free_chain nodes h fs -> free_chain nodes' h fs.
Proof.
  revert h. induction fs as [|f fs IH]; intros h Hf; simpl; [done|].
  intros (-> & nd & Hn & H). split; [done|].
  specialize (Hf f ltac:(left)) as Hff. rewrite Hn in Hff. simpl in Hff.
  destruct (arr_get nodes' f) as [nd'|] eqn:E; [|done]. simplify_eq/=.
  exists nd'. split; [done|]. apply IH; [|congruence]. intros n Hin. apply Hf. by right.
Qed.

(** ** Partition of the nodes *)

Lemma concat_insert_perm (abs : list (list Z * list Z)) i y y' :
  abs !! i = Some y ->
  exists rest, concat (abs.*1) ≡ₚ y.1 ++ rest /\
               concat ((<[i := y']> abs).*1) ≡ₚ y'.1 ++ rest.
Proof.
  intros Hi. exists (concat ((take i abs).*1) ++ concat ((drop (S i) abs).*1)).
  assert (i < length abs)%nat as Hlt by (by eapply lookup_lt_Some).
  split.
  - rewrite <- (take_drop_middle _ _ _ Hi) at 1.
    rewrite fmap_app, fmap_cons, concat_app. simpl. by rewrite Permutation_app_swap_app.
  - rewrite insert_take_drop by done.
    rewrite fmap_app, fmap_cons, concat_app. simpl. by rewrite Permutation_app_swap_app.
Qed.

(** Membership in concatenations, and the disequalities that follow. *)
Ltac mem :=
  first [ assumption | apply list_elem_of_here | apply list_elem_of_further; mem
        | apply elem_of_app; left; mem | apply elem_of_app; right; mem ].
Ltac ne :=
  let E := fresh in intros E;
  match goal with
  | H : ?x ∉ _ |- False => apply H; first [rewrite E | rewrite <- E]; mem
  | H : forall y, y ∈ _ -> y ∉ _, Hx : ?x ∈ _ |- False =>
      apply (H x Hx); first [rewrite E | rewrite <- E]; mem
  end.

Section part.
Context (s : lib) (fs : list Z) (abs : list (list Z * list Z)).
Hypothesis Hrep : lib_rep s fs abs.

Lemma part_NoDup : NoDup (fs ++ concat (abs.*1)).
Proof. rewrite (lib_part _ _ _ Hrep). apply NoDup_seqZ. Qed.

Lemma part_range n : n ∈ fs ++ concat (abs.*1) -> 0 <= n < Z.of_nat (length (pool_nodes s)).
Proof.
  rewrite (lib_part _ _ _ Hrep), elem_of_zrange, (lib_nodes _ _ _ Hrep).
  unfold MAX_NODES. lia.
Qed.

Lemma abs_elem i ns xs n : arr_get abs i = Some (ns, xs) -> n ∈ ns -> n ∈ concat (abs.*1).
Proof.
  intros [? Hi]%arr_get_Some Hn. apply list_elem_of_In, in_concat. exists ns.
  split; apply list_elem_of_In; [|done]. apply list_elem_of_fmap.
  exists (ns, xs). split; [done|]. by apply list_elem_of_lookup_2 in Hi.
Qed.

Lemma free_not_listed i ns xs f : f ∈ fs -> arr_get abs i = Some (ns, xs) -> f ∉ ns.
Proof.
  intros Hf Hi Hn. pose proof part_NoDup as HN. apply NoDup_app in HN as (_ & HN & _).
  apply (HN f Hf). by eapply abs_elem.
Qed.

Lemma listed_NoDup i ns xs : arr_get abs i = Some (ns, xs) -> NoDup ns.
Proof.
  intros [? Hi]%arr_get_Some. pose proof part_NoDup as HN. apply NoDup_app in HN as (_ & _ & HN).
  destruct (concat_insert_perm abs (Z.to_nat i) (ns, xs) (ns, xs) Hi) as (r & Hr & _).
  rewrite Hr in HN. by apply NoDup_app in HN as (? & _).
Qed.

Lemma listed_disjoint i j ns xs ns' xs' n :
  i <> j -> arr_get abs i = Some (ns, xs) -> arr_get abs j = Some (ns', xs') ->
  n ∈ ns -> n ∉ ns'.
Proof.
  intros Hij Hi Hj Hn Hn'. apply arr_get_Some in Hi as [? Hi].
  pose proof part_NoDup as HN. apply NoDup_app in HN as (_ & _ & HN).
  destruct (concat_insert_perm abs (Z.to_nat i) (ns, xs) ([], []) Hi) as (r & Hr & Hr').
  rewrite Hr in HN. apply NoDup_app in HN as (_ & HN & _). apply (HN n Hn).
  simpl in Hr'. rewrite <- Hr'. apply list_elem_of_In, in_concat. exists ns'.
  split; apply list_elem_of_In; [|done]. apply list_elem_of_fmap.
  exists (ns', xs'). split; [done|]. apply arr_get_Some in Hj as [? Hj].
  apply list_elem_of_lookup_2 with (Z.to_nat j). rewrite list_lookup_insert_ne; [done|lia].
Qed.
End part.

Lemma listed_length s fs abs i ns xs :
  lib_rep s fs abs -> arr_get abs i = Some (ns, xs) ->
  (length fs + length ns <= Z.to_nat MAX_NODES)%nat.
Proof.
  intros Hrep [? Hi]%arr_get_Some. pose proof (lib_part _ _ _ Hrep) as Hp.
  destruct (concat_insert_perm abs (Z.to_nat i) (ns, xs) (ns, xs) Hi) as (r & Hr & _).
  rewrite Hr in Hp. apply Permutation_length in Hp.
  unfold zrange in Hp. rewrite !length_app, length_seqZ in Hp. simpl in Hp.
  rewrite Z.sub_0_r in Hp. lia.
Qed.

(** The state of one list changes, nodes move between it and the free list. *)
Lemma lib_rep_update s s' fs fs' abs l ns xs ns' xs' L' :
  lib_rep s fs abs -> arr_get abs l = Some (ns, xs) ->
  length (pool_nodes s') = length (pool_nodes s) ->
  length (pool_lists s') = length (pool_lists s) ->
  (forall j, j <> l -> arr_get (pool_lists s') j = arr_get (pool_lists s) j) ->
  arr_get (pool_lists s') l = Some L' -> list_rep (pool_nodes s') L' ns' xs' ->
  fs' ++ ns' ≡ₚ fs ++ ns ->
  (forall n, n ∉ fs -> n ∉ ns -> fnode (pool_nodes s') n = fnode (pool_nodes s) n) ->
  free_chain (pool_nodes s') (free_node_head s') fs' ->
  lib_rep s' fs' (<[Z.to_nat l := (ns', xs')]> abs).
Proof.
  intros Hrep Hl Hn Hls Hother HL' HR Hperm Hfr Hfree.
  pose proof (arr_get_range _ _ _ Hl) as Hlr. apply arr_get_Some in Hl as Hl'. destruct Hl' as [_ Hl'].
  split.
  - rewrite Hn. apply Hrep.
  - rewrite Hls, length_insert. apply Hrep.
  - done.
  - destruct (concat_insert_perm abs (Z.to_nat l) (ns, xs) (ns', xs') Hl') as (r & Hr & Hr').
    rewrite Hr', app_assoc. simpl. rewrite Hperm, <- app_assoc.
    rewrite <- (lib_part _ _ _ Hrep), Hr. done.
  - intros j L ns1 xs1 HLj Hj.
    rewrite (arr_get_set abs _ l j (ns', xs')) in Hj; [|apply arr_set_Some; done].
    case_decide; [simplify_eq; congruence|].
    rewrite Hother in HLj by done. destruct (lib_each _ _ _ Hrep _ _ _ _ HLj Hj).
    split; try done. eapply fwd_frame; [|done]. intros n Hin. apply Hfr.
    + intros Hf. eapply free_not_listed; eauto.
    + intros Hin'. eapply (listed_disjoint _ _ _ Hrep l j); eauto.
Qed.

(** ** Running the primitive accesses *)

Section run.
Context {A : Type}.
Implicit Type s : lib.

Lemma upd_node_run i f (k : unit -> M lib A) s :
  0 <= i < Z.of_nat (length (pool_nodes s)) ->
  bind (upd_node i f) k s = k tt (with_nodes (alter f (Z.to_nat i)) s).
Proof. intros [nd H]%arr_get_lt. unfold bind, upd_node. by rewrite H. Qed.

Lemma upd_list_run i f (k : unit -> M lib A) s :
  0 <= i < Z.of_nat (length (pool_lists s)) ->
  bind (upd_list i f) k s = k tt (with_lists (alter f (Z.to_nat i)) s).
Proof. intros [nd H]%arr_get_lt. unfold bind, upd_list. by rewrite H. Qed.

Lemma plist_run i L (k : LIST -> M lib A) s :
  arr_get (pool_lists s) i = Some L -> bind (plist i) k s = k L s.
Proof. unfold bind, plist. by intros ->. Qed.

Lemma node_run i nd (k : NODE -> M lib A) s :
  arr_get (pool_nodes s) i = Some nd -> bind (node i) k s = k nd s.
Proof. unfold bind, node. by intros ->. Qed.
End run.

Ltac pool_cbn :=
  cbn [with_nodes with_lists set_free_node_head set_free_list_head set_initialized
       pool_nodes pool_lists free_node_head free_list_head initialized].
Ltac list_cbn :=
  cbv beta iota delta [head tail curr count before after llink item next prev link set_head set_tail set_curr
       set_count set_before set_after set_llink set_item set_next set_prev set_link].
Ltac range := pool_cbn; list_cbn; rewrite ?length_alter; lia.
(** Decide each comparison of node indices left by the lemmas above. *)
Ltac dec :=
  repeat first [ rewrite decide_True by (first [done | congruence])
               | rewrite decide_False by (first [done | congruence | apply not_eq_sym; done]) ].
Ltac lookup :=
  pool_cbn; rewrite ?arr_get_alter by lia; dec;
  repeat match goal with H : arr_get _ _ = Some _ |- _ => rewrite H end;
  cbn [fmap option_fmap option_map]; list_cbn; reflexivity.
Ltac run :=
  repeat (first [ rewrite upd_node_run by range | rewrite upd_list_run by range
                | erewrite plist_run by lookup | erewrite node_run by lookup ];
          cbn beta iota;
          cbn [head tail curr count before after llink item next prev link]).

(** A successful allocation takes the first free node and clears its links. *)
Lemma nodeAllocator_run s f fs abs :
  lib_rep s (f :: fs) abs ->
  exists s1, nodeAllocator s = Ok f s1 /\
    0 <= f < Z.of_nat (length (pool_nodes s1)) /\
    length (pool_nodes s1) = length (pool_nodes s) /\
    pool_lists s1 = pool_lists s /\
    free_chain (pool_nodes s1) (free_node_head s1) fs /\
    (forall n, n <> f -> arr_get (pool_nodes s1) n = arr_get (pool_nodes s) n) /\
    free_list_head s1 = free_list_head s /\ initialized s1 = initialized s.
Proof.
  intros Hrep. pose proof (lib_free _ _ _ Hrep) as Hfree.
  pose proof (part_range _ _ _ Hrep f ltac:(left)) as Hr.
  pose proof (part_NoDup _ _ _ Hrep) as Hnd.
  simpl in Hfree. destruct Hfree as (Hh & nd & Hn & Hfree).
  unfold nodeAllocator. rewrite (bind_ok _ _ s (free_node_head s) s) by done.
  rewrite decide_False by lia. rewrite Hh. erewrite node_run by done.
  rewrite (bind_ok _ _ _ tt (set_free_node_head (link nd) s)) by done. run.
  eexists. split; [reflexivity|]. pool_cbn. rewrite !length_alter.
  split_and!; try lia; try done.
  - eapply free_chain_frame; [|exact Hfree]. intros n Hin.
    assert (f <> n) by (apply NoDup_cons in Hnd as [Hnd _]; set_solver).
    by rewrite !arr_get_alter, !decide_False by (lia || done).
  - intros n Hne. by rewrite !arr_get_alter, !decide_False by (lia || done).
Qed.

Lemma nodeAllocator_full s abs :
  lib_rep s [] abs -> nodeAllocator s = Ok (-1) s.
Proof.
  intros Hrep. pose proof (lib_free _ _ _ Hrep) as Hh. simpl in Hh.
  unfold nodeAllocator, bind, gets. by rewrite decide_True.
Qed.

(** ** The effect of a field assignment on links and items *)

Lemma fnode_next v i nodes n :
  0 <= i -> fnode (alter (set_next v) (Z.to_nat i) nodes) n =
    if decide (i = n) then (fun p => (p.1, v)) <$> fnode nodes n else fnode nodes n.
Proof. intros. unfold fnode. rewrite arr_get_alter by done. case_decide; [by destruct (arr_get nodes n)|done]. Qed.

Lemma fnode_item v i nodes n :
  0 <= i -> fnode (alter (set_item v) (Z.to_nat i) nodes) n =
    if decide (i = n) then (fun p => (v, p.2)) <$> fnode nodes n else fnode nodes n.
Proof. intros. unfold fnode. rewrite arr_get_alter by done. case_decide; [by destruct (arr_get nodes n)|done]. Qed.

Lemma fnode_prev v i nodes n :
  0 <= i -> fnode (alter (set_prev v) (Z.to_nat i) nodes) n = fnode nodes n.
Proof. intros. unfold fnode. rewrite arr_get_alter by done. case_decide; [by destruct (arr_get nodes n)|done]. Qed.

Lemma link_alter f i nodes n :
  (forall nd, link (f nd) = link nd) -> 0 <= i ->
  link <$> arr_get (alter f (Z.to_nat i) nodes) n = link <$> arr_get nodes n.
Proof.
  intros Hf ?. rewrite arr_get_alter by done. case_decide; [|done].
  destruct (arr_get nodes n); simpl; [by rewrite Hf|done].
Qed.

Lemma fnode_same nodes nodes' n :
  arr_get nodes n = arr_get nodes' n -> fnode nodes n = fnode nodes' n.
Proof. unfold fnode. by intros ->. Qed.

Ltac fnodes :=
  repeat first [rewrite fnode_next by lia | rewrite fnode_item by lia | rewrite fnode_prev by lia];
  dec.
Ltac gets := rewrite ?arr_get_alter by lia; dec.
Ltac free_frame :=
  eapply free_chain_frame; [|eassumption]; intros; rewrite ?link_alter by (done || lia); done.

Lemma count_incr (ns ns' : list Z) :
  (length ns < Z.to_nat MAX_NODES)%nat -> length ns' = S (length ns) ->
  i32 (Z.of_nat (length ns) + 1) = Z.of_nat (length ns').
Proof.
  intros H ->. rewrite i32_small; [lia|]. unfold in_int, INT_MIN, INT_MAX, MAX_NODES in *. lia.
Qed.

(** What an adder knows of the list it works on and of the node it allocates. *)
Record adding (s s1 : lib) (f : Z) (fs : list Z) (l : Z) (L : LIST) (ns xs : list Z) : Prop := {
  ad_alloc : nodeAllocator s = Ok f s1;
  ad_get : arr_get (pool_lists s) l = Some L;
  ad_get1 : arr_get (pool_lists s1) l = Some L;
  ad_rep : list_rep (pool_nodes s) L ns xs;
  ad_lists : pool_lists s1 = pool_lists s;
  ad_l : 0 <= l < Z.of_nat (length (pool_lists s1));
  ad_len : (length ns < Z.to_nat MAX_NODES)%nat;
  ad_fns : f ∉ ns;
  ad_ffs : f ∉ fs;
  ad_nodup : NoDup ns;
  ad_nodes : length (pool_nodes s1) = length (pool_nodes s);
  ad_f : 0 <= f < Z.of_nat (length (pool_nodes s1));
  ad_ns : forall n, n ∈ ns -> 0 <= n < Z.of_nat (length (pool_nodes s1));
  ad_free : free_chain (pool_nodes s1) (free_node_head s1) fs;
  ad_same : forall n, n <> f -> arr_get (pool_nodes s1) n = arr_get (pool_nodes s) n;
  ad_fn : exists x0 nx0, fnode (pool_nodes s1) f = Some (x0, nx0);
  ad_fwd : fwd (pool_nodes s1) (head L) ns xs }.

Lemma adder_start s f fs abs l ns xs :
  lib_rep s (f :: fs) abs -> arr_get abs l = Some (ns, xs) ->
  exists s1 L, adding s s1 f fs l L ns xs.
Proof.
  intros Hrep Hl. pose proof (arr_get_range _ _ _ Hl) as Hr.
  rewrite <- (lib_lists _ _ _ Hrep) in Hr. destruct (arr_get_lt _ _ Hr) as [L HL].
  destruct (nodeAllocator_run s f fs abs Hrep) as (s1 & Ha & Hf & Hn & Hls & Hfree & Hsame & _).
  pose proof (lib_each _ _ _ Hrep _ _ _ _ HL Hl) as HR.
  assert (f ∉ ns) as Hfns by (eapply free_not_listed; [done|left|done]).
  exists s1, L. split; rewrite ?Hls; try done; try congruence.
  - pose proof (listed_length _ _ _ _ _ _ Hrep Hl) as H. simpl in H. lia.
  - pose proof (part_NoDup _ _ _ Hrep) as H. apply NoDup_cons in H as [H _]. set_solver.
  - by eapply listed_NoDup.
  - intros n Hin. rewrite Hn. eapply part_range; [done|]. apply elem_of_app. right.
    by eapply abs_elem.
  - destruct (arr_get_lt _ _ Hf) as [nd Hnd]. unfold fnode. rewrite Hnd. simpl. eauto.
  - eapply fwd_frame; [|apply HR]. intros n Hin. apply fnode_same, Hsame. congruence.
Qed.

(** Rebuilding [lib_rep] at the end of an adder: the new node joins list [l]
    and the nodes of no other list change. *)
Lemma adder_finish s s1 s' f fs abs l L ns xs ns' xs' L' :
  lib_rep s (f :: fs) abs -> arr_get abs l = Some (ns, xs) ->
  adding s s1 f fs l L ns xs ->
  length (pool_nodes s') = length (pool_nodes s1) ->
  (exists g, pool_lists s' = alter g (Z.to_nat l) (pool_lists s1) /\ L' = g L) ->
  ns' ≡ₚ f :: ns ->
  (forall n, n <> f -> n ∉ ns -> fnode (pool_nodes s') n = fnode (pool_nodes s1) n) ->
  free_chain (pool_nodes s') (free_node_head s') fs ->
  list_rep (pool_nodes s') L' ns' xs' ->
  lib_rep s' fs (<[Z.to_nat l := (ns', xs')]> abs) /\ arr_get (pool_lists s') l = Some L'.
Proof.
  intros Hrep Hl Had Hn (g & Hg & ->) Hperm Hfr Hfree HR.
  pose proof (ad_l _ _ _ _ _ _ _ _ Had) as Hlr. pose proof (ad_lists _ _ _ _ _ _ _ _ Had) as Hls.
  assert (arr_get (pool_lists s') l = Some (g L)) as HL'.
  { rewrite Hg. gets. by rewrite (ad_get1 _ _ _ _ _ _ _ _ Had). }
  split; [|done]. eapply lib_rep_update; try done.
  - rewrite Hn. apply Had.
  - rewrite Hg, length_alter. by rewrite Hls.
  - intros j Hj. rewrite Hg, arr_get_alter, decide_False by (lia || done). by rewrite Hls.
  - rewrite Hperm. simpl. symmetry. apply Permutation_middle.
  - intros n H1 H2. rewrite Hfr by set_solver. apply fnode_same, Had. set_solver.
Qed.

Ltac one_alter := eexists; rewrite ?alter_alter; split; reflexivity.

Lemma ListAppend_rep s f fs abs l ns xs x :
  lib_rep s (f :: fs) abs -> arr_get abs l = Some (ns, xs) -> x <> 0 ->
  exists s' L', ListAppend (Some l) x s = Ok 0 s' /\
    (curr L' = f /\ before L' = 0 /\ after L' = 0) /\
    lib_rep s' fs (<[Z.to_nat l := (ns ++ [f], xs ++ [x])]> abs) /\
    arr_get (pool_lists s') l = Some L'.
Proof.
  intros Hrep Hl Hx. destruct (adder_start _ _ _ _ _ _ _ Hrep Hl) as (s1 & L & Had).
  pose proof Had as [Ha _ HL [Hc _ Ht Hcu] Hls Hlr Hlen Hfns Hffs Hnd Hn Hfr Hns Hfree Hsame (x0 & nx0 & Hf) Hfw].
  unfold ListAppend. rewrite decide_False by done.
  rewrite (bind_ok _ _ _ _ _ Ha). rewrite decide_False by lia. run.
  destruct (last ns) as [t|] eqn:Hlast.
  - assert (t ∈ ns) as Htin by (apply last_Some in Hlast as (? & ->); mem).
    assert (f <> t) as Hft by congruence. pose proof (Hns t Htin) as Htr.
    rewrite decide_False by (rewrite Hc; destruct ns; simpl in *; [done|lia]).
    rewrite (bind_ok _ _ _ tt _) by reflexivity.
    erewrite plist_run by lookup. rewrite (Ht t eq_refl). run.
    destruct (fwd_lookup _ _ _ _ _ Hfw Htin) as (xt & nx & Hxt).
    eexists _, (set_after 0 (set_before 0 (set_curr f (set_count _ (set_tail f L))))).
    split; [reflexivity|]. split; [done|].
    eapply adder_finish; try done; pool_cbn; rewrite ?length_alter; [done|one_alter| | | |].
    + by rewrite Permutation_app_comm.
    + intros m H1 H2. assert (t <> m) by congruence. by fnodes.
    + free_frame.
    + split; simpl.
      * rewrite Hc. apply count_incr; [done|]. rewrite length_app. simpl. lia.
      * eapply (fwd_app_intro _ _ _ _ t xt f [f] [x]); [|done| |].
        -- eapply (fwd_set_last _ _ _ _ _ t xt nx f); try done; [fnodes; by rewrite Hxt|].
           intros m Hm Hmt. assert (f <> m) by congruence. by fnodes.
        -- fnodes. by rewrite Hxt.
        -- simpl. split; [done|]. exists nx0. split; [|done]. fnodes. by rewrite Hf.
      * intros t'. rewrite last_snoc. congruence.
      * right. mem.
  - apply last_None in Hlast as ->. destruct xs; [|done].
    rewrite decide_True by (rewrite Hc; done). run.
    eexists _, (mkLIST f f f _ 0 0 (llink L)).
    split; [reflexivity|]. split; [done|].
    eapply adder_finish; try done; pool_cbn; rewrite ?length_alter; [done|one_alter| | |].
    + intros m H1 H2. by fnodes.
    + free_frame.
    + split; simpl.
      * rewrite Hc. by apply (count_incr [] [f]).
      * split; [done|]. exists f. split; [|done]. fnodes. by rewrite Hf.
      * naive_solver.
      * right. mem.
Qed.

Lemma ListPrepend_rep s f fs abs l ns xs x :
  lib_rep s (f :: fs) abs -> arr_get abs l = Some (ns, xs) -> x <> 0 ->
  exists s' L', ListPrepend (Some l) x s = Ok 0 s' /\ curr L' = f /\
    lib_rep s' fs (<[Z.to_nat l := (f :: ns, x :: xs)]> abs) /\
    arr_get (pool_lists s') l = Some L'.
Proof.
  intros Hrep Hl Hx. destruct (adder_start _ _ _ _ _ _ _ Hrep Hl) as (s1 & L & Had).
  pose proof Had as [Ha _ HL [Hc _ Ht Hcu] Hls Hlr Hlen Hfns Hffs Hnd Hn Hfr Hns Hfree Hsame (x0 & nx0 & Hf) Hfw].
  unfold ListPrepend. rewrite decide_False by done.
  rewrite (bind_ok _ _ _ _ _ Ha). rewrite decide_False by lia. run.
  destruct ns as [|h ns].
  - destruct xs; [|done]. rewrite decide_True by (rewrite Hc; done). run.
    eexists _, (mkLIST f f f _ 0 0 (llink L)).
    split; [reflexivity|]. split; [done|].
    eapply adder_finish; try done; pool_cbn; rewrite ?length_alter; [done|one_alter| | |].
    + intros m H1 H2. by fnodes.
    + free_frame.
    + split; simpl.
      * rewrite Hc. by apply (count_incr [] [f]).
      * split; [done|]. exists f. split; [|done]. fnodes. by rewrite Hf.
      * naive_solver.
      * right. mem.
  - assert (f <> h) as Hfh by ne. pose proof (Hns h ltac:(left)) as Hhr.
    rewrite decide_False by (rewrite Hc; simpl; lia).
    rewrite (bind_ok _ _ _ tt _) by reflexivity.
    assert (head L = h) as Hh by (destruct xs; [done|]; by destruct Hfw).
    erewrite plist_run by lookup. rewrite Hh in *. run.
    eexists _, (mkLIST f (tail L) f _ (before L) (after L) (llink L)).
    split; [reflexivity|]. split; [done|].
    eapply adder_finish; try done; pool_cbn; rewrite ?length_alter; [done|one_alter| | |].
    + intros m H1 H2. by fnodes.
    + free_frame.
    + split; simpl.
      * rewrite Hc. by apply (count_incr (h :: ns) (f :: h :: ns)).
      * split; [done|]. exists h. split; [fnodes; by rewrite Hf|].
        apply (fwd_frame (pool_nodes s1) _ h (h :: ns)); [|done].
        intros m Hm. assert (f <> m) by ne. by fnodes.
      * intros t. destruct ns; simpl; intros; by apply Ht.
      * right. left.
Qed.

(** [ListAdd] with the cursor on a node [c] that is not the last one. *)
Lemma ListAdd_rep s f fs abs l ns1 c d ns2 xs1 xc xs2 x L :
  lib_rep s (f :: fs) abs ->
  arr_get abs l = Some (ns1 ++ c :: d :: ns2, xs1 ++ xc :: xs2) ->
  length ns1 = length xs1 -> x <> 0 ->
  arr_get (pool_lists s) l = Some L -> curr L = c -> after L <> 1 -> before L <> 1 ->
  exists s' L', ListAdd (Some l) x s = Ok 0 s' /\ curr L' = c /\
    lib_rep s' fs
      (<[Z.to_nat l := (ns1 ++ c :: f :: d :: ns2, xs1 ++ xc :: x :: xs2)]> abs) /\
    arr_get (pool_lists s') l = Some L'.
Proof.
  intros Hrep Hl Hlx Hx HL0 Hcur Haf Hbe.
  destruct (adder_start _ _ _ _ _ _ _ Hrep Hl) as (s1 & L' & Had).
  pose proof Had as [Ha HL0' HL [Hc _ Ht Hcu] Hls Hlr Hlen Hfns Hffs Hnd Hn Hfr Hns Hfree Hsame (x0 & nx0 & Hf) Hfw].
  rewrite HL0 in HL0'. simplify_eq. set (c := curr L') in *.
  assert (length (xs1 ++ [xc]) = length (ns1 ++ [c])) as Hl1 by (rewrite !length_app; simpl; lia).
  replace (ns1 ++ c :: d :: ns2) with ((ns1 ++ [c]) ++ d :: ns2) in * by by rewrite <- app_assoc.
  replace (xs1 ++ xc :: xs2) with ((xs1 ++ [xc]) ++ xs2) in Hfw by by rewrite <- app_assoc.
  apply fwd_app_elim in Hfw as (H1 & H2 & _); [|done].
  destruct (H2 c) as (xc' & nd & Hcn & H3); [by rewrite last_snoc|].
  assert (nd = d) as -> by (destruct xs2; [done|]; by destruct H3).
  assert (c ∈ (ns1 ++ [c]) ++ d :: ns2) as Hcin by mem.
  assert (d ∈ (ns1 ++ [c]) ++ d :: ns2) as Hdin by mem.
  pose proof (Hns c Hcin) as Hcr. pose proof (Hns d Hdin) as Hdr.
  assert (f <> c) as Hfc by congruence. assert (f <> d) as Hfd by congruence.
  destruct (arr_get_lt _ _ Hcr) as [cn Hgc].
  assert (next cn = d) as Hnx by (unfold fnode in Hcn; rewrite Hgc in Hcn; by simplify_eq/=).
  apply NoDup_app in Hnd as (Hnd & Hdis & _).
  assert (c ∈ ns1 ++ [c]) as Hcin' by mem.
  unfold ListAdd. rewrite decide_False by done. erewrite plist_run by done. fold c.
  rewrite decide_False by (rewrite Hc, length_app; simpl; lia). rewrite decide_False by done.
  rewrite (bind_ok _ _ _ _ _ Ha). rewrite decide_False by lia.
    erewrite plist_run by done. fold c. run. rewrite Hnx, decide_True by lia. run.
  eexists _, (set_count _ L'). split; [reflexivity|]. split; [done|].
  eapply adder_finish; try done; pool_cbn; rewrite ?length_alter; [done|one_alter| | | |].
  - rewrite <- app_assoc. simpl. rewrite !(Permutation_app_comm ns1). simpl. by rewrite Permutation_swap.
  - intros m Hm1 Hm2. assert (c <> m) by congruence. by fnodes.
  - free_frame.
  - replace (ns1 ++ c :: f :: d :: ns2) with ((ns1 ++ [c]) ++ f :: d :: ns2) by by rewrite <- app_assoc.
    split; simpl.
    + rewrite Hc. apply count_incr; [done|]. rewrite !length_app. simpl. lia.
    + replace (xs1 ++ xc :: x :: xs2) with ((xs1 ++ [xc]) ++ x :: xs2) by by rewrite <- app_assoc.
      eapply (fwd_app_intro _ _ _ _ c xc' f); [|by rewrite last_snoc| |].
      * eapply (fwd_set_last _ _ _ _ _ c xc' d f); try done; [by rewrite last_snoc|fnodes; by rewrite Hcn|].
        intros m Hm Hmc. assert (f <> m) by ne. by fnodes.
      * fnodes. by rewrite Hcn.
      * eapply fwd_cons; [fnodes; by rewrite Hf|].
        eapply fwd_frame; [|exact H3]. intros m Hm.
        assert (f <> m) by ne. assert (c <> m) by ne. by fnodes.
    + intros t. rewrite last_app. simpl. intros. apply Ht. by rewrite last_app.
    + destruct Hcu; [by left|right]. mem.
Qed.

(** [ListInsert] with the cursor on a node [c] whose [prev] is the node
    before it. *)
Lemma ListInsert_rep s f fs abs l ns0 p c ns2 xs0 xc xs2 x L cn :
  lib_rep s (f :: fs) abs ->
  arr_get abs l = Some ((ns0 ++ [p]) ++ c :: ns2, xs0 ++ xc :: xs2) ->
  length (ns0 ++ [p]) = length xs0 -> x <> 0 ->
  arr_get (pool_lists s) l = Some L -> curr L = c -> after L <> 1 -> before L <> 1 ->
  arr_get (pool_nodes s) c = Some cn -> prev cn = p ->
  exists s' L', ListInsert (Some l) x s = Ok 0 s' /\ curr L' = f /\
    lib_rep s' fs (<[Z.to_nat l := ((ns0 ++ [p]) ++ f :: c :: ns2, xs0 ++ x :: xc :: xs2)]> abs) /\
    arr_get (pool_lists s') l = Some L'.
Proof.
  intros Hrep Hl Hlx Hx HL0 Hcur Haf Hbe Hgc Hprev.
  destruct (adder_start _ _ _ _ _ _ _ Hrep Hl) as (s1 & L' & Had).
  pose proof Had as [Ha HL0' HL [Hc _ Ht Hcu] Hls Hlr Hlen Hfns Hffs Hnd Hn Hfr Hns Hfree Hsame (x0 & nx0 & Hf) Hfw].
  rewrite HL0 in HL0'. simplify_eq. set (c := curr L') in *. set (p := prev cn) in *.
  assert (c ∈ (ns0 ++ [p]) ++ c :: ns2) as Hcin by mem.
  assert (p ∈ (ns0 ++ [p]) ++ c :: ns2) as Hpin by mem.
  pose proof (Hns c Hcin) as Hcr. pose proof (Hns p Hpin) as Hpr.
  assert (f <> c) as Hfc by congruence. assert (f <> p) as Hfp by congruence.
  rewrite <- Hsame in Hgc by congruence.
  assert (p ∈ ns0 ++ [p]) as Hpin' by mem.
  apply NoDup_app in Hnd as (Hnd & Hdis & _).
  assert (p <> c) as Hpc by (intros E; apply (Hdis p Hpin'); rewrite E; left).
  pose proof (fwd_app_elim _ _ _ _ _ _ Hlx Hfw) as (H1 & H2 & _).
  destruct (H2 p) as (xp & nx & Hpn & H3); [by rewrite last_snoc|].
  assert (head L' <> c) as Hhc.
  { destruct ns0 as [|h ns0], xs0 as [|y xs0]; simpl in *; try done; destruct H1 as (-> & _); [done|].
    intros ->. apply (Hdis c); mem. }
  unfold ListInsert. rewrite decide_False by done. erewrite plist_run by done. fold c.
  rewrite decide_False by (rewrite Hc, !length_app; simpl; lia).
  rewrite decide_False by done. rewrite decide_False by done.
  rewrite (bind_ok _ _ _ _ _ Ha). rewrite decide_False by lia.
  erewrite plist_run by done. fold c. run. fold p. rewrite decide_True by lia. run.
  rewrite decide_False by done. rewrite (bind_ok _ _ _ tt _) by reflexivity. run.
  eexists _, (mkLIST (head L') (tail L') f _ (before L') (after L') (llink L')).
  split; [reflexivity|]. split; [done|].
  eapply adder_finish; try done; pool_cbn; rewrite ?length_alter; [done|one_alter| | | |].
  - by rewrite !(Permutation_app_comm (ns0 ++ [p])).
  - intros m Hm1 Hm2. assert (p <> m) by congruence. by fnodes.
  - free_frame.
  - split; simpl.
    + rewrite Hc. apply count_incr; [done|]. rewrite !length_app. simpl. lia.
    + eapply (fwd_app_intro _ _ _ _ p xp f); [|by rewrite last_snoc| |].
      * eapply (fwd_set_last _ _ _ _ _ p xp nx f); try done; [by rewrite last_snoc|fnodes; by rewrite Hpn|].
        intros m Hm Hmc. assert (f <> m) by ne. by fnodes.
      * fnodes. by rewrite Hpn.
      * destruct H3 as (-> & nc & Hcn' & H3).
        eapply fwd_cons; [fnodes; by rewrite Hf|]. eapply fwd_cons; [fnodes; done|].
        eapply fwd_frame; [|exact H3]. intros m Hm.
        assert (f <> m) by ne. assert (p <> m) by ne. by fnodes.
    + intros t. rewrite last_app. simpl. intros. apply Ht. by rewrite last_app.
    + right. mem.
Qed.

(** ** Concatenation *)

Lemma concat_move_perm (abs : list (list Z * list Z)) i j a b :
  i <> j -> abs !! i = Some a -> abs !! j = Some b -> forall ys zs,
  concat ((<[j := ([], zs)]> (<[i := (a.1 ++ b.1, ys)]> abs)).*1) ≡ₚ concat (abs.*1).
Proof.
  intros Hij Hi Hj ys zs.
  destruct (concat_insert_perm abs i a (a.1 ++ b.1, ys) Hi) as (r & H1 & H2).
  assert ((<[i := (a.1 ++ b.1, ys)]> abs) !! j = Some b) as Hj' by by rewrite list_lookup_insert_ne.
  destruct (concat_insert_perm _ j b ([], zs) Hj') as (r' & H3 & H4). simpl in *.
  rewrite H4, H1. apply (Permutation_app_inv_l b.1). rewrite <- H3, H2.
  by rewrite <- app_assoc, Permutation_app_swap_app.
Qed.

Lemma listed_get s fs abs l ns xs :
  lib_rep s fs abs -> arr_get abs l = Some (ns, xs) ->
  exists L, arr_get (pool_lists s) l = Some L /\ list_rep (pool_nodes s) L ns xs /\
    0 <= l < Z.of_nat (length (pool_lists s)) /\
    forall n, n ∈ ns -> 0 <= n < Z.of_nat (length (pool_nodes s)).
Proof.
  intros Hrep Hl. pose proof (arr_get_range _ _ _ Hl) as Hr.
  rewrite <- (lib_lists _ _ _ Hrep) in Hr. destruct (arr_get_lt _ _ Hr) as [L HL].
  exists L. split; [done|]. split; [by eapply lib_each|]. split; [done|].
  intros n Hin. eapply part_range; [done|]. apply elem_of_app. right. by eapply abs_elem.
Qed.

Lemma upd_list_end i f s :
  0 <= i < Z.of_nat (length (pool_lists s)) ->
  upd_list i f s = Ok tt (with_lists (alter f (Z.to_nat i)) s).
Proof. intros [nd H]%arr_get_lt. unfold upd_list. by rewrite H. Qed.

Lemma arr_get_insert {A} (l : list A) i j x :
  0 <= i < Z.of_nat (length l) ->
  arr_get (<[Z.to_nat i := x]> l) j = if decide (i = j) then Some x else arr_get l j.
Proof. intros. by rewrite (arr_get_set l _ i j x) by by apply arr_set_Some. Qed.

Lemma ListConcat_rep s fs abs l1 l2 ns1 xs1 h2 ns2 xs2 t1 :
  lib_rep s fs abs -> l1 <> l2 ->
  arr_get abs l1 = Some (ns1, xs1) -> last ns1 = Some t1 ->
  arr_get abs l2 = Some (h2 :: ns2, xs2) ->
  exists s', ListConcat (Some l1) (Some l2) s = Ok tt s' /\
    lib_rep s' fs (<[Z.to_nat l2 := ([], [])]>
      (<[Z.to_nat l1 := (ns1 ++ h2 :: ns2, xs1 ++ xs2)]> abs)).
Proof.
  intros Hrep Hne H1 Hlast H2.
  destruct (listed_get _ _ _ _ _ _ Hrep H1) as (L1 & HL1 & [Hc1 Hf1 Ht1 Hcu1] & Hl1 & Hns1).
  destruct (listed_get _ _ _ _ _ _ Hrep H2) as (L2 & HL2 & [Hc2 Hf2 Ht2 Hcu2] & Hl2 & Hns2).
  assert (t1 ∈ ns1) as Ht1in by (apply last_Some in Hlast as (? & ->); mem).
  pose proof (Hns1 t1 Ht1in) as Ht1r. pose proof (Hns2 h2 ltac:(left)) as Hh2r.
  assert (head L2 = h2) as Hh2 by (destruct xs2; [done|]; by destruct Hf2).
  assert (exists t2, last (h2 :: ns2) = Some t2) as [t2 Hlast2].
  { destruct (last (h2 :: ns2)) eqn:E; [eauto|]. by apply last_None in E. }
  destruct (fwd_lookup _ _ _ _ _ Hf1 Ht1in) as (xt & nx & Hxt).
  assert (t1 ∉ h2 :: ns2) as Hdis by (by eapply (listed_disjoint _ _ _ Hrep l1 l2)).
  unfold ListConcat. erewrite plist_run by done.
  rewrite decide_False by (rewrite Hc2; simpl; lia). run.
  rewrite (Ht1 t1 Hlast), Hh2. run.
  rewrite upd_list_end by range. eexists. split; [reflexivity|].
  pose proof (arr_get_range _ _ _ H1) as Hr1. pose proof (arr_get_range _ _ _ H2) as Hr2.
  pose proof (lib_free _ _ _ Hrep) as Hfree.
  pose proof (listed_length _ _ _ _ _ _ Hrep H1) as Hb1. pose proof (listed_length _ _ _ _ _ _ Hrep H2) as Hb2.
  split; pool_cbn; rewrite ?length_alter, ?length_insert.
  - apply Hrep.
  - apply Hrep.
  - free_frame.
  - rewrite <- (lib_part _ _ _ Hrep). f_equiv.
    apply (concat_move_perm abs (Z.to_nat l1) (Z.to_nat l2) (ns1, xs1) (h2 :: ns2, xs2));
      [lia|by apply arr_get_Some in H1 as [? ?]|by apply arr_get_Some in H2 as [? ?]].
  - intros j L ns xs HL Hj. rewrite !arr_get_alter in HL by lia.
    rewrite !arr_get_insert in Hj by (rewrite ?length_insert; lia).
    destruct (decide (l2 = j)) as [<-|Hj2].
    + rewrite !(decide_False (P := l1 = l2)) in HL by done. rewrite HL2 in HL. injection HL as <-. injection Hj as <- <-.
      split; simpl; [done|done|done|by left].
    + destruct (decide (l1 = j)) as [<-|Hj1].
      * rewrite HL1 in HL. injection HL as <-. injection Hj as <- <-. split; simpl.
        -- change (i32 (count L1 + count L2) = Z.of_nat (length (ns1 ++ h2 :: ns2))).
           rewrite Hc1, Hc2, length_app, i32_small; [simpl; lia|].
           unfold in_int, INT_MIN, INT_MAX, MAX_NODES in *. simpl in *. lia.
        -- eapply (fwd_app_intro _ _ _ _ t1 xt h2); [|done|fnodes; by rewrite Hxt|].
           ++ eapply (fwd_set_last _ _ _ _ _ t1 xt nx h2); try done;
                [by eapply listed_NoDup|fnodes; by rewrite Hxt|].
              intros m Hm Hmt. by fnodes.
           ++ rewrite <- Hh2 at 3. eapply fwd_frame; [|exact Hf2].
              intros m Hm. assert (t1 <> m) by congruence. by fnodes.
        -- intros t. rewrite last_app, Hlast2. intros; simplify_eq. by apply Ht2.
        -- destruct Hcu1; [by left|right; mem].
      * destruct (lib_each _ _ _ Hrep _ _ _ _ HL Hj). split; try done.
        eapply fwd_frame; [|done]. intros m Hm.
        assert (t1 <> m) by (intros <-; by eapply (listed_disjoint _ _ _ Hrep l1 j)). by fnodes.
Qed.

(** ** Moving the cursor *)

Lemma mover_rep s fs abs l ns xs L g :
  lib_rep s fs abs -> arr_get abs l = Some (ns, xs) -> arr_get (pool_lists s) l = Some L ->
  count (g L) = count L -> head (g L) = head L -> tail (g L) = tail L ->
  (curr (g L) = -1 \/ curr (g L) ∈ ns) ->
  lib_rep (with_lists (alter g (Z.to_nat l)) s) fs abs.
Proof.
  intros Hrep Hl HL Hc Hh Ht Hcu. pose proof (arr_get_range _ _ _ HL) as Hr.
  split; pool_cbn; rewrite ?length_alter; try apply Hrep.
  intros j L' ns' xs' HL' Hj. rewrite arr_get_alter in HL' by lia. case_decide; subst.
  - rewrite HL in HL'. simplify_eq/=. destruct (lib_each _ _ _ Hrep _ _ _ _ HL Hl).
    split; [congruence| |intros; rewrite Ht; auto|done]. by rewrite Hh.
  - by eapply (lib_each _ _ _ Hrep).
Qed.

Lemma with_lists_twice f g s :
  with_lists f (with_lists g s) = with_lists (fun l => f (g l)) s.
Proof. done. Qed.

Lemma with_lists_alter2 f g i s :
  with_lists (alter f i) (with_lists (alter g i) s) = with_lists (alter (fun x => f (g x)) i) s.
Proof. unfold with_lists. simpl. by rewrite alter_alter. Qed.

Lemma ListFirst_rep s fs abs l n ns x xs :
  lib_rep s fs abs -> arr_get abs l = Some (n :: ns, x :: xs) ->
  exists s' L', ListFirst (Some l) s = Ok x s' /\ lib_rep s' fs abs /\
    arr_get (pool_lists s') l = Some L' /\ curr L' = n /\ after L' = 0.
Proof.
  intros Hrep Hl. destruct (listed_get _ _ _ _ _ _ Hrep Hl) as (L & HL & HR & Hlr & Hns).
  pose proof (Hns n ltac:(left)) as Hnr. destruct HR as [Hc (Hh & nx & Hn & _) _ _].
  unfold fnode in Hn. destruct (arr_get (pool_nodes s) n) as [nd|] eqn:Hnd; [|done].
  injection Hn as <- <-. unfold ListFirst. erewrite plist_run by done. rewrite decide_False by (rewrite Hc; simpl; lia).
  rewrite Hh. run.
  rewrite !with_lists_alter2.
  eexists _, (set_after 0 (set_before 0 (set_curr n L))). split; [reflexivity|]. split.
  - eapply mover_rep; try done. right. left.
  - split; [|done]. pool_cbn. rewrite arr_get_alter, decide_True by (lia || done). by rewrite HL.
Qed.

Lemma ListNext_rep s fs abs l ns1 c n ns2 xs1 xc x xs2 L :
  lib_rep s fs abs -> arr_get abs l = Some (ns1 ++ c :: n :: ns2, xs1 ++ xc :: x :: xs2) ->
  length ns1 = length xs1 -> arr_get (pool_lists s) l = Some L -> curr L = c -> after L = 0 ->
  exists s' L', ListNext (Some l) s = Ok x s' /\ lib_rep s' fs abs /\
    arr_get (pool_lists s') l = Some L' /\ curr L' = n /\ after L' = 0.
Proof.
  intros Hrep Hl Hlen HL Hcur Haf.
  destruct (listed_get _ _ _ _ _ _ Hrep Hl) as (L0 & HL0 & HR & Hlr & Hns).
  rewrite HL in HL0. simplify_eq. destruct HR as [_ Hfw _ _].
  replace (ns1 ++ curr L0 :: n :: ns2) with ((ns1 ++ [curr L0]) ++ n :: ns2) in * by by rewrite <- app_assoc.
  replace (xs1 ++ xc :: x :: xs2) with ((xs1 ++ [xc]) ++ x :: xs2) in * by by rewrite <- app_assoc.
  apply fwd_app_elim in Hfw as (_ & H & _); [|rewrite !length_app; simpl; lia].
  destruct (H (curr L0)) as (xt & nx & Hc & Hn); [by rewrite last_snoc|].
  destruct Hn as (-> & nx' & Hn & _).
  unfold fnode in Hc, Hn. destruct (arr_get (pool_nodes s) (curr L0)) as [cn|] eqn:Hcn; [|done].
  destruct (arr_get (pool_nodes s) n) as [nn|] eqn:Hnn; [|done]. simplify_eq/=.
  pose proof (arr_get_range _ _ _ Hnn).
  unfold ListNext. erewrite plist_run by done. rewrite decide_False by lia.
  erewrite node_run by done. run. rewrite decide_False by lia. run.
  eexists _, (set_curr (next cn) L0). split; [reflexivity|]. split.
  - eapply mover_rep; try done. right. mem.
  - split; [|done]. pool_cbn. rewrite arr_get_alter, decide_True by (lia || done). by rewrite HL.
Qed.

(** ** Theorems *)

(** Two lists have been created from the zero-initialised pools. *)
Definition lib_ready : lib :=
  Eval vm_compute in match (ListCreate ;; ListCreate) lib0 with Ok _ s => s | _ => lib0 end.

Lemma lib_ready_rep : lib_rep lib_ready (zrange 0 MAX_NODES) [([], []); ([], [])].
Proof.
  split; [done|done| | |].
  - vm_compute. repeat (split; [done|eexists; split; [done|]]). done.
  - by rewrite app_nil_r.
  - intros i L ns xs HL Hi. apply arr_get_Some in HL as [_ HL], Hi as [_ Hi].
    destruct (Z.to_nat i) as [|[|k]]; simplify_eq/=; split; simpl; try done; by left.
Qed.

(** Advance [k] times, collecting the items returned. *)
Fixpoint next_n (k : nat) (l : option Z) : M lib (list Z) :=
  match k with
  | O => ret []
  | S k' => let! x := ListNext l in let! r := next_n k' l in ret (x :: r)
  end.
Definition traverse (k : nat) (l : option Z) : M lib (list Z) :=
  let! x := ListFirst l in let! r := next_n k l in ret (x :: r).

Lemma next_n_rep ns2 xs2 s fs abs l ns1 c xs1 xc L :
  lib_rep s fs abs -> arr_get abs l = Some (ns1 ++ c :: ns2, xs1 ++ xc :: xs2) ->
  length ns1 = length xs1 -> length ns2 = length xs2 ->
  arr_get (pool_lists s) l = Some L -> curr L = c -> after L = 0 ->
  exists s', next_n (length xs2) (Some l) s = Ok xs2 s' /\ lib_rep s' fs abs.
Proof.
  revert xs2 s ns1 c xs1 xc L.
  induction ns2 as [|n ns2 IH]; intros [|x xs2] s ns1 c xs1 xc L Hrep Hl H1 H2 HL Hc Ha; try done.
  - exists s. by split.
  - destruct (ListNext_rep _ _ _ _ _ _ _ _ _ _ _ _ _ Hrep Hl H1 HL Hc Ha)
      as (s1 & L1 & Hn & Hrep1 & HL1 & Hc1 & Ha1).
    replace (ns1 ++ c :: n :: ns2) with ((ns1 ++ [c]) ++ n :: ns2) in Hl by by rewrite <- app_assoc.
    replace (xs1 ++ xc :: x :: xs2) with ((xs1 ++ [xc]) ++ x :: xs2) in Hl by by rewrite <- app_assoc.
    destruct (IH xs2 s1 _ _ _ _ L1 Hrep1 Hl) as (s2 & Hr & Hrep2);
      [rewrite !length_app; simpl; lia|by injection H2|done..|].
    exists s2. split; [|done]. simpl. by rewrite (bind_ok _ _ _ _ _ Hn), (bind_ok _ _ _ _ _ Hr).
Qed.

(** On any well-formed pool with a free node, ListAppend and ListPrepend of a
    non-NULL item return 0, take exactly the first free node, add the item at the
    end (at the front) of the abstract list, leave the cursor on it and leave
    every other list as it was. *)
Lemma append_prepend_refine s f fs abs l ns xs x :
  lib_rep s (f :: fs) abs -> arr_get abs l = Some (ns, xs) -> x <> 0 ->
  (exists s' L', ListAppend (Some l) x s = Ok 0 s' /\
     lib_rep s' fs (<[Z.to_nat l := (ns ++ [f], xs ++ [x])]> abs) /\
     arr_get (pool_lists s') l = Some L' /\ curr L' = f /\ before L' = 0 /\ after L' = 0) /\
  (exists s' L', ListPrepend (Some l) x s = Ok 0 s' /\
     lib_rep s' fs (<[Z.to_nat l := (f :: ns, x :: xs)]> abs) /\
     arr_get (pool_lists s') l = Some L' /\ curr L' = f).
Proof.
  intros Hrep Hl Hx. split.
  - destruct (ListAppend_rep _ _ _ _ _ _ _ _ Hrep Hl Hx) as (s' & L' & ? & (? & ? & ?) & ? & ?). eauto 10.
  - destruct (ListPrepend_rep _ _ _ _ _ _ _ _ Hrep Hl Hx) as (s' & L' & ? & ? & ? & ?). eauto 10.
Qed.

(** ListAdd with the cursor on an item that is not the last one inserts the
    new item right after it; ListInsert with the cursor on an item whose back link
    is right inserts the new item right before it and moves the cursor to it.
    Both return 0 and keep the pools well formed. *)
Lemma add_insert_refine s f fs abs l ns0 p c d ns2 xs0 xc xs2 x L cn :
  lib_rep s (f :: fs) abs ->
  arr_get abs l = Some ((ns0 ++ [p]) ++ c :: d :: ns2, xs0 ++ xc :: xs2) ->
  length (ns0 ++ [p]) = length xs0 -> x <> 0 ->
  arr_get (pool_lists s) l = Some L -> curr L = c -> after L <> 1 -> before L <> 1 ->
  arr_get (pool_nodes s) c = Some cn -> prev cn = p ->
  (exists s', ListAdd (Some l) x s = Ok 0 s' /\
     lib_rep s' fs (<[Z.to_nat l :=
       ((ns0 ++ [p]) ++ c :: f :: d :: ns2, xs0 ++ xc :: x :: xs2)]> abs)) /\
  (exists s' L', ListInsert (Some l) x s = Ok 0 s' /\
     lib_rep s' fs (<[Z.to_nat l :=
       ((ns0 ++ [p]) ++ f :: c :: d :: ns2, xs0 ++ x :: xc :: xs2)]> abs) /\
     arr_get (pool_lists s') l = Some L' /\ curr L' = f).
Proof.
  intros Hrep Hl Hlen Hx HL Hc Ha Hb Hcn Hp. split.
  - destruct (ListAdd_rep _ _ _ _ _ _ _ _ _ _ _ _ _ _ Hrep Hl Hlen Hx HL Hc Ha Hb)
      as (s' & L' & ? & ? & ? & ?). eauto 10.
  - destruct (ListInsert_rep _ _ _ _ _ _ _ _ _ _ _ _ _ _ _ Hrep Hl Hlen Hx HL Hc Ha Hb Hcn Hp)
      as (s' & L' & ? & ? & ? & ?). eauto 10.
Qed.

(** Three items appended to list 0 and the cursor moved to the second one. *)
Definition lib_three : lib :=
  Eval vm_compute in
    match (ListAppend (Some 0) 5 ;; ListAppend (Some 0) 6 ;; ListAppend (Some 0) 7 ;;
           ListFirst (Some 0) ;; ListNext (Some 0)) lib_ready
    with Ok _ s => s | _ => lib0 end.

Lemma lib_three_rep :
  lib_rep lib_three (3 :: zrange 4 MAX_NODES) [([0; 1; 2], [5; 6; 7]); ([], [])].
Proof.
  split; [done|done| | |].
  - vm_compute. repeat (split; [done|eexists; split; [done|]]). done.
  - change (zrange 3 MAX_NODES ++ [0; 1; 2] ≡ₚ [0; 1; 2] ++ zrange 3 MAX_NODES).
    apply Permutation_app_comm.
  - intros i L ns xs HL Hi. apply arr_get_Some in HL as [_ HL], Hi as [_ Hi].
    destruct (Z.to_nat i) as [|[|k]]; simplify_eq/=; split; simpl; try done; try by left.
    + repeat (split; [done|eexists; split; [done|]]). done.
    + naive_solver.
    + right. mem.
Qed.

(** With no free node left every adder returns -1 and changes nothing. *)
Lemma adders_exhausted s abs l ns xs x :
  lib_rep s [] abs -> arr_get abs l = Some (ns, xs) -> x <> 0 ->
  ListAppend (Some l) x s = Ok (-1) s /\ ListPrepend (Some l) x s = Ok (-1) s /\
  ListAdd (Some l) x s = Ok (-1) s /\ ListInsert (Some l) x s = Ok (-1) s.
Proof.
  intros Hrep Hl Hx. pose proof (nodeAllocator_full _ _ Hrep) as Hfull.
  destruct (listed_get _ _ _ _ _ _ Hrep Hl) as (L & HL & _).
  assert (ListAppend (Some l) x s = Ok (-1) s) as Ha.
  { unfold ListAppend. rewrite decide_False by done. by rewrite (bind_ok _ _ _ _ _ Hfull). }
  assert (ListPrepend (Some l) x s = Ok (-1) s) as Hp.
  { unfold ListPrepend. rewrite decide_False by done. by rewrite (bind_ok _ _ _ _ _ Hfull). }
  split; [done|]. split; [done|]. unfold ListAdd, ListInsert. rewrite !decide_False by done.
  rewrite !(plist_run _ _ _ _ HL). split; repeat case_decide; try done;
    by rewrite (bind_ok _ _ _ _ _ Hfull).
Qed.


(** Walking a non-empty list with ListFirst and then ListNext as many times as
    there are further items returns exactly the items of the list, in order, and
    does not change any list. *)
Lemma traversal_complete s fs abs l ns xs :
  lib_rep s fs abs -> arr_get abs l = Some (ns, xs) -> xs <> [] ->
  exists s', traverse (length xs - 1) (Some l) s = Ok xs s' /\ lib_rep s' fs abs.
Proof.
  intros Hrep Hl Hne. destruct (listed_get _ _ _ _ _ _ Hrep Hl) as (L & HL & HR & _).
  pose proof (fwd_length _ _ _ _ (lr_fwd _ _ _ _ HR)) as Hlen.
  destruct xs as [|x xs], ns as [|n ns]; try done. injection Hlen as Hlen.
  destruct (ListFirst_rep _ _ _ _ _ _ _ _ Hrep Hl) as (s1 & L1 & H1 & Hrep1 & HL1 & Hc1 & Ha1).
  destruct (next_n_rep ns xs s1 fs abs l [] n [] x L1 Hrep1 Hl eq_refl Hlen HL1 Hc1 Ha1)
    as (s2 & H2 & Hrep2).
  exists s2. split; [|done]. unfold traverse. rewrite (bind_ok _ _ _ _ _ H1).
  simpl length. rewrite Nat.sub_succ, Nat.sub_0_r. by rewrite (bind_ok _ _ _ _ _ H2).
Qed.


(** ListConcat of two different non-empty lists appends the nodes and items of
    the second to the first, empties the second and keeps the pools well formed. *)
Lemma concat_refine s fs abs l1 l2 ns1 xs1 ns2 xs2 :
  lib_rep s fs abs -> l1 <> l2 ->
  arr_get abs l1 = Some (ns1, xs1) -> ns1 <> [] ->
  arr_get abs l2 = Some (ns2, xs2) -> ns2 <> [] ->
  exists s', ListConcat (Some l1) (Some l2) s = Ok tt s' /\
    lib_rep s' fs (<[Z.to_nat l2 := ([], [])]>
      (<[Z.to_nat l1 := (ns1 ++ ns2, xs1 ++ xs2)]> abs)).
Proof.
  intros Hrep Hne H1 Hn1 H2 Hn2. destruct ns2 as [|h2 ns2]; [done|].
  destruct (last ns1) as [t|] eqn:E; [|by apply last_None in E].
  by eapply ListConcat_rep.
Qed.

(** From the zero-initialised pools the first two calls of ListCreate return
    the two lists of the pool, both empty and with all ten nodes free, and the
    third call returns NULL and changes nothing. *)
Lemma create_until_exhausted :
  exists s, (let! a := ListCreate in let! b := ListCreate in ret (a, b)) lib0
              = Ok (Some 0, Some 1) s /\
    lib_rep s (zrange 0 MAX_NODES) [([], []); ([], [])] /\ ListCreate s = Ok None s.
Proof. exists lib_ready. split; [reflexivity|]. split; [apply lib_ready_rep|reflexivity]. Qed.

(** The state after one ListAppend of the item 7 to an empty list. *)
Definition lib_one : lib :=
  Eval vm_compute in
    match ListAppend (Some 0) 7 lib_ready with Ok _ s => s | _ => lib0 end.

(** A list that holds a single appended item never ends: ListAppend links the
    node to itself, so ListNext returns the same item however often it is called,
    and the cursor never moves past the end. *)
Lemma single_item_never_ends k :
  ListAppend (Some 0) 7 lib_ready = Ok 0 lib_one /\
  next_n k (Some 0) lib_one = Ok (replicate k 7) lib_one.
Proof.
  split; [reflexivity|]. induction k as [|k IH]; [done|]. simpl.
  rewrite (bind_ok _ _ _ 7 lib_one) by reflexivity. by rewrite (bind_ok _ _ _ _ _ IH).
Qed.

(** C40: The edges of a list are not handled.  ListAdd with the cursor on the last item
    does not update [tail]: the next ListAppend overwrites the link to the added item,
    so four items are counted and the item 9 is no longer reached.  ListInsert with the
    cursor on the first item of a list built by ListAppend follows the back link of the
    first node to itself: the first two nodes form a cycle.  ListNext on a new list and
    ListPrev after the end read [pool_nodes[-1]], and ListConcat onto an empty list
    writes it.  And a list with a single appended item never ends: its node is linked to
    itself, so ListNext returns the same item however often it is called. *)
Theorem list_edges_unhandled :
  (exists s, (ListAppend (Some 0) 5 ;; ListAppend (Some 0) 6 ;; ListAdd (Some 0) 9 ;;
             ListAppend (Some 0) 7 ;; let! n := ListCount (Some 0) in
             let! xs := traverse 3 (Some 0) in ret (n, xs)) lib_ready = Ok (4, [5; 6; 7; 0]) s) /\
  (exists s, (ListAppend (Some 0) 5 ;; ListAppend (Some 0) 6 ;; ListFirst (Some 0) ;;
             ListInsert (Some 0) 9 ;; traverse 5 (Some 0)) lib_ready
            = Ok [9; 5; 9; 5; 9; 5] s) /\
  ListNext (Some 0) lib_ready = Fault (Undef "pool_nodes index") /\
  (ListLast (Some 0) ;; ListNext (Some 0) ;; ListPrev (Some 0)) lib_three
    = Fault (Undef "pool_nodes index") /\
  ListConcat (Some 1) (Some 0) lib_three = Fault (Undef "pool_nodes index") /\
  (forall k, (ListAppend (Some 0) 7 ;; next_n k (Some 0)) lib_ready = Ok (replicate k 7) lib_one).
Proof.
  split; [eexists; vm_compute; reflexivity|]. split; [eexists; vm_compute; reflexivity|].
  split; [vm_compute; reflexivity|]. split; [vm_compute; reflexivity|]. split; [vm_compute; reflexivity|].
  intros k. destruct (single_item_never_ends k) as [Ha Hn]. by rewrite (bind_ok _ _ _ _ _ Ha).
Qed.
