(* ===== verification/PartA.v ===== *)
(** * The Part A drivers (a1-phase3/square.c, partA1.c .. partA4.c)

    Each driver is a program over shared memory: the run flag, the counter array
    that [Square] updates, the thread-local [current_thread], thread or process
    creation, and the calls that stop or await children.  A thread is a tree of
    such commands ([prog]); [exec] executes one command of one thread, so a
    schedule is a list of thread numbers and every interleaving of loads and
    stores is a run.  The passage of time is not modelled: a sleep is a step
    that changes nothing, so runs include every timing.  Of the messages, those
    that carry a number computed by the program are kept, in the order printed. *)

From Stdlib Require Import ZArith Lia.
From stdpp Require Import base numbers list relations strings.
From S2P Require Import Prelude.
Open Scope Z_scope.

(** ** Commands and programs *)

(** What a new thread or process runs, with its arguments. *)
Inductive entry : Type :=
| Parent (number_of_threads deadline size : Z)
| Child (id size : Z).

Inductive message : Type :=
| EvStopped (id i : Z)        (* Thread %d stopped at Square(%d) *)
| EvDone (id calls : Z)       (* Thread %d done, ... square calls = %d *)
| EvClosed (id : Z)           (* Thread %d: Closed successfully *)
| EvSummary (id calls : Z).   (* Thread %d: %d square calls *)

(** One access to memory or one call into the system; each answers an int. *)
Inductive cmd : Type :=
| ReadFlag | WriteFlag (v : Z)
| GetCur | SetCur (v : Z)
| CounterPtr                      (* square_counter, 0 when NULL *)
| Load (i : Z) | Store (i v : Z)  (* square_counter[i] *)
| Malloc | Calloc (n : Z) | Deref (p : Z)
| FreeCounter | Shmdt
| Create (e : entry)              (* a thread; 0 when it fails *)
| Fork (e : entry)                (* a process; 0 when it fails *)
| KillThread (h : Z) | SendSignal (h : Z) | OnSignal | Waitpid (h : Z)
| Sleep
| Output (m : message)
| Exit
| Crash (why : string).

Inductive prog : Type :=
| Ret (v : Z)
| Vis (c : cmd) (k : Z -> prog).

Fixpoint pbind (p : prog) (f : Z -> prog) : prog :=
  match p with
  | Ret v => f v
  | Vis c k => Vis c (fun v => pbind (k v) f)
  end.
Definition call (c : cmd) : prog := Vis c Ret.

Declare Scope prog_scope.
Notation "'let?' x ':=' p 'in' k" := (pbind p (fun x => k))
  (at level 10, x name, p at level 100, k at level 200) : prog_scope.
Notation "p ;;; k" := (pbind p (fun _ => k))
  (at level 100, k at level 200, right associativity) : prog_scope.
Open Scope prog_scope.

(** A [for] loop over [l] whose body answers 0 to go on and anything else to
    break out of the loop. *)
Fixpoint for_prog (l : list Z) (body : Z -> prog) : prog :=
  match l with
  | [] => Ret 0
  | i :: l' => let? b := body i in if decide (b = 0) then for_prog l' body else Ret b
  end.

(** ** The machine *)

(** The block that [square_counter] points to. *)
Inductive block : Type := Null | Live (l : list Z) | Freed.

Record thread : Type := mkThread {
  code : prog;
  current_thread : Z;
  space : nat;          (* which copy of keep_running the thread sees *)
  handler : bool;       (* SIGUSR1 handler installed *)
  mapped : bool }.      (* shared counters attached in this process *)

Record machine : Type := mkMachine {
  keep_running : list Z;   (* one per address space *)
  square_counter : block;
  threads : list thread;
  printed : list message;
  ended : bool }.

Definition set_code p (t : thread) :=
  mkThread p (current_thread t) (space t) (handler t) (mapped t).
Definition set_cur v (t : thread) := mkThread (code t) v (space t) (handler t) (mapped t).
Definition set_handler (t : thread) :=
  mkThread (code t) (current_thread t) (space t) true (mapped t).
Definition set_unmapped (t : thread) :=
  mkThread (code t) (current_thread t) (space t) (handler t) false.

Definition with_flags f m :=
  mkMachine (f (keep_running m)) (square_counter m) (threads m) (printed m) (ended m).
Definition with_block b m :=
  mkMachine (keep_running m) b (threads m) (printed m) (ended m).
Definition with_threads f m :=
  mkMachine (keep_running m) (square_counter m) (f (threads m)) (printed m) (ended m).
Definition with_printed f m :=
  mkMachine (keep_running m) (square_counter m) (threads m) (f (printed m)) (ended m).
Definition set_ended m :=
  mkMachine (keep_running m) (square_counter m) (threads m) (printed m) true.

Inductive outcome : Type :=
| Next (m : machine)
| Bad (why : string)
| NotEnabled.

Section Machine.
(** The body of each function a thread can be started on. *)
Variable body : entry -> prog.

Definition start (e : entry) (sp : nat) : thread := mkThread (body e) (-1) sp false true.

(** Command [c] of thread [t] (whose record is [T] and whose continuation is
    [k]); [r] is the answer of the system where it may refuse. *)
Definition exec_cmd (c : cmd) (k : Z -> prog) (t : nat) (T : thread) (r : Z) (m : machine)
  : outcome :=
  let go v m := Next (with_threads (alter (set_code (k v)) t) m) in
  match c with
  | ReadFlag =>
      match keep_running m !! space T with
      | Some v => go v m
      | None => Bad "address space"
      end
  | WriteFlag v => go 0 (with_flags (<[space T := v]>) m)
  | GetCur => go (current_thread T) m
  | SetCur v => go 0 (with_threads (alter (set_cur v) t) m)
  | CounterPtr => go (match square_counter m with Null => 0 | _ => 1 end) m
  | Load i =>
      match square_counter m with
      | Live l =>
          if mapped T then
            match arr_get l i with Some v => go v m | None => Bad "counter index" end
          else Bad "segmentation fault"
      | Freed => Bad "use after free"
      | Null => Bad "null pointer"
      end
  | Store i v =>
      match square_counter m with
      | Live l =>
          if mapped T then
            if decide (in_int v) then
              match arr_set l i v with
              | Some l' => go 0 (with_block (Live l') m)
              | None => Bad "counter index"
              end
            else Bad "signed overflow"
          else Bad "segmentation fault"
      | Freed => Bad "use after free"
      | Null => Bad "null pointer"
      end
  | Malloc => go (if decide (r = 0) then 0 else 1) m
  | Calloc n =>
      if decide (r = 0) then go 0 (with_block Null m)
      else go 1 (with_block (Live (replicate (Z.to_nat n) 0)) m)
  | Deref p => if decide (p = 0) then Bad "null pointer" else go 0 m
  | FreeCounter =>
      match square_counter m with
      | Live _ => go 0 (with_block Freed m)
      | Null => go 0 m
      | Freed => Bad "double free"
      end
  | Shmdt => go 0 (with_threads (alter set_unmapped t) m)
  | Create e =>
      if decide (r = 0) then go 0 m
      else
        let h := Z.of_nat (length (threads m)) in
        go h (with_threads (fun ts => ts ++ [start e (space T)]) m)
  | Fork e =>
      if decide (r = 0) then go 0 m
      else
        match keep_running m !! space T with
        | Some v =>
            let h := Z.of_nat (length (threads m)) in
            let sp := length (keep_running m) in
            go h (with_threads (fun ts => ts ++ [start e sp])
                   (with_flags (fun fs => fs ++ [v]) m))
        | None => Bad "address space"
        end
  | KillThread h => go 0 (with_threads (alter (set_code (Ret 0)) (Z.to_nat h)) m)
  | SendSignal h =>
      match threads m !! Z.to_nat h with
      | None => Bad "no such process"
      | Some P =>
          if handler P then go 0 (with_flags (<[space P := 0]>) m)
          else go 0 (with_threads (alter (set_code (Ret 0)) (Z.to_nat h)) m)
      end
  | OnSignal => go 0 (with_threads (alter set_handler t) m)
  | Waitpid h =>
      match threads m !! Z.to_nat h with
      | None => Bad "no such process"
      | Some P => match code P with Ret _ => go 0 m | Vis _ _ => NotEnabled end
      end
  | Sleep => go 0 m
  | Output e => go 0 (with_printed (fun l => l ++ [e]) m)
  | Exit => Next (set_ended m)
  | Crash why => Bad why
  end.

Definition exec (t : nat) (r : Z) (m : machine) : outcome :=
  if ended m then NotEnabled
  else
    match threads m !! t with
    | None => NotEnabled
    | Some T =>
        match code T with
        | Ret _ => NotEnabled
        | Vis c k => exec_cmd c k t T r m
        end
    end.

Inductive step (m m' : machine) : Prop :=
| step_thread t r : exec t r m = Next m' -> step m m'.

(** Execute a schedule; entries that are not enabled are skipped. *)
Fixpoint run (sched : list (nat * Z)) (m : machine) : outcome :=
  match sched with
  | [] => Next m
  | (t, r) :: sched' =>
      match exec t r m with
      | Next m' => run sched' m'
      | Bad why => Bad why
      | NotEnabled => run sched' m
      end
  end.

Lemma run_reach sched m m' : run sched m = Next m' -> rtc step m m'.
Proof.
  revert m. induction sched as [|[t r] sched IH]; intros m; simpl.
  { intros [= ->]. done. }
  destruct (exec t r m) eqn:E; try done; [|apply IH].
  intros H. eapply rtc_l; [by econstructor|by apply IH].
Qed.
End Machine.

(** ** square.c *)

(** [square_counter[current_thread]++], with the guard in front of it. *)
Definition count_call : prog :=
  let? p := call CounterPtr in
  if decide (p = 0) then Ret 0
  else
    let? c := call GetCur in
    if decide (c >= 0) then
      let? v := call (Load c) in
      call (Store c (v + 1))
    else Ret 0.

(** [int] addition that overflows is undefined. *)
Definition int_add (a b : Z) : prog :=
  if decide (in_int (a + b)) then Ret (a + b) else call (Crash "signed overflow").

(** The recursion stops at N = 0; the fuel is the depth of the C stack. *)
Fixpoint Square_rec (fuel : nat) (N : Z) : prog :=
  match fuel with
  | O => call (Crash "stack overflow")
  | S fuel' =>
      count_call ;;;
      if decide (N = 0) then Ret 0
      else
        let? a := int_add N (-1) in
        let? r := Square_rec fuel' a in
        let? b := int_add r N in
        let? c := int_add b N in
        int_add c (-1)
  end.

Definition Square (N : Z) : prog := Square_rec (S (Z.to_nat N)) N.

(** ** Command-line arguments: strtol(s, NULL, 0) with a [w]-bit [long] *)

Definition isspace (c : Z) : bool := (c =? 32) || ((9 <=? c) && (c <=? 13)).

Definition digit_val (c : Z) : Z :=
  if (48 <=? c) && (c <=? 57) then c - 48
  else if (97 <=? c) && (c <=? 122) then c - 87
  else if (65 <=? c) && (c <=? 90) then c - 55
  else 99.

Fixpoint skip_space (s : list Z) : list Z :=
  match s with
  | c :: s' => if isspace c then skip_space s' else s
  | [] => []
  end.

Fixpoint digits (base : Z) (s : list Z) (acc : Z) : Z :=
  match s with
  | c :: s' => if digit_val c <? base then digits base s' (acc * base + digit_val c) else acc
  | [] => acc
  end.

Definition strtol (w : Z) (s : list Z) : Z :=
  let s := skip_space s in
  let '(neg, s) :=
    match s with
    | 45 :: s' => (true, s')
    | 43 :: s' => (false, s')
    | _ => (false, s)
    end in
  let '(base, s) :=
    match s with
    | 48 :: x :: d :: s' =>
        if ((x =? 120) || (x =? 88)) && (digit_val d <? 16) then (16, d :: s') else (8, s)
    | 48 :: _ => (8, s)
    | _ => (10, s)
    end in
  let n := digits base s 0 in
  let n := if neg : bool then - n else n in
  Z.max (- 2 ^ (w - 1)) (Z.min (2 ^ (w - 1) - 1) n).

(** The driver's arguments, [argv[1..3]]; a missing one reads as empty. *)
Definition arg (argv : list (list Z)) (i : nat) : list Z := default [] (argv !! i).

(** ** partA1.c: Windows threads *)
Module A1.

Definition ChildThreadFunction (incoming_thread_id incoming_size : Z) : prog :=
  let thread_index := incoming_thread_id - 1 in
  call (SetCur thread_index) ;;;
  call Sleep ;;;
  for_prog (zrange 1 (incoming_size + 1)) (fun i =>
    let? keep_running := call ReadFlag in
    if decide (keep_running <> 0) then Square i ;;; Ret 0
    else call (Output (EvStopped incoming_thread_id i)) ;;; Ret 1) ;;;
  let? n := call (Load thread_index) in
  call (Output (EvDone incoming_thread_id n)) ;;;
  Ret 0.

(** The creation loop leaves with 1 when CreateThread fails; otherwise it goes
    on with the handles in order. *)
Fixpoint create_children (l : list Z) (thread_ids args : Z) (size : Z) (hs : list Z)
    (after : list Z -> prog) : prog :=
  match l with
  | [] => after hs
  | i :: l' =>
      call (Deref thread_ids) ;;;
      call (Deref args) ;;;
      let? h := call (Create (Child (i + 1) size)) in
      if decide (h = 0) then Ret 1
      else create_children l' thread_ids args size (hs ++ [h]) after
  end.

Definition ParentThreadFunction (number_of_threads deadline size : Z) : prog :=
  let? h_child_thread := call Malloc in
  let? thread_ids := call Malloc in
  let? square_counter := call (Calloc number_of_threads) in
  let? args := call Malloc in
  if decide (h_child_thread = 0 \/ thread_ids = 0 \/ square_counter = 0) then Ret 1
  else
    create_children (zrange 0 number_of_threads) thread_ids args size [] (fun hs =>
      call Sleep ;;;
      call (WriteFlag 0) ;;;
      call Sleep ;;;
      for_prog (zrange 0 number_of_threads) (fun i =>
        call (Output (EvClosed (i + 1)))) ;;;
      for_prog (zrange 0 number_of_threads) (fun i =>
        let? n := call (Load i) in
        call (Output (EvSummary (i + 1) n))) ;;;
      call FreeCounter ;;;
      Ret 0).

Definition body (e : entry) : prog :=
  match e with
  | Parent n d s => ParentThreadFunction n d s
  | Child id s => ChildThreadFunction id s
  end.

(** [long] has 32 bits on Windows. *)
Definition main (argc : Z) (argv : list (list Z)) : prog :=
  if decide (argc <> 4) then Ret 1
  else
    let number_of_threads := i32 (strtol 32 (arg argv 1)) in
    let deadline := i32 (strtol 32 (arg argv 2)) in
    let size := i32 (strtol 32 (arg argv 3)) in
    if decide (number_of_threads <= 0 \/ number_of_threads > 1000) then Ret 1
    else if decide (deadline <= 0 \/ deadline > 120) then Ret 1
    else if decide (size <= 0 \/ size > 10000) then Ret 1
    else
      let? h_parent_thread := call (Create (Parent number_of_threads deadline size)) in
      if decide (h_parent_thread = 0) then Ret 1
      else
        call Sleep ;;;
        call Exit ;;;
        Ret 0.
End A1.

(** ** partA2.c: the PThreads kernel of the course *)
Module A2.

Definition ChildThreadFunction (incoming_thread_id incoming_size : Z) : prog :=
  let thread_index := incoming_thread_id - 1 in
  call (SetCur thread_index) ;;;
  call Sleep ;;;
  for_prog (zrange 1 (incoming_size + 1)) (fun i =>
    let? keep_running := call ReadFlag in
    if decide (keep_running <> 0) then
      call (SetCur thread_index) ;;;
      Square i ;;; Ret 0
    else
      let? again := call ReadFlag in
      if decide (again = 0) then
        call (Output (EvStopped incoming_thread_id i)) ;;; Ret 1
      else Ret 0) ;;;
  let? n := call (Load thread_index) in
  call (Output (EvDone incoming_thread_id n)) ;;;
  Ret 0.

Fixpoint create_children (l : list Z) (size : Z) (hs : list Z)
    (after : list Z -> prog) : prog :=
  match l with
  | [] => after hs
  | i :: l' =>
      let? h := call (Create (Child (i + 1) size)) in
      if decide (h = 0) then Ret 0
      else create_children l' size (hs ++ [h]) after
  end.

Definition ParentThreadFunction (number_of_threads deadline size : Z) : prog :=
  let? child_thread := call Malloc in
  let? thread_ids := call Malloc in
  let? square_counter := call (Calloc number_of_threads) in
  let? args := call Malloc in
  if decide (child_thread = 0 \/ thread_ids = 0 \/ square_counter = 0 \/ args = 0)
  then Ret 0
  else
    create_children (zrange 0 number_of_threads) size [] (fun hs =>
      call Sleep ;;;
      call (WriteFlag 0) ;;;
      for_prog (zrange 0 number_of_threads) (fun i =>
        call (KillThread (default 0 (arr_get hs i))) ;;;
        call (Output (EvClosed (i + 1)))) ;;;
      for_prog (zrange 0 number_of_threads) (fun i =>
        let? n := call (Load i) in
        call (Output (EvSummary (i + 1) n))) ;;;
      call FreeCounter ;;;
      Ret 0).

Definition body (e : entry) : prog :=
  match e with
  | Parent n d s => ParentThreadFunction n d s
  | Child id s => ChildThreadFunction id s
  end.

(** The kernel of the course goes on running its threads after mainp returns. *)
Definition mainp (argc : Z) (argv : list (list Z)) : prog :=
  let? input_args := call Malloc in
  if decide (argc <> 4) then Ret 1
  else
    let number_of_threads := i32 (strtol 64 (arg argv 1)) in
    let deadline := i32 (strtol 64 (arg argv 2)) in
    let size := i32 (strtol 64 (arg argv 3)) in
    if decide (number_of_threads <= 0 \/ number_of_threads > 1000) then
      call Exit ;;; Ret 1
    else if decide (deadline <= 0 \/ deadline > 120) then Ret 1
    else if decide (size <= 0 \/ size > 10000) then Ret 1
    else
      call (Deref input_args) ;;;
      let? parent_thread := call (Create (Parent number_of_threads deadline size)) in
      if decide (parent_thread = 0) then Ret 1
      else call Sleep ;;; Ret 0.
End A2.

(** ** partA3.c: POSIX threads *)
Module A3.

Definition ChildThreadFunction (incoming_thread_id incoming_size : Z) : prog :=
  let thread_index := incoming_thread_id - 1 in
  call (SetCur thread_index) ;;;
  call Sleep ;;;
  for_prog (zrange 1 (incoming_size + 1)) (fun i =>
    let? keep_running := call ReadFlag in
    if decide (keep_running <> 0) then Square i ;;; Ret 0
    else
      let? again := call ReadFlag in
      if decide (again = 0) then
        call (Output (EvStopped incoming_thread_id i)) ;;; Ret 1
      else Ret 0) ;;;
  let? n := call (Load thread_index) in
  call (Output (EvDone incoming_thread_id n)) ;;;
  Ret 0.

Fixpoint create_children (l : list Z) (size : Z) (hs : list Z)
    (after : list Z -> prog) : prog :=
  match l with
  | [] => after hs
  | i :: l' =>
      let? h := call (Create (Child (i + 1) size)) in
      if decide (h = 0) then call Exit ;;; Ret 0
      else create_children l' size (hs ++ [h]) after
  end.

(** pthread_detach neither stops nor awaits the thread. *)
Definition ParentThreadFunction (number_of_threads deadline size : Z) : prog :=
  let? child_thread := call Malloc in
  let? thread_ids := call Malloc in
  let? square_counter := call (Calloc number_of_threads) in
  let? args := call Malloc in
  if decide (child_thread = 0 \/ thread_ids = 0 \/ square_counter = 0 \/ args = 0)
  then call Exit ;;; Ret 0
  else
    create_children (zrange 0 number_of_threads) size [] (fun hs =>
      call Sleep ;;;
      call (WriteFlag 0) ;;;
      for_prog (zrange 0 number_of_threads) (fun i =>
        call (Output (EvClosed (i + 1)))) ;;;
      for_prog (zrange 0 number_of_threads) (fun i =>
        let? n := call (Load i) in
        call (Output (EvSummary (i + 1) n))) ;;;
      call FreeCounter ;;;
      Ret 0).

Definition body (e : entry) : prog :=
  match e with
  | Parent n d s => ParentThreadFunction n d s
  | Child id s => ChildThreadFunction id s
  end.

Definition main (argc : Z) (argv : list (list Z)) : prog :=
  if decide (argc <> 4) then Ret 1
  else
    let number_of_threads := i32 (strtol 64 (arg argv 1)) in
    let deadline := i32 (strtol 64 (arg argv 2)) in
    let size := i32 (strtol 64 (arg argv 3)) in
    if decide (number_of_threads <= 0 \/ number_of_threads > 1000) then Ret 1
    else if decide (deadline <= 0 \/ deadline > 120) then Ret 1
    else if decide (size <= 0 \/ size > 10000) then Ret 1
    else
      let? parent_thread := call (Create (Parent number_of_threads deadline size)) in
      if decide (parent_thread = 0) then Ret 1
      else call Sleep ;;; call Exit ;;; Ret 0.
End A3.

(** ** partA4.c: processes, shared memory and a signal *)
Module A4.

(** [signal_handler] clears the process's own flag: see [SendSignal]. *)
Definition ChildProcessFunction (process_id size : Z) : prog :=
  let process_index := process_id - 1 in
  call OnSignal ;;;
  call Sleep ;;;
  for_prog (zrange 1 (size + 1)) (fun i =>
    let? keep_running := call ReadFlag in
    if decide (keep_running <> 0) then
      call (SetCur process_index) ;;;
      Square i ;;; Ret 0
    else
      call (Output (EvStopped process_id i)) ;;; Ret 1) ;;;
  let? n := call (Load process_index) in
  call (Output (EvDone process_id n)) ;;;
  Ret 0.

Definition body (e : entry) : prog :=
  match e with
  | Parent _ _ _ => Ret 0
  | Child id s => ChildProcessFunction id s
  end.

(** The fork loop leaves main with 1 when fork fails. *)
Fixpoint create_children (l : list Z) (size : Z) (hs : list Z)
    (after : list Z -> prog) : prog :=
  match l with
  | [] => after hs
  | i :: l' =>
      let? h := call (Fork (Child (i + 1) size)) in
      if decide (h = 0) then Ret 1
      else create_children l' size (hs ++ [h]) after
  end.

(** The shared segment of shmget and shmat is zero-filled and then cleared
    again by the loop of main. *)
Definition main (argc : Z) (argv : list (list Z)) : prog :=
  if decide (argc <> 4) then Ret 1
  else
    let number_of_processes := i32 (strtol 64 (arg argv 1)) in
    let deadline := i32 (strtol 64 (arg argv 2)) in
    let size := i32 (strtol 64 (arg argv 3)) in
    if decide (number_of_processes <= 0 \/ number_of_processes > 1000) then Ret 1
    else if decide (deadline <= 0 \/ deadline > 120) then Ret 1
    else if decide (size <= 0 \/ size > 10000) then Ret 1
    else
      let? square_counter := call (Calloc number_of_processes) in
      if decide (square_counter = 0) then Ret 1
      else
        for_prog (zrange 0 number_of_processes) (fun i => call (Store i 0)) ;;;
        let? child_processes := call Malloc in
        let? process_ids := call Malloc in
        if decide (child_processes = 0 \/ process_ids = 0) then Ret 1
        else
          create_children (zrange 0 number_of_processes) size [] (fun hs =>
            call Sleep ;;;
            call (WriteFlag 0) ;;;
            for_prog (zrange 0 number_of_processes) (fun i =>
              call (SendSignal (default 0 (arr_get hs i)))) ;;;
            for_prog (zrange 0 number_of_processes) (fun i =>
              call (Waitpid (default 0 (arr_get hs i))) ;;;
              call (Output (EvClosed (i + 1)))) ;;;
            for_prog (zrange 0 number_of_processes) (fun i =>
              let? n := call (Load i) in
              call (Output (EvSummary (i + 1) n))) ;;;
            call Shmdt ;;;
            Ret 0).
End A4.

(** The machine when the program starts: one thread, at the start of main. *)
Definition boot (p : prog) : machine :=
  mkMachine [1] Null [mkThread p (-1) 0 false true] [] false.
