(* ===== verification/PartASpec.v ===== *)
(** * What the Part A drivers guarantee

    A small program logic for child threads ([cwp]) tracks the value of the
    thread's own counter; it is proved once for [Square] and the children of the
    four drivers, and carried through every interleaving by the invariants
    [tinv] (threads, drivers 1 to 3) and [pinv] (processes, driver 4). *)

From Stdlib Require Import ZArith Lia.
From stdpp Require Import base numbers list relations strings.
From S2P Require Import Prelude PartA.
Open Scope Z_scope.

(** Calls of [Square] made by [Square(1)], ..., [Square(n)] together: [Square(i)]
    enters the function i + 1 times. *)
Definition calls (n : Z) : Z := n * (n + 3) / 2.

Lemma calls_0 : calls 0 = 0.
Proof. done. Qed.

Lemma calls_step i : calls i = calls (i - 1) + (i + 1).
Proof.
  unfold calls. replace (i * (i + 3)) with ((i - 1) * (i - 1 + 3) + (i + 1) * 2) by lia.
  by rewrite Z.div_add by lia.
Qed.

Lemma calls_mono i j : 0 <= i <= j -> calls i <= calls j.
Proof. intros. unfold calls. apply Z.div_le_mono; [lia|]. nia. Qed.

Lemma calls_nonneg i : 0 <= i -> 0 <= calls i.
Proof. intros. rewrite <- calls_0. apply calls_mono. lia. Qed.

Lemma calls_int size : 0 <= size <= 10000 -> calls size <= 50015000.
Proof. intros. change 50015000 with (calls 10000). by apply calls_mono. Qed.

(** ** A program logic for children *)

(** What child [slot] of a run with the given [size] may print when its counter
    is [c]. *)
Definition child_says (slot size c : Z) (m : message) : Prop :=
  match m with
  | EvStopped id i => id = slot + 1 /\ 1 <= i <= size /\ c = calls (i - 1)
  | EvDone id n => id = slot + 1 /\ n = c /\ exists i, 0 <= i <= size /\ c = calls i
  | _ => False
  end.

(** What is known of a child between two of its commands: whether it has seen
    the run flag cleared (after which the flag stays cleared), its
    [current_thread], the value of its counter, and how many more calls it may
    count before it looks at the run flag again. *)
Record cst : Type := mkCst { seen : bool; tls : Z; cnt : Z; left : Z }.

(** [cwp slot size σ p Q]: run from [σ] by the owner of counter [slot], [p]
    touches no other counter, adds one at a time, never goes past [calls size],
    looks at the run flag at least once in every [size + 1] counted calls, and
    ends with [Q]. *)
Fixpoint cwp (slot size : Z) (σ : cst) (p : prog) (Q : Z -> cst -> Prop) : Prop :=
  match p with
  | Ret v => Q v σ
  | Vis ReadFlag k =>
      forall v, (seen σ = true -> v = 0) ->
        cwp slot size (mkCst (seen σ || (v =? 0)) (tls σ) (cnt σ)
                         (if v =? 0 then left σ else size + 1)) (k v) Q
  | Vis GetCur k => cwp slot size σ (k (tls σ)) Q
  | Vis (SetCur v) k => cwp slot size (mkCst (seen σ) v (cnt σ) (left σ)) (k 0) Q
  | Vis CounterPtr k => cwp slot size σ (k 1) Q
  | Vis (Load i) k => i = slot /\ cwp slot size σ (k (cnt σ)) Q
  | Vis (Store i v) k =>
      i = slot /\ v = cnt σ + 1 /\ v <= calls size /\ 1 <= left σ /\
      cwp slot size (mkCst (seen σ) (tls σ) v (left σ - 1)) (k 0) Q
  | Vis (Output e) k => child_says slot size (cnt σ) e /\ cwp slot size σ (k 0) Q
  | Vis Sleep k | Vis OnSignal k => cwp slot size σ (k 0) Q
  | _ => False
  end.

Section ChildLogic.
Variables slot size : Z.

Lemma cwp_bind p f σ Q :
  cwp slot size σ p (fun v σ' => cwp slot size σ' (f v) Q) ->
  cwp slot size σ (pbind p f) Q.
Proof.
  revert σ. induction p as [v|cm k IH]; intros σ; simpl; [done|].
  destruct cm; try done; naive_solver.
Qed.

Lemma cwp_mono p σ (Q Q' : Z -> cst -> Prop) :
  (forall v σ', Q v σ' -> Q' v σ') -> cwp slot size σ p Q -> cwp slot size σ p Q'.
Proof.
  intros HQ. revert σ. induction p as [v|cm k IH]; intros σ; simpl; [apply HQ|].
  destruct cm; try done; naive_solver.
Qed.

Lemma cwp_count z c b : 0 <= slot -> c + 1 <= calls size -> 1 <= b ->
  cwp slot size (mkCst z slot c b) count_call
    (fun _ σ => σ = mkCst z slot (c + 1) (b - 1)).
Proof. intros Hs Hc Hb. unfold count_call, call. simpl. case_decide; [|lia]. done. Qed.

(** [Square(N)] returns the square of [N], counts N + 1 calls, and computes
    no [int] out of range. *)
Lemma cwp_Square_rec n N z c b :
  0 <= slot -> 0 <= N <= 10000 -> (Z.to_nat N < n)%nat -> c + N + 1 <= calls size ->
  N + 1 <= b ->
  cwp slot size (mkCst z slot c b) (Square_rec n N)
    (fun v σ => v = N * N /\ σ = mkCst z slot (c + N + 1) (b - (N + 1))).
Proof.
  intros Hs. revert N c b. induction n as [|n IH]; intros N c b HN Hn Hc Hb; [lia|].
  cbn [Square_rec]. apply cwp_bind.
  eapply cwp_mono; [|apply cwp_count; [done|lia|lia]]. intros ? σ ->.
  destruct (decide (N = 0)) as [->|HN0]; [simpl; split; [done|]; f_equal; lia|].
  assert (forall a b, - 100000000 <= a + b <= 200000000 -> int_add a b = Ret (a + b)) as Hadd.
  { intros x y Hxy. unfold int_add, in_int, INT_MAX, INT_MIN. by rewrite decide_True by lia. }
  assert (0 <= (N - 1) * (N - 1) <= 100000000) by nia.
  rewrite Hadd by lia. cbn [pbind]. apply cwp_bind.
  eapply cwp_mono; [|apply (IH (N + -1) (c + 1) (b - 1)); lia].
  intros w σ (Hv & ->).
  replace ((N + -1) * (N + -1)) with ((N - 1) * (N - 1)) in Hv by lia. subst w.
  rewrite Hadd by lia. cbn [pbind]. rewrite Hadd by lia. cbn [pbind].
  rewrite Hadd by lia. simpl. split; [lia|]. f_equal; lia.
Qed.

Lemma cwp_Square i z c b :
  0 <= slot -> 0 <= i <= 10000 -> c + i + 1 <= calls size -> i + 1 <= b ->
  cwp slot size (mkCst z slot c b) (Square i)
    (fun v σ => v = i * i /\ σ = mkCst z slot (c + i + 1) (b - (i + 1))).
Proof. intros. apply cwp_Square_rec; lia. Qed.

(** One round of the loop: all of [Square(i)] is done, or the loop is left. *)
Definition round_post (i : Z) (P : Z -> Prop) (b : Z) (σ : cst) : Prop :=
  P (tls σ) /\ 0 <= left σ /\
  ((b = 0 /\ cnt σ = calls i) \/ (b = 1 /\ cnt σ = calls (i - 1))).

(** A loop over [1..size] of such rounds, where [P] is what the loop keeps of
    [current_thread]. *)
Lemma cwp_loop (P : Z -> Prop) body σ :
  (forall i σ, 1 <= i <= size -> P (tls σ) -> 0 <= left σ -> cnt σ = calls (i - 1) ->
     cwp slot size σ (body i) (round_post i P)) ->
  0 <= size -> P (tls σ) -> 0 <= left σ -> cnt σ = 0 ->
  cwp slot size σ (for_prog (zrange 1 (size + 1)) body)
    (fun _ σ' => exists i, 0 <= i <= size /\ cnt σ' = calls i).
Proof.
  intros Hbody Hsize HP0 Hb0 Hc0.
  enough (forall n i σ, 1 <= i -> i + Z.of_nat n = size + 1 -> P (tls σ) -> 0 <= left σ ->
    cnt σ = calls (i - 1) ->
    cwp slot size σ (for_prog (zrange i (size + 1)) body)
      (fun _ σ' => exists i, 0 <= i <= size /\ cnt σ' = calls i)) as H.
  { apply (H (Z.to_nat size) 1); [lia|lia|done|done|done]. }
  induction n as [|n IH]; intros i σ0 Hi Hn HP Hb Hc.
  - unfold zrange. rewrite seqZ_nil by lia. simpl. exists (i - 1). split; [lia|done].
  - rewrite zrange_cons by lia. cbn [for_prog]. apply cwp_bind.
    eapply cwp_mono; [|apply Hbody; [lia|done|done|done]].
    intros b σ1 (HP' & Hb' & [[-> Hc']|[-> Hc']]); cbn.
    + apply IH; [lia|lia|done|done|]. rewrite Hc'. f_equal; lia.
    + exists (i - 1). split; [lia|done].
Qed.
End ChildLogic.

(** The children of the four drivers, started with their counter at zero. *)
Notation ends := (fun _ _ => True).
Definition cst0 (size : Z) : cst := mkCst false (-1) 0 (size + 1).

Section Children.
Variables slot size : Z.
Hypotheses (Hslot : 0 <= slot) (Hsize : 0 <= size <= 10000).

Lemma cwp_round i z c b (P : Z -> Prop) :
  1 <= i <= size -> P slot -> c = calls (i - 1) -> b = size + 1 ->
  cwp slot size (mkCst z slot c b) (Square i ;;; Ret 0) (round_post i P).
Proof using Hslot Hsize.
  intros Hi HP -> ->. pose proof (calls_step i). pose proof (calls_mono i size).
  apply cwp_bind. eapply cwp_mono; [|apply cwp_Square; lia].
  intros ? ? (_ & ->). split; simpl; [done|]. split; [lia|]. left. split; [done|lia].
Qed.

(** The last lines of every child: read the counter and report it. *)
Lemma cwp_report σ :
  (exists i, 0 <= i <= size /\ cnt σ = calls i) ->
  cwp slot size σ
    (let? n := call (Load slot) in call (Output (EvDone (slot + 1) n)) ;;; Ret 0) ends.
Proof. intros Hc. by simpl. Qed.

Ltac child P :=
  unfold A1.ChildThreadFunction, A2.ChildThreadFunction, A3.ChildThreadFunction,
    A4.ChildProcessFunction;
  replace (slot + 1 - 1) with slot by lia;
  cbn [pbind call cwp]; apply cwp_bind;
  eapply cwp_mono; [intros ? ?; apply cwp_report|];
  apply (cwp_loop _ _ P); [|lia|done|simpl; lia|done];
  intros i [z cur c b] Hi HP Hb Hc; cbn [pbind call cwp seen tls cnt left] in *;
  intros flag Hflag;
  destruct (Z.eqb_spec flag 0) as [Hf|Hf];
  [rewrite decide_False by lia|rewrite decide_True by done; cbn [pbind call cwp];
     try subst cur; by apply cwp_round].

Ltac stopped := cbn; unfold round_post; cbn; subst; auto 10.

Lemma A1_child : cwp slot size (cst0 size) (A1.ChildThreadFunction (slot + 1) size) ends.
Proof using Hslot Hsize. child (fun cur => cur = slot). stopped. Qed.

Lemma A2_child : cwp slot size (cst0 size) (A2.ChildThreadFunction (slot + 1) size) ends.
Proof using Hslot Hsize.
  child (fun _ : Z => True). cbn [pbind call cwp seen tls cnt left]. intros again Hagain.
  assert (again = 0) as -> by (apply Hagain, orb_true_r). rewrite decide_True by done. stopped.
Qed.

Lemma A3_child : cwp slot size (cst0 size) (A3.ChildThreadFunction (slot + 1) size) ends.
Proof using Hslot Hsize.
  child (fun cur => cur = slot). cbn [pbind call cwp seen tls cnt left]. intros again Hagain.
  assert (again = 0) as -> by (apply Hagain, orb_true_r). rewrite decide_True by done. stopped.
Qed.

Lemma A4_child : cwp slot size (cst0 size) (A4.ChildProcessFunction (slot + 1) size) ends.
Proof using Hslot Hsize. child (fun _ : Z => True). stopped. Qed.
End Children.

(** ** One step of a child in any machine *)

Lemma alter_as_insert {A} (f : A -> A) t (ts : list A) T :
  ts !! t = Some T -> alter f t ts = <[t := f T]> ts.
Proof.
  intros H. apply list_eq. intros i. destruct (decide (t = i)) as [->|Hne].
  - rewrite list_lookup_alter_eq, H, list_lookup_insert_eq; [done|]. by eapply lookup_lt_Some.
  - by rewrite list_lookup_alter_ne, list_lookup_insert_ne.
Qed.

(** The state of child [slot] with counter [c] and at most [b] more calls before
    it looks at its run flag, whose value is [fl]; it ends in [Q]. *)
Record child_ok (Q : Z -> cst -> Prop) (slot size fl c b : Z) (T : thread) : Prop := {
  ck_code : exists z, (z = true -> fl = 0) /\
              cwp slot size (mkCst z (current_thread T) c b) (code T) Q;
  ck_left : 0 <= b <= size + 1;
  ck_mapped : mapped T = true }.

(** A child at counter [c] and budget [b] becomes [T'] at [c'] and [b'], and
    prints [out]; a cleared flag never renews the budget. *)
Record child_moves (Q : Z -> cst -> Prop) (slot size fl c b : Z) (T T' : thread) (c' b' : Z)
    (out : list message) : Prop := {
  cm_space : space T' = space T;
  cm_ok : child_ok Q slot size fl c' b' T';
  cm_count : c <= c' <= Z.max c (calls size);
  cm_budget : fl = 0 -> c' + b' <= c + b;
  cm_says : Forall (child_says slot size c) out;
  cm_next : forall cm k, code T = Vis cm k -> exists v, code T' = k v }.

Definition child_result (t : nat) (b : block) (T' : thread) (out : list message)
    (m : machine) : machine :=
  mkMachine (keep_running m) b (<[t := T']> (threads m)) (printed m ++ out) (ended m).

Section ChildStep.
Context (body : entry -> prog) (Q : Z -> cst -> Prop) (slot size fl c b : Z) (T : thread) (cm : cmd) (k : Z -> prog).
Context (t : nat) (r : Z) (m : machine).
Hypotheses (Hok : child_ok Q slot size fl c b T) (Hcode : code T = Vis cm k).
Hypotheses (HT : threads m !! t = Some T) (Hfl : keep_running m !! space T = Some fl).
Hypothesis Hsize : 0 <= size <= 10000.

(** The step is computed with [Hb] (the block) and [Hi] (an unchanged counter),
    then the facts about the move are left. *)
Ltac child_facts Hb Hi :=
  split;
  [ unfold child_result, with_threads, with_flags, with_block, with_printed; cbn;
    rewrite ?alter_alter, ?(alter_as_insert _ _ _ _ HT), ?app_nil_r;
    rewrite ?Hi, ?Hb; done
  | split; try done; try (simpl; lia);
    try (intros ? ? Hnext; rewrite Hcode in Hnext; injection Hnext as <- <-; by eexists)].
Ltac child_next z Hwp := split; [exists z; split; [done|exact Hwp]|done|done].

(** After a look at the run flag. *)
Lemma flag_ok z :
  (z = true -> fl = 0) ->
  (forall v, (z = true -> v = 0) ->
     cwp slot size (mkCst (z || (v =? 0)) (current_thread T) c
                      (if v =? 0 then b else size + 1)) (k v) Q) ->
  child_ok Q slot size fl c (if fl =? 0 then b else size + 1) (set_code (k fl) T).
Proof using Hok Hsize.
  intros Hz Hwp. destruct Hok as [_ Hb Hm]. split; [|destruct (fl =? 0); lia|done].
  exists (z || (fl =? 0)). split; [|by apply Hwp].
  destruct z; [by intros; apply Hz|]. simpl. apply Z.eqb_eq.
Qed.

Lemma child_exec_live l :
  square_counter m = Live l -> arr_get l slot = Some c -> 0 <= c ->
  exists T' c' b' out,
    exec_cmd body cm k t T r m =
      Next (child_result t (Live (<[Z.to_nat slot := c']> l)) T' out m) /\
    child_moves Q slot size fl c b T T' c' b' out.
Proof using All.
  intros Hb Hl Hc. pose proof Hok as [(z & Hz & Hwp) Hleft Hmap]. rewrite Hcode in Hwp.
  pose proof Hl as [Hs0 Hl']%arr_get_Some. pose proof (arr_get_range _ _ _ Hl) as Hr.
  pose proof (calls_int size Hsize). pose proof (list_insert_id _ _ _ Hl') as Hi.
  destruct cm; simpl in Hwp; try done; unfold exec_cmd; rewrite ?Hb, ?Hfl, ?Hmap.
  - exists (set_code (k fl) T), c, (if fl =? 0 then b else size + 1), []. child_facts Hb Hi.
    + by apply (flag_ok z).
    + by intros ->.
  - exists (set_code (k (current_thread T)) T), c, b, []. child_facts Hb Hi. child_next z Hwp.
  - exists (set_code (k 0) (set_cur v T)), c, b, []. child_facts Hb Hi. child_next z Hwp.
  - exists (set_code (k 1) T), c, b, []. child_facts Hb Hi. child_next z Hwp.
  - destruct Hwp as [-> Hwp]. rewrite Hl.
    exists (set_code (k c) T), c, b, []. child_facts Hb Hi. child_next z Hwp.
  - destruct Hwp as (-> & -> & Hle & Hle' & Hwp).
    rewrite decide_True by (unfold in_int, INT_MAX, INT_MIN; lia).
    rewrite arr_set_Some by done.
    exists (set_code (k 0) T), (c + 1), (b - 1), []. child_facts Hb Hi.
    split; [by exists z|lia|done].
  - exists (set_code (k 0) (set_handler T)), c, b, []. child_facts Hb Hi. child_next z Hwp.
  - exists (set_code (k 0) T), c, b, []. child_facts Hb Hi. child_next z Hwp.
  - destruct Hwp as [Hsay Hwp].
    exists (set_code (k 0) T), c, b, [m0]. child_facts Hb Hi; [child_next z Hwp|].
    by constructor.
Qed.

Lemma child_exec_freed :
  square_counter m = Freed ->
  exec_cmd body cm k t T r m = Bad "use after free" \/
  exists T' b' out,
    exec_cmd body cm k t T r m = Next (child_result t Freed T' out m) /\
    child_moves Q slot size fl c b T T' c b' out.
Proof using All.
  intros Hb. pose proof Hok as [(z & Hz & Hwp) Hleft Hmap]. rewrite Hcode in Hwp.
  destruct cm; simpl in Hwp; try done; unfold exec_cmd; rewrite ?Hb, ?Hfl, ?Hmap;
    try (by left); right.
  - exists (set_code (k fl) T), (if fl =? 0 then b else size + 1), []. child_facts Hb Hb.
    + by apply (flag_ok z).
    + by intros ->.
  - exists (set_code (k (current_thread T)) T), b, []. child_facts Hb Hb. child_next z Hwp.
  - exists (set_code (k 0) (set_cur v T)), b, []. child_facts Hb Hb. child_next z Hwp.
  - exists (set_code (k 1) T), b, []. child_facts Hb Hb. child_next z Hwp.
  - exists (set_code (k 0) (set_handler T)), b, []. child_facts Hb Hb. child_next z Hwp.
  - exists (set_code (k 0) T), b, []. child_facts Hb Hb. child_next z Hwp.
  - destruct Hwp as [Hsay Hwp].
    exists (set_code (k 0) T), b, [m0]. child_facts Hb Hb; [child_next z Hwp|].
    by constructor.
Qed.
End ChildStep.

(** ** The parent and main threads of drivers 1 to 3 *)

(** The messages of a run with the given [size]. *)
Definition message_ok (size : Z) (e : message) : Prop :=
  match e with
  | EvStopped id i => 1 <= id /\ 1 <= i <= size
  | EvDone id n => 1 <= id /\ exists i, 0 <= i <= size /\ n = calls i
  | EvClosed _ => True
  | EvSummary _ n => 0 <= n <= calls size
  end.

Lemma child_says_ok slot size c e :
  0 <= slot -> child_says slot size c e -> message_ok size e.
Proof. destruct e; simpl; [lia| |done|done]. intros ? (-> & -> & H). split; [lia|done]. Qed.

(** [pwp allow N size nsp nk b p]: with [nsp] children created and the first [nk]
    of them killed, and the counter array in phase [b], the parent program [p]
    creates children 1..N in order with the given [size], reads only counters in
    range, clears the run flag and never sets it, and frees the array once; the
    faults it can lead to are among [allow]. *)
Fixpoint pwp (allow : string -> Prop) (N size nsp nk : Z) (b : block) (p : prog)
    (Q : Z -> Z -> Z -> block -> Prop) : Prop :=
  match p with
  | Ret v => Q v nsp nk b
  | Vis Malloc k => forall v, pwp allow N size nsp nk b (k v) Q
  | Vis (Calloc n) k =>
      n = N /\ b = Null /\ nsp = 0 /\
      pwp allow N size nsp nk (Live []) (k 1) Q /\ pwp allow N size nsp nk Null (k 0) Q
  | Vis (Deref q) k =>
      (q = 0 -> allow "null pointer"%string) /\ (q <> 0 -> pwp allow N size nsp nk b (k 0) Q)
  | Vis (Create (Child id sz)) k =>
      b = Live [] /\ id = nsp + 1 /\ nsp < N /\ sz = size /\
      pwp allow N size (nsp + 1) nk b (k (2 + nsp)) Q /\ pwp allow N size nsp nk b (k 0) Q
  | Vis (WriteFlag v) k => v = 0 /\ pwp allow N size nsp nk b (k 0) Q
  | Vis Sleep k => pwp allow N size nsp nk b (k 0) Q
  | Vis (Output e) k => message_ok size e /\ pwp allow N size nsp nk b (k 0) Q
  | Vis (Load i) k =>
      b = Live [] /\ 0 <= i < N /\
      forall v, 0 <= v <= calls size -> pwp allow N size nsp nk b (k v) Q
  | Vis (KillThread h) k =>
      h = 2 + nk /\ nk < nsp /\ pwp allow N size nsp (nk + 1) b (k 0) Q
  | Vis FreeCounter k =>
      b = Live [] /\ (nk = nsp \/ allow "use after free"%string) /\
      pwp allow N size nsp nk Freed (k 0) Q
  | Vis Exit _ => True
  | _ => False
  end.

(** The main thread, before ([mwp]) and after ([quiet]) it creates the parent. *)
Fixpoint quiet (p : prog) : Prop :=
  match p with
  | Ret _ => True
  | Vis Sleep k => quiet (k 0)
  | Vis Exit _ => True
  | _ => False
  end.

Fixpoint mwp (allow : string -> Prop) (p : prog) : Prop :=
  match p with
  | Ret _ => True
  | Vis Malloc k => forall v, mwp allow (k v)
  | Vis (Deref q) k => (q = 0 -> allow "null pointer"%string) /\ (q <> 0 -> mwp allow (k 0))
  | Vis Exit _ => True
  | Vis (Create (Parent N d s)) k =>
      1 <= N <= 1000 /\ 1 <= s <= 10000 /\ quiet (k 1) /\ mwp allow (k 0)
  | _ => False
  end.

Notation finishes := (fun _ _ _ _ => True).

(** The phase of a block, ignoring its contents. *)
Definition phase (b : block) : block := match b with Live _ => Live [] | b => b end.

Section ThreadDrivers.
Context (body : entry -> prog) (allow : string -> Prop).
Hypothesis Hchild : forall slot size, 0 <= slot -> 0 <= size <= 10000 ->
  cwp slot size (cst0 size) (body (Child (slot + 1) size)) ends.
Hypothesis Hparent : forall N d size, 1 <= N <= 1000 -> 1 <= size <= 10000 ->
  pwp allow N size 0 0 Null (body (Parent N d size)) finishes.

(** The counters: one per child to come, those of children not yet created
    being zero. *)
Definition block_ok (size N : Z) (ncs : nat) (b : block) : Prop :=
  match b with
  | Live l =>
      Z.of_nat (length l) = N /\ Forall (fun c => 0 <= c <= calls size) l /\
      forall j, (ncs <= j < length l)%nat -> l !! j = Some 0
  | Null => ncs = O
  | Freed => True
  end.

(** Once the run flag is cleared, [lim] may bound what each counter reaches. *)
Variable lim : option (nat -> Z).
Definition under (j : nat) (x : Z) : Prop :=
  match lim with Some f => x <= f j | None => True end.
Definition lim_ok (size fl : Z) : Prop :=
  match lim with Some f => fl = 0 /\ forall j, size + 1 <= f j | None => True end.

Lemma under_mono j x y : under j x -> y <= x -> under j y.
Proof. unfold under. destruct lim; [lia|done]. Qed.

(** The counter of child [j]. *)
Definition counter_is (b : block) (j : nat) (c : Z) : Prop :=
  match b with Live l => l !! j = Some c | _ => True end.

Record trun (m : machine) (N size nk fl : Z) (T0 T1 : thread) (cs : list thread) : Prop := {
  tr_N : 1 <= N <= 1000;
  tr_size : 1 <= size <= 10000;
  tr_threads : threads m = T0 :: T1 :: cs;
  tr_main : quiet (code T0);
  tr_flag : keep_running m = [fl];
  tr_parent_mem : space T1 = O /\ mapped T1 = true;
  tr_nk : 0 <= nk <= Z.of_nat (length cs);
  tr_child : forall j T, cs !! j = Some T -> space T = O /\
    exists c b, child_ok ends (Z.of_nat j) size fl c b T /\ 0 <= c /\
                counter_is (square_counter m) j c /\ under j (c + b);
  tr_lim : lim_ok size fl;
  tr_killed : forall j T, cs !! j = Some T -> Z.of_nat j < nk -> exists v, code T = Ret v;
  tr_block : block_ok size N (length cs) (square_counter m);
  tr_freed : square_counter m = Freed ->
             nk = Z.of_nat (length cs) \/ allow "use after free"%string;
  tr_printed : Forall (message_ok size) (printed m) }.

Inductive tinv (m : machine) : Prop :=
| tinv_boot T0 :
    threads m = [T0] -> mwp allow (code T0) -> space T0 = O ->
    (exists fl, keep_running m = [fl]) -> square_counter m = Null -> printed m = [] ->
    lim = None -> tinv m
| tinv_run N size nk fl T0 T1 cs :
    trun m N size nk fl T0 T1 cs ->
    pwp allow N size (Z.of_nat (length cs)) nk (phase (square_counter m)) (code T1) finishes -> tinv m.

(** Replacing child [j] and the block, with the other counters unchanged. *)
Lemma trun_set_child m N size nk fl T0 T1 cs j T T' b' out c c' k k' :
  trun m N size nk fl T0 T1 cs -> cs !! j = Some T -> ~ Z.of_nat j < nk -> 0 <= c -> under j (c + k) ->
  child_moves ends (Z.of_nat j) size fl c k T T' c' k' out ->
  counter_is b' j c' -> phase b' = phase (square_counter m) ->
  block_ok size N (length cs) b' ->
  (forall i x, i <> j -> counter_is (square_counter m) i x -> counter_is b' i x) ->
  trun (child_result (2 + j) b' T' out m) N size nk fl T0 T1 (<[j := T']> cs).
Proof.
  intros R Hj Hnk Hc0 Hu Hm Hc' Hph Hbl Hoth. destruct R as [? ? Hts ? ? ? ? Hch Hlim Hki ? Hfr Hpr].
  destruct Hm as [Hsp Hok Hcnt Hbud Hsay _].
  split; simpl; rewrite ?length_insert, ?Hph; try done.
  - by rewrite Hts.
  - intros i Ti Hi. destruct (decide (i = j)) as [->|Hne].
    + rewrite list_lookup_insert_eq in Hi by (by eapply lookup_lt_Some). injection Hi as <-.
      rewrite Hsp. split; [by apply (Hch j T)|]. exists c', k'. split; [done|]. split; [lia|].
      split; [done|]. unfold under, lim_ok in *. destruct lim as [f|]; [|done]. destruct Hlim. lia.
    + rewrite list_lookup_insert_ne in Hi by done.
      destruct (Hch i Ti Hi) as (? & ci & ki & ? & ? & ? & ?). split; [done|].
      exists ci, ki. split; [done|]. split; [done|]. split; [by apply Hoth|done].
  - intros i Ti Hi Hlt. rewrite list_lookup_insert_ne in Hi by (intros ->; lia). by eapply Hki.
  - intros ->. apply Hfr. by destruct (square_counter m).
  - apply Forall_app. split; [done|]. eapply Forall_impl; [exact Hsay|].
    intros e. apply child_says_ok. lia.
Qed.

(** One command of child [j]: it faults only as allowed, or moves as the child
    logic says. *)
Lemma trun_child m N size nk fl T0 T1 cs j T cm k r :
  trun m N size nk fl T0 T1 cs -> cs !! j = Some T -> code T = Vis cm k ->
  (exists why, exec_cmd body cm k (2 + j) T r m = Bad why /\ allow why) \/
  exists T' out b',
    exec_cmd body cm k (2 + j) T r m = Next (child_result (2 + j) b' T' out m) /\
    phase b' = phase (square_counter m) /\
    trun (child_result (2 + j) b' T' out m) N size nk fl T0 T1 (<[j := T']> cs).
Proof.
  intros R Hj Hcode.
  destruct (tr_child _ _ _ _ _ _ _ _ R j T Hj) as (Hsp & c & b & Hok & Hc0 & Hc & Hu).
  assert (threads m !! (2 + j)%nat = Some T) as HT by (rewrite (tr_threads _ _ _ _ _ _ _ _ R); done).
  assert (keep_running m !! space T = Some fl) as Hfl
    by (rewrite (tr_flag _ _ _ _ _ _ _ _ R), Hsp; done).
  assert (0 <= size <= 10000) as Hsize by (pose proof (tr_size _ _ _ _ _ _ _ _ R); lia).
  assert (~ Z.of_nat j < nk) as Hnk.
  { intros H. destruct (tr_killed _ _ _ _ _ _ _ _ R j T Hj H) as [v Hv]. congruence. }
  pose proof (lookup_lt_Some _ _ _ Hj) as Hjl. pose proof (tr_block _ _ _ _ _ _ _ _ R) as Hbl.
  destruct (square_counter m) as [|l|] eqn:Hb; simpl in Hbl.
  - lia.
  - destruct Hbl as (Hlen & Hall & Hz).
    assert (arr_get l (Z.of_nat j) = Some c) as Hg.
    { apply arr_get_Some. split; [lia|]. by rewrite Nat2Z.id. }
    pose proof (Forall_lookup_1 _ _ _ _ Hall Hc) as Hcb. simpl in Hcb.
    destruct (child_exec_live body _ _ _ _ _ _ T cm k _ r m Hok Hcode HT Hfl Hsize l Hb Hg Hc0)
      as (T' & c' & b' & out & He & Hmv).
    rewrite Nat2Z.id in He. right.
    exists T', out, (Live (<[j := c']> l)). pose proof (cm_count _ _ _ _ _ _ _ _ _ _ _ Hmv).
    split; [done|]. split; [done|].
    eapply trun_set_child; try done; rewrite ?Hb; try done.
    + apply list_lookup_insert_eq. by eapply lookup_lt_Some.
    + simpl. rewrite length_insert. split; [done|]. split.
      * apply Forall_insert; [done|lia].
      * intros i Hi. rewrite list_lookup_insert_ne by lia. by apply Hz.
    + intros i x Hi. simpl. by rewrite list_lookup_insert_ne.
  - destruct (tr_freed _ _ _ _ _ _ _ _ R Hb) as [Hk|Ha]; [lia|].
    destruct (child_exec_freed body _ _ _ _ c _ T cm k _ r m Hok Hcode HT Hfl Hsize Hb)
      as [He|(T' & b' & out & He & Hmv)]; [left; by eexists|right].
    exists T', out, Freed. split; [done|]. split; [done|].
    eapply trun_set_child; try done; rewrite ?Hb; done.
Qed.

(** The parent, or main, goes on with [p]; everything else is as before. *)
Lemma trun_parent_code m N size nk fl T0 T1 cs p :
  trun m N size nk fl T0 T1 cs ->
  trun (with_threads (alter (set_code p) 1%nat) m) N size nk fl T0 (set_code p T1) cs.
Proof. intros []. split; simpl; try done. by rewrite tr_threads0. Qed.

Lemma trun_main_code m N size nk fl T0 T1 cs p :
  trun m N size nk fl T0 T1 cs -> quiet p ->
  trun (with_threads (alter (set_code p) 0%nat) m) N size nk fl (set_code p T0) T1 cs.
Proof. intros [] Hp. split; simpl; try done. by rewrite tr_threads0. Qed.

(** Effects of the parent on the rest of the machine. *)
Lemma trun_clear_flag m N size nk fl T0 T1 cs :
  trun m N size nk fl T0 T1 cs -> trun (with_flags (<[0%nat := 0]>) m) N size nk 0 T0 T1 cs.
Proof.
  intros []. split; simpl; try done.
  - by rewrite tr_flag0.
  - intros j T Hj. destruct (tr_child0 j T Hj) as (? & c & b & [(z & ? & ?) ? ?] & ?).
    split; [done|]. exists c, b. split; [|done]. split; [|done|done]. by exists z.
  - unfold lim_ok in *. destruct lim; [|done]. naive_solver.
Qed.

Lemma trun_print m N size nk fl T0 T1 cs e :
  trun m N size nk fl T0 T1 cs -> message_ok size e ->
  trun (with_printed (fun l => l ++ [e]) m) N size nk fl T0 T1 cs.
Proof. intros [] He. split; simpl; try done. apply Forall_app. by split; [|constructor]. Qed.

Lemma trun_kill m N size nk fl T0 T1 cs :
  trun m N size nk fl T0 T1 cs -> nk < Z.of_nat (length cs) ->
  trun (with_threads (alter (set_code (Ret 0)) (Z.to_nat (2 + nk))) m) N size (nk + 1) fl T0 T1
    (alter (set_code (Ret 0)) (Z.to_nat nk) cs).
Proof.
  intros [] Hlt. split; simpl; rewrite ?length_alter; try done.
  - rewrite tr_threads0. replace (Z.to_nat (2 + nk)) with (S (S (Z.to_nat nk))) by lia. done.
  - lia.
  - intros j T Hj. destruct (decide (j = Z.to_nat nk)) as [->|Hne].
    + rewrite list_lookup_alter_eq in Hj. apply fmap_Some in Hj as (T' & HT' & ->).
      destruct (tr_child0 _ _ HT') as (? & c & b & [_ ? ?] & ?). split; [done|].
      exists c, b. split; [|done]. split; [|done|done]. by exists false.
    + rewrite list_lookup_alter_ne in Hj by done. by apply tr_child0.
  - intros j T Hj Hjn. destruct (decide (j = Z.to_nat nk)) as [->|Hne].
    + rewrite list_lookup_alter_eq in Hj. apply fmap_Some in Hj as (T' & HT' & ->). by exists 0.
    + rewrite list_lookup_alter_ne in Hj by done. apply (tr_killed0 j T Hj). lia.
  - intros Hf. destruct (tr_freed0 Hf); [lia|by right].
Qed.

Lemma trun_free m N size nk fl T0 T1 cs :
  trun m N size nk fl T0 T1 cs ->
  nk = Z.of_nat (length cs) \/ allow "use after free"%string ->
  trun (with_block Freed m) N size nk fl T0 T1 cs.
Proof.
  intros [] Ha. split; simpl; try done.
  intros j T Hj. destruct (tr_child0 j T Hj) as (? & c & b & ?). split; [done|].
  exists c, b. naive_solver.
Qed.

Lemma trun_calloc m N size nk fl T0 T1 cs :
  trun m N size nk fl T0 T1 cs -> cs = [] ->
  trun (with_block (Live (replicate (Z.to_nat N) 0)) m) N size nk fl T0 T1 cs /\
  trun (with_block Null m) N size nk fl T0 T1 cs.
Proof.
  intros [] ->. pose proof (calls_nonneg size). split; split; simpl; try done.
  rewrite length_replicate. split; [lia|]. split.
  - apply Forall_replicate. lia.
  - intros j Hj. apply lookup_replicate. split; [done|lia].
Qed.

Lemma trun_create m N size nk fl T0 T1 cs :
  trun m N size nk fl T0 T1 cs -> phase (square_counter m) = Live [] ->
  Z.of_nat (length cs) < N ->
  trun (with_threads (fun ts => ts ++ [start body (Child (Z.of_nat (length cs) + 1) size) 0]) m)
    N size nk fl T0 T1 (cs ++ [start body (Child (Z.of_nat (length cs) + 1) size) 0]).
Proof using Hchild.
  intros [] Hl Hlt. destruct (square_counter m) as [|l|] eqn:Hb; try done.
  destruct tr_block0 as (Hlen & Hall & Hz).
  split; simpl; rewrite ?length_app, ?Hb; simpl; try done.
  - by rewrite tr_threads0.
  - lia.
  - intros j T Hj. apply lookup_app_Some in Hj as [Hj|[Hge Hj]].
    { destruct (tr_child0 j T Hj) as (? & c & b & ?). split; [done|]. by exists c, b. }
    apply list_lookup_singleton_Some in Hj as [Hj <-]. assert (j = length cs) as -> by lia.
    split; [done|]. exists 0, (size + 1). split; [split; simpl; [|lia|done]|].
    + exists false. split; [done|]. apply Hchild; lia.
    + split; [done|]. split; [apply Hz; lia|].
      unfold under, lim_ok in *. destruct lim; [|done]. apply tr_lim0.
  - intros j T Hj Hjn. apply lookup_app_Some in Hj as [Hj|[Hge Hj]]; [by eapply tr_killed0|lia].
  - split; [done|]. split; [done|]. intros j Hj. apply Hz. lia.
Qed.

(** What a step may do: keep the invariant, or fault as allowed. *)
Definition step_ok (o : outcome) : Prop :=
  match o with Next m => tinv m | Bad why => allow why | NotEnabled => True end.

Lemma trun_parent m N size nk fl T0 T1 cs cm k r :
  trun m N size nk fl T0 T1 cs -> code T1 = Vis cm k ->
  pwp allow N size (Z.of_nat (length cs)) nk (phase (square_counter m)) (code T1) finishes ->
  step_ok (exec_cmd body cm k 1 T1 r m).
Proof using Hchild.
  intros R Hcode Hp. rewrite Hcode in Hp. destruct (tr_parent_mem _ _ _ _ _ _ _ _ R) as [Hsp Hmap].
  pose proof (tr_size _ _ _ _ _ _ _ _ R) as Hsize. pose proof (tr_N _ _ _ _ _ _ _ _ R) as HN.
  pose proof (tr_flag _ _ _ _ _ _ _ _ R) as Hfl. pose proof (tr_block _ _ _ _ _ _ _ _ R) as Hbl.
  destruct cm; simpl in Hp; try done; unfold exec_cmd; rewrite ?Hsp; cbn [step_ok].
  - destruct Hp as [-> Hp]. eapply tinv_run; [by eapply trun_parent_code, trun_clear_flag|done].
  - destruct Hp as (Hlive & Hi & Hp). destruct (square_counter m) as [|l|] eqn:Hb; try done.
    rewrite Hmap. destruct Hbl as (Hlen & Hall & _).
    destruct (arr_get_lt l i) as [v Hv]; [lia|]. rewrite Hv.
    eapply tinv_run; [by eapply trun_parent_code|]. simpl. rewrite Hb. apply Hp.
    apply arr_get_Some in Hv as [_ Hv]. apply (Forall_lookup_1 _ _ _ _ Hall Hv).
  - eapply tinv_run; [by eapply trun_parent_code|apply Hp].
  - destruct Hp as (-> & Hnull & Hcs & Hp1 & Hp0).
    assert (cs = []) as -> by (destruct cs; [done|simpl in Hcs; lia]).
    destruct (trun_calloc _ _ _ _ _ _ _ _ R eq_refl).
    case_decide; (eapply tinv_run; [by eapply trun_parent_code|done]).
  - destruct Hp as [Ha Hp]. case_decide; [by apply Ha|].
    eapply tinv_run; [by eapply trun_parent_code|by apply Hp].
  - destruct Hp as (Hlive & Ha & Hp). destruct (square_counter m) as [|l|] eqn:Hb; try done.
    eapply tinv_run; [by eapply trun_parent_code, trun_free|done].
  - destruct e as [|id sz]; [done|]. destruct Hp as (Hlive & -> & Hlt & -> & Hp1 & Hp0).
    case_decide; [eapply tinv_run; [by eapply trun_parent_code|done]|].
    eapply tinv_run; [by eapply trun_parent_code, trun_create|]. simpl.
    rewrite length_app. simpl. rewrite (tr_threads _ _ _ _ _ _ _ _ R). simpl.
    replace (Z.of_nat (length cs + 1)) with (Z.of_nat (length cs) + 1) by lia.
    replace (Z.of_nat (S (S (length cs)))) with (2 + Z.of_nat (length cs)) by lia. done.
  - destruct Hp as (-> & Hlt & Hp).
    eapply tinv_run; [by eapply trun_parent_code, trun_kill|]. by rewrite length_alter.
  - eapply tinv_run; [by eapply trun_parent_code|apply Hp].
  - destruct Hp as [Hm Hp]. eapply tinv_run; [by eapply trun_parent_code, trun_print|done].
  - destruct R. eapply (tinv_run _ _ _ _ _ T0 T1 cs); [by split|]. simpl. by rewrite Hcode.
Qed.

Lemma tinv_boot_step m T0 cm k r fl :
  threads m = [T0] -> mwp allow (Vis cm k) -> space T0 = O -> code T0 = Vis cm k ->
  keep_running m = [fl] -> square_counter m = Null -> printed m = [] -> lim = None ->
  step_ok (exec_cmd body cm k 0 T0 r m).
Proof using Hparent.
  intros Hts Hmain Hsp Hc Hfl Hnull Hpr Hlim.
  assert (forall p, mwp allow p -> tinv (with_threads (alter (set_code p) 0%nat) m)) as Hgo.
  { intros p Hp. eapply (tinv_boot _ (set_code p T0)); try done; [simpl; by rewrite Hts|].
    by exists fl. }
  destruct cm; simpl in Hmain; try done; simpl.
  - apply Hgo, Hmain.
  - destruct Hmain as [Ha Hp]. case_decide; [by apply Ha|]. by apply Hgo, Hp.
  - destruct e as [N d size|]; [|done]. destruct Hmain as (HN & Hsize & Hq1 & Hq0).
    rewrite Hts, Hsp. case_decide; [by apply Hgo|].
    eapply (tinv_run _ N size 0 fl _ (start body (Parent N d size) 0) []).
    + split; simpl; rewrite ?Hts, ?Hfl, ?Hnull, ?Hpr, ?Hlim; simpl; try done.
      by unfold lim_ok; rewrite Hlim.
    + simpl. rewrite Hnull. by apply Hparent.
  - by eapply (tinv_boot _ T0); simpl; rewrite ?Hc; try done; [exists fl].
Qed.

Lemma tinv_step m t r : tinv m -> step_ok (exec body t r m).
Proof using Hchild Hparent.
  intros Hinv. unfold exec. destruct (ended m) eqn:He; [done|].
  destruct Hinv as [T0 Hts Hmain Hsp [fl Hfl] Hnull Hpr Hlim|N size nk fl T0 T1 cs R Hp].
  { rewrite Hts. destruct t as [|t]; [|done]. simpl. destruct (code T0) as [|cm k] eqn:Hc; [done|].
    by eapply tinv_boot_step. }
  rewrite (tr_threads _ _ _ _ _ _ _ _ R). destruct t as [|[|j]]; simpl.
  - destruct (code T0) as [|cm k] eqn:Hc; [done|].
    pose proof (tr_main _ _ _ _ _ _ _ _ R) as Hq. rewrite Hc in Hq.
    destruct cm; try done; simpl.
    + eapply tinv_run; [by eapply trun_main_code|done].
    + destruct R. eapply (tinv_run _ _ _ _ _ T0 T1 cs); [by split|done].
  - destruct (code T1) as [|cm k] eqn:Hc; [done|]. eapply trun_parent; [done|done|by rewrite Hc].
  - destruct (cs !! j) as [T|] eqn:Hj; [|done]. destruct (code T) as [|cm k] eqn:Hc; [done|].
    change (S (S j)) with (2 + j)%nat.
    destruct (trun_child _ _ _ _ _ _ _ _ j T cm k r R Hj Hc)
      as [(why & -> & ?)|(T' & out & b' & -> & Hph & R')]; [done|].
    eapply tinv_run; [exact R'|]. simpl. by rewrite length_insert, Hph.
Qed.

Lemma tinv_steps m m' : tinv m -> rtc (step body) m m' -> tinv m'.
Proof using Hchild Hparent.
  intros H. induction 1 as [|m m1 m' [t r He] _ IH]; [done|].
  apply IH. pose proof (tinv_step m t r H) as Hs. by rewrite He in Hs.
Qed.
End ThreadDrivers.

(** ** The parents of drivers 1 to 3 satisfy the parent logic *)

Section Parents.
Variables (allow : string -> Prop) (N size : Z).
Hypothesis HN : 0 <= N.

Lemma pwp_bind p f nsp nk b Q :
  pwp allow N size nsp nk b p (fun v nsp' nk' b' => pwp allow N size nsp' nk' b' (f v) Q) ->
  pwp allow N size nsp nk b (pbind p f) Q.
Proof.
  revert nsp nk b. induction p as [v|cm k IH]; intros nsp nk b; simpl; [done|].
  destruct cm; try match goal with e : entry |- _ => destruct e end; try done; naive_solver.
Qed.

Lemma pwp_mono p nsp nk b (Q Q' : Z -> Z -> Z -> block -> Prop) :
  (forall v nsp' nk' b', Q v nsp' nk' b' -> Q' v nsp' nk' b') ->
  pwp allow N size nsp nk b p Q -> pwp allow N size nsp nk b p Q'.
Proof.
  intros HQ. revert nsp nk b. induction p as [v|cm k IH]; intros nsp nk b; simpl; [apply HQ|].
  destruct cm; try match goal with e : entry |- _ => destruct e end; try done; naive_solver.
Qed.

(** A loop of [N] rounds that goes on after each, where [K i] children have been
    killed when round [i] starts. *)
Lemma pwp_for (K : Z -> Z) body nsp b :
  (forall i, 0 <= i < N ->
     pwp allow N size nsp (K i) b (body i)
       (fun v nsp' nk' b' => v = 0 /\ nsp' = nsp /\ nk' = K (i + 1) /\ b' = b)) ->
  pwp allow N size nsp (K 0) b (for_prog (zrange 0 N) body)
    (fun _ nsp' nk' b' => nsp' = nsp /\ nk' = K N /\ b' = b).
Proof using HN.
  intros Hbody.
  enough (forall n i, 0 <= i -> i + Z.of_nat n = N ->
    pwp allow N size nsp (K i) b (for_prog (zrange i N) body)
      (fun _ nsp' nk' b' => nsp' = nsp /\ nk' = K N /\ b' = b)) as H.
  { apply (H (Z.to_nat N)); lia. }
  induction n as [|n IH]; intros i Hi Hn.
  - unfold zrange. rewrite seqZ_nil by lia. simpl. replace i with N by lia. done.
  - rewrite zrange_cons by lia. cbn [for_prog]. apply pwp_bind.
    eapply pwp_mono; [|apply Hbody; lia]. intros ? ? ? ? (-> & -> & -> & ->). cbn.
    apply IH; lia.
Qed.

(** Every parent prints the summary and frees the counters at the end. *)
Lemma pwp_summary nsp nk :
  0 <= size -> nk = nsp \/ allow "use after free"%string ->
  pwp allow N size nsp nk (Live [])
    (for_prog (zrange 0 N) (fun i =>
       let? n := call (Load i) in call (Output (EvSummary (i + 1) n))) ;;;
     call FreeCounter ;;; Ret 0) finishes.
Proof using HN.
  intros Hs Ha. apply pwp_bind. eapply pwp_mono; [|apply (pwp_for (fun _ => nk))].
  - intros ? ? ? ? (-> & -> & ->). by simpl.
  - intros i Hi. by simpl.
Qed.
End Parents.

Ltac pwp_rounds K0 :=
  apply pwp_bind; eapply pwp_mono; [|apply (pwp_for _ _ _) with (K := K0); [lia|]].

Definition uaf_or_null (why : string) : Prop :=
  why = "use after free"%string \/ why = "null pointer"%string.
Definition uaf (why : string) : Prop := why = "use after free"%string.
Definition null_only (why : string) : Prop := why = "null pointer"%string.

Section ParentPrograms.
Variables (N d size : Z).
Hypotheses (HN : 1 <= N <= 1000) (Hsize : 1 <= size <= 10000).

(** The creation loops, which go on with [after] once all are created. *)
Lemma A1_create allow ids args after :
  ids <> 0 -> (args = 0 -> allow "null pointer"%string) ->
  (forall hs, pwp allow N size N 0 (Live []) (after hs) finishes) ->
  pwp allow N size 0 0 (Live []) (A1.create_children (zrange 0 N) ids args size [] after) finishes.
Proof using HN.
  intros Hids Hargs Hafter.
  enough (forall n i hs, 0 <= i -> i + Z.of_nat n = N ->
    pwp allow N size i 0 (Live [])
      (A1.create_children (zrange i N) ids args size hs after) finishes) as H.
  { apply (H (Z.to_nat N)); lia. }
  induction n as [|n IH]; intros i hs Hi Hn.
  - unfold zrange. rewrite seqZ_nil by lia. simpl. replace i with N by lia. done.
  - rewrite zrange_cons by lia. simpl. do 2 (split; [done|]; intros _).
    rewrite decide_False by lia. split_and!; try done; try lia. apply IH; lia.
Qed.

Lemma A1_parent : pwp uaf_or_null N size 0 0 Null (A1.ParentThreadFunction N d size) finishes.
Proof using HN Hsize.
  unfold A1.ParentThreadFunction. simpl. intros h ids. split_and!; try done; intros args.
  - case_decide; [done|]. apply A1_create; [lia|by right|]. intros hs. simpl. split; [done|].
    pwp_rounds (fun _ : Z => 0).
    + intros ? ? ? ? (-> & -> & ->). apply pwp_summary; [lia|lia|by right; left].
    + done.
  - by rewrite decide_True by auto.
Qed.

(** The handles of the children, in order. *)
Definition handles (n : Z) (hs : list Z) : Prop :=
  Z.of_nat (length hs) = n /\ forall i, 0 <= i < n -> arr_get hs i = Some (2 + i).

Lemma handles_snoc n hs : handles n hs -> handles (n + 1) (hs ++ [2 + n]).
Proof.
  intros [Hlen Hh]. split; [rewrite length_app; simpl; lia|]. intros i Hi.
  apply arr_get_Some. split; [lia|]. destruct (decide (i = n)) as [->|Hne].
  - rewrite lookup_app_r by lia. replace (Z.to_nat n - length hs)%nat with O by lia. done.
  - rewrite lookup_app_l by lia. specialize (Hh i ltac:(lia)). apply arr_get_Some in Hh as [_ Hh]. done.
Qed.

Lemma A2_create allow after :
  (forall hs, handles N hs -> pwp allow N size N 0 (Live []) (after hs) finishes) ->
  pwp allow N size 0 0 (Live []) (A2.create_children (zrange 0 N) size [] after) finishes.
Proof using HN.
  intros Hafter.
  enough (forall n i hs, 0 <= i -> i + Z.of_nat n = N -> handles i hs ->
    pwp allow N size i 0 (Live []) (A2.create_children (zrange i N) size hs after) finishes) as H.
  { apply (H (Z.to_nat N)); [lia|lia|]. split; [done|lia]. }
  induction n as [|n IH]; intros i hs Hi Hn Hhs.
  - unfold zrange. rewrite seqZ_nil by lia. simpl. replace i with N in * by lia. by apply Hafter.
  - rewrite zrange_cons by lia. simpl. rewrite decide_False by lia.
    split_and!; try done; try lia. apply IH; [lia|lia|by apply handles_snoc].
Qed.

Lemma A2_parent : pwp null_only N size 0 0 Null (A2.ParentThreadFunction N d size) finishes.
Proof using HN Hsize.
  unfold A2.ParentThreadFunction. simpl. intros h ids. split_and!; try done; intros args.
  - case_decide; [done|]. apply A2_create. intros hs [_ Hhs]. simpl. split; [done|].
    pwp_rounds (fun i : Z => i).
    + intros ? ? ? ? (-> & -> & ->). apply pwp_summary; [lia|lia|by left].
    + intros i Hi. rewrite Hhs by done. simpl. split_and!; try done; lia.
  - by rewrite decide_True by auto.
Qed.

Lemma A3_create allow after :
  (forall hs, pwp allow N size N 0 (Live []) (after hs) finishes) ->
  pwp allow N size 0 0 (Live []) (A3.create_children (zrange 0 N) size [] after) finishes.
Proof using HN.
  intros Hafter.
  enough (forall n i hs, 0 <= i -> i + Z.of_nat n = N ->
    pwp allow N size i 0 (Live []) (A3.create_children (zrange i N) size hs after) finishes) as H.
  { apply (H (Z.to_nat N)); lia. }
  induction n as [|n IH]; intros i hs Hi Hn.
  - unfold zrange. rewrite seqZ_nil by lia. simpl. replace i with N by lia. done.
  - rewrite zrange_cons by lia. simpl. rewrite decide_False by lia.
    split_and!; try done; try lia. apply IH; lia.
Qed.

Lemma A3_parent : pwp uaf N size 0 0 Null (A3.ParentThreadFunction N d size) finishes.
Proof using HN Hsize.
  unfold A3.ParentThreadFunction. simpl. intros h ids. split_and!; try done; intros args.
  - case_decide; [done|]. apply A3_create. intros hs. simpl. split; [done|].
    pwp_rounds (fun _ : Z => 0).
    + intros ? ? ? ? (-> & -> & ->). apply pwp_summary; [lia|lia|by right].
    + done.
  - by rewrite decide_True by auto.
Qed.
End ParentPrograms.

(** ** Drivers 1 to 3 from the start of main *)

(** The three threaded drivers with the faults their runs may end in. *)
Inductive threaded : (entry -> prog) -> (Z -> list (list Z) -> prog) -> (string -> Prop) -> Prop :=
| threaded_A1 : threaded A1.body A1.main uaf_or_null
| threaded_A2 : threaded A2.body A2.mainp null_only
| threaded_A3 : threaded A3.body A3.main uaf.

Lemma main_ok body main allow argc argv :
  threaded body main allow -> mwp allow (main argc argv).
Proof.
  intros []; unfold A1.main, A2.mainp, A3.main; simpl; try intros input_args;
    repeat (case_decide; [done|]); simpl; try (split; [done|]; intros _);
    split_and!; try lia; try done.
Qed.

Lemma threaded_child body main allow slot size :
  threaded body main allow -> 0 <= slot -> 0 <= size <= 10000 ->
  cwp slot size (cst0 size) (body (Child (slot + 1) size)) ends.
Proof.
  intros [] ? ?; simpl; [by apply A1_child|by apply A2_child|by apply A3_child].
Qed.

Lemma threaded_parent body main allow N d size :
  threaded body main allow -> 1 <= N <= 1000 -> 1 <= size <= 10000 ->
  pwp allow N size 0 0 Null (body (Parent N d size)) finishes.
Proof.
  intros [] ? ?; simpl; [by apply A1_parent|by apply A2_parent|by apply A3_parent].
Qed.

Lemma threaded_inv body main allow argc argv m :
  threaded body main allow -> rtc (step body) (boot (main argc argv)) m ->
  tinv allow None m.
Proof.
  intros Ht Hr. eapply tinv_steps; [| |  |exact Hr].
  - intros. by eapply threaded_child.
  - intros. by eapply threaded_parent.
  - eapply tinv_boot; try done; [by eapply main_ok|by exists 1].
Qed.
