(* ===== verification/PartAProps.v ===== *)
(** * Properties of the Part A drivers

    The claims about [Square], the threaded drivers (partA1.c to partA3.c) under
    every interleaving, and the faults those drivers can reach. *)

From Stdlib Require Import ZArith Lia.
From stdpp Require Import base numbers list relations strings.
From S2P Require Import Prelude PartA PartASpec.
Open Scope Z_scope.

(** ** One thread run on its own *)

(** Whatever the child logic proves of a program happens when its thread is
    scheduled often enough with the others standing still. *)
Lemma cwp_runs body Q slot size fl p t m l T c b :
  0 <= size <= 10000 -> ended m = false ->
  threads m !! t = Some T -> code T = p -> keep_running m !! space T = Some fl ->
  square_counter m = Live l -> arr_get l slot = Some c -> 0 <= c ->
  child_ok Q slot size fl c b T ->
  exists n v σ m' T',
    run body (replicate n (t, 0)) m = Next m' /\ Q v σ /\
    threads m' = <[t := T']> (threads m) /\ code T' = Ret v /\ current_thread T' = tls σ /\
    square_counter m' = Live (<[Z.to_nat slot := cnt σ]> l) /\
    keep_running m' = keep_running m.
Proof.
  intros Hsize. revert m T l c b. induction p as [v|cm k IH]; intros m T l c b He HT Hp Hfl Hb Hl Hc Hok.
  - destruct Hok as [(z & Hz & Hwp) _ _]. rewrite Hp in Hwp. simpl in Hwp.
    exists O, v, (mkCst z (current_thread T) c b), m, T.
    apply arr_get_Some in Hl as [_ Hl]. simpl. rewrite !list_insert_id by done. done.
  - destruct (child_exec_live body _ _ _ _ _ _ T cm k t 0 m Hok Hp HT Hfl Hsize l Hb Hl Hc)
      as (T' & c' & b' & out & Hex & [Hsp Hok' Hcnt _ _ Hnext]).
    destruct (Hnext cm k Hp) as [v Hv]. pose proof (lookup_lt_Some _ _ _ HT) as Htl.
    pose proof (arr_get_range _ _ _ Hl) as Hr.
    destruct (IH v (child_result t (Live (<[Z.to_nat slot := c']> l)) T' out m) T'
                (<[Z.to_nat slot := c']> l) c' b')
      as (n & w & σ & m' & T'' & Hrun & HQ & Hts & Hcode & Hcur & Hblk & Hkr); try done; try lia.
    + simpl. by apply list_lookup_insert_eq.
    + simpl. by rewrite Hsp.
    + apply arr_get_Some. split; [lia|]. apply list_lookup_insert_eq. lia.
    + exists (S n), w, σ, m', T''. split.
      { simpl. unfold exec at 1. rewrite He, HT, Hp, Hex. done. }
      split; [done|]. simpl in *. rewrite Hts, Hblk, !list_insert_insert_eq. done.
Qed.

(** Square(N) called by the thread that owns counter [slot], for any N up to
    the largest size the drivers accept, returns N * N, adds exactly N + 1 to
    that counter and changes nothing else; no int operation overflows. *)
Lemma square_computes body N c l slot :
  0 <= N <= 10000 -> arr_get l slot = Some c -> 0 <= c <= 50015000 - (N + 1) ->
  exists n T' m',
    run body (replicate n (0%nat, 0))
      (mkMachine [1] (Live l) [mkThread (Square N) slot 0 false true] [] false) = Next m' /\
    threads m' = [T'] /\ code T' = Ret (N * N) /\ keep_running m' = [1] /\
    square_counter m' = Live (<[Z.to_nat slot := c + (N + 1)]> l).
Proof.
  intros HN Hl Hc. pose proof (arr_get_range _ _ _ Hl).
  destruct (cwp_runs body (fun v σ => v = N * N /\ σ = mkCst false slot (c + N + 1) (10001 - (N + 1)))
    slot 10000 1 (Square N) 0
    (mkMachine [1] (Live l) [mkThread (Square N) slot 0 false true] [] false) l
    (mkThread (Square N) slot 0 false true) c 10001)
    as (n & v & σ & m' & T' & Hrun & [-> ->] & Hts & Hcode & _ & Hblk & Hkr); try done; try lia.
  - split; [|lia|done]. exists false. split; [done|]. apply cwp_Square; [lia|lia| |lia].
    change (calls 10000) with 50015000. lia.
  - exists n, T', m'. simpl in *. rewrite Hblk. do 4 (split; [done|]). do 2 f_equal. lia.
Qed.

(** ** The threaded drivers under every interleaving *)


(** The command line "partA 1 1 2": one child, one second, Square(1..2). *)
Definition argv112 : list (list Z) := [[]; [49]; [49]; [50]].

(** A schedule that lets thread [t] take [n] steps, every request granted. *)
Definition turns (t n : nat) : list (nat * Z) := replicate n (t, 1).

(** main and the parent run until the child exists, then the child runs alone. *)
Definition A3_counting : list (nat * Z) := turns 0 1 ++ turns 1 5 ++ turns 2 9.

(** The counters, messages and run flags a schedule ends with. *)
Definition view (o : outcome) : option (block * list message * list Z) :=
  match o with
  | Next m => Some (square_counter m, printed m, keep_running m)
  | _ => None
  end.

Lemma view_reach body sched m b out fl :
  view (run body sched m) = Some (b, out, fl) ->
  exists m', rtc (step body) m m' /\ square_counter m' = b /\ printed m' = out /\
             keep_running m' = fl.
Proof.
  destruct (run body sched m) as [m'| |] eqn:E; simpl; try done. intros [= <- <- <-].
  exists m'. by split; [eapply run_reach|].
Qed.

Lemma A3_counting_view :
  view (run A3.body A3_counting (boot (A3.main 4 argv112))) = Some (Live [1], [], [1]).
Proof. vm_compute. reflexivity. Qed.


(** Whatever the interleaving of partA1, partA2 or partA3, a child that
    reports its result reports the calls of a whole number of Square(i): the
    number is the sum of i + 1 for i from 1 to some bound not above the size (no
    increment is lost and none is counted twice), and every number of the
    parent's summary is between 0 and the whole sum. *)
Lemma reports_exact body main allow argc argv m :
  threaded body main allow -> rtc (step body) (boot (main argc argv)) m ->
  exists size, size <= 10000 /\
    (forall id n, EvDone id n ∈ printed m -> exists i, 0 <= i <= size /\ n = calls i) /\
    (forall id n, EvSummary id n ∈ printed m -> 0 <= n <= calls size).
Proof.
  intros Ht Hr. destruct (threaded_inv _ _ _ _ _ _ Ht Hr) as [T0 ? ? ? ? ? Hp|N size nk fl T0 T1 cs R _].
  - exists 0. rewrite Hp. split; [lia|]. split; intros ? ? []%not_elem_of_nil.
  - pose proof (tr_printed _ _ _ _ _ _ _ _ _ _ R) as Hp. rewrite Forall_forall in Hp.
    exists size. split; [pose proof (tr_size _ _ _ _ _ _ _ _ _ _ R); lia|].
    split; intros id n Hin; apply (Hp _ Hin).
Qed.

(** The whole run of the child, then of the parent. *)
Definition A3_finishing : list (nat * Z) := turns 0 1 ++ turns 1 5 ++ turns 2 30 ++ turns 1 10.

Lemma A3_finishing_view :
  view (run A3.body A3_finishing (boot (A3.main 4 argv112))) =
    Some (Freed, [EvDone 1 5; EvClosed 1; EvSummary 1 5], [0]).
Proof. vm_compute. reflexivity. Qed.

(** From a state with the flag cleared, each child's counter is bounded by its
    present value and one more round. *)
Definition one_more (size : Z) (l : list Z) (j : nat) : Z := default 0 (l !! j) + (size + 1).

Lemma trun_limit allow m N size nk fl T0 T1 cs l :
  trun allow None m N size nk fl T0 T1 cs -> fl = 0 -> square_counter m = Live l ->
  trun allow (Some (one_more size l)) m N size nk fl T0 T1 cs.
Proof.
  intros R Hfl Hl. pose proof (tr_block _ _ _ _ _ _ _ _ _ _ R) as Hb.
  pose proof (tr_child _ _ _ _ _ _ _ _ _ _ R) as Hch. rewrite Hl in Hb. destruct Hb as (Hlen & Hall & _).
  split; try apply R.
  - intros j T Hj. destruct (Hch j T Hj) as (? & c & b & Hok & ? & Hc & _). split; [done|].
    exists c, b. split_and!; try done. rewrite Hl in Hc. simpl in *. unfold one_more. rewrite Hc.
    simpl. pose proof (ck_left _ _ _ _ _ _ _ Hok). lia.
  - split; [done|]. intros j. unfold one_more. destruct (l !! j) as [c|] eqn:Hj; simpl; [|lia].
    pose proof (Forall_lookup_1 _ _ _ _ Hall Hj). simpl in *. lia.
Qed.


(** The flag is cleared while the child is inside Square(1). *)
Definition A3_clearing : list (nat * Z) := A3_counting ++ turns 1 2.

Lemma A3_clearing_view :
  view (run A3.body A3_clearing (boot (A3.main 4 argv112))) = Some (Live [1], [], [0]).
Proof. vm_compute. reflexivity. Qed.


(** partA1 and partA3 free square_counter without waiting for the children:
    there is a run in which the parent has printed its summary and freed the
    array while the child is still inside Square, and the child's next access is
    a use after free. *)
Lemma counter_freed_under_child :
  run A1.body (turns 0 1 ++ turns 1 7 ++ turns 2 9 ++ turns 1 8 ++ turns 2 2)
    (boot (A1.main 4 argv112)) = Bad "use after free" /\
  run A3.body (turns 0 1 ++ turns 1 5 ++ turns 2 9 ++ turns 1 6 ++ turns 2 3)
    (boot (A3.main 4 argv112)) = Bad "use after free".
Proof. split; vm_compute; reflexivity. Qed.

(** The range checks of main apply to the long result of strtol after it has
    been cut to an int: "4294967297" passes as one thread in partA3 and partA4,
    whereas "4294967296" is refused. *)
Lemma range_check_after_truncation :
  let big := [52; 50; 57; 52; 57; 54; 55; 50; 57; 55] in
  let bad := [52; 50; 57; 52; 57; 54; 55; 50; 57; 54] in
  strtol 64 big = 4294967297 /\
  A3.main 4 [[]; big; [49]; [50]] = A3.main 4 argv112 /\
  A4.main 4 [[]; big; [49]; [50]] = A4.main 4 argv112 /\
  A3.main 4 [[]; bad; [49]; [50]] = Ret 1.
Proof. split; [reflexivity|]. split; [reflexivity|]. split; reflexivity. Qed.
