(* ===== verification/PartA4Spec.v ===== *)
(** * The process driver (partA4.c): the summary is final

    Main waits for every child before it reads the counters, each process has its
    own run flag, and a child ends by itself or by the signal.  The invariant
    [prun] follows main and the children through every interleaving. *)

From Stdlib Require Import ZArith Lia.
From stdpp Require Import base numbers list relations strings.
From S2P Require Import Prelude PartA PartASpec PartAProps.
Open Scope Z_scope.

(** [qwp N size nsp nw live last p Q]: with [nsp] children forked, the first [nw]
    of them waited for and [last] the counter read last (with its value), main
    forks children 1..N in order, signals and awaits only processes it forked,
    reads only counters of children it has waited for, and prints exactly what it
    has read. *)
Fixpoint qwp (N size nsp nw : Z) (live : bool) (last : option (Z * Z)) (p : prog)
    (Q : Z -> Z -> Z -> bool -> Prop) : Prop :=
  match p with
  | Ret v => Q v nsp nw live
  | Vis Malloc k => forall v, qwp N size nsp nw live last (k v) Q
  | Vis (Calloc n) k =>
      n = N /\ live = false /\ nsp = 0 /\
      qwp N size nsp nw true last (k 1) Q /\ qwp N size nsp nw false last (k 0) Q
  | Vis (Store i v) k =>
      live = true /\ nsp = 0 /\ 0 <= i < N /\ v = 0 /\ qwp N size nsp nw live last (k 0) Q
  | Vis (Fork (Child id sz)) k =>
      live = true /\ id = nsp + 1 /\ nsp < N /\ sz = size /\
      qwp N size (nsp + 1) nw live last (k (1 + nsp)) Q /\
      qwp N size nsp nw live last (k 0) Q
  | Vis (WriteFlag v) k => v = 0 /\ qwp N size nsp nw live last (k 0) Q
  | Vis Sleep k => qwp N size nsp nw live last (k 0) Q
  | Vis (SendSignal h) k => 1 <= h <= nsp /\ qwp N size nsp nw live last (k 0) Q
  | Vis (Waitpid h) k => h = 1 + nw /\ nw < nsp /\ qwp N size nsp (nw + 1) live last (k 0) Q
  | Vis (Load i) k =>
      live = true /\ 0 <= i < nw /\ forall v, qwp N size nsp nw live (Some (i, v)) (k v) Q
  | Vis (Output (EvSummary id n)) k =>
      last = Some (id - 1, n) /\ qwp N size nsp nw live last (k 0) Q
  | Vis (Output (EvClosed _)) k => qwp N size nsp nw live last (k 0) Q
  | Vis Shmdt k => exists w, k 0 = Ret w
  | _ => False
  end.

Section MainLogic.
Variables (N size : Z).

Ltac qcases cm :=
  destruct cm;
  try match goal with e : entry |- _ => destruct e end;
  try match goal with e : message |- _ => destruct e end; try done.

Lemma qwp_mono p nsp nw live last (Q Q' : Z -> Z -> Z -> bool -> Prop) :
  (forall v a b c, Q v a b c -> Q' v a b c) ->
  qwp N size nsp nw live last p Q -> qwp N size nsp nw live last p Q'.
Proof.
  intros HQ. revert nsp nw live last.
  induction p as [v|cm k IH]; intros nsp nw live last; simpl; [apply HQ|].
  qcases cm; naive_solver.
Qed.

(** Programs that never detach the counters compose. *)
Fixpoint no_shmdt (p : prog) : Prop :=
  match p with
  | Ret _ => True
  | Vis Shmdt _ => False
  | Vis _ k => forall v, no_shmdt (k v)
  end.

Lemma no_shmdt_bind p f : no_shmdt p -> (forall v, no_shmdt (f v)) -> no_shmdt (pbind p f).
Proof.
  induction p as [v|cm k IH]; simpl; [intros; auto|].
  destruct cm; try done; intros; auto.
Qed.

Lemma qwp_bind p f nsp nw live last Q :
  no_shmdt p ->
  qwp N size nsp nw live last p (fun v a b c => forall last, qwp N size a b c last (f v) Q) ->
  qwp N size nsp nw live last (pbind p f) Q.
Proof.
  revert nsp nw live last.
  induction p as [v|cm k IH]; intros nsp nw live last Hn; simpl in *; [intros H; apply H|].
  qcases cm; naive_solver.
Qed.

Hypothesis HN : 0 <= N.

(** A loop of [N] rounds; [W i] children have been waited for at round [i]. *)
Lemma qwp_for (W : Z -> Z) body nsp live last :
  (forall i, no_shmdt (body i)) ->
  (forall i last, 0 <= i < N ->
     qwp N size nsp (W i) live last (body i)
       (fun v a b c => v = 0 /\ a = nsp /\ b = W (i + 1) /\ c = live)) ->
  qwp N size nsp (W 0) live last (for_prog (zrange 0 N) body)
    (fun _ a b c => a = nsp /\ b = W N /\ c = live).
Proof using HN.
  intros Hns Hbody.
  enough (forall n i last, 0 <= i -> i + Z.of_nat n = N ->
    qwp N size nsp (W i) live last (for_prog (zrange i N) body)
      (fun _ a b c => a = nsp /\ b = W N /\ c = live)) as H.
  { apply (H (Z.to_nat N)); lia. }
  induction n as [|n IH]; intros i last' Hi Hn.
  - unfold zrange. rewrite seqZ_nil by lia. simpl. replace i with N by lia. done.
  - rewrite zrange_cons by lia. cbn [for_prog]. apply qwp_bind; [done|].
    eapply qwp_mono; [|apply Hbody; lia]. intros ? ? ? ? (-> & -> & -> & ->) ?. cbn.
    apply IH; lia.
Qed.

Lemma no_shmdt_for l body : (forall i, no_shmdt (body i)) -> no_shmdt (for_prog l body).
Proof.
  intros Hb. induction l as [|i l IH]; [done|]. cbn [for_prog]. apply no_shmdt_bind; [done|].
  intros b. by case_decide.
Qed.

(** The handles of the children, in order. *)
Definition pids (n : Z) (hs : list Z) : Prop :=
  Z.of_nat (length hs) = n /\ forall i, 0 <= i < n -> arr_get hs i = Some (1 + i).

Lemma pids_snoc n hs : pids n hs -> pids (n + 1) (hs ++ [1 + n]).
Proof.
  intros [Hlen Hh]. split; [rewrite length_app; simpl; lia|]. intros i Hi.
  apply arr_get_Some. split; [lia|]. destruct (decide (i = n)) as [->|Hne].
  - rewrite lookup_app_r by lia. replace (Z.to_nat n - length hs)%nat with O by lia. done.
  - rewrite lookup_app_l by lia. specialize (Hh i ltac:(lia)). apply arr_get_Some in Hh as [_ Hh]. done.
Qed.

Definition over (_ _ _ : Z) (_ : bool) : Prop := True.

Lemma A4_create after last :
  (forall hs last, pids N hs -> qwp N size N 0 true last (after hs) over) ->
  qwp N size 0 0 true last (A4.create_children (zrange 0 N) size [] after) over.
Proof using HN.
  intros Hafter.
  enough (forall n i hs last, 0 <= i -> i + Z.of_nat n = N -> pids i hs ->
    qwp N size i 0 true last (A4.create_children (zrange i N) size hs after) over) as H.
  { apply (H (Z.to_nat N)); [lia|lia|]. split; [done|lia]. }
  induction n as [|n IH]; intros i hs last' Hi Hn Hhs.
  - unfold zrange. rewrite seqZ_nil by lia. simpl. replace i with N in * by lia. by apply Hafter.
  - rewrite zrange_cons by lia. simpl. rewrite decide_False by lia.
    split_and!; try done; try lia. apply IH; [lia|lia|by apply pids_snoc].
Qed.
End MainLogic.

Ltac qwp_rounds W0 :=
  apply qwp_bind; [by apply no_shmdt_for|];
  eapply qwp_mono; [|apply (qwp_for _ _) with (W := W0); [lia|done|]].

(** Main after its arguments have been accepted. *)
Lemma A4_main_ok argc argv :
  A4.main argc argv = Ret 1 \/
  exists N size, 1 <= N <= 1000 /\ 1 <= size <= 10000 /\
    qwp N size 0 0 false None (A4.main argc argv) over.
Proof.
  unfold A4.main. repeat (case_decide; [by left|]). right.
  set (N := i32 (strtol 64 (arg argv 1))) in *.
  set (size := i32 (strtol 64 (arg argv 3))) in *. exists N, size.
  split; [lia|]. split; [lia|]. simpl. split_and!; try done.
  qwp_rounds (fun _ : Z => 0); [|intros i ? Hi; simpl; split_and!; try done; lia].
  intros ? ? ? ? (-> & -> & ->) last. simpl. intros cp ids. case_decide; [done|].
  apply A4_create; [lia|]. intros hs last' [_ Hhs]. simpl. split; [done|].
  qwp_rounds (fun _ : Z => 0); [|intros i ? Hi; rewrite Hhs by done; simpl; split_and!; try done; lia].
  intros ? ? ? ? (-> & -> & ->) ?.
  qwp_rounds (fun i : Z => i); [|intros i ? Hi; rewrite Hhs by done; simpl; split_and!; try done; lia].
  intros ? ? ? ? (-> & -> & ->) ?.
  qwp_rounds (fun _ : Z => N).
  - intros ? ? ? ? (-> & -> & ->) ?. simpl. by exists 0.
  - intros i ? Hi. simpl. split_and!; try done; try lia. intros w. split_and!; try done.
    do 2 f_equal. lia.
Qed.

(** ** The invariant of the process driver *)

Definition is_live (b : block) : bool := match b with Live _ => true | _ => false end.

(** The counter of a child that has been waited for. *)
Definition final_is (m : machine) (nw i v : Z) : Prop :=
  0 <= i < nw /\ exists l, square_counter m = Live l /\ arr_get l i = Some v.

Record prun (m : machine) (N size nw : Z) (last : option (Z * Z)) (T0 : thread)
    (cs : list thread) : Prop := {
  pr_N : 1 <= N <= 1000;
  pr_size : 1 <= size <= 10000;
  pr_threads : threads m = T0 :: cs;
  pr_space : space T0 = O;
  pr_flags : length (keep_running m) = S (length cs);
  pr_nw : 0 <= nw <= Z.of_nat (length cs);
  pr_le : Z.of_nat (length cs) <= N;
  pr_child : forall j T, cs !! j = Some T -> space T = S j /\
    exists fl c b, keep_running m !! S j = Some fl /\
      child_ok ends (Z.of_nat j) size fl c b T /\ 0 <= c /\ counter_is (square_counter m) j c;
  pr_waited : forall j T, cs !! j = Some T -> Z.of_nat j < nw -> exists v, code T = Ret v;
  pr_block : block_ok size N (length cs) (square_counter m);
  pr_not_freed : square_counter m <> Freed;
  pr_last : forall i v, last = Some (i, v) -> final_is m nw i v;
  pr_summary : forall id n, EvSummary id n ∈ printed m -> final_is m nw (id - 1) n }.

(** Main is at a point the logic covers, or has returned. *)
Definition main_at (m : machine) (N size nw : Z) (last : option (Z * Z)) (T0 : thread)
    (cs : list thread) : Prop :=
  (mapped T0 = true /\
   qwp N size (Z.of_nat (length cs)) nw (is_live (square_counter m)) last (code T0) over) \/
  exists v, code T0 = Ret v.

Inductive pinv (m : machine) : Prop :=
| pinv_refused T0 : threads m = [T0] -> code T0 = Ret 1 -> printed m = [] -> pinv m
| pinv_run N size nw last T0 cs :
    prun m N size nw last T0 cs -> main_at m N size nw last T0 cs -> pinv m.

Section ProcessSteps.
Notation body := A4.body.

(** One command of child [j]. *)
Lemma prun_child m N size nw last T0 cs j T cm k r :
  prun m N size nw last T0 cs -> cs !! j = Some T -> code T = Vis cm k ->
  exists T' out b',
    exec_cmd body cm k (S j) T r m = Next (child_result (S j) b' T' out m) /\
    is_live b' = is_live (square_counter m) /\
    prun (child_result (S j) b' T' out m) N size nw last T0 (<[j := T']> cs).
Proof.
  intros R Hj Hcode. destruct R as [HN Hsz Hts Hsp0 Hfls Hnw Hle Hch Hwt Hbl Hnf Hla Hsu].
  destruct (Hch j T Hj) as (Hsp & fl & c & b & Hfl & Hok & Hc0 & Hc).
  assert (threads m !! S j = Some T) as HT by (by rewrite Hts).
  assert (~ Z.of_nat j < nw) as Hjn.
  { intros H. destruct (Hwt j T Hj H) as [v Hv]. congruence. }
  pose proof (lookup_lt_Some _ _ _ Hj) as Hjl.
  destruct (square_counter m) as [|l|] eqn:Hb; simpl in Hbl; [lia| |done].
  destruct Hbl as (Hlen & Hall & Hz). simpl in Hc.
  assert (arr_get l (Z.of_nat j) = Some c) as Hg.
  { apply arr_get_Some. split; [lia|]. by rewrite Nat2Z.id. }
  pose proof (Forall_lookup_1 _ _ _ _ Hall Hc) as Hcb. simpl in Hcb.
  assert (keep_running m !! space T = Some fl) as Hfl' by (by rewrite Hsp).
  destruct (child_exec_live body _ _ _ _ _ _ T cm k _ r m Hok Hcode HT Hfl' ltac:(lia) l Hb Hg Hc0)
    as (T' & c' & b' & out & He & [Hsp' Hok' Hcnt _ Hsay _]).
  rewrite Nat2Z.id in He. exists T', out, (Live (<[j := c']> l)). split; [done|]. split; [done|].
  assert (forall i v, final_is m nw i v -> final_is
            (child_result (S j) (Live (<[j := c']> l)) T' out m) nw i v) as Hfin.
  { intros i v (Hi & l0 & Hl0 & Hv). split; [done|]. eexists. split; [done|].
    rewrite Hb in Hl0. injection Hl0 as <-. apply arr_get_Some in Hv as [? Hv].
    apply arr_get_Some. split; [done|]. rewrite list_lookup_insert_ne by lia. done. }
  split; simpl; rewrite ?length_insert; try done.
  - by rewrite Hts.
  - intros i Ti Hi. destruct (decide (i = j)) as [->|Hne].
    + rewrite list_lookup_insert_eq in Hi by done. injection Hi as <-.
      split; [congruence|]. exists fl, c', b'. split; [done|]. split; [done|]. split; [lia|].
      apply list_lookup_insert_eq. by eapply lookup_lt_Some.
    + rewrite list_lookup_insert_ne in Hi by done.
      destruct (Hch i Ti Hi) as (? & fi & ci & ki & ? & ? & ? & Hci). split; [done|].
      exists fi, ci, ki. split_and!; try done. simpl. by rewrite list_lookup_insert_ne.
  - intros i Ti Hi Hlt. rewrite list_lookup_insert_ne in Hi by (intros ->; lia). by eapply Hwt.
  - split; [done|]. split; [apply Forall_insert; [done|lia]|].
    intros i Hi. rewrite list_lookup_insert_ne by lia. by apply Hz.
  - intros i v Hl. by apply Hfin, Hla.
  - intros id n [Hin|Hin]%elem_of_app; [by apply Hfin, Hsu|].
    rewrite Forall_forall in Hsay. by destruct (Hsay _ Hin).
Qed.

Lemma prun_main_code m N size nw last T0 cs p :
  prun m N size nw last T0 cs ->
  prun (with_threads (alter (set_code p) 0%nat) m) N size nw last (set_code p T0) cs.
Proof. intros R. destruct R as [? ? Hts]. split; simpl; try done. by rewrite Hts. Qed.

(** Effects of main on the rest of the machine. *)
Lemma prun_print m N size nw last T0 cs e :
  prun m N size nw last T0 cs ->
  (forall id n, e = EvSummary id n -> last = Some (id - 1, n)) ->
  prun (with_printed (fun l => l ++ [e]) m) N size nw last T0 cs.
Proof.
  intros R He. destruct R as [HN Hsz Hts Hsp0 Hfls Hnw Hle Hch Hwt Hbl Hnf Hla Hsu]. split; try done.
  intros id n [Hin|Hin]%elem_of_app; [by apply Hsu|].
  apply list_elem_of_singleton in Hin. by apply Hla, He.
Qed.

Lemma prun_load m N size nw last T0 cs i v :
  prun m N size nw last T0 cs -> final_is m nw i v ->
  prun m N size nw (Some (i, v)) T0 cs.
Proof.
  intros R Hf. destruct R as [HN Hsz Hts Hsp0 Hfls Hnw Hle Hch Hwt Hbl Hnf Hla Hsu].
  split; try done. by intros ? ? [= <- <-].
Qed.

(** Clearing one run flag, main's own or a child's. *)
Lemma prun_clear m N size nw last T0 cs a :
  prun m N size nw last T0 cs -> prun (with_flags (<[a := 0]>) m) N size nw last T0 cs.
Proof.
  intros R. destruct R as [HN Hsz Hts Hsp0 Hfls Hnw Hle Hch Hwt Hbl Hnf Hla Hsu].
  split; simpl; rewrite ?length_insert; try done.
  intros j T Hj. destruct (Hch j T Hj) as (? & fl & c & b & Hfl & [(z & Hz & Hwp) ? ?] & ?).
  split; [done|]. destruct (decide (a = S j)) as [->|Hne].
  - exists 0, c, b. rewrite list_lookup_insert_eq by (apply lookup_lt_Some in Hfl; done).
    split; [done|]. split; [|done]. split; [|done|done]. by exists z.
  - exists fl, c, b. rewrite list_lookup_insert_ne by done. split; [done|]. split; [|done].
    split; [|done|done]. by exists z.
Qed.

(** A signal that ends child [j]. *)
Lemma prun_kill m N size nw last T0 cs j :
  prun m N size nw last T0 cs ->
  prun (with_threads (alter (set_code (Ret 0)) (S j)) m) N size nw last T0
    (alter (set_code (Ret 0)) j cs).
Proof.
  intros R. destruct R as [HN Hsz Hts Hsp0 Hfls Hnw Hle Hch Hwt Hbl Hnf Hla Hsu].
  split; simpl; rewrite ?length_alter; try done.
  - by rewrite Hts.
  - intros i T Hi. destruct (decide (j = i)) as [->|Hne].
    + rewrite list_lookup_alter_eq in Hi. apply fmap_Some in Hi as (T' & HT' & ->).
      destruct (Hch i T' HT') as (? & fl & c & b & ? & [_ ? ?] & ?). split; [done|].
      exists fl, c, b. split; [done|]. split; [|done]. split; [|done|done]. by exists false.
    + rewrite list_lookup_alter_ne in Hi by done. by apply Hch.
  - intros i T Hi Hlt. destruct (decide (j = i)) as [->|Hne].
    + rewrite list_lookup_alter_eq in Hi. apply fmap_Some in Hi as (T' & _ & ->). by exists 0.
    + rewrite list_lookup_alter_ne in Hi by done. by eapply Hwt.
Qed.

Lemma final_is_mono m nw nw' i v : final_is m nw i v -> nw <= nw' -> final_is m nw' i v.
Proof. intros [? H] ?. split; [lia|done]. Qed.

Lemma prun_wait m N size nw last T0 cs T v :
  prun m N size nw last T0 cs -> cs !! Z.to_nat nw = Some T -> code T = Ret v ->
  prun m N size (nw + 1) last T0 cs.
Proof.
  intros R HT Hc. destruct R as [HN Hsz Hts Hsp0 Hfls Hnw Hle Hch Hwt Hbl Hnf Hla Hsu].
  pose proof (lookup_lt_Some _ _ _ HT). split; try done; [lia| | |].
  - intros j Tj Hj Hlt. destruct (decide (j = Z.to_nat nw)) as [->|Hne].
    + simplify_eq. by exists v.
    + apply (Hwt j Tj Hj). lia.
  - intros i w Hl. eapply final_is_mono; [by apply Hla|lia].
  - intros id n Hin. eapply final_is_mono; [by apply Hsu|lia].
Qed.

(** While there is no child: the counters appear, and are cleared. *)
Lemma prun_set_block m N size nw last T0 b :
  prun m N size nw last T0 [] -> b <> Freed -> block_ok size N 0 b ->
  prun (with_block b m) N size nw last T0 [].
Proof.
  intros R Hb Hok. destruct R as [HN Hsz Hts Hsp0 Hfls Hnw Hle Hch Hwt Hbl Hnf Hla Hsu].
  assert (forall i v, ~ final_is m nw i v) as Hno by (intros i v [? _]; simpl in *; lia).
  split; try done.
  - intros i v Hl. by destruct (Hno i v (Hla i v Hl)).
  - intros id n Hin. by destruct (Hno _ _ (Hsu id n Hin)).
Qed.

Lemma block_ok_zeros size N : 0 <= N -> 0 <= size ->
  block_ok size N 0 (Live (replicate (Z.to_nat N) 0)).
Proof.
  intros. simpl. rewrite length_replicate. split; [lia|]. split.
  - apply Forall_replicate. split; [lia|by apply calls_nonneg].
  - intros j Hj. apply lookup_replicate. split; [done|lia].
Qed.

Lemma block_ok_zero size N l i : 0 <= size ->
  block_ok size N 0 (Live l) -> block_ok size N 0 (Live (<[i := 0]> l)).
Proof.
  intros Hs (Hlen & Hall & Hz). simpl. rewrite length_insert. split; [done|]. split.
  - apply Forall_insert; [done|]. split; [lia|by apply calls_nonneg].
  - intros j Hj. destruct (decide (i = j)) as [->|]; [apply list_lookup_insert_eq; lia|].
    rewrite list_lookup_insert_ne by done. apply Hz. lia.
Qed.

Lemma prun_fork m N size nw last T0 cs fl :
  prun m N size nw last T0 cs -> is_live (square_counter m) = true ->
  Z.of_nat (length cs) < N ->
  let T := start body (Child (Z.of_nat (length cs) + 1) size) (S (length cs)) in
  prun (with_threads (fun ts => ts ++ [T]) (with_flags (fun fs => fs ++ [fl]) m))
    N size nw last T0 (cs ++ [T]).
Proof.
  intros R Hl Hlt T. destruct R as [HN Hsz Hts Hsp0 Hfls Hnw Hle Hch Hwt Hbl Hnf Hla Hsu].
  destruct (square_counter m) as [|l|] eqn:Hb; try done. destruct Hbl as (Hlen & Hall & Hz).
  split; simpl; rewrite ?length_app, ?Hb, ?Hfls; simpl; try done; try lia.
  - by rewrite Hts.
  - intros j Tj Hj. apply lookup_app_Some in Hj as [Hj|[Hge Hj]].
    { destruct (Hch j Tj Hj) as (? & fj & c & b & Hfj & ?). split; [done|]. exists fj, c, b.
      rewrite lookup_app_l by (by eapply lookup_lt_Some). done. }
    apply list_lookup_singleton_Some in Hj as [Hj <-]. assert (j = length cs) as -> by lia.
    split; [done|]. exists fl, 0, (size + 1). rewrite lookup_app_r by lia.
    rewrite Hfls, Nat.sub_diag. split; [done|]. split; [|split; [done|apply Hz; lia]].
    split; simpl; [|lia|done]. exists false. split; [done|]. apply A4_child; lia.
  - intros j Tj Hj Hjn. apply lookup_app_Some in Hj as [Hj|[Hge Hj]]; [by eapply Hwt|lia].
  - split; [done|]. split; [done|]. intros j Hj. apply Hz. lia.
Qed.

Definition pstep_ok (o : outcome) : Prop :=
  match o with Next m => pinv m | Bad _ => False | NotEnabled => True end.

(** Main goes on with [p] in a machine that satisfies [prun]. *)
Lemma main_goes_on m N size nw last T0 cs p :
  prun m N size nw last T0 cs -> mapped T0 = true ->
  qwp N size (Z.of_nat (length cs)) nw (is_live (square_counter m)) last p over ->
  pinv (with_threads (alter (set_code p) 0%nat) m).
Proof. intros R Hm Hq. eapply pinv_run; [by eapply prun_main_code|]. by left. Qed.

Lemma prun_main m N size nw last T0 cs cm k r :
  prun m N size nw last T0 cs -> code T0 = Vis cm k -> mapped T0 = true ->
  qwp N size (Z.of_nat (length cs)) nw (is_live (square_counter m)) last (code T0) over ->
  pstep_ok (exec_cmd body cm k 0 T0 r m).
Proof.
  intros R Hcode Hmap Hq. rewrite Hcode in Hq.
  pose proof R as [HN Hsz Hts Hsp0 Hfls Hnw Hle Hch Hwt Hbl Hnf Hla Hsu].
  destruct cm; simpl in Hq; try done; unfold exec_cmd; rewrite ?Hsp0; cbn [pstep_ok].
  - destruct Hq as [-> Hq]. eapply main_goes_on; [by apply prun_clear|done|done].
  - destruct Hq as (Hl & Hi & Hq). destruct (square_counter m) as [|l|] eqn:Hb; try done.
    rewrite Hmap. destruct Hbl as (Hlen & _). destruct (arr_get_lt l i) as [v Hv]; [lia|].
    rewrite Hv. eapply main_goes_on; [|done|rewrite Hb; apply Hq].
    apply (prun_load _ _ _ _ last); [done|]. split; [done|]. by exists l.
  - destruct Hq as (Hl & Hcs & Hi & -> & Hq). destruct (square_counter m) as [|l|] eqn:Hb; try done.
    rewrite Hmap. assert (cs = []) as -> by (apply nil_length_inv; lia).
    rewrite decide_True by done. rewrite arr_set_Some by (destruct Hbl; lia).
    eapply main_goes_on; [apply prun_set_block; [done|done|]|done|done].
    apply block_ok_zero; [lia|done].
  - eapply main_goes_on; [done|done|apply Hq].
  - destruct Hq as (-> & Hl & Hcs & Hq1 & Hq0).
    assert (cs = []) as -> by (apply nil_length_inv; lia).
    case_decide; (eapply main_goes_on; [apply prun_set_block; [done|done|]|done|done]);
      [done|apply block_ok_zeros; lia].
  - destruct Hq as [w Hw]. eapply pinv_run.
    + assert (prun (with_threads (alter set_unmapped 0%nat) m) N size nw last (set_unmapped T0) cs)
        as R' by (split; simpl; try done; by rewrite Hts).
      by eapply prun_main_code.
    + right. exists w. by simpl.
  - destruct e as [|id sz]; [done|]. destruct Hq as (Hl & -> & Hlt & -> & Hq1 & Hq0).
    case_decide; [by eapply main_goes_on|].
    destruct (lookup_lt_is_Some_2 (keep_running m) 0) as [fl Hfl]; [lia|]. rewrite Hfl, Hfls.
    eapply main_goes_on; [by apply prun_fork|done|].
    rewrite length_app, Hts. simpl.
    replace (Z.of_nat (length cs + 1)) with (Z.of_nat (length cs) + 1) by lia.
    replace (Z.of_nat (S (length cs))) with (1 + Z.of_nat (length cs)) by lia. done.
  - destruct Hq as [Hh Hq]. rewrite Hts.
    destruct (lookup_lt_is_Some_2 (T0 :: cs) (Z.to_nat h)) as [P HP]; [simpl; lia|]. rewrite HP.
    destruct (handler P); [eapply main_goes_on; [by apply prun_clear|done|done]|].
    replace (Z.to_nat h) with (S (Z.to_nat (h - 1))) by lia.
    eapply main_goes_on; [by apply prun_kill|done|by rewrite length_alter].
  - destruct Hq as (-> & Hlt & Hq). rewrite Hts.
    replace (Z.to_nat (1 + nw)) with (S (Z.to_nat nw)) by lia. simpl.
    destruct (lookup_lt_is_Some_2 cs (Z.to_nat nw)) as [P HP]; [lia|]. rewrite HP.
    destruct (code P) as [v|] eqn:Hc; [|done].
    eapply main_goes_on; [by eapply prun_wait|done|done].
  - eapply main_goes_on; [done|done|apply Hq].
  - destruct m0 as [| | |id n]; try done.
    + eapply main_goes_on; [by apply prun_print|done|done].
    + destruct Hq as [-> Hq]. eapply main_goes_on; [apply prun_print; [done|]|done|done].
      by intros ? ? [= -> ->].
Qed.

Lemma pinv_step m t r : pinv m -> pstep_ok (exec body t r m).
Proof.
  intros Hinv. unfold exec. destruct (ended m) eqn:He; [done|].
  destruct Hinv as [T0 Hts Hc _|N size nw last T0 cs R Hm].
  { rewrite Hts. destruct t as [|t]; [|done]. simpl. by rewrite Hc. }
  rewrite (pr_threads _ _ _ _ _ _ _ R). destruct t as [|j]; simpl.
  - destruct (code T0) as [|cm k] eqn:Hc; [done|].
    destruct Hm as [[Hmap Hq]|[v Hv]]; [|congruence]. by eapply prun_main.
  - destruct (cs !! j) as [T|] eqn:Hj; [|done]. destruct (code T) as [|cm k] eqn:Hc; [done|].
    destruct (prun_child _ _ _ _ _ _ _ j T cm k r R Hj Hc) as (T' & out & b' & -> & Hl & R').
    eapply pinv_run; [exact R'|]. unfold main_at in *. simpl. rewrite length_insert, Hl. done.
Qed.

Lemma pinv_boot argc argv : pinv (boot (A4.main argc argv)).
Proof.
  destruct (A4_main_ok argc argv) as [Hr|(N & size & HN & Hs & Hq)].
  - eapply pinv_refused; [done|done|done].
  - eapply (pinv_run _ N size 0 None (mkThread (A4.main argc argv) (-1) 0 false true) []); [|left; split; [done|exact Hq]].
    split; simpl; try done; try lia. intros ? ? []%not_elem_of_nil.
Qed.

Lemma pinv_steps m m' : pinv m -> rtc (step body) m m' -> pinv m'.
Proof.
  intros H. induction 1 as [|m m1 m' [t r He] _ IH]; [done|].
  apply IH. pose proof (pinv_step m t r H) as Hs. by rewrite He in Hs.
Qed.
End ProcessSteps.

(** C31: partA4 never faults, and what its summary prints is final: in every
    reachable state, for every printed line "Process id: n square calls", child
    id has ended and its counter holds n, so that it can never change again. *)
Theorem A4_summary_final argc argv m t r :
  rtc (step A4.body) (boot (A4.main argc argv)) m ->
  (forall why, exec A4.body t r m <> Bad why) /\
  forall id n, EvSummary id n ∈ printed m ->
    exists l T v, square_counter m = Live l /\ arr_get l (id - 1) = Some n /\
      threads m !! Z.to_nat id = Some T /\ code T = Ret v.
Proof.
  intros Hr. pose proof (pinv_steps _ _ (pinv_boot argc argv) Hr) as Hinv. split.
  - intros why Hex. pose proof (pinv_step m t r Hinv) as Hs. by rewrite Hex in Hs.
  - intros id n Hin. destruct Hinv as [T0 _ _ Hp|N size nw last T0 cs R _].
    { rewrite Hp in Hin. by apply not_elem_of_nil in Hin. }
    destruct (pr_summary _ _ _ _ _ _ _ R id n Hin) as (Hi & l & Hl & Hv).
    pose proof (pr_nw _ _ _ _ _ _ _ R) as Hnw.
    destruct (lookup_lt_is_Some_2 cs (Z.to_nat (id - 1))) as [T HT]; [lia|].
    destruct (pr_waited _ _ _ _ _ _ _ R _ _ HT) as [v Hc]; [lia|].
    exists l, T, v. rewrite (pr_threads _ _ _ _ _ _ _ R).
    replace (Z.to_nat id) with (S (Z.to_nat (id - 1))) by lia. done.
Qed.

(** One process, which finishes Square(1) and Square(2) before main reports. *)
Definition A4_sched : list (nat * Z) := turns 0 5 ++ turns 1 40 ++ turns 0 12.

Lemma A4_sched_view :
  view (run A4.body A4_sched (boot (A4.main 4 argv112))) =
    Some (Live [5], [EvDone 1 5; EvClosed 1; EvSummary 1 5], [0; 0]).
Proof. vm_compute. reflexivity. Qed.

Lemma A4_summary_final_witness :
  exists m, rtc (step A4.body) (boot (A4.main 4 argv112)) m /\
    exists l T v, square_counter m = Live l /\ arr_get l (1 - 1) = Some 5 /\
      threads m !! Z.to_nat 1 = Some T /\ code T = Ret v.
Proof.
  destruct (view_reach _ _ _ _ _ _ A4_sched_view) as (m & Hr & _ & Hp & _).
  exists m. split; [exact Hr|].
  destruct (A4_summary_final _ _ _ 0 0 Hr) as [_ H]. apply (H 1 5).
  rewrite Hp. right. right. left.
Defined.
