(* ===== verification/Grep.v ===== *)
(** * user/grep.c: the pattern matcher and the line loop

    A C string is the list of its characters before the NUL.  [match_],
    [matchhere] and [matchstar] are proved equivalent to a declarative reading of
    the patterns; [grep] reads the file in pieces of any size into a 1024-byte
    buffer and is proved to print exactly the matching lines. *)

From Stdlib Require Import ZArith Lia.
From stdpp Require Import base numbers list.
From S2P Require Import Prelude.
Open Scope Z_scope.

Definition c_caret : Z := 94.   (* ^ *)
Definition c_star : Z := 42.    (* * *)
Definition c_dollar : Z := 36.  (* $ *)
Definition c_dot : Z := 46.     (* . *)
Definition c_nl : Z := 10.

(** [re[0]] of a string, NUL at its end. *)
Definition char0 (s : list Z) : Z := match s with [] => 0 | c :: _ => c end.

(** [matchstar(c, re, text)]: the do-while loop over [text], given the function
    that matches [re]. *)
Fixpoint matchstar (here : list Z -> bool) (c : Z) (text : list Z) : bool :=
  if here text then true
  else
    match text with
    | [] => false
    | t :: text' => if (t =? c) || (c =? c_dot) then matchstar here c text' else false
    end.

Fixpoint matchhere (re text : list Z) : bool :=
  match re with
  | [] => true
  | r0 :: re1 =>
      match re1 with
      | r1 :: re2 =>
          if r1 =? c_star then matchstar (matchhere re2) r0 text
          else
            match text with
            | t :: text' => if (r0 =? c_dot) || (r0 =? t) then matchhere re1 text' else false
            | [] => false
            end
      | [] =>
          if r0 =? c_dollar then match text with [] => true | _ :: _ => false end
          else
            match text with
            | t :: text' => if (r0 =? c_dot) || (r0 =? t) then matchhere re1 text' else false
            | [] => false
            end
      end
  end.

(** The do-while loop of [match]: try at every suffix, the empty one included. *)
Fixpoint match_any (re text : list Z) : bool :=
  if matchhere re text then true
  else match text with [] => false | _ :: text' => match_any re text' end.

Definition match_ (re text : list Z) : bool :=
  if char0 re =? c_caret then matchhere (drop 1 re) text else match_any re text.

(** ** What a pattern means *)

Definition one_matches (c t : Z) : Prop := c = c_dot \/ c = t.

(** [here re text]: [re] matches at the beginning of [text]. *)
Inductive here : list Z -> list Z -> Prop :=
| here_empty text : here [] text
| here_star c re skip rest :
    Forall (one_matches c) skip -> here re rest ->
    here (c :: c_star :: re) (skip ++ rest)
| here_end : here [c_dollar] []
| here_char c re t text :
    char0 re <> c_star -> (c <> c_dollar \/ re <> []) -> one_matches c t ->
    here re text -> here (c :: re) (t :: text).

Definition matches (re text : list Z) : Prop :=
  if decide (char0 re = c_caret) then here (drop 1 re) text
  else exists before after, text = before ++ after /\ here re after.

Lemma one_matches_b c t : (t =? c) || (c =? c_dot) = true <-> one_matches c t.
Proof. unfold one_matches. rewrite orb_true_iff, !Z.eqb_eq. naive_solver. Qed.

Lemma one_matches_b' c t : (c =? c_dot) || (c =? t) = true <-> one_matches c t.
Proof. unfold one_matches. by rewrite orb_true_iff, !Z.eqb_eq. Qed.

Lemma matchstar_spec f c text :
  matchstar f c text = true <->
  exists skip rest, text = skip ++ rest /\ Forall (one_matches c) skip /\ f rest = true.
Proof.
  induction text as [|t text IH]; simpl.
  - destruct (f []) eqn:E; split; try done.
    + intros _. by exists [], [].
    + intros (skip & rest & Hnil & _ & Hf). symmetry in Hnil. apply app_nil in Hnil as [-> ->]. congruence.
  - destruct (f (t :: text)) eqn:E.
    { split; [|done]. intros _. by exists [], (t :: text). }
    destruct ((t =? c) || (c =? c_dot)) eqn:Ec.
    + rewrite IH. apply one_matches_b in Ec. split.
      * intros (skip & rest & -> & Hs & Hr). exists (t :: skip), rest. by split; [|split; [constructor|]].
      * intros (skip & rest & Heq & Hs & Hr). destruct skip as [|s skip]; simpl in Heq; [subst; congruence|].
        injection Heq as <- ->. apply Forall_cons in Hs as [_ Hs]. by exists skip, rest.
    + split; [done|]. intros (skip & rest & Heq & Hs & Hr).
      destruct skip as [|s skip]; simpl in Heq; [subst; congruence|]. injection Heq as <- ->.
      apply Forall_cons in Hs as [Hs _]. apply one_matches_b in Hs. congruence.
Qed.

Lemma here_cons_inv c re text :
  char0 re <> c_star ->
  here (c :: re) text <->
  (c = c_dollar /\ re = [] /\ text = []) \/
  (exists t text', text = t :: text' /\ (c <> c_dollar \/ re <> []) /\ one_matches c t /\ here re text').
Proof.
  intros Hns. split.
  - intros H. inversion H; subst; [by simpl in Hns|by left|right]. by exists t, text0.
  - intros [(-> & -> & ->)|(t & text' & -> & ? & ? & ?)]; [apply here_end|by apply here_char].
Qed.

Lemma matchhere_spec re text : matchhere re text = true <-> here re text.
Proof.
  revert text. induction re as [re IH] using (induction_ltof1 _ (@length Z)). unfold ltof in IH.
  intros text. destruct re as [|r0 re1]; [split; [constructor|done]|].
  destruct re1 as [|r1 re2].
  { rewrite here_cons_inv by done. simpl. destruct (Z.eqb_spec r0 c_dollar) as [->|Hd].
    - destruct text; split; try done; [by left|].
      intros [(_ & _ & ?)|(? & ? & _ & [?|?] & _)]; done.
    - destruct text as [|t text]; [split; [done|naive_solver]|].
      destruct ((r0 =? c_dot) || (r0 =? t)) eqn:E.
      + apply one_matches_b' in E. split; [|done]. intros _. right. exists t, text.
        split_and!; try done; [by left|constructor].
      + split; [done|]. intros [(? & _)|(t' & text' & [= <- <-] & _ & Hm & _)]; [done|].
        apply one_matches_b' in Hm. congruence. }
  change (matchhere (r0 :: r1 :: re2) text) with
    (if r1 =? c_star then matchstar (matchhere re2) r0 text
     else match text with
          | t :: text' => if (r0 =? c_dot) || (r0 =? t) then matchhere (r1 :: re2) text' else false
          | [] => false end).
  destruct (Z.eqb_spec r1 c_star) as [->|Hs].
  - rewrite matchstar_spec. split.
    + intros (skip & rest & -> & Hf & Hr). apply here_star; [done|]. apply IH in Hr; [done|simpl; lia].
    + intros H. inversion H; subst; [|done].
      exists skip, rest. split_and!; try done. apply IH; [simpl; lia|done].
  - rewrite here_cons_inv by done. destruct text as [|t text]; [split; [done|naive_solver]|].
    destruct ((r0 =? c_dot) || (r0 =? t)) eqn:E.
    + apply one_matches_b' in E. rewrite IH by (simpl; lia). split.
      * intros H. right. exists t, text. split_and!; try done. by right.
      * intros [(_ & ? & _)|(t' & text' & [= <- <-] & _ & _ & H)]; done.
    + split; [done|]. intros [(_ & ? & _)|(t' & text' & [= <- <-] & _ & Hm & _)]; [done|].
      apply one_matches_b' in Hm. congruence.
Qed.

Lemma match_any_spec re text :
  match_any re text = true <-> exists before after, text = before ++ after /\ here re after.
Proof.
  induction text as [|t text IH]; simpl.
  - destruct (matchhere re []) eqn:E; split; try done.
    + intros _. exists [], []. split; [done|by apply matchhere_spec].
    + intros (b & a & Hnil & H). symmetry in Hnil. apply app_nil in Hnil as [-> ->].
      apply matchhere_spec in H. congruence.
  - destruct (matchhere re (t :: text)) eqn:E.
    { split; [|done]. intros _. exists [], (t :: text). split; [done|by apply matchhere_spec]. }
    rewrite IH. split.
    + intros (b & a & -> & H). by exists (t :: b), a.
    + intros (b & a & Heq & H). destruct b as [|x b]; simpl in Heq.
      * subst a. apply matchhere_spec in H. congruence.
      * injection Heq as <- ->. by exists b, a.
Qed.

(** C35: The matcher of grep decides exactly the patterns it documents: match(re,
    text) is true if and only if [re] (literals, '.', 'c*', a leading '^', a final
    '$') matches somewhere in [text], at its beginning when [re] starts with '^'. *)
Theorem match_spec re text : match_ re text = true <-> matches re text.
Proof.
  unfold match_, matches. destruct (Z.eqb_spec (char0 re) c_caret) as [E|E].
  - rewrite decide_True by done. apply matchhere_spec.
  - rewrite decide_False by done. apply match_any_spec.
Qed.

(** ** The line loop *)

(** [strchr(p, '\n')]: the text before the newline and the text after it; the
    search stops at a NUL. *)
Fixpoint strchr_nl (p : list Z) : option (list Z * list Z) :=
  match p with
  | [] => None
  | c :: p' =>
      if c =? 0 then None
      else if c =? c_nl then Some ([], p')
      else
        match strchr_nl p' with
        | Some (line, rest) => Some (c :: line, rest)
        | None => None
        end
  end.

(** The inner loop: the bytes written, and the unfinished line left at [p].  Each
    round consumes a newline, so the length of the buffer is fuel enough. *)
Fixpoint grep_lines (fuel : nat) (pattern p : list Z) : list Z * list Z :=
  match fuel with
  | O => ([], p)
  | S fuel' =>
      match strchr_nl p with
      | None => ([], p)
      | Some (line, rest) =>
          let '(out, unfinished) := grep_lines fuel' pattern rest in
          ((if match_ pattern line then line ++ [c_nl] else []) ++ out, unfinished)
      end
  end.

(** A file being read: the bytes left, and how many each read delivers at most
    (at least one while any are left). *)
Record input : Type := mkInput { bytes_left : list Z; sizes : list nat }.

Definition read (k : Z) (f : input) : list Z * input :=
  let s := match sizes f with [] => length (bytes_left f) | s :: _ => Nat.max 1 s end in
  let n := Nat.min (Z.to_nat k) s in
  (take n (bytes_left f), mkInput (drop n (bytes_left f)) (drop 1 (sizes f))).

Definition BUFSZ : Z := 1024.

(** The outer loop; [buf] holds the first m bytes of the buffer. *)
Fixpoint grep_loop (fuel : nat) (pattern buf : list Z) (f : input) : option (list Z) :=
  match fuel with
  | O => None
  | S fuel' =>
      let m := Z.of_nat (length buf) in
      let '(got, f') := read (BUFSZ - m - 1) f in
      match got with
      | [] => Some []
      | _ :: _ =>
          let buf := buf ++ got in
          let '(out, buf') := grep_lines (length buf) pattern buf in
          match grep_loop fuel' pattern buf' f' with
          | Some more => Some (out ++ more)
          | None => None
          end
      end
  end.

Definition grep (pattern : list Z) (f : input) : option (list Z) :=
  grep_loop (S (length (bytes_left f))) pattern [] f.

(** ** What grep should print *)

(** The lines ended by a newline, and what follows the last newline. *)
Fixpoint split_nl (l : list Z) : list (list Z) * list Z :=
  match l with
  | [] => ([], [])
  | c :: l' =>
      let '(ls, last) := split_nl l' in
      if c =? c_nl then ([] :: ls, last)
      else match ls with [] => ([], c :: last) | l0 :: ls' => ((c :: l0) :: ls', last) end
  end.

Definition print_lines (pattern : list Z) (ls : list (list Z)) : list Z :=
  concat (map (fun line => if match_ pattern line then line ++ [c_nl] else []) ls).

Lemma split_nl_line line rest :
  Forall (fun c => c <> c_nl) line ->
  split_nl (line ++ c_nl :: rest) = (line :: (split_nl rest).1, (split_nl rest).2).
Proof.
  induction 1 as [|c line Hc _ IH]; simpl.
  - by destruct (split_nl rest).
  - rewrite IH. by destruct (Z.eqb_spec c c_nl).
Qed.

Lemma split_nl_none p :
  Forall (fun c => c <> c_nl) p -> split_nl p = ([], p).
Proof.
  induction 1 as [|c p Hc _ IH]; [done|]. simpl. rewrite IH. by destruct (Z.eqb_spec c c_nl).
Qed.

Lemma strchr_nl_spec p :
  Forall (fun c => c <> 0) p ->
  match strchr_nl p with
  | Some (line, rest) => p = line ++ c_nl :: rest /\ Forall (fun c => c <> c_nl) line
  | None => Forall (fun c => c <> c_nl) p
  end.
Proof.
  induction 1 as [|c p Hc _ IH]; [by constructor|]. simpl.
  destruct (Z.eqb_spec c 0); [done|]. destruct (Z.eqb_spec c c_nl) as [->|Hn]; [done|].
  destruct (strchr_nl p) as [[line rest]|]; [|by constructor].
  destruct IH as [-> Hl]. split; [done|by constructor].
Qed.

Lemma grep_lines_spec pattern fuel p :
  Forall (fun c => c <> 0) p -> (length p <= fuel)%nat ->
  grep_lines fuel pattern p = (print_lines pattern (split_nl p).1, (split_nl p).2).
Proof.
  revert p. induction fuel as [|fuel IH]; intros p H0 Hlen; simpl.
  { by destruct p; simpl in *; [|lia]. }
  pose proof (strchr_nl_spec p H0) as Hs. destruct (strchr_nl p) as [[line rest]|].
  - destruct Hs as [-> Hl]. rewrite length_app in Hlen. simpl in Hlen.
    apply Forall_app in H0 as [_ H0]. apply Forall_cons in H0 as [_ H0].
    rewrite IH by (try done; lia). rewrite split_nl_line by done. done.
  - by rewrite split_nl_none.
Qed.

Lemma split_nl_app a b :
  split_nl (a ++ b) =
    ((split_nl a).1 ++ (split_nl ((split_nl a).2 ++ b)).1, (split_nl ((split_nl a).2 ++ b)).2).
Proof.
  induction a as [|c a IH]; simpl.
  { by destruct (split_nl b). }
  rewrite IH. destruct (split_nl a) as [ls last] eqn:Ea. simpl.
  destruct (Z.eqb_spec c c_nl) as [->|Hc]; [done|].
  destruct ls as [|l0 ls]; [|done]. simpl.
  destruct (split_nl (last ++ b)) as [ls' r'].
  destruct (Z.eqb_spec c c_nl); [done|]. by destruct ls'.
Qed.

(** The unfinished line holds no newline. *)
Lemma split_nl_last p : Forall (fun c => c <> c_nl) (split_nl p).2.
Proof.
  induction p as [|c p IH]; [constructor|]. simpl. destruct (split_nl p) as [ls last].
  destruct (Z.eqb_spec c c_nl) as [->|Hc]; [done|]. destruct ls; [by constructor|done].
Qed.

Lemma split_nl_subset p x : x ∈ (split_nl p).2 -> x ∈ p.
Proof.
  induction p as [|c p IH]; [intros H; exact H|]. simpl. destruct (split_nl p) as [ls last].
  destruct (c =? c_nl); [intros; right; by apply IH|].
  destruct ls; [|intros; right; by apply IH]. simpl.
  intros [->|Hin]%elem_of_cons; [left|right; by apply IH].
Qed.

(** A prefix without a newline is part of the first line. *)
Lemma first_line_long a b l0 ls :
  Forall (fun c => c <> c_nl) a -> (split_nl (a ++ b)).1 = l0 :: ls -> (length a <= length l0)%nat.
Proof.
  intros Ha. revert l0. induction Ha as [|c a Hc Ha IH]; intros l0; simpl; [lia|].
  destruct (split_nl (a ++ b)) as [ls' last]. destruct (Z.eqb_spec c c_nl); [done|].
  destruct ls' as [|l1 ls']; [done|]. intros [= <- <-]. simpl. specialize (IH l1 eq_refl). lia.
Qed.

Lemma read_spec k f got f' :
  read k f = (got, f') -> bytes_left f = got ++ bytes_left f' /\
  (got = [] -> k <= 0 \/ bytes_left f = []).
Proof.
  unfold read. intros [= <- <-]. simpl. rewrite take_drop. split; [done|].
  destruct (bytes_left f) as [|x bs]; [by right|]. intros Hn. left.
  destruct (Z.to_nat k) eqn:Ek; [lia|]. exfalso.
  destruct (sizes f) as [|s ss]; [done|]. by destruct (Nat.max 1 s) eqn:?; [lia|].
Qed.

Lemma grep_loop_spec pattern fuel buf f :
  (length (bytes_left f) < fuel)%nat ->
  Forall (fun c => c <> 0) (buf ++ bytes_left f) -> Forall (fun c => c <> c_nl) buf ->
  Forall (fun line => Z.of_nat (length line) < BUFSZ - 1) (split_nl (buf ++ bytes_left f)).1 ->
  grep_loop fuel pattern buf f = Some (print_lines pattern (split_nl (buf ++ bytes_left f)).1).
Proof.
  revert buf f. induction fuel as [|fuel IH]; intros buf f Hf H0 Hb Hlong; [lia|].
  cbn [grep_loop].
  destruct (read (BUFSZ - Z.of_nat (length buf) - 1) f) as [got f'] eqn:Hr.
  destruct (read_spec _ _ _ _ Hr) as [Hdata Hnil]. destruct got as [|g got].
  - assert ((split_nl (buf ++ bytes_left f)).1 = []) as ->; [|done].
    destruct (Hnil eq_refl) as [Hfull|He]; [|by rewrite He, app_nil_r, split_nl_none].
    destruct (split_nl (buf ++ bytes_left f)).1 as [|l0 ls] eqn:El; [done|]. exfalso.
    apply first_line_long in El; [|done]. apply Forall_cons in Hlong as [Hl _]. lia.
  - rewrite Hdata in *. set (got' := g :: got) in *. rewrite app_assoc in H0, Hlong.
    apply Forall_app in H0 as [H1 H2].
    rewrite grep_lines_spec by done.
    rewrite split_nl_app in Hlong. simpl in Hlong. apply Forall_app in Hlong as [_ Hlong].
    rewrite IH.
    + rewrite app_assoc, (split_nl_app (buf ++ got')). unfold print_lines. simpl.
      by rewrite map_app, concat_app.
    + unfold got' in *. rewrite length_app in Hf. simpl in Hf. lia.
    + apply Forall_app. split; [|done]. rewrite Forall_forall in *. intros x Hx.
      by apply H1, split_nl_subset.
    + apply split_nl_last.
    + done.
Qed.

(** C36: grep prints exactly the lines that match: for a file without NUL bytes
    whose lines fit the 1024-byte buffer, however the bytes arrive from read, the
    loop ends and writes the matching lines, each with its newline, in order. *)
Theorem grep_prints_matching pattern f :
  Forall (fun c => c <> 0) (bytes_left f) ->
  Forall (fun line => Z.of_nat (length line) < BUFSZ - 1) (split_nl (bytes_left f)).1 ->
  grep pattern f = Some (print_lines pattern (split_nl (bytes_left f)).1).
Proof. intros. apply (grep_loop_spec pattern _ []); [lia|done|constructor|done]. Qed.

(** "a\nba\nc\n" read one, then two bytes, then the rest, with the pattern "^a". *)
Lemma grep_prints_matching_witness :
  grep [94; 97] (mkInput [97; 10; 98; 97; 10; 99; 10] [1; 2]%nat) =
    Some (print_lines [94; 97] [[97]; [98; 97]; [99]]).
Proof.
  apply (grep_prints_matching [94; 97] (mkInput [97; 10; 98; 97; 10; 99; 10] [1; 2]%nat));
    repeat constructor; discriminate.
Defined.
