(* ===== verification/Primes.v ===== *)
(** * user/primes.c: the pipeline of sieves

    Every process of the pipeline is a program counter and its local variables, with the
    pipe ends it has open; a step is one system call and the computation up to the next.
    Pipes carry whole integers: all transfers are of four bytes, PIPESIZE is a multiple
    of four, and pipewrite gives up its lock only when the pipe is full, so a reader
    never sees a part of one.  A call that would wait cannot step; fork is taken to
    succeed. *)

From Stdlib Require Import ZArith Lia.
From stdpp Require Import base numbers list gmap strings.
From S2P Require Import Prelude.
Open Scope Z_scope.

Definition NOFILE : nat := 16.
Definition PIPE_INTS : nat := 128.    (* PIPESIZE / sizeof(int) *)
Definition LAST : Z := 35.

(** Where a process is: before the call or test named. *)
Inductive pc : Type :=
| M_pipe | M_fork | M_close0 | M_write | M_close1 | M_wait
| C_close1
| S_read | S_close_eof | S_print | S_pipe | S_fork | S_close0
| S_loop | S_filter | S_close_rd | S_close1 | S_wait
| Exited.
#[export] Instance pc_eq_dec : EqDecision pc.
Proof. solve_decision. Defined.

(** An end of a pipe: its number, and whether it is the end to write to. *)
Notation end_ := (nat * bool)%type.

Record proc : Type := mkProc {
  at_ : pc;
  parent : option nat;
  read_fd : nat;             (* the pipe of read_fd *)
  p : nat;                   (* the pipe of p[2] *)
  prime : Z;
  num : Z;                   (* num in sieve, i in main *)
  fds : list end_ }.         (* beside the three standard descriptors *)

Definition goto c x := mkProc c (parent x) (read_fd x) (p x) (prime x) (num x) (fds x).
Definition set_read_fd v x := mkProc (at_ x) (parent x) v (p x) (prime x) (num x) (fds x).
Definition set_p v x := mkProc (at_ x) (parent x) (read_fd x) v (prime x) (num x) (fds x).
Definition set_prime v x := mkProc (at_ x) (parent x) (read_fd x) (p x) v (num x) (fds x).
Definition set_num v x := mkProc (at_ x) (parent x) (read_fd x) (p x) (prime x) v (fds x).
Definition set_fds v x := mkProc (at_ x) (parent x) (read_fd x) (p x) (prime x) (num x) v.

Record sys : Type := mkSys { procs : list proc; pipes : list (list Z); out : list Z }.

(** ** System calls *)

Definition is_open (s : sys) (e : end_) : Prop := Exists (fun x => e ∈ fds x) (procs s).
#[export] Instance is_open_dec s e : Decision (is_open s e).
Proof. unfold is_open. apply _. Defined.

Inductive got (A : Type) : Type := Value (a : A) | Eof | Wait | Bad.
Arguments Value {A}. Arguments Eof {A}. Arguments Wait {A}. Arguments Bad {A}.

(** read of an integer: the next one, 0 bytes when nobody can write any more. *)
Definition read (s : sys) (j : nat) : got (Z * sys) :=
  match pipes s !! j with
  | Some (v :: q) => Value (v, mkSys (procs s) (<[j := q]> (pipes s)) (out s))
  | Some [] => if decide (is_open s (j, true)) then Wait else Eof
  | None => Bad
  end.

(** write of an integer; nobody looks at its result when there is no reader. *)
Definition write (s : sys) (j : nat) (v : Z) : got sys :=
  match pipes s !! j with
  | Some q =>
      if decide (is_open s (j, false)) then
        if decide (length q < PIPE_INTS)%nat then Value (mkSys (procs s) (<[j := q ++ [v]]> (pipes s)) (out s))
        else Wait
      else Value s
  | None => Bad
  end.

Definition close (e : end_) (x : proc) : proc := set_fds (filter (fun e' => e' <> e) (fds x)) x.
Definition exit (x : proc) : proc := set_fds [] (goto Exited x).

(** pipe(p): two descriptors are needed, or p stays undefined. *)
Definition pipe (s : sys) (x : proc) : got (proc * sys) :=
  if decide (3 + length (fds x) + 2 <= NOFILE)%nat then
    let j := length (pipes s) in
    Value (set_p j (set_fds (fds x ++ [(j, false); (j, true)]) x), mkSys (procs s) (pipes s ++ [[]]) (out s))
  else Bad.

(** ** The programs *)

Definition set_proc (i : nat) (x : proc) (s : sys) : sys := mkSys (<[i := x]> (procs s)) (pipes s) (out s).
Definition add_proc (x : proc) (s : sys) : sys := mkSys (procs s ++ [x]) (pipes s) (out s).

(** The child of process [i]: it closes p[1] and calls sieve(p[0]). *)
Definition child (i : nat) (x : proc) : proc :=
  mkProc C_close1 (Some i) (p x) (p x) (prime x) (num x) (fds x).

(** The next call of process [i]. *)
Definition step (i : nat) (s : sys) : got sys :=
  match procs s !! i with
  | None => Bad
  | Some x =>
      let next x' := Value (set_proc i x' s) in
      match at_ x with
      (* main *)
      | M_pipe => match pipe s x with
                  | Value (x', s') => Value (set_proc i (goto M_fork x') s')
                  | _ => Bad
                  end
      | M_fork => Value (add_proc (child i x) (set_proc i (goto M_close0 x) s))
      | M_close0 => next (goto M_write (set_num 2 (close (p x, false) x)))
      | M_write =>
          if decide (num x <= LAST) then
            match write s (p x) (num x) with
            | Value s' => Value (set_proc i (set_num (num x + 1) x) s')
            | Wait => Wait
            | _ => Bad
            end
          else next (goto M_close1 x)
      | M_close1 => next (goto M_wait (close (p x, true) x))
      | M_wait =>
          if decide (Exists (fun y => parent y = Some i /\ at_ y = Exited) (procs s))
          then next (exit x) else Wait
      (* the child before it calls sieve, and sieve *)
      | C_close1 => next (goto S_read (set_read_fd (p x) (close (p x, true) x)))
      | S_read =>
          match read s (read_fd x) with
          | Value (v, s') => Value (set_proc i (goto S_print (set_prime v x)) s')
          | Eof => next (goto S_close_eof x)
          | Wait => Wait
          | Bad => Bad
          end
      | S_close_eof => next (exit (close (read_fd x, false) x))
      | S_print => Value (set_proc i (goto S_pipe x) (mkSys (procs s) (pipes s) (out s ++ [prime x])))
      | S_pipe => match pipe s x with
                  | Value (x', s') => Value (set_proc i (goto S_fork x') s')
                  | _ => Bad
                  end
      | S_fork => Value (add_proc (child i x) (set_proc i (goto S_close0 x) s))
      | S_close0 => next (goto S_loop (close (p x, false) x))
      | S_loop =>
          match read s (read_fd x) with
          | Value (v, s') => Value (set_proc i (goto S_filter (set_num v x)) s')
          | Eof => next (goto S_close_rd x)
          | Wait => Wait
          | Bad => Bad
          end
      | S_filter =>
          if decide (Z.rem (num x) (prime x) <> 0) then
            match write s (p x) (num x) with
            | Value s' => Value (set_proc i (goto S_loop x) s')
            | Wait => Wait
            | _ => Bad
            end
          else next (goto S_loop x)
      | S_close_rd => next (goto S_close1 (close (read_fd x, false) x))
      | S_close1 => next (goto S_wait (close (p x, true) x))
      | S_wait =>
          if decide (Exists (fun y => parent y = Some i /\ at_ y = Exited) (procs s))
          then next (exit x) else Wait
      | Exited => Wait
      end
  end.

Definition start : sys := mkSys [mkProc M_pipe None 0 0 0 0 []] [] [].

(** Any process whose call does not wait may run next; [n] counts the calls. *)
Inductive runs : nat -> sys -> sys -> Prop :=
| runs_refl s : runs 0 s s
| runs_step n i s s1 s' : runs n s s1 -> step i s1 = Value s' -> runs (S n) s s'.

(** Round robin, for examples: the processes in turn until none can move. *)
Fixpoint rounds (fuel : nat) (s : sys) : sys :=
  match fuel with
  | O => s
  | S n => rounds n (foldl (fun s i => match step i s with Value s' => s' | _ => s end) s (seq 0 (length (procs s))))
  end.

Example primes_run : out (rounds 200 start) = [2; 3; 5; 7; 11; 13; 17; 19; 23; 29; 31].
Proof. vm_compute. reflexivity. Qed.
