(* ===== verification/PrimesSpec.v ===== *)
(** * The pipeline of sieves prints the primes

    What the stages will still print is a function of the state that no step changes but
    by printing it; the work left shrinks with every step; and as long as a process is
    left, one of them can move. *)

From Stdlib Require Import ZArith Lia.
From stdpp Require Import base numbers list gmap strings.
From S2P Require Import Prelude Primes.
Open Scope Z_scope.

(** ** The sieve on lists *)

Definition filt (d : Z) (l : list Z) : list Z := filter (fun v => Z.rem v d <> 0) l.

Fixpoint sieve_n (n : nat) (l : list Z) : list Z :=
  match n, l with
  | S n', d :: l' => d :: sieve_n n' (filt d l')
  | _, _ => []
  end.
Definition sieve (l : list Z) : list Z := sieve_n (length l) l.

Lemma filt_length d l : (length (filt d l) <= length l)%nat.
Proof. apply length_filter. Qed.
Lemma filt_cons d v l : filt d (v :: l) = (if decide (Z.rem v d <> 0) then [v] else []) ++ filt d l.
Proof. unfold filt. rewrite filter_cons. by case_decide. Qed.

Lemma sieve_n_more n m l : (length l <= n)%nat -> (length l <= m)%nat -> sieve_n n l = sieve_n m l.
Proof.
  revert m l. induction n as [|n IH]; intros [|m] [|d l] Hn Hm; simpl in *; try done; try lia.
  f_equal. pose proof (filt_length d l). apply IH; lia.
Qed.
Lemma sieve_nil : sieve [] = [].
Proof. done. Qed.
Lemma sieve_cons d l : sieve (d :: l) = d :: sieve (filt d l).
Proof. unfold sieve. simpl. f_equal. pose proof (filt_length d l). apply sieve_n_more; lia. Qed.

Definition numbers : list Z := zrange 2 (LAST + 1).

(** ** What is still to come *)

(** The integers that pipe [k] will still deliver: those in it, and those that its
    writer, process [k], will still put into it. *)
Definition queue (s : sys) (k : nat) : list Z := default [] (pipes s !! k).
Definition rest_main (x : proc) : list Z :=
  match at_ x with
  | M_pipe | M_fork | M_close0 => numbers
  | M_write => zrange (num x) (LAST + 1)
  | _ => []
  end.
Definition rest_stage (x : proc) (input : list Z) : list Z :=
  match at_ x with
  | S_print | S_pipe | S_fork | S_close0 | S_loop => filt (prime x) input
  | S_filter => filt (prime x) (num x :: input)
  | _ => []
  end.
Fixpoint rest (s : sys) (k : nat) : list Z :=
  match procs s !! k with
  | None => []
  | Some x => match k with O => rest_main x | S k' => rest_stage x (queue s k' ++ rest s k') end
  end.
Definition stream (s : sys) (k : nat) : list Z := queue s k ++ rest s k.

(** What the last process [x], of index [n], and its descendants will still print. *)
Definition future (s : sys) (n : nat) (x : proc) : list Z :=
  match at_ x with
  | M_pipe | M_fork | S_pipe | S_fork => sieve (rest s n)
  | C_close1 | S_read => sieve (stream s (pred n))
  | S_print => prime x :: sieve (rest s n)
  | _ => []
  end.

(** ** The descriptors of each process *)

Definition reads (i : nat) : list end_ := (fun j => (j, false)) <$> seq 0 i.

Definition shape (i : nat) (c : pc) : list end_ :=
  match c with
  | M_pipe | M_wait | Exited => []
  | M_fork | M_close0 => [(i, false); (i, true)]
  | M_write | M_close1 => [(i, true)]
  | C_close1 => reads i ++ [(pred i, true)]
  | S_read | S_close_eof | S_print | S_pipe => reads i
  | S_fork | S_close0 => reads i ++ [(i, false); (i, true)]
  | S_loop | S_filter | S_close_rd => reads i ++ [(i, true)]
  | S_close1 => reads (pred i) ++ [(i, true)]
  | S_wait => reads (pred i)
  end.

Definition of_main (c : pc) : bool :=
  match c with M_pipe | M_fork | M_close0 | M_write | M_close1 | M_wait | Exited => true | _ => false end.
Definition of_sieve (c : pc) : bool :=
  match c with M_pipe | M_fork | M_close0 | M_write | M_close1 | M_wait => false | _ => true end.
(** Whether a process has forked, may yet fork, and has called pipe. *)
Definition forked (c : pc) : bool :=
  match c with
  | M_close0 | M_write | M_close1 | M_wait | S_close0 | S_loop | S_filter | S_close_rd | S_close1 | S_wait | Exited => true
  | _ => false
  end.
Definition leading (c : pc) : bool :=
  match c with
  | M_pipe | M_fork | C_close1 | S_read | S_close_eof | S_print | S_pipe | S_fork | Exited => true
  | _ => false
  end.
Definition piped (c : pc) : bool :=
  match c with
  | M_fork | M_close0 | M_write | M_close1 | M_wait
  | S_fork | S_close0 | S_loop | S_filter | S_close_rd | S_close1 | S_wait => true
  | _ => false
  end.

Record proc_ok (i n : nat) (x : proc) : Prop := {
  po_kind : (if i then of_main else of_sieve) (at_ x) = true;
  po_parent : parent x = match i with O => None | S k => Some k end;
  po_fds : fds x = shape i (at_ x);
  po_read : match i with O => True | S k => read_fd x = k end;
  po_p : piped (at_ x) = true -> p x = i;
  po_child : at_ x = C_close1 -> p x = pred i;
  po_place : (if decide (i = n) then leading else forked) (at_ x) = true }.

(** A process that has seen the end of its input, and one that has closed its output. *)
Definition after_eof (c : pc) : bool :=
  match c with S_close_eof | S_close_rd | S_close1 | S_wait | Exited => true | _ => false end.
Definition ended (c : pc) : bool := match c with M_wait | S_wait | Exited => true | _ => false end.

(** The number of stages that have printed. *)
Definition printed (n : nat) (c : pc) : nat :=
  match c with M_pipe | M_fork => 0 | S_pipe | S_fork => n | _ => pred n end.

Record inv (s : sys) (n : nat) (x : proc) : Prop := {
  in_last : procs s !! n = Some x;
  in_length : length (procs s) = S n;
  in_procs : forall i y, procs s !! i = Some y -> proc_ok i n y;
  in_pipes : length (pipes s) = if piped (at_ x) then S n else n;
  in_eof : forall k y z, procs s !! S k = Some y -> procs s !! k = Some z -> after_eof (at_ y) = true -> ended (at_ z) = true;
  in_fresh : piped (at_ x) = true -> queue s n = [];
  in_size : forall k, (k < n)%nat -> (length (stream s k) <= 34)%nat;
  in_out : out s ++ future s n x = sieve numbers;
  in_printed : length (out s) = printed n (at_ x) }.

Lemma inv_start : inv start 0 (mkProc M_pipe None 0 0 0 0 []).
Proof.
  split; try done.
  - intros [|i] y Hy; [|done]. injection Hy as <-. by split.
  - intros k Hk. lia.
Qed.

(** ** Streams depend on the processes up to their writer *)

Lemma rest_S s k x : procs s !! S k = Some x -> rest s (S k) = rest_stage x (stream s k).
Proof. intros Hx. simpl. by rewrite Hx. Qed.
Lemma rest_0 s x : procs s !! 0%nat = Some x -> rest s 0 = rest_main x.
Proof. intros Hx. simpl. by rewrite Hx. Qed.

Lemma rest_ext s s' k :
  (forall j, (j <= k)%nat -> procs s' !! j = procs s !! j) -> (forall j, (j < k)%nat -> queue s' j = queue s j) ->
  rest s' k = rest s k.
Proof.
  induction k as [|k IH]; intros Hp Hq; simpl; rewrite (Hp _ (le_n _)); [done|].
  destruct (procs s !! S k); [|done]. rewrite Hq by lia. rewrite IH; [done|intros; apply Hp; lia|intros; apply Hq; lia].
Qed.

Lemma stream_below s s' k :
  (forall j, (j <= k)%nat -> procs s' !! j = procs s !! j) -> (forall j, (j <= k)%nat -> queue s' j = queue s j) ->
  stream s' k = stream s k.
Proof. intros Hp Hq. unfold stream. rewrite Hq by lia. f_equal. apply rest_ext; [done|]. intros. apply Hq. lia. Qed.

Lemma stream_above s s' m k :
  (m <= k)%nat -> stream s' m = stream s m ->
  (forall j, (m < j)%nat -> procs s' !! j = procs s !! j /\ queue s' j = queue s j) -> stream s' k = stream s k.
Proof.
  intros Hmk Hm Hj. induction Hmk as [|k Hmk IH]; [done|]. destruct (Hj (S k)) as [Hp Hq]; [lia|].
  unfold stream. rewrite Hq. f_equal. simpl. rewrite Hp. destruct (procs s !! S k); [|done].
  fold (stream s' k). fold (stream s k). by rewrite IH.
Qed.

(** ** Steps of a process that has forked *)

Lemma inv_inner s n x i y y' qs :
  inv s n x -> (i < n)%nat -> procs s !! i = Some y -> proc_ok i n y' ->
  (ended (at_ y) = true -> ended (at_ y') = true) ->
  (forall k z, i = S k -> procs s !! k = Some z -> after_eof (at_ y') = true -> ended (at_ z) = true) ->
  length qs = length (pipes s) ->
  (forall k, (i < k)%nat -> qs !! k = pipes s !! k) ->
  (forall k, (S k < i)%nat -> qs !! k = pipes s !! k) ->
  (forall k, i = S k -> (length (default [] (qs !! k)) <= length (queue s k))%nat) ->
  stream (mkSys (<[i := y']> (procs s)) qs (out s)) i = stream s i ->
  inv (mkSys (<[i := y']> (procs s)) qs (out s)) n x.
Proof.
  intros I Hi Hy Hok Hend Heof Hlen Hqa Hqb Hqp Hst. set (s' := mkSys _ _ _) in *.
  assert (forall j, (i < j)%nat -> procs s' !! j = procs s !! j /\ queue s' j = queue s j) as Habove.
  { intros j Hj. split; [simpl; by rewrite list_lookup_insert_ne by lia|]. unfold queue. simpl. by rewrite Hqa. }
  assert (forall k, (i <= k)%nat -> stream s' k = stream s k) as Hstr by (intros k Hk; by apply (stream_above s s' i)).
  destruct I as [I1 I2 I3 I4 I5 I6 I7 I8 I9]. split.
  - simpl. by rewrite list_lookup_insert_ne by lia.
  - simpl. by rewrite length_insert.
  - intros j z Hz. simpl in Hz. destruct (decide (i = j)) as [->|Hne].
    + rewrite list_lookup_insert_eq in Hz by lia. by injection Hz as <-.
    + rewrite list_lookup_insert_ne in Hz by done. by apply I3.
  - simpl. by rewrite Hlen.
  - intros k y1 z1 Hy1 Hz1 Ha. simpl in Hy1, Hz1.
    assert (after_eof (at_ y1) = true -> forall z0, procs s !! k = Some z0 -> ended (at_ z0) = true) as Hold.
    { intros Ha1 z0 Hz0. destruct (decide (i = S k)) as [->|Hne].
      - rewrite list_lookup_insert_eq in Hy1 by lia. injection Hy1 as <-.
        by eapply Heof.
      - rewrite list_lookup_insert_ne in Hy1 by done. by eapply I5. }
    destruct (decide (i = k)) as [->|Hne].
    + rewrite list_lookup_insert_eq in Hz1 by lia. injection Hz1 as <-. apply Hend. by apply Hold.
    + rewrite list_lookup_insert_ne in Hz1 by done. by apply Hold.
  - intros Hp. rewrite (proj2 (Habove n Hi)). by apply I6.
  - intros k Hkn. destruct (decide (i <= k)%nat) as [|Hlt]; [rewrite Hstr by done; by apply I7|].
    etrans; [|apply (I7 k Hkn)]. unfold stream. rewrite !length_app.
    assert (rest s' k = rest s k) as ->.
    { apply rest_ext; intros j Hj; [simpl; by rewrite list_lookup_insert_ne by lia|].
      unfold queue. simpl. by rewrite Hqb by lia. }
    assert (length (queue s' k) <= length (queue s k))%nat; [|lia].
    destruct (decide (i = S k)) as [->|Hne]; [by apply Hqp|]. unfold queue. simpl. by rewrite Hqb by lia.
  - simpl. rewrite <- I8. f_equal. destruct n as [|n']; [lia|]. unfold future.
    rewrite !(rest_S _ n' x) by (simpl; rewrite ?list_lookup_insert_ne by lia; done).
    simpl pred. by rewrite Hstr by lia.
  - done.
Qed.

(** ** Descriptors *)

Lemma reads_S i : reads (S i) = reads i ++ [(i, false)].
Proof. unfold reads. rewrite seq_S, fmap_app. done. Qed.

Lemma elem_of_reads e i : e ∈ reads i <-> exists j, e = (j, false) /\ (j < i)%nat.
Proof.
  unfold reads. rewrite list_elem_of_fmap. split; intros (j & He & Hj); exists j; (split; [done|]);
    rewrite elem_of_seq in *; lia.
Qed.

Lemma close_reads e i : (forall j, (j < i)%nat -> e <> (j, false)) -> filter (fun e' => e' <> e) (reads i) = reads i.
Proof.
  intros He. induction i as [|i IH]; [done|]. rewrite reads_S, filter_app, IH by (intros; apply He; lia).
  f_equal. rewrite filter_cons_True; [done|]. intros <-. exact (He i (le_n _) eq_refl).
Qed.

(** The descriptors after a close. *)
Lemma close_shape_r i : filter (fun e' => e' <> (i, false)) (reads i ++ [(i, false); (i, true)]) = reads i ++ [(i, true)].
Proof.
  rewrite filter_app, close_reads by (intros j Hj E; simplify_eq; lia). f_equal.
  rewrite filter_cons_False by (intros E; by apply E). by rewrite filter_cons_True.
Qed.
Lemma close_shape_w i k : filter (fun e' => e' <> (k, true)) (reads i ++ [(k, true)]) = reads i.
Proof.
  rewrite filter_app, close_reads by (intros j Hj E; simplify_eq). rewrite filter_cons_False by naive_solver.
  apply app_nil_r.
Qed.
Lemma close_shape_in i k : filter (fun e' => e' <> (i, false)) (reads (S i) ++ [(k, true)]) = reads i ++ [(k, true)].
Proof.
  rewrite reads_S, <- app_assoc, filter_app, close_reads by (intros j Hj E; simplify_eq; lia). f_equal.
  simpl. rewrite filter_cons_False by (intros E; by apply E). by rewrite filter_cons_True.
Qed.

(** A process that has forked and not ended can write; one that has not can no longer. *)
Lemma holds_write k c : forked c = true -> ended c = false -> (k, true) ∈ shape k c.
Proof. destruct c; try done; intros _ _; simpl; rewrite ?elem_of_app, ?elem_of_cons; tauto. Qed.

Lemma held_by (k i : nat) c : (if i then of_main else of_sieve) c = true -> (k, true) ∈ shape i c ->
  k = i /\ ended c = false \/ i = S k /\ c = C_close1.
Proof.
  assert (forall j, (k, true) ∉ reads j) as Hr by (intros j (? & ? & _)%elem_of_reads; congruence).
  destruct i as [|i]; destruct c; try done; intros _; cbn [shape pred ended];
    rewrite ?elem_of_app, ?elem_of_cons, ?elem_of_nil; intros Hin;
    repeat match goal with H : _ \/ _ |- _ => destruct H end;
    try contradiction; first [exfalso; eapply Hr; eassumption|simplify_eq; auto].
Qed.

Lemma holds_read k c : of_sieve c = true -> after_eof c = false -> (k, false) ∈ shape (S k) c.
Proof.
  assert ((k, false) ∈ reads (S k)) as Hr by (apply elem_of_reads; exists k; split; [done|lia]).
  destruct c; try done; intros _ _; cbn [shape pred]; rewrite ?elem_of_app; auto.
Qed.

Section Facts.
Context (s : sys) (n : nat) (x : proc) (I : inv s n x).

Lemma is_open_lookup e i y : procs s !! i = Some y -> e ∈ fds y -> is_open s e.
Proof. intros Hy He. apply Exists_exists. exists y. split; [by apply list_elem_of_lookup_2 in Hy|done]. Qed.

Lemma proc_exists i : (i <= n)%nat -> exists y, procs s !! i = Some y /\ proc_ok i n y.
Proof using I.
  intros Hi. destruct (lookup_lt_is_Some_2 (procs s) i) as [y Hy]; [rewrite (in_length _ _ _ I); lia|].
  exists y. split; [done|]. by apply (in_procs _ _ _ I).
Qed.

Lemma inner_forked i y : (i < n)%nat -> procs s !! i = Some y -> forked (at_ y) = true.
Proof using I.
  intros Hi Hy. pose proof (po_place _ _ _ (in_procs _ _ _ I i y Hy)) as Hp. by rewrite decide_False in Hp by lia.
Qed.

(** Nobody can write to pipe [k] any more: its writer has ended. *)
Lemma eof_ended k z : (k < n)%nat -> procs s !! k = Some z -> ~ is_open s (k, true) -> ended (at_ z) = true.
Proof using I.
  intros Hk Hz Hno. destruct (ended (at_ z)) eqn:E; [done|]. exfalso. apply Hno.
  eapply is_open_lookup; [exact Hz|]. rewrite (po_fds _ _ _ (in_procs _ _ _ I k z Hz)).
  apply holds_write; [by eapply inner_forked|done].
Qed.

(** A reader that waits has a writer that has not ended. *)
Lemma waiting_writer k y : procs s !! S k = Some y -> at_ y <> C_close1 -> is_open s (k, true) ->
  exists z, procs s !! k = Some z /\ ended (at_ z) = false.
Proof using I.
  intros Hy Hc Ho. apply Exists_exists in Ho as (z & Hz & He). apply list_elem_of_lookup in Hz as [i Hi].
  pose proof (in_procs _ _ _ I i z Hi) as Hok. rewrite (po_fds _ _ _ Hok) in He.
  destruct (held_by k i (at_ z) (po_kind _ _ _ Hok) He) as [[<- ?]|[-> E]]; [by exists z|].
  rewrite Hy in Hi. injection Hi as <-. done.
Qed.

Lemma queue_lookup k : (k < length (pipes s))%nat -> pipes s !! k = Some (queue s k).
Proof. intros Hk. unfold queue. destruct (lookup_lt_is_Some_2 _ _ Hk) as [q ->]. done. Qed.

Lemma pipes_enough k : (k < n)%nat -> (k < length (pipes s))%nat.
Proof using I. intros Hk. rewrite (in_pipes _ _ _ I). destruct (piped (at_ x)); lia. Qed.

Lemma ended_stream k z : (k < n)%nat -> procs s !! k = Some z -> ended (at_ z) = true -> stream s k = queue s k.
Proof.
  intros Hk Hz He. unfold stream. replace (rest s k) with (@nil Z); [apply app_nil_r|].
  destruct k as [|k]; [rewrite (rest_0 s z Hz)|rewrite (rest_S s k z Hz)]; unfold rest_main, rest_stage; by destruct (at_ z).
Qed.

(** A write by a process that has not ended goes into the pipe. *)
Lemma write_run k z v : (k < n)%nat -> procs s !! k = Some z -> ended (at_ z) = false ->
  write s k v = Value (mkSys (procs s) (<[k := queue s k ++ [v]]> (pipes s)) (out s)).
Proof using I.
  intros Hk Hz He. unfold write. rewrite queue_lookup by by apply pipes_enough.
  destruct (proc_exists (S k) ltac:(lia)) as (y & Hy & Hok).
  rewrite decide_True.
  2: { eapply is_open_lookup; [exact Hy|]. rewrite (po_fds _ _ _ Hok). apply holds_read; [apply (po_kind _ _ _ Hok)|].
       destruct (after_eof (at_ y)) eqn:E; [|done]. pose proof (in_eof _ _ _ I k y z Hy Hz E). congruence. }
  rewrite decide_True; [done|]. pose proof (in_size _ _ _ I k Hk) as Hs. unfold stream in Hs. rewrite length_app in Hs.
  unfold PIPE_INTS. lia.
Qed.
End Facts.

(** What process [i] will still write, given its input. *)
Definition rest_of (i : nat) (y : proc) (s : sys) : list Z :=
  match i with O => rest_main y | S k => rest_stage y (stream s k) end.

Lemma rest_rest_of s i y : procs s !! i = Some y -> rest s i = rest_of i y s.
Proof. intros Hy. destruct i as [|k]; [by apply rest_0|by apply rest_S]. Qed.

(** A step that changes only the process itself. *)
Lemma inv_local s n x i y y' :
  inv s n x -> (i < n)%nat -> procs s !! i = Some y -> proc_ok i n y' ->
  (ended (at_ y) = true -> ended (at_ y') = true) ->
  (forall k z, i = S k -> procs s !! k = Some z -> after_eof (at_ y') = true -> ended (at_ z) = true) ->
  rest_of i y' s = rest_of i y s -> inv (set_proc i y' s) n x.
Proof.
  intros I Hi Hy Hok Hend Heof Hrest. eapply inv_inner; try done.
  unfold stream. f_equal. rewrite (rest_rest_of s i y Hy), <- Hrest.
  rewrite (rest_rest_of _ i y') by (simpl; rewrite list_lookup_insert_eq; [done|rewrite (in_length _ _ _ I); lia]).
  destruct i as [|k]; [done|]. simpl. f_equal. apply stream_below; [|done].
  intros j Hj. simpl. by rewrite list_lookup_insert_ne by lia.
Qed.

(** The new state of a process, its bookkeeping kept. *)
Lemma proc_ok_goto i n y y' :
  proc_ok i n y -> parent y' = parent y -> read_fd y' = read_fd y -> p y' = p y ->
  (if i then of_main else of_sieve) (at_ y') = true -> fds y' = shape i (at_ y') ->
  (piped (at_ y') = true -> piped (at_ y) = true) -> at_ y' <> C_close1 ->
  (if decide (i = n) then leading else forked) (at_ y') = true -> proc_ok i n y'.
Proof.
  intros [A1 A2 A3 A4 A5 A6 A7] Hp Hr Hpp Hk Hf Hpi Hc Hpl. split; try done.
  - by rewrite Hp.
  - destruct i; [done|]. by rewrite Hr.
  - intros E. rewrite Hpp. by apply A5, Hpi.
Qed.

Lemma inner_ne i n (c : pc) : (i < n)%nat -> (if decide (i = n) then leading else forked) c = forked c.
Proof. intros. by rewrite decide_False by lia. Qed.

(** Bookkeeping of a process at a known place ([E]), its descriptors ([Hfds]) known. *)
Ltac keep E Hfds :=
  first [ done | by rewrite E | by rewrite inner_ne | rewrite inner_ne by done; simpl; by rewrite E
        | simpl; rewrite Hfds; done | simpl; rewrite Hfds; rewrite E; done | simpl; by rewrite E ].

(** A local step; what is left is what depends on the step. *)
Ltac local_step i n y E Hfds :=
  eapply (inv_local _ _ _ i y);
  first [ eassumption | done | by rewrite E | solve [apply (proc_ok_goto i n y); keep E Hfds]
        | solve [unfold rest_of, rest_main, rest_stage; simpl; rewrite E; done]
        | solve [intros ? ? [=]] | idtac ].

(** ** The steps of main after its fork *)

Lemma step_main s n x y :
  inv s n x -> (0 < n)%nat -> procs s !! 0%nat = Some y ->
  step 0 s <> Bad /\ forall s', step 0 s = Value s' -> inv s' n x.
Proof.
  intros I Hn Hy. pose proof (in_procs _ _ _ I 0%nat y Hy) as Hok.
  pose proof (inner_forked s n x I 0%nat y Hn Hy) as Hfk. pose proof (po_kind _ _ _ Hok) as Hkind.
  pose proof (po_fds _ _ _ Hok) as Hfds. pose proof (po_p _ _ _ Hok) as Hp.
  unfold step. rewrite Hy. destruct (at_ y) eqn:E; try done; cbn [piped] in Hp;
    try (rewrite (Hp eq_refl); clear Hp).
  - (* close(p[0]) *)
    split; [done|]. intros s' Hs. injection Hs as <-. local_step 0%nat n y E Hfds.
  - (* the loop *)
    case_decide as Hle.
    + rewrite (write_run s n x I 0 y) by (done || by rewrite E). split; [done|]. intros s' Hs. injection Hs as <-.
      unfold set_proc. cbn [procs pipes out]. eapply (inv_inner s n x 0%nat y); first [eassumption|done|by rewrite E|idtac].
      * apply (proc_ok_goto 0 n y); keep E Hfds.
      * by rewrite length_insert.
      * intros k Hk. by rewrite list_lookup_insert_ne by lia.
      * lia.
      * unfold stream, queue. simpl.
        rewrite list_lookup_insert_eq by (apply (pipes_enough s n x I); lia).
        rewrite list_lookup_insert_eq by (rewrite (in_length _ _ _ I); lia). rewrite Hy. unfold rest_main. simpl. rewrite E.
        rewrite (zrange_cons (num y)) by lia. by rewrite <- app_assoc.
    + split; [done|]. intros s' Hs. injection Hs as <-. local_step 0%nat n y E Hfds.
      unfold rest_of, rest_main. simpl. rewrite E. by rewrite zrange_nil by lia.
  - (* close(p[1]) *)
    split; [done|]. intros s' Hs. injection Hs as <-. local_step 0%nat n y E Hfds.
  - (* wait *)
    split; [by case_decide|]. intros s' Hs. case_decide; [|done]. injection Hs as <-. local_step 0%nat n y E Hfds.
Qed.

(** ** The steps of a stage after its fork *)

Lemma read_run s k : (k < length (pipes s))%nat ->
  read s k = match queue s k with
             | v :: q => Value (v, mkSys (procs s) (<[k := q]> (pipes s)) (out s))
             | [] => if decide (is_open s (k, true)) then Wait else Eof
             end.
Proof. intros Hk. unfold read. rewrite (queue_lookup s) by done. by destruct (queue s k). Qed.

(** An integer taken from pipe [k] by process [S k]. *)
Lemma stream_read s k v q y' :
  queue s k = v :: q -> (k < length (pipes s))%nat ->
  stream s k = v :: stream (mkSys (<[S k := y']> (procs s)) (<[k := q]> (pipes s)) (out s)) k.
Proof.
  intros Hq Hk. unfold stream. rewrite Hq. unfold queue at 1. simpl. rewrite list_lookup_insert_eq by done. simpl.
  do 2 f_equal. symmetry. apply rest_ext.
  - intros j Hj. simpl. by rewrite list_lookup_insert_ne by lia.
  - intros j Hj. unfold queue. simpl. by rewrite list_lookup_insert_ne by lia.
Qed.

Lemma step_stage s n x k y :
  inv s n x -> (S k < n)%nat -> procs s !! S k = Some y ->
  step (S k) s <> Bad /\ forall s', step (S k) s = Value s' -> inv s' n x.
Proof.
  intros I Hn Hy. pose proof (in_procs _ _ _ I (S k) y Hy) as Hok.
  pose proof (inner_forked s n x I (S k) y Hn Hy) as Hfk. pose proof (po_kind _ _ _ Hok) as Hkind.
  pose proof (po_fds _ _ _ Hok) as Hfds. pose proof (po_p _ _ _ Hok) as Hp. pose proof (po_read _ _ _ Hok) as Hr.
  destruct (proc_exists s n x I k ltac:(lia)) as (z & Hz & Hokz).
  pose proof (in_eof _ _ _ I k y z Hy Hz) as Heof.
  pose proof (pipes_enough s n x I k ltac:(lia)) as Hkp.
  unfold step. rewrite Hy. destruct (at_ y) eqn:E; try done; cbn [piped] in Hp; cbn [after_eof] in Heof;
    try rewrite (Hp eq_refl); try rewrite Hr.
  - (* close(p[0]) *)
    split; [done|]. intros s' Hs. injection Hs as <-. local_step (S k) n y E Hfds.
    apply (proc_ok_goto (S k) n y); try keep E Hfds. simpl fds. rewrite Hfds. apply close_shape_r.
  - (* read *)
    rewrite read_run by done. destruct (queue s k) as [|v q] eqn:Hq.
    + case_decide as Ho; [done|]. split; [done|]. intros s' Hs. injection Hs as <-.
      pose proof (eof_ended s n x I k z ltac:(lia) Hz Ho) as Hend. local_step (S k) n y E Hfds.
      * intros k' z' [=<-] Hz' _. congruence.
      * unfold rest_of, rest_stage. simpl. rewrite E. rewrite (ended_stream s n k z) by (done || lia). by rewrite Hq.
    + split; [done|]. intros s' Hs. injection Hs as <-. unfold set_proc. cbn [procs pipes out].
      pose proof (stream_read s k v q (goto S_filter (set_num v y)) Hq Hkp) as Hst.
      eapply (inv_inner s n x (S k) y); first [eassumption|done|by rewrite E|idtac].
      * apply (proc_ok_goto (S k) n y); keep E Hfds.
      * by rewrite length_insert.
      * intros j Hj. by rewrite list_lookup_insert_ne by lia.
      * intros j Hj. by rewrite list_lookup_insert_ne by lia.
      * intros j [=<-]. rewrite list_lookup_insert_eq by done. rewrite Hq. simpl. lia.
      * unfold stream at 1. unfold stream at 1. f_equal.
        { unfold queue. simpl. by rewrite list_lookup_insert_ne by lia. }
        rewrite (rest_S s k y Hy), (rest_S _ k (goto S_filter (set_num v y))).
        2: { simpl. apply list_lookup_insert_eq. rewrite (in_length _ _ _ I). lia. }
        unfold rest_stage. simpl at_. rewrite E. rewrite Hst. done.
  - (* the test and the write *)
    case_decide as Hd.
    + rewrite (write_run s n x I (S k) y) by (done || by rewrite E). split; [done|]. intros s' Hs. injection Hs as <-.
      unfold set_proc. cbn [procs pipes out].
      eapply (inv_inner s n x (S k) y); first [eassumption|done|by rewrite E|idtac].
      * apply (proc_ok_goto (S k) n y); keep E Hfds.
      * by rewrite length_insert.
      * intros j Hj. by rewrite list_lookup_insert_ne by lia.
      * intros j Hj. by rewrite list_lookup_insert_ne by lia.
      * intros j [=<-]. rewrite list_lookup_insert_ne by lia. unfold queue. done.
      * unfold stream at 1. unfold queue at 1. simpl pipes.
        rewrite list_lookup_insert_eq by (apply (pipes_enough s n x I); lia).
        rewrite (rest_S _ k (goto S_loop y)) by (simpl; apply list_lookup_insert_eq; rewrite (in_length _ _ _ I); lia).
        unfold stream at 2. rewrite (rest_S s k y Hy). unfold rest_stage. simpl at_. rewrite E. simpl prime.
        rewrite filt_cons, decide_True by done. simpl. rewrite <- app_assoc. do 3 f_equal. apply stream_below.
        -- intros j Hj. simpl. by rewrite list_lookup_insert_ne by lia.
        -- intros j Hj. unfold queue. simpl. by rewrite list_lookup_insert_ne by lia.
    + split; [done|]. intros s' Hs. injection Hs as <-. local_step (S k) n y E Hfds.
      unfold rest_of, rest_stage. rewrite E. change (filt (prime y) (stream s k) = filt (prime y) (num y :: stream s k)).
      by rewrite filt_cons, decide_False by (intros Hx; by apply Hx).
  - (* close(read_fd) *)
    split; [done|]. intros s' Hs. injection Hs as <-. local_step (S k) n y E Hfds.
    + apply (proc_ok_goto (S k) n y); try keep E Hfds. simpl fds. rewrite Hfds. apply close_shape_in.
    + intros k' z' [=<-] Hz' _. rewrite Hz in Hz'. injection Hz' as <-. by apply Heof.
  - (* close(p[1]) *)
    split; [done|]. intros s' Hs. injection Hs as <-. local_step (S k) n y E Hfds.
    + apply (proc_ok_goto (S k) n y); try keep E Hfds. simpl fds. rewrite Hfds. apply close_shape_w.
    + intros k' z' [=<-] Hz' _. rewrite Hz in Hz'. injection Hz' as <-. by apply Heof.
  - (* wait *)
    split; [by case_decide|]. intros s' Hs. case_decide; [|done]. injection Hs as <-. local_step (S k) n y E Hfds.
    intros k' z' [=<-] Hz' _. rewrite Hz in Hz'. injection Hz' as <-. by apply Heof.
Qed.

(** ** The steps of the last process *)

Lemma inv_last s n x x' qs o (s' := mkSys (<[n := x']> (procs s)) qs o) :
  inv s n x -> proc_ok n n x' ->
  length qs = (if piped (at_ x') then S n else n) ->
  (piped (at_ x') = true -> default [] (qs !! n) = []) ->
  (forall k z, n = S k -> procs s !! k = Some z -> after_eof (at_ x') = true -> ended (at_ z) = true) ->
  (forall k, (S k < n)%nat -> qs !! k = pipes s !! k) ->
  (forall k, n = S k -> (length (default [] (qs !! k)) <= length (queue s k))%nat) ->
  o ++ future s' n x' = sieve numbers -> length o = printed n (at_ x') -> inv s' n x'.
Proof.
  intros [I1 I2 I3 I4 I5 I6 I7 I8 I9] Hok Hlen Hfresh Heof Hqb Hqp Hout Hpr.
  assert (n < length (procs s))%nat as Hn by lia. split; try done.
  - simpl. by apply list_lookup_insert_eq.
  - simpl. by rewrite length_insert.
  - intros j z Hz. simpl in Hz. destruct (decide (n = j)) as [<-|Hne].
    + rewrite list_lookup_insert_eq in Hz by done. by injection Hz as <-.
    + rewrite list_lookup_insert_ne in Hz by done. by apply I3.
  - intros k y1 z1 Hy1 Hz1 Ha. simpl in Hy1, Hz1.
    assert (k <> n) as Hkn.
    { intros ->. rewrite list_lookup_insert_ne in Hy1 by lia. apply lookup_lt_Some in Hy1. lia. }
    rewrite list_lookup_insert_ne in Hz1 by done. destruct (decide (n = S k)) as [->|Hne].
    + rewrite list_lookup_insert_eq in Hy1 by done. injection Hy1 as <-. by eapply Heof.
    + rewrite list_lookup_insert_ne in Hy1 by done. by eapply I5.
  - intros k Hk. etrans; [|apply (I7 k Hk)]. unfold stream. rewrite !length_app.
    assert (rest s' k = rest s k) as ->.
    { apply rest_ext; intros j Hj; [simpl; by rewrite list_lookup_insert_ne by lia|].
      unfold queue. simpl. by rewrite Hqb by lia. }
    assert (length (queue s' k) <= length (queue s k))%nat; [|lia].
    destruct (decide (n = S k)) as [E|Hne]; [by apply Hqp|]. unfold queue. simpl. by rewrite Hqb by lia.
Qed.

(** The input of the last process does not depend on the process. *)
Lemma last_input s n x x' o k :
  inv s n x -> n = S k -> stream (mkSys (<[n := x']> (procs s)) (pipes s) o) k = stream s k.
Proof.
  intros I ->. apply stream_below; [|done]. intros j Hj. simpl. by rewrite list_lookup_insert_ne by lia.
Qed.

Lemma last_proc s n x x' qs o :
  inv s n x -> procs (mkSys (<[n := x']> (procs s)) qs o) !! n = Some x'.
Proof. intros I. simpl. apply list_lookup_insert_eq. rewrite (in_length _ _ _ I). lia. Qed.

Lemma numbers_sieve_length : length (sieve numbers) = 11%nat.
Proof. reflexivity. Qed.

(** A new pipe, for the last process. *)
Lemma pipe_run s n x :
  inv s n x -> at_ x = M_pipe \/ at_ x = S_pipe ->
  pipe s x = Value (set_p n (set_fds (fds x ++ [(n, false); (n, true)]) x), mkSys (procs s) (pipes s ++ [[]]) (out s)).
Proof.
  intros I Hat. pose proof (in_procs _ _ _ I n x (in_last _ _ _ I)) as Hok. pose proof (po_kind _ _ _ Hok) as Hk.
  pose proof (in_pipes _ _ _ I) as Hl. pose proof (in_printed _ _ _ I) as Hpr.
  pose proof (in_out _ _ _ I) as Ho. apply (f_equal length) in Ho. rewrite length_app, numbers_sieve_length in Ho.
  assert (length (fds x) <= 11)%nat as Hfd.
  { rewrite (po_fds _ _ _ Hok). destruct Hat as [E|E]; rewrite E in *; simpl; [lia|]. cbn [printed] in Hpr.
    unfold reads. rewrite length_fmap, length_seq. lia. }
  unfold pipe, NOFILE. rewrite decide_True by lia.
  destruct Hat as [E|E]; rewrite E in Hl; cbn [piped] in Hl; by rewrite Hl.
Qed.

Lemma inv_fork s n x c' :
  inv s n x -> at_ x = M_fork /\ c' = M_close0 \/ at_ x = S_fork /\ c' = S_close0 ->
  inv (add_proc (child n x) (set_proc n (goto c' x) s)) (S n) (child n x).
Proof.
  intros I Hc. set (s' := add_proc _ _).
  pose proof (in_procs _ _ _ I n x (in_last _ _ _ I)) as Hok. pose proof (po_fds _ _ _ Hok) as Hfds.
  pose proof (po_kind _ _ _ Hok) as Hkind. pose proof (po_p _ _ _ Hok) as Hp.
  assert (piped (at_ x) = true /\ shape n (at_ x) = reads n ++ [(n, false); (n, true)] /\
    shape n c' = shape n (at_ x) /\ (if n then of_main else of_sieve) c' = true /\ forked c' = true /\ piped c' = true /\
    ended c' = false /\ after_eof c' = false /\ c' <> C_close1) as (Hpi & Hsh & Hsh' & Hk' & Hf' & Hp' & He' & Ha' & Hn').
  { destruct Hc as [[E ->]|[E ->]]; rewrite E in *; destruct n; try done; by split_and!. }
  destruct I as [I1 I2 I3 I4 I5 I6 I7 I8 I9]. specialize (Hp Hpi). specialize (I6 Hpi).
  assert (forall j, (j < n)%nat -> procs s' !! j = procs s !! j) as Hbelow.
  { intros j Hj. simpl. rewrite lookup_app_l by (rewrite length_insert; lia). by rewrite list_lookup_insert_ne by lia. }
  assert (procs s' !! n = Some (goto c' x)) as Hnn.
  { simpl. rewrite lookup_app_l by (rewrite length_insert; lia). apply list_lookup_insert_eq. lia. }
  assert (procs s' !! S n = Some (child n x)) as Hlast.
  { simpl. rewrite lookup_app_r by (rewrite length_insert; lia). rewrite length_insert, I2.
    replace (S n - S n)%nat with 0%nat by lia. done. }
  assert (forall k, (k < n)%nat -> stream s' k = stream s k) as Hsb.
  { intros k Hk. apply stream_below; [intros; apply Hbelow; lia|done]. }
  assert (stream s' n = rest s n) as Hstr.
  { unfold stream. change (queue s' n) with (queue s n). rewrite I6. simpl app.
    destruct n as [|k].
    - rewrite (rest_0 _ _ Hnn), (rest_0 _ _ I1). unfold rest_main. destruct Hc as [[E ->]|[E ->]]; by rewrite E.
    - rewrite (rest_S _ _ _ Hnn), (rest_S _ _ _ I1).
      rewrite Hsb by lia. unfold rest_stage. destruct Hc as [[E ->]|[E ->]]; by rewrite E. }
  split; try done.
  - simpl. rewrite length_app, length_insert, I2. simpl. lia.
  - intros j z Hz. destruct (decide (j < n)%nat) as [Hlt|Hge].
    + rewrite Hbelow in Hz by done. pose proof (I3 j z Hz) as [A1 A2 A3 A4 A5 A6 A7]. split; try done.
      rewrite decide_False in A7 by lia. by rewrite decide_False by lia.
    + destruct (decide (j = n)) as [->|Hne].
      * rewrite Hnn in Hz. injection Hz as <-. destruct Hok as [A1 A2 A3 A4 A5 A6 A7]. split; try done.
        -- simpl. rewrite A3. by rewrite <- Hsh'.
        -- by rewrite decide_False by lia.
      * assert (j = S n) as ->.
        { apply lookup_lt_Some in Hz. simpl in Hz. rewrite length_app, length_insert, I2 in Hz. simpl in Hz. lia. }
        rewrite Hlast in Hz. injection Hz as <-. split; try done.
        -- change (fds x = reads (S n) ++ [(n, true)]). by rewrite Hfds, Hsh, reads_S, <- app_assoc.
        -- by rewrite decide_True.
  - simpl. rewrite I4, Hpi. done.
  - intros k y z Hy Hz Ha. destruct (decide (k = n)) as [->|Hne].
    + rewrite Hlast in Hy. injection Hy as <-. done.
    + assert (S k <= n)%nat as Hk.
      { apply lookup_lt_Some in Hy. simpl in Hy. rewrite length_app, length_insert, I2 in Hy. simpl in Hy. lia. }
      rewrite Hbelow in Hz by lia. destruct (decide (S k = n)) as [<-|Hne'].
      * rewrite Hnn in Hy. injection Hy as <-. simpl in Ha. congruence.
      * rewrite Hbelow in Hy by lia. by eapply I5.
  - intros k Hk. destruct (decide (k = n)) as [->|Hne].
    + rewrite Hstr. destruct n as [|k].
      * rewrite (rest_0 _ _ I1). unfold rest_main. destruct Hc as [[E _]|[E _]]; rewrite E; vm_compute; lia.
      * rewrite (rest_S _ _ _ I1). unfold rest_stage.
        destruct Hc as [[E _]|[E _]]; rewrite E; [simpl; lia|]. etrans; [apply filt_length|apply I7; lia].
    + rewrite Hsb by lia. apply I7. lia.
  - rewrite <- I8. change (out s') with (out s). f_equal. unfold future. simpl at_. cbn [pred]. rewrite Hstr.
    destruct Hc as [[E _]|[E _]]; by rewrite E.
  - change (out s') with (out s). rewrite I9. simpl. destruct Hc as [[E _]|[E _]]; rewrite E; [|done].
    rewrite E in Hkind. by destruct n.
Qed.

(** The last process moves on without a fork. *)
Ltac last_ok n x E Hfds := apply (proc_ok_goto n n x); try keep E Hfds; try (by rewrite decide_True).

Lemma step_pipe s n x c' (x' := goto c' (set_p n (set_fds (fds x ++ [(n, false); (n, true)]) x))) :
  inv s n x -> at_ x = M_pipe /\ c' = M_fork \/ at_ x = S_pipe /\ c' = S_fork ->
  inv (mkSys (<[n := x']> (procs s)) (pipes s ++ [[]]) (out s)) n x'.
Proof.
  intros I Hc. set (s' := mkSys _ _ _).
  pose proof (in_procs _ _ _ I n x (in_last _ _ _ I)) as Hok. pose proof (po_kind _ _ _ Hok) as Hkind.
  pose proof (in_last _ _ _ I) as Hx. pose proof (in_pipes _ _ _ I) as Hl.
  assert (length (pipes s) = n) as Hlen by (destruct Hc as [[E _]|[E _]]; by rewrite E in Hl).
  assert (rest s' n = rest s n) as Hrest.
  { pose proof (last_proc s n x x' (pipes s ++ [[]]) (out s) I) as Hx'. fold s' in Hx'. destruct n as [|k].
    - rewrite (rest_0 _ _ Hx'), (rest_0 _ _ Hx). unfold rest_main. destruct Hc as [[E ->]|[E ->]]; by rewrite E.
    - rewrite (rest_S _ _ _ Hx'), (rest_S _ _ _ Hx). rewrite (stream_below s s' k).
      + unfold rest_stage. destruct Hc as [[E ->]|[E ->]]; by rewrite E.
      + intros j Hj. simpl. by rewrite list_lookup_insert_ne by lia.
      + intros j Hj. unfold queue. simpl. by rewrite lookup_app_l by lia. }
  apply (inv_last s n x); try done.
  - destruct Hok as [A1 A2 A3 A4 A5 A6 A7]. split; try done.
    + destruct Hc as [[E ->]|[E ->]]; rewrite E in Hkind; by destruct n.
    + simpl. rewrite A3. destruct Hc as [[E ->]|[E ->]]; rewrite E; [|done]. rewrite E in Hkind. by destruct n.
    + destruct Hc as [[E ->]|[E ->]]; done.
    + rewrite decide_True by done. by destruct Hc as [[E ->]|[E ->]].
  - rewrite length_app, Hlen. simpl. destruct Hc as [[_ ->]|[_ ->]]; simpl; lia.
  - intros _. rewrite lookup_app_r by lia. by rewrite Hlen, Nat.sub_diag.
  - intros k z -> Hz. by destruct Hc as [[_ ->]|[_ ->]].
  - intros k Hk. by rewrite lookup_app_l by lia.
  - intros k ->. unfold queue. by rewrite lookup_app_l by lia.
  - rewrite <- (in_out _ _ _ I). f_equal. unfold future. fold s'. rewrite Hrest. by destruct Hc as [[E ->]|[E ->]]; rewrite E.
  - rewrite (in_printed _ _ _ I). by destruct Hc as [[E ->]|[E ->]]; rewrite E.
Qed.

Lemma step_last s n x :
  inv s n x -> step n s <> Bad /\ forall s', step n s = Value s' -> exists n' x', inv s' n' x'.
Proof.
  intros I. pose proof (in_last _ _ _ I) as Hx. pose proof (in_procs _ _ _ I n x Hx) as Hok.
  pose proof (po_kind _ _ _ Hok) as Hkind. pose proof (po_fds _ _ _ Hok) as Hfds.
  pose proof (po_place _ _ _ Hok) as Hpl. rewrite decide_True in Hpl by done.
  pose proof (in_pipes _ _ _ I) as Hl. pose proof (in_out _ _ _ I) as Ho. pose proof (in_printed _ _ _ I) as Hpr.
  unfold step. rewrite Hx. destruct (at_ x) eqn:E; try done; cbn [piped] in Hl; unfold future in Ho; rewrite E in Ho.
  - rewrite (pipe_run s n x) by auto. split; [done|]. intros s' Hs. injection Hs as <-. eexists n, _.
    apply (step_pipe s n x M_fork); auto.
  - split; [done|]. intros s' Hs. injection Hs as <-. eexists _, _. apply inv_fork; auto.
  - (* the child closes p[1] *)
    destruct n as [|k]; [done|]. pose proof (po_child _ _ _ Hok E) as Hp. simpl in Hp. rewrite Hp.
    split; [done|]. intros s' Hs. injection Hs as <-. eexists (S k), _. unfold set_proc.
    apply (inv_last s (S k) x); try done.
    + destruct Hok as [A1 A2 A3 A4 A5 A6 A7]. split; try done; [|by rewrite decide_True].
      simpl fds. rewrite Hfds. apply close_shape_w.
    + rewrite <- Ho. f_equal. unfold future. cbn [at_ goto pred]. by rewrite (last_input s (S k) x).
  - (* read *)
    destruct n as [|k]; [done|]. pose proof (po_read _ _ _ Hok) as Hr. simpl in Hr. rewrite Hr.
    destruct (proc_exists s (S k) x I k ltac:(lia)) as (z & Hz & Hokz).
    assert (k < length (pipes s))%nat as Hk by lia. cbn [pred] in Ho.
    rewrite read_run by done. destruct (queue s k) as [|v q] eqn:Hq.
    + case_decide as Hop; [done|]. split; [done|]. intros s' Hs. injection Hs as <-. eexists (S k), _. unfold set_proc.
      pose proof (eof_ended s (S k) x I k z ltac:(lia) Hz Hop) as Hend.
      rewrite (ended_stream s (S k) k z), Hq in Ho by (done || lia).
      apply (inv_last s (S k) x); try done.
      * last_ok (S k) x E Hfds.
      * intros k' z' [=<-] Hz' _. congruence.
    + split; [done|]. intros s' Hs. injection Hs as <-. eexists (S k), _. unfold set_proc. cbn [procs pipes out].
      pose proof (stream_read s k v q (goto S_print (set_prime v x)) Hq Hk) as Hst.
      apply (inv_last s (S k) x); try done.
      * last_ok (S k) x E Hfds.
      * by rewrite length_insert.
      * intros j Hj. by rewrite list_lookup_insert_ne by lia.
      * intros j [=<-]. rewrite list_lookup_insert_eq by done. rewrite Hq. simpl. lia.
      * rewrite <- Ho, Hst, sieve_cons. f_equal. unfold future. cbn [at_ goto].
        by rewrite (rest_S _ k (goto S_print (set_prime v x))) by (eapply (last_proc s (S k)); exact I).
  - (* close(read_fd) and exit *)
    destruct n as [|k]; [done|]. split; [done|]. intros s' Hs. injection Hs as <-. eexists (S k), _. unfold set_proc.
    apply (inv_last s (S k) x); try done.
    + last_ok (S k) x E Hfds.
    + intros k' z [=<-] Hz _. eapply (in_eof _ _ _ I); [exact Hx|exact Hz|by rewrite E].
  - (* print *)
    destruct n as [|k]; [done|]. split; [done|]. intros s' Hs. injection Hs as <-. eexists (S k), _. unfold set_proc.
    cbn [procs pipes out]. apply (inv_last s (S k) x); try done.
    + last_ok (S k) x E Hfds.
    + rewrite <- Ho, <- app_assoc. f_equal. cbn [app]. f_equal. unfold future. cbn [at_ goto].
      rewrite (rest_S _ k (goto S_pipe x)) by (eapply (last_proc s (S k)); exact I).
      rewrite (rest_S _ k x Hx). rewrite (last_input s (S k) x) by done. unfold rest_stage. by rewrite E.
    + rewrite length_app, Hpr. simpl. lia.
  - rewrite (pipe_run s n x) by auto. split; [done|]. intros s' Hs. injection Hs as <-. eexists n, _.
    apply (step_pipe s n x S_fork); auto.
  - split; [done|]. intros s' Hs. injection Hs as <-. eexists _, _. apply inv_fork; auto.
Qed.
