(* ===== verification/PrimesProps.v ===== *)
(** * The runs of the pipeline

    Every interleaving of the processes of primes.c ends, after a bounded number of
    calls, with the primes printed in order and every process gone. *)

From Stdlib Require Import ZArith Lia.
From stdpp Require Import base numbers list gmap strings.
From S2P Require Import Prelude Primes PrimesSpec.
Open Scope Z_scope.

(** ** Every step keeps the invariant *)

Lemma inv_step s n x i :
  inv s n x -> (i <= n)%nat -> step i s <> Bad /\ forall s', step i s = Value s' -> exists n' x', inv s' n' x'.
Proof.
  intros I Hi. destruct (decide (i = n)) as [->|Hne]; [by apply (step_last s n x)|].
  destruct (proc_exists s n x I i Hi) as (y & Hy & _).
  destruct i as [|k]; [destruct (step_main s n x y I) as [Hb Hs]|destruct (step_stage s n x k y I) as [Hb Hs]];
    try done; try lia; (split; [done|]); intros s' Hv; exists n, x; by apply Hs.
Qed.

Lemma step_bounded s n x i s' : inv s n x -> step i s = Value s' -> (i <= n)%nat.
Proof.
  intros I Hs. unfold step in Hs. destruct (procs s !! i) eqn:E; [|done].
  apply lookup_lt_Some in E. rewrite (in_length _ _ _ I) in E. lia.
Qed.

Lemma inv_runs m s : runs m start s -> exists n x, inv s n x.
Proof.
  remember start as s0. induction 1 as [|m i s0 s s' Hr IH Hs]; subst.
  - eexists _, _. apply inv_start.
  - destruct (IH eq_refl) as (n & x & I). pose proof (step_bounded s n x i s' I Hs).
    by apply (inv_step s n x i I).
Qed.

(** There are never more than thirteen processes. *)
Lemma inv_count s n x : inv s n x -> (n <= 12)%nat /\ (at_ x = M_fork \/ at_ x = S_fork -> (n <= 11)%nat).
Proof.
  intros I. pose proof (in_printed _ _ _ I) as Hp. pose proof (in_out _ _ _ I) as Ho.
  apply (f_equal length) in Ho. rewrite length_app, numbers_sieve_length in Ho.
  pose proof (po_kind _ _ _ (in_procs _ _ _ I n x (in_last _ _ _ I))) as Hk. split.
  - destruct (at_ x); simpl in *; destruct n; try done; lia.
  - intros [E|E]; rewrite E in *; simpl in *; destruct n; try done; lia.
Qed.

(** ** Some process can move *)

Definition moves (s : sys) : Prop := exists i s', step i s = Value s'.

(** A process that has not closed its output moves, or waits for the one before it. *)
Lemma step_waits s n x k y :
  inv s n x -> procs s !! k = Some y -> ended (at_ y) = false ->
  (exists s', step k s = Value s') \/ (exists k', k = S k' /\ at_ y <> C_close1 /\ is_open s (k', true)).
Proof.
  intros I Hy He.
  assert (k <= n)%nat as Hk by (apply lookup_lt_Some in Hy; rewrite (in_length _ _ _ I) in Hy; lia).
  pose proof (in_procs _ _ _ I k y Hy) as Hok. pose proof (po_read _ _ _ Hok) as Hr.
  pose proof (po_kind _ _ _ Hok) as Hkind. pose proof (po_p _ _ _ Hok) as Hp. pose proof (po_place _ _ _ Hok) as Hpl.
  assert (leading (at_ y) = false -> (k < n)%nat) as Hinner by (intros E; case_decide; [congruence|lia]).
  assert (forked (at_ y) = false -> k = n) as Hlast by (intros E; case_decide; [done|congruence]).
  clear Hpl. unfold step. rewrite Hy. destruct (at_ y) eqn:E; try done; try (left; by eexists); cbn [piped] in Hp.
  - pose proof (Hlast eq_refl) as ->. pose proof (in_last _ _ _ I) as Hx. rewrite Hy in Hx. injection Hx as <-.
    rewrite (pipe_run s n y) by auto. left; by eexists.
  - case_decide; [|left; by eexists]. rewrite (Hp eq_refl), (write_run s n x I k y); [left; by eexists|by apply Hinner|done|by rewrite E].
  - destruct k as [|k]; [done|]. rewrite Hr, read_run by (apply (pipes_enough s n x I); lia).
    destruct (queue s k); [|left; by eexists]. case_decide; [right; by exists k|left; by eexists].
  - pose proof (Hlast eq_refl) as ->. pose proof (in_last _ _ _ I) as Hx. rewrite Hy in Hx. injection Hx as <-.
    rewrite (pipe_run s n y) by auto. left; by eexists.
  - destruct k as [|k]; [done|]. rewrite Hr, read_run by (apply (pipes_enough s n x I); lia).
    destruct (queue s k); [|left; by eexists]. case_decide; [right; by exists k|left; by eexists].
  - case_decide; [|left; by eexists]. rewrite (Hp eq_refl), (write_run s n x I k y); [left; by eexists|by apply Hinner|done|by rewrite E].
Qed.

Lemma unended_moves s n x k y : inv s n x -> procs s !! k = Some y -> ended (at_ y) = false -> moves s.
Proof.
  intros I. revert y. induction k as [k IH] using lt_wf_ind. intros y Hy He.
  destruct (step_waits s n x k y I Hy He) as [[s' Hs]|(k' & -> & Hc & Ho)]; [by exists k, s'|].
  destruct (waiting_writer s n x I k' y Hy Hc Ho) as (z & Hz & Hez). apply (IH k' ltac:(lia) z Hz Hez).
Qed.

(** A process that waits for its child moves when the child has gone. *)
Lemma waiting_moves s n x k y :
  inv s n x -> procs s !! k = Some y -> ended (at_ y) = true ->
  (forall z, procs s !! S k = Some z -> at_ z = Exited) -> at_ y = Exited \/ moves s.
Proof.
  intros I Hy He Hch. destruct (decide (at_ y = Exited)) as [|Hne]; [by left|right].
  pose proof (in_procs _ _ _ I k y Hy) as Hok. pose proof (po_place _ _ _ Hok) as Hpl.
  assert (k < n)%nat as Hk.
  { assert (k <= n)%nat by (apply lookup_lt_Some in Hy; rewrite (in_length _ _ _ I) in Hy; lia).
    case_decide; [|lia]. destruct (at_ y); done. }
  destruct (proc_exists s n x I (S k) ltac:(lia)) as (z & Hz & Hokz).
  assert (Exists (fun y => parent y = Some k /\ at_ y = Exited) (procs s)) as Hex.
  { apply Exists_exists. exists z. split; [by apply list_elem_of_lookup_2 in Hz|].
    split; [apply (po_parent _ _ _ Hokz)|by apply Hch]. }
  exists k. unfold step. rewrite Hy. destruct (at_ y); try done; rewrite decide_True by exact Hex; by eexists.
Qed.

Lemma progress s n x : inv s n x -> moves s \/ forall i y, procs s !! i = Some y -> at_ y = Exited.
Proof.
  intros I.
  assert (forall m, (m <= S n)%nat -> moves s \/ forall i y, (S n - m <= i)%nat -> procs s !! i = Some y -> at_ y = Exited) as H.
  { induction m as [|m IH]; intros Hm.
    - right. intros i y Hi Hy. apply lookup_lt_Some in Hy. rewrite (in_length _ _ _ I) in Hy. lia.
    - destruct IH as [|IH]; [lia|by left|]. destruct (proc_exists s n x I (n - m) ltac:(lia)) as (y & Hy & _).
      destruct (ended (at_ y)) eqn:He; [|left; by eapply unended_moves].
      destruct (waiting_moves s n x (n - m) y I Hy He) as [Hex|]; [intros z Hz; apply (IH (S (n - m)) z); [lia|done]| |by left].
      right. intros i z Hi Hz. destruct (decide (i = n - m)%nat) as [->|Hne]; [congruence|]. apply (IH i z); [lia|done]. }
  destruct (H (S n) (le_n _)) as [|Hall]; [by left|right]. intros i y. apply Hall. lia.
Qed.

(** ** The work left *)

(** Of an integer in pipe [k], and of a process. *)
Definition weight (k : nat) : Z := 2 * (20 - Z.of_nat k).
Definition rank (y : proc) : Z :=
  match at_ y with
  | M_pipe => 5 + 34 * (weight 0 + 1) + 3 | M_fork => 5 + 34 * (weight 0 + 1) + 2
  | M_close0 => 5 + 34 * (weight 0 + 1) + 1
  | M_write => 5 + Z.max 0 (LAST + 1 - num y) * (weight 0 + 1) | M_close1 => 4 | M_wait => 3
  | C_close1 => 14 | S_read => 13 | S_close_eof => 1 | S_print => 12 | S_pipe => 11 | S_fork => 10 | S_close0 => 9
  | S_loop => 8 | S_filter => 9 + weight (p y) | S_close_rd => 7 | S_close1 => 6 | S_wait => 5
  | Exited => 0
  end.
Definition ranks (l : list proc) : Z := foldr (fun y z => rank y + z) 0 l.
Fixpoint weights (k : nat) (qs : list (list Z)) : Z :=
  match qs with [] => 0 | q :: rest => Z.of_nat (length q) * weight k + weights (S k) rest end.
Definition work (s : sys) : Z :=
  ranks (procs s) + weights 0 (pipes s) + 40 * (13 - Z.of_nat (length (procs s))).

Lemma ranks_insert l i y y' : l !! i = Some y -> ranks (<[i := y']> l) = ranks l - rank y + rank y'.
Proof.
  revert i. induction l as [|z l IH]; intros [|i] Hy; simplify_eq/=; [lia|]. rewrite (IH i Hy). lia.
Qed.
Lemma ranks_app l y : ranks (l ++ [y]) = ranks l + rank y.
Proof. induction l as [|z l IH]; simpl; [lia|]. unfold ranks in *. simpl. lia. Qed.
Lemma weights_insert k qs i q q' :
  qs !! i = Some q ->
  weights k (<[i := q']> qs) = weights k qs + (Z.of_nat (length q') - Z.of_nat (length q)) * weight (k + i).
Proof.
  revert k i. induction qs as [|z qs IH]; intros k [|i] Hq; simplify_eq/=.
  - rewrite Nat.add_0_r. lia.
  - rewrite (IH (S k) i Hq). replace (S k + i)%nat with (k + S i)%nat by lia. lia.
Qed.
Lemma weights_app k qs : weights k (qs ++ [[]]) = weights k qs.
Proof. revert k. induction qs as [|q qs IH]; intros k; simpl; [lia|]. by rewrite IH. Qed.

Lemma read_value s j v s' : read s j = Value (v, s') ->
  exists q, pipes s !! j = Some (v :: q) /\ s' = mkSys (procs s) (<[j := q]> (pipes s)) (out s).
Proof.
  unfold read. destruct (pipes s !! j) as [[|w q]|]; [by case_decide| |done]. intros [= -> <-]. by exists q.
Qed.
Lemma write_value s j v s' : write s j v = Value s' -> procs s' = procs s /\ weights 0 (pipes s') <= weights 0 (pipes s) + Z.max 0 (weight j).
Proof.
  unfold write. destruct (pipes s !! j) as [q|] eqn:E; [|done]. case_decide; [case_decide; [|done]|].
  - intros [= <-]. split; [done|]. simpl. rewrite (weights_insert 0 _ j q _ E), length_app. simpl. lia.
  - intros [= <-]. split; [done|]. lia.
Qed.

Lemma work_set s l i y y' :
  procs l = procs s -> procs s !! i = Some y -> work (set_proc i y' l) = work l - rank y + rank y'.
Proof.
  intros Hl Hy. unfold work, set_proc. simpl. rewrite length_insert, (ranks_insert _ i y) by by rewrite Hl. lia.
Qed.
Lemma work_fork s i y c' :
  procs s !! i = Some y -> work (add_proc (child i y) (set_proc i (goto c' y) s)) = work s - rank y + rank (goto c' y) - 26.
Proof.
  intros Hy. unfold work, add_proc, set_proc. cbn [procs pipes]. rewrite ranks_app, length_app, length_insert.
  rewrite (ranks_insert _ i y) by done. change (rank (child i y)) with 14. simpl length. lia.
Qed.
Lemma work_pipe s y y' s' : pipe s y = Value (y', s') ->
  procs s' = procs s /\ work s' = work s /\ exists j l, y' = set_p j (set_fds l y).
Proof.
  unfold pipe. case_decide; [|done]. intros [= <- <-]. split; [done|]. split; [|by eexists _, _].
  unfold work. cbn [procs pipes]. by rewrite weights_app.
Qed.
Lemma work_read s j v s' : read s j = Value (v, s') -> procs s' = procs s /\ work s' = work s - weight j.
Proof.
  intros (q & Hq & ->)%read_value. split; [done|]. unfold work. cbn [procs pipes].
  rewrite (weights_insert 0 _ j _ q Hq). cbn [length Nat.add]. lia.
Qed.
Lemma work_write s j v s' : write s j v = Value s' -> procs s' = procs s /\ work s' <= work s + Z.max 0 (weight j).
Proof. intros [Hp Hw]%write_value. split; [done|]. unfold work. rewrite Hp. lia. Qed.

Lemma work_step s n x i s' : inv s n x -> step i s = Value s' -> work s' < work s.
Proof.
  intros I Hs. pose proof (step_bounded s n x i s' I Hs) as Hi. destruct (inv_count s n x I) as [Hn _].
  destruct (proc_exists s n x I i Hi) as (y & Hy & Hok). pose proof (po_read _ _ _ Hok) as Hr.
  pose proof (po_kind _ _ _ Hok) as Hkind. pose proof (po_p _ _ _ Hok) as Hp.
  unfold step in Hs. rewrite Hy in Hs.
  assert (forall l y', procs l = procs s -> Value (set_proc i y' l) = Value s' ->
    work l + rank y' < work s + rank y -> work s' < work s) as Hset.
  { intros l y' Hl [= <-] Hlt. rewrite (work_set s l i y) by done. lia. }
  destruct (at_ y) eqn:E; cbn [piped] in Hp;
    try (eapply (Hset s); [done|exact Hs|]; unfold rank; simpl; rewrite E; unfold weight, LAST; lia).
  - destruct (pipe s y) as [[y' s1]| | |] eqn:Ep; try done. destruct (work_pipe _ _ _ _ Ep) as (Hq & Hw & j & l & ->).
    apply (Hset s1 _ Hq Hs). rewrite Hw. unfold rank. rewrite E. simpl. lia.
  - injection Hs as <-. rewrite work_fork by done. unfold rank. rewrite E. simpl. lia.
  - case_decide as Hle; [|eapply (Hset s); [done|exact Hs|]; unfold rank; rewrite E; simpl; unfold weight, LAST; lia].
    rewrite (Hp eq_refl) in Hs. destruct i; [|done]. destruct (write s 0 (num y)) as [s1| | |] eqn:Ew; try done.
    destruct (work_write _ _ _ _ Ew) as [Hq Hw]. apply (Hset s1 _ Hq Hs). unfold rank. cbn [at_ set_num num]. rewrite E.
    unfold weight, LAST in *. lia.
  - case_decide; [|done]. eapply (Hset s); [done|exact Hs|]. unfold rank. rewrite E. simpl. lia.
  - destruct i as [|k]; [done|]. rewrite Hr in Hs. destruct (read s k) as [[v s1]| | |] eqn:Er; try done.
    + destruct (work_read _ _ _ _ Er) as [Hq Hw]. apply (Hset s1 _ Hq Hs). unfold rank. rewrite E. simpl. unfold weight in *. lia.
    + eapply (Hset s); [done|exact Hs|]. unfold rank. rewrite E. simpl. lia.
  - eapply (Hset (mkSys (procs s) (pipes s) (out s ++ [prime y]))); [done|exact Hs|]. unfold rank. rewrite E.
    unfold work. simpl. lia.
  - destruct (pipe s y) as [[y' s1]| | |] eqn:Ep; try done. destruct (work_pipe _ _ _ _ Ep) as (Hq & Hw & j & l & ->).
    apply (Hset s1 _ Hq Hs). rewrite Hw. unfold rank. rewrite E. simpl. lia.
  - injection Hs as <-. rewrite work_fork by done. unfold rank. rewrite E. simpl. lia.
  - destruct i as [|k]; [done|]. rewrite Hr in Hs. destruct (read s k) as [[v s1]| | |] eqn:Er; try done.
    + destruct (work_read _ _ _ _ Er) as [Hq Hw]. apply (Hset s1 _ Hq Hs). unfold rank. rewrite E. simpl.
      rewrite (Hp eq_refl). unfold weight in *. lia.
    + eapply (Hset s); [done|exact Hs|]. unfold rank. rewrite E. simpl. lia.
  - case_decide; [|eapply (Hset s); [done|exact Hs|]; unfold rank; rewrite E; simpl; rewrite (Hp eq_refl); unfold weight; lia].
    rewrite (Hp eq_refl) in Hs. destruct (write s i (num y)) as [s1| | |] eqn:Ew; try done.
    destruct (work_write _ _ _ _ Ew) as [Hq Hw]. apply (Hset s1 _ Hq Hs). unfold rank. rewrite E. simpl.
    rewrite (Hp eq_refl). unfold weight in *. lia.
  - case_decide; [|done]. eapply (Hset s); [done|exact Hs|]. unfold rank. rewrite E. simpl. lia.
  - done.
Qed.

Lemma weights_nonneg k qs : (k + length qs <= 20)%nat -> 0 <= weights k qs.
Proof.
  revert k. induction qs as [|q qs IH]; intros k Hk; simpl in *; [done|].
  pose proof (IH (S k) ltac:(lia)). unfold weight. nia.
Qed.
Lemma ranks_nonneg l : (forall y, y ∈ l -> 0 <= rank y) -> 0 <= ranks l.
Proof.
  induction l as [|y l IH]; intros Hy; simpl; [done|]. pose proof (Hy y ltac:(left)).
  assert (0 <= ranks l) by (apply IH; intros z Hz; apply Hy; by right). unfold ranks in *. lia.
Qed.

Lemma work_nonneg s n x : inv s n x -> 0 <= work s.
Proof.
  intros I. destruct (inv_count s n x I) as [Hn _]. unfold work. rewrite (in_length _ _ _ I).
  assert (0 <= weights 0 (pipes s)) by (apply weights_nonneg; rewrite (in_pipes _ _ _ I); destruct piped; lia).
  assert (0 <= ranks (procs s)); [|lia]. apply ranks_nonneg. intros y [i Hy]%list_elem_of_lookup.
  pose proof (po_p _ _ _ (in_procs _ _ _ I i y Hy)) as Hp. apply lookup_lt_Some in Hy. rewrite (in_length _ _ _ I) in Hy.
  unfold rank, weight. destruct (at_ y); try lia. rewrite (Hp eq_refl). lia.
Qed.

Lemma work_runs m s : runs m start s -> Z.of_nat m + work s <= work start.
Proof.
  remember start as s0. induction 1 as [|m i s0 s s' Hr IH Hs]; [lia|]. subst. specialize (IH eq_refl).
  destruct (inv_runs m s Hr) as (n & x & I). pose proof (work_step s n x i s' I Hs). lia.
Qed.

(** ** The descriptors that are open *)

Lemma shape_length i c : (i <= 12)%nat -> (length (shape i c) <= 14)%nat.
Proof.
  intros Hi. destruct c; cbn [shape]; unfold reads; rewrite ?length_app, ?length_fmap, ?length_seq; simpl; lia.
Qed.

Lemma fds_bound s n x i y : inv s n x -> procs s !! i = Some y -> (3 + length (fds y) <= NOFILE)%nat.
Proof.
  intros I Hy. pose proof (in_procs _ _ _ I i y Hy) as Hok. destruct (inv_count s n x I) as [Hn Hf].
  pose proof (in_printed _ _ _ I) as Hpr. pose proof (in_out _ _ _ I) as Ho.
  apply (f_equal length) in Ho. rewrite length_app, numbers_sieve_length in Ho.
  assert (i <= n)%nat as Hi by (apply lookup_lt_Some in Hy; rewrite (in_length _ _ _ I) in Hy; lia).
  assert (piped (at_ y) = true -> (i <= 11)%nat) as H11.
  { intros Hpi. destruct (decide (i = n)) as [->|]; [|lia]. pose proof (in_last _ _ _ I) as Hx.
    assert (x = y) as -> by congruence. pose proof (po_place _ _ _ Hok) as Hpl. rewrite decide_True in Hpl by done.
    apply Hf. destruct (at_ y); try done; auto. }
  unfold NOFILE. rewrite (po_fds _ _ _ Hok).
  destruct (at_ y); cbn [shape piped] in *; unfold reads; rewrite ?length_app, ?length_fmap, ?length_seq;
    simpl; try (specialize (H11 eq_refl)); lia.
Qed.

(** ** What is printed *)

Definition is_prime (v : Z) : bool := forallb (fun d => negb (Z.rem v d =? 0)) (zrange 2 v).
Definition primes : list Z := filter (fun v => is_prime v) numbers.

Lemma is_prime_spec v : 2 <= v -> is_prime v = true <-> Znumtheory.prime v.
Proof.
  intros Hv. unfold is_prime. rewrite <- Znumtheory.prime_alt, forallb_forall. unfold Znumtheory.prime'. split.
  - intros Hd. split; [lia|]. intros d Hlt Hdiv.
    assert (In d (zrange 2 v)) as Hin by (apply list_elem_of_In, elem_of_zrange; lia).
    specialize (Hd d Hin). apply negb_true_iff, Z.eqb_neq in Hd. apply Hd. apply Z.rem_divide; [lia|done].
  - intros [_ Hd] d Hin. apply list_elem_of_In, elem_of_zrange in Hin. apply negb_true_iff, Z.eqb_neq.
    intros E. apply (Hd d ltac:(lia)). apply Z.rem_divide; [lia|done].
Qed.

Lemma sieve_primes : sieve numbers = primes.
Proof. vm_compute. reflexivity. Qed.


