(* ===== verification/Find.v ===== *)
(** * user/find.c: the search of a directory tree

    Paths and names are lists of characters, without their NUL.  The file system is
    what open, fstat and read make of it: for each path the file it leads to, with its
    entries.  Each activation of find keeps a descriptor open and a frame on the stack
    of the process; buf is kept as its bytes, those not yet written as [None]. *)

From Stdlib Require Import ZArith Lia.
From stdpp Require Import base numbers list gmap strings.
From S2P Require Import Prelude.
Open Scope Z_scope.

Definition NOFILE : nat := 16.
Definition MAXPATH : nat := 128.
Definition DIRSIZ : nat := 14.
Definition BUFSIZE : nat := 512.       (* sizeof(buf) *)
Definition T_DIR : Z := 1.
Definition T_FILE : Z := 2.
Definition SLASH : Z := 47.
Definition DOT : list Z := [46].
Definition DOTDOT : list Z := [46; 46].

Record dirent : Type := mkDirent { inum : Z; name : list Z }.
(** What a path leads to: the type fstat reports ([None] when it fails), and the
    entries that reading a directory delivers. *)
Record file : Type := mkFile { stat : option Z; entries : list dirent }.

Inductive line : Type :=
| Found (path : list Z)
| CannotOpen (path : list Z)
| CannotStat (path : list Z)
| Usage.

(** The descriptors in use, the bytes of stack left and what has been printed. *)
Record st : Type := mkSt { nopen : nat; sp : Z; out : list line }.

Definition print (l : line) : M st unit := modify (fun s => mkSt (nopen s) (sp s) (out s ++ [l])).

(** ** Strings and the path buffer *)

(** The characters of an array up to its first NUL. *)
Fixpoint upto_nul (l : list Z) : list Z :=
  match l with
  | [] => []
  | c :: l' => if decide (c = 0) then [] else c :: upto_nul l'
  end.
Definition cname (de : dirent) : list Z := upto_nul (name de).

(** The string in buf, which has to end before the buffer and before unset bytes. *)
Fixpoint cstr (buf : list (option Z)) : option (list Z) :=
  match buf with
  | Some c :: buf' => if decide (c = 0) then Some [] else l ← cstr buf'; Some (c :: l)
  | _ => None
  end.

(** Bytes stored into buf from [p] on. *)
Definition store (p : nat) (bs : list Z) (buf : list (option Z)) : option (list (option Z)) :=
  if decide (p + length bs <= length buf)%nat then Some (take p buf ++ (Some <$> bs) ++ drop (p + length bs) buf)
  else None.

(** The file name: what follows the last slash before [i]. *)
Fixpoint filename_loop (path : list Z) (i : nat) : list Z :=
  match i with
  | O => path
  | S i' => if decide (path !! i' = Some SLASH) then drop (S i') path else filename_loop path i'
  end.
Definition filename (path : list Z) : list Z := filename_loop path (length path).

(** The path of an entry, built in buf: strcpy, the slash, the name and its NUL. *)
Definition entry_path (path : list Z) (de : dirent) (buf : list (option Z)) : M st (list Z * list (option Z)) :=
  let! b1 := from_option "strcpy past buf" (store 0 (path ++ [0]) buf) in
  let! q1 := from_option "unterminated buf" (cstr b1) in
  let p := length q1 in
  let! b2 := from_option "store past buf" (store p [SLASH] b1) in
  let! b3 := from_option "memmove past buf" (store (p + 1) (name de) b2) in
  let! b4 := from_option "store past buf" (store (p + 1 + DIRSIZ) [0] b3) in
  let! q := from_option "unterminated buf" (cstr b4) in
  ret (q, b4).

Section Find.
Context (namei : list Z -> option file) (frame : Z).

(** ** System calls and the stack *)

Definition open (path : list Z) : M st (option file) :=
  let! s := get in
  if decide (length path < MAXPATH /\ nopen s < NOFILE)%nat then
    match namei path with
    | Some f => put (mkSt (S (nopen s)) (sp s) (out s)) ;; ret (Some f)
    | None => ret None
    end
  else ret None.
Definition close : M st unit := modify (fun s => mkSt (pred (nopen s)) (sp s) (out s)).

Definition enter : M st unit :=
  let! s := get in
  if decide (frame <= sp s) then put (mkSt (nopen s) (sp s - frame) (out s)) else undef "stack overflow".
Definition leave : M st unit := modify (fun s => mkSt (nopen s) (sp s + frame) (out s)).

(** ** find *)

(** The loop over the entries; [find_] is the recursive call. *)
Fixpoint scan (find_ : list Z -> M st unit) (path : list Z) (buf : list (option Z)) (es : list dirent) : M st unit :=
  match es with
  | [] => ret tt
  | de :: es' =>
      if decide (inum de = 0) then scan find_ path buf es'
      else if decide (cname de = DOT \/ cname de = DOTDOT) then scan find_ path buf es'
      else if decide (BUFSIZE < length path + 1 + DIRSIZ + 1)%nat then scan find_ path buf es'
      else
        let! (q, buf') := entry_path path de buf in
        find_ q ;;
        scan find_ path buf' es'
  end.

Fixpoint find (fuel : nat) (path target : list Z) : M st unit :=
  match fuel with
  | O => fun _ => Fault OutOfFuel
  | S fuel' =>
      enter ;;
      let! fd := open path in
      match fd with
      | None => print (CannotOpen path) ;; leave
      | Some f =>
          match stat f with
          | None => print (CannotStat path) ;; close ;; leave
          | Some type =>
              (if decide (type = T_FILE) then
                 if decide (filename path = target) then print (Found path) else ret tt
               else if decide (type = T_DIR) then
                 scan (fun q => find fuel' q target) path (replicate BUFSIZE None) (entries f)
               else ret tt) ;;
              close ;; leave
          end
      end
  end.

(** The exit status of main; find goes no deeper than there are descriptors. *)
Definition main (argv : list (list Z)) : M st Z :=
  match argv with
  | [_; path; target] => find (S NOFILE) path target ;; ret 0
  | _ => print Usage ;; ret 1
  end.

End Find.

(** ** An example: the files named b in a small tree *)

Definition padded (n : list Z) : list Z := n ++ replicate (DIRSIZ - length n) 0.
Definition tree1 (path : list Z) : option file :=
  if decide (path = [46]) then
    Some (mkFile (Some T_DIR) [mkDirent 1 (padded DOT); mkDirent 1 (padded DOTDOT); mkDirent 2 (padded [97]);
                               mkDirent 0 (padded [98]); mkDirent 3 (padded [98]); mkDirent 4 (padded [99])])
  else if decide (path = [46; 47; 97]) then Some (mkFile (Some T_DIR) [mkDirent 5 (padded [98])])
  else if decide (path = [46; 47; 98] \/ path = [46; 47; 97; 47; 98]) then Some (mkFile (Some T_FILE) [])
  else None.

Example find_b :
  main tree1 600 [[]; [46]; [98]] (mkSt 3 4000 []) =
    Ok 0 (mkSt 3 4000 [Found [46; 47; 97; 47; 98]; Found [46; 47; 98]; CannotOpen [46; 47; 99]]).
Proof. vm_compute. reflexivity. Qed.
