(* ===== verification/FindSpec.v ===== *)
(** * What find reports

    find visits the files below a path as far as descriptors and paths go, and reports
    those whose name is the target; its recursion needs a frame for every level. *)

From Stdlib Require Import ZArith Lia.
From stdpp Require Import base numbers list gmap strings.
From S2P Require Import Prelude Find.
Open Scope Z_scope.

(** ** The path of an entry *)

Definition nonul (l : list Z) : Prop := Forall (fun c => c <> 0) l.
Definition sub (path : list Z) (e : dirent) : list Z := path ++ SLASH :: cname e.

Lemma upto_nul_nonul l : nonul (upto_nul l).
Proof. induction l as [|c l IH]; simpl; [constructor|]. case_decide; constructor; done. Qed.

Lemma sub_nonul path e : nonul path -> nonul (sub path e).
Proof. intros Hp. apply Forall_app. split; [done|]. constructor; [done|apply upto_nul_nonul]. Qed.

Lemma cstr_upto_nul l rest : cstr ((Some <$> l) ++ Some 0 :: rest) = Some (upto_nul l).
Proof.
  induction l as [|c l IH]; [done|]. rewrite fmap_cons. cbn [app cstr upto_nul]. case_decide; [done|]. by rewrite IH.
Qed.

Lemma upto_nul_app l l' : nonul l -> upto_nul (l ++ l') = l ++ upto_nul l'.
Proof.
  induction l as [|c l IH]; intros Hl; [done|]. apply Forall_cons in Hl as [Hc Hl]. simpl.
  rewrite decide_False by done. by rewrite IH.
Qed.

Lemma upto_nul_id l : nonul l -> upto_nul l = l.
Proof. intros Hl. rewrite <- (app_nil_r l) at 1. by rewrite upto_nul_app, app_nil_r. Qed.

Lemma store_at (xs ys zs : list (option Z)) bs p :
  length xs = p -> length ys = length bs -> store p bs (xs ++ ys ++ zs) = Some (xs ++ (Some <$> bs) ++ zs).
Proof.
  intros <- Hl. unfold store. rewrite decide_True by (rewrite !length_app; lia).
  rewrite take_app_length, <- Hl, <- length_app, (app_assoc xs ys zs), drop_app_length. done.
Qed.

Lemma split_at {A} (l : list A) n : (n <= length l)%nat -> exists l1 l2, l = l1 ++ l2 /\ length l1 = n.
Proof. intros Hn. exists (take n l), (drop n l). split; [by rewrite take_drop|]. rewrite length_take. lia. Qed.

Definition skipped (e : dirent) : Prop := inum e = 0 \/ cname e = DOT \/ cname e = DOTDOT.
#[export] Instance skipped_dec e : Decision (skipped e).
Proof. unfold skipped. apply _. Defined.

Lemma entry_path_run path e buf s :
  length buf = BUFSIZE -> nonul path -> (length path < MAXPATH)%nat -> length (name e) = DIRSIZ ->
  exists buf', length buf' = BUFSIZE /\ entry_path path e buf s = Ok (sub path e, buf') s.
Proof.
  unfold BUFSIZE, MAXPATH, DIRSIZ. intros Hb Hp Hlp Hn. set (p0 := Some <$> path : list (option Z)).
  assert (length p0 = length path) as Hp0 by apply length_fmap.
  destruct (split_at buf (length path + 1)) as (x0 & b0 & -> & Hx0); [lia|]. rewrite length_app in Hb.
  destruct (split_at b0 14) as (n0 & b1 & -> & Hn0); [lia|]. rewrite length_app in Hb.
  destruct b1 as [|z1 tl]; simpl in Hb; [lia|].
  set (named := Some <$> path ++ SLASH :: name e : list (option Z)).
  assert (named = p0 ++ [Some SLASH] ++ (Some <$> name e)) as Hnamed by (unfold named; by rewrite fmap_app, fmap_cons).
  exists (named ++ [Some 0] ++ tl). split.
  { rewrite Hnamed, !length_app, length_fmap, Hn, Hp0. simpl. lia. }
  unfold entry_path. change (x0 ++ n0 ++ z1 :: tl) with ([] ++ x0 ++ n0 ++ z1 :: tl).
  rewrite (store_at [] x0) by (simpl; rewrite ?length_app; simpl; lia).
  rewrite fmap_app, <- app_assoc. cbn [from_option app]. rewrite (bind_ok _ _ _ _ _ eq_refl). fold p0.
  change ((Some <$> [0]) ++ n0 ++ z1 :: tl) with (Some 0 :: n0 ++ z1 :: tl).
  assert (cstr (p0 ++ Some 0 :: n0 ++ z1 :: tl) = Some path) as ->.
  { unfold p0. by rewrite cstr_upto_nul, upto_nul_id. }
  cbn [from_option]. rewrite (bind_ok _ _ _ _ _ eq_refl). cbv zeta.
  change (p0 ++ Some 0 :: n0 ++ z1 :: tl) with (p0 ++ [Some 0] ++ n0 ++ z1 :: tl).
  rewrite (store_at p0 [Some 0]) by done. cbn [from_option]. rewrite (bind_ok _ _ _ _ _ eq_refl).
  rewrite (app_assoc p0), (store_at _ n0) by (rewrite ?length_app, ?Hp0; simpl; lia).
  cbn [from_option]. rewrite (bind_ok _ _ _ _ _ eq_refl).
  rewrite (app_assoc _ (Some <$> name e)), <- (app_assoc p0).
  change (p0 ++ (Some <$> [SLASH]) ++ (Some <$> name e)) with (p0 ++ [Some SLASH] ++ (Some <$> name e)).
  rewrite <- Hnamed. change (named ++ z1 :: tl) with (named ++ [z1] ++ tl).
  rewrite (store_at named [z1]) by (unfold named; rewrite ?length_fmap, ?length_app; simpl; unfold DIRSIZ; lia).
  cbn [from_option]. rewrite (bind_ok _ _ _ _ _ eq_refl).
  change (named ++ (Some <$> [0]) ++ tl) with (named ++ Some 0 :: tl).
  unfold named at 1. rewrite cstr_upto_nul, upto_nul_app by done. done.
Qed.

(** The turn of the loop for an entry that is not skipped. *)
Lemma scan_entry f path buf e es s :
  length buf = BUFSIZE -> nonul path -> (length path < MAXPATH)%nat -> length (name e) = DIRSIZ -> ~ skipped e ->
  exists buf', length buf' = BUFSIZE /\ scan f path buf (e :: es) s = (f (sub path e) ;; scan f path buf' es) s.
Proof.
  intros Hb Hp Hlp Hn Hs. destruct (entry_path_run path e buf s Hb Hp Hlp Hn) as (buf' & Hb' & Hrun).
  exists buf'. split; [done|]. unfold skipped, MAXPATH in *. cbn [scan]. rewrite decide_False by tauto.
  rewrite decide_False by tauto. rewrite decide_False by (unfold BUFSIZE, DIRSIZ; lia). by rewrite (bind_ok _ _ _ _ _ Hrun).
Qed.

Lemma scan_skipped f path buf e es : skipped e -> scan f path buf (e :: es) = scan f path buf es.
Proof. unfold skipped. intros [H|H]; cbn [scan]; repeat case_decide; tauto. Qed.

(** ** The file name of a path *)

(** What follows the last slash, or all of a path without one. *)
Definition base (path b : list Z) : Prop := SLASH ∉ b /\ (path = b \/ exists dir, path = dir ++ SLASH :: b).

Lemma base_unique path b b' : base path b -> base path b' -> b = b'.
Proof.
  assert (forall (d d' b b' : list Z), SLASH ∉ b -> SLASH ∉ b' -> d ++ SLASH :: b = d' ++ SLASH :: b' -> b = b') as Hd.
  { induction d as [|c d IH]; intros [|c' d'] c1 c2 H1 H2 E; simplify_eq/=; [done| | |by eapply (IH d')].
    - exfalso. apply H1, elem_of_app. right. by left.
    - exfalso. apply H2, elem_of_app. right. by left. }
  intros [Hb [->|[d ->]]] [Hb' [E|[d' E]]]; [done| | |by eapply Hd].
  - exfalso. apply Hb. rewrite E. apply elem_of_app. right. by left.
  - exfalso. apply Hb'. rewrite <- E. apply elem_of_app. right. by left.
Qed.

Lemma filename_loop_base path i :
  (forall j, (i <= j)%nat -> path !! j <> Some SLASH) -> base path (filename_loop path i).
Proof.
  induction i as [|i IH]; intros Hno; simpl.
  - split; [|by left]. intros [j Hj]%list_elem_of_lookup. exact (Hno j ltac:(lia) Hj).
  - case_decide as Hs.
    + split; [|right; exists (take i path); symmetry; by apply take_drop_middle].
      intros [j Hj]%list_elem_of_lookup. rewrite lookup_drop in Hj. exact (Hno (S i + j)%nat ltac:(lia) Hj).
    + apply IH. intros j Hj. destruct (decide (i = j)) as [<-|]; [done|]. apply Hno. lia.
Qed.
Lemma filename_base path b : filename path = b <-> base path b.
Proof.
  assert (base path (filename path)) as Hb.
  { apply filename_loop_base. intros j Hj. by rewrite lookup_ge_None_2. }
  split; [by intros <-|]. by apply base_unique.
Qed.

Section Runs.
Context (namei : list Z -> option file) (frame : Z).
Context (names : forall p f e, namei p = Some f -> e ∈ entries f -> length (name e) = DIRSIZ).

(** ** The files visited *)

Definition opens (p : list Z) (f : file) : Prop := (length p < MAXPATH)%nat /\ namei p = Some f.

(** With [room] free descriptors, find of [p] comes to [q] with [r] of them left. *)
Inductive visits : nat -> list Z -> nat -> list Z -> Prop :=
| visits_here room p : visits room p room p
| visits_entry room p f e r q :
    opens p f -> stat f = Some T_DIR -> e ∈ entries f -> ~ skipped e ->
    visits room (sub p e) r q -> visits (S room) p r q.

(** The lines that find of [p] prints. *)
Definition reports (room : nat) (p target : list Z) (l : line) : Prop :=
  match l with
  | Found q => exists r f, visits room p (S r) q /\ opens q f /\ stat f = Some T_FILE /\ base q target
  | CannotOpen q => exists r, visits room p r q /\ (r = 0%nat \/ forall f, ~ opens q f)
  | CannotStat q => exists r f, visits room p (S r) q /\ opens q f /\ stat f = None
  | Usage => False
  end.

(** Some file visited is too deep for [size] bytes of stack. *)
Definition too_deep (room : nat) (p : list Z) (size : Z) : Prop :=
  exists r q, visits room p r q /\ size < frame * (Z.of_nat room - Z.of_nat r + 1).

Lemma visits_le room p r q : visits room p r q -> (r <= room)%nat.
Proof using. induction 1; lia. Qed.

(** The visits from a path, by its first step. *)
Lemma visits_inv room p r q : visits room p r q ->
  (r = room /\ q = p) \/
  exists room' f e, room = S room' /\ opens p f /\ stat f = Some T_DIR /\ e ∈ entries f /\ ~ skipped e /\ visits room' (sub p e) r q.
Proof using. intros Hv. inversion Hv; subst; [by left|right]. by eexists _, _, _. Qed.

Lemma visits_leaf room p r q :
  (forall f, opens p f -> stat f <> Some T_DIR) -> visits room p r q -> r = room /\ q = p.
Proof using.
  intros Hno [?|(? & f & e & _ & Ho & Hs & _)]%visits_inv; [done|]. by destruct (Hno f Ho).
Qed.

Lemma opens_unique p f f' : opens p f -> opens p f' -> f = f'.
Proof using. intros [_ H] [_ H']. congruence. Qed.

(** ** The outcome of a call *)

Definition ends (res_ : res st unit) (n : nat) (size : Z) (o : list line) (R : line -> Prop) (B : Prop) : Prop :=
  (~ B /\ exists ls, res_ = Ok tt (mkSt n size (o ++ ls)) /\ forall l, l ∈ ls <-> R l) \/
  (B /\ res_ = Fault (Undef "stack overflow")).

Lemma scan_ends f path es n size buf o (R : dirent -> line -> Prop) (B : dirent -> Prop) :
  nonul path -> (length path < MAXPATH)%nat -> length buf = BUFSIZE ->
  (forall e, e ∈ es -> length (name e) = DIRSIZ) ->
  (forall e o, e ∈ es -> ~ skipped e -> ends (f (sub path e) (mkSt n size o)) n size o (R e) (B e)) ->
  ends (scan f path buf es (mkSt n size o)) n size o
    (fun l => exists e, e ∈ es /\ ~ skipped e /\ R e l) (exists e, e ∈ es /\ ~ skipped e /\ B e).
Proof using.
  intros Hp Hl. revert buf o. induction es as [|e es IH]; intros buf o Hb Hn Hf.
  { left. split; [intros (e & He & _); by apply not_elem_of_nil in He|]. exists []. rewrite app_nil_r. split; [done|].
    intros l. split; [intros He; by apply not_elem_of_nil in He|intros (e & He & _); by apply not_elem_of_nil in He]. }
  specialize (IH) as IH'. destruct (decide (skipped e)) as [Hs|Hs].
  { rewrite scan_skipped by done.
    destruct (IH buf o Hb) as [(HB & ls & -> & Hls)|(HB & ->)]; [intros; apply Hn; by right|intros; apply Hf; [by right|done]| |].
    - left. split; [intros (e' & He & Hs' & Hb'); apply HB; exists e'; apply elem_of_cons in He as [->|]; done|].
      exists ls. split; [done|]. intros l. rewrite Hls. split; intros (e' & He & Hs' & Hr); exists e'; (split; [|done]).
      + by right.
      + by apply elem_of_cons in He as [->|].
    - right. split; [|done]. destruct HB as (e' & He & ?). exists e'. split; [by right|done]. }
  destruct (scan_entry f path buf e es (mkSt n size o)) as (buf' & Hb' & ->); try done; [apply Hn; by left|].
  unfold bind. destruct (Hf e o ltac:(by left) Hs) as [(HB & ls1 & -> & Hls1)|(HB & ->)]; [|right; split; [by exists e; split; [left|]|done]].
  destruct (IH buf' (o ++ ls1) Hb') as [(HB2 & ls2 & -> & Hls2)|(HB2 & ->)]; [intros; apply Hn; by right|intros; apply Hf; [by right|done]| |].
  - left. split; [intros (e' & He & Hs' & Hbad); apply elem_of_cons in He as [->|He]; [done|apply HB2; by exists e']|].
    exists (ls1 ++ ls2). split; [by rewrite app_assoc|]. intros l. rewrite elem_of_app, Hls1, Hls2. split.
    + intros [Hr|(e' & He & Hr)]; [exists e; split; [by left|done]|exists e'; split; [by right|done]].
    + intros (e' & He & Hs' & Hr). apply elem_of_cons in He as [->|He]; [by left|right; by exists e'].
  - right. split; [|done]. destruct HB2 as (e' & He & ?). exists e'. split; [by right|done].
Qed.

Lemma leaf_reports room p target l :
  (forall r q, visits room p r q -> r = room /\ q = p) ->
  reports room p target l <->
  match l with
  | Found q => q = p /\ room <> 0%nat /\ exists f, opens p f /\ stat f = Some T_FILE /\ base p target
  | CannotOpen q => q = p /\ (room = 0%nat \/ forall f, ~ opens p f)
  | CannotStat q => q = p /\ room <> 0%nat /\ exists f, opens p f /\ stat f = None
  | Usage => False
  end.
Proof using.
  intros Hleaf. destruct l as [q|q|q|]; simpl; [| | |done]; split.
  - intros (r & f & [<- ->]%Hleaf & Hf). split; [done|]. split; [lia|by exists f].
  - intros (-> & Hr & f & Hf). destruct room as [|r]; [done|]. exists r, f. split; [constructor|done].
  - intros (r & [<- ->]%Hleaf & Hf). done.
  - intros [-> Hf]. exists room. split; [constructor|done].
  - intros (r & f & [<- ->]%Hleaf & Hf). split; [done|]. split; [lia|by exists f].
  - intros (-> & Hr & f & Hf). destruct room as [|r]; [done|]. exists r, f. split; [constructor|done].
Qed.

(** A call that opens no directory. *)
Lemma leaf_ends res_ room p target n size o ls :
  (forall r q, visits room p r q -> r = room /\ q = p) -> frame <= size ->
  res_ = Ok tt (mkSt n size (o ++ ls)) -> (forall l, l ∈ ls <-> reports room p target l) ->
  ends res_ n size o (reports room p target) (too_deep room p size).
Proof using.
  intros Hleaf Hfit Hres Hls. left. split; [|by exists ls].
  intros (r & q & [-> ->]%Hleaf & Hlt). replace (Z.of_nat room - Z.of_nat room + 1) with 1 in Hlt by lia. lia.
Qed.

(** A call that opens a directory: its visits are those from the entries. *)
Lemma dir_reports room p f target l :
  opens p f -> stat f = Some T_DIR ->
  reports (S room) p target l <-> exists e, e ∈ entries f /\ ~ skipped e /\ reports room (sub p e) target l.
Proof using.
  intros Ho Hs.
  assert (forall e r q, e ∈ entries f -> ~ skipped e -> visits room (sub p e) r q -> visits (S room) p r q) as Hin.
  { intros. by eapply visits_entry. }
  assert (forall r q, visits (S room) p r q -> q = p /\ r = S room \/
    exists e, e ∈ entries f /\ ~ skipped e /\ visits room (sub p e) r q) as Hinv.
  { intros r q [[-> ->]|(room' & f' & e & [= <-] & Ho' & _ & He & Hk & Hv)]%visits_inv; [by left|right].
    rewrite (opens_unique p f f') by done. by exists e. }
  destruct l as [q|q|q|]; simpl; [| | |naive_solver].
  - split.
    + intros (r & f' & Hv & Ho' & Ht & Hn). destruct (Hinv _ _ Hv) as [[-> _]|(e & He & Hk & Hv')].
      * rewrite (opens_unique p f f') in Hs by done. rewrite Hs in Ht. done.
      * exists e. split_and!; try done. by exists r, f'.
    + intros (e & He & Hk & r & f' & Hv & Hq). exists r, f'. split; [by eapply Hin|done].
  - split.
    + intros (r & Hv & Hr). destruct (Hinv _ _ Hv) as [[-> ->]|(e & He & Hk & Hv')].
      * destruct Hr as [|Hr]; [done|by destruct (Hr f)].
      * exists e. split_and!; try done. by exists r.
    + intros (e & He & Hk & r & Hv & Hr). exists r. split; [by eapply Hin|done].
  - split.
    + intros (r & f' & Hv & Ho' & Ht). destruct (Hinv _ _ Hv) as [[-> _]|(e & He & Hk & Hv')].
      * rewrite (opens_unique p f f') in Hs by done. rewrite Hs in Ht. done.
      * exists e. split_and!; try done. by exists r, f'.
    + intros (e & He & Hk & r & f' & Hv & Hq). exists r, f'. split; [by eapply Hin|done].
Qed.

Lemma dir_too_deep room p f size :
  opens p f -> stat f = Some T_DIR -> frame <= size ->
  too_deep (S room) p size <-> exists e, e ∈ entries f /\ ~ skipped e /\ too_deep room (sub p e) (size - frame).
Proof using.
  intros Ho Hs Hfit. split.
  - intros (r & q & [[-> ->]|(room' & f' & e & [= <-] & Ho' & _ & He & Hk & Hv)]%visits_inv & Hlt).
    + replace (Z.of_nat (S room) - Z.of_nat (S room) + 1) with 1 in Hlt by lia. lia.
    + rewrite (opens_unique p f f') by done. exists e. split_and!; try done. exists r, q. split; [done|]. lia.
  - intros (e & He & Hk & r & q & Hv & Hlt). exists r, q. split; [by eapply visits_entry|]. lia.
Qed.

Lemma ends_ext res_ n size o R R' B B' :
  ends res_ n size o R B -> (forall l, R l <-> R' l) -> (B <-> B') -> ends res_ n size o R' B'.
Proof using.
  intros [(HB & ls & Hr & Hls)|[HB Hr]] HR HB'; [left|right; tauto]. split; [tauto|].
  exists ls. split; [done|]. intros l. by rewrite Hls.
Qed.

Lemma find_S fuel path target n size o :
  frame <= size ->
  find namei frame (S fuel) path target (mkSt n size o) =
  (let! fd := open namei path in
   match fd with
   | None => print (CannotOpen path) ;; leave frame
   | Some f =>
       match stat f with
       | None => print (CannotStat path) ;; close ;; leave frame
       | Some type =>
           (if decide (type = T_FILE) then
              if decide (filename path = target) then print (Found path) else ret tt
            else if decide (type = T_DIR) then
              scan (fun q => find namei frame fuel q target) path (replicate BUFSIZE None) (entries f)
            else ret tt) ;;
           close ;; leave frame
       end
   end) (mkSt n (size - frame) o).
Proof using.
  intros Hfit. cbn [find]. unfold enter at 1. unfold bind at 1, bind at 1, get at 1. cbn [sp].
  by rewrite decide_True.
Qed.

(** The ways a call ends. *)
Lemma leave_run n size o : leave frame (mkSt n (size - frame) o) = Ok tt (mkSt n size o).
Proof using. unfold leave, modify. cbn [nopen sp out]. by rewrite Z.sub_add. Qed.
Lemma close_leave_run n size o : (close ;; leave frame) (mkSt (S n) (size - frame) o) = Ok tt (mkSt n size o).
Proof using. unfold bind, close, modify. cbn [nopen sp out pred]. apply leave_run. Qed.
Lemma print_run l n size o : print l (mkSt n size o) = Ok tt (mkSt n size (o ++ [l])).
Proof using. done. Qed.

Lemma open_run path f n size o :
  opens path f -> (n < NOFILE)%nat -> open namei path (mkSt n size o) = Ok (Some f) (mkSt (S n) size o).
Proof using.
  intros [Hl Hf] Hn. unfold open, bind, get. cbn [nopen sp out]. rewrite decide_True by done. by rewrite Hf.
Qed.
Lemma open_fails path n size o :
  (forall f, opens path f -> ~ (n < NOFILE)%nat) -> open namei path (mkSt n size o) = Ok None (mkSt n size o).
Proof using.
  intros Hno. unfold open, bind, get. cbn [nopen sp out]. case_decide as Hd; [|done].
  destruct (namei path) as [f|] eqn:Hf; [|done]. destruct (Hno f); [split|]; tauto.
Qed.
Lemma opens_dec path : (exists f, opens path f) \/ forall f, ~ opens path f.
Proof using.
  unfold opens. destruct (namei path) as [f|]; [|right; intros f [_ Hf]; done].
  destruct (decide (length path < MAXPATH)%nat); [left; by exists f|right; tauto].
Qed.

(** The branches of a call with room for its frame. *)
Lemma unopened_ends fuel room path target n size o :
  frame <= size -> (n + room = NOFILE)%nat -> (room = 0%nat \/ forall f, ~ opens path f) ->
  ends (find namei frame (S fuel) path target (mkSt n size o)) n size o (reports room path target) (too_deep room path size).
Proof using.
  intros Hfit Hroom Hno.
  assert (forall r q, visits room path r q -> r = room /\ q = path) as Hleaf.
  { intros r q [?|(room' & f & e & -> & Ho & _)]%visits_inv; [done|]. destruct Hno as [|Hno]; [done|by destruct (Hno f)]. }
  apply (leaf_ends _ room path target n size o [CannotOpen path] Hleaf Hfit).
  - rewrite find_S by done. rewrite (bind_ok _ _ _ None (mkSt n (size - frame) o)).
    + rewrite (bind_ok _ _ _ _ _ (print_run _ _ _ _)). apply leave_run.
    + apply open_fails. intros f Ho. destruct Hno as [->|Hno]; [lia|by destruct (Hno f)].
  - intros l. rewrite (leaf_reports _ _ _ _ Hleaf), list_elem_of_singleton. destruct l; naive_solver.
Qed.

Lemma file_ends fuel room path f target n size o :
  frame <= size -> (n + S room = NOFILE)%nat -> opens path f -> stat f <> Some T_DIR ->
  ends (find namei frame (S fuel) path target (mkSt n size o)) n size o
    (reports (S room) path target) (too_deep (S room) path size).
Proof using.
  intros Hfit Hroom Ho Hs.
  assert (forall r q, visits (S room) path r q -> r = S room /\ q = path) as Hleaf.
  { intros r q. apply visits_leaf. intros f' Ho'. by rewrite (opens_unique path f' f). }
  assert (forall f', opens path f' <-> f' = f) as Hof by (intros f'; split; [intros; by eapply opens_unique|by intros ->]).
  set (ls := match stat f with
             | None => [CannotStat path]
             | Some type => if decide (type = T_FILE /\ filename path = target) then [Found path] else []
             end).
  apply (leaf_ends _ (S room) path target n size o ls Hleaf Hfit).
  - rewrite find_S by done. rewrite (bind_ok _ _ _ _ _ (open_run path f n (size - frame) o Ho ltac:(lia))).
    unfold ls. destruct (stat f) as [type|] eqn:Ht.
    + destruct (decide (type = T_FILE)) as [->|Hne].
      * destruct (decide (filename path = target)) as [Htg|Htg].
        -- rewrite decide_True by done. rewrite (bind_ok _ _ _ _ _ (print_run _ _ _ _)). apply close_leave_run.
        -- rewrite decide_False by tauto. rewrite app_nil_r, (bind_ok _ _ _ _ _ eq_refl). apply close_leave_run.
      * rewrite (decide_False (P := type = T_FILE /\ _)) by tauto. rewrite decide_False by congruence.
        rewrite app_nil_r, (bind_ok _ _ _ _ _ eq_refl). apply close_leave_run.
    + rewrite (bind_ok _ _ _ _ _ (print_run _ _ _ _)). apply close_leave_run.
  - intros l. rewrite (leaf_reports _ _ _ _ Hleaf). pose proof (filename_base path target) as Hbase. unfold ls.
    destruct (stat f) as [type|] eqn:Ht; [case_decide as Hd|]; rewrite ?list_elem_of_singleton, ?elem_of_nil;
      destruct l; naive_solver.
Qed.

Lemma dir_ends fuel room path f target n size o :
  frame <= size -> (n + S room = NOFILE)%nat -> nonul path -> opens path f -> stat f = Some T_DIR ->
  (forall path n size o, nonul path -> (n + room = NOFILE)%nat ->
     ends (find namei frame fuel path target (mkSt n size o)) n size o (reports room path target) (too_deep room path size)) ->
  ends (find namei frame (S fuel) path target (mkSt n size o)) n size o
    (reports (S room) path target) (too_deep (S room) path size).
Proof using names.
  intros Hfit Hroom Hnul Ho Hs IH. pose proof Ho as [Hlen Hf].
  apply (ends_ext _ _ _ _ (fun l => exists e, e ∈ entries f /\ ~ skipped e /\ reports room (sub path e) target l) _
    (exists e, e ∈ entries f /\ ~ skipped e /\ too_deep room (sub path e) (size - frame)));
    [|intros l; by rewrite (dir_reports room path f)|by rewrite (dir_too_deep room path f)].
  rewrite find_S by done. rewrite (bind_ok _ _ _ _ _ (open_run path f n (size - frame) o Ho ltac:(lia))).
  rewrite Hs. rewrite decide_False by done. rewrite decide_True by done. unfold bind at 1.
  destruct (scan_ends (fun q => find namei frame fuel q target) path (entries f) (S n) (size - frame)
    (replicate BUFSIZE None) o (fun e => reports room (sub path e) target)
    (fun e => too_deep room (sub path e) (size - frame))) as [(HB & ls & -> & Hls)|(HB & ->)]; try done.
  - intros e He. by eapply names.
  - intros e o' He Hk. apply IH; [by apply sub_nonul|lia].
  - left. split; [done|]. exists ls. split; [apply close_leave_run|done].
  - by right.
Qed.

Lemma find_ends fuel : forall room path target n size o,
  nonul path -> (n + room = NOFILE)%nat -> (room < fuel)%nat ->
  ends (find namei frame fuel path target (mkSt n size o)) n size o (reports room path target) (too_deep room path size).
Proof using names.
  induction fuel as [|fuel IH]; intros room path target n size o Hnul Hroom Hfuel; [lia|].
  destruct (decide (frame <= size)) as [Hfit|Hfit].
  2:{ right. split; [exists room, path; split; [constructor|lia]|]. cbn [find]. unfold enter, bind, get. cbn [sp].
      by rewrite decide_False. }
  destruct room as [|room]; [apply unopened_ends; auto|].
  destruct (opens_dec path) as [[f Ho]|Hno]; [|apply unopened_ends; auto].
  destruct (decide (stat f = Some T_DIR)) as [Hd|Hd]; [|by apply (file_ends _ _ _ f)].
  apply (dir_ends _ _ _ f); try done. intros p' n' size' o' Hn' Hr'. apply IH; [done|done|lia].
Qed.
End Runs.

(** C24: find reports the files of the name it is given, and ends.  Whatever the file
    system, find of a path visits the path and the entries below it, but for the unused
    ones, "." and "..", as long as each directory on the way opens and a descriptor is
    left.  When the stack has room for the frames of the deepest visit, it returns with
    its descriptors closed, and prints exactly: the path of each visited file of type
    T_FILE whose last component is the target, a message for each visited path that does
    not open (it leads nowhere, has MAXPATH characters or more, or no descriptor is left
    at that depth), and one for each that cannot be examined; buf is never overrun.
    When a visit is too deep for the stack, the process overruns it. *)
Theorem find_reports namei frame argv0 path target s :
  (forall p f e, namei p = Some f -> e ∈ entries f -> length (name e) = DIRSIZ) ->
  nonul path -> (nopen s <= NOFILE)%nat ->
  let room := (NOFILE - nopen s)%nat in
  (~ too_deep namei frame room path (sp s) /\
   exists ls, main namei frame [argv0; path; target] s = Ok 0 (mkSt (nopen s) (sp s) (out s ++ ls)) /\
     forall l, l ∈ ls <-> reports namei room path target l) \/
  (too_deep namei frame room path (sp s) /\
   main namei frame [argv0; path; target] s = Fault (Undef "stack overflow")).
Proof.
  intros Hnames Hnul Hn room. destruct s as [n size o]. cbn [nopen sp out] in *. cbn [main]. unfold bind.
  destruct (find_ends namei frame Hnames (S NOFILE) room path target n size o) as [(HB & ls & -> & Hls)|(HB & ->)];
    unfold room in *; try done; try lia; [left|right]; (split; [done|]); [|done]. by exists ls.
Qed.

Lemma tree1_names p f e : tree1 p = Some f -> e ∈ entries f -> length (name e) = DIRSIZ.
Proof.
  unfold tree1. repeat case_decide; intros [= <-]; cbn [entries]; rewrite ?elem_of_cons, elem_of_nil; naive_solver.
Qed.

Lemma find_reports_witness :
  exists ls, main tree1 600 [[]; [46]; [98]] (mkSt 3 4000 []) = Ok 0 (mkSt 3 4000 ls) /\
    forall l, l ∈ ls <-> reports tree1 13 [46] [98] l.
Proof.
  destruct (find_reports tree1 600 [] [46] [98] (mkSt 3 4000 [])) as [(_ & ls & Hrun & Hls)|[_ Hbad]].
  - exact tree1_names.
  - repeat constructor. discriminate.
  - unfold NOFILE. simpl. lia.
  - exists ls. split; [exact Hrun|exact Hls].
  - exfalso. rewrite find_b in Hbad. discriminate.
Defined.

(** ** Seven directories inside each other *)

Definition entry_a : dirent := mkDirent 2 (padded [97]).
Definition nest (path : list Z) : option file :=
  if decide (length path <= 15)%nat then Some (mkFile (Some T_DIR) [entry_a]) else None.

Lemma nest_visits k p room : (length p + 2 * k <= 15)%nat ->
  exists q, visits nest (k + room) p room q /\ length q = (length p + 2 * k)%nat.
Proof.
  revert p. induction k as [|k IH]; intros p Hp.
  - exists p. split; [constructor|lia].
  - assert (length (sub p entry_a) = (length p + 2)%nat) as Hl by (unfold sub; rewrite length_app; done).
    destruct (IH (sub p entry_a)) as (q & Hv & Hq); [lia|]. exists q. split; [|lia].
    apply (visits_entry _ _ _ (mkFile (Some T_DIR) [entry_a]) entry_a); try done.
    + split; [unfold MAXPATH; lia|]. unfold nest. by rewrite decide_True by lia.
    + by left.
    + unfold skipped. vm_compute. naive_solver.
Qed.

(** C39: The stack of a process is one page, and each activation of find has at least its
    buffer of 512 bytes, the dirent and the stat on it: with seven directories inside
    each other find overruns the stack, long before it runs out of descriptors or of
    path length. *)
Theorem find_deep_overflows frame size target o :
  512 + 16 + 24 <= frame -> size <= 4096 ->
  main nest frame [[]; [46]; target] (mkSt 3 size o) = Fault (Undef "stack overflow").
Proof.
  intros Hf Hsz. destruct (find_ends nest frame) with (fuel := S NOFILE) (room := 13%nat) (path := [46]) (target := target)
    (n := 3%nat) (size := size) (o := o) as [[HB _]|[_ Hrun]]; try done.
  - intros p f e. unfold nest. case_decide; [|done]. intros [= <-]. cbn [entries]. by intros ->%list_elem_of_singleton.
  - by repeat constructor.
  - unfold NOFILE. lia.
  - exfalso. apply HB. destruct (nest_visits 7 [46] 6) as (q & Hv & _); [simpl; lia|]. exists 6%nat, q. split; [done|]. lia.
  - cbn [main]. unfold bind. by rewrite Hrun.
Qed.

Lemma find_deep_overflows_witness :
  main nest 600 [[]; [46]; [98]] (mkSt 3 4000 []) = Fault (Undef "stack overflow").
Proof. apply find_deep_overflows; lia. Defined.
