(* ===== verification/Sh.v ===== *)
(** * user/sh.c: the shell

    The parser works on the line in its buffer: [buf] is the line and its NUL, a pointer
    into it is an index, and [ps] is the position the parsing routines share.  A word is
    the pair of its bounds until nulterminate stores the NULs.  malloc is taken to
    succeed.  The second half runs a command: a process is its table of descriptors, and
    what is kept of a run is which programs are started, with which descriptors. *)

From Stdlib Require Import ZArith Lia.
From stdpp Require Import base numbers list gmap strings.
From S2P Require Import Prelude.
Open Scope Z_scope.

Definition MAXARGS : nat := 10.
Definition O_RDONLY : Z := 0.
Definition O_WRONLY : Z := 1.
Definition O_CREATE : Z := 512.
Definition O_TRUNC : Z := 1024.

(** Characters. *)
Definition LESS : Z := 60.
Definition GREATER : Z := 62.
Definition BAR : Z := 124.
Definition AMP : Z := 38.
Definition SEMI : Z := 59.
Definition OPEN : Z := 40.
Definition CLOSE : Z := 41.
Definition whitespace : list Z := [32; 9; 13; 10; 11].
Definition symbols : list Z := [LESS; BAR; GREATER; AMP; SEMI; OPEN; CLOSE].

Definition strchr (cs : list Z) (c : Z) : bool := bool_decide (c ∈ cs).

(** ** Commands *)

(** A redirection: the bounds of the file name, the mode and the descriptor. *)
Record redir (W : Type) : Type := mkRedir { file : W; mode : Z; fd : Z }.
Arguments mkRedir {W}. Arguments file {W}. Arguments mode {W}. Arguments fd {W}.

Inductive cmd (W : Type) : Type :=
| EXEC (argv : list W)
| REDIR (c : cmd W) (r : redir W)
| PIPE (left right : cmd W)
| LIST (left right : cmd W)
| BACK (c : cmd W).
Arguments EXEC {W}. Arguments REDIR {W}. Arguments PIPE {W}. Arguments LIST {W}. Arguments BACK {W}.

(** Bounds of a word in the line. *)
Notation span := (nat * nat)%type.

(** ** The lexer *)

Record pst : Type := mkPst { buf : list Z; ps : nat }.
Definition set_ps (s : nat) : M pst unit := modify (fun x => mkPst (buf x) s).
Definition rd (s : nat) : M pst Z := fun x => from_option "read past the line" (buf x !! s) x.

Section Parser.
Context (es : nat).

(** [while(s < es && strchr(whitespace, *s)) s++], with [k] = es - s. *)
Fixpoint skip_ws (k s : nat) : M pst nat :=
  match k with
  | O => ret s
  | S k' =>
      let! c := rd s in
      if strchr whitespace c then skip_ws k' (S s) else ret s
  end.
Fixpoint skip_word (k s : nat) : M pst nat :=
  match k with
  | O => ret s
  | S k' =>
      let! c := rd s in
      if negb (strchr whitespace c) && negb (strchr symbols c) then skip_word k' (S s) else ret s
  end.

Definition WORD : Z := 97.      (* 'a' *)
Definition APPEND : Z := 43.    (* '+' *)

(** The token's code, *q and *eq. *)
Definition gettoken : M pst (Z * span) :=
  let! s0 := gets ps in
  let! s := skip_ws (es - s0) s0 in
  let q := s in
  let! c := rd s in
  let! (ret_, s) :=
    (if decide (c = 0) then ret (c, s)
     else if decide (c = BAR \/ c = OPEN \/ c = CLOSE \/ c = SEMI \/ c = AMP \/ c = LESS) then ret (c, S s)
     else if decide (c = GREATER) then
       let! d := rd (S s) in
       if decide (d = GREATER) then ret (APPEND, S (S s)) else ret (c, S s)
     else let! s' := skip_word (es - s) s in ret (WORD, s')) in
  let eq := s in
  let! s := skip_ws (es - s) s in
  set_ps s ;;
  ret (ret_, (q, eq)).

Definition peek (toks : list Z) : M pst bool :=
  let! s0 := gets ps in
  let! s := skip_ws (es - s0) s0 in
  set_ps s ;;
  let! c := rd s in
  ret (bool_decide (c <> 0) && strchr toks c).

(** ** The parser *)

(** The redirections are collected in the order in which redircmd wraps them. *)
Definition wrap {W} (c : cmd W) (rs : list (redir W)) : cmd W := foldl REDIR c rs.

Definition redir_of {W} (tok : Z) (w : W) : option (redir W) :=
  if decide (tok = LESS) then Some (mkRedir w O_RDONLY 0)
  else if decide (tok = GREATER) then Some (mkRedir w (Z.lor (Z.lor O_WRONLY O_CREATE) O_TRUNC) 1)
  else if decide (tok = APPEND) then Some (mkRedir w (Z.lor O_WRONLY O_CREATE) 1)
  else None.

(** A turn takes at least one character, so [k] turns are enough for [k] characters. *)
Fixpoint parseredirs (k : nat) (rs : list (redir span)) : M pst (list (redir span)) :=
  match k with
  | O => fun _ => Fault OutOfFuel
  | S k' =>
      let! b := peek [LESS; GREATER] in
      if b then
        let! (tok, _) := gettoken in
        let! (a, w) := gettoken in
        if decide (a <> WORD) then panic "missing file for redirection"
        else parseredirs k' (rs ++ match redir_of tok w with Some r => [r] | None => [] end)
      else ret rs
  end.

(** [while(!peek("|)&;"))]: the words and redirections of a simple command.  The execcmd
    is filled in while redircmds may already refer to it: [argv] is what it holds so
    far, [rs] the redirections around it; [k] = MAXARGS - argc. *)
Fixpoint parseargs (k : nat) (argv : list span) (rs : list (redir span)) : M pst (cmd span) :=
  match k with
  | O => fun _ => Fault OutOfFuel
  | S k' =>
      let! b := peek [BAR; CLOSE; AMP; SEMI] in
      if b then ret (wrap (EXEC argv) rs)
      else
        let! (tok, w) := gettoken in
        if decide (tok = 0) then ret (wrap (EXEC argv) rs)
        else if decide (tok <> WORD) then panic "syntax"
        else if decide (k' = 0)%nat then panic "too many args"
        else
          let! rs := parseredirs (S es) rs in
          parseargs k' (argv ++ [w]) rs
  end.

Fixpoint parsebacks (k : nat) (c : cmd span) : M pst (cmd span) :=
  match k with
  | O => fun _ => Fault OutOfFuel
  | S k' =>
      let! b := peek [AMP] in
      if b then gettoken ;; parsebacks k' (BACK c) else ret c
  end.

Fixpoint parseline (n : nat) : M pst (cmd span) :=
  match n with
  | O => fun _ => Fault OutOfFuel
  | S n' =>
      let! c := parsepipe n' in
      let! c := parsebacks (S es) c in
      let! b := peek [SEMI] in
      if b then gettoken ;; let! r := parseline n' in ret (LIST c r) else ret c
  end
with parsepipe (n : nat) : M pst (cmd span) :=
  match n with
  | O => fun _ => Fault OutOfFuel
  | S n' =>
      let! c := parseexec n' in
      let! b := peek [BAR] in
      if b then gettoken ;; let! r := parsepipe n' in ret (PIPE c r) else ret c
  end
with parseexec (n : nat) : M pst (cmd span) :=
  match n with
  | O => fun _ => Fault OutOfFuel
  | S n' =>
      let! b := peek [OPEN] in
      if b then parseblock n'
      else let! rs := parseredirs (S es) [] in parseargs MAXARGS [] rs
  end
with parseblock (n : nat) : M pst (cmd span) :=
  match n with
  | O => fun _ => Fault OutOfFuel
  | S n' =>
      let! b := peek [OPEN] in
      if negb b then panic "parseblock"
      else
        gettoken ;;
        let! c := parseline n' in
        let! b := peek [CLOSE] in
        if negb b then panic "syntax - missing )"
        else
          gettoken ;;
          let! rs := parseredirs (S es) [] in
          ret (wrap c rs)
  end.
End Parser.

(** ** NUL-termination *)

Definition put_nul (i : nat) : M pst unit := fun x =>
  if decide (i < length (buf x))%nat then Ok tt (mkPst (<[i := 0]> (buf x)) (ps x))
  else Fault (Undef "write past the line").

Fixpoint nulterminate (c : cmd span) : M pst unit :=
  match c with
  | EXEC argv => for_each argv (fun w => put_nul w.2)
  | REDIR c r => nulterminate c ;; put_nul (file r).2
  | PIPE l r => nulterminate l ;; nulterminate r
  | LIST l r => nulterminate l ;; nulterminate r
  | BACK c => nulterminate c
  end.

(** parsecmd of the string in [buf] at [ps]; its length [es] includes what precedes it. *)
Definition parsecmd (es : nat) : M pst (cmd span) :=
  let! c := parseline es (4 * es + 4) in
  peek es [] ;;
  let! s := gets ps in
  if decide (s <> es) then panic "syntax"
  else nulterminate c ;; ret c.

(** The command with its words read from the buffer. *)
Fixpoint cstr (l : list Z) : list Z :=
  match l with [] => [] | c :: l' => if decide (c = 0) then [] else c :: cstr l' end.
Definition string_at (b : list Z) (w : span) : list Z := cstr (drop w.1 b).
Definition map_redir {V W} (f : V -> W) (r : redir V) : redir W := mkRedir (f (file r)) (mode r) (fd r).
Fixpoint map_cmd {V W} (f : V -> W) (c : cmd V) : cmd W :=
  match c with
  | EXEC argv => EXEC (f <$> argv)
  | REDIR c r => REDIR (map_cmd f c) (map_redir f r)
  | PIPE l r => PIPE (map_cmd f l) (map_cmd f r)
  | LIST l r => LIST (map_cmd f l) (map_cmd f r)
  | BACK c => BACK (map_cmd f c)
  end.

Definition parse (line : list Z) : res pst (cmd (list Z)) :=
  match parsecmd (length line) (mkPst (line ++ [0]) 0) with
  | Ok c x => Ok (map_cmd (string_at (buf x)) c) x
  | Blocked ch x => Blocked ch x
  | Fault f => Fault f
  end.

(* a b >f | (c; d &) *)
Example parse_example :
  match parse [97; 32; 98; 62; 102; 124; 40; 99; 59; 100; 32; 38; 41; 10] with
  | Ok c _ => c = PIPE (REDIR (EXEC [[97]; [98]]) (mkRedir [102] 1537 1)) (LIST (EXEC [[99]]) (BACK (EXEC [[100]])))
  | _ => False
  end.
Proof. vm_compute. reflexivity. Qed.

(** ** Running a command *)

(** What a descriptor refers to. *)
Inductive end_ : Type :=
| Std (n : nat)                 (* what the shell was started with *)
| FileAt (name : list Z) (mode : Z)
| ReadEnd (n : nat) | WriteEnd (n : nat).

Definition NOFILE : nat := 16.
Definition fdtable := list (option end_).

(** A program started: its arguments and its descriptors. *)
Record started : Type := mkStarted { args : list (list Z); table : fdtable }.
Inductive event : Type := Start (p : started) | Complain (what : string).

(** The pipes made so far, and the events, in the order of the forks. *)
Record run_st : Type := mkRun { npipes : nat; log : list event }.
Definition emit (e : event) : M run_st unit := modify (fun s => mkRun (npipes s) (log s ++ [e])).

(** The lowest free descriptor, as fdalloc gives it out. *)
Fixpoint lowest (t : fdtable) : option nat :=
  match t with
  | [] => None
  | None :: _ => Some 0%nat
  | Some _ :: t' => S <$> lowest t'
  end.
Definition fdalloc (e : end_) (t : fdtable) : option (nat * fdtable) :=
  match lowest t with Some i => Some (i, <[i := Some e]> t) | None => None end.
Definition close (i : nat) (t : fdtable) : fdtable := <[i := None]> t.
Definition dup (i : nat) (t : fdtable) : fdtable :=
  match t !! i with
  | Some (Some e) => match fdalloc e t with Some (_, t') => t' | None => t end
  | _ => t
  end.
Definition pipe (t : fdtable) : M run_st (option (nat * nat * fdtable)) :=
  let! s := get in
  match fdalloc (ReadEnd (npipes s)) t with
  | None => ret None
  | Some (p0, t1) =>
      match fdalloc (WriteEnd (npipes s)) t1 with
      | None => ret None
      | Some (p1, t2) => put (mkRun (S (npipes s)) (log s)) ;; ret (Some (p0, p1, t2))
      end
  end.

Section Run.
(** Whether open succeeds. *)
Context (opens : list Z -> Z -> bool).

(** runcmd never returns to its caller; a forked child runs on a copy of the table.
    fork is taken to succeed. *)
Fixpoint runcmd (c : cmd (list Z)) (t : fdtable) : M run_st unit :=
  match c with
  | EXEC [] => ret tt                                   (* exit(1) *)
  | EXEC argv => emit (Start (mkStarted argv t))
  | REDIR c r =>
      let t := close (Z.to_nat (fd r)) t in
      if opens (file r) (mode r) then
        match fdalloc (FileAt (file r) (mode r)) t with
        | Some (_, t) => runcmd c t
        | None => emit (Complain "open failed")
        end
      else emit (Complain "open failed")
  | LIST l r => runcmd l t ;; runcmd r t
  | PIPE l r =>
      let! p := pipe t in
      match p with
      | None => emit (Complain "pipe")
      | Some (p0, p1, t) =>
          runcmd l (close p1 (close p0 (dup p1 (close 1 t)))) ;;
          runcmd r (close p1 (close p0 (dup p0 (close 0 t))))
      end
  | BACK c => runcmd c t
  end.
End Run.

(** ** A line of input *)

Inductive action : Type :=
| Skip
| Chdir (path : list Z)
| Run (r : res pst (cmd (list Z))).

Fixpoint skip_blanks (l : list Z) : list Z :=
  match l with c :: l' => if decide (c = 32 \/ c = 9) then skip_blanks l' else l | [] => [] end.

(** What main does with the line that gets has read, up to 99 characters. *)
Definition shell_line (line : list Z) : action :=
  let cmd := skip_blanks line in
  match cmd with
  | 10 :: _ => Skip
  | 99 :: 100 :: 32 :: path => Chdir (take (length path - 1) path)
  | _ => Run (parse cmd)
  end.
