(* ===== verification/ShSpec.v ===== *)
(** * The grammar of the shell

    A lexer and a context-free grammar over its tokens, written independently of the
    code; and the routines of sh.c that read tokens, shown to deliver those of the
    lexer. *)

From Stdlib Require Import ZArith Lia.
From stdpp Require Import base numbers list gmap strings.
From S2P Require Import Prelude Sh.
Open Scope Z_scope.

(** ** Tokens *)

Inductive token : Type := Word (w : list Z) | Sym (c : Z) | Append.

Definition is_ws (c : Z) : Prop := c ∈ whitespace.
Definition is_sym (c : Z) : Prop := c ∈ symbols.
Definition is_char (c : Z) : Prop := ~ is_ws c /\ ~ is_sym c.
#[export] Instance is_ws_dec c : Decision (is_ws c).
Proof. unfold is_ws. apply _. Defined.
#[export] Instance is_sym_dec c : Decision (is_sym c).
Proof. unfold is_sym. apply _. Defined.
#[export] Instance is_char_dec c : Decision (is_char c).
Proof. unfold is_char. apply _. Defined.

Definition flush (w : list Z) : list token := match w with [] => [] | _ => [Word w] end.
(** The tokens of [s] after the characters [w] of a word. *)
Fixpoint lex (w s : list Z) : list token :=
  match s with
  | [] => flush w
  | c :: s' =>
      if decide (is_ws c) then flush w ++ lex [] s'
      else if decide (is_sym c) then
        flush w ++
        match s' with
        | d :: s'' => if decide (c = GREATER /\ d = GREATER) then Append :: lex [] s'' else Sym c :: lex [] s'
        | [] => [Sym c]
        end
      else lex (w ++ [c]) s'
  end.

Lemma lex_ws c s : is_ws c -> lex [] (c :: s) = lex [] s.
Proof. intros Hc. cbn [lex]. by rewrite decide_True. Qed.
Lemma lex_sym c s : is_sym c -> (c = GREATER -> head s <> Some GREATER) -> lex [] (c :: s) = Sym c :: lex [] s.
Proof.
  intros Hc Hn. cbn [lex]. rewrite decide_False; [|intros Hw; unfold is_sym, is_ws, symbols, whitespace in *; set_solver].
  rewrite decide_True by done. destruct s as [|d s]; [done|]. rewrite decide_False; [done|]. naive_solver.
Qed.
Lemma lex_append s : lex [] (GREATER :: GREATER :: s) = Append :: lex [] s.
Proof. reflexivity. Qed.

Lemma sym_not_ws c : is_sym c -> ~ is_ws c.
Proof. unfold is_sym, is_ws, symbols, whitespace. intros Hs Hw. set_solver. Qed.

Lemma lex_acc w s : Forall is_char w -> lex [] (w ++ s) = lex w s.
Proof.
  enough (forall v, Forall is_char w -> lex v (w ++ s) = lex (v ++ w) s) as H by apply (H []).
  induction w as [|c w IH]; intros v Hw; [by rewrite app_nil_r|]. apply Forall_cons in Hw as [[Hc1 Hc2] Hw].
  simpl. rewrite decide_False by done. rewrite decide_False by done. rewrite IH by done. by rewrite <- app_assoc.
Qed.
Lemma lex_word w s :
  w <> [] -> Forall is_char w -> (forall c, head s = Some c -> ~ is_char c) -> lex [] (w ++ s) = Word w :: lex [] s.
Proof.
  intros Hne Hw Hs. rewrite lex_acc by done. assert (flush w = [Word w]) as Hf by (by destruct w).
  destruct s as [|c s]; simpl; [done|]. specialize (Hs c eq_refl). unfold is_char in Hs.
  destruct (decide (is_ws c)); [by rewrite Hf|]. destruct (decide (is_sym c)) as [|Hns]; [by rewrite Hf|]. tauto.
Qed.

Definition code (t : token) : Z := match t with Word _ => WORD | Sym c => c | Append => APPEND end.
(** Whether a token begins with one of the symbols [cs]. *)
Definition begins (cs : list Z) (ts : list token) : bool :=
  match ts with Sym c :: _ => bool_decide (c ∈ cs) | Append :: _ => bool_decide (GREATER ∈ cs) | _ => false end.

(** ** The grammar *)

Notation word := (list Z).
Definition amps (n : nat) : list token := replicate n (Sym AMP).
Fixpoint backs {W} (n : nat) (c : cmd W) : cmd W := match n with O => c | S n' => backs n' (BACK c) end.

(** '<' opens the file for reading as descriptor 0; '>' and '>>' open it for writing, made
    if need be, as descriptor 1, '>' emptying it first. *)
Inductive redirection : token -> word -> redir word -> Prop :=
| redirect_in w : redirection (Sym 60) w (mkRedir w 0 0)
| redirect_out w : redirection (Sym 62) w (mkRedir w (1 + 512 + 1024) 1)
| redirect_append w : redirection Append w (mkRedir w (1 + 512) 1).

Inductive redirs : list token -> list (redir word) -> Prop :=
| redirs_nil : redirs [] []
| redirs_cons t w r ts rs : redirection t w r -> redirs ts rs -> redirs (t :: Word w :: ts) (r :: rs).

Inductive words : list token -> list word -> list (redir word) -> Prop :=
| words_nil : words [] [] []
| words_cons w ts rs ts' ws rs' : redirs ts rs -> words ts' ws rs' -> words (Word w :: ts ++ ts') (w :: ws) (rs ++ rs').

(** With braces for repetition:
    line ::= pipe {'&'}, or pipe {'&'} ';' line;
    pipe ::= exec, or exec '|' pipe;
    exec ::= {redir} {word {redir}} with fewer than MAXARGS words, or '(' line ')' {redir}. *)
Inductive gline : list token -> cmd word -> Prop :=
| gline_end ts c n : gpipe ts c -> gline (ts ++ amps n) (backs n c)
| gline_seq ts c n ts' c' : gpipe ts c -> gline ts' c' -> gline (ts ++ amps n ++ Sym SEMI :: ts') (LIST (backs n c) c')
with gpipe : list token -> cmd word -> Prop :=
| gpipe_one ts c : gexec ts c -> gpipe ts c
| gpipe_bar ts c ts' c' : gexec ts c -> gpipe ts' c' -> gpipe (ts ++ Sym BAR :: ts') (PIPE c c')
with gexec : list token -> cmd word -> Prop :=
| gexec_simple ts rs ts' ws rs' :
    redirs ts rs -> words ts' ws rs' -> (length ws < MAXARGS)%nat -> gexec (ts ++ ts') (wrap (EXEC ws) (rs ++ rs'))
| gexec_block ts c ts' rs :
    gline ts c -> redirs ts' rs -> gexec (Sym OPEN :: ts ++ Sym CLOSE :: ts') (wrap c rs).

Scheme gline_mut := Minimality for gline Sort Prop
with gpipe_mut := Minimality for gpipe Sort Prop
with gexec_mut := Minimality for gexec Sort Prop.
Combined Scheme grammar_ind from gline_mut, gpipe_mut, gexec_mut.

(** ** The routines that read tokens *)

Section Line.
Context (line : list Z) (nonul : Forall (fun c => c <> 0) line).
Notation es := (length line).
Definition B : list Z := line ++ [0].
Definition toks (i : nat) : list token := lex [] (drop i line).
Definition at_pos (i : nat) : pst := mkPst B i.

Lemma rd_line i x : line !! i = Some x -> forall p, rd i (mkPst B p) = Ok x (mkPst B p).
Proof using. intros Hi p. unfold rd, B. cbn [buf]. by rewrite lookup_app_l, Hi by (by eapply lookup_lt_Some). Qed.
Lemma rd_end p : rd es (mkPst B p) = Ok 0 (mkPst B p).
Proof using. unfold rd, B. cbn [buf]. by rewrite lookup_app_r, Nat.sub_diag by done. Qed.
Lemma line_lookup i : (i < es)%nat -> exists c, line !! i = Some c /\ c <> 0 /\ drop i line = c :: drop (S i) line.
Proof using nonul.
  intros Hi. destruct (lookup_lt_is_Some_2 line i Hi) as [c Hc]. exists c. split; [done|].
  split; [by eapply Forall_lookup_1 in nonul|]. by apply drop_S.
Qed.
Lemma strchr_spec cs c : strchr cs c = bool_decide (c ∈ cs).
Proof using. done. Qed.

Lemma skip_ws_run k i p :
  (i + k = es)%nat -> exists j, skip_ws k i (mkPst B p) = Ok j (mkPst B p) /\ (i <= j <= es)%nat /\ toks j = toks i /\
    (forall c, line !! j = Some c -> ~ is_ws c).
Proof using nonul.
  revert i. induction k as [|k IH]; intros i Hk.
  - exists i. split; [done|]. split; [lia|]. split; [done|]. intros c Hc. apply lookup_lt_Some in Hc. lia.
  - destruct (line_lookup i ltac:(lia)) as (c & Hc & _ & Hd). cbn [skip_ws]. rewrite (bind_ok _ _ _ _ _ (rd_line i c Hc p)).
    rewrite strchr_spec. case_bool_decide as Hw.
    + destruct (IH (S i) ltac:(lia)) as (j & Hj & Hij & Ht & Hn). exists j. split; [done|]. split; [lia|]. split; [|done].
      rewrite Ht. unfold toks. by rewrite Hd, lex_ws.
    + exists i. split; [done|]. split; [lia|]. split; [done|]. intros c' Hc'. rewrite Hc in Hc'. by injection Hc' as <-.
Qed.

(** The first token from a position that is not on a blank. *)
Definition starts (j : nat) : Prop := forall c, line !! j = Some c -> ~ is_ws c.

Lemma starts_cases j : (j <= es)%nat -> starts j ->
  (j = es /\ toks j = []) \/
  exists c, (j < es)%nat /\ line !! j = Some c /\ c <> 0 /\ ~ is_ws c /\ drop j line = c :: drop (S j) line.
Proof using nonul.
  intros Hj Hs. destruct (decide (j = es)) as [->|]; [left; split; [done|]; unfold toks; by rewrite drop_all|right].
  destruct (line_lookup j ltac:(lia)) as (c & Hc & H0 & Hd). exists c. split; [lia|]. split_and!; try done. by apply Hs.
Qed.

Lemma lex_char_head c s v : is_char c -> exists w ts, lex v (c :: s) = Word w :: ts.
Proof using.
  revert v c. induction s as [|d s IH]; intros v c [H1 H2]; cbn [lex]; rewrite decide_False by done; rewrite decide_False by done.
  - exists (v ++ [c]), []. destruct v; done.
  - destruct (decide (is_char d)) as [Hd|Hd]; [by apply IH|]. unfold is_char in Hd. cbn [lex].
    assert (flush (v ++ [c]) = [Word (v ++ [c])]) as -> by (by destruct v).
    destruct (decide (is_ws d)); [simpl; by eexists _, _|]. destruct (decide (is_sym d)); [simpl; by eexists _, _|tauto].
Qed.

(** [begins] looks at the next character. *)
Lemma begins_char cs c s : (forall d, d ∈ cs -> is_sym d) -> ~ is_ws c -> begins cs (lex [] (c :: s)) = bool_decide (c ∈ cs).
Proof using.
  intros Hcs Hw. destruct (decide (is_sym c)) as [Hs|Hs].
  - destruct (decide (c = GREATER /\ head s = Some GREATER)) as [[-> Hd]|Hd].
    + destruct s as [|d s]; [done|]. injection Hd as ->. by rewrite lex_append.
    + rewrite lex_sym by (done || tauto). done.
  - destruct (lex_char_head c s []) as (w & ts & ->); [done|]. simpl. rewrite bool_decide_false; [done|]. intros Hc. by apply Hs, Hcs.
Qed.

Lemma peek_run cs i :
  (forall d, d ∈ cs -> is_sym d) -> (i <= es)%nat ->
  exists j, peek es cs (at_pos i) = Ok (begins cs (toks i)) (at_pos j) /\ (i <= j <= es)%nat /\ toks j = toks i /\ (toks i = [] -> j = es).
Proof using nonul.
  intros Hcs Hi. destruct (skip_ws_run (es - i) i i ltac:(lia)) as (j & Hj & Hij & Ht & Hn).
  exists j. unfold peek, at_pos. rewrite (bind_ok _ _ _ i (mkPst B i)) by done. rewrite (bind_ok _ _ _ _ _ Hj).
  rewrite (bind_ok _ _ _ tt (mkPst B j)) by done. rewrite <- Ht.
  destruct (starts_cases j ltac:(lia) Hn) as [[-> E]|(c & Hlt & Hc & H0 & Hw & Hd)].
  - rewrite E, (bind_ok _ _ _ _ _ (rd_end es)). done.
  - rewrite (bind_ok _ _ _ _ _ (rd_line j c Hc j)). unfold toks. rewrite Hd, begins_char by done. rewrite strchr_spec.
    rewrite bool_decide_true by done. split; [done|]. split; [lia|]. split; [done|]. intros E.
    destruct (decide (is_sym c)) as [Hs|Hs].
    + cbn [lex] in E. rewrite decide_False in E by done. rewrite decide_True in E by done.
      destruct (drop (S j) line); [done|]. simpl in E. by case_decide.
    + destruct (lex_char_head c (drop (S j) line) []) as (w & ts & E'); [done|]. congruence.
Qed.

(** The characters of a word, and what delimits one. *)
Definition word_at (w : span) : word := take (w.2 - w.1) (drop w.1 line).
Definition good (w : span) : Prop :=
  (w.1 < w.2 <= es)%nat /\ Forall is_char (word_at w) /\ (forall c, line !! w.2 = Some c -> ~ is_char c).

Lemma is_charb c : negb (strchr whitespace c) && negb (strchr symbols c) = bool_decide (is_char c).
Proof using.
  rewrite !strchr_spec. unfold is_char, is_ws, is_sym. repeat case_bool_decide; simpl; tauto.
Qed.

Lemma skip_word_run k i p :
  (i + k = es)%nat -> exists e, skip_word k i (mkPst B p) = Ok e (mkPst B p) /\ (i <= e <= es)%nat /\
    Forall is_char (word_at (i, e)) /\ (forall c, line !! e = Some c -> ~ is_char c).
Proof using nonul.
  revert i. induction k as [|k IH]; intros i Hk.
  - exists i. split; [done|]. split; [lia|]. unfold word_at. simpl. rewrite Nat.sub_diag. split; [constructor|].
    intros c Hc. apply lookup_lt_Some in Hc. lia.
  - destruct (line_lookup i ltac:(lia)) as (c & Hc & _ & Hd). cbn [skip_word]. rewrite (bind_ok _ _ _ _ _ (rd_line i c Hc p)).
    rewrite is_charb. case_bool_decide as Hw.
    + destruct (IH (S i) ltac:(lia)) as (e & He & Hie & Hf & Hn). exists e. split; [done|]. split; [lia|]. split; [|done].
      unfold word_at in *. simpl in *. rewrite Hd. replace (e - i)%nat with (S (e - S i)) by lia. simpl. by constructor.
    + exists i. split; [done|]. split; [lia|]. unfold word_at. simpl. rewrite Nat.sub_diag. split; [constructor|].
      intros c' Hc'. rewrite Hc in Hc'. by injection Hc' as <-.
Qed.

Lemma toks_word w : good w -> toks w.1 = Word (word_at w) :: toks w.2.
Proof using.
  intros (Hw & Hc & Hn). unfold toks. set (v := word_at w).
  assert (drop w.1 line = v ++ drop w.2 line) as ->.
  { unfold v, word_at. replace (drop w.2 line) with (drop (w.2 - w.1) (drop w.1 line)).
    - by rewrite take_drop.
    - rewrite drop_drop. f_equal. lia. }
  apply lex_word; [|done|].
  - intros E. apply (f_equal length) in E. unfold v, word_at in E. rewrite length_take, length_drop in E. simpl in E. lia.
  - intros c Hh. apply Hn. destruct (drop w.2 line) as [|d l] eqn:Ed; [done|]. injection Hh as ->.
    rewrite <- (Nat.add_0_r w.2), <- lookup_drop, Ed. done.
Qed.

(** A token is read. *)
Lemma gettoken_end i : (i <= es)%nat -> toks i = [] -> exists w, gettoken es (at_pos i) = Ok (0, w) (at_pos es).
Proof using nonul.
  intros Hi E. destruct (skip_ws_run (es - i) i i ltac:(lia)) as (j & Hj & Hij & Ht & Hn).
  destruct (starts_cases j ltac:(lia) Hn) as [[-> _]|(c & Hlt & Hc & H0 & Hw & Hd)].
  - exists (es, es). unfold gettoken, at_pos. rewrite (bind_ok _ _ _ i (mkPst B i)) by done. rewrite (bind_ok _ _ _ _ _ Hj).
    cbv zeta. rewrite (bind_ok _ _ _ _ _ (rd_end i)). rewrite decide_True by done. rewrite (bind_ok _ _ _ _ _ eq_refl).
    by rewrite Nat.sub_diag.
  - exfalso. destruct (peek_run symbols i ltac:(done) Hi) as (j' & _ & _ & _ & Hes).
    rewrite E in Ht. unfold toks in Ht. rewrite Hd in Ht. destruct (decide (is_sym c)) as [Hs|Hs].
    + cbn [lex] in Ht. rewrite decide_False in Ht by done. rewrite decide_True in Ht by done.
      destruct (drop (S j) line); [done|]. simpl in Ht. by case_decide.
    + destruct (lex_char_head c (drop (S j) line) []) as (w & ts & E'); [done|]. congruence.
Qed.

Lemma gettoken_run i t ts :
  (i <= es)%nat -> toks i = t :: ts ->
  exists w j, gettoken es (at_pos i) = Ok (code t, w) (at_pos j) /\ (i < j <= es)%nat /\ toks j = ts /\
    match t with Word v => good w /\ word_at w = v | Sym c => is_sym c | Append => True end.
Proof using nonul.
  intros Hi E. destruct (skip_ws_run (es - i) i i ltac:(lia)) as (j & Hj & Hij & Ht & Hn). rewrite E in Ht.
  destruct (starts_cases j ltac:(lia) Hn) as [[_ E']|(c & Hlt & Hc & H0 & Hw & Hd)]; [congruence|].
  assert (forall r e, (j < e <= es)%nat -> toks e = ts ->
    (if decide (c = 0) then ret (c, j)
     else if decide (c = BAR \/ c = OPEN \/ c = CLOSE \/ c = SEMI \/ c = AMP \/ c = LESS) then ret (c, S j)
     else if decide (c = GREATER) then
       let! d := rd (S j) in
       if decide (d = GREATER) then ret (APPEND, S (S j)) else ret (c, S j)
     else let! s' := skip_word (es - j) j in ret (WORD, s')) (at_pos i) = Ok (r, e) (at_pos i) ->
    exists j', gettoken es (at_pos i) = Ok (r, (j, e)) (at_pos j') /\ (i < j' <= es)%nat /\ toks j' = ts) as Hrun.
  { intros r e He Hte Hr. destruct (skip_ws_run (es - e) e i ltac:(lia)) as (j' & Hj' & Hij' & Ht' & _).
    exists j'. split; [|split; [lia|congruence]]. unfold gettoken, at_pos in *.
    rewrite (bind_ok _ _ _ i (mkPst B i)) by done. rewrite (bind_ok _ _ _ _ _ Hj). cbv zeta.
    rewrite (bind_ok _ _ _ _ _ (rd_line j c Hc i)). rewrite (bind_ok _ _ _ _ _ Hr). by rewrite (bind_ok _ _ _ _ _ Hj'). }
  rewrite decide_False in Hrun by done. unfold toks in Ht. rewrite Hd in Ht. destruct (decide (is_sym c)) as [Hs|Hs].
  - destruct (decide (c = GREATER)) as [->|Hg].
    + rewrite decide_False in Hrun by (unfold GREATER, BAR, OPEN, CLOSE, SEMI, AMP, LESS; lia).
      destruct (decide (S j = es)) as [Hes|Hes].
      * rewrite drop_ge in Ht by lia. injection Ht as <- <-. destruct (Hrun GREATER (S j)) as (j' & ? & ? & ?);
          [lia|unfold toks; by rewrite drop_ge by lia| |by eexists _, _].
        rewrite Hes. unfold at_pos. by rewrite (bind_ok _ _ _ _ _ (rd_end i)).
      * destruct (line_lookup (S j) ltac:(lia)) as (d & Hd' & _ & Hdd). unfold at_pos in Hrun.
        rewrite (bind_ok _ _ _ _ _ (rd_line (S j) d Hd' i)) in Hrun. rewrite Hdd in Ht.
        destruct (decide (d = GREATER)) as [->|Hdg].
        -- rewrite lex_append in Ht. injection Ht as <- <-. destruct (Hrun APPEND (S (S j))) as (j' & ? & ? & ?); [lia|done|done|by eexists _, _].
        -- rewrite lex_sym in Ht by (done || naive_solver). injection Ht as <- <-.
           destruct (Hrun GREATER (S j)) as (j' & ? & ? & ?); [lia|unfold toks; by rewrite Hdd|done|by eexists _, _].
    + rewrite decide_True in Hrun by (unfold is_sym, symbols in Hs; set_solver).
      rewrite lex_sym in Ht by done. injection Ht as <- <-.
      destruct (Hrun c (S j)) as (j' & ? & ? & ?); [lia|done|done|by eexists _, _].
  - rewrite decide_False in Hrun by (unfold is_sym, symbols in Hs; set_solver).
    rewrite decide_False in Hrun by (unfold is_sym, symbols in Hs; set_solver).
    destruct (skip_word_run (es - j) j i ltac:(lia)) as (e & He & Hje & Hf & Hb).
    assert (j < e)%nat as Hlt'.
    { destruct (decide (j = e)) as [<-|]; [|lia]. by destruct (Hb c Hc). }
    assert (good (j, e)) as Hgood by (split; [simpl; lia|done]).
    pose proof (toks_word (j, e) Hgood) as Hte. simpl in Hte. unfold toks in Hte at 1. rewrite Hd, Ht in Hte. injection Hte as -> ->.
    destruct (Hrun WORD e) as (j' & ? & ? & ?); [lia|done|unfold at_pos; by rewrite (bind_ok _ _ _ _ _ He)|by eexists _, _].
Qed.
End Line.
