(* ===== verification/ShProps.v ===== *)
(** * The parser of the shell decides its grammar *)

From Stdlib Require Import ZArith Lia.
From stdpp Require Import base numbers list gmap strings.
From S2P Require Import Prelude Sh ShSpec.
Open Scope Z_scope.

Fixpoint spans (c : cmd span) : list span :=
  match c with
  | EXEC argv => argv
  | REDIR c r => spans c ++ [file r]
  | PIPE l r | LIST l r => spans l ++ spans r
  | BACK c => spans c
  end.

Lemma spans_wrap c rs : spans (wrap c rs) = spans c ++ (file <$> rs).
Proof.
  revert c. induction rs as [|r rs IH]; intros c; simpl; [by rewrite app_nil_r|].
  unfold wrap in *. simpl. rewrite IH. simpl. by rewrite <- app_assoc.
Qed.
Lemma spans_backs n c : spans (backs n c) = spans c.
Proof. revert c. induction n as [|n IH]; intros c; simpl; [done|]. by rewrite IH. Qed.
Lemma map_wrap {V W} (f : V -> W) c rs : map_cmd f (wrap c rs) = wrap (map_cmd f c) (map_redir f <$> rs).
Proof. revert c. induction rs as [|r rs IH]; intros c; [done|]. unfold wrap in *. simpl. by rewrite IH. Qed.
Lemma map_backs {V W} (f : V -> W) n c : map_cmd f (backs n c) = backs n (map_cmd f c).
Proof. revert c. induction n as [|n IH]; intros c; simpl; [done|]. by rewrite IH. Qed.
Lemma redir_of_map {V W} (f : V -> W) t w : redir_of t (f w) = map_redir f <$> redir_of t w.
Proof. unfold redir_of. by repeat case_decide. Qed.

Lemma lex_length w s : (length (lex w s) <= length s + (if w then 0 else 1))%nat.
Proof.
  assert (forall n s w, (length s <= n)%nat -> (length (lex w s) <= length s + (if w then 0 else 1))%nat) as H; [|by apply (H (length s))].
  intros n. clear. induction n as [|n IH]; intros s w Hn; (destruct s as [|c s]; [destruct w; simpl; lia|]); simpl in Hn; [lia|].
  cbn [lex length]. assert (length (flush w) = if w then 0 else 1)%nat as Hf by (by destruct w).
  case_decide; [rewrite length_app, Hf; specialize (IH s [] ltac:(lia)); simpl in IH; lia|].
  case_decide; [|specialize (IH s (w ++ [c]) ltac:(lia)); destruct (w ++ [c]); lia].
  rewrite length_app, Hf. destruct s as [|d s]; [simpl; lia|].
  case_decide; cbn [length]; [specialize (IH s [] ltac:(simpl in *; lia))|specialize (IH (d :: s) [] ltac:(lia))]; simpl in *; lia.
Qed.

(** The codes of the tokens differ. *)
Lemma code_word c : is_sym c -> c <> WORD /\ c <> APPEND /\ c <> 0.
Proof. unfold is_sym, symbols, WORD, APPEND, LESS, BAR, GREATER, AMP, SEMI, OPEN, CLOSE. set_solver. Qed.

Lemma redirection_of t w r : redirection t w r -> redir_of (code t) w = Some r.
Proof. by destruct 1. Qed.
Lemma redirection_begins t w r ts : redirection t w r -> begins [LESS; GREATER] (t :: ts) = true.
Proof. by destruct 1. Qed.

Section Line.
Context (line : list Z) (nonul : Forall (fun c => c <> 0) line).
Notation es := (length line).
Notation at_pos := (at_pos line).
Notation toks := (toks line).
Notation good := (good line).
Notation word_at := (word_at line).

Lemma toks_length i : (length (toks i) <= es)%nat.
Proof using. pose proof (lex_length [] (drop i line)) as H. rewrite length_drop in H. unfold ShSpec.toks. lia. Qed.

(** ** Outcomes of the parsing routines *)

Definition outcome {A} (i : nat) (r : res pst A) (Q : nat -> A -> Prop) : Prop :=
  (exists a j, r = Ok a (at_pos j) /\ (i <= j <= es)%nat /\ Q j a) \/ exists m, r = Fault (Panic m).

Lemma outcome_ret {A} i (a : A) (Q : nat -> A -> Prop) : (i <= es)%nat -> Q i a -> outcome i (ret a (at_pos i)) Q.
Proof using. intros Hi Hq. left. exists a, i. split; [done|]. split; [lia|done]. Qed.
Lemma outcome_panic {A} i m (Q : nat -> A -> Prop) : outcome i (panic m (at_pos i)) Q.
Proof using. right. by exists m. Qed.
Lemma outcome_bind {A C} i (m : M pst A) (k : A -> M pst C) (Q : nat -> A -> Prop) (R : nat -> C -> Prop) :
  outcome i (m (at_pos i)) Q -> (forall a j, (i <= j <= es)%nat -> Q j a -> outcome j (k a (at_pos j)) R) ->
  outcome i ((let! a := m in k a) (at_pos i)) R.
Proof using.
  intros [(a & j & Hm & Hij & Hq)|[msg Hm]] Hk; unfold bind; rewrite Hm; [|right; by eexists].
  destruct (Hk a j Hij Hq) as [(b & j' & Hr & Hj' & Hb)|Hp]; [left|by right]. exists b, j'. split; [done|]. split; [lia|done].
Qed.
Lemma outcome_weaken {A} i (r : res pst A) (Q R : nat -> A -> Prop) :
  outcome i r Q -> (forall j a, (i <= j <= es)%nat -> Q j a -> R j a) -> outcome i r R.
Proof using. intros [(a & j & ? & ? & ?)|?] Himp; [left|by right]. exists a, j. auto. Qed.

Lemma peek_outcome cs i : (forall d, d ∈ cs -> is_sym d) -> (i <= es)%nat ->
  outcome i (peek es cs (at_pos i)) (fun j b => toks j = toks i /\ b = begins cs (toks i) /\ (toks i = [] -> j = es)).
Proof using nonul.
  intros Hcs Hi. left. destruct (peek_run line nonul cs i Hcs Hi) as (j & Hp & Hij & Ht & He). by exists (begins cs (toks i)), j.
Qed.
Lemma gettoken_outcome i : (i <= es)%nat ->
  outcome i (gettoken es (at_pos i)) (fun j tw =>
    toks i = [] /\ tw.1 = 0 /\ j = es \/
    exists t, toks i = t :: toks j /\ tw.1 = code t /\ (i < j)%nat /\
      match t with Word v => good tw.2 /\ word_at tw.2 = v | Sym c => is_sym c | Append => True end).
Proof using nonul.
  intros Hi. left. destruct (toks i) as [|t ts] eqn:E.
  - destruct (gettoken_end line nonul i Hi E) as [w Hg]. exists (0, w), es. split; [done|]. split; [lia|]. by left.
  - destruct (gettoken_run line nonul i t ts Hi E) as (w & j & Hg & Hij & Ht & Hw). exists (code t, w), j.
    split; [done|]. split; [lia|]. right. exists t. rewrite Ht. split; [done|]. split; [done|]. split; [lia|done].
Qed.

Ltac syms := intros ? ?; unfold is_sym, symbols in *; set_solver.

Lemma parseredirs_sound k rs i :
  (i <= es)%nat -> (length (toks i) < k)%nat ->
  outcome i (parseredirs es k rs (at_pos i)) (fun j rs' => exists pre new,
    toks i = pre ++ toks j /\ rs' = rs ++ new /\ Forall good (file <$> new) /\ redirs pre (map_redir word_at <$> new) /\
    begins [LESS; GREATER] (toks j) = false).
Proof using nonul.
  revert i rs. induction k as [|k IH]; intros i rs Hi Hk; [lia|]. cbn [parseredirs].
  eapply outcome_bind; [apply peek_outcome; [syms|done]|]. intros b j Hj (Ht & -> & _).
  destruct (begins [LESS; GREATER] (toks i)) eqn:Hb.
  2:{ apply outcome_ret; [lia|]. exists [], []. rewrite Ht, app_nil_r. split; [done|]. split; [done|]. split; [constructor|]. split; [constructor|done]. }
  eapply outcome_bind; [apply gettoken_outcome; lia|]. intros [c w0] j1 Hj1 [(E & _)|(t & E & Hc & _ & Hsy)].
  { rewrite <- Ht, E in Hb. done. }
  rewrite Ht in E. rewrite E in Hb. simpl in Hc. subst c.
  eapply outcome_bind; [apply gettoken_outcome; lia|]. intros [a w] j2 Hj2 Hcase. simpl in Hcase.
  destruct (decide (a <> WORD)) as [|Ha]; [apply outcome_panic|]. apply dec_stable in Ha. subst a.
  destruct Hcase as [(_ & Hz & _)|(t' & E' & Hc' & _ & Hw)]; [done|].
  assert (exists v, t' = Word v) as [v ->].
  { destruct t' as [v|c|]; [by exists v| |done]. simpl in Hc'. subst c. by destruct (code_word WORD Hw). }
  destruct Hw as [Hgood Hv].
  assert (exists r, redir_of (code t) w = Some r /\ file r = w /\ redirection t (word_at w) (map_redir word_at r)) as (r & Hr & Hfr & Hrn).
  { destruct t as [v'|c|]; [done| |eexists; split; [reflexivity|split; [reflexivity|constructor]]]. simpl in Hb |- *. apply bool_decide_eq_true in Hb.
    apply elem_of_cons in Hb as [->|[->|[]%not_elem_of_nil]%elem_of_cons]; (eexists; split; [reflexivity|split; [reflexivity|constructor]]). }
  rewrite Hr. rewrite E' in E. assert (length (toks j2) < k)%nat as Hk2 by (rewrite E in Hk; simpl in Hk; lia).
  eapply outcome_weaken; [apply (IH j2 (rs ++ [r])); [lia|done]|]. intros j' a Hj' (pre & new & E2 & -> & Hg & Hrd & Hnb).
  exists (t :: Word v :: pre), (r :: new). split; [by rewrite E, E2|]. split; [by rewrite <- app_assoc|].
  split; [simpl; constructor; [by rewrite Hfr|done]|]. split; [|done]. simpl. constructor; [|done].
  by rewrite <- Hv.
Qed.

Lemma parseargs_sound k argv rs i :
  (i <= es)%nat -> (1 <= k)%nat -> (length argv + k = MAXARGS)%nat ->
  outcome i (parseargs es k argv rs (at_pos i)) (fun j c => exists pre ws new,
    toks i = pre ++ toks j /\ c = wrap (EXEC (argv ++ ws)) (rs ++ new) /\ Forall good ws /\ Forall good (file <$> new) /\
    words pre (word_at <$> ws) (map_redir word_at <$> new) /\ (length (argv ++ ws) < MAXARGS)%nat).
Proof using nonul.
  revert i argv rs. induction k as [|k IH]; intros i argv rs Hi Hk Hlen; [lia|]. cbn [parseargs].
  assert (forall j, toks j = toks i -> exists pre ws new,
    toks i = pre ++ toks j /\ wrap (EXEC argv) rs = wrap (EXEC (argv ++ ws)) (rs ++ new) /\ Forall good ws /\ Forall good (file <$> new) /\
    words pre (word_at <$> ws) (map_redir word_at <$> new) /\ (length (argv ++ ws) < MAXARGS)%nat) as Hstop.
  { intros j Ht. exists [], [], []. rewrite Ht, !app_nil_r. split; [done|]. split; [done|]. split; [constructor|]. split; [constructor|]. split; [constructor|lia]. }
  eapply outcome_bind; [apply peek_outcome; [syms|done]|]. intros b j Hj (Ht & _ & _).
  destruct b; [apply outcome_ret; [lia|by apply Hstop]|].
  eapply outcome_bind; [apply gettoken_outcome; lia|]. intros [tok w] j1 Hj1 Hcase. simpl in Hcase.
  destruct (decide (tok = 0)) as [->|Hz].
  { apply outcome_ret; [lia|]. apply Hstop. destruct Hcase as [(E & _ & ->)|(t & E & Hc & _ & Hw)].
    - rewrite <- Ht, E. unfold ShSpec.toks. by rewrite drop_all.
    - destruct t as [v|c|]; [done| |done]. simpl in Hc. subst c. by destruct (code_word 0 Hw) as (_ & _ & []). }
  destruct (decide (tok <> WORD)) as [|Hw]; [apply outcome_panic|]. apply dec_stable in Hw. subst tok.
  destruct (decide (k = 0)%nat) as [|Hk0]; [apply outcome_panic|].
  destruct Hcase as [(_ & ? & _)|(t & E & Hc & _ & Hw)]; [done|].
  assert (exists v, t = Word v) as [v ->].
  { destruct t as [v|c|]; [by exists v| |done]. simpl in Hc. subst c. by destruct (code_word WORD Hw). }
  destruct Hw as [Hgood Hv].
  eapply outcome_bind; [apply (parseredirs_sound (S es) rs j1); [lia|pose proof (toks_length j1); lia]|].
  intros rs' j2 Hj2 (pre & new & E1 & -> & Hg & Hrd & _).
  eapply outcome_weaken; [apply (IH j2 (argv ++ [w]) (rs ++ new)); [lia|lia|rewrite length_app; simpl; lia]|].
  intros j' c Hj' (pre' & ws & new' & E2 & -> & Hgw & Hgn & Hwds & Hl).
  exists (Word v :: pre ++ pre'), (w :: ws), (new ++ new'). rewrite <- Ht, E, E1, E2. rewrite <- !app_assoc in *. simpl.
  split; [by rewrite <- app_assoc|]. split; [done|]. split; [by constructor|]. split; [rewrite fmap_app; by apply Forall_app|].
  split; [|done]. rewrite fmap_app, Hv. by constructor.
Qed.

Lemma parsebacks_sound k c i :
  (i <= es)%nat -> (length (toks i) < k)%nat ->
  outcome i (parsebacks es k c (at_pos i)) (fun j c' => exists n, toks i = amps n ++ toks j /\ c' = backs n c).
Proof using nonul.
  revert i c. induction k as [|k IH]; intros i c Hi Hk; [lia|]. cbn [parsebacks].
  eapply outcome_bind; [apply peek_outcome; [syms|done]|]. intros b j Hj (Ht & -> & _).
  destruct (begins [AMP] (toks i)) eqn:Hb; [|apply outcome_ret; [lia|]; exists 0%nat; by rewrite Ht].
  eapply outcome_bind; [apply gettoken_outcome; lia|]. intros [x w] j1 Hj1 [(E & _)|(t & E & _)].
  { rewrite <- Ht, E in Hb. done. }
  rewrite Ht in E. rewrite E in Hb. assert (t = Sym AMP) as ->.
  { destruct t as [v|d|]; [done| |done]. simpl in Hb. apply bool_decide_eq_true in Hb. by apply list_elem_of_singleton in Hb as ->. }
  eapply outcome_weaken; [apply (IH j1 (BACK c)); [lia|rewrite E in Hk; simpl in Hk; lia]|].
  intros j' c' Hj' (n & E1 & ->). exists (S n). by rewrite E, E1.
Qed.

(** [c] has been parsed between [i] and [j], as the grammar rule [G] says. *)
Definition parsed (G : list token -> cmd word -> Prop) (i j : nat) (c : cmd span) : Prop :=
  exists pre, toks i = pre ++ toks j /\ Forall good (spans c) /\ G pre (map_cmd word_at c).

(** A symbol that peek has seen is read. *)
Lemma sym_outcome c i :
  is_sym c -> c <> GREATER -> (i <= es)%nat -> begins [c] (toks i) = true ->
  outcome i (gettoken es (at_pos i)) (fun j _ => toks i = Sym c :: toks j).
Proof using nonul.
  intros Hs Hg Hi Hb. eapply outcome_weaken; [by apply gettoken_outcome|]. intros j [x w] Hj [(E & _)|(t & E & _)].
  - by rewrite E in Hb.
  - rewrite E in Hb |- *. destruct t as [v|d|]; [done| |]; simpl in Hb; apply bool_decide_eq_true, list_elem_of_singleton in Hb;
      [by rewrite Hb|congruence].
Qed.

Ltac sym := unfold is_sym, symbols; set_solver.

Lemma parse_sound n :
  (forall i, (i <= es)%nat -> (4 * length (toks i) + 4 <= n)%nat -> outcome i (parseline es n (at_pos i)) (parsed gline i)) /\
  (forall i, (i <= es)%nat -> (4 * length (toks i) + 3 <= n)%nat -> outcome i (parsepipe es n (at_pos i)) (parsed gpipe i)) /\
  (forall i, (i <= es)%nat -> (4 * length (toks i) + 2 <= n)%nat -> outcome i (parseexec es n (at_pos i)) (parsed gexec i)) /\
  (forall i, (i <= es)%nat -> begins [OPEN] (toks i) = true -> (4 * length (toks i) + 1 <= n)%nat ->
     outcome i (parseblock es n (at_pos i)) (parsed gexec i)).
Proof using nonul.
  assert (forall i pre j, toks i = pre ++ toks j -> length (toks i) = length pre + length (toks j))%nat as Hlen
    by (intros i pre j ->; by rewrite length_app).
  induction n as [|n (IHl & IHp & IHe & IHb)]; [split_and!; intros; lia|]. split_and!; intros i Hi.
  - intros Hn. cbn [parseline]. eapply outcome_bind; [apply IHp; lia|]. intros c j Hj (pre & E & Hg & HG).
    eapply outcome_bind; [apply (parsebacks_sound (S es) c j); [lia|pose proof (toks_length j); lia]|].
    intros c1 j1 Hj1 (k & E1 & ->). eapply outcome_bind; [apply (peek_outcome [SEMI]); [syms|lia]|]. intros b j2 Hj2 (Ht & -> & _).
    destruct (begins [SEMI] (toks j1)) eqn:Hb.
    + rewrite <- Ht in Hb. eapply outcome_bind; [apply (sym_outcome SEMI); [sym|done|lia|done]|]. intros tw j3 Hj3 E3.
      assert (length (toks j3) < length (toks i))%nat by (rewrite E, E1, <- Ht, E3, !length_app; simpl; lia).
      eapply outcome_bind; [apply IHl; lia|]. intros c' j4 Hj4 (pre' & E4 & Hg' & HG').
      apply outcome_ret; [lia|]. exists (pre ++ amps k ++ Sym SEMI :: pre').
      split; [rewrite E, E1, <- Ht, E3, E4, <- !app_assoc; done|]. simpl. rewrite spans_backs, map_backs.
      split; [by apply Forall_app|]. by constructor.
    + apply outcome_ret; [lia|]. exists (pre ++ amps k). split; [by rewrite E, E1, Ht, <- app_assoc|].
      rewrite spans_backs, map_backs. split; [done|]. by constructor.
  - intros Hn. cbn [parsepipe]. eapply outcome_bind; [apply IHe; lia|]. intros c j Hj (pre & E & Hg & HG).
    eapply outcome_bind; [apply (peek_outcome [BAR]); [syms|lia]|]. intros b j2 Hj2 (Ht & -> & _).
    destruct (begins [BAR] (toks j)) eqn:Hb.
    + rewrite <- Ht in Hb. eapply outcome_bind; [apply (sym_outcome BAR); [sym|done|lia|done]|]. intros tw j3 Hj3 E3.
      assert (length (toks j3) < length (toks i))%nat by (rewrite E, <- Ht, E3, !length_app; simpl; lia).
      eapply outcome_bind; [apply IHp; lia|]. intros c' j4 Hj4 (pre' & E4 & Hg' & HG').
      apply outcome_ret; [lia|]. exists (pre ++ Sym BAR :: pre'). split; [rewrite E, <- Ht, E3, E4, <- !app_assoc; done|].
      simpl. split; [by apply Forall_app|]. by constructor.
    + apply outcome_ret; [lia|]. exists pre. rewrite Ht. split; [done|]. split; [done|]. by constructor.
  - intros Hn. cbn [parseexec]. eapply outcome_bind; [apply (peek_outcome [OPEN]); [syms|lia]|]. intros b j Hj (Ht & -> & _).
    destruct (begins [OPEN] (toks i)) eqn:Hb.
    + eapply outcome_weaken; [apply IHb; [lia|by rewrite Ht|rewrite Ht; lia]|]. intros j' c Hj' (pre & E & H2). exists pre. by rewrite <- Ht.
    + eapply outcome_bind; [apply (parseredirs_sound (S es) [] j); [lia|pose proof (toks_length j); lia]|].
      intros rs j1 Hj1 (pre & new & E1 & -> & Hg & Hrd & _).
      eapply outcome_weaken; [apply (parseargs_sound MAXARGS [] new j1); [lia|unfold MAXARGS; lia|done]|].
      intros j' c Hj' (pre' & ws & new' & E2 & -> & Hgw & Hgn & Hw & Hl). simpl in Hl |- *.
      exists (pre ++ pre'). split; [by rewrite <- Ht, E1, E2, <- app_assoc|]. rewrite spans_wrap, fmap_app. simpl.
      split; [by rewrite !Forall_app|]. rewrite map_wrap, fmap_app. simpl. constructor; [done|done|by rewrite length_fmap].
  - intros Hb Hn. cbn [parseblock]. eapply outcome_bind; [apply (peek_outcome [OPEN]); [syms|lia]|]. intros b j Hj (Ht & -> & _).
    rewrite Hb. rewrite <- Ht in Hb. simpl. eapply outcome_bind; [apply (sym_outcome OPEN); [sym|done|lia|done]|]. intros tw j1 Hj1 E1.
    rewrite <- Ht, E1 in Hn. simpl in Hn. eapply outcome_bind; [apply IHl; lia|]. intros c j2 Hj2 (pre & E & Hg & HG).
    eapply outcome_bind; [apply (peek_outcome [CLOSE]); [syms|lia]|]. intros b j3 Hj3 (Ht3 & -> & _).
    destruct (begins [CLOSE] (toks j2)) eqn:Hb2; simpl; [|apply outcome_panic]. rewrite <- Ht3 in Hb2.
    eapply outcome_bind; [apply (sym_outcome CLOSE); [sym|done|lia|done]|]. intros tw' j4 Hj4 E4.
    eapply outcome_bind; [apply (parseredirs_sound (S es) [] j4); [lia|pose proof (toks_length j4); lia]|].
    intros rs j5 Hj5 (pre' & new & E5 & -> & Hg' & Hrd & _). apply outcome_ret; [lia|].
    exists (Sym OPEN :: pre ++ Sym CLOSE :: pre'). split; [rewrite <- Ht, E1, E, <- Ht3, E4, E5; simpl; rewrite <- app_assoc; done|].
    simpl. rewrite spans_wrap, map_wrap. split; [by apply Forall_app|]. by constructor.
Qed.

(** ** Every derivation is found *)

(** A routine returns a value in [Q] and leaves the tokens [rest]. *)
Definition yields {A} (i : nat) (r : res pst A) (rest : list token) (Q : A -> Prop) : Prop :=
  exists a j, r = Ok a (at_pos j) /\ (i <= j <= es)%nat /\ toks j = rest /\ Q a.

Lemma yields_ret {A} i (a : A) (Q : A -> Prop) : (i <= es)%nat -> Q a -> yields i (ret a (at_pos i)) (toks i) Q.
Proof using. intros Hi Hq. exists a, i. split; [done|]. split; [lia|done]. Qed.
Lemma yields_bind {A C} i (m : M pst A) (k : A -> M pst C) rest1 (Q : A -> Prop) rest (R : C -> Prop) :
  yields i (m (at_pos i)) rest1 Q ->
  (forall a j, (i <= j <= es)%nat -> toks j = rest1 -> Q a -> yields j (k a (at_pos j)) rest R) ->
  yields i ((let! a := m in k a) (at_pos i)) rest R.
Proof using.
  intros (a & j & Hm & Hij & Ht & Hq) Hk. destruct (Hk a j Hij Ht Hq) as (b & j' & Hr & Hj' & Hrest).
  exists b, j'. rewrite (bind_ok _ _ _ _ _ Hm). split; [done|]. split; [lia|done].
Qed.
Lemma yields_weaken {A} i (r : res pst A) rest (Q R : A -> Prop) : yields i r rest Q -> (forall a, Q a -> R a) -> yields i r rest R.
Proof using. intros (a & j & ? & ? & ? & ?) Himp. exists a, j. auto. Qed.

Lemma peek_yields cs i : (forall d, d ∈ cs -> is_sym d) -> (i <= es)%nat ->
  yields i (peek es cs (at_pos i)) (toks i) (fun b => b = begins cs (toks i)).
Proof using nonul.
  intros Hcs Hi. destruct (peek_run line nonul cs i Hcs Hi) as (j & Hp & Hij & Ht & _). by exists (begins cs (toks i)), j.
Qed.
Lemma gettoken_yields i t ts : (i <= es)%nat -> toks i = t :: ts ->
  yields i (gettoken es (at_pos i)) ts (fun tw => tw.1 = code t /\ forall v, t = Word v -> word_at tw.2 = v).
Proof using nonul.
  intros Hi E. destruct (gettoken_run line nonul i t ts Hi E) as (w & j & Hg & Hij & Ht & Hw).
  exists (code t, w), j. split; [done|]. split; [lia|]. split; [done|]. split; [done|]. intros v ->. by destruct Hw.
Qed.
Lemma gettoken_yields_end i : (i <= es)%nat -> toks i = [] -> yields i (gettoken es (at_pos i)) [] (fun tw => tw.1 = 0).
Proof using nonul.
  intros Hi E. destruct (gettoken_end line nonul i Hi E) as [w Hg]. exists (0, w), es. split; [done|]. split; [lia|].
  split; [unfold ShSpec.toks; by rewrite drop_all|done].
Qed.

Lemma toks_sym i c ts : (i <= es)%nat -> toks i = Sym c :: ts -> is_sym c.
Proof using nonul. intros Hi E. by destruct (gettoken_run line nonul i _ _ Hi E) as (w & j & _ & _ & _ & Hs). Qed.

Lemma redirs_complete ts rs :
  redirs ts rs -> forall i rest k acc,
  (i <= es)%nat -> toks i = ts ++ rest -> begins [LESS; GREATER] rest = false -> (length ts < k)%nat ->
  yields i (parseredirs es k acc (at_pos i)) rest (fun new => exists l, new = acc ++ l /\ map_redir word_at <$> l = rs).
Proof using nonul.
  induction 1 as [|t w r ts rs Hr Hrs IH]; intros i rest k acc Hi E Hb Hk; (destruct k as [|k]; [simpl in Hk; lia|]); cbn [parseredirs].
  - simpl in E. subst rest. eapply yields_bind; [apply peek_yields; [syms|done]|]. intros b j Hj Ht ->. rewrite Hb, <- Ht.
    apply yields_ret; [lia|]. exists []. by rewrite app_nil_r.
  - eapply yields_bind; [apply peek_yields; [syms|done]|]. intros b j Hj Ht ->.
    assert (begins [LESS; GREATER] (toks i) = true) as Hbi.
    { rewrite E. by apply (redirection_begins t w r). }
    apply redirection_of in Hr.
    rewrite Hbi. rewrite E in Ht. eapply yields_bind; [apply (gettoken_yields j t (Word w :: ts ++ rest)); [lia|done]|].
    intros [c w0] j1 Hj1 Ht1 [Hc _]. simpl in Hc. subst c.
    eapply yields_bind; [apply (gettoken_yields j1 (Word w) (ts ++ rest)); [lia|done]|]. intros [c w1] j2 Hj2 Ht2 [Hc Hw].
    simpl in Hc, Hw. subst c. specialize (Hw w eq_refl). rewrite decide_False by (intros []; done).
    assert (exists r1, redir_of (code t) w1 = Some r1 /\ map_redir word_at r1 = r) as (r1 & Hr1 & Hm).
    { rewrite <- Hw, redir_of_map in Hr. destruct (redir_of (code t) w1) as [r1|]; [|done]. simpl in Hr. exists r1. split; [done|congruence]. }
    rewrite Hr1. eapply yields_weaken; [apply (IH j2 rest k (acc ++ [r1])); [lia|done|done|simpl in Hk; lia]|].
    intros new (l & -> & Hl). exists (r1 :: l). split; [by rewrite <- app_assoc|]. by rewrite fmap_cons, Hm, Hl.
Qed.

(** What may follow a simple command, a pipeline and a line. *)
Definition follows (cs : list Z) (rest : list token) : Prop := rest = [] \/ exists c ts, rest = Sym c :: ts /\ c ∈ cs.

Lemma follows_not cs cs' rest : follows cs rest -> (forall c, c ∈ cs -> c ∉ cs') -> begins cs' rest = false.
Proof using.
  intros [->|(c & ts & -> & Hc)] Hd; [done|]. simpl. apply bool_decide_eq_false. by apply Hd.
Qed.
Lemma follows_sub cs cs' rest : follows cs rest -> (forall c, c ∈ cs -> c ∈ cs') -> follows cs' rest.
Proof using. intros [->|(c & ts & -> & Hc)] Hd; [by left|right]. exists c, ts. auto. Qed.

Lemma words_complete ts ws rs :
  words ts ws rs -> forall i rest k argv acc,
  (i <= es)%nat -> toks i = ts ++ rest -> follows [BAR; CLOSE; AMP; SEMI] rest -> (length ws < k)%nat ->
  yields i (parseargs es k argv acc (at_pos i)) rest (fun c => exists l l',
    c = wrap (EXEC (argv ++ l)) (acc ++ l') /\ word_at <$> l = ws /\ map_redir word_at <$> l' = rs).
Proof using nonul.
  induction 1 as [|w ts rs ts' ws rs' Hrs Hws IH]; intros i rest k argv acc Hi E Hf Hk; (destruct k as [|k]; [simpl in Hk; lia|]); cbn [parseargs].
  - simpl in E. subst rest. eapply yields_bind; [apply peek_yields; [syms|done]|]. intros b j Hj Ht ->.
    assert (exists l l', wrap (EXEC argv) acc = wrap (EXEC (argv ++ l)) (acc ++ l') /\ word_at <$> l = [] /\ map_redir word_at <$> l' = []) as Hq.
    { exists [], []. by rewrite !app_nil_r. }
    destruct Hf as [E|(c & ts & E & Hc)].
    + rewrite E in Ht |- *. eapply yields_bind; [apply gettoken_yields_end; [lia|done]|]. intros [tok w] j1 Hj1 Ht1 Hz. simpl in Hz.
      rewrite decide_True by done. rewrite <- Ht1. apply yields_ret; [lia|done].
    + rewrite E in Ht |- *. simpl. rewrite bool_decide_true by done. rewrite <- Ht. apply yields_ret; [lia|done].
  - eapply yields_bind; [apply peek_yields; [syms|done]|]. intros b j Hj Ht ->. rewrite E in Ht |- *. cbn [app begins].
    eapply yields_bind; [apply (gettoken_yields j (Word w) ((ts ++ ts') ++ rest)); [lia|done]|]. intros [c w1] j1 Hj1 Ht1 [Hc Hw].
    simpl in Hc, Hw. subst c. specialize (Hw w eq_refl). rewrite decide_False by done. rewrite decide_False by (intros []; done).
    simpl in Hk. rewrite decide_False by lia. rewrite <- app_assoc in Ht1.
    assert (begins [LESS; GREATER] (ts' ++ rest) = false) as Hb.
    { inversion Hws; subst; [|done]. simpl. apply (follows_not _ _ _ Hf). unfold BAR, CLOSE, AMP, SEMI, LESS, GREATER. set_solver. }
    pose proof (toks_length j1) as Hl. rewrite Ht1, length_app in Hl.
    eapply yields_bind; [apply (redirs_complete ts rs Hrs j1 (ts' ++ rest) (S es) acc); [lia|done|done|lia]|].
    intros new j2 Hj2 Ht2 (l & -> & Hl1).
    eapply yields_weaken; [apply (IH j2 rest k (argv ++ [w1]) (acc ++ l)); [lia|done|done|lia]|].
    intros c (l2 & l3 & -> & Hl2 & Hl3). exists (w1 :: l2), (l ++ l3). rewrite <- !app_assoc. split; [done|].
    split; [by rewrite fmap_cons, Hw, Hl2|]. by rewrite fmap_app, Hl1, Hl3.
Qed.

Lemma backs_complete n i rest k c :
  (i <= es)%nat -> toks i = amps n ++ rest -> begins [AMP] rest = false -> (n < k)%nat ->
  yields i (parsebacks es k c (at_pos i)) rest (fun c' => c' = backs n c).
Proof using nonul.
  revert i k c. induction n as [|n IH]; intros i k c Hi E Hb Hk; (destruct k as [|k]; [lia|]); cbn [parsebacks].
  - simpl in E. subst rest. eapply yields_bind; [apply peek_yields; [syms|done]|]. intros b j Hj Ht ->. rewrite Hb, <- Ht. by apply yields_ret; [lia|].
  - eapply yields_bind; [apply peek_yields; [syms|done]|]. intros b j Hj Ht ->. rewrite E in Ht |- *. cbn [amps replicate app begins].
    rewrite bool_decide_true by (by left). eapply yields_bind; [apply (gettoken_yields j (Sym AMP) (amps n ++ rest)); [lia|done]|].
    intros tw j1 Hj1 Ht1 _. eapply yields_weaken; [apply (IH j1 k (BACK c)); [lia|done|done|lia]|]. done.
Qed.

Ltac fols := unfold BAR, CLOSE, AMP, SEMI, OPEN, LESS, GREATER; set_solver.

Definition finds (parse : nat -> M pst (cmd span)) (d : nat) (cs : list Z) (ts : list token) (c : cmd word) : Prop :=
  forall i rest n, (i <= es)%nat -> toks i = ts ++ rest -> follows cs rest -> (4 * length ts + d <= n)%nat ->
  yields i (parse n (at_pos i)) rest (fun c' => map_cmd word_at c' = c).

Lemma follows_amps n rest cs : follows cs rest -> follows (AMP :: cs) (amps n ++ rest).
Proof using.
  intros Hf. destruct n as [|n]; [apply (follows_sub _ _ _ Hf); by right|right]. exists AMP, (amps n ++ rest). split; [done|left].
Qed.
Lemma follows_sym c ts cs : c ∈ cs -> follows cs (Sym c :: ts).
Proof using. intros Hc. right. by exists c, ts. Qed.

Lemma find_line_end ts c k :
  finds (parsepipe es) 3 [AMP; SEMI; CLOSE] ts c -> finds (parseline es) 4 [CLOSE] (ts ++ amps k) (backs k c).
Proof using nonul.
  intros IH i rest n Hi E Hf Hn. destruct n as [|n]; [lia|]. rewrite length_app in Hn. rewrite <- app_assoc in E. cbn [parseline].
  eapply yields_bind; [apply (IH i (amps k ++ rest) n); [done|done| |lia]|].
  { apply (follows_sub (AMP :: [CLOSE])); [by apply follows_amps|fols]. }
  intros c1 j Hj Ht Hc. pose proof (toks_length j) as Hl. rewrite Ht, length_app in Hl. unfold amps in Hl. rewrite length_replicate in Hl.
  eapply yields_bind; [apply (backs_complete k j rest (S es) c1); [lia|done|apply (follows_not _ _ _ Hf); fols|lia]|].
  intros c2 j1 Hj1 Ht1 ->. eapply yields_bind; [apply (peek_yields [SEMI]); [syms|lia]|]. intros b j2 Hj2 Ht2 ->.
  rewrite Ht1 in *. rewrite (follows_not _ _ _ Hf) by fols. rewrite <- Ht2. apply yields_ret; [lia|]. by rewrite map_backs, Hc.
Qed.
Lemma find_line_seq ts c k ts' c' :
  finds (parsepipe es) 3 [AMP; SEMI; CLOSE] ts c -> finds (parseline es) 4 [CLOSE] ts' c' ->
  finds (parseline es) 4 [CLOSE] (ts ++ amps k ++ Sym SEMI :: ts') (LIST (backs k c) c').
Proof using nonul.
  intros IH IH' i rest n Hi E Hf Hn. destruct n as [|n]; [lia|]. rewrite !length_app in Hn. simpl in Hn. cbn [parseline].
  rewrite <- !app_assoc in E. cbn [app] in E.
  eapply yields_bind; [apply (IH i (amps k ++ Sym SEMI :: ts' ++ rest) n); [done|done| |lia]|].
  { apply (follows_sub (AMP :: [SEMI])); [apply follows_amps, follows_sym; by left|fols]. }
  intros c1 j Hj Ht Hc. pose proof (toks_length j) as Hl. rewrite Ht, length_app in Hl. unfold amps in Hl. rewrite length_replicate in Hl.
  eapply yields_bind; [apply (backs_complete k j (Sym SEMI :: ts' ++ rest) (S es) c1); [lia|done|done|lia]|].
  intros c2 j1 Hj1 Ht1 ->. eapply yields_bind; [apply (peek_yields [SEMI]); [syms|lia]|]. intros b j2 Hj2 Ht2 ->.
  rewrite Ht1 in *. cbn [begins]. rewrite bool_decide_true by (by left).
  eapply yields_bind; [apply (gettoken_yields j2 (Sym SEMI) (ts' ++ rest)); [lia|done]|]. intros tw j3 Hj3 Ht3 _.
  eapply yields_bind; [apply (IH' j3 rest n); [lia|done|done|lia]|]. intros c3 j4 Hj4 Ht4 Hc3. rewrite <- Ht4.
  apply yields_ret; [lia|]. simpl. by rewrite map_backs, Hc, Hc3.
Qed.
Lemma find_pipe_one ts c :
  finds (parseexec es) 2 [BAR; CLOSE; AMP; SEMI] ts c -> finds (parsepipe es) 3 [AMP; SEMI; CLOSE] ts c.
Proof using nonul.
  intros IH i rest n Hi E Hf Hn. destruct n as [|n]; [lia|]. cbn [parsepipe].
  eapply yields_bind; [apply (IH i rest n); [done|done|apply (follows_sub _ _ _ Hf); fols|lia]|]. intros c1 j Hj Ht Hc.
  eapply yields_bind; [apply (peek_yields [BAR]); [syms|lia]|]. intros b j2 Hj2 Ht2 ->.
  rewrite Ht in *. rewrite (follows_not _ _ _ Hf) by fols. rewrite <- Ht2. by apply yields_ret; [lia|].
Qed.
Lemma find_pipe_bar ts c ts' c' :
  finds (parseexec es) 2 [BAR; CLOSE; AMP; SEMI] ts c -> finds (parsepipe es) 3 [AMP; SEMI; CLOSE] ts' c' ->
  finds (parsepipe es) 3 [AMP; SEMI; CLOSE] (ts ++ Sym BAR :: ts') (PIPE c c').
Proof using nonul.
  intros IH IH' i rest n Hi E Hf Hn. destruct n as [|n]; [lia|]. rewrite length_app in Hn. simpl in Hn. cbn [parsepipe].
  rewrite <- app_assoc in E. cbn [app] in E.
  eapply yields_bind; [apply (IH i (Sym BAR :: ts' ++ rest) n); [done|done|apply follows_sym; fols|lia]|]. intros c1 j Hj Ht Hc.
  eapply yields_bind; [apply (peek_yields [BAR]); [syms|lia]|]. intros b j2 Hj2 Ht2 ->.
  rewrite Ht in *. cbn [begins]. rewrite bool_decide_true by (by left).
  eapply yields_bind; [apply (gettoken_yields j2 (Sym BAR) (ts' ++ rest)); [lia|done]|]. intros tw j3 Hj3 Ht3 _.
  eapply yields_bind; [apply (IH' j3 rest n); [lia|done|done|lia]|]. intros c3 j4 Hj4 Ht4 Hc3. rewrite <- Ht4.
  apply yields_ret; [lia|]. simpl. by rewrite Hc, Hc3.
Qed.
Lemma find_simple ts rs ts' ws rs' :
  redirs ts rs -> words ts' ws rs' -> (length ws < MAXARGS)%nat ->
  finds (parseexec es) 2 [BAR; CLOSE; AMP; SEMI] (ts ++ ts') (wrap (EXEC ws) (rs ++ rs')).
Proof using nonul.
  intros Hrs Hws Hlt i rest n Hi E Hf Hn. destruct n as [|n]; [lia|]. cbn [parseexec]. rewrite <- app_assoc in E.
  assert (begins [OPEN] (toks i) = false) as Hb.
  { rewrite E. inversion Hrs; subst; simpl.
    - inversion Hws; subst; [|done]. simpl. apply (follows_not _ _ _ Hf). fols.
    - match goal with H : redirection _ _ _ |- _ => by destruct H end. }
  eapply yields_bind; [apply (peek_yields [OPEN]); [syms|lia]|]. intros b j Hj Ht ->. rewrite Hb. rewrite E in Ht.
  pose proof (toks_length j) as Hl. rewrite Ht, length_app in Hl.
  eapply yields_bind; [apply (redirs_complete ts rs Hrs j (ts' ++ rest) (S es) []); [lia|done| |lia]|].
  { inversion Hws; subst; [|done]. simpl. apply (follows_not _ _ _ Hf). fols. }
  intros new j1 Hj1 Ht1 (l & -> & Hl1).
  eapply yields_weaken; [apply (words_complete ts' ws rs' Hws j1 rest MAXARGS [] ([] ++ l)); [lia|done|done|done]|].
  intros c (l2 & l3 & -> & Hl2 & Hl3). rewrite map_wrap. simpl. by rewrite fmap_app, Hl1, Hl2, Hl3.
Qed.
Lemma find_block ts c ts' rs :
  finds (parseline es) 4 [CLOSE] ts c -> redirs ts' rs ->
  finds (parseexec es) 2 [BAR; CLOSE; AMP; SEMI] (Sym OPEN :: ts ++ Sym CLOSE :: ts') (wrap c rs).
Proof using nonul.
  intros IH Hrs i rest n Hi E Hf Hn. destruct n as [|[|n]]; [lia|lia|]. simpl length in Hn. rewrite length_app in Hn. simpl in Hn.
  cbn [app] in E. rewrite <- app_assoc in E. cbn [app] in E. cbn [parseexec].
  eapply yields_bind; [apply (peek_yields [OPEN]); [syms|lia]|]. intros b j Hj Ht ->. rewrite E in Ht |- *. cbn [begins].
  rewrite bool_decide_true by (by left). cbn [parseblock]. eapply yields_bind; [apply (peek_yields [OPEN]); [syms|lia]|]. intros b j1 Hj1 Ht1 ->.
  rewrite Ht in *. cbn [begins]. rewrite bool_decide_true by (by left). cbn [negb].
  eapply yields_bind; [apply (gettoken_yields j1 (Sym OPEN) (ts ++ Sym CLOSE :: ts' ++ rest)); [lia|done]|]. intros tw j2 Hj2 Ht2 _.
  eapply yields_bind; [apply (IH j2 (Sym CLOSE :: ts' ++ rest) n); [lia|done|apply follows_sym; by left|lia]|]. intros c1 j3 Hj3 Ht3 Hc.
  eapply yields_bind; [apply (peek_yields [CLOSE]); [syms|lia]|]. intros b j4 Hj4 Ht4 ->.
  rewrite Ht3 in *. cbn [begins]. rewrite bool_decide_true by (by left). cbn [negb].
  eapply yields_bind; [apply (gettoken_yields j4 (Sym CLOSE) (ts' ++ rest)); [lia|done]|]. intros tw' j5 Hj5 Ht5 _.
  pose proof (toks_length j5) as Hl. rewrite Ht5, length_app in Hl.
  eapply yields_bind; [apply (redirs_complete ts' rs Hrs j5 rest (S es) []); [lia|done|apply (follows_not _ _ _ Hf); fols|lia]|].
  intros new j6 Hj6 Ht6 (l & -> & Hl1). rewrite <- Ht6. apply yields_ret; [lia|]. rewrite map_wrap, Hc. simpl. by rewrite Hl1.
Qed.

Lemma parse_complete :
  (forall ts c, gline ts c -> finds (parseline es) 4 [CLOSE] ts c) /\
  (forall ts c, gpipe ts c -> finds (parsepipe es) 3 [AMP; SEMI; CLOSE] ts c) /\
  (forall ts c, gexec ts c -> finds (parseexec es) 2 [BAR; CLOSE; AMP; SEMI] ts c).
Proof using nonul.
  apply grammar_ind; auto using find_line_end, find_line_seq, find_pipe_one, find_pipe_bar, find_simple, find_block.
Qed.

(** ** The NULs end the words, and no others *)

(** The characters of words are as in the line. *)
Definition kept (b : list Z) : Prop :=
  length b = S es /\ forall i c, line !! i = Some c -> is_char c -> b !! i = Some c.

Lemma put_nul_run w b p : good w -> kept b ->
  exists b', put_nul w.2 (mkPst b p) = Ok tt (mkPst b' p) /\ kept b' /\ b' !! w.2 = Some 0 /\ forall i, b !! i = Some 0 -> b' !! i = Some 0.
Proof using.
  intros (Hw & _ & Hn) [Hl Hk]. exists (<[w.2 := 0]> b). unfold put_nul. cbn [buf ps]. rewrite decide_True by lia.
  split; [done|]. split; [split|split].
  - by rewrite length_insert.
  - intros i c Hi Hc. rewrite list_lookup_insert_ne; [by apply Hk|]. intros <-. by apply (Hn c Hi).
  - apply list_lookup_insert_eq. lia.
  - intros i Hi. destruct (decide (w.2 = i)) as [<-|]; [apply list_lookup_insert_eq; lia|by rewrite list_lookup_insert_ne].
Qed.

(** A step that ends the words [ws]. *)
Definition ends_words (m : M pst unit) (ws : list span) : Prop :=
  forall b p, kept b -> exists b', m (mkPst b p) = Ok tt (mkPst b' p) /\ kept b' /\
    (forall w, w ∈ ws -> b' !! w.2 = Some 0) /\ forall i, b !! i = Some 0 -> b' !! i = Some 0.

Lemma ends_nil : ends_words (ret tt) [].
Proof using. intros b p Hk. exists b. split; [done|]. split; [done|]. split; [intros w Hw; by apply not_elem_of_nil in Hw|done]. Qed.
Lemma ends_one w : good w -> ends_words (put_nul w.2) [w].
Proof using.
  intros Hg b p Hk. destruct (put_nul_run w b p Hg Hk) as (b' & Hr & Hk' & H0 & Hz). exists b'. split; [done|]. split; [done|].
  split; [by intros w' ->%list_elem_of_singleton|done].
Qed.
Lemma ends_app m1 m2 ws1 ws2 : ends_words m1 ws1 -> ends_words m2 ws2 -> ends_words (m1 ;; m2) (ws1 ++ ws2).
Proof using.
  intros H1 H2 b p Hk. destruct (H1 b p Hk) as (b1 & Hr1 & Hk1 & Hw1 & Hz1). destruct (H2 b1 p Hk1) as (b2 & Hr2 & Hk2 & Hw2 & Hz2).
  exists b2. rewrite (bind_ok _ _ _ _ _ Hr1). split; [done|]. split; [done|]. split; [|auto].
  intros w [Hw|Hw]%elem_of_app; auto.
Qed.

Lemma nulterminate_run c : Forall good (spans c) -> ends_words (nulterminate c) (spans c).
Proof using.
  induction c as [argv|c IH r|l IHl r IHr|l IHl r IHr|c IH]; simpl; rewrite ?Forall_app; intros Hg.
  - induction argv as [|w ws IH]; simpl; [apply ends_nil|]. apply Forall_cons in Hg as [Hw Hg]. apply (ends_app _ _ [w]); [by apply ends_one|by apply IH].
  - destruct Hg as [Hg Hr]. apply ends_app; [by apply IH|]. apply (ends_one (file r)). by inversion Hr.
  - destruct Hg. apply ends_app; auto.
  - destruct Hg. apply ends_app; auto.
  - by apply IH.
Qed.

Lemma cstr_app w l : Forall (fun c => c <> 0) w -> cstr (w ++ 0 :: l) = w.
Proof using. induction w as [|c w IH]; intros Hw; [done|]. apply Forall_cons in Hw as [Hc Hw]. simpl. rewrite decide_False by done. by rewrite IH. Qed.

Lemma string_word b w : kept b -> good w -> b !! w.2 = Some 0 -> string_at b w = word_at w.
Proof using nonul.
  intros [Hl Hk] (Hw & Hc & _) H0. unfold string_at.
  assert (drop w.1 b = word_at w ++ 0 :: drop (S w.2) b) as ->; [|apply cstr_app].
  - rewrite <- (drop_S b 0 w.2 H0). apply list_eq. intros i. destruct (decide (i < w.2 - w.1)%nat) as [Hlt|Hge].
    + assert (is_Some (word_at w !! i)) as [c Hci].
      { apply lookup_lt_is_Some_2. unfold ShSpec.word_at. rewrite length_take, length_drop. lia. }
      rewrite lookup_app_l by (by apply lookup_lt_Some in Hci). rewrite Hci, lookup_drop. apply Hk.
      * unfold ShSpec.word_at in Hci. by rewrite lookup_take_lt, lookup_drop in Hci by done.
      * by eapply Forall_lookup_1 in Hc.
    + assert (length (word_at w) = w.2 - w.1)%nat as Hlw by (unfold ShSpec.word_at; rewrite length_take, length_drop; lia).
      rewrite lookup_app_r by lia. rewrite Hlw, !lookup_drop. f_equal. lia.
  - unfold ShSpec.word_at. apply Forall_take, Forall_drop, nonul.
Qed.

Lemma map_cmd_ext {W} (f g : span -> W) c : (forall w, w ∈ spans c -> f w = g w) -> map_cmd f c = map_cmd g c.
Proof using.
  induction c as [argv|c IH r|l IHl r IHr|l IHl r IHr|c IH]; simpl; intros Hfg.
  - f_equal. apply list_fmap_ext. intros i w Hw. apply Hfg. by eapply list_elem_of_lookup_2.
  - rewrite IH by (intros; apply Hfg, elem_of_app; by left). unfold map_redir. rewrite (Hfg (file r)); [done|]. apply elem_of_app. right. by left.
  - rewrite IHl, IHr by (intros; apply Hfg, elem_of_app; auto). done.
  - rewrite IHl, IHr by (intros; apply Hfg, elem_of_app; auto). done.
  - by rewrite IH.
Qed.

(** Reading a command that has been parsed. *)
Lemma terminated c p : Forall good (spans c) ->
  exists b, nulterminate c (mkPst (B line) p) = Ok tt (mkPst b p) /\ map_cmd (string_at b) c = map_cmd word_at c.
Proof using nonul.
  intros Hg. destruct (nulterminate_run c Hg (B line) p) as (b & Hr & Hk & Hw & _).
  - split; [unfold B; rewrite length_app; simpl; lia|]. intros i x Hi _. unfold B. rewrite lookup_app_l; [done|]. by eapply lookup_lt_Some.
  - exists b. split; [done|]. apply map_cmd_ext. intros w Hin. apply string_word; [done| |by apply Hw]. by eapply Forall_forall in Hg.
Qed.

Lemma toks_0 : toks 0 = lex [] line.
Proof using. done. Qed.

Lemma parse_finds c : gline (lex [] line) c -> yields 0 (parseline es (4 * es + 4) (at_pos 0)) [] (fun c' => map_cmd word_at c' = c).
Proof using nonul.
  intros HG. destruct parse_complete as [Hcomp _]. pose proof (toks_length 0).
  apply (Hcomp _ _ HG 0%nat [] (4 * es + 4)%nat); [lia|by rewrite app_nil_r|by left|]. rewrite <- toks_0. lia.
Qed.

Lemma parse_run :
  (exists c x, parse line = Ok c x /\ gline (lex [] line) c) \/
  (exists m, parse line = Fault (Panic m) /\ forall c, ~ gline (lex [] line) c).
Proof using nonul.
  unfold parse, parsecmd. pose proof (toks_length 0) as Hl0. pose proof parse_finds as Hc.
  change (mkPst (line ++ [0]) 0) with (at_pos 0). destruct (parse_sound (4 * es + 4)) as (Hs & _).
  destruct (Hs 0%nat ltac:(lia) ltac:(lia)) as [(c & j & Hr & Hj & pre & E & Hg & HG)|[m Hr]].
  2:{ right. exists m. unfold bind at 1. rewrite Hr. split; [done|]. intros c HG. destruct (Hc c HG) as (c' & j & Hr' & _). congruence. }
  rewrite (bind_ok _ _ _ _ _ Hr). destruct (peek_run line nonul [] j) as (j1 & Hp & Hj1 & Ht1 & He1);
    [intros d Hd; by apply not_elem_of_nil in Hd|lia|].
  rewrite (bind_ok _ _ _ _ _ Hp), (bind_ok _ _ _ j1 (at_pos j1)) by done. case_decide as Hne.
  - right. eexists. split; [done|]. intros c0 HG0. destruct (Hc c0 HG0) as (c' & j' & Hr' & _ & Ht' & _).
    rewrite Hr in Hr'. injection Hr' as -> ->. apply Hne, He1. done.
  - assert (j1 = es) as -> by (destruct (decide (j1 = es)); [done|by destruct Hne]).
    destruct (terminated c es Hg) as (b & Hn & Hm). left. unfold ShSpec.at_pos. rewrite (bind_ok _ _ _ _ _ Hn).
    eexists _, _. split; [done|]. cbn [buf]. rewrite Hm. rewrite toks_0 in E.
    assert (toks j = []) as Ej by (rewrite <- Ht1; unfold ShSpec.toks; by rewrite drop_all).
    rewrite Ej, app_nil_r in E. by rewrite E.
Qed.

Lemma parse_unique c c' : gline (lex [] line) c -> gline (lex [] line) c' -> c = c'.
Proof using nonul.
  intros HG HG'. destruct (parse_finds c HG) as (c1 & j1 & H1 & _ & _ & <-). destruct (parse_finds c' HG') as (c2 & j2 & H2 & _ & _ & <-). congruence.
Qed.
End Line.

(** C26: The parser of the shell decides its grammar.  For every line, parsecmd either
    returns the command that the grammar derives from the line's tokens, and it is the
    only one, with each word ended by its NUL and intact; or it reports a syntax error,
    and then the grammar derives no command from the line.  It always ends, and never
    reads or writes outside the line. *)
Theorem parse_decides (line : list Z) :
  Forall (fun c => c <> 0) line ->
  (exists c x, parse line = Ok c x /\ gline (lex [] line) c /\ forall c', gline (lex [] line) c' -> c' = c) \/
  (exists m, parse line = Fault (Panic m) /\ forall c, ~ gline (lex [] line) c).
Proof.
  intros Hn. destruct (parse_run line Hn) as [(c & x & Hr & HG)|H]; [left|by right].
  exists c, x. split; [done|]. split; [done|]. intros c' HG'. by eapply parse_unique.
Qed.

Lemma parse_decides_witness :
  gline [Word [97]; Sym BAR; Word [98]; Sym AMP] (BACK (PIPE (EXEC [[97]]) (EXEC [[98]]))).
Proof.
  destruct (parse_decides [97; 124; 98; 38]) as [(c & x & Hr & HG & _)|(m & Hr & _)].
  - repeat constructor; discriminate.
  - vm_compute in Hr. injection Hr as <- _. exact HG.
  - vm_compute in Hr. discriminate.
Defined.
