(* ===== verification/ShRun.v ===== *)
(** * Commands are run with the right descriptors

    In terms of what standard input and output are, running a command is a simple
    recursion over it; runcmd implements it with close, dup, open and pipe, and leaves
    nothing else open in the programs it starts. *)

From Stdlib Require Import ZArith Lia.
From stdpp Require Import base numbers list gmap strings.
From S2P Require Import Prelude Sh ShSpec ShProps.
Open Scope Z_scope.

(** Standard input, output and error, and nothing else. *)
Definition std (i o e : end_) : fdtable := Some i :: Some o :: Some e :: replicate 13 None.

Section Run.
Context (opens : list Z -> Z -> bool) (e : end_).

(** The events of a command that reads from [i] and writes to [o], when [n] pipes have
    been made; and the pipes then made. *)
Fixpoint wired (c : cmd word) (i o : end_) (n : nat) : list event * nat :=
  match c with
  | EXEC [] => ([], n)
  | EXEC argv => ([Start (mkStarted argv (std i o e))], n)
  | REDIR c r =>
      if opens (file r) (mode r) then
        let f := FileAt (file r) (mode r) in
        if decide (fd r = 0) then wired c f o n else wired c i f n
      else ([Complain "open failed"], n)
  | LIST l r => let '(a, n1) := wired l i o n in let '(b, n2) := wired r i o n1 in (a ++ b, n2)
  | PIPE l r =>
      let '(a, n1) := wired l i (WriteEnd n) (S n) in let '(b, n2) := wired r (ReadEnd n) o n1 in (a ++ b, n2)
  | BACK c => wired c i o n
  end.

(** The redirections of a command are of standard input and output. *)
Fixpoint std_redirs {W} (c : cmd W) : Prop :=
  match c with
  | EXEC _ => True
  | REDIR c r => std_redirs c /\ (fd r = 0 \/ fd r = 1)
  | PIPE l r | LIST l r => std_redirs l /\ std_redirs r
  | BACK c => std_redirs c
  end.

Lemma runcmd_wired c : std_redirs c -> forall i o n evs,
  runcmd opens c (std i o e) (mkRun n evs) = Ok tt (mkRun (wired c i o n).2 (evs ++ (wired c i o n).1)).
Proof using.
  induction c as [argv|c IH r|l IHl r IHr|l IHl r IHr|c IH]; intros Hr i o n evs; cbn [runcmd wired].
  - destruct argv; [simpl; by rewrite app_nil_r|done].
  - destruct Hr as [Hr Hfd]. destruct (opens (file r) (mode r)); [|done]. destruct Hfd as [E|E]; rewrite E; simpl; apply (IH Hr).
  - destruct Hr as [Hl Hr]. unfold pipe, bind, get, put, ret. cbn [fdalloc std lowest fmap option_fmap option_map npipes log].
    cbn -[runcmd wired]. specialize (IHl Hl i (WriteEnd n) (S n) evs). unfold std in IHl at 1. simpl in IHl. rewrite IHl.
    destruct (wired l i (WriteEnd n) (S n)) as [a n1]. cbn [fst snd].
    specialize (IHr Hr (ReadEnd n) o n1 (evs ++ a)). unfold std in IHr at 1. simpl in IHr. rewrite IHr.
    destruct (wired r (ReadEnd n) o n1) as [b n2]. cbn [fst snd]. by rewrite app_assoc.
  - destruct Hr as [Hl Hr]. rewrite (bind_ok _ _ _ _ _ (IHl Hl i o n evs)). destruct (wired l i o n) as [a n1]. cbn [fst snd].
    rewrite (IHr Hr). destruct (wired r i o n1) as [b n2]. cbn [fst snd]. by rewrite app_assoc.
  - by apply IH.
Qed.

(** Nothing but the three standard descriptors is open in what is started. *)
Lemma wired_std c i o n : Forall (fun ev => forall p, ev = Start p -> exists i' o', table p = std i' o' e) (wired c i o n).1.
Proof using.
  revert i o n. induction c as [argv|c IH r|l IHl r IHr|l IHl r IHr|c IH]; intros i o n; simpl.
  - destruct argv; repeat constructor. intros p [= <-]. by exists i, o.
  - destruct (opens (file r) (mode r)); [case_decide; apply IH|repeat constructor; done].
  - specialize (IHl i (WriteEnd n) (S n)). destruct (wired l i (WriteEnd n) (S n)) as [a n1]. specialize (IHr (ReadEnd n) o n1).
    destruct (wired r (ReadEnd n) o n1) as [b n2]. simpl in *. by apply Forall_app.
  - specialize (IHl i o n). destruct (wired l i o n) as [a n1]. specialize (IHr i o n1).
    destruct (wired r i o n1) as [b n2]. simpl in *. by apply Forall_app.
  - apply IH.
Qed.
End Run.

(** ** The grammar only makes such redirections *)

Lemma std_wrap {W} (c : cmd W) rs : std_redirs c -> Forall (fun r => fd r = 0 \/ fd r = 1) rs -> std_redirs (wrap c rs).
Proof.
  revert c. induction rs as [|r rs IH]; intros c Hc Hrs; [done|]. apply Forall_cons in Hrs as [Hr Hrs]. unfold wrap in *. simpl. by apply IH.
Qed.
Lemma std_backs {W} n (c : cmd W) : std_redirs c -> std_redirs (backs n c).
Proof. revert c. induction n as [|n IH]; intros c Hc; [done|]. by apply IH. Qed.
Lemma redirs_std ts rs : redirs ts rs -> Forall (fun r => fd r = 0 \/ fd r = 1) rs.
Proof.
  induction 1 as [|t w r ts rs Hr _ IH]; [constructor|]. constructor; [|done]. destruct Hr; auto.
Qed.
Lemma words_std ts ws rs : words ts ws rs -> Forall (fun r => fd r = 0 \/ fd r = 1) rs.
Proof. induction 1 as [|w ts rs ts' ws rs' Hrs _ IH]; [constructor|]. apply Forall_app. split; [by eapply redirs_std|done]. Qed.

Lemma grammar_std :
  (forall ts c, gline ts c -> std_redirs c) /\ (forall ts c, gpipe ts c -> std_redirs c) /\ (forall ts c, gexec ts c -> std_redirs c).
Proof.
  apply grammar_ind; simpl.
  - intros ts c n _ Hc. by apply std_backs.
  - intros ts c n ts' c' _ Hc _ Hc'. split; [by apply std_backs|done].
  - done.
  - done.
  - intros ts rs ts' ws rs' Hrs Hws _. apply std_wrap; [done|]. apply Forall_app. split; [by eapply redirs_std|by eapply words_std].
  - intros ts c ts' rs _ IH Hrs. apply std_wrap; [done|by eapply redirs_std].
Qed.


