(* ===== verification/CString.v ===== *)
(** * kernel/string.c over byte memory

    Memory maps the addresses of mapped bytes to their values (0..255); touching
    any other address is a fault.  Pointers are integers, and ranges are assumed
    not to wrap around the address space. *)

From Stdlib Require Import ZArith Lia.
From stdpp Require Import base numbers list gmap strings.
From S2P Require Import Prelude.
Open Scope Z_scope.

Notation mem := (gmap Z Z).

Definition loadb (a : Z) : M mem Z := fun m =>
  match m !! a with Some v => Ok v m | None => Fault (Undef "load") end.
Definition storeb (a v : Z) : M mem unit := fun m =>
  match m !! a with Some _ => Ok tt (<[a := u8 v]> m) | None => Fault (Undef "store") end.

(** ** The functions *)

Definition memset (dst c n : Z) : M mem Z :=
  for_each (zrange 0 n) (fun i => storeb (dst + i) c) ;;
  ret dst.

(** The loops count [n] down to zero. *)
Fixpoint memcmp_loop (n : nat) (s1 s2 : Z) : M mem Z :=
  match n with
  | O => ret 0
  | S n' =>
      let! c1 := loadb s1 in
      let! c2 := loadb s2 in
      if decide (c1 <> c2) then ret (c1 - c2) else memcmp_loop n' (s1 + 1) (s2 + 1)
  end.
Definition memcmp (v1 v2 n : Z) : M mem Z := memcmp_loop (Z.to_nat n) v1 v2.

Fixpoint copy_down (n : nat) (d s : Z) : M mem unit :=
  match n with
  | O => ret tt
  | S n' =>
      let! c := loadb (s - 1) in
      storeb (d - 1) c ;;
      copy_down n' (d - 1) (s - 1)
  end.
Fixpoint copy_up (n : nat) (d s : Z) : M mem unit :=
  match n with
  | O => ret tt
  | S n' =>
      let! c := loadb s in
      storeb d c ;;
      copy_up n' (d + 1) (s + 1)
  end.
Definition memmove (dst src n : Z) : M mem Z :=
  if decide (n = 0) then ret dst
  else
    (if decide (src < dst /\ src + n > dst) then copy_down (Z.to_nat n) (dst + n) (src + n)
     else copy_up (Z.to_nat n) dst src) ;;
    ret dst.

Definition memcpy (dst src n : Z) : M mem Z := memmove dst src n.

Fixpoint strncmp_loop (n : nat) (p q : Z) : M mem Z :=
  match n with
  | O => ret 0
  | S n' =>
      let! c := loadb p in
      let! d := loadb q in
      if decide (c <> 0 /\ c = d) then strncmp_loop n' (p + 1) (q + 1) else ret (c - d)
  end.
Definition strncmp (p q n : Z) : M mem Z := strncmp_loop (Z.to_nat n) p q.

Fixpoint pad_zero (n : nat) (s : Z) : M mem unit :=
  match n with O => ret tt | S n' => storeb s 0 ;; pad_zero n' (s + 1) end.
Fixpoint strncpy_loop (n : nat) (s t : Z) : M mem unit :=
  match n with
  | O => ret tt
  | S n' =>
      let! c := loadb t in
      storeb s c ;;
      if decide (c <> 0) then strncpy_loop n' (s + 1) (t + 1) else pad_zero n' (s + 1)
  end.
Definition strncpy (s t n : Z) : M mem Z := strncpy_loop (Z.to_nat n) s t ;; ret s.

(** The loop copies at most [n] bytes and answers where it stopped: after the NUL
    it copied, or after [n] bytes. *)
Fixpoint safestrcpy_loop (n : nat) (s t : Z) : M mem Z :=
  match n with
  | O => ret s
  | S n' =>
      let! c := loadb t in
      storeb s c ;;
      if decide (c <> 0) then safestrcpy_loop n' (s + 1) (t + 1) else ret (s + 1)
  end.
Definition safestrcpy (s t n : Z) : M mem Z :=
  if decide (n <= 0) then ret s
  else
    let! e := safestrcpy_loop (Z.to_nat (n - 1)) s t in
    storeb e 0 ;;
    ret s.

Fixpoint strlen_loop (fuel : nat) (s n : Z) : M mem Z :=
  match fuel with
  | O => fun _ => Fault OutOfFuel
  | S fuel' =>
      let! c := loadb (s + n) in
      if decide (c = 0) then ret n else strlen_loop fuel' s (n + 1)
  end.
Definition strlen (fuel : nat) (s : Z) : M mem Z := strlen_loop fuel s 0.

(** ** Ranges of memory *)

(** The bytes [a, a + n) are mapped. *)
Definition mapped (m : mem) (a n : Z) : Prop := forall i, 0 <= i < n -> is_Some (m !! (a + i)).

(** Memory holds bytes. *)
Definition bytes (m : mem) : Prop := map_Forall (fun _ v => 0 <= v < 256) m.

(** [l] is stored at [a]. *)
Definition stored (m : mem) (a : Z) (l : list Z) : Prop :=
  forall i v, l !! i = Some v -> m !! (a + Z.of_nat i) = Some v.

Lemma stored_cons m a c l : stored m a (c :: l) <-> m !! a = Some c /\ stored m (a + 1) l.
Proof.
  split.
  - intros H. split; [rewrite <- (H O c eq_refl); f_equal; lia|].
    intros i v Hi. rewrite <- (H (S i) v Hi). f_equal. lia.
  - intros [H0 H] [|i] v Hi; simpl in Hi.
    + simplify_eq. rewrite <- H0. f_equal. lia.
    + rewrite <- (H i v Hi). f_equal. lia.
Qed.

Lemma u8_byte v : 0 <= v < 256 -> u8 v = v.
Proof. intros. apply uwrap_small. done. Qed.

Lemma storeb_run m a v w :
  m !! a = Some w -> storeb a v m = Ok tt (<[a := u8 v]> m).
Proof. intros H. unfold storeb. by rewrite H. Qed.

Lemma loadb_run m a v : m !! a = Some v -> loadb a m = Ok v m.
Proof. intros H. unfold loadb. by rewrite H. Qed.

Lemma bytes_insert m a v : bytes m -> bytes (<[a := u8 v]> m).
Proof. intros Hb. apply map_Forall_insert_2; [|done]. apply (uwrap_range 8). lia. Qed.

Lemma mapped_insert m a v d n : mapped m d n -> mapped (<[a := v]> m) d n.
Proof. intros Hm i Hi. rewrite lookup_insert. case_decide; [by eexists|by apply Hm]. Qed.

Lemma mapped_sub m a n b k : mapped m a n -> a <= b -> b + k <= a + n -> mapped m b k.
Proof. intros Hm ? ? i Hi. specialize (Hm (b + i - a)). by replace (b + i) with (a + (b + i - a)) by lia; apply Hm; lia. Qed.

Lemma mapped_at m a n i : mapped m a n -> a <= i < a + n -> is_Some (m !! i).
Proof. intros Hm Hi. replace i with (a + (i - a)) by lia. apply Hm. lia. Qed.

(** The effect of copying [n] bytes from [s] to [d], with [m] the memory before. *)
Definition copied (m m' : mem) (d s n : Z) : Prop :=
  forall a, m' !! a = if decide (d <= a < d + n) then m !! (s + (a - d)) else m !! a.

Lemma copy_up_spec n m d s :
  bytes m -> mapped m d (Z.of_nat n) -> mapped m s (Z.of_nat n) ->
  d <= s \/ s + Z.of_nat n <= d ->
  exists m', copy_up n d s m = Ok tt m' /\ copied m m' d s (Z.of_nat n).
Proof.
  revert m d s. induction n as [|n IH]; intros m d s Hb Hd Hs Hds.
  { exists m. split; [done|]. intros a. by rewrite decide_False by lia. }
  destruct (mapped_at _ _ _ s Hs) as [v Hv]; [lia|]. destruct (mapped_at _ _ _ d Hd) as [w Hw]; [lia|].
  simpl. rewrite (bind_ok _ _ _ _ _ (loadb_run _ _ _ Hv)), (bind_ok _ _ _ _ _ (storeb_run _ _ v _ Hw)).
  rewrite u8_byte by (apply (Hb s v Hv)).
  assert (bytes (<[d := v]> m)) as Hb'.
  { rewrite <- (u8_byte v) by (apply (Hb s v Hv)). by apply bytes_insert. }
  destruct (IH (<[d := v]> m) (d + 1) (s + 1)) as (m' & Hrun & Hc); [done| | |lia|].
  - apply mapped_insert, (mapped_sub _ _ _ _ _ Hd); lia.
  - apply mapped_insert, (mapped_sub _ _ _ _ _ Hs); lia.
  - exists m'. split; [done|]. intros a. rewrite Hc, !lookup_insert. repeat case_decide; try lia; try done.
    + f_equal. lia.
    + subst. rewrite <- Hv. f_equal. lia.
Qed.

Lemma copy_down_spec n m d s :
  bytes m -> mapped m (d - Z.of_nat n) (Z.of_nat n) -> mapped m (s - Z.of_nat n) (Z.of_nat n) ->
  s <= d \/ d + Z.of_nat n <= s ->
  exists m', copy_down n d s m = Ok tt m' /\
    copied m m' (d - Z.of_nat n) (s - Z.of_nat n) (Z.of_nat n).
Proof.
  revert m d s. induction n as [|n IH]; intros m d s Hb Hd Hs Hds.
  { exists m. split; [done|]. intros a. by rewrite decide_False by lia. }
  destruct (mapped_at _ _ _ (s - 1) Hs) as [v Hv]; [lia|].
  destruct (mapped_at _ _ _ (d - 1) Hd) as [w Hw]; [lia|].
  simpl. rewrite (bind_ok _ _ _ _ _ (loadb_run _ _ _ Hv)), (bind_ok _ _ _ _ _ (storeb_run _ _ v _ Hw)).
  rewrite u8_byte by (apply (Hb (s - 1) v Hv)).
  assert (bytes (<[d - 1 := v]> m)) as Hb'.
  { rewrite <- (u8_byte v) by (apply (Hb (s - 1) v Hv)). by apply bytes_insert. }
  destruct (IH (<[d - 1 := v]> m) (d - 1) (s - 1)) as (m' & Hrun & Hc); [done| | |lia|].
  - apply mapped_insert, (mapped_sub _ _ _ _ _ Hd); lia.
  - apply mapped_insert, (mapped_sub _ _ _ _ _ Hs); lia.
  - exists m'. split; [done|]. intros a. rewrite Hc, !lookup_insert.
    repeat case_decide; try lia; try done.
    + f_equal. lia.
    + rewrite <- Hv. f_equal. lia.
Qed.

(** Copying down from the ends of two ranges. *)
Lemma copy_down_to n m d s :
  bytes m -> 0 <= n -> mapped m d n -> mapped m s n -> s <= d \/ d + n <= s ->
  exists m', copy_down (Z.to_nat n) (d + n) (s + n) m = Ok tt m' /\ copied m m' d s n.
Proof.
  intros Hb Hn Hd Hs Hds.
  destruct (copy_down_spec (Z.to_nat n) m (d + n) (s + n)) as (m' & Hrun & Hc);
    rewrite ?Z2Nat.id in * by lia; rewrite ?(Z.add_simpl_r d n), ?(Z.add_simpl_r s n) in *; try done; [lia|].
  by exists m'.
Qed.

(** memmove copies the bytes as they were before the call. *)
Lemma memmove_run m dst src n :
  bytes m -> 0 <= n -> mapped m dst n -> mapped m src n ->
  exists m', memmove dst src n m = Ok dst m' /\ copied m m' dst src n.
Proof.
  intros Hb Hn Hd Hs. unfold memmove. case_decide as E0.
  { exists m. split; [done|]. intros a. by rewrite decide_False by lia. }
  case_decide as E.
  - destruct (copy_down_to n m dst src) as (m' & Hrun & Hc); try done; [lia|].
    exists m'. by rewrite (bind_ok _ _ _ _ _ Hrun).
  - destruct (copy_up_spec (Z.to_nat n) m dst src) as (m' & Hrun & Hc);
      rewrite ?Z2Nat.id in * by lia; try done; [lia|].
    exists m'. by rewrite (bind_ok _ _ _ _ _ Hrun).
Qed.

(** Four bytes moved up by one, onto themselves. *)
Definition mem5 : mem := list_to_map [(10, 1); (11, 2); (12, 3); (13, 4); (14, 5)].

Lemma mapped_dec_range m a n :
  Forall (fun i => is_Some (m !! (a + i))) (zrange 0 n) -> mapped m a n.
Proof. intros H i Hi. rewrite Forall_forall in H. apply H, elem_of_zrange. lia. Qed.

(** ** Strings *)

(** A NUL-terminated string [l] at [a]. *)
Definition cstring (m : mem) (a : Z) (l : list Z) : Prop :=
  Forall (fun c => c <> 0) l /\ stored m a (l ++ [0]).

Lemma cstring_nil m a : cstring m a [] <-> m !! a = Some 0.
Proof.
  unfold cstring. simpl. rewrite stored_cons. split; [naive_solver|].
  intros H. split; [constructor|]. split; [done|]. intros i v Hi. done.
Qed.

Lemma cstring_cons m a c l :
  cstring m a (c :: l) <-> c <> 0 /\ m !! a = Some c /\ cstring m (a + 1) l.
Proof. unfold cstring. simpl. rewrite stored_cons, Forall_cons. naive_solver. Qed.

(** The first [n] characters of two strings, compared up to their NUL. *)
Lemma strncmp_loop_spec n m p q lp lq :
  cstring m p lp -> cstring m q lq ->
  exists r, strncmp_loop n p q m = Ok r m /\ (r = 0 <-> take n lp = take n lq).
Proof.
  revert p q lp lq. induction n as [|n IH]; intros p q lp lq Hp Hq; [by exists 0|].
  simpl. destruct lp as [|c lp], lq as [|d lq].
  - apply cstring_nil in Hp, Hq.
    rewrite (bind_ok _ _ _ _ _ (loadb_run _ _ _ Hp)), (bind_ok _ _ _ _ _ (loadb_run _ _ _ Hq)).
    rewrite decide_False by lia. by exists 0.
  - apply cstring_nil in Hp. apply cstring_cons in Hq as (? & Hq & _).
    rewrite (bind_ok _ _ _ _ _ (loadb_run _ _ _ Hp)), (bind_ok _ _ _ _ _ (loadb_run _ _ _ Hq)).
    rewrite decide_False by lia. exists (0 - d). split; [done|]. split; [lia|done].
  - apply cstring_nil in Hq. apply cstring_cons in Hp as (? & Hp & _).
    rewrite (bind_ok _ _ _ _ _ (loadb_run _ _ _ Hp)), (bind_ok _ _ _ _ _ (loadb_run _ _ _ Hq)).
    rewrite decide_False by lia. exists (c - 0). split; [done|]. split; [lia|done].
  - apply cstring_cons in Hp as (? & Hp & Hp'), Hq as (? & Hq & Hq').
    rewrite (bind_ok _ _ _ _ _ (loadb_run _ _ _ Hp)), (bind_ok _ _ _ _ _ (loadb_run _ _ _ Hq)).
    case_decide as E.
    + destruct E as [_ ->]. destruct (IH _ _ _ _ Hp' Hq') as (r & Hr & Hz). exists r.
      split; [done|]. rewrite Hz. simpl. split; [by intros ->|by intros [= ->]].
    + exists (c - d). split; [done|]. simpl. split; [lia|]. intros [= -> _]. lia.
Qed.

(** strncmp answers 0 exactly when the two strings agree on their first n
    characters (up to their NUL), and reads nothing beyond the terminators. *)
Theorem strncmp_equal m p q lp lq n :
  cstring m p lp -> cstring m q lq ->
  exists r, strncmp p q n m = Ok r m /\
    (r = 0 <-> take (Z.to_nat n) lp = take (Z.to_nat n) lq).
Proof. apply strncmp_loop_spec. Qed.

(** "ab" at 20 and "ac" at 30. *)
Definition memstr : mem := list_to_map [(20, 97); (21, 98); (22, 0); (30, 97); (31, 99); (32, 0)].


Lemma cstring_insert m a v t l :
  a < t \/ t + Z.of_nat (length l) < a -> cstring m t l -> cstring (<[a := v]> m) t l.
Proof.
  intros Ha [Hz Hs]. split; [done|]. intros i c Hi. rewrite lookup_insert_ne; [by apply Hs|].
  apply lookup_lt_Some in Hi. rewrite length_app in Hi. simpl in Hi. lia.
Qed.

Lemma stored_insert m a v s l : a < s -> stored m s l -> stored (<[a := v]> m) s l.
Proof. intros Ha Hs i c Hi. rewrite lookup_insert_ne by lia. by apply Hs. Qed.

(** Agreement outside [s, s + n). *)
Definition same_outside (m m' : mem) (s n : Z) : Prop :=
  forall a, a < s \/ s + n <= a -> m' !! a = m !! a.

Lemma safestrcpy_loop_spec k m s t l :
  bytes m -> mapped m s (Z.of_nat k) -> cstring m t l ->
  s + Z.of_nat k <= t \/ t + Z.of_nat (length l) + 1 <= s ->
  exists m', safestrcpy_loop k s t m = Ok (s + Z.of_nat (Nat.min k (length l + 1))) m' /\
    stored m' s (take k (l ++ [0])) /\ same_outside m m' s (Z.of_nat k) /\
    forall a, is_Some (m !! a) -> is_Some (m' !! a).
Proof.
  revert m s t l. induction k as [|k IH]; intros m s t l Hb Hm Ht Hd.
  { exists m. simpl. rewrite Z.add_0_r. split; [done|]. split; [by intros i v Hi|]. done. }
  destruct (mapped_at _ _ _ s Hm) as [w Hw]; [lia|]. cbn [safestrcpy_loop].
  destruct l as [|c l].
  - apply cstring_nil in Ht.
    rewrite (bind_ok _ _ _ _ _ (loadb_run _ _ _ Ht)), (bind_ok _ _ _ _ _ (storeb_run _ _ 0 _ Hw)).
    rewrite decide_False by lia. exists (<[s := u8 0]> m). cbn [length app take].
    replace (Nat.min (S k) (0 + 1)) with 1%nat by lia. split; [done|].
    rewrite take_nil, stored_cons, lookup_insert_eq.
    split; [split; [done|by intros i v Hi]|]. split.
    + intros a Ha. rewrite lookup_insert_ne by lia. done.
    + intros a Ha. rewrite lookup_insert. case_decide; [by eexists|done].
  - apply cstring_cons in Ht as (Hc & Hc0 & Ht). simpl in Hd.
    rewrite (bind_ok _ _ _ _ _ (loadb_run _ _ _ Hc0)), (bind_ok _ _ _ _ _ (storeb_run _ _ c _ Hw)).
    rewrite decide_True by done. rewrite u8_byte by (apply (Hb t c Hc0)).
    assert (bytes (<[s := c]> m)) as Hb'.
    { rewrite <- (u8_byte c) by (apply (Hb t c Hc0)). by apply bytes_insert. }
    destruct (IH (<[s := c]> m) (s + 1) (t + 1) l) as (m' & Hrun & Hst & Hout & Hb''); try done.
    + apply mapped_insert, (mapped_sub _ _ _ _ _ Hm); lia.
    + apply cstring_insert; [lia|done].
    + lia.
    + exists m'. rewrite Hrun. split; [f_equal; cbn [length]; lia|]. cbn [app take]. rewrite stored_cons.
      split; [split; [|done]|split].
      * rewrite Hout by lia. by rewrite lookup_insert_eq.
      * intros a Ha. rewrite Hout by lia. by rewrite lookup_insert_ne by lia.
      * intros a Ha. apply Hb''. rewrite lookup_insert. case_decide; [by eexists|done].
Qed.

Lemma stored_app m a l1 l2 :
  stored m a (l1 ++ l2) <-> stored m a l1 /\ stored m (a + Z.of_nat (length l1)) l2.
Proof.
  revert a. induction l1 as [|c l1 IH]; intros a; cbn [app length].
  - replace (a + Z.of_nat 0) with a by lia. split; [|naive_solver]. intros H. split; [by intros i v Hi|done].
  - rewrite !stored_cons, IH. replace (a + 1 + Z.of_nat (length l1)) with
      (a + Z.of_nat (S (length l1))) by lia. naive_solver.
Qed.

(** safestrcpy always leaves a NUL-terminated string: for n > 0 the destination
    holds the first n - 1 characters of the source and a NUL, nothing outside the n
    bytes of the destination changes, and nothing is read past the source's NUL. *)
Theorem safestrcpy_terminates_string m s t l n :
  bytes m -> 0 < n -> mapped m s n -> cstring m t l ->
  s + n <= t \/ t + Z.of_nat (length l) + 1 <= s ->
  exists m', safestrcpy s t n m = Ok s m' /\
    cstring m' s (take (Z.to_nat (n - 1)) l) /\ same_outside m m' s n.
Proof.
  intros Hb Hn Hm Ht Hd. unfold safestrcpy. rewrite decide_False by lia.
  set (k := Z.to_nat (n - 1)). assert (Z.of_nat k = n - 1) as Hk by lia.
  destruct (safestrcpy_loop_spec k m s t l) as (m' & Hrun & Hst & Hout & Hb'); try done.
  { apply (mapped_sub _ _ _ _ _ Hm); lia. }
  { lia. }
  rewrite (bind_ok _ _ _ _ _ Hrun). set (e := s + Z.of_nat (Nat.min k (length l + 1))).
  assert (exists w, m' !! e = Some w) as [w Hw].
  { apply Hb', (mapped_at _ _ _ _ Hm). unfold e. lia. }
  rewrite (bind_ok _ _ _ _ _ (storeb_run _ _ 0 _ Hw)). change (u8 0) with 0.
  exists (<[e := 0]> m'). split; [done|]. split.
  - split; [apply Forall_take, Ht|].
    assert (stored m' s (take k l)) as Hst'.
    { rewrite take_app in Hst. by apply stored_app in Hst as [Hst _]. }
    intros i v Hi. destruct (decide (s + Z.of_nat i = e)) as [He|He].
    + rewrite He, lookup_insert_eq. f_equal. apply lookup_lt_Some in Hi as Hil.
      rewrite length_app, length_take in Hil. simpl in Hil.
      rewrite lookup_app_r in Hi by (rewrite length_take; unfold e in He; lia).
      apply list_lookup_singleton_Some in Hi as [_ Hi]. done.
    + rewrite lookup_insert_ne by done. apply lookup_app_Some in Hi as [Hi|[Hge Hi]]; [by apply Hst'|].
      apply list_lookup_singleton_Some in Hi as [Hi <-]. rewrite length_take in Hge, Hi.
      apply Hst. rewrite lookup_take_lt by (unfold e in He; lia).
      rewrite lookup_app_r by (unfold e in He; lia).
      replace (i - length l)%nat with O by (unfold e in He; lia). done.
  - intros a Ha. rewrite lookup_insert_ne by (unfold e; lia). apply Hout. lia.
Qed.

Lemma memstr_bytes : bytes memstr.
Proof. apply map_Forall_to_list. vm_compute. repeat constructor; discriminate. Qed.

Lemma memstr_ab : cstring memstr 20 [97; 98].
Proof.
  split; [repeat constructor; discriminate|]. intros i v Hi.
  do 3 (destruct i as [|i]; [by injection Hi as <-|]). by destruct i.
Qed.

