(* ===== verification/Ulib.v ===== *)
(** * user/ulib.c and user/trace.c

    The user library over the byte memory of [CString], with the number of iterations
    of the loops over strings bounded by [fuel]; char is unsigned on this machine.
    [trace_main] is the trace program, as the system calls it makes. *)

From Stdlib Require Import ZArith Lia.
From stdpp Require Import base numbers list gmap strings.
From S2P Require Import Prelude CString.
Open Scope Z_scope.

Definition no_fuel {A} : M mem A := fun _ => Fault OutOfFuel.

Fixpoint strcpy_loop (fuel : nat) (s t : Z) : M mem unit :=
  match fuel with
  | O => no_fuel
  | S fuel' =>
      let! c := loadb t in
      storeb s c ;;
      if decide (c <> 0) then strcpy_loop fuel' (s + 1) (t + 1) else ret tt
  end.
Definition strcpy (fuel : nat) (s t : Z) : M mem Z := strcpy_loop fuel s t ;; ret s.

Fixpoint strcmp (fuel : nat) (p q : Z) : M mem Z :=
  match fuel with
  | O => no_fuel
  | S fuel' =>
      let! c := loadb p in
      let! d := loadb q in
      if decide (c <> 0 /\ c = d) then strcmp fuel' (p + 1) (q + 1) else ret (c - d)
  end.

Fixpoint strlen_loop (fuel : nat) (s n : Z) : M mem Z :=
  match fuel with
  | O => no_fuel
  | S fuel' =>
      let! c := loadb (s + n) in
      if decide (c = 0) then ret n else strlen_loop fuel' s (n + 1)
  end.
Definition strlen (fuel : nat) (s : Z) : M mem Z := strlen_loop fuel s 0.

Definition memset (dst c n : Z) : M mem Z :=
  for_each (zrange 0 n) (fun i => storeb (dst + i) c) ;;
  ret dst.

Fixpoint strchr (fuel : nat) (s c : Z) : M mem Z :=
  match fuel with
  | O => no_fuel
  | S fuel' =>
      let! d := loadb s in
      if decide (d = 0) then ret 0
      else if decide (d = c) then ret s
      else strchr fuel' (s + 1) c
  end.

(** gets(buf, max) on a standard input that holds the bytes [input]; the result is
    what is left of them. *)
Fixpoint gets_loop (input : list Z) (buf i max : Z) : M mem (Z * list Z) :=
  match input with
  | [] => ret (i, [])
  | c :: input' =>
      if decide (i + 1 < max) then
        storeb (buf + i) c ;;
        if decide (c = 10 \/ c = 13) then ret (i + 1, input')
        else gets_loop input' buf (i + 1) max
      else ret (i, input)
  end.
Definition gets_ (input : list Z) (buf max : Z) : M mem (Z * list Z) :=
  let! r := gets_loop input buf 0 max in
  storeb (buf + r.1) 0 ;;
  ret (buf, r.2).

Fixpoint atoi_loop (fuel : nat) (s n : Z) : M mem Z :=
  match fuel with
  | O => no_fuel
  | S fuel' =>
      let! c := loadb s in
      if decide (48 <= c /\ c <= 57) then
        if decide (in_int (n * 10) /\ in_int (n * 10 + c))
        then atoi_loop fuel' (s + 1) (n * 10 + c - 48)
        else undef "signed overflow"
      else ret n
  end.
Definition atoi (fuel : nat) (s : Z) : M mem Z := atoi_loop fuel s 0.

Definition memmove (vdst vsrc n : Z) : M mem Z :=
  (if decide (vsrc > vdst) then copy_up (Z.to_nat n) vdst vsrc
   else copy_down (Z.to_nat n) (vdst + n) (vsrc + n)) ;;
  ret vdst.

Fixpoint memcmp (n : nat) (p1 p2 : Z) : M mem Z :=
  match n with
  | O => ret 0
  | S n' =>
      let! c := loadb p1 in
      let! d := loadb p2 in
      if decide (c <> d) then ret (c - d) else memcmp n' (p1 + 1) (p2 + 1)
  end.

Definition memcpy (dst src n : Z) : M mem Z := memmove dst src n.

(** ** memmove *)

(** Both memmoves, the kernel's and the user library's, copy n bytes as they were
    before the call, also when source and destination overlap, change no other byte,
    return dst, and never fault when both ranges are mapped; so they agree on every
    memory. *)
Lemma memmoves_copy m dst src n :
  bytes m -> 0 <= n -> mapped m dst n -> mapped m src n ->
  exists m', CString.memmove dst src n m = Ok dst m' /\ memmove dst src n m = Ok dst m' /\
    copied m m' dst src n.
Proof.
  intros Hb Hn Hd Hs. destruct (memmove_run m dst src n Hb Hn Hd Hs) as (m' & Hk & Hc).
  exists m'. split; [done|]. split; [|done].
  assert (exists m2, memmove dst src n m = Ok dst m2 /\ copied m m2 dst src n) as (m2 & Hu & Hc2).
  { unfold memmove. case_decide as Hgt.
    - destruct (copy_up_spec (Z.to_nat n) m dst src) as (m2 & Hrun & Hc2);
        rewrite ?Z2Nat.id in * by lia; try done; [lia|].
      exists m2. by rewrite (bind_ok _ _ _ _ _ Hrun).
    - destruct (copy_down_to n m dst src) as (m2 & Hrun & Hc2); try done; [lia|].
      exists m2. by rewrite (bind_ok _ _ _ _ _ Hrun). }
  rewrite Hu. f_equal. apply map_eq. intros a. by rewrite Hc, Hc2.
Qed.

(** ** atoi *)

Definition is_digit (c : Z) : Prop := 48 <= c <= 57.
#[export] Instance is_digit_dec c : Decision (is_digit c).
Proof. unfold is_digit. apply _. Defined.

(** The number that decimal digits stand for, after [n]. *)
Definition decimal (n : Z) (ds : list Z) : Z := fold_left (fun n c => n * 10 + (c - 48)) ds n.

Lemma decimal_ge n ds : 0 <= n -> Forall is_digit ds -> n <= decimal n ds.
Proof.
  intros Hn Hd. revert n Hn. induction Hd as [|c ds Hc Hd IH]; intros n Hn; [done|].
  change (decimal n (c :: ds)) with (decimal (n * 10 + (c - 48)) ds).
  unfold is_digit in Hc. etrans; [|apply IH]; lia.
Qed.

(** The largest result for which no step overflows: each adds the character before it
    subtracts '0'. *)
Definition atoi_max : Z := 2 ^ 31 - 1 - 48.

Lemma atoi_loop_run ds m s n c :
  stored m s (ds ++ [c]) -> Forall is_digit ds -> ~ is_digit c ->
  0 <= n -> decimal n ds <= atoi_max ->
  atoi_loop (S (length ds)) s n m = Ok (decimal n ds) m.
Proof.
  intros Hst Hd Hc. revert s n Hst. induction Hd as [|d ds Hdg Hd IH]; intros s n Hst Hn Hmax.
  - apply stored_cons in Hst as [Hs _]. cbn [atoi_loop length].
    rewrite (bind_ok _ _ _ _ _ (loadb_run _ _ _ Hs)), decide_False; done.
  - change (decimal n (d :: ds)) with (decimal (n * 10 + (d - 48)) ds) in *.
    pose proof Hdg as Hdg'. unfold is_digit in Hdg'.
    assert (n * 10 + (d - 48) <= decimal (n * 10 + (d - 48)) ds) as Hge by (apply decimal_ge; [lia|done]).
    apply stored_cons in Hst as [Hs Hst]. cbn [length]. unfold atoi_loop at 1. fold atoi_loop.
    rewrite (bind_ok _ _ _ _ _ (loadb_run _ _ _ Hs)), decide_True by done.
    unfold atoi_max in Hmax. rewrite decide_True by (unfold in_int, INT_MIN, INT_MAX; lia).
    replace (n * 10 + d - 48) with (n * 10 + (d - 48)) by lia. apply IH; [done|lia|done].
Qed.

(** atoi reads decimal numbers: on a string that starts with digits and goes on with
    anything else, the NUL included, it returns the number those digits stand for, having
    read nothing beyond the first other character, as long as the number is at most
    2147483599; the 48 numbers above that, up to the largest int, overflow on the way. *)
Lemma atoi_decimal ds m s c :
  stored m s (ds ++ [c]) -> Forall is_digit ds -> ~ is_digit c -> decimal 0 ds <= atoi_max ->
  atoi (S (length ds)) s m = Ok (decimal 0 ds) m.
Proof. intros Hst Hd Hc Hmax. by apply atoi_loop_run with (c := c). Qed.

(** "48" and the argument "0xFFFFFFFF" of the trace program, as bytes. *)
Definition str_mem (l : list Z) : mem := list_to_map (imap (fun i c => (Z.of_nat i, c)) (l ++ [0])).


(** ** user/trace.c *)

Inductive ucall : Type :=
| UPrint (fd : Z) (text : string) | UTrace (mask : Z) | UExec (path : Z) (argv : list Z) | UExit (status : Z).

(** The calls main makes, with argv as addresses; exec returns only if it fails. *)
Definition trace_main (fuel : nat) (argc : Z) (argv : list Z) (exec_fails : bool) : M mem (list ucall) :=
  if decide (argc < 3) then
    ret [UPrint 2 "Usage: trace mask command [args...]"; UExit 1]
  else
    match argv with
    | _ :: a1 :: a2 :: args =>
        let! mask := atoi fuel a1 in
        ret ([UTrace mask; UExec a2 (a2 :: args)] ++
             (if exec_fails then [UPrint 2 "exec failed"; UExit 1] else []))
    | _ => undef "argv"
    end.
