(* ===== verification/Umalloc.v ===== *)
(** * user/umalloc.c: the allocator of user memory

    The memory of the process is seen in units of sizeof(Header), 16 bytes: [mem] holds
    what each unit is when read as a Header, zero where nothing was stored.  Only the
    static [base] and the heap, up to the end of the last page, are mapped.  sbrk is the
    system call: whether the kernel grants the memory is up to it ([grants], by call), but
    for the pages there are in the machine. *)

From Stdlib Require Import ZArith Lia.
From stdpp Require Import base numbers list gmap strings.
From S2P Require Import Prelude.
Open Scope Z_scope.

Definition UNIT : Z := 16.             (* sizeof(Header) *)
Definition PGSIZE : Z := 4096.
Definition PHYSICAL : Z := 128 * 1024 * 1024.    (* PHYSTOP - KERNBASE *)
Definition PGROUNDUP (sz : Z) : Z := (sz + PGSIZE - 1) / PGSIZE * PGSIZE.

(** Where the program is loaded: the address of [base], and the heap, which begins
    after the program and its stack, at the start of a page. *)
Class Layout := { BASE : Z; START : Z }.
Class LayoutOk `{Layout} := {
  base_pos : 0 < BASE;
  base_below : BASE + UNIT <= START;
  start_page : START mod PGSIZE = 0;
  start_physical : START <= PHYSICAL }.

Record Header : Type := mkHeader { ptr : Z; size : Z }.
#[export] Instance Header_inhabited : Inhabited Header := populate (mkHeader 0 0).

Record heap : Type := mkHeap { freep : Z; mem : gmap Z Header; brk : Z; calls : nat }.

Definition set_freep (p : Z) (h : heap) : heap := mkHeap p (mem h) (brk h) (calls h).

Section Code.
Context `{L : Layout}.

Definition mapped (h : heap) (p : Z) : Prop := p = BASE \/ (START <= p /\ p + UNIT <= PGROUNDUP (brk h)).
#[global] Instance mapped_dec h p : Decision (mapped h p).
Proof. unfold mapped. apply _. Defined.

Definition load (p : Z) : M heap Header := fun h =>
  if decide (mapped h p) then Ok (mem h !!! p) h else Fault (Undef "page fault").
Definition store (p : Z) (x : Header) : M heap unit := fun h =>
  if decide (mapped h p) then Ok tt (mkHeap (freep h) (<[p := x]> (mem h)) (brk h) (calls h))
  else Fault (Undef "page fault").
Definition set_ptr (p q : Z) : M heap unit := let! x := load p in store p (mkHeader q (size x)).
Definition set_size (p n : Z) : M heap unit := let! x := load p in store p (mkHeader (ptr x) (u32 n)).

(** ** free *)

(** The place for [bp] in the circular list, searched from [p]. *)
Fixpoint free_loop (fuel : nat) (bp p : Z) : M heap Z :=
  match fuel with
  | O => fun _ => Fault OutOfFuel
  | S fuel' =>
      let! x := load p in
      if decide (bp > p /\ bp < ptr x) then ret p
      else if decide (p >= ptr x /\ (bp > p \/ bp < ptr x)) then ret p
      else free_loop fuel' bp (ptr x)
  end.

(** The block at [bp] takes over the free block that follows it. *)
Definition merge_next (bp p : Z) : M heap unit :=
  let! b := load bp in
  let! x := load p in
  if decide (bp + size b * UNIT = ptr x) then
    let! y := load (ptr x) in
    set_size bp (size b + size y) ;;
    let! x := load p in
    let! y := load (ptr x) in
    set_ptr bp (ptr y)
  else set_ptr bp (ptr x).
(** It becomes a part of the block before it, or the next one on the list. *)
Definition merge_prev (bp p : Z) : M heap unit :=
  let! x := load p in
  if decide (p + size x * UNIT = bp) then
    let! b := load bp in
    set_size p (size x + size b) ;;
    let! b := load bp in
    set_ptr p (ptr b)
  else set_ptr p bp.

Definition free (fuel : nat) (ap : Z) : M heap unit :=
  let bp := ap - UNIT in
  let! f := gets freep in
  let! p := free_loop fuel bp f in
  merge_next bp p ;;
  merge_prev bp p ;;
  modify (set_freep p).

Context (grants : nat -> bool).

(** sbrk(n): the old end, or SBRK_ERROR; a negative [n] gives memory back. *)
Definition sbrk (n : Z) : M heap Z := fun h =>
  let old := brk h in
  let h1 := mkHeap (freep h) (mem h) (brk h) (S (calls h)) in
  if decide (0 < n) then
    if decide (grants (calls h) = true /\ old + n <= PHYSICAL) then Ok old (mkHeap (freep h) (mem h) (old + n) (S (calls h))) else Ok (-1) h1
  else if decide (n < 0 /\ 0 <= old + n) then
    Ok old (mkHeap (freep h) (filter (fun x => x.1 + UNIT <= PGROUNDUP (old + n)) (mem h)) (old + n) (S (calls h)))
  else Ok old h1.

(** ** malloc *)

Definition morecore (fuel : nat) (nu : Z) : M heap Z :=
  let nu := if decide (nu < 4096) then 4096 else nu in
  let! p := sbrk (i32 (nu * UNIT)) in
  if decide (p = -1) then ret 0
  else
    set_size p nu ;;
    free fuel (p + UNIT) ;;
    gets freep.

(** [p] is large enough: all of it, or its tail. *)
Definition take_block (nunits prevp p : Z) : M heap Z :=
  let! x := load p in
  let! q := (if decide (size x = nunits) then set_ptr prevp (ptr x) ;; ret p
             else
               set_size p (size x - nunits) ;;
               let! x := load p in
               let q := p + size x * UNIT in
               set_size q nunits ;; ret q) in
  modify (set_freep prevp) ;;
  ret (q + UNIT).

Fixpoint malloc_loop (fuel : nat) (nunits prevp p : Z) : M heap Z :=
  match fuel with
  | O => fun _ => Fault OutOfFuel
  | S fuel' =>
      let! x := load p in
      if decide (size x >= nunits) then take_block nunits prevp p
      else
        let! f := gets freep in
        if decide (p = f) then
          let! p := morecore fuel nunits in
          if decide (p = 0) then ret 0
          else let! x := load p in malloc_loop fuel' nunits p (ptr x)
        else malloc_loop fuel' nunits p (ptr x)
  end.

Definition nunits_of (nbytes : Z) : Z := u32 ((nbytes + UNIT - 1) / UNIT + 1).
Definition malloc (fuel : nat) (nbytes : Z) : M heap Z :=
  let nunits := nunits_of nbytes in
  let! f := gets freep in
  (if decide (f = 0) then
     modify (set_freep BASE) ;;
     set_ptr BASE BASE ;;
     set_size BASE 0
   else ret tt) ;;
  let! prevp := gets freep in
  let! x := load prevp in
  malloc_loop fuel nunits prevp (ptr x).

End Code.

(** ** An example: two blocks, freed in turn, are one again *)

Definition layout1 : Layout := {| BASE := 8192; START := 20480 |}.
Definition heap0 `{Layout} : heap := mkHeap 0 ∅ START 0.
Example malloc_twice :
  match (let _ := layout1 in let! a := malloc (fun _ => true) 10 100 in
         let! b := malloc (fun _ => true) 10 1000 in
         free 10 a ;; free 10 b ;; let! x := load BASE in let! y := load (ptr x) in ret (a, b, ptr x, ptr y, size y)) (heap0 (H := layout1)) with
  | Ok v h => v = (85904, 84880, 20480, 8192, 4096) /\ brk h = 86016
  | _ => False
  end.
Proof. vm_compute. auto. Qed.

(** A request of more than 2^31 - 32 bytes: morecore passes its size to sbrk as an int,
    which becomes negative, so that the heap shrinks and the header of the new block is
    stored outside it. *)
Example malloc_huge : malloc (L := layout1) (fun _ => true) 10 (2 ^ 32 - 4096) (heap0 (H := layout1)) = Fault (Undef "page fault").
Proof. vm_compute. reflexivity. Qed.
