(* ===== verification/UmallocSpec.v ===== *)
(** * The free list of umalloc.c as a set of memory

    The free blocks form a ring through [base] in the order of their addresses, with a
    gap between any two; malloc and free are shown to take memory from the set of free
    units and to give it back, and to leave all other memory alone. *)

From Stdlib Require Import ZArith Lia.
From stdpp Require Import base numbers list gmap strings.
From S2P Require Import Prelude Umalloc.
Open Scope Z_scope.

(** ** Lists of blocks *)

Definition first (l : list (Z * Z)) (e : Z) : Z := match l with [] => e | (a, _) :: _ => a end.
Fixpoint last_of (p : Z) (l : list (Z * Z)) : Z := match l with [] => p | (a, _) :: l' => last_of a l' end.

(** From the header at [p] the links lead through the blocks of [l] to [e]. *)
Fixpoint chain (m : gmap Z Header) (p : Z) (l : list (Z * Z)) (e : Z) : Prop :=
  match l with
  | [] => ptr (m !!! p) = e
  | (a, n) :: l' => ptr (m !!! p) = a /\ size (m !!! a) = n /\ chain m a l' e
  end.

(** The blocks of [l] are in order between [lo] and [hi], and no two touch. *)
Fixpoint gaps (lo : Z) (l : list (Z * Z)) (hi : Z) : Prop :=
  match l with
  | [] => lo <= hi
  | (a, n) :: l' => lo < a /\ 1 <= n /\ a mod UNIT = 0 /\ gaps (a + n * UNIT) l' hi
  end.
Fixpoint fin (lo : Z) (l : list (Z * Z)) : Z := match l with [] => lo | (a, n) :: l' => fin (a + n * UNIT) l' end.

Definition within (l : list (Z * Z)) (x : Z) : Prop := exists a n, (a, n) ∈ l /\ a <= x < a + n * UNIT.

Lemma last_of_app p l1 a n l2 : last_of p (l1 ++ (a, n) :: l2) = last_of a l2.
Proof. revert p. induction l1 as [|[b m] l1 IH]; intros p; simpl; [done|apply IH]. Qed.
Lemma last_of_in p l : last_of p l = p /\ l = [] \/ exists l' n, l = l' ++ [(last_of p l, n)].
Proof.
  destruct l as [|[a n] l _] using rev_ind; [by left|right]. exists l, n. by rewrite last_of_app.
Qed.
Lemma last_node p l : last_of p l = p \/ exists n, (last_of p l, n) ∈ l.
Proof.
  destruct (last_of_in p l) as [[? _]|(l' & n & E)]; [by left|right]. exists n. rewrite E at 2. apply elem_of_app. right. by left.
Qed.
Lemma first_app l1 l2 e : first (l1 ++ l2) e = first l1 (first l2 e).
Proof. by destruct l1 as [|[a n] l1]. Qed.

Lemma chain_app m p l1 l2 e :
  chain m p (l1 ++ l2) e <-> chain m p l1 (first l2 e) /\ chain m (last_of p l1) l2 e /\
    match l2 with [] => True | (a, n) :: _ => size (m !!! a) = n end.
Proof.
  revert p. induction l1 as [|[a n] l1 IH]; intros p; simpl.
  - destruct l2 as [|[b k] l2]; simpl; naive_solver.
  - rewrite IH. naive_solver.
Qed.
Lemma chain_last m p l e : chain m p l e -> ptr (m !!! last_of p l) = e.
Proof. revert p. induction l as [|[a n] l IH]; intros p; simpl; [done|]. intros (_ & _ & Hc). by apply IH. Qed.
Lemma chain_first m p l e : chain m p l e -> ptr (m !!! p) = first l e.
Proof. destruct l as [|[a n] l]; simpl; naive_solver. Qed.
Lemma chain_size m p l e a n : chain m p l e -> (a, n) ∈ l -> size (m !!! a) = n.
Proof.
  revert p. induction l as [|[b k] l IH]; intros p; [by intros _ ?%not_elem_of_nil|].
  intros (_ & Hs & Hc) [E|Hin]%elem_of_cons; [by simplify_eq|by eapply IH].
Qed.
Lemma chain_ext m m' p l e :
  m' !!! p = m !!! p -> (forall a n, (a, n) ∈ l -> m' !!! a = m !!! a) -> chain m p l e -> chain m' p l e.
Proof.
  revert p. induction l as [|[a n] l IH]; intros p Hp Hl; simpl; rewrite Hp; [done|].
  intros (H1 & H2 & H3). split; [done|]. assert (m' !!! a = m !!! a) as Ha by (apply (Hl a n); left).
  rewrite Ha. split; [done|]. apply IH; [done| |done]. intros b k Hb. apply (Hl b k). by right.
Qed.

(** The links may be changed at the head and at the last block. *)
Lemma chain_head m m' a p l e :
  chain m a l e -> ptr (m' !!! p) = first l e -> (forall b n, (b, n) ∈ l -> m' !!! b = m !!! b) -> chain m' p l e.
Proof.
  destruct l as [|[b n] l]; simpl; [done|]. intros (H1 & H2 & H3) Hp Hl.
  assert (m' !!! b = m !!! b) as Hb by (apply (Hl b n); left). rewrite Hb. split; [done|]. split; [done|].
  apply (chain_ext m); [done| |done]. intros c k Hc. apply (Hl c k). by right.
Qed.
Lemma chain_relink m m' p l e e' :
  chain m p l e -> (forall b, b = p \/ (exists n, (b, n) ∈ l) -> size (m' !!! b) = size (m !!! b)) ->
  (forall b, b = p \/ (exists n, (b, n) ∈ l) -> b <> last_of p l -> ptr (m' !!! b) = ptr (m !!! b)) ->
  NoDup (p :: l.*1) -> ptr (m' !!! last_of p l) = e' -> chain m' p l e'.
Proof.
  revert p. induction l as [|[a n] l IH]; intros p; simpl; [done|]. intros (H1 & H2 & H3) Hs Hp Hnd Hl.
  apply NoDup_cons in Hnd as [Hpl Hnd].
  assert (p <> last_of a l) as Hne.
  { intros E. destruct (last_node a l) as [E'|[k Hk]]; [apply Hpl; rewrite E, E'; left|].
    apply Hpl. right. rewrite E. apply list_elem_of_fmap. by exists (last_of a l, k). }
  split; [rewrite Hp; [done|by left|done]|]. split; [rewrite Hs; [done|right; exists n; left]|].
  apply (IH a); try done.
  - intros b [->|[k Hb]]; apply Hs; right; [exists n; left|exists k; by right].
  - intros b [->|[k Hb]] Hnl; apply Hp; try done; right; [exists n; left|exists k; by right].
Qed.

Lemma gaps_app lo l1 l2 hi : gaps lo (l1 ++ l2) hi <-> gaps lo l1 (fin lo l1) /\ gaps (fin lo l1) l2 hi.
Proof.
  revert lo. induction l1 as [|[a n] l1 IH]; intros lo; simpl; [split; [intros; split; [lia|done]|tauto]|]. rewrite IH. tauto.
Qed.
Lemma gaps_in lo l hi a n : gaps lo l hi -> (a, n) ∈ l -> lo < a /\ a + n * UNIT <= hi /\ 1 <= n /\ a mod UNIT = 0.
Proof.
  revert lo. induction l as [|[b k] l IH]; intros lo; [by intros _ ?%not_elem_of_nil|].
  intros (H1 & H2 & H3 & H4) [E|Hin]%elem_of_cons.
  - simplify_eq. split; [done|]. split; [|done]. clear IH. revert H4. generalize (b + k * UNIT).
    induction l as [|[c j] l IH]; intros z; simpl; [done|]. intros (A & B & _ & D). specialize (IH _ D). unfold UNIT in *. lia.
  - destruct (IH _ H4 Hin). unfold UNIT in *. split; [lia|done].
Qed.
Lemma gaps_weak lo lo' l hi hi' : gaps lo l hi -> lo' <= lo -> hi <= hi' -> gaps lo' l hi'.
Proof.
  revert lo lo'. induction l as [|[a n] l IH]; intros lo lo'; simpl; [lia|]. intros (H1 & H2 & H3 & H4) Hl Hh.
  split; [lia|]. split; [done|]. split; [done|]. by apply (IH (a + n * UNIT)).
Qed.
Lemma fin_in lo l : fin lo l = lo /\ l = [] \/ exists l' a n, l = l' ++ [(a, n)] /\ fin lo l = a + n * UNIT.
Proof.
  destruct l as [|[a n] l _] using rev_ind; [by left|right]. exists l, a, n. split; [done|].
  revert lo. induction l as [|[b k] l IH]; intros lo; simpl; [done|apply IH].
Qed.

Lemma within_cons a n l x : within ((a, n) :: l) x <-> a <= x < a + n * UNIT \/ within l x.
Proof.
  unfold within. split.
  - intros (b & k & [E|Hin]%elem_of_cons & Hx); [left; by simplify_eq|right; by exists b, k].
  - intros [Hx|(b & k & Hin & Hx)]; [exists a, n; split; [by left|done]|exists b, k; split; [by right|done]].
Qed.
Lemma within_app l1 l2 x : within (l1 ++ l2) x <-> within l1 x \/ within l2 x.
Proof. unfold within. setoid_rewrite elem_of_app. naive_solver. Qed.
Lemma within_nil x : ~ within [] x.
Proof. intros (a & n & Hin & _). by apply not_elem_of_nil in Hin. Qed.

Section Heap.
Context {L : Layout} {LOk : LayoutOk}.

(** ** Memory accesses *)

Definition upd (p : Z) (x : Header) (h : heap) : heap := mkHeap (freep h) (<[p := x]> (mem h)) (brk h) (calls h).

(** The whole units of the heap. *)
Definition in_heap (h : heap) (p : Z) : Prop := START <= p /\ p + UNIT <= brk h.

Lemma heap_mapped h p : p = BASE \/ in_heap h p -> mapped h p.
Proof using.
  intros [->|[H1 H2]]; [by left|right]. split; [done|]. etrans; [exact H2|]. unfold PGROUNDUP, PGSIZE.
  pose proof (Z.div_mod (brk h + 4096 - 1) 4096). pose proof (Z.mod_pos_bound (brk h + 4096 - 1) 4096). lia.
Qed.
Lemma load_ok h p : mapped h p -> load p h = Ok (mem h !!! p) h.
Proof using. intros Hm. unfold load. by rewrite decide_True. Qed.
Lemma store_ok h p x : mapped h p -> store p x h = Ok tt (upd p x h).
Proof using. intros Hm. unfold store. by rewrite decide_True. Qed.
Lemma set_ptr_ok h p q : mapped h p -> set_ptr p q h = Ok tt (upd p (mkHeader q (size (mem h !!! p))) h).
Proof using. intros Hm. unfold set_ptr. rewrite (bind_ok _ _ _ _ _ (load_ok h p Hm)). by apply store_ok. Qed.
Lemma set_size_ok h p n : mapped h p -> 0 <= n < 2 ^ 32 -> set_size p n h = Ok tt (upd p (mkHeader (ptr (mem h !!! p)) n) h).
Proof using.
  intros Hm Hn. unfold set_size. rewrite (bind_ok _ _ _ _ _ (load_ok h p Hm)). rewrite store_ok by done.
  unfold u32. by rewrite uwrap_small.
Qed.
Lemma upd_at p x h : mem (upd p x h) !!! p = x.
Proof using. simpl. apply lookup_total_insert_eq. Qed.
Lemma upd_other p q x h : p <> q -> mem (upd p x h) !!! q = mem h !!! q.
Proof using. intros Hne. simpl. by apply lookup_total_insert_ne. Qed.
Lemma upd_twice p x y h : upd p x (upd p y h) = upd p x h.
Proof using. unfold upd. simpl. by rewrite insert_insert_eq. Qed.

(** ** The ring of free blocks *)

Record ok (h : heap) (bs : list (Z * Z)) : Prop := {
  ok_chain : chain (mem h) BASE bs BASE;
  ok_base : size (mem h !!! BASE) = 0;
  ok_gaps : gaps (START - UNIT) bs (brk h);
  ok_freep : freep h = BASE \/ exists n, (freep h, n) ∈ bs;
  ok_brk : START <= brk h <= PHYSICAL /\ brk h mod UNIT = 0 }.

Lemma start_unit : START mod UNIT = 0.
Proof using LOk.
  pose proof start_page as H. unfold PGSIZE, UNIT in *. apply Z.mod_divide in H; [|done]. destruct H as [k ->].
  apply Z.mod_divide; [done|]. exists (k * 256). lia.
Qed.

(** Aligned addresses that differ are a unit apart. *)
Lemma aligned_lt a b : a mod UNIT = 0 -> b mod UNIT = 0 -> a < b -> a + UNIT <= b.
Proof using.
  unfold UNIT. intros Ha Hb Hlt. pose proof (Z.div_mod a 16). pose proof (Z.div_mod b 16). lia.
Qed.
Lemma aligned_add a n : a mod UNIT = 0 -> (a + n * UNIT) mod UNIT = 0.
Proof using. intros Ha. rewrite Z.mod_add by done. done. Qed.

Lemma ok_block h bs a n : ok h bs -> (a, n) ∈ bs ->
  in_heap h a /\ BASE < a /\ a mod UNIT = 0 /\ 1 <= n /\ a + n * UNIT <= brk h /\ size (mem h !!! a) = n.
Proof using LOk.
  intros I Hin. destruct (gaps_in _ _ _ _ _ (ok_gaps _ _ I) Hin) as (H1 & H2 & H3 & H4).
  pose proof base_below. pose proof start_unit.
  assert (START <= a).
  { destruct (decide (START <= a)) as [|Hlt]; [done|]. pose proof (aligned_lt a START H4 ltac:(done) ltac:(lia)). lia. }
  unfold in_heap. split_and!; try done; try (unfold UNIT in *; lia). by eapply chain_size; [apply (ok_chain _ _ I)|].
Qed.

Lemma ok_node h bs p : ok h bs -> p = BASE \/ (exists n, (p, n) ∈ bs) -> mapped h p /\ BASE <= p.
Proof using LOk.
  intros I [->|[n Hin]]; [split; [by left|lia]|]. destruct (ok_block h bs p n I Hin) as (H1 & H2 & _).
  split; [apply heap_mapped; by right|lia].
Qed.
(** ** The search of free *)

(** Around the block at [a] the ring splits in two. *)
Lemma split_ring lo l hi a n :
  gaps lo l hi -> (forall b k, (b, k) ∈ l -> a + n * UNIT <= b \/ b + k * UNIT <= a) ->
  1 <= n ->
  exists l1 l2, l = l1 ++ l2 /\ (forall b k, (b, k) ∈ l1 -> b + k * UNIT <= a) /\ (forall b k, (b, k) ∈ l2 -> a + n * UNIT <= b).
Proof using.
  intros Hg Hd Hn. revert lo Hg. induction l as [|[b k] l IH]; intros lo Hg.
  - exists [], []. split; [done|]. split; intros b k Hin; by apply not_elem_of_nil in Hin.
  - destruct Hg as (H1 & H2 & H3 & H4). destruct (Hd b k ltac:(left)) as [Hb|Hb].
    + exists [], ((b, k) :: l). split; [done|]. split; [intros ? ? Hin; by apply not_elem_of_nil in Hin|].
      intros c j [E|Hin]%elem_of_cons; [by simplify_eq|].
      destruct (gaps_in _ _ _ _ _ H4 Hin) as (? & _). unfold UNIT in *. lia.
    + destruct (IH ltac:(intros; apply Hd; by right) _ H4) as (l1 & l2 & -> & Hl1 & Hl2).
      exists ((b, k) :: l1), l2. split; [done|]. split; [|done].
      intros c j [E|Hin]%elem_of_cons; [by simplify_eq|by apply Hl1].
Qed.

(** Forward to the place, through smaller addresses. *)
Lemma free_walk_left h p y e bp fuel lo hi :
  chain (mem h) p y e -> mapped h p -> (forall b k, (b, k) ∈ y -> mapped h b /\ b < bp) ->
  p <= lo -> gaps lo y hi -> p < bp -> bp < e \/ e <= BASE /\ BASE <= p -> (length y < fuel)%nat ->
  free_loop fuel bp p h = Ok (last_of p y) h.
Proof using.
  revert p lo fuel. induction y as [|[b k] y IH]; intros p lo fuel Hc Hm Hy Hlo Hg Hp He Hf;
    (destruct fuel as [|fuel]; [simpl in Hf; lia|]); cbn [free_loop]; rewrite (bind_ok _ _ _ _ _ (load_ok h p Hm)).
  - simpl in Hc. rewrite Hc. destruct He as [He|[He He']]; [by rewrite decide_True by lia|].
    case_decide; [done|]. by rewrite decide_True by lia.
  - destruct Hc as (-> & _ & Hc). destruct Hg as (H1 & H2 & _ & H4).
    destruct (Hy b k ltac:(left)) as [Hmb Hb]. rewrite decide_False by lia. rewrite decide_False by lia.
    apply (IH b (b + k * UNIT)); try done; try (simpl in *; unfold UNIT in *; lia).
    intros c j Hin. apply (Hy c j). by right.
Qed.

(** Through the larger addresses to [base]. *)
Lemma free_walk_right h p y bp fuel lo hi :
  chain (mem h) p y BASE -> mapped h p -> (forall b k, (b, k) ∈ y -> mapped h b /\ bp < b) ->
  p <= lo -> gaps lo y hi -> bp < p -> BASE < bp ->
  free_loop (S (length y) + fuel) bp p h = free_loop fuel bp BASE h.
Proof using.
  revert p lo. induction y as [|[b k] y IH]; intros p lo Hc Hm Hy Hlo Hg Hp Hbase;
    cbn [length Nat.add free_loop]; rewrite (bind_ok _ _ _ _ _ (load_ok h p Hm)).
  - simpl in Hc. rewrite Hc. rewrite decide_False by lia. by rewrite decide_False by lia.
  - destruct Hc as (-> & _ & Hc). destruct Hg as (H1 & H2 & _ & H4).
    destruct (Hy b k ltac:(left)) as [Hmb Hb]. rewrite decide_False by lia. rewrite decide_False by lia.
    apply (IH b (b + k * UNIT)); try done; try (simpl in *; unfold UNIT in *; lia).
    intros c j Hin. apply (Hy c j). by right.
Qed.

(** A part of the ring. *)
Lemma ok_from h bs x p k y : ok h bs -> bs = x ++ (p, k) :: y ->
  chain (mem h) p y BASE /\ gaps (p + k * UNIT) y (brk h) /\ p <= p + k * UNIT.
Proof using LOk.
  intros I ->. destruct (ok_block h _ p k I ltac:(apply elem_of_app; right; by left)) as (_ & _ & _ & Hk & _).
  pose proof (ok_chain _ _ I) as Hc. pose proof (ok_gaps _ _ I) as Hg.
  apply chain_app in Hc as (_ & Hc & _). apply gaps_app in Hg as [_ Hg]. simpl in Hc, Hg.
  split_and!; try tauto. unfold UNIT. lia.
Qed.

Lemma free_find h l1 l2 a fuel :
  ok h (l1 ++ l2) -> BASE < a ->
  (forall b k, (b, k) ∈ l1 -> b < a) -> (forall b k, (b, k) ∈ l2 -> a < b) -> (length (l1 ++ l2) + 2 <= fuel)%nat ->
  free_loop fuel a (freep h) h = Ok (last_of BASE l1) h.
Proof using LOk.
  intros I Ha H1 H2 Hf. pose proof base_below. pose proof (ok_chain _ _ I) as Hc. pose proof (ok_gaps _ _ I) as Hg.
  assert (forall b k, (b, k) ∈ l1 ++ l2 -> mapped h b) as Hmap.
  { intros b k Hin. apply (ok_node h (l1 ++ l2)); [done|right; by exists k]. }
  assert (forall p, p < a -> BASE <= p -> a < first l2 BASE \/ first l2 BASE <= BASE /\ BASE <= p) as Hnext.
  { intros p Hp Hb. destruct l2 as [|[c j] l2]; [right; simpl; lia|left]. apply (H2 c j). left. }
  apply chain_app in Hc as (Hc1 & Hc2 & _). apply gaps_app in Hg as [Hg1 Hg2]. rewrite length_app in Hf.
  assert (forall fuel, (length l1 < fuel)%nat -> free_loop fuel a BASE h = Ok (last_of BASE l1) h) as Hbase.
  { intros fl Hfl. eapply (free_walk_left h BASE l1 _ a fl (START - UNIT)); [exact Hc1|by left| |lia|exact Hg1|done|by apply Hnext|done].
    intros b k Hin. split; [apply (Hmap b k), elem_of_app; by left|by apply (H1 b k)]. }
  destruct (ok_freep _ _ I) as [->|[n [Hin|Hin]%elem_of_app]]; [apply Hbase; lia| |].
  - pose proof Hin as (x & y & E)%list_elem_of_split. destruct (ok_from h (l1 ++ l2) x (freep h) n (y ++ l2) I) as (Hy & Hgy & Hle).
    { by rewrite E, <- app_assoc. }
    apply chain_app in Hy as [Hy _]. apply gaps_app in Hgy as [Hgy _]. rewrite E, last_of_app.
    destruct (ok_node h (l1 ++ l2) (freep h) I (ok_freep _ _ I)) as [Hmf Hbf].
    eapply (free_walk_left h (freep h) y _ a fuel); [exact Hy|done| |exact Hle|exact Hgy|by apply (H1 _ n)| |].
    + intros b k Hb. assert ((b, k) ∈ l1) by (rewrite E; apply elem_of_app; right; by right).
      split; [apply (Hmap b k), elem_of_app; by left|by apply (H1 b k)].
    + apply Hnext; [by apply (H1 _ n)|done].
    + rewrite E, length_app in Hf. simpl in Hf. lia.
  - pose proof Hin as (x & y & E)%list_elem_of_split. destruct (ok_from h (l1 ++ l2) (l1 ++ x) (freep h) n y I) as (Hy & Hgy & Hle).
    { by rewrite E, <- app_assoc. }
    destruct (ok_node h (l1 ++ l2) (freep h) I (ok_freep _ _ I)) as [Hmf Hbf].
    rewrite E, length_app in Hf. simpl in Hf.
    replace fuel with (S (length y) + (fuel - S (length y)))%nat by lia.
    erewrite (free_walk_right h (freep h) y a); [apply Hbase; lia|exact Hy|done| |exact Hle|exact Hgy|by apply (H2 _ n)|done].
    intros b k Hb. assert ((b, k) ∈ l2) by (rewrite E; apply elem_of_app; right; by right).
    split; [apply (Hmap b k), elem_of_app; by right|by apply (H2 b k)].
Qed.

(** ** The merges of free *)

(** A block that is neither free nor base: the program has it. *)
Record block (h : heap) (bs : list (Z * Z)) (a n : Z) : Prop := {
  bl_start : START <= a;
  bl_aligned : a mod UNIT = 0;
  bl_pos : 1 <= n;
  bl_end : a + n * UNIT <= brk h;
  bl_size : size (mem h !!! a) = n;
  bl_apart : forall b k, (b, k) ∈ bs -> a + n * UNIT <= b \/ b + k * UNIT <= a }.

Lemma block_heap h bs a n : ok h bs -> block h bs a n -> in_heap h a /\ mapped h a /\ BASE < a /\ n < 2 ^ 27.
Proof using LOk.
  intros I [H1 H2 H3 H4 H5 H6]. pose proof base_below. destruct (ok_brk _ _ I) as [? _]. unfold PHYSICAL in *.
  pose proof base_pos. assert (in_heap h a) by (unfold in_heap, UNIT in *; lia).
  split; [done|]. split; [apply heap_mapped; by right|]. unfold UNIT in *. split; lia.
Qed.

Lemma last_mapped h l1 l2 : ok h (l1 ++ l2) -> mapped h (last_of BASE l1).
Proof using LOk.
  intros I. apply (ok_node h (l1 ++ l2)); [done|]. destruct (last_node BASE l1) as [->|[k Hk]]; [by left|right].
  exists k. apply elem_of_app. by left.
Qed.

Lemma merge_next_run h l1 l2 a n :
  ok h (l1 ++ l2) -> block h (l1 ++ l2) a n -> last_of BASE l1 <> a ->
  (forall b k, (b, k) ∈ l2 -> a + n * UNIT <= b) ->
  exists n' r, merge_next a (last_of BASE l1) h = Ok tt (upd a (mkHeader (first r BASE) n') h) /\
    (n' = n /\ r = l2 /\ a + n * UNIT <> first l2 BASE \/ l2 = (a + n * UNIT, n' - n) :: r).
Proof using LOk.
  intros I B Hp H2. destruct (block_heap h _ a n I B) as (Hin & Hm & Hb & Hn). pose proof (last_mapped h l1 l2 I) as Hmp.
  pose proof (ok_chain _ _ I) as Hc. apply chain_app in Hc as (Hc1 & Hc2 & _). apply chain_last in Hc1.
  unfold merge_next. rewrite (bind_ok _ _ _ _ _ (load_ok h a Hm)), (bind_ok _ _ _ _ _ (load_ok h _ Hmp)).
  rewrite (bl_size _ _ _ _ B), Hc1. case_decide as Hd.
  - destruct l2 as [|[c m] r]; [simpl in Hd; pose proof (bl_pos _ _ _ _ B); unfold UNIT in *; lia|]. simpl first in Hd, Hc1.
    assert (c = a + n * UNIT) as Hca by done. clear Hd. rewrite Hca in *. clear Hca c.
    destruct (ok_block h _ (a + n * UNIT) m I ltac:(apply elem_of_app; right; left)) as (Hci & _ & _ & Hm1 & Hme & Hs).
    assert (mapped h (a + n * UNIT)) as Hmc by (apply heap_mapped; by right).
    rewrite (bind_ok _ _ _ _ _ (load_ok h _ Hmc)), Hs. pose proof (bl_pos _ _ _ _ B) as Hn1. destruct (ok_brk _ _ I) as [Hbrk _].
    pose proof base_pos. pose proof (bl_start _ _ _ _ B). pose proof base_below.
    rewrite (bind_ok _ _ _ _ _ (set_size_ok h a (n + m) Hm ltac:(unfold PHYSICAL, UNIT in *; lia))).
    rewrite (bind_ok _ _ _ _ _ (load_ok (upd a _ h) _ Hmp)), upd_other by done. rewrite Hc1. simpl first.
    rewrite (bind_ok _ _ _ _ _ (load_ok (upd a _ h) _ Hmc)), upd_other by (unfold UNIT; lia).
    rewrite set_ptr_ok, upd_at, upd_twice by done. exists (n + m), r. split; [|right; f_equal; f_equal; lia].
    simpl in Hc2. destruct Hc2 as (_ & _ & Hc2). by rewrite (chain_first _ _ _ _ Hc2).
  - exists n, l2. split; [|by left]. rewrite set_ptr_ok by done. by rewrite (bl_size _ _ _ _ B).
Qed.

(** The state between the merges: the ring without the block at [a], which is linked on. *)
Record loose (h : heap) (l1 : list (Z * Z)) (a n : Z) (r : list (Z * Z)) : Prop := {
  lo_left : exists e, chain (mem h) BASE l1 e;
  lo_base : size (mem h !!! BASE) = 0;
  lo_right : chain (mem h) a r BASE;
  lo_size : size (mem h !!! a) = n;
  lo_gaps : gaps (START - UNIT) l1 (fin (START - UNIT) l1);
  lo_fin : fin (START - UNIT) l1 <= a;
  lo_block : START <= a /\ a mod UNIT = 0 /\ 1 <= n;
  lo_gaps_r : gaps (a + n * UNIT) r (brk h);
  lo_brk : START <= brk h <= PHYSICAL /\ brk h mod UNIT = 0 }.

Lemma gaps_end lo l hi : gaps lo l hi -> lo <= hi.
Proof using. revert lo. induction l as [|[a n] l IH]; intros lo; simpl; [done|]. intros (H1 & H2 & _ & H4). specialize (IH _ H4). unfold UNIT in *. lia. Qed.

Lemma gaps_nodup lo l hi : gaps lo l hi -> NoDup (l.*1) /\ forall a, a ∈ l.*1 -> lo < a.
Proof using.
  revert lo. induction l as [|[a n] l IH]; intros lo; simpl.
  - intros _. split; [constructor|]. intros a Ha. by apply not_elem_of_nil in Ha.
  - intros (H1 & H2 & _ & H4). destruct (IH _ H4) as [Hnd Hlt]. split.
    + constructor; [|done]. intros Hin. specialize (Hlt a Hin). unfold UNIT in *. lia.
    + intros b [->|Hb]%elem_of_cons; [done|]. specialize (Hlt b Hb). unfold UNIT in *. lia.
Qed.

Lemma in_fst (l : list (Z * Z)) a : a ∈ l.*1 <-> exists n, (a, n) ∈ l.
Proof using.
  rewrite list_elem_of_fmap. split; [intros ([b n] & -> & Hin); by exists n|intros [n Hin]; by exists (a, n)].
Qed.

Lemma merge_next_loose h l1 l2 a n n' r (h' := upd a (mkHeader (first r BASE) n') h) :
  ok h (l1 ++ l2) -> block h (l1 ++ l2) a n ->
  (forall b k, (b, k) ∈ l1 -> b + k * UNIT <= a) -> (forall b k, (b, k) ∈ l2 -> a + n * UNIT <= b) ->
  (n' = n /\ r = l2 /\ a + n * UNIT <> first l2 BASE \/ l2 = (a + n * UNIT, n' - n) :: r) ->
  loose h' l1 a n' r /\ (forall x, a <= x < a + n' * UNIT \/ within r x <-> a <= x < a + n * UNIT \/ within l2 x).
Proof using LOk.
  intros I B H1 H2 Hr. destruct (block_heap h _ a n I B) as (Hin & Hm & Hb & Hn).
  pose proof (ok_chain _ _ I) as Hc. apply chain_app in Hc as (Hc1 & Hc2 & _).
  pose proof (ok_gaps _ _ I) as Hg. apply gaps_app in Hg as [Hg1 Hg2]. pose proof (bl_pos _ _ _ _ B) as Hpos.
  assert (forall b k, (b, k) ∈ l2 -> b <> a) as Hne2 by (intros b k Hb'; specialize (H2 b k Hb'); unfold UNIT in *; lia).
  assert (forall b k, (b, k) ∈ r -> (b, k) ∈ l2) as Hsub.
  { destruct Hr as [(_ & -> & _)| ->]; [done|]. intros b k Hb'. by right. }
  assert (1 <= n' /\ gaps (a + n' * UNIT) r (brk h) /\ exists c, chain (mem h) c r BASE) as (Hn' & Hgr & c & Hcr).
  { destruct Hr as [(-> & -> & Hne)| ->].
    - split; [done|]. split; [|by exists (last_of BASE l1)]. destruct l2 as [|[c m] l2].
      + simpl. apply (bl_end _ _ _ _ B).
      + simpl in Hg2 |- *. specialize (H2 c m ltac:(left)). simpl in Hne. split_and!; try tauto. lia.
    - simpl in Hg2, Hc2. destruct Hg2 as (G1 & G2 & G3 & G4). split; [unfold UNIT in *; lia|].
      split; [|exists (a + n * UNIT); tauto]. by replace (a + n' * UNIT) with (a + n * UNIT + (n' - n) * UNIT) by lia. }
  split.
  - split.
    + exists (first l2 BASE). apply (chain_ext (mem h)); [apply upd_other; lia| |done].
      intros b k Hbk. apply upd_other. intros <-. specialize (H1 _ k Hbk).
      destruct (gaps_in _ _ _ _ _ Hg1 Hbk) as (_ & _ & ? & _). unfold UNIT in *. lia.
    + unfold h'. rewrite upd_other by lia. apply (ok_base _ _ I).
    + apply (chain_head (mem h) _ c); [done|unfold h'; by rewrite upd_at|]. intros b k Hbk. apply upd_other.
      intros <-. by eapply Hne2; [apply Hsub|].
    + unfold h'. by rewrite upd_at.
    + done.
    + destruct (fin_in (START - UNIT) l1) as [[-> _]|(l' & b & k & -> & ->)].
      * pose proof (bl_start _ _ _ _ B). unfold UNIT. lia.
      * apply H1. apply elem_of_app. right. by left.
    + destruct B. done.
    + done.
    + apply (ok_brk _ _ I).
  - intros x. destruct Hr as [(-> & -> & _)| ->]; [done|]. rewrite within_cons.
    assert (1 <= n' - n) by (simpl in Hg2; tauto).
    assert (a <= x < a + n' * UNIT <-> a <= x < a + n * UNIT \/ a + n * UNIT <= x < a + n * UNIT + (n' - n) * UNIT) as Hx
      by (unfold UNIT in *; lia). tauto.
Qed.

Lemma loose_bounds h l1 a n r (p := last_of BASE l1) :
  loose h l1 a n r ->
  mapped h a /\ mapped h p /\ BASE <= p < a /\ a + n * UNIT <= brk h /\
  (forall b, (exists k, (b, k) ∈ l1) -> BASE < b) /\ (forall b, (exists k, (b, k) ∈ r) -> a < b).
Proof using LOk.
  intros [[e H1] H2 H3 H4 H5 H6 (Hst & Hal & Hn) H8 Hbrk]. pose proof base_below. pose proof base_pos.
  pose proof (gaps_end _ _ _ H8) as Hend. assert (BASE < a) as HBa by (unfold UNIT in *; lia).
  assert (forall b, (exists k, (b, k) ∈ l1) -> BASE < b < a /\ mapped h b) as Hleft.
  { intros b [k Hb]. destruct (gaps_in _ _ _ _ _ H5 Hb) as (G1 & G2 & G3 & G4).
    assert (START <= b) by (destruct (decide (START <= b)); [done|];
      pose proof (aligned_lt b START G4 start_unit ltac:(lia)); lia).
    split; [unfold UNIT in *; lia|]. apply heap_mapped. right. unfold in_heap, UNIT in *. lia. }
  split; [apply heap_mapped; right; unfold in_heap, UNIT in *; lia|].
  assert (mapped h p /\ BASE <= p < a) as [Hmp Hp].
  { unfold p. destruct (last_node BASE l1) as [->|Hk]; [split; [by left|lia]|]. destruct (Hleft _ Hk). split; [done|lia]. }
  split_and!; try done; try lia; [intros b Hb; by apply Hleft|].
  intros b [k Hb]. destruct (gaps_in _ _ _ _ _ H8 Hb). unfold UNIT in *. lia.
Qed.

(** The block at [a] becomes a part of the last block before it, *)
Lemma join_ok h h' l1 p q a n r :
  loose h (l1 ++ [(p, q)]) a n r -> p + q * UNIT = a ->
  mem h' !!! p = mkHeader (first r BASE) (q + n) -> (forall x, x <> p -> mem h' !!! x = mem h !!! x) ->
  brk h' = brk h -> ok (set_freep p h') (l1 ++ (p, q + n) :: r).
Proof using LOk.
  intros Lo Hd Hat Hoth Hbrk. pose proof (loose_bounds _ _ _ _ _ Lo) as (_ & _ & Hp & _ & Hleft & Hright).
  rewrite last_of_app in Hp. simpl in Hp. destruct Lo as [[e H1] H2 H3 H4 H5 H6 (Hst & Hal & Hn) H8 Hb].
  apply chain_app in H1 as (Hc1 & _ & _). simpl in Hc1. apply gaps_app in H5 as [Hg1 (G1 & G2 & G3 & _)].
  assert (BASE < p) as HBp by (apply Hleft; exists q; apply elem_of_app; right; by left).
  assert (chain (mem h') BASE l1 p) as Hc'.
  { apply (chain_ext (mem h)); [apply Hoth; lia| |done]. intros b k Hbk. apply Hoth. intros ->.
    destruct (gaps_in _ _ _ _ _ Hg1 Hbk) as (_ & ? & ? & _). unfold UNIT in *. lia. }
  split; cbn [set_freep mem freep brk]; rewrite ?Hbrk; try done.
  - apply chain_app. cbn [first chain]. rewrite Hat. split; [done|]. split; [|done].
    split; [by apply (chain_last _ BASE)|]. split; [done|]. apply (chain_head (mem h) _ a); [done|by rewrite Hat|].
    intros b k Hbk. apply Hoth. specialize (Hright b (ex_intro _ k Hbk)). lia.
  - rewrite Hoth by lia. done.
  - apply gaps_app. split; [done|]. simpl. split; [done|]. split; [lia|]. split; [done|].
    by replace (p + (q + n) * UNIT) with (a + n * UNIT) by lia.
  - right. exists (q + n). apply elem_of_app. right. by left.
Qed.

(** or a block of its own. *)
Lemma link_ok h h' l1 a n r (p := last_of BASE l1) :
  loose h l1 a n r -> p + size (mem h !!! p) * UNIT <> a ->
  mem h' !!! p = mkHeader a (size (mem h !!! p)) -> (forall x, x <> p -> mem h' !!! x = mem h !!! x) ->
  brk h' = brk h -> ok (set_freep p h') (l1 ++ (a, n) :: r).
Proof using LOk.
  intros Lo Hd Hat Hoth Hbrk. pose proof (loose_bounds _ _ _ _ _ Lo) as (_ & _ & Hp & _ & Hleft & Hright).
  destruct Lo as [[e H1] H2 H3 H4 H5 H6 (Hst & Hal & Hn) H8 Hb]. fold p in Hp.
  destruct (gaps_nodup _ _ _ H5) as [Hnd Hlt].
  assert (chain (mem h') BASE l1 a) as Hc'.
  { apply (chain_relink (mem h) _ _ _ e); [done| | | |fold p; by rewrite Hat].
    - intros b _. destruct (decide (b = p)) as [->|]; [by rewrite Hat|by rewrite Hoth].
    - intros b _ Hbk. by rewrite Hoth.
    - constructor; [|done]. intros Hin%in_fst%Hleft. lia. }
  split; cbn [set_freep mem freep brk]; rewrite ?Hbrk; try done.
  - apply chain_app. cbn [first chain]. split; [done|]. rewrite (Hoth a) by lia. split; [|done].
    split; [by apply (chain_last _ BASE)|]. split; [done|]. apply (chain_head (mem h) _ a); [done| |].
    + rewrite Hoth by lia. by apply chain_first.
    + intros b k Hbk. apply Hoth. specialize (Hright b (ex_intro _ k Hbk)). lia.
  - destruct (decide (BASE = p)) as [E|]; [|by rewrite Hoth]. rewrite E, Hat. cbn [size]. by rewrite <- E.
  - apply gaps_app. split; [done|]. simpl. split_and!; try done.
    destruct (fin_in (START - UNIT) l1) as [[E _]|(l' & b & k & E & Ef)]; [rewrite E; unfold UNIT; lia|].
    assert (p = b) as Epb by (unfold p; rewrite E; apply last_of_app).
    assert (size (mem h !!! p) = k) as Ek.
    { rewrite Epb. eapply chain_size; [exact H1|]. rewrite E. apply elem_of_app. right. by left. }
    rewrite Ek, Epb in Hd. lia.
  - destruct (last_node BASE l1) as [E|[k Hk]]; [by left|right]. exists k. apply elem_of_app. by left.
Qed.

Lemma merge_prev_run h l1 a n r (p := last_of BASE l1) :
  loose h l1 a n r ->
  exists h' bs, merge_prev a p h = Ok tt h' /\ ok (set_freep p h') bs /\
    (forall x, within bs x <-> within l1 x \/ a <= x < a + n * UNIT \/ within r x) /\
    (forall x, x <> p -> mem h' !!! x = mem h !!! x) /\ brk h' = brk h /\ calls h' = calls h /\
    (length bs <= length l1 + S (length r))%nat.
Proof using LOk.
  intros Lo. pose proof (loose_bounds _ _ _ _ _ Lo) as (Hma & Hmp & Hp & Hend & _). fold p in Hmp, Hp.
  pose proof base_pos. destruct (lo_left _ _ _ _ _ Lo) as [e Hc]. pose proof (lo_size _ _ _ _ _ Lo) as Hn.
  destruct (lo_block _ _ _ _ _ Lo) as (_ & _ & Hn1). destruct (lo_brk _ _ _ _ _ Lo) as [Hb _].
  unfold merge_prev. rewrite (bind_ok _ _ _ _ _ (load_ok h p Hmp)). case_decide as Hd.
  - assert (exists l1' q, l1 = l1' ++ [(p, q)]) as (l1' & q & El).
    { unfold p in *. destruct (last_of_in BASE l1) as [[E _]|(l' & k & E)]; [|by exists l', k].
      rewrite E, (lo_base _ _ _ _ _ Lo) in Hd. unfold UNIT in *. lia. }
    assert (size (mem h !!! p) = q) as Hq by (eapply chain_size; [exact Hc|]; rewrite El; apply elem_of_app; right; by left).
    assert (1 <= q).
    { eapply (gaps_in _ _ _ p q); [apply (lo_gaps _ _ _ _ _ Lo)|]. rewrite El. apply elem_of_app. right. by left. }
    rewrite Hq in Hd |- *. rewrite (bind_ok _ _ _ _ _ (load_ok h a Hma)), Hn.
    rewrite (bind_ok _ _ _ _ _ (set_size_ok h p (q + n) Hmp ltac:(unfold PHYSICAL, UNIT in *; lia))).
    rewrite (bind_ok _ _ _ _ _ (load_ok (upd p _ h) a Hma)), upd_other by lia.
    rewrite set_ptr_ok, upd_at, upd_twice by done. cbn [size]. rewrite (chain_first _ _ _ _ (lo_right _ _ _ _ _ Lo)).
    eexists _, (l1' ++ (p, q + n) :: r). split; [done|]. split; [|split; [|split; [intros x Hx; by apply upd_other|]]].
    + rewrite El in Lo. eapply join_ok; [exact Lo|done|apply upd_at|intros x Hx; by apply upd_other|done].
    + intros x. rewrite El, !within_app, !within_cons. pose proof (within_nil x).
      assert (p <= x < p + (q + n) * UNIT <-> p <= x < p + q * UNIT \/ a <= x < a + n * UNIT) by (unfold UNIT in *; lia). tauto.
    + split; [done|]. split; [done|]. rewrite El, !length_app. simpl. lia.
  - rewrite set_ptr_ok by done. eexists _, (l1 ++ (a, n) :: r). split; [done|].
    split; [|split; [intros x; rewrite within_app, within_cons; tauto|split; [intros x Hx; by apply upd_other|
      split; [done|split; [done|rewrite length_app; simpl; lia]]]]].
    eapply link_ok; [exact Lo|done|apply upd_at|intros x Hx; by apply upd_other|done].
Qed.

Lemma within_node h bs a n : ok h bs -> (a, n) ∈ bs -> within bs a.
Proof using LOk.
  intros I Hin. destruct (ok_block h bs a n I Hin) as (_ & _ & _ & Hn & _). exists a, n. split; [done|]. unfold UNIT. lia.
Qed.

(** free of a block of the program: its memory is free memory again. *)
Lemma free_run h bs a n fuel :
  ok h bs -> block h bs a n -> (length bs + 2 <= fuel)%nat ->
  exists h' bs', free fuel (a + UNIT) h = Ok tt h' /\ ok h' bs' /\
    (forall x, within bs' x <-> within bs x \/ a <= x < a + n * UNIT) /\
    (forall x, x <> BASE -> ~ within bs' x -> mem h' !!! x = mem h !!! x) /\ brk h' = brk h /\ calls h' = calls h /\
    (length bs' <= S (length bs))%nat.
Proof using LOk.
  intros I B Hf. destruct (block_heap h bs a n I B) as (Hin & Hm & Hb & Hn). pose proof (bl_pos _ _ _ _ B) as Hpos.
  destruct (split_ring _ _ _ a n (ok_gaps _ _ I) (bl_apart _ _ _ _ B) Hpos) as (l1 & l2 & -> & H1 & H2).
  assert (forall b k, (b, k) ∈ l1 -> b < a) as H1'.
  { intros b k Hbk. specialize (H1 b k Hbk).
    destruct (ok_block h _ b k I ltac:(apply elem_of_app; by left)) as (_ & _ & _ & ? & _). unfold UNIT in *. lia. }
  assert (forall b k, (b, k) ∈ l2 -> a < b) as H2' by (intros b k Hbk; specialize (H2 b k Hbk); unfold UNIT in *; lia).
  assert (last_of BASE l1 <> a) as Hp.
  { destruct (last_node BASE l1) as [->|[k Hk]]; [lia|]. specialize (H1' _ k Hk). lia. }
  destruct (merge_next_run h l1 l2 a n I B Hp H2) as (n' & r & Hmn & Hr).
  destruct (merge_next_loose h l1 l2 a n n' r I B H1 H2 Hr) as [Lo Hw].
  destruct (merge_prev_run _ l1 a n' r Lo) as (h2 & bs' & Hmp & Hok & Hw' & Hmem & Hbrk & Hcalls & Hlen).
  assert (forall x, within bs' x <-> within (l1 ++ l2) x \/ a <= x < a + n * UNIT) as Hwithin.
  { intros x. rewrite Hw', within_app. specialize (Hw x). tauto. }
  exists (set_freep (last_of BASE l1) h2), bs'. split_and!; try done.
  - unfold free. replace (a + UNIT - UNIT) with a by lia. rewrite (bind_ok _ _ _ (freep h) h) by done.
    rewrite (bind_ok _ _ _ _ _ (free_find h l1 l2 a fuel I Hb H1' H2' Hf)).
    by rewrite (bind_ok _ _ _ _ _ Hmn), (bind_ok _ _ _ _ _ Hmp).
  - intros x HxB Hx. cbn [set_freep mem]. rewrite Hmem.
    + apply upd_other. intros <-. apply Hx, Hwithin. right. unfold UNIT. lia.
    + intros ->. destruct (last_node BASE l1) as [E|[k Hk]]; [by rewrite E in HxB|].
      apply Hx, Hwithin. left. apply (within_node h _ _ k I). apply elem_of_app. by left.
  - rewrite length_app. destruct Hr as [(_ & -> & _)| ->]; simpl; lia.
Qed.

(** ** Taking a block *)

Lemma ok_splitting h l1 a k l2 (p := last_of BASE l1) : ok h (l1 ++ (a, k) :: l2) ->
  chain (mem h) BASE l1 a /\ chain (mem h) a l2 BASE /\ size (mem h !!! a) = k /\
  gaps (START - UNIT) l1 (fin (START - UNIT) l1) /\ fin (START - UNIT) l1 < a /\ gaps (a + k * UNIT) l2 (brk h) /\
  mapped h p /\ mapped h a /\ BASE <= p < a /\ (forall b j, (b, j) ∈ l1 -> BASE < b < a) /\ (forall b j, (b, j) ∈ l2 -> a + k * UNIT < b).
Proof using LOk.
  intros I. pose proof (ok_chain _ _ I) as Hc. apply chain_app in Hc as (Hc1 & Hc2 & Hs). simpl in Hc1, Hc2.
  pose proof (ok_gaps _ _ I) as Hg. apply gaps_app in Hg as [Hg1 Hg2]. simpl in Hg2. destruct Hg2 as (G1 & G2 & G3 & G4).
  destruct (ok_block h _ a k I ltac:(apply elem_of_app; right; left)) as (Ha & HBa & _).
  assert (forall b j, (b, j) ∈ l1 -> BASE < b < a) as Hl1.
  { intros b j Hb. destruct (ok_block h _ b j I ltac:(apply elem_of_app; by left)) as (_ & ? & _ & Hj & _).
    destruct (gaps_in _ _ _ _ _ Hg1 Hb) as (_ & ? & _). unfold UNIT in *. lia. }
  split_and!; try tauto.
  - by apply last_mapped in I.
  - apply heap_mapped. by right.
  - unfold p. destruct (last_node BASE l1) as [->|[j Hj]]; [lia|]. specialize (Hl1 _ j Hj). lia.
  - unfold p. destruct (last_node BASE l1) as [->|[j Hj]]; [lia|]. specialize (Hl1 _ j Hj). lia.
  - intros b j Hb. apply (gaps_in _ _ _ _ _ G4 Hb).
Qed.

(** [h'] is [h] with the units of the block [b] no longer free. *)
Record taken (h : heap) (bs : list (Z * Z)) (h' : heap) (bs' : list (Z * Z)) (b nu : Z) : Prop := {
  tk_ok : ok h' bs';
  tk_block : block h' bs' b nu;
  tk_within : forall x, within bs x <-> within bs' x \/ b <= x < b + nu * UNIT;
  tk_mem : forall x, x <> BASE -> ~ within bs x -> mem h' !!! x = mem h !!! x;
  tk_brk : brk h' = brk h;
  tk_calls : calls h' = calls h }.

(** All of a block. *)
Lemma take_exact h h' l1 a k l2 (p := last_of BASE l1) :
  ok h (l1 ++ (a, k) :: l2) -> freep h' = p ->
  mem h' !!! p = mkHeader (first l2 BASE) (size (mem h !!! p)) -> (forall x, x <> p -> mem h' !!! x = mem h !!! x) ->
  brk h' = brk h -> calls h' = calls h -> taken h (l1 ++ (a, k) :: l2) h' (l1 ++ l2) a k.
Proof using LOk.
  intros I Hfp Hat Hoth Hbrk Hcalls.
  destruct (ok_splitting h l1 a k l2 I) as (Hc1 & Hc2 & Hs & Hg1 & Hfin & Hg2 & _ & _ & Hp & H1 & H2). fold p in Hp.
  destruct (ok_block h _ a k I ltac:(apply elem_of_app; right; left)) as ([Ha _] & _ & Hal & Hk & Hend & _).
  assert (NoDup (BASE :: l1.*1)) as Hnd.
  { constructor; [intros [j Hj]%in_fst; specialize (H1 _ j Hj); lia|apply (gaps_nodup _ _ _ Hg1)]. }
  split; try done.
  - split; rewrite ?Hbrk; try apply (ok_brk _ _ I).
    + apply chain_app. split; [|split].
      * apply (chain_relink (mem h) _ _ _ a); [done| | |done|fold p; by rewrite Hat].
        -- intros b _. destruct (decide (b = p)) as [->|]; [by rewrite Hat|by rewrite Hoth].
        -- intros b _ Hb. by rewrite Hoth.
      * fold p. apply (chain_head (mem h) _ a); [done|by rewrite Hat|]. intros b j Hb. apply Hoth.
        specialize (H2 b j Hb). unfold UNIT in *. lia.
      * destruct l2 as [|[c j] l2]; [done|]. rewrite Hoth; [simpl in Hc2; tauto|]. specialize (H2 c j ltac:(left)). unfold UNIT in *. lia.
    + destruct (decide (BASE = p)) as [E|]; [|rewrite Hoth by done; apply (ok_base _ _ I)].
      rewrite E, Hat. cbn [size]. rewrite <- E. apply (ok_base _ _ I).
    + apply gaps_app. split; [done|]. apply (gaps_weak (a + k * UNIT) _ _ (brk h)); [done|unfold UNIT in *; lia|lia].
    + rewrite Hfp. destruct (last_node BASE l1) as [E|[j Hj]]; [by left|right]. exists j. apply elem_of_app. by left.
  - split; rewrite ?Hbrk; try done; [rewrite Hoth by lia; done|].
    intros b j [Hb|Hb]%elem_of_app; [|left; specialize (H2 b j Hb); lia].
    right. destruct (gaps_in _ _ _ _ _ Hg1 Hb). lia.
  - intros x. rewrite !within_app, within_cons. tauto.
  - intros x Hx Hw. apply Hoth. intros ->. destruct (last_node BASE l1) as [E|[j Hj]]; [done|].
    apply Hw, (within_node h _ _ j I). apply elem_of_app. by left.
Qed.

(** The tail of a block. *)
Lemma take_tail h h' l1 a k l2 nu (b := a + (k - nu) * UNIT) :
  ok h (l1 ++ (a, k) :: l2) -> 1 <= nu < k -> freep h' = last_of BASE l1 ->
  mem h' !!! a = mkHeader (ptr (mem h !!! a)) (k - nu) -> size (mem h' !!! b) = nu ->
  (forall x, x <> a -> x <> b -> mem h' !!! x = mem h !!! x) ->
  brk h' = brk h -> calls h' = calls h -> taken h (l1 ++ (a, k) :: l2) h' (l1 ++ (a, k - nu) :: l2) b nu.
Proof using LOk.
  intros I Hnu Hfp Hat Hsb Hoth Hbrk Hcalls.
  destruct (ok_splitting h l1 a k l2 I) as (Hc1 & Hc2 & Hs & Hg1 & Hfin & Hg2 & _ & _ & Hp & H1 & H2).
  destruct (ok_block h _ a k I ltac:(apply elem_of_app; right; left)) as ([Ha _] & _ & Hal & Hk & Hend & _).
  assert (a < b /\ b + nu * UNIT = a + k * UNIT) as [Hab Hbe] by (unfold b, UNIT; lia).
  assert (chain (mem h') BASE l1 a) as Hc1'.
  { apply (chain_ext (mem h)); [apply Hoth; lia| |done]. intros c j Hc. specialize (H1 c j Hc). apply Hoth; lia. }
  split; try done.
  - split; rewrite ?Hbrk; try apply (ok_brk _ _ I).
    + apply chain_app. cbn [first chain]. rewrite Hat. split; [done|]. split; [|done].
      split; [by apply (chain_last _ BASE)|]. split; [done|]. apply (chain_head (mem h) _ a); [done|rewrite Hat; by apply chain_first|].
      intros c j Hc. specialize (H2 c j Hc). unfold UNIT in *. apply Hoth; lia.
    + rewrite Hoth by lia. apply (ok_base _ _ I).
    + apply gaps_app. split; [done|]. simpl. split_and!; try done; [lia|].
      apply (gaps_weak (a + k * UNIT) _ _ (brk h)); [done|unfold UNIT in *; lia|lia].
    + rewrite Hfp. destruct (last_node BASE l1) as [E|[j Hj]]; [by left|right]. exists j. apply elem_of_app. by left.
  - split; rewrite ?Hbrk; try done; try lia; [by apply aligned_add|].
    intros c j [Hc|[[= -> ->]|Hc]%elem_of_cons]%elem_of_app; [|right; fold b; lia|left; specialize (H2 c j Hc); lia].
    right. destruct (gaps_in _ _ _ _ _ Hg1 Hc). lia.
  - intros x. rewrite !within_app, !within_cons. fold b.
    assert (a <= x < a + k * UNIT <-> a <= x < b \/ b <= x < b + nu * UNIT) by (clear -Hnu Hab Hbe; unfold UNIT in *; lia). tauto.
  - intros x Hx Hw. rewrite !within_app, !within_cons in Hw.
    apply Hoth; intros ->; apply Hw; right; left; clear -Hnu Hab Hbe; unfold UNIT in *; lia.
Qed.

Lemma take_run h l1 a k l2 nu :
  ok h (l1 ++ (a, k) :: l2) -> 1 <= nu <= k ->
  exists h' bs' b, take_block nu (last_of BASE l1) a h = Ok (b + UNIT) h' /\ taken h (l1 ++ (a, k) :: l2) h' bs' b nu.
Proof using LOk.
  intros I Hnu. destruct (ok_splitting h l1 a k l2 I) as (Hc1 & Hc2 & Hs & _ & _ & _ & Hmp & Hma & Hp & _).
  destruct (ok_block h _ a k I ltac:(apply elem_of_app; right; left)) as ([Ha _] & _ & Hal & Hk & Hend & _).
  destruct (ok_brk _ _ I) as [Hb _]. pose proof base_pos. unfold PHYSICAL, UNIT in *.
  unfold take_block. rewrite (bind_ok _ _ _ _ _ (load_ok h a Hma)), Hs. case_decide as Hd.
  - rewrite Hd in *. clear Hd k. rewrite bind_assoc, (bind_ok _ _ _ _ _ (set_ptr_ok h _ _ Hmp)).
    eexists _, (l1 ++ l2), a. split; [done|].
    apply take_exact; try done; cbn [set_freep upd mem].
    + by rewrite lookup_total_insert_eq, (chain_first _ _ _ _ Hc2).
    + intros x Hx. by apply lookup_total_insert_ne.
  - rewrite bind_assoc, (bind_ok _ _ _ _ _ (set_size_ok h a (k - nu) Hma ltac:(lia))).
    rewrite bind_assoc, (bind_ok _ _ _ _ _ (load_ok (upd a _ h) a Hma)), upd_at. cbn [size]. cbv zeta. unfold UNIT.
    assert (mapped (upd a (mkHeader (ptr (mem h !!! a)) (k - nu)) h) (a + (k - nu) * 16)) as Hmb.
    { apply heap_mapped. right. unfold in_heap, UNIT. simpl. lia. }
    rewrite bind_assoc, (bind_ok _ _ _ _ _ (set_size_ok _ _ nu Hmb ltac:(lia))).
    eexists _, (l1 ++ (a, k - nu) :: l2), (a + (k - nu) * 16). split; [done|].
    apply take_tail; try done; try lia; cbn [set_freep upd mem]; unfold UNIT.
    + rewrite lookup_total_insert_ne by lia. by rewrite lookup_total_insert_eq.
    + by rewrite lookup_total_insert_eq.
    + intros x Hx1 Hx2. rewrite lookup_total_insert_ne by done. by rewrite lookup_total_insert_ne.
Qed.
End Heap.
