(* ===== verification/UmallocProps.v ===== *)
(** * malloc and free in a program

    malloc finds the first block that is large enough, or asks the kernel for more
    memory; in a program that frees only what it was given, blocks stay apart, their
    contents stay, and no memory is lost. *)

From Stdlib Require Import ZArith Lia.
From stdpp Require Import base numbers list gmap strings relations.
From S2P Require Import Prelude Umalloc UmallocSpec.
Open Scope Z_scope.

(** ** More on blocks in order *)

Lemma gaps_apart lo l hi a k b j :
  gaps lo l hi -> (a, k) ∈ l -> (b, j) ∈ l -> (a, k) = (b, j) \/ a + k * UNIT < b \/ b + j * UNIT < a.
Proof.
  revert lo. induction l as [|[c i] l IH]; intros lo; [by intros _ ?%not_elem_of_nil|].
  intros (H1 & H2 & _ & H4) [E|Ha]%elem_of_cons [E'|Hb]%elem_of_cons.
  - left. congruence.
  - simplify_eq. right. left. apply (gaps_in _ _ _ _ _ H4 Hb).
  - simplify_eq. right. right. apply (gaps_in _ _ _ _ _ H4 Ha).
  - by eapply IH.
Qed.

(** Memory that is free without a hole is in one block. *)
Lemma gaps_one lo l hi s t :
  gaps lo l hi -> s < t -> (forall x, s <= x < t -> within l x) -> exists a k, (a, k) ∈ l /\ a <= s /\ t <= a + k * UNIT.
Proof.
  intros Hg Hst Hw. destruct (Hw s ltac:(lia)) as (a & k & Hin & Hs). exists a, k. split; [done|]. split; [lia|].
  destruct (decide (t <= a + k * UNIT)) as [|Hlt]; [done|]. destruct (Hw (a + k * UNIT) ltac:(lia)) as (b & j & Hb & Hx).
  destruct (gaps_apart _ _ _ _ _ _ _ Hg Hin Hb) as [E|[E|E]]; [simplify_eq; lia|lia|].
  destruct (gaps_in _ _ _ _ _ Hg Hb) as (_ & _ & ? & _). unfold UNIT in *. lia.
Qed.

Lemma gaps_length lo l hi : lo mod UNIT = 0 -> gaps lo l hi -> lo + 32 * Z.of_nat (length l) <= hi.
Proof.
  revert lo. induction l as [|[a n] l IH]; intros lo Hlo; cbn [gaps length]; [lia|]. intros (H1 & H2 & H3 & H4).
  pose proof (aligned_lt lo a Hlo H3 H1). specialize (IH _ (aligned_add a n H3) H4). unfold UNIT in *. lia.
Qed.

Section Heap.
Context {L : Layout} {LOk : LayoutOk} (grants : nat -> bool).

(** ** The search of malloc *)

Lemma loop_hit h fuel nu prevp p :
  mapped h p -> nu <= size (mem h !!! p) -> malloc_loop grants (S fuel) nu prevp p h = take_block nu prevp p h.
Proof using.
  intros Hm Hs. cbn [malloc_loop]. rewrite (bind_ok _ _ _ _ _ (load_ok h p Hm)). by rewrite decide_True by lia.
Qed.
Lemma loop_skip h fuel nu prevp p :
  mapped h p -> size (mem h !!! p) < nu -> p <> freep h ->
  malloc_loop grants (S fuel) nu prevp p h = malloc_loop grants fuel nu p (ptr (mem h !!! p)) h.
Proof using.
  intros Hm Hs Hf. cbn [malloc_loop]. rewrite (bind_ok _ _ _ _ _ (load_ok h p Hm)). rewrite decide_False by lia.
  rewrite (bind_ok _ _ _ (freep h) h) by done. by rewrite decide_False.
Qed.

Lemma loop_scan h l nu p e fuel :
  chain (mem h) p l e -> (forall b k, (b, k) ∈ l -> mapped h b /\ k < nu /\ b <> freep h) ->
  malloc_loop grants (length l + fuel) nu p (first l e) h = malloc_loop grants fuel nu (last_of p l) e h.
Proof using.
  revert p. induction l as [|[a n] l IH]; intros p Hc Hl; [done|]. destruct Hc as (_ & Hs & Hc).
  destruct (Hl a n ltac:(left)) as (Hm & Hn & Hf). cbn [length Nat.add first last_of].
  rewrite loop_skip by (done || lia). rewrite (chain_first _ _ _ _ Hc). apply IH; [done|].
  intros b k Hb. apply Hl. by right.
Qed.

(** The parts of the ring before and after [freep]. *)
Lemma ring_parts h bs : ok h bs ->
  freep h = BASE /\ (forall b k, (b, k) ∈ bs -> b <> freep h) \/
  exists x n y, bs = x ++ (freep h, n) :: y /\ freep h <> BASE /\
    (forall b k, (b, k) ∈ x -> b <> freep h) /\ (forall b k, (b, k) ∈ y -> b <> freep h).
Proof using LOk.
  intros I. destruct (ok_freep _ _ I) as [->|[n Hin]].
  - left. split; [done|]. intros b k Hb ->. destruct (ok_block h bs BASE k I Hb). lia.
  - right. pose proof Hin as (x & y & E)%list_elem_of_split. exists x, n, y. split; [done|].
    destruct (ok_block h bs _ n I Hin) as (_ & HB & _ & Hn & _). split; [lia|].
    rewrite E in I. destruct (ok_splitting h x (freep h) n y I) as (_ & _ & _ & _ & _ & _ & _ & _ & _ & H1 & H2).
    split; intros b k Hb; [specialize (H1 b k Hb); lia|specialize (H2 b k Hb); unfold UNIT in *; lia].
Qed.

Lemma ok_small h bs b k : ok h bs -> (b, k) ∈ bs -> mapped h b.
Proof using LOk. intros I Hb. apply (ok_node h bs); [done|right; by exists k]. Qed.

Lemma ring_hit h l1 a k l2 nu p fuel :
  ok h (l1 ++ (a, k) :: l2) -> nu <= k -> malloc_loop grants (S fuel) nu p a h = take_block nu p a h.
Proof using LOk.
  intros I Hk. destruct (ok_block h _ a k I ltac:(apply elem_of_app; right; left)) as (_ & _ & _ & _ & _ & Hs).
  apply loop_hit; [apply (ok_small h _ a k I); apply elem_of_app; right; left|lia].
Qed.

(** A part of the ring without a block large enough is passed over, *)
Lemma ring_pass h bs l nu p e fuel :
  ok h bs -> (forall z, z ∈ l -> z ∈ bs) -> chain (mem h) p l e ->
  (forall b k, (b, k) ∈ l -> b <> freep h) -> (forall z, z ∈ l -> ~ nu <= z.2) ->
  malloc_loop grants (length l + fuel) nu p (first l e) h = malloc_loop grants fuel nu (last_of p l) e h.
Proof using LOk.
  intros I Hsub Hc Hnf Hno. apply loop_scan; [done|]. intros b j Hb.
  split; [eapply ok_small; [done|by apply Hsub]|]. split; [specialize (Hno _ Hb); simpl in Hno; lia|by eapply Hnf].
Qed.
(** and the part before the first such block. *)
Lemma ring_scan h bs l l1 a k l2 nu p e fuel :
  ok h bs -> l = l1 ++ (a, k) :: l2 -> (forall z, z ∈ l -> z ∈ bs) -> chain (mem h) p l e ->
  (forall b k, (b, k) ∈ l -> b <> freep h) -> (forall z, z ∈ l1 -> ~ nu <= z.2) -> (length l <= fuel)%nat ->
  exists f', malloc_loop grants fuel nu p (first l e) h = malloc_loop grants (S f') nu (last_of p l1) a h.
Proof using LOk.
  intros I -> Hsub Hc Hnf Hno Hfl. apply chain_app in Hc as [Hc _]. simpl in Hc.
  rewrite length_app in Hfl. simpl in Hfl. exists (fuel - length l1 - 1)%nat. rewrite first_app. simpl.
  replace fuel with (length l1 + S (fuel - length l1 - 1))%nat at 1 by lia. apply (ring_pass h bs); try done.
  - intros z Hz. apply Hsub, elem_of_app. by left.
  - intros b j Hb. eapply Hnf, elem_of_app. by left.
Qed.

(** A block large enough is found, *)
Lemma malloc_fit h bs nu fuel :
  ok h bs -> 1 <= nu -> (exists a k, (a, k) ∈ bs /\ nu <= k) -> (length bs + 2 <= fuel)%nat ->
  exists l1 a k l2, bs = l1 ++ (a, k) :: l2 /\ nu <= k /\
    malloc_loop grants fuel nu (freep h) (ptr (mem h !!! freep h)) h = take_block nu (last_of BASE l1) a h.
Proof using LOk.
  intros I Hnu (a0 & k0 & Hin0 & Hk0) Hf.
  destruct (ring_parts h bs I) as [[EF HF]|(x & n & y & E & HFB & Hx & Hy)].
  { destruct (first_split (fun z : Z * Z => nu <= z.2) bs) as [Hno|(l1 & [a k] & l2 & E & Hk & Hno)]; [by destruct (Hno _ Hin0)|].
    exists l1, a, k, l2. split; [done|]. split; [done|]. rewrite EF, (chain_first _ _ _ _ (ok_chain _ _ I)).
    destruct (ring_scan h bs bs l1 a k l2 nu BASE BASE fuel) as [f' ->]; try done; [apply (ok_chain _ _ I)|lia|].
    rewrite E in I. by eapply ring_hit. }
  pose proof I as I'. rewrite E in I'. destruct (ok_splitting h x (freep h) n y I') as (Hcx & Hcy & Hsz & _).
  assert (forall z, z ∈ y -> z ∈ bs) as Hyb by (intros z Hz; rewrite E; apply elem_of_app; right; by right).
  assert (forall z, z ∈ x -> z ∈ bs) as Hxb by (intros z Hz; rewrite E; apply elem_of_app; by left).
  assert (length bs = length x + S (length y))%nat as Hlen by (rewrite E, length_app; done).
  rewrite (chain_first _ _ _ _ Hcy).
  destruct (first_split (fun z : Z * Z => nu <= z.2) y) as [Hno|(l1 & [a k] & l2 & Ey & Hk & Hno)].
  2:{ assert (bs = (x ++ (freep h, n) :: l1) ++ (a, k) :: l2) as E' by (by rewrite E, Ey, <- app_assoc).
      exists (x ++ (freep h, n) :: l1), a, k, l2. split; [done|]. split; [done|]. rewrite last_of_app.
      destruct (ring_scan h bs y l1 a k l2 nu (freep h) BASE fuel) as [f' ->]; try done; [lia|].
      rewrite E' in I. by eapply ring_hit. }
  replace fuel with (length y + S (fuel - length y - 1))%nat by lia.
  rewrite (ring_pass h bs), loop_skip; try done; [|by left|rewrite (ok_base _ _ I); lia]. rewrite (chain_first _ _ _ _ Hcx).
  destruct (first_split (fun z : Z * Z => nu <= z.2) x) as [Hno'|(l1 & [a k] & l2 & Ex & Hk & Hno')].
  - exists x, (freep h), n, y. assert (nu <= n) as Hn.
    { rewrite E in Hin0. apply elem_of_app in Hin0 as [H|[H|H]%elem_of_cons]; [by destruct (Hno' _ H)|by simplify_eq|by destruct (Hno _ H)]. }
    split; [done|]. split; [done|]. replace (fuel - length y - 1)%nat with (length x + S (fuel - length y - length x - 2))%nat by lia.
    rewrite (ring_pass h bs) by done. by eapply ring_hit.
  - assert (bs = l1 ++ (a, k) :: l2 ++ (freep h, n) :: y) as E' by (by rewrite E, Ex, <- app_assoc).
    exists l1, a, k, (l2 ++ (freep h, n) :: y). split; [done|]. split; [done|].
    destruct (ring_scan h bs x l1 a k l2 nu BASE (freep h) (fuel - length y - 1)%nat) as [f' ->]; try done; [lia|].
    rewrite E' in I. by eapply ring_hit.
Qed.

(** or the search comes back to [freep]. *)
Lemma malloc_nofit h bs nu fuel :
  ok h bs -> 1 <= nu -> (forall z, z ∈ bs -> ~ nu <= z.2) ->
  exists prevp, malloc_loop grants (length bs + fuel) nu (freep h) (ptr (mem h !!! freep h)) h =
    malloc_loop grants fuel nu prevp (freep h) h.
Proof using LOk.
  intros I Hnu Hno. destruct (ring_parts h bs I) as [[EF HF]|(x & n & y & E & HFB & Hx & Hy)].
  - eexists. rewrite EF at 1 2. rewrite (chain_first _ _ _ _ (ok_chain _ _ I)). rewrite EF at 1.
    apply (ring_pass h bs); try done. apply (ok_chain _ _ I).
  - pose proof I as I'. rewrite E in I'. destruct (ok_splitting h x (freep h) n y I') as (Hcx & Hcy & Hsz & _).
    assert (forall z, z ∈ y -> z ∈ bs) as Hyb by (intros z Hz; rewrite E; apply elem_of_app; right; by right).
    assert (forall z, z ∈ x -> z ∈ bs) as Hxb by (intros z Hz; rewrite E; apply elem_of_app; by left).
    eexists. rewrite (chain_first _ _ _ _ Hcy).
    replace (length bs + fuel)%nat with (length y + S (length x + fuel))%nat by (rewrite E, length_app; simpl; lia).
    rewrite (ring_pass h bs), loop_skip; try done; [|by left|rewrite (ok_base _ _ I); lia|by intros z ?%Hyb%Hno].
    rewrite (chain_first _ _ _ _ Hcx). apply (ring_pass h bs); try done. by intros z ?%Hxb%Hno.
Qed.

(** ** Memory from the kernel *)

Definition granted (nu : Z) : Z := Z.max 4096 nu.
(** The kernel refuses to grow the heap by [nu] units. *)
Definition refused (h : heap) (nu : Z) : Prop :=
  grants (calls h) = false \/ PHYSICAL < brk h + granted nu * UNIT.
Definition called (h : heap) : heap := mkHeap (freep h) (mem h) (brk h) (S (calls h)).

Lemma grow_ok h bs g : ok h bs -> 0 < g -> brk h + g * UNIT <= PHYSICAL ->
  ok (mkHeap (freep h) (mem h) (brk h + g * UNIT) (S (calls h))) bs.
Proof using.
  intros [H1 H2 H3 H4 [H5 H6]] Hg Hp. split; simpl; try done.
  - apply (gaps_weak (START - UNIT) _ _ (brk h)); [done|lia|unfold UNIT in *; lia].
  - split; [unfold UNIT in *; lia|by apply aligned_add].
Qed.

Lemma morecore_run h bs nu fuel :
  ok h bs -> 1 <= nu -> nu * UNIT <= INT_MAX -> (length bs + 2 <= fuel)%nat ->
  refused h nu /\ morecore grants fuel nu h = Ok 0 (called h) \/
  exists h' bs', morecore grants fuel nu h = Ok (freep h') h' /\ ok h' bs' /\ brk h' = brk h + granted nu * UNIT /\
    (forall x, within bs' x <-> within bs x \/ brk h <= x < brk h') /\
    (forall x, x <> BASE -> ~ within bs' x -> mem h' !!! x = mem h !!! x) /\ (length bs' <= S (length bs))%nat.
Proof using LOk.
  intros I Hnu Hmax Hf. set (g := granted nu). destruct (ok_brk _ _ I) as [Hb Hba].
  pose proof base_pos. pose proof base_below. pose proof start_unit.
  assert ((if decide (nu < 4096) then 4096 else nu) = g) as Hg by (unfold g, granted; case_decide; lia).
  assert (1 <= g /\ g * UNIT <= INT_MAX) as [Hg1 Hg2] by (unfold g, granted, INT_MAX, UNIT in *; lia).
  assert (i32 (g * UNIT) = g * UNIT) as Hi.
  { apply i32_small. unfold in_int, INT_MIN, INT_MAX, UNIT in *. lia. }
  unfold morecore. rewrite Hg. cbv zeta. rewrite Hi.
  destruct (decide (grants (calls h) = true /\ brk h + g * UNIT <= PHYSICAL)) as [[Hgr Hph]|Hno].
  2:{ left. split; [unfold refused; fold g; destruct (grants (calls h)); [right; lia|by left]|].
      rewrite (bind_ok _ _ _ (-1) (called h)); [done|]. unfold sbrk. rewrite decide_True by (unfold UNIT in *; lia).
      by rewrite decide_False. }
  right. set (h1 := mkHeap (freep h) (mem h) (brk h + g * UNIT) (S (calls h))).
  rewrite (bind_ok _ _ _ (brk h) h1); [|unfold sbrk; rewrite decide_True by (unfold UNIT in *; lia); by rewrite decide_True].
  rewrite decide_False by (unfold UNIT in *; lia). pose proof (grow_ok h bs g I ltac:(lia) Hph) as I1. fold h1 in I1.
  assert (mapped h1 (brk h)) as Hm1 by (apply heap_mapped; right; unfold in_heap; simpl; unfold UNIT in *; lia).
  rewrite (bind_ok _ _ _ _ _ (set_size_ok h1 (brk h) g Hm1 ltac:(unfold PHYSICAL, UNIT in *; lia))).
  set (h2 := upd (brk h) _ h1).
  assert (forall b k, (b, k) ∈ bs -> b + k * UNIT <= brk h /\ 1 <= k) as Hbs.
  { intros b k Hbk. destruct (ok_block h bs b k I Hbk) as (_ & _ & _ & ? & ? & _). done. }
  assert (ok h2 bs) as I2.
  { assert (forall b, b = BASE \/ (exists k, (b, k) ∈ bs) -> mem h2 !!! b = mem h1 !!! b) as Hsame.
    { intros b Hbk. apply upd_other. destruct Hbk as [->|[k Hbk]]; [unfold UNIT in *; lia|].
      destruct (Hbs b k Hbk). unfold UNIT in *. lia. }
    destruct I1 as [J1 J2 J3 J4 J5]. split; try done; [|rewrite Hsame; [done|by left]].
    apply (chain_ext (mem h1)); [apply Hsame; by left| |done]. intros b k Hbk. apply Hsame. right. by exists k. }
  assert (block h2 bs (brk h) g) as B2.
  { split; try done; try lia; [unfold h2; by rewrite upd_at|]. intros b k Hbk. right. by apply Hbs. }
  destruct (free_run h2 bs (brk h) g fuel I2 B2 Hf) as (h3 & bs3 & Hfr & I3 & Hw3 & Hm3 & Hb3 & _ & Hlen3).
  exists h3, bs3. split; [by rewrite (bind_ok _ _ _ _ _ Hfr)|]. split; [done|]. split; [by rewrite Hb3|].
  assert (brk h3 = brk h + g * UNIT) as Hb3' by (by rewrite Hb3).
  split; [intros x; by rewrite Hw3, Hb3'|]. split; [|done]. intros x Hx Hnw. rewrite Hm3 by done. change (mem h !!! x) with (mem h1 !!! x). apply upd_other.
  intros <-. apply Hnw, Hw3. right. unfold UNIT in *. lia.
Qed.

(** ** malloc *)

(** The block [b] of [nu] units has been taken from the free memory or from new memory. *)
Record given (h : heap) (bs : list (Z * Z)) (h' : heap) (bs' : list (Z * Z)) (b nu : Z) : Prop := {
  gv_ok : ok h' bs';
  gv_block : block h' bs' b nu;
  gv_brk : brk h <= brk h';
  gv_within : forall x, within bs' x \/ b <= x < b + nu * UNIT <-> within bs x \/ brk h <= x < brk h';
  gv_mem : forall x, x <> BASE -> ~ within bs x -> ~ brk h <= x < brk h' -> mem h' !!! x = mem h !!! x }.

Lemma fit_given h bs nu fuel :
  ok h bs -> 1 <= nu -> (exists a k, (a, k) ∈ bs /\ nu <= k) -> (length bs + 2 <= fuel)%nat ->
  exists h' bs' b, malloc_loop grants fuel nu (freep h) (ptr (mem h !!! freep h)) h = Ok (b + UNIT) h' /\ given h bs h' bs' b nu.
Proof using LOk.
  intros I Hnu Hfit Hf. destruct (malloc_fit h bs nu fuel I Hnu Hfit Hf) as (l1 & a & k & l2 & -> & Hk & ->).
  destruct (take_run h l1 a k l2 nu I ltac:(lia)) as (h' & bs' & b & -> & T). exists h', bs', b. split; [done|].
  destruct T as [T1 T2 T3 T4 T5 T6]. split; try done; [lia| |].
  - intros x. rewrite T5. specialize (T3 x). assert (~ brk h <= x < brk h) by lia. tauto.
  - intros x H1 H2 _. by apply T4.
Qed.

Lemma freep_small h bs nu : ok h bs -> 1 <= nu -> (forall z, z ∈ bs -> ~ nu <= z.2) -> size (mem h !!! freep h) < nu.
Proof using LOk.
  intros I Hnu Hno. destruct (ok_freep _ _ I) as [->|[n Hin]]; [rewrite (ok_base _ _ I); lia|].
  destruct (ok_block h bs _ n I Hin) as (_ & _ & _ & _ & _ & ->). specialize (Hno _ Hin). simpl in Hno. lia.
Qed.

Lemma malloc_search h bs nu fuel :
  ok h bs -> 1 <= nu -> nu * UNIT <= INT_MAX -> (2 * length bs + 6 <= fuel)%nat ->
  refused h nu /\ malloc_loop grants fuel nu (freep h) (ptr (mem h !!! freep h)) h = Ok 0 (called h) \/
  exists h' bs' b, malloc_loop grants fuel nu (freep h) (ptr (mem h !!! freep h)) h = Ok (b + UNIT) h' /\ given h bs h' bs' b nu.
Proof using LOk.
  intros I Hnu Hmax Hf. destruct (first_split (fun z : Z * Z => nu <= z.2) bs) as [Hno|(l1 & [a k] & l2 & E & Hk & _)].
  2:{ right. apply fit_given; [done|done| |lia]. exists a, k. split; [rewrite E; apply elem_of_app; right; by left|done]. }
  set (f := (fuel - length bs - 1)%nat).
  destruct (malloc_nofit h bs nu (S f) I Hnu Hno) as [prevp Hrun].
  replace (length bs + S f)%nat with fuel in Hrun by lia. rewrite Hrun. clear Hrun.
  destruct (ok_node h bs (freep h) I (ok_freep _ _ I)) as [Hmf _].
  cbn [malloc_loop]. rewrite (bind_ok _ _ _ _ _ (load_ok h _ Hmf)).
  rewrite decide_False by (pose proof (freep_small h bs nu I Hnu Hno); lia).
  rewrite (bind_ok _ _ _ (freep h) h) by done. rewrite decide_True by done.
  destruct (morecore_run h bs nu (S f) I Hnu Hmax ltac:(lia)) as [[Hr Hm]|(h1 & bs1 & Hm & I1 & Hb1 & Hw1 & Hmem1 & Hl1)];
    rewrite (bind_ok _ _ _ _ _ Hm); [by left|right].
  destruct (ok_node h1 bs1 (freep h1) I1 (ok_freep _ _ I1)) as [Hmf1 HB1]. pose proof base_pos.
  rewrite decide_False by lia. rewrite (bind_ok _ _ _ _ _ (load_ok h1 _ Hmf1)).
  destruct (gaps_one _ _ _ (brk h) (brk h1) (ok_gaps _ _ I1)) as (a & k & Hin & Ha & Hk);
    [unfold granted, UNIT in *; lia|intros x Hx; apply Hw1; by right|].
  destruct (fit_given h1 bs1 nu f I1 Hnu) as (h2 & bs2 & b & -> & G);
    [exists a, k; split; [done|]; unfold granted, UNIT in *; lia|lia|].
  exists h2, bs2, b. split; [done|]. destruct G as [G1 G2 G3 G4 G5]. split; try done; [unfold granted, UNIT in *; lia| |].
  - intros x. rewrite G4, Hw1. assert (brk h <= brk h1) by (unfold granted, UNIT in *; lia). intuition lia.
  - intros x H1 H2 H3. rewrite G5; try done; [apply Hmem1; [done|]|intros Hx%Hw1; destruct Hx; [done|]; lia|unfold granted, UNIT in *; lia].
    intros Hx%Hw1. destruct Hx; [done|lia].
Qed.

(** Before the first call there is no ring yet. *)
Definition heap_ok (h : heap) (bs : list (Z * Z)) : Prop :=
  freep h = 0 /\ bs = [] /\ (START <= brk h <= PHYSICAL /\ brk h mod UNIT = 0) \/ ok h bs.

Lemma nunits_bounds nbytes : 0 <= nbytes <= INT_MAX - 31 ->
  1 <= nunits_of nbytes /\ nunits_of nbytes * UNIT <= INT_MAX /\ nbytes <= (nunits_of nbytes - 1) * UNIT.
Proof using.
  unfold nunits_of, INT_MAX, UNIT, u32. intros Hn.
  pose proof (Z.div_mod (nbytes + 16 - 1) 16). pose proof (Z.mod_pos_bound (nbytes + 16 - 1) 16).
  rewrite uwrap_small; lia.
Qed.

Lemma malloc_run h bs nbytes fuel (nu := nunits_of nbytes) :
  heap_ok h bs -> 0 <= nbytes <= INT_MAX - 31 -> (2 * length bs + 6 <= fuel)%nat ->
  (exists h', malloc grants fuel nbytes h = Ok 0 h' /\ ok h' bs /\ refused h nu /\ brk h' = brk h /\
     forall x, x <> BASE -> mem h' !!! x = mem h !!! x) \/
  exists h' bs' b, malloc grants fuel nbytes h = Ok (b + UNIT) h' /\ given h bs h' bs' b nu.
Proof using LOk.
  intros Hok Hn Hf. destruct (nunits_bounds nbytes Hn) as (N1 & N2 & _). fold nu in N1, N2. pose proof base_pos.
  assert (exists h0, ok h0 bs /\ brk h0 = brk h /\ calls h0 = calls h /\ (forall x, x <> BASE -> mem h0 !!! x = mem h !!! x) /\
    malloc grants fuel nbytes h = malloc_loop grants fuel nu (freep h0) (ptr (mem h0 !!! freep h0)) h0)
    as (h0 & I & Hb & Hcl & Hmem & ->).
  { destruct Hok as [(Hf0 & -> & Hbrk)|I].
    - set (h0 := upd BASE (mkHeader BASE 0) (set_freep BASE h)). exists h0.
      assert (mem h0 !!! BASE = mkHeader BASE 0) as Hbase by apply upd_at.
      split; [split; [cbn [chain]; by rewrite Hbase|by rewrite Hbase|cbn [gaps]; unfold UNIT; simpl; lia|by left|done]|].
      split; [done|]. split; [done|]. split; [intros x Hx; by apply (upd_other BASE x _ (set_freep BASE h))|].
      unfold malloc. rewrite (bind_ok _ _ _ (freep h) h) by done. rewrite decide_True by done.
      rewrite !bind_assoc, (bind_ok _ _ _ tt (set_freep BASE h)) by done. rewrite !bind_assoc.
      rewrite (bind_ok _ _ _ _ _ (set_ptr_ok (set_freep BASE h) BASE BASE (or_introl eq_refl))).
      rewrite (bind_ok _ _ _ _ _ (set_size_ok (upd BASE _ _) BASE 0 (or_introl eq_refl) ltac:(lia))).
      rewrite upd_at, upd_twice. cbn [ptr]. fold h0. rewrite (bind_ok _ _ _ BASE h0) by done.
      by rewrite (bind_ok _ _ _ _ _ (load_ok h0 BASE (or_introl eq_refl))).
    - exists h. split_and!; try done. destruct (ok_node h bs (freep h) I (ok_freep _ _ I)) as [Hm HB].
      unfold malloc. rewrite (bind_ok _ _ _ (freep h) h) by done. rewrite decide_False by lia.
      rewrite (bind_ok _ _ _ tt h) by done. rewrite (bind_ok _ _ _ (freep h) h) by done.
      by rewrite (bind_ok _ _ _ _ _ (load_ok h _ Hm)). }
  destruct (malloc_search h0 bs nu fuel I N1 N2 Hf) as [[Hr ->]|(h' & bs' & b & -> & G)].
  - left. exists (called h0). split; [done|]. split; [by destruct I|]. split; [|done]. unfold refused in *. by rewrite <- Hb, <- Hcl.
  - right. exists h', bs', b. split; [done|]. destruct G as [G1 G2 G3 G4 G5]. rewrite Hb in *. split; try done.
    intros x H1 H2 H3. rewrite G5 by done. by apply Hmem.
Qed.

(** ** A program that uses the allocator *)

Record world : Type := mkWorld { hp : heap; live : list (Z * Z) }.
(** More turns than there can be blocks on the ring. *)
Definition enough (h : heap) : nat := Z.to_nat ((brk h - START) / UNIT + 10).

Inductive step : world -> world -> Prop :=
| step_malloc h l nbytes r h' :
    0 <= nbytes <= INT_MAX - 31 -> malloc grants (enough h) nbytes h = Ok r h' ->
    step (mkWorld h l) (mkWorld h' (if decide (r = 0) then l else (r - UNIT, nunits_of nbytes) :: l))
| step_free h l1 a n l2 h' :
    free (enough h) (a + UNIT) h = Ok tt h' -> step (mkWorld h (l1 ++ (a, n) :: l2)) (mkWorld h' (l1 ++ l2))
| step_write h l a n x v :
    (a, n) ∈ l -> a < x -> x < a + n * UNIT -> x mod UNIT = 0 -> step (mkWorld h l) (mkWorld (upd x v h) l).

Definition apart (z z' : Z * Z) : Prop := z.1 + z.2 * UNIT <= z'.1 \/ z'.1 + z'.2 * UNIT <= z.1.

Fixpoint pairwise (l : list (Z * Z)) : Prop :=
  match l with [] => True | z :: l' => (forall z', z' ∈ l' -> apart z z') /\ pairwise l' end.

Lemma pairwise_app l1 l2 :
  pairwise (l1 ++ l2) <-> pairwise l1 /\ pairwise l2 /\ forall z z', z ∈ l1 -> z' ∈ l2 -> apart z z'.
Proof using.
  induction l1 as [|z l1 IH]; simpl.
  - split; [intros; split_and!; try done; intros z z' Hz; by apply not_elem_of_nil in Hz|tauto].
  - rewrite IH. setoid_rewrite elem_of_app. setoid_rewrite elem_of_cons. naive_solver.
Qed.

Record winv (w : world) (bs : list (Z * Z)) : Prop := {
  wi_ok : heap_ok (hp w) bs;
  wi_live : forall a n, (a, n) ∈ live w -> block (hp w) bs a n;
  wi_first : freep (hp w) = 0 -> live w = [];
  wi_apart : pairwise (live w);
  wi_all : forall x, within bs x \/ within (live w) x <-> START <= x < brk (hp w) }.

Lemma heap_brk h bs : heap_ok h bs -> START <= brk h <= PHYSICAL.
Proof using. intros [(_ & _ & ? & _)|I]; [done|apply (ok_brk _ _ I)]. Qed.

Lemma enough_fuel h bs : heap_ok h bs -> (2 * length bs + 6 <= enough h)%nat.
Proof using LOk.
  intros Hok. pose proof (heap_brk h bs Hok). unfold enough, UNIT. pose proof (Z.div_mod (brk h - START) 16).
  pose proof (Z.mod_pos_bound (brk h - START) 16). destruct Hok as [(_ & -> & _)|I]; [simpl; lia|].
  pose proof (gaps_length (START - UNIT) bs (brk h)) as Hl. unfold UNIT in Hl.
  specialize (Hl ltac:(pose proof start_unit as Hs; unfold UNIT in Hs; rewrite Zminus_mod, Hs; done) (ok_gaps _ _ I)). lia.
Qed.

(** What the program holds is not free. *)
Lemma live_not_free w bs a n x : winv w bs -> (a, n) ∈ live w -> a <= x < a + n * UNIT -> x <> BASE /\ ~ within bs x /\ START <= x < brk (hp w).
Proof using LOk.
  intros W Hin Hx. destruct (wi_live _ _ W a n Hin) as [B1 B2 B3 B4 B5 B6]. pose proof base_below.
  split; [unfold UNIT in *; lia|]. split; [|lia]. intros (b & k & Hb & Hxb). specialize (B6 b k Hb). lia.
Qed.

Lemma block_keep h h' bs bs' a n :
  block h bs a n -> mem h' !!! a = mem h !!! a -> brk h <= brk h' ->
  (forall x, a <= x < a + n * UNIT -> ~ within bs' x) -> (forall b k, (b, k) ∈ bs' -> 1 <= k) -> block h' bs' a n.
Proof using.
  intros [B1 B2 B3 B4 B5 B6] Hm Hb Hw Hk. split; try done; [lia|by rewrite Hm|].
  intros b k Hbk. specialize (Hk b k Hbk). destruct (decide (a + n * UNIT <= b)) as [|H1]; [by left|right].
  destruct (decide (b + k * UNIT <= a)) as [|H2]; [done|]. exfalso. apply (Hw (Z.max a b)); [unfold UNIT in *; lia|].
  exists b, k. split; [done|]. unfold UNIT in *. lia.
Qed.

Lemma ok_pos h bs b k : heap_ok h bs -> (b, k) ∈ bs -> 1 <= k.
Proof using LOk.
  intros [(_ & -> & _)|I] Hb; [by apply not_elem_of_nil in Hb|]. destruct (ok_block h bs b k I Hb) as (_ & _ & _ & ? & _). done.
Qed.

Lemma ok_live h bs : ok h bs -> 0 < freep h.
Proof using LOk.
  intros I. destruct (ok_node h bs (freep h) I (ok_freep _ _ I)) as [_ HB]. pose proof base_pos. lia.
Qed.

(** malloc in a program: it fails only when the kernel refuses memory; a new block is
    apart from the others, which keep their contents. *)
Lemma world_malloc w bs nbytes (nu := nunits_of nbytes) :
  winv w bs -> 0 <= nbytes <= INT_MAX - 31 ->
  exists r h' bs', malloc grants (enough (hp w)) nbytes (hp w) = Ok r h' /\
    (r = 0 /\ refused (hp w) nu /\ bs' = bs \/ r <> 0 /\ (r - UNIT, nu) ∉ live w) /\
    winv (mkWorld h' (if decide (r = 0) then live w else (r - UNIT, nu) :: live w)) bs' /\
    (forall a n x, (a, n) ∈ live w -> a <= x < a + n * UNIT -> mem h' !!! x = mem (hp w) !!! x).
Proof using LOk.
  intros W Hn. pose proof (wi_ok _ _ W) as Hok. pose proof base_pos. pose proof base_below.
  destruct (malloc_run (hp w) bs nbytes _ Hok Hn (enough_fuel _ _ Hok)) as [(h' & -> & I' & Hr & Hb & Hmem)|(h' & bs' & b & -> & G)].
  - exists 0, h', bs. split; [done|]. split; [by left|].
    assert (forall a n x, (a, n) ∈ live w -> a <= x < a + n * UNIT -> mem h' !!! x = mem (hp w) !!! x) as Hkeep.
    { intros a n x Hin Hx. apply Hmem. by eapply live_not_free. }
    split; [|done]. rewrite decide_True by done. split; cbn [hp live].
    + by right.
    + intros a n Hin. pose proof (wi_live _ _ W a n Hin) as B. pose proof (bl_pos _ _ _ _ B).
      apply (block_keep (hp w) h' bs); [done|apply (Hkeep a n a Hin); unfold UNIT; lia|lia| |intros; by eapply ok_pos].
      intros x Hx. by eapply live_not_free.
    + intros Hz. pose proof (ok_live _ _ I'). lia.
    + apply (wi_apart _ _ W).
    + intros x. rewrite Hb. apply (wi_all _ _ W).
  - exists (b + UNIT), h', bs'. split; [done|]. replace (b + UNIT - UNIT) with b by lia. pose proof G as [G1 G2 G3 G4 G5].
    pose proof (bl_start _ _ _ _ G2). pose proof (bl_pos _ _ _ _ G2) as Hnu.
    rewrite decide_False by (unfold UNIT in *; lia).
    assert (forall a n x, (a, n) ∈ live w -> a <= x < a + n * UNIT -> mem h' !!! x = mem (hp w) !!! x) as Hkeep.
    { intros a n x Hin Hx. destruct (live_not_free w bs a n x W Hin Hx) as (F1 & F2 & F3). apply G5; [done|done|lia]. }
    assert (forall a n x, (a, n) ∈ live w -> a <= x < a + n * UNIT -> ~ (within bs' x \/ b <= x < b + nu * UNIT)) as Hnew.
    { intros a n x Hin Hx Hb. destruct (live_not_free w bs a n x W Hin Hx) as (F1 & F2 & F3).
      apply G4 in Hb as [|]; [done|lia]. }
    assert (forall a n, (a, n) ∈ live w -> apart (b, nu) (a, n)) as Hap.
    { intros a n Hin. pose proof (bl_pos _ _ _ _ (wi_live _ _ W a n Hin)). unfold apart. simpl.
      destruct (decide (b + nu * UNIT <= a)); [by left|right]. destruct (decide (a + n * UNIT <= b)) as [|]; [done|].
      exfalso. apply (Hnew a n (Z.max a b) Hin); [unfold UNIT in *; lia|right; unfold UNIT in *; lia]. }
    split; [right; split; [unfold UNIT in *; lia|]|split; [|done]].
    { intros Hin. apply Hap in Hin. unfold apart in Hin. simpl in Hin. unfold UNIT in *. lia. }
    split; cbn [hp live].
    + by right.
    + intros a n [[= -> ->]|Hin]%elem_of_cons; [done|]. pose proof (wi_live _ _ W a n Hin) as B. pose proof (bl_pos _ _ _ _ B).
      apply (block_keep (hp w) h' bs); [done|apply (Hkeep a n a Hin); unfold UNIT; lia|done| |intros; by eapply (ok_pos h' bs'); [right|]].
      intros x Hx Hw. apply (Hnew a n x Hin Hx). by left.
    + intros Hz. pose proof (ok_live _ _ G1). lia.
    + split; [intros [a n]; apply Hap|apply (wi_apart _ _ W)].
    + intros x. pose proof (wi_all _ _ W x) as Hall. rewrite within_cons. specialize (G4 x). pose proof (heap_brk _ _ Hok).
      assert (START <= x < brk h' <-> START <= x < brk (hp w) \/ brk (hp w) <= x < brk h') by lia. tauto.
Qed.

(** free of a block that the program holds. *)
Lemma world_free w bs l1 a n l2 :
  winv w bs -> live w = l1 ++ (a, n) :: l2 ->
  exists h' bs', free (enough (hp w)) (a + UNIT) (hp w) = Ok tt h' /\ winv (mkWorld h' (l1 ++ l2)) bs' /\ brk h' = brk (hp w) /\
    (forall b k x, (b, k) ∈ l1 ++ l2 -> b <= x < b + k * UNIT -> mem h' !!! x = mem (hp w) !!! x).
Proof using LOk.
  intros W E. pose proof (wi_ok _ _ W) as Hok. pose proof (enough_fuel _ _ Hok) as Hfuel. pose proof (wi_live _ _ W) as Hl.
  assert (ok (hp w) bs) as I.
  { destruct Hok as [(Hz & _)|I]; [|done]. pose proof (wi_first _ _ W Hz) as Hnil. rewrite E in Hnil. by destruct l1. }
  assert ((a, n) ∈ live w) as Hin by (rewrite E; apply elem_of_app; right; by left).
  destruct (free_run (hp w) bs a n (enough (hp w)) I (Hl a n Hin) ltac:(lia)) as (h' & bs' & Hrun & I' & Hw & Hmem & Hb & _ & _).
  exists h', bs'. split; [done|].
  assert (forall b k, (b, k) ∈ l1 ++ l2 -> (b, k) ∈ live w /\ apart (b, k) (a, n)) as Hother.
  { pose proof (wi_apart _ _ W) as Hp. rewrite E in Hp |- *. apply pairwise_app in Hp as (_ & [Hp2 _] & Hp3).
    intros b k [Hb'|Hb']%elem_of_app.
    - split; [apply elem_of_app; by left|]. apply Hp3; [done|]. by left.
    - split; [apply elem_of_app; right; by right|]. specialize (Hp2 _ Hb'). unfold apart in *. tauto. }
  assert (forall b k x, (b, k) ∈ l1 ++ l2 -> b <= x < b + k * UNIT -> x <> BASE /\ ~ within bs' x) as Hnot.
  { intros b k x Hbk Hx. destruct (Hother b k Hbk) as [Hlv Hap]. destruct (live_not_free w bs b k x W Hlv Hx) as (F1 & F2 & _).
    split; [done|]. intros [|]%Hw; [done|]. unfold apart in Hap. simpl in Hap. lia. }
  assert (forall b k x, (b, k) ∈ l1 ++ l2 -> b <= x < b + k * UNIT -> mem h' !!! x = mem (hp w) !!! x) as Hkeep.
  { intros b k x Hbk Hx. destruct (Hnot b k x Hbk Hx). by apply Hmem. }
  split; [|split; [done|done]]. split; cbn [hp live].
  - by right.
  - intros b k Hbk. destruct (Hother b k Hbk) as [Hlv _]. pose proof (Hl b k Hlv) as B. pose proof (bl_pos _ _ _ _ B).
    apply (block_keep (hp w) h' bs); [done|apply (Hkeep b k b Hbk); unfold UNIT; lia|lia| |intros; by eapply (ok_pos h' bs'); [right|]].
    intros x Hx. by eapply Hnot.
  - intros Hz. pose proof (ok_live _ _ I'). lia.
  - pose proof (wi_apart _ _ W) as Hp. rewrite E in Hp. apply pairwise_app in Hp as (P1 & [_ P2] & P3).
    apply pairwise_app. split; [done|]. split; [done|]. intros z z' Hz Hz'. apply P3; [done|]. by right.
  - intros x. pose proof (wi_all _ _ W x) as Hall. rewrite E, within_app, within_cons in Hall. rewrite Hb, Hw, within_app. tauto.
Qed.

(** The program stores into its own memory. *)
Lemma world_write w bs a n x v :
  winv w bs -> (a, n) ∈ live w -> a < x -> x < a + n * UNIT -> x mod UNIT = 0 -> winv (mkWorld (upd x v (hp w)) (live w)) bs.
Proof using LOk.
  intros W Hin H1 H2 H3. pose proof (wi_ok _ _ W) as Hok. destruct (live_not_free w bs a n x W Hin ltac:(lia)) as (F1 & F2 & F3).
  assert (forall b k, (b, k) ∈ bs -> b <> x) as Hbs.
  { intros b k Hb ->. apply F2. exists x, k. split; [done|]. pose proof (ok_pos _ _ _ _ Hok Hb). unfold UNIT. lia. }
  assert (forall b k, (b, k) ∈ live w -> b <> x) as Hlv.
  { intros b k Hb ->. pose proof (wi_apart _ _ W) as Hp. pose proof Hin as (l1 & l2 & E)%list_elem_of_split.
    pose proof (bl_pos _ _ _ _ (wi_live _ _ W x k Hb)) as Hk. rewrite E in Hp, Hb. apply pairwise_app in Hp as (_ & [Hp2 _] & Hp3).
    assert (apart (a, n) (x, k) \/ (a, n) = (x, k)) as [Hap|[= -> ->]]; [|unfold apart in Hap; simpl in Hap; unfold UNIT in *; lia|lia].
    apply elem_of_app in Hb as [Hb|[Hb|Hb]%elem_of_cons]; [|by right|left; by apply Hp2].
    left. specialize (Hp3 (x, k) (a, n) Hb ltac:(by left)). unfold apart in *. tauto. }
  split; cbn [hp live].
  - destruct Hok as [?|[J1 J2 J3 J4 J5]]; [by left|right]. split; try done; [|by rewrite upd_other].
    apply (chain_ext (mem (hp w))); [by apply upd_other| |done]. intros b k Hb. apply upd_other. symmetry. by eapply Hbs.
  - intros b k Hb. destruct (wi_live _ _ W b k Hb) as [B1 B2 B3 B4 B5 B6]. split; try done.
    rewrite upd_other; [done|]. symmetry. by eapply Hlv.
  - apply (wi_first _ _ W).
  - apply (wi_apart _ _ W).
  - apply (wi_all _ _ W).
Qed.

Lemma world_step w w' bs : winv w bs -> step w w' -> exists bs', winv w' bs'.
Proof using LOk.
  intros W Hs. destruct Hs as [h l nbytes r h' Hn Hm|h l1 a n l2 h' Hf|h l a n x v Hin H1 H2 H3].
  - destruct (world_malloc _ bs nbytes W Hn) as (r' & h1 & bs' & Hm' & _ & W' & _). cbn [hp live] in *.
    rewrite Hm in Hm'. injection Hm' as <- <-. by exists bs'.
  - destruct (world_free _ bs l1 a n l2 W eq_refl) as (h1 & bs' & Hf' & W' & _). cbn [hp] in *.
    rewrite Hf in Hf'. injection Hf' as <-. by exists bs'.
  - exists bs. by apply (world_write _ bs a n x v W).
Qed.

Lemma world_start : winv (mkWorld heap0 []) [].
Proof using LOk.
  pose proof start_physical. split; try done; cbn [hp live].
  - left. split; [done|]. split; [done|]. split; [simpl; lia|apply start_unit].
  - intros a n Hin. by apply not_elem_of_nil in Hin.
  - intros x. simpl. pose proof (within_nil x). intuition lia.
Qed.

Lemma world_runs w : rtc step (mkWorld heap0 []) w -> exists bs, winv w bs.
Proof using LOk.
  intros Hr. revert w Hr. apply rtc_ind_r; [eexists; apply world_start|].
  intros x y _ Hs [bs W]. by eapply world_step.
Qed.

(** When the program holds nothing, the heap is one free block. *)
Lemma heap_whole w bs : winv w bs -> live w = [] -> START < brk (hp w) ->
  ptr (mem (hp w) !!! BASE) = START /\ ptr (mem (hp w) !!! START) = BASE /\
  size (mem (hp w) !!! START) * UNIT = brk (hp w) - START.
Proof using LOk.
  intros W Hnil Hlt. pose proof (wi_all _ _ W) as Hall. rewrite Hnil in Hall.
  assert (forall x, within bs x <-> START <= x < brk (hp w)) as Hw.
  { intros x. rewrite <- Hall. pose proof (within_nil x). tauto. }
  assert (ok (hp w) bs) as I.
  { destruct (wi_ok _ _ W) as [(_ & -> & _)|I]; [|done]. destruct (within_nil START). apply Hw. lia. }
  destruct (gaps_one _ _ _ START (brk (hp w)) (ok_gaps _ _ I) Hlt) as (a & k & Hin & Ha & Hk); [intros x Hx; by apply Hw|].
  destruct (ok_block _ _ _ _ I Hin) as ([Hst _] & _ & _ & Hk1 & Hend & Hsz). assert (a = START) as -> by lia.
  pose proof Hin as (l1 & l2 & E)%list_elem_of_split. rewrite E in I.
  destruct (ok_splitting _ _ _ _ _ I) as (Hc1 & Hc2 & _ & _ & _ & _ & _ & _ & _ & _ & H2).
  assert (l1 = []) as ->.
  { destruct l1 as [|[b j] l1]; [done|]. destruct (ok_block _ _ b j I ltac:(left)) as ([? _] & _ & _ & Hj & _).
    destruct (ok_gaps _ _ I) as (_ & _ & _ & Hg). destruct (gaps_in _ _ _ START k Hg) as (? & _); [apply elem_of_app; right; by left|].
    unfold UNIT in *. lia. }
  assert (l2 = []) as ->.
  { destruct l2 as [|[b j] l2]; [done|]. specialize (H2 b j ltac:(left)).
    destruct (ok_block _ _ b j I ltac:(right; left)) as ([_ ?] & _). unfold UNIT in *. lia. }
  simpl in Hc1, Hc2. split; [done|]. split; [done|]. rewrite Hsz. lia.
Qed.
End Heap.

(** C23: The allocator of user memory is safe and loses nothing.  Take any program that
    starts with an empty heap and calls malloc (for up to 2^31 - 32 bytes) and free (of
    blocks it holds), and stores where it likes inside them.  At any point the blocks it
    holds lie in the heap and do not overlap.  malloc then always returns: 0 only if no
    more memory is granted, and else the address of a new, aligned block of at least the
    size asked for, apart from all the others; free of any block it holds returns; and
    neither changes anything in the blocks the program holds.  When it has freed them
    all, the heap is a single free block again. *)
Theorem umalloc_safe {L : Layout} {LOk : LayoutOk} (grants : nat -> bool) (w : world) :
  rtc (step grants) (mkWorld heap0 []) w ->
  (forall a n, (a, n) ∈ live w -> START <= a /\ a + n * UNIT <= brk (hp w)) /\
  pairwise (live w) /\
  (forall nbytes, 0 <= nbytes <= INT_MAX - 31 ->
     exists r h', malloc grants (enough (hp w)) nbytes (hp w) = Ok r h' /\
       (r = 0 /\ refused grants (hp w) (nunits_of nbytes) \/
        START + UNIT <= r /\ r mod UNIT = 0 /\ r + nbytes <= brk h' /\
        forall a n, (a, n) ∈ live w -> r + nbytes <= a \/ a + n * UNIT <= r - UNIT) /\
       forall a n x, (a, n) ∈ live w -> a <= x < a + n * UNIT -> mem h' !!! x = mem (hp w) !!! x) /\
  (forall l1 a n l2, live w = l1 ++ (a, n) :: l2 ->
     exists h', free (enough (hp w)) (a + UNIT) (hp w) = Ok tt h' /\ brk h' = brk (hp w) /\
       forall b k x, (b, k) ∈ l1 ++ l2 -> b <= x < b + k * UNIT -> mem h' !!! x = mem (hp w) !!! x) /\
  (live w = [] -> START < brk (hp w) ->
     ptr (mem (hp w) !!! BASE) = START /\ ptr (mem (hp w) !!! START) = BASE /\
     size (mem (hp w) !!! START) * UNIT = brk (hp w) - START).
Proof.
  intros Hr. destruct (world_runs grants w Hr) as [bs W].
  split; [intros a n Hin; by destruct (wi_live _ _ W a n Hin)|]. split; [apply (wi_apart _ _ W)|]. split; [|split].
  - intros nbytes Hn. destruct (world_malloc grants w bs nbytes W Hn) as (r & h' & bs' & Hm & Hcase & W' & Hkeep).
    exists r, h'. split; [done|]. split; [|done]. destruct Hcase as [(-> & Hrf & _)|[Hr0 _]]; [by left|right].
    rewrite decide_False in W' by done. destruct (wi_live _ _ W' (r - UNIT) (nunits_of nbytes) ltac:(left)) as [B1 B2 B3 B4 _ _].
    destruct (wi_apart _ _ W') as [Hap _]. destruct (nunits_bounds nbytes Hn) as (_ & _ & Hsz). cbn [hp live] in *.
    assert (r mod UNIT = 0) as Hal by (replace r with (r - UNIT + 1 * UNIT) by lia; by apply aligned_add).
    split; [lia|]. split; [done|]. split; [lia|]. intros a n Hin. specialize (Hap _ Hin). unfold apart in Hap. simpl in Hap. lia.
  - intros l1 a n l2 E. destruct (world_free w bs l1 a n l2 W E) as (h' & bs' & Hf & _ & Hb & Hkeep). by exists h'.
  - intros Hnil Hlt. by eapply heap_whole.
Qed.

#[global] Instance layout1_ok : @LayoutOk layout1.
Proof. split; vm_compute; congruence. Qed.

Lemma umalloc_safe_witness : exists w : world,
  live w = [(84992, 64)] /\ pairwise (live w) /\
  exists h', free (L := layout1) (enough (L := layout1) (hp w)) (84992 + UNIT) (hp w) = Ok tt h' /\ brk h' = brk (hp w).
Proof.
  pose (h1 := match malloc (L := layout1) (fun _ => true) 10 1000 (heap0 (H := layout1)) with Ok _ h => h | _ => heap0 (H := layout1) end).
  pose (w := mkWorld h1 [(84992, 64)]).
  assert (rtc (step (L := layout1) (fun _ => true)) (mkWorld (heap0 (H := layout1)) []) w) as Hr.
  { apply rtc_once. apply (step_malloc (L := layout1) (fun _ => true) (heap0 (H := layout1)) [] 1000 85008 h1).
    - unfold INT_MAX. lia.
    - vm_compute. reflexivity. }
  destruct (umalloc_safe (fun _ => true) w Hr) as (_ & Hp & _ & Hf & _).
  exists w. split; [reflexivity|]. split; [exact Hp|]. destruct (Hf [] 84992 64 [] eq_refl) as (h' & Hrun & Hb & _).
  exists h'. split; [exact Hrun|exact Hb].
Defined.
