(* ===== verification/Spinlock.v ===== *)
(** * kernel/spinlock.c: interrupts and spinlocks

    Operations run on one CPU, whose [noff], [intena] and interrupt-enable bit are
    part of the state; a lock that another CPU holds makes [acquire] wait
    ([Blocked spin_chan]).  The second half follows several CPUs through the
    instructions of [acquire] and [release] and proves mutual exclusion. *)

From Stdlib Require Import ZArith Lia.
From stdpp Require Import base numbers list relations strings.
From S2P Require Import Prelude.
Open Scope Z_scope.

Record cpu : Type := mkCpu { noff : Z; intena : bool; intr : bool }.

(** [lcpu] is the number of the CPU that holds the lock. *)
Record spinlock : Type := mkSpinlock { locked : Z; lname : string; lcpu : option nat }.

(** What a component shows of the CPU it runs on. *)
Class OnCpu (S : Type) := {
  me : S -> nat;
  get_cpu : S -> cpu;
  set_cpu : cpu -> S -> S }.

(** A lock inside a larger state. *)
Record lockref (S : Type) := mkLockref {
  lget : S -> spinlock;
  lset : spinlock -> S -> S }.
Arguments mkLockref {S}. Arguments lget {S}. Arguments lset {S}.

(** Waiting for another CPU to release a lock. *)
Definition spin_chan : Z := -1.

Section Operations.
Context {S : Type} `{OnCpu S}.

Definition intr_get : M S bool := gets (fun s => intr (get_cpu s)).
Definition intr_set (b : bool) : M S unit :=
  modify (fun s => set_cpu (mkCpu (noff (get_cpu s)) (intena (get_cpu s)) b) s).
Definition intr_off : M S unit := intr_set false.
Definition intr_on : M S unit := intr_set true.
Definition set_noff (n : Z) : M S unit :=
  modify (fun s => set_cpu (mkCpu n (intena (get_cpu s)) (intr (get_cpu s))) s).
Definition set_intena (b : bool) : M S unit :=
  modify (fun s => set_cpu (mkCpu (noff (get_cpu s)) b (intr (get_cpu s))) s).

Definition initlock (lk : lockref S) (name : string) : M S unit :=
  modify (lset lk (mkSpinlock 0 name None)).

Definition holding (lk : lockref S) : M S bool :=
  gets (fun s => bool_decide (locked (lget lk s) <> 0 /\ lcpu (lget lk s) = Some (me s))).

Definition push_off : M S unit :=
  let! old := intr_get in
  intr_off ;;
  let! c := gets get_cpu in
  (if decide (noff c = 0) then set_intena old else ret tt) ;;
  set_noff (noff c + 1).

Definition pop_off : M S unit :=
  let! i := intr_get in
  if i then panic "pop_off - interruptible"
  else
    let! c := gets get_cpu in
    if decide (noff c < 1) then panic "pop_off"
    else
      set_noff (noff c - 1) ;;
      if decide (noff c - 1 = 0) then (if intena c then intr_on else ret tt) else ret tt.

(** The test-and-set loop ends when the lock is free; until then it waits. *)
Definition acquire (lk : lockref S) : M S unit :=
  push_off ;;
  let! h := holding lk in
  if h then panic "acquire"
  else
    let! l := gets (lget lk) in
    if decide (locked l <> 0) then block spin_chan
    else modify (fun s => lset lk (mkSpinlock 1 (lname l) (Some (me s))) s).

Definition release (lk : lockref S) : M S unit :=
  let! h := holding lk in
  if h then
    let! l := gets (lget lk) in
    modify (lset lk (mkSpinlock 0 (lname l) None)) ;;
    pop_off
  else panic "release".
End Operations.

(** ** Balanced use

    A CPU between lock operations: with [noff = 0] interrupts are as [intena]
    would restore them, and under a lock they are off. *)
Definition cpu_ok (c : cpu) : Prop :=
  (noff c = 0 /\ intena c = intr c) \/ (0 < noff c /\ intr c = false).

Definition cpu_push (c : cpu) : cpu :=
  mkCpu (noff c + 1) (if decide (noff c = 0) then intr c else intena c) false.

Lemma cpu_push_ok c : cpu_ok c -> cpu_ok (cpu_push c).
Proof. unfold cpu_ok, cpu_push. simpl. intros [[? ?]|[? ?]]; right; split; (lia || done). Qed.

(** The laws a component's CPU and lock must obey for the lemmas below. *)
Class OnCpuLaws (S : Type) `{OnCpu S} : Prop := {
  cpu_get_set : forall c (s : S), get_cpu (set_cpu c s) = c;
  cpu_set_set : forall c c' (s : S), set_cpu c (set_cpu c' s) = set_cpu c s;
  cpu_set_get : forall (s : S), set_cpu (get_cpu s) s = s;
  me_set_cpu : forall c (s : S), me (set_cpu c s) = me s }.

Class LockLaws {S : Type} `{OnCpu S} (lk : lockref S) : Prop := {
  lock_get_set : forall l (s : S), lget lk (lset lk l s) = l;
  lock_set_get : forall (s : S), lset lk (lget lk s) s = s;
  lock_set_set : forall l l' (s : S), lset lk l (lset lk l' s) = lset lk l s;
  lock_cpu : forall l (s : S), get_cpu (lset lk l s) = get_cpu s;
  cpu_lock : forall c (s : S), lget lk (set_cpu c s) = lget lk s;
  me_lset : forall l (s : S), me (lset lk l s) = me s;
  lock_cpu_comm : forall l c (s : S), lset lk l (set_cpu c s) = set_cpu c (lset lk l s) }.

(** A free lock. *)
Definition is_free (l : spinlock) : Prop := locked l = 0 /\ lcpu l = None.

Section Balance.
Context {S : Type} `{OnCpuLaws S}.

Definition entered (s : S) : S := set_cpu (cpu_push (get_cpu s)) s.
Definition taken (lk : lockref S) (s : S) : S :=
  lset lk (mkSpinlock 1 (lname (lget lk s)) (Some (me s))) (entered s).

Lemma push_off_run (s : S) : push_off s = Ok tt (entered s).
Proof.
  unfold push_off, intr_get, intr_off, intr_set, set_intena, set_noff, gets, modify, ret, bind.
  rewrite !cpu_get_set. simpl. unfold entered, cpu_push.
  case_decide; rewrite ?cpu_get_set, ?cpu_set_set; done.
Qed.

(** [pop_off] undoes the matching [push_off], the interrupt state included. *)
Lemma pop_off_run (s s0 : S) c :
  cpu_ok c -> s = set_cpu (cpu_push c) s0 -> pop_off s = Ok tt (set_cpu c s0).
Proof.
  intros Hc ->. destruct c as [n ie i]. unfold cpu_ok in Hc. simpl in Hc.
  unfold pop_off, intr_get, set_noff, intr_on, intr_set, gets, modify, ret, bind.
  repeat (rewrite cpu_get_set; simpl). replace (n + 1 - 1) with n by lia.
  rewrite (decide_False (P := n + 1 < 1)) by (destruct Hc as [[? _]|[? _]]; lia).
  destruct Hc as [[-> ->]|[Hn ->]].
  - rewrite !decide_True by done. destruct i; repeat (rewrite cpu_get_set; simpl); by rewrite !cpu_set_set.
  - rewrite !decide_False by lia. rewrite cpu_set_set, cpu_get_set. unfold cpu_push. simpl.
    by rewrite decide_False by lia.
Qed.

Context (lk : lockref S) `{!LockLaws lk}.

Lemma acquire_run (s : S) :
  is_free (lget lk s) -> acquire lk s = Ok tt (taken lk s).
Proof.
  intros [Hl Hc]. unfold acquire. rewrite (bind_ok _ _ _ _ _ (push_off_run s)).
  unfold holding, gets, bind, modify, entered.
  rewrite bool_decide_eq_false_2 by (rewrite cpu_lock, Hl; lia).
  rewrite decide_False by (rewrite cpu_lock; lia). rewrite cpu_lock. unfold taken, entered.
  by rewrite me_set_cpu.
Qed.

(** Releasing in a state reached from [s] by taking the lock and changing only
    other parts of the state, [s']. *)
Lemma release_run (s : S) c :
  cpu_ok c -> get_cpu s = cpu_push c -> locked (lget lk s) <> 0 ->
  lcpu (lget lk s) = Some (me s) ->
  release lk s = Ok tt (set_cpu c (lset lk (mkSpinlock 0 (lname (lget lk s)) None) s)).
Proof.
  intros Hc Hg Hl Hm. unfold release, holding.
  rewrite (bind_ok _ _ s (bool_decide (locked (lget lk s) <> 0 /\ lcpu (lget lk s) = Some (me s))) s)
    by done.
  rewrite bool_decide_eq_true_2 by done. unfold gets, modify, bind.
  rewrite (pop_off_run _ (lset lk (mkSpinlock 0 (lname (lget lk s)) None) s) c Hc); [done|].
  rewrite <- Hg, <- (lock_cpu (mkSpinlock 0 (lname (lget lk s)) None)). by rewrite cpu_set_get.
Qed.

(** An acquire and a release with nothing in between leave no trace. *)
Lemma acquire_release (s : S) :
  cpu_ok (get_cpu s) -> is_free (lget lk s) ->
  (acquire lk ;; release lk) s = Ok tt s.
Proof.
  intros Hc Hf. rewrite (bind_ok _ _ _ _ _ (acquire_run s Hf)). unfold taken.
  rewrite (release_run _ (get_cpu s)); unfold entered;
    rewrite ?lock_get_set, ?lock_cpu, ?cpu_get_set, ?me_lset, ?me_set_cpu; try done.
  simpl. destruct Hf as [Hl Hn]. do 2 f_equal.
  rewrite lock_set_set, lock_cpu_comm, cpu_set_set.
  replace (mkSpinlock 0 (lname (lget lk s)) None) with (lget lk s)
    by (destruct (lget lk s); simpl in *; by subst).
  rewrite lock_set_get. apply cpu_set_get.
Qed.
End Balance.

(** ** A component guarded by one lock

    [kdata] is what the lock protects; [kwoken] records the channels passed to
    [wakeup], in order. *)
Record kobj (A : Type) : Type := mkK {
  kme : nat; kcpu : cpu; klock : spinlock; kdata : A; kwoken : list Z }.
Arguments mkK {A}. Arguments kme {A}. Arguments kcpu {A}. Arguments klock {A}.
Arguments kdata {A}. Arguments kwoken {A}.

#[export] Instance kobj_cpu A : OnCpu (kobj A) := {
  me := kme;
  get_cpu := kcpu;
  set_cpu := fun c s => mkK (kme s) c (klock s) (kdata s) (kwoken s) }.
#[export] Instance kobj_cpu_laws A : OnCpuLaws (kobj A).
Proof. split; intros; by destruct s. Qed.

Definition the_lock {A} : lockref (kobj A) :=
  mkLockref klock (fun l s => mkK (kme s) (kcpu s) l (kdata s) (kwoken s)).
#[export] Instance the_lock_laws A : LockLaws (@the_lock A).
Proof. split; intros; by destruct s. Qed.

(** Reading and writing the protected data, and waking a channel. *)
Definition kget {A} : M (kobj A) A := gets kdata.
Definition kset {A} (x : A) : M (kobj A) unit :=
  modify (fun s => mkK (kme s) (kcpu s) (klock s) x (kwoken s)).
Definition kmod {A} (f : A -> A) : M (kobj A) unit :=
  modify (fun s => mkK (kme s) (kcpu s) (klock s) (f (kdata s)) (kwoken s)).
Definition kwakeup {A} (chan : Z) : M (kobj A) unit :=
  modify (fun s => mkK (kme s) (kcpu s) (klock s) (kdata s) (kwoken s ++ [chan])).

(** The state while the lock of a quiescent [s] is held. *)
Definition held {A} (s : kobj A) (x : A) (w : list Z) : kobj A :=
  mkK (kme s) (cpu_push (kcpu s)) (mkSpinlock 1 (lname (klock s)) (Some (kme s))) x w.
Definition quiet {A} (s : kobj A) : Prop := cpu_ok (kcpu s) /\ is_free (klock s).

Lemma kacquire {A} (s : kobj A) :
  quiet s -> acquire the_lock s = Ok tt (held s (kdata s) (kwoken s)).
Proof. intros [Hc Hf]. by rewrite (acquire_run the_lock s Hf). Qed.

Lemma krelease {A} (s : kobj A) x w :
  quiet s -> release the_lock (held s x w) = Ok tt (mkK (kme s) (kcpu s) (klock s) x w).
Proof.
  intros [Hc [Hl Hn]]. rewrite (release_run the_lock (held s x w) (kcpu s) Hc); [|done..].
  unfold held. simpl. destruct (klock s); simpl in *; by subst.
Qed.

Lemma kget_held {A} (s : kobj A) x w : kget (held s x w) = Ok x (held s x w).
Proof. done. Qed.
Lemma kmod_held {A} (s : kobj A) f x w : kmod f (held s x w) = Ok tt (held s (f x) w).
Proof. done. Qed.
Lemma kset_held {A} (s : kobj A) y x w : kset y (held s x w) = Ok tt (held s y w).
Proof. done. Qed.
Lemma kwakeup_held {A} (s : kobj A) c x w : kwakeup c (held s x w) = Ok tt (held s x (w ++ [c])).
Proof. done. Qed.
Lemma bind_ret {S A B} (a : A) (k : A -> M S B) s : bind (ret a) k s = k a s.
Proof. done. Qed.

(** Execute the operations on a held object that come first in the goal. *)
Ltac kstep :=
  rewrite ?bind_assoc;
  first
    [ rewrite (bind_ok _ _ _ _ _ (kget_held _ _ _))
    | rewrite (bind_ok _ _ _ _ _ (kmod_held _ _ _ _))
    | rewrite (bind_ok _ _ _ _ _ (kset_held _ _ _ _))
    | rewrite (bind_ok _ _ _ _ _ (kwakeup_held _ _ _ _))
    | rewrite bind_ret
    | rewrite kget_held | rewrite kmod_held | rewrite kset_held | rewrite kwakeup_held ];
  cbv beta.
Ltac ksteps := repeat kstep.

(** ** Nested push_off and pop_off *)

Fixpoint repeat_m {S} (n : nat) (m : M S unit) : M S unit :=
  match n with O => ret tt | Datatypes.S n' => m ;; repeat_m n' m end.

Lemma repeat_push_pop {S} `{OnCpuLaws S} n (s : S) :
  cpu_ok (get_cpu s) ->
  exists s', repeat_m n push_off s = Ok tt s' /\ repeat_m n pop_off s' = Ok tt s /\
             (n <> O -> intr (get_cpu s') = false).
Proof.
  revert s. induction n as [|n IH]; intros s Hc; [by exists s|]. simpl.
  rewrite (bind_ok _ _ _ _ _ (push_off_run s)).
  destruct (IH (entered s)) as (s' & Hpush & Hpop & Hoff).
  { unfold entered. rewrite cpu_get_set. by apply cpu_push_ok. }
  exists s'. split; [done|]. split.
  - assert (forall m, repeat_m n pop_off m = Ok tt (entered s) ->
              repeat_m (Datatypes.S n) pop_off m = Ok tt s) as Hlast; [|by apply Hlast].
    clear - Hc H0. induction n as [|n IH]; intros m; simpl.
    + intros [= ->]. unfold bind. rewrite (pop_off_run (entered s) s (get_cpu s) Hc eq_refl). simpl.
      by rewrite cpu_set_get.
    + intros Hm. apply bind_inv in Hm as ([] & m1 & H1 & H2). unfold bind at 1. rewrite H1. by apply IH.
  - intros _. destruct n as [|n]; [|by apply Hoff]. simpl in Hpush. injection Hpush as <-.
    unfold entered. by rewrite cpu_get_set.
Qed.

(** push_off and pop_off are matched: n nested push_off leave interrupts off,
    and the n pop_off that follow succeed and restore the CPU exactly, so that
    interrupts come back on only if they were on before. *)
Theorem push_pop_balanced {A} n (s : kobj A) :
  cpu_ok (kcpu s) ->
  exists s', repeat_m n push_off s = Ok tt s' /\ repeat_m n pop_off s' = Ok tt s /\
             (n <> O -> intr (kcpu s') = false).
Proof. intros Hc. exact (repeat_push_pop n s Hc). Qed.


(** ** Mutual exclusion on several CPUs

    Each CPU repeatedly acquires and releases one lock; [lstep] executes the next
    atomic part of the routine on CPU [i]. *)
Inductive lpc : Type :=
| Idle         (* outside *)
| Spin         (* in acquire, at the test-and-set *)
| Got          (* lock taken, lk->cpu not yet set *)
| Crit         (* in the critical section *)
| Clearing     (* in release, lk->cpu cleared, still locked *)
| Popping.     (* in release, unlocked, before pop_off *)

Record lsys : Type := mkLsys { slk : spinlock; scpus : list cpu; spcs : list lpc }.

#[export] Instance bare_cpu : OnCpu cpu := {
  me := fun _ => O; get_cpu := fun c => c; set_cpu := fun c _ => c }.
#[export] Instance bare_cpu_laws : OnCpuLaws cpu.
Proof. by split. Qed.

(** [holding(lk)] on CPU [i]. *)
Definition holds (i : nat) (l : spinlock) : bool :=
  bool_decide (locked l <> 0 /\ lcpu l = Some i).

Definition lstep (i : nat) (s : lsys) : res lsys unit :=
  match scpus s !! i, spcs s !! i with
  | Some c, Some pc =>
      let goto l c pc := Ok tt (mkLsys l (<[i := c]> (scpus s)) (<[i := pc]> (spcs s))) in
      let l := slk s in
      match pc with
      | Idle =>
          match push_off c with
          | Ok _ c' => if holds i l then Fault (Panic "acquire") else goto l c' Spin
          | Blocked ch _ => Blocked ch s
          | Fault f => Fault f
          end
      | Spin => if decide (locked l <> 0) then goto l c Spin
                else goto (mkSpinlock 1 (lname l) (lcpu l)) c Got
      | Got => goto (mkSpinlock (locked l) (lname l) (Some i)) c Crit
      | Crit => if holds i l then goto (mkSpinlock (locked l) (lname l) None) c Clearing
                else Fault (Panic "release")
      | Clearing => goto (mkSpinlock 0 (lname l) (lcpu l)) c Popping
      | Popping =>
          match pop_off c with
          | Ok _ c' => goto l c' Idle
          | Blocked ch _ => Blocked ch s
          | Fault f => Fault f
          end
      end
  | _, _ => Fault (Undef "cpu number")
  end.

Inductive lsteps : lsys -> lsys -> Prop :=
| lsteps_refl s : lsteps s s
| lsteps_step s i s1 s2 : lstep i s = Ok tt s1 -> lsteps s1 s2 -> lsteps s s2.

(** CPU [i] owns the lock word. *)
Definition owner (pc : lpc) : bool := match pc with Got | Crit | Clearing => true | _ => false end.
Definition depth (pc : lpc) : Z := match pc with Idle => 0 | _ => 1 end.

Record linv (s : lsys) : Prop := {
  li_len : length (scpus s) = length (spcs s);
  li_cpu : forall i c pc, scpus s !! i = Some c -> spcs s !! i = Some pc ->
             noff c = depth pc /\ (pc <> Idle -> intr c = false);
  li_one : forall i j pi pj, spcs s !! i = Some pi -> spcs s !! j = Some pj ->
             owner pi = true -> owner pj = true -> i = j;
  li_locked : forall i pc, spcs s !! i = Some pc -> owner pc = true -> locked (slk s) = 1;
  li_free : locked (slk s) <> 0 -> exists i pc, spcs s !! i = Some pc /\ owner pc = true;
  li_holder : forall i, lcpu (slk s) = Some i <-> spcs s !! i = Some Crit }.

Section MutualExclusion.
Context (s : lsys) (i : nat) (c : cpu) (pc : lpc).
Hypotheses (I : linv s) (Hc : scpus s !! i = Some c) (Hp : spcs s !! i = Some pc).

(** CPU [i] moves to [pc'] with [c'] and the lock becomes [l']. *)
Lemma linv_goto l' c' pc' :
  noff c' = depth pc' -> (pc' <> Idle -> intr c' = false) ->
  (owner pc' = true -> owner pc = true \/ locked (slk s) = 0) ->
  locked l' = (if owner pc' then 1 else if owner pc then 0 else locked (slk s)) ->
  (forall j, lcpu l' = Some j <-> (j = i /\ pc' = Crit) \/ (j <> i /\ lcpu (slk s) = Some j)) ->
  linv (mkLsys l' (<[i := c']> (scpus s)) (<[i := pc']> (spcs s))).
Proof using All.
  intros Hn Hi Hown Hl' Hh. destruct I as [Hlen Hcpu Hone Hlk Hfree Hhold].
  pose proof (lookup_lt_Some _ _ _ Hp) as Hlt. pose proof (lookup_lt_Some _ _ _ Hc) as Hltc.
  assert (forall j pj, j <> i -> spcs s !! j = Some pj -> owner pj = true ->
            owner pc = false /\ locked (slk s) = 1) as Hother.
  { intros j pj Hj Hpj Ho. split; [|by eapply Hlk].
    destruct (owner pc) eqn:E; [|done]. destruct Hj. by eapply Hone. }
  split; simpl.
  - by rewrite !length_insert.
  - intros j cj pj Hcj Hpj.
    apply list_lookup_insert_Some in Hcj as [(? & ? & _)|[Hj Hcj]], Hpj as [(? & ? & _)|[? Hpj]];
      subst; [done|done|done|by eapply Hcpu].
  - intros j k pj pk Hpj Hpk Hoj Hok.
    apply list_lookup_insert_Some in Hpj as [(? & ? & _)|[Hj Hpj]], Hpk as [(? & ? & _)|[Hk Hpk]];
      subst; [done| | |by eapply Hone].
    + destruct (Hother k pk) as [E1 E2]; [done..|]. destruct (Hown Hoj); [congruence|lia].
    + destruct (Hother j pj) as [E1 E2]; [done..|]. destruct (Hown Hok); [congruence|lia].
  - intros j pj Hpj Hoj. rewrite Hl'. apply list_lookup_insert_Some in Hpj as [(? & ? & _)|[Hj Hpj]].
    + subst. by rewrite Hoj.
    + destruct (Hother j pj) as [E1 E2]; [done..|]. rewrite E1. by destruct (owner pc').
  - rewrite Hl'. intros Hnz. destruct (owner pc') eqn:Ho.
    { exists i, pc'. split; [by apply list_lookup_insert_eq|done]. }
    destruct (owner pc) eqn:Ho'; [done|]. destruct (Hfree Hnz) as (j & pj & Hpj & Hoj).
    exists j, pj. split; [|done]. rewrite list_lookup_insert_ne; [done|]. intros ->. congruence.
  - intros j. rewrite Hh. destruct (decide (j = i)) as [->|Hne].
    + rewrite list_lookup_insert_eq by done. split; [naive_solver|]. intros [= ->]. by left.
    + rewrite list_lookup_insert_ne by done. rewrite <- Hhold. naive_solver.
Qed.

End MutualExclusion.

(** Every step succeeds and keeps the invariant. *)
Lemma linv_step s i c pc :
  linv s -> scpus s !! i = Some c -> spcs s !! i = Some pc ->
  exists s', lstep i s = Ok tt s' /\ linv s'.
Proof.
  intros I Hc Hp. pose proof I as [Hlen Hcpu Hone Hlk Hfree Hhold]. destruct (Hcpu i c pc Hc Hp) as [Hn Hoff].
  assert (pc <> Crit -> lcpu (slk s) <> Some i) as Hnot by (rewrite Hhold, Hp; naive_solver).
  unfold lstep. rewrite Hc, Hp. destruct pc; simpl in *.
  - rewrite push_off_run. unfold holds. rewrite bool_decide_eq_false_2 by naive_solver.
    eexists. split; [done|]. apply (linv_goto s i c _ I Hc Hp); simpl; try done; [lia|]. naive_solver.
  - case_decide as E; (eexists; split; [done|]; apply (linv_goto s i c _ I Hc Hp); simpl; try done; auto with lia; try naive_solver).
  - eexists. split; [done|]. apply (linv_goto s i c _ I Hc Hp); simpl; try done; auto.
    + by eapply Hlk.
    + intros j. split; [intros [= ->]; by left|]. intros [[-> _]|[Hj Hl]]; [done|].
      apply Hhold in Hl. destruct Hj. by eapply Hone.
  - assert (lcpu (slk s) = Some i) as Hl by (by apply Hhold).
    assert (locked (slk s) = 1) as Hk by (by eapply Hlk).
    unfold holds. rewrite bool_decide_eq_true_2 by (split; [lia|done]).
    eexists. split; [done|]. apply (linv_goto s i c _ I Hc Hp); simpl; try done; auto. naive_solver.
  - eexists. split; [done|]. apply (linv_goto s i c _ I Hc Hp); simpl; try done; auto. naive_solver.
  - assert (exists c', pop_off c = Ok tt c' /\ noff c' = 0) as (c' & -> & Hn').
    { unfold pop_off, intr_get, gets, bind. simpl. rewrite Hoff by done. rewrite decide_False by lia.
      unfold set_noff, modify. rewrite decide_True by lia. simpl.
      destruct (intena c); eexists; (split; [done|simpl; lia]). }
    eexists. split; [done|]. apply (linv_goto s i c _ I Hc Hp); simpl; try done. naive_solver.
Qed.

(** The CPUs before any has touched the lock. *)
Definition linit (cs : list cpu) : lsys :=
  mkLsys (mkSpinlock 0 "lock" None) cs (replicate (length cs) Idle).

Lemma linv_init cs : Forall (fun c => noff c = 0) cs -> linv (linit cs).
Proof.
  intros Hcs. rewrite Forall_forall in Hcs.
  assert (forall i pc, replicate (length cs) Idle !! i = Some pc -> pc = Idle) as Hidle
    by (intros i pc H; by apply lookup_replicate in H as [? _]).
  split; simpl; try done.
  - by rewrite length_replicate.
  - intros i c pc Hc Hp. apply Hidle in Hp as ->. split; [|done]. apply Hcs.
    by eapply list_elem_of_lookup_2.
  - intros i j pi pj Hp _ Ho. by apply Hidle in Hp as ->.
  - intros i pc Hp Ho. by apply Hidle in Hp as ->.
  - intros i. split; [done|]. intros H%Hidle. done.
Qed.

Lemma linv_steps s s' : linv s -> lsteps s s' -> linv s'.
Proof.
  intros I Hs. induction Hs as [|s i s1 s2 Hstep _ IH]; [done|]. apply IH.
  assert (exists c pc, scpus s !! i = Some c /\ spcs s !! i = Some pc) as (c & pc & Hc & Hp).
  { unfold lstep in Hstep. destruct (scpus s !! i), (spcs s !! i); try done. by eexists _, _. }
  destruct (linv_step s i c pc I Hc Hp) as (s'' & Hs'' & I'). congruence.
Qed.

(** C28: Spinlocks give mutual exclusion: for any number of CPUs and any
    interleaving of the instructions of acquire and release, two CPUs are never in
    the critical section together, the CPU in it has interrupts off and is the one
    recorded in lk->cpu, and no CPU ever reaches a panic. *)
Theorem mutual_exclusion cs s :
  Forall (fun c => noff c = 0) cs -> lsteps (linit cs) s ->
  (forall i j, spcs s !! i = Some Crit -> spcs s !! j = Some Crit -> i = j) /\
  (forall i c, spcs s !! i = Some Crit -> scpus s !! i = Some c ->
     intr c = false /\ lcpu (slk s) = Some i /\ locked (slk s) = 1) /\
  (forall i, (i < length (spcs s))%nat -> exists s', lstep i s = Ok tt s').
Proof.
  intros Hcs Hs. pose proof (linv_steps _ _ (linv_init cs Hcs) Hs) as I.
  split; [|split].
  - intros i j Hi Hj. by eapply (li_one s I).
  - intros i c Hi Hc. split; [|split].
    + by eapply (li_cpu s I i c Crit).
    + by apply (li_holder s I).
    + by eapply (li_locked s I).
  - intros i Hi. destruct (lookup_lt_is_Some_2 _ _ Hi) as [pc Hp].
    rewrite <- (li_len s I) in Hi. destruct (lookup_lt_is_Some_2 _ _ Hi) as [c Hc].
    destruct (linv_step s i c pc I Hc Hp) as (s' & ? & _). by exists s'.
Qed.

(** Two CPUs: the first enters, the second spins. *)
Definition two_cpus : list cpu := [mkCpu 0 true true; mkCpu 0 true true].

Definition one_entered : lsys :=
  mkLsys (mkSpinlock 1 "lock" (Some 0%nat)) [mkCpu 1 true false; mkCpu 1 true false] [Crit; Spin].

Lemma one_entered_reached : lsteps (linit two_cpus) one_entered.
Proof.
  eapply (lsteps_step _ 0); [reflexivity|]. eapply (lsteps_step _ 1); [reflexivity|].
  eapply (lsteps_step _ 0); [reflexivity|]. eapply (lsteps_step _ 1); [reflexivity|].
  eapply (lsteps_step _ 0); [reflexivity|]. apply lsteps_refl.
Qed.

Lemma mutual_exclusion_witness :
  spcs one_entered = [Crit; Spin] /\
  (forall i j, spcs one_entered !! i = Some Crit -> spcs one_entered !! j = Some Crit -> i = j).
Proof.
  split; [reflexivity|].
  apply (mutual_exclusion two_cpus one_entered); [repeat constructor|exact one_entered_reached].
Defined.
