(* ===== verification/Kalloc.v ===== *)
(** * kernel/kalloc.c: the physical page allocator

    Physical memory maps the address of each page to its 512 64-bit words.  The
    free pages are chained through their first word, as [struct run] overlays
    them.  [end_] is the first address after the kernel. *)

From Stdlib Require Import ZArith Lia.
From stdpp Require Import base numbers list gmap strings.
From S2P Require Import Prelude Spinlock.
Open Scope Z_scope.

Definition PGSIZE : Z := 4096.
Definition KERNBASE : Z := 0x80000000.
Definition PHYSTOP : Z := KERNBASE + 128 * 1024 * 1024.
Definition PGROUNDUP (sz : Z) : Z := (sz + PGSIZE - 1) / PGSIZE * PGSIZE.

Record kmem : Type := mkKmem { freelist : Z; pages : gmap Z (list Z) }.

Definition set_freelist v (k : kmem) := mkKmem v (pages k).
Definition set_page pa ws (k : kmem) := mkKmem (freelist k) (<[pa := ws]> (pages k)).

(** [memset(pa, c, PGSIZE)] on a page. *)
Definition filled (c : Z) : list Z := replicate 512 (c * 0x0101010101010101).
Definition memset_page (pa c : Z) : M (kobj kmem) unit :=
  let! k := kget in
  match pages k !! pa with
  | Some _ => kmod (set_page pa (filled c))
  | None => undef "memset"
  end.

(** [r->next], the first word of the page. *)
Definition run_next (r : Z) : M (kobj kmem) Z :=
  let! k := kget in
  match pages k !! r with
  | Some (w :: _) => ret w
  | _ => undef "r->next"
  end.
Definition set_run_next (r v : Z) : M (kobj kmem) unit :=
  let! k := kget in
  match pages k !! r with
  | Some (_ :: ws) => kmod (set_page r (v :: ws))
  | _ => undef "r->next"
  end.

Section Kalloc.
Variable end_ : Z.

Definition kfree (pa : Z) : M (kobj kmem) unit :=
  if decide (pa mod PGSIZE <> 0 \/ pa < end_ \/ pa >= PHYSTOP) then panic "kfree"
  else
    memset_page pa 1 ;;
    acquire the_lock ;;
    let! k := kget in
    set_run_next pa (freelist k) ;;
    kmod (set_freelist pa) ;;
    release the_lock.

Definition kalloc : M (kobj kmem) Z :=
  acquire the_lock ;;
  let! k := kget in
  let r := freelist k in
  (if decide (r <> 0) then
     let! next := run_next r in
     kmod (set_freelist next)
   else ret tt) ;;
  release the_lock ;;
  (if decide (r <> 0) then memset_page r 5 else ret tt) ;;
  ret r.

(** The pages from [p] up to [pa_end], in the order the loop frees them. *)
Definition freerange (pa_start pa_end : Z) : M (kobj kmem) unit :=
  let p := PGROUNDUP pa_start in
  for_each (zrange 0 ((pa_end - p) / PGSIZE)) (fun i => kfree (p + i * PGSIZE)).

Definition kinit : M (kobj kmem) unit :=
  initlock the_lock "kmem" ;;
  freerange end_ PHYSTOP.

(** ** The free list *)

(** A page the allocator manages. *)
Definition valid_page (pa : Z) : Prop := pa mod PGSIZE = 0 /\ end_ <= pa < PHYSTOP.

(** The chain of free pages from [r], with [ps] its pages in order. *)
Fixpoint chain (m : gmap Z (list Z)) (r : Z) (ps : list Z) : Prop :=
  match ps with
  | [] => r = 0
  | p :: ps' => r = p /\ exists w ws, m !! p = Some (w :: ws) /\ chain m w ps'
  end.

(** The allocator at rest with free pages [ps]. *)
Record kmem_ok (s : kobj kmem) (ps : list Z) : Prop := {
  ko_quiet : quiet s;
  ko_chain : chain (pages (kdata s)) (freelist (kdata s)) ps;
  ko_nodup : NoDup ps;
  ko_valid : Forall valid_page ps;
  ko_mapped : forall pa, valid_page pa -> exists w ws, pages (kdata s) !! pa = Some (w :: ws) }.

Hypothesis end_pos : 0 < end_.

Lemma valid_nonzero pa : valid_page pa -> pa <> 0.
Proof using end_pos. intros [_ ?]. lia. Qed.

Lemma chain_insert m r ps pa ws : pa ∉ ps -> chain m r ps -> chain (<[pa := ws]> m) r ps.
Proof.
  revert r. induction ps as [|p ps IH]; intros r Hn; simpl; [done|].
  intros [-> (w & ws' & Hm & Hc)]. split; [done|]. exists w, ws'.
  rewrite lookup_insert_ne by (intros ->; apply Hn; left). split; [done|]. apply IH; [|done].
  intros Hin. apply Hn. by right.
Qed.

Lemma pages_insert (m : gmap Z (list Z)) pa w ws :
  (forall p, valid_page p -> exists w ws, m !! p = Some (w :: ws)) ->
  forall p, valid_page p -> exists w' ws', (<[pa := w :: ws]> m) !! p = Some (w' :: ws').
Proof.
  intros Hm p Hp. destruct (decide (pa = p)) as [->|Hne].
  - exists w, ws. by rewrite lookup_insert_eq.
  - rewrite lookup_insert_ne by done. by apply Hm.
Qed.

Lemma filled_cons c : exists w ws, filled c = w :: ws.
Proof. unfold filled. simpl. by eexists _, _. Qed.

(** The state after [pa], not on the free list, has been filled with [c]. *)
Lemma memset_page_run s ps pa c :
  kmem_ok s ps -> valid_page pa -> pa ∉ ps ->
  let s' := mkK (kme s) (kcpu s) (klock s) (set_page pa (filled c) (kdata s)) (kwoken s) in
  memset_page pa c s = Ok tt s' /\ kmem_ok s' ps.
Proof.
  intros [Hq Hc Hn Hv Hm] Hp Hni s'. split.
  - unfold memset_page, kget, gets, bind, kmod, modify.
    destruct (Hm pa Hp) as (w & ws & ->). done.
  - destruct (filled_cons c) as (w & ws & Hf). split; simpl; try done.
    + by apply chain_insert.
    + rewrite Hf. by apply pages_insert.
Qed.

Lemma kfree_ok s ps pa :
  kmem_ok s ps -> valid_page pa -> pa ∉ ps ->
  exists s' ws, kfree pa s = Ok tt s' /\ kmem_ok s' (pa :: ps) /\
    pages (kdata s') = <[pa := ws]> (pages (kdata s)).
Proof.
  intros Hok Hp Hni. unfold kfree.
  rewrite decide_False by (destruct Hp; lia).
  destruct (memset_page_run s ps pa 1 Hok Hp Hni) as [Hrun [Hq Hc Hn Hv Hm]].
  rewrite (bind_ok _ _ _ _ _ Hrun). set (s1 := mkK _ _ _ _ _) in *.
  rewrite (bind_ok _ _ _ _ _ (kacquire s1 Hq)).
  unfold set_run_next. ksteps. destruct (Hm pa Hp) as (w & ws & Hw). rewrite Hw. ksteps.
  rewrite (krelease s1 _ _ Hq). eexists _, _. split; [done|].
  split; [|simpl; by rewrite insert_insert_eq].
  split; simpl; try done.
  - split; [done|]. eexists _, _. rewrite lookup_insert_eq. split; [done|].
    apply chain_insert; [done|]. exact Hc.
  - by constructor.
  - by constructor.
  - by apply pages_insert.
Qed.

Lemma kalloc_first s p ps :
  kmem_ok s (p :: ps) ->
  exists s', kalloc s = Ok p s' /\ kmem_ok s' ps /\ p ∉ ps /\ valid_page p /\
             pages (kdata s') = <[p := filled 5]> (pages (kdata s)).
Proof using end_pos.
  intros Hok. pose proof Hok as [Hq Hc Hn Hv Hm]. unfold kalloc.
  rewrite (bind_ok _ _ _ _ _ (kacquire s Hq)). ksteps.
  destruct Hc as [Hr (w & ws & Hw & Hc)]. apply Forall_cons in Hv as [Hp Hv].
  apply NoDup_cons in Hn as [Hni Hn]. pose proof (valid_nonzero p Hp).
  rewrite Hr, !decide_True by done. unfold run_next. ksteps. rewrite Hw. ksteps.
  rewrite (bind_ok _ _ _ _ _ (krelease s _ _ Hq)).
  assert (kmem_ok (mkK (kme s) (kcpu s) (klock s) (set_freelist w (kdata s)) (kwoken s)) ps)
    as Hok1 by (by split).
  destruct (memset_page_run _ ps p 5 Hok1 Hp Hni) as [Hrun Hok2].
  simpl in Hrun. rewrite (bind_ok _ _ _ _ _ Hrun). eexists. split; [done|].
  split; [done|]. split; [done|]. split; [done|]. done.
Qed.

Lemma kalloc_none s : kmem_ok s [] -> kalloc s = Ok 0 s.
Proof.
  intros [Hq Hc _ _ _]. unfold kalloc. simpl in Hc.
  rewrite (bind_ok _ _ _ _ _ (kacquire s Hq)). ksteps. rewrite Hc, !decide_False by lia.
  ksteps. rewrite (bind_ok _ _ _ _ _ (krelease s _ _ Hq)). by destruct s.
Qed.

(** kalloc hands out each free page once: with free pages p :: ps it returns
    p, filled with junk, and leaves exactly ps free (so p cannot be handed out
    again until it is freed); with none it returns 0 and changes nothing. *)
Theorem kalloc_takes_first s ps :
  kmem_ok s ps ->
  match ps with
  | [] => kalloc s = Ok 0 s
  | p :: ps' =>
      exists s', kalloc s = Ok p s' /\ kmem_ok s' ps' /\ p ∉ ps' /\ valid_page p /\
                 pages (kdata s') !! p = Some (filled 5)
  end.
Proof using end_pos.
  intros Hok. destruct ps as [|p ps]; [by apply kalloc_none|].
  destruct (kalloc_first s p ps Hok) as (s' & ? & ? & ? & ? & Hp). exists s'. rewrite Hp, lookup_insert_eq. done.
Qed.

(** kfree of a page of the managed range that is not free adds it in front of
    the free list, so that the next kalloc returns it; kfree of an address that is
    misaligned or outside the range panics. *)
Lemma kfree_kalloc_roundtrip s ps pa :
  kmem_ok s ps -> pa ∉ ps ->
  (valid_page pa -> exists s1 s2,
     kfree pa s = Ok tt s1 /\ kmem_ok s1 (pa :: ps) /\ kalloc s1 = Ok pa s2 /\ kmem_ok s2 ps) /\
  (~ valid_page pa -> kfree pa s = Fault (Panic "kfree")).
Proof using end_pos.
  intros Hok Hni. split.
  - intros Hp. destruct (kfree_ok s ps pa Hok Hp Hni) as (s1 & ws & Hf & Hok1 & _).
    destruct (kalloc_first s1 pa ps Hok1) as (s2 & Ha & Hok2 & _). by exists s1, s2.
  - intros Hp. unfold kfree. rewrite decide_True; [done|]. unfold valid_page in Hp. lia.
Qed.

(** Freeing the pages [p, p + n * PGSIZE) one after the other. *)
Lemma freerange_ok s ps p n :
  0 <= n -> p mod PGSIZE = 0 -> end_ <= p -> p + n * PGSIZE <= PHYSTOP ->
  kmem_ok s ps -> (forall q, q ∈ ps -> q < p) ->
  exists s', for_each (zrange 0 n) (fun i => kfree (p + i * PGSIZE)) s = Ok tt s' /\
    kmem_ok s' (reverse (map (fun i => p + i * PGSIZE) (zrange 0 n)) ++ ps).
Proof using end_pos.
  intros Hn Hal He Hs Hok Hps. unfold PGSIZE in *.
  destruct (for_each_inv (fun done s' => kmem_ok s'
     (reverse (map (fun i => p + i * 4096) done) ++ ps))
     (fun i => kfree (p + i * 4096)) (zrange 0 n) s) as (s' & Hrun & Hinv); [done| |by exists s'].
  intros dn i rest s0 Hl Hok0.
  assert (0 <= i < n) as Hi by (apply elem_of_zrange; rewrite Hl; set_solver).
  destruct (kfree_ok s0 _ (p + i * 4096) Hok0) as (s1 & ws & Hf & Hok1 & _).
  - split; [|unfold PHYSTOP in *; lia]. unfold PGSIZE. by rewrite Z.mod_add.
  - rewrite elem_of_app, elem_of_reverse. intros [Hin|Hin]; [|apply Hps in Hin; lia].
    apply list_elem_of_fmap in Hin as (j & Hj & Hin). assert (j = i) as -> by lia.
    pose proof (NoDup_seqZ 0 (n - 0)) as Hnd. unfold zrange in Hl. rewrite Hl in Hnd.
    apply NoDup_app in Hnd as (_ & Hd & _). apply (Hd i Hin). left.
  - exists s1. split; [done|]. rewrite map_app, reverse_app. simpl. exact Hok1.
Qed.

Lemma pgroundup_spec x : 0 <= x ->
  PGROUNDUP x mod PGSIZE = 0 /\ x <= PGROUNDUP x < x + PGSIZE.
Proof.
  intros Hx. unfold PGROUNDUP, PGSIZE. split; [apply Z.mod_mul; lia|].
  pose proof (Z.div_mod (x + 4096 - 1) 4096 ltac:(lia)).
  pose proof (Z.mod_pos_bound (x + 4096 - 1) 4096 ltac:(lia)). lia.
Qed.

Lemma kinit_run s :
  end_ <= PHYSTOP -> cpu_ok (kcpu s) -> freelist (kdata s) = 0 ->
  (forall pa, valid_page pa -> exists w ws, pages (kdata s) !! pa = Some (w :: ws)) ->
  exists s' ps, kinit s = Ok tt s' /\ kmem_ok s' ps /\ forall pa, pa ∈ ps <-> valid_page pa.
Proof using end_pos.
  intros He Hc Hf Hm. unfold kinit, freerange.
  destruct (pgroundup_spec end_ ltac:(lia)) as [Hal Hr]. set (p := PGROUNDUP end_) in *.
  assert (PHYSTOP mod PGSIZE = 0) as Hpa by reflexivity.
  assert (p <= PHYSTOP) as Hle.
  { unfold PGSIZE in *. apply Z.mod_divide in Hal as [a Ha]; [|lia]. apply Z.mod_divide in Hpa as [b Hb]; [|lia]. lia. }
  destruct (freerange_ok (mkK (kme s) (kcpu s) (mkSpinlock 0 "kmem" None) (kdata s) (kwoken s)) []
              p ((PHYSTOP - p) / PGSIZE)) as (s' & Hrun & Hok).
  - apply Z.div_pos; unfold PGSIZE; lia.
  - done.
  - lia.
  - pose proof (Z.mul_div_le (PHYSTOP - p) PGSIZE). unfold PGSIZE in *. lia.
  - split; simpl; try done. constructor.
  - by intros q Hq%not_elem_of_nil.
  - exists s'. eexists. split; [exact Hrun|]. split; [exact Hok|]. intros pa.
    rewrite app_nil_r, elem_of_reverse. split.
    + intros (i & -> & Hi%elem_of_zrange)%list_elem_of_fmap.
      pose proof (Z.mul_div_le (PHYSTOP - p) PGSIZE). unfold PGSIZE in *.
      split; [by rewrite Z.mod_add|]. unfold PGSIZE. lia.
    + intros [Hpal Hrange]. apply list_elem_of_fmap. unfold PGSIZE in *.
      apply Z.mod_divide in Hal as [a Ha]; [|lia]. apply Z.mod_divide in Hpal as [b Hb]; [|lia].
      apply Z.mod_divide in Hpa as [c Hc']; [|lia].
      exists (b - a). split; [lia|]. apply elem_of_zrange.
      replace (PHYSTOP - p) with ((c - a) * 4096) by lia. rewrite Z.div_mul by lia. lia.
Qed.

(** kinit frees every page of memory above the kernel exactly once: the free
    list ends up holding, without duplicates, exactly the page-aligned addresses
    from [end] to PHYSTOP. *)
Lemma kinit_frees_all s :
  end_ <= PHYSTOP -> cpu_ok (kcpu s) -> freelist (kdata s) = 0 ->
  (forall pa, valid_page pa -> exists w ws, pages (kdata s) !! pa = Some (w :: ws)) ->
  exists s' ps, kinit s = Ok tt s' /\ kmem_ok s' ps /\ forall pa, pa ∈ ps <-> valid_page pa.
Proof using end_pos. apply kinit_run. Qed.
End Kalloc.

(** ** A memory of two pages above the kernel *)
Definition end2 : Z := PHYSTOP - 2 * PGSIZE - 100.
Definition kmem2 : kobj kmem :=
  mkK 0 (mkCpu 0 true true) (mkSpinlock 0 "" None)
    (mkKmem 0 (<[PHYSTOP - 2 * PGSIZE := filled 0]> (<[PHYSTOP - PGSIZE := filled 0]> empty))) [].

Lemma valid_end2 pa : valid_page end2 pa -> pa = PHYSTOP - 2 * PGSIZE \/ pa = PHYSTOP - PGSIZE.
Proof.
  intros [Hal Hr]. unfold end2, PHYSTOP, KERNBASE, PGSIZE in *.
  apply Z.mod_divide in Hal as [b Hb]; [|lia]. lia.
Qed.

Lemma kmem2_mapped pa :
  valid_page end2 pa -> exists w ws, pages (kdata kmem2) !! pa = Some (w :: ws).
Proof. intros [->| ->]%valid_end2; vm_compute; by eexists _, _. Qed.


Definition kmem2_ready : kobj kmem :=
  mkK 0 (mkCpu 0 true true) (mkSpinlock 0 "" None)
    (mkKmem (PHYSTOP - PGSIZE) (<[PHYSTOP - 2 * PGSIZE := filled 1]>
       (<[PHYSTOP - PGSIZE := 0 :: replicate 511 0x0101010101010101]> empty))) [].

Lemma kmem2_ready_ok : kmem_ok end2 kmem2_ready [PHYSTOP - PGSIZE].
Proof.
  split; simpl.
  - split; [by left|done].
  - split; [done|]. exists 0. eexists. split; [vm_compute; done|done].
  - apply NoDup_singleton.
  - repeat constructor; vm_compute; try done; by intros.
  - intros pa [->| ->]%valid_end2; vm_compute; by eexists _, _.
Qed.


