(* ===== verification/Vm.v ===== *)
(** * kernel/vm.c: page tables and user memory

    The routines run on the physical memory of [Kalloc]: a map from page addresses to
    512 64-bit words, with the allocator's free list inside it.  A page table is the
    address of such a page; the address of an entry is an ordinary address, 0 the null
    pointer.  Kernel addresses are physical ones, as the kernel maps memory one to one. *)

From Stdlib Require Import ZArith Lia.
From stdpp Require Import base numbers list gmap strings.
From S2P Require Import Prelude Spinlock Kalloc.
Open Scope Z_scope.

Notation K := (kobj kmem).

(** ** riscv.h *)

Definition PTE_V : Z := Z.shiftl 1 0.
Definition PTE_R : Z := Z.shiftl 1 1.
Definition PTE_W : Z := Z.shiftl 1 2.
Definition PTE_X : Z := Z.shiftl 1 3.
Definition PTE_U : Z := Z.shiftl 1 4.
Definition PA2PTE (pa : Z) : Z := u64 (Z.shiftl (Z.shiftr pa 12) 10).
Definition PTE2PA (pte : Z) : Z := u64 (Z.shiftl (Z.shiftr pte 10) 12).
Definition PTE_FLAGS (pte : Z) : Z := Z.land pte 0x3FF.
Definition PXSHIFT (level : Z) : Z := 12 + 9 * level.
Definition PX (level va : Z) : Z := Z.land (Z.shiftr va (PXSHIFT level)) 0x1FF.
Definition MAXVA : Z := Z.shiftl 1 (9 + 9 + 9 + 12 - 1).
Definition PGROUNDDOWN (a : Z) : Z := Z.land a (Z.lnot (PGSIZE - 1)).
Definition PGROUNDUP64 (sz : Z) : Z := Z.land (u64 (sz + PGSIZE - 1)) (Z.lnot (PGSIZE - 1)).
Definition has (pte flag : Z) : bool := bool_decide (Z.land pte flag <> 0).

(** ** Words and bytes of memory *)

Definition load64 (a : Z) : M K Z :=
  let! k := kget in
  from_option "load" (pages k !! PGROUNDDOWN a ≫= fun ws => ws !! Z.to_nat (a mod PGSIZE / 8)).
Definition store64 (a v : Z) : M K unit :=
  let! k := kget in
  let! ws := from_option "store" (pages k !! PGROUNDDOWN a) in
  kmod (set_page (PGROUNDDOWN a) (<[Z.to_nat (a mod PGSIZE / 8) := u64 v]> ws)).

(** The byte [i] of a little-endian word. *)
Definition get_byte (w i : Z) : Z := Z.land (Z.shiftr w (8 * i)) 255.
Definition put_byte (w i v : Z) : Z :=
  Z.lor (Z.land w (Z.lnot (Z.shiftl 255 (8 * i)))) (Z.shiftl (u8 v) (8 * i)).
Definition load8 (a : Z) : M K Z :=
  let! w := load64 (a - a mod 8) in ret (get_byte w (a mod 8)).
Definition store8 (a v : Z) : M K unit :=
  let! w := load64 (a - a mod 8) in store64 (a - a mod 8) (put_byte w (a mod 8) v).

(** memmove copies the bytes of the source as they are at the call. *)
Fixpoint load_bytes (a : Z) (n : nat) : M K (list Z) :=
  match n with
  | O => ret []
  | S n' => let! b := load8 a in let! bs := load_bytes (a + 1) n' in ret (b :: bs)
  end.
Fixpoint store_bytes (a : Z) (bs : list Z) : M K unit :=
  match bs with [] => ret tt | b :: rest => store8 a b ;; store_bytes (a + 1) rest end.
Definition memmove (dst src n : Z) : M K unit :=
  let! bs := load_bytes src (Z.to_nat n) in store_bytes dst bs.
(** memmove of a whole page. *)
Definition memmove_page (dst src : Z) : M K unit :=
  let! k := kget in
  let! ws := from_option "memmove" (pages k !! src) in
  let! _ := from_option "memmove" (pages k !! dst) in
  kmod (set_page dst ws).

(** [for (a = lo; a < hi; a += PGSIZE)]. *)
Definition pages_from (lo hi : Z) : list Z :=
  (fun i => lo + i * PGSIZE) <$> zrange 0 ((hi - lo + PGSIZE - 1) / PGSIZE).

Section Vm.
Variable end_ : Z.
Let kfree := kfree end_.

(** ** Walking a page table *)

(** The loop over the levels 2 and 1. *)
Fixpoint walk_loop (levels : list Z) (pagetable va : Z) (alloc : bool) : M K Z :=
  match levels with
  | [] => ret (pagetable + 8 * PX 0 va)
  | level :: rest =>
      let pte := pagetable + 8 * PX level va in
      let! w := load64 pte in
      if has w PTE_V then walk_loop rest (PTE2PA w) va alloc
      else if negb alloc then ret 0
      else
        let! pagetable := kalloc in
        if decide (pagetable = 0) then ret 0
        else
          memset_page pagetable 0 ;;
          store64 pte (Z.lor (PA2PTE pagetable) PTE_V) ;;
          walk_loop rest pagetable va alloc
  end.
Definition walk (pagetable va : Z) (alloc : bool) : M K Z :=
  if decide (va >= MAXVA) then panic "walk" else walk_loop [2; 1] pagetable va alloc.

Definition walkaddr (pagetable va : Z) : M K Z :=
  if decide (va >= MAXVA) then ret 0
  else
    let! pte := walk pagetable va false in
    if decide (pte = 0) then ret 0
    else
      let! w := load64 pte in
      if negb (has w PTE_V) then ret 0
      else if negb (has w PTE_U) then ret 0
      else ret (PTE2PA w).

Definition ismapped (pagetable va : Z) : M K bool :=
  let! pte := walk pagetable va false in
  if decide (pte = 0) then ret false
  else let! w := load64 pte in ret (has w PTE_V).

(** ** Mapping *)

(** One turn per page: the fuel of [mappages] is enough. *)
Fixpoint mappages_loop (fuel : nat) (pagetable a last pa perm : Z) : M K Z :=
  match fuel with
  | O => fun _ => Fault OutOfFuel
  | S fuel' =>
      let! pte := walk pagetable a true in
      if decide (pte = 0) then ret (-1)
      else
        let! w := load64 pte in
        if has w PTE_V then panic "mappages: remap"
        else
          store64 pte (Z.lor (Z.lor (PA2PTE pa) perm) PTE_V) ;;
          if decide (a = last) then ret 0
          else mappages_loop fuel' pagetable (u64 (a + PGSIZE)) last (u64 (pa + PGSIZE)) perm
  end.
Definition mappages (pagetable va size pa perm : Z) : M K Z :=
  if decide (va mod PGSIZE <> 0) then panic "mappages: va not aligned"
  else if decide (size mod PGSIZE <> 0) then panic "mappages: size not aligned"
  else if decide (size = 0) then panic "mappages: size"
  else mappages_loop (Z.to_nat (size / PGSIZE)) pagetable va (u64 (va + size - PGSIZE)) pa perm.

Definition kvmmap (kpgtbl va pa sz perm : Z) : M K unit :=
  let! r := mappages kpgtbl va sz pa perm in
  if decide (r <> 0) then panic "kvmmap" else ret tt.

Definition uvmcreate : M K Z :=
  let! pagetable := kalloc in
  if decide (pagetable = 0) then ret 0
  else memset_page pagetable 0 ;; ret pagetable.

(** ** Unmapping and resizing *)

Definition unmap_page (pagetable a : Z) (do_free : bool) : M K unit :=
  let! pte := walk pagetable a false in
  if decide (pte = 0) then ret tt
  else
    let! w := load64 pte in
    if negb (has w PTE_V) then ret tt
    else
      (if do_free then kfree (PTE2PA w) else ret tt) ;;
      store64 pte 0.
Definition uvmunmap (pagetable va npages : Z) (do_free : bool) : M K unit :=
  if decide (va mod PGSIZE <> 0) then panic "uvmunmap: not aligned"
  else for_each (pages_from va (u64 (va + u64 npages * PGSIZE)))
         (fun a => unmap_page pagetable a do_free).

Definition uvmdealloc (pagetable oldsz newsz : Z) : M K Z :=
  if decide (newsz >= oldsz) then ret oldsz
  else
    (if decide (PGROUNDUP64 newsz < PGROUNDUP64 oldsz) then
       uvmunmap pagetable (PGROUNDUP64 newsz)
         (i32 ((PGROUNDUP64 oldsz - PGROUNDUP64 newsz) / PGSIZE)) true
     else ret tt) ;;
    ret newsz.

Definition alloc_page (pagetable oldsz xperm a : Z) : M K (option Z) :=
  let! mem := kalloc in
  if decide (mem = 0) then uvmdealloc pagetable a oldsz ;; ret (Some 0)
  else
    memset_page mem 0 ;;
    let! r := mappages pagetable a PGSIZE mem (Z.lor (Z.lor PTE_R PTE_U) xperm) in
    if decide (r <> 0) then kfree mem ;; uvmdealloc pagetable a oldsz ;; ret (Some 0)
    else ret None.
Definition uvmalloc (pagetable oldsz newsz xperm : Z) : M K Z :=
  if decide (newsz < oldsz) then ret oldsz
  else
    let oldsz := PGROUNDUP64 oldsz in
    let! r := for_until (pages_from oldsz newsz) (alloc_page pagetable oldsz xperm) in
    ret (default newsz r).

(** ** Freeing and copying an address space *)

(** A table has at most three levels, the depth given by [uvmfree]. *)
Fixpoint freewalk (depth : nat) (pagetable : Z) : M K unit :=
  match depth with
  | O => fun _ => Fault OutOfFuel
  | S depth' =>
      for_each (zrange 0 512) (fun i =>
        let! pte := load64 (pagetable + 8 * i) in
        if has pte PTE_V then
          if has pte (Z.lor (Z.lor PTE_R PTE_W) PTE_X) then panic "freewalk: leaf"
          else freewalk depth' (PTE2PA pte) ;; store64 (pagetable + 8 * i) 0
        else ret tt) ;;
      kfree pagetable
  end.
Definition uvmfree (pagetable sz : Z) : M K unit :=
  (if decide (sz > 0) then uvmunmap pagetable 0 (PGROUNDUP64 sz / PGSIZE) true else ret tt) ;;
  freewalk 3 pagetable.

Definition copy_page (old new i : Z) : M K (option Z) :=
  let err := uvmunmap new 0 (i / PGSIZE) true ;; ret (Some (-1)) in
  let! pte := walk old i false in
  if decide (pte = 0) then ret None
  else
    let! w := load64 pte in
    if negb (has w PTE_V) then ret None
    else
      let! mem := kalloc in
      if decide (mem = 0) then err
      else
        memmove_page mem (PTE2PA w) ;;
        let! r := mappages new i PGSIZE mem (PTE_FLAGS w) in
        if decide (r <> 0) then kfree mem ;; err else ret None.
Definition uvmcopy (old new sz : Z) : M K Z :=
  let! r := for_until (pages_from 0 sz) (copy_page old new) in
  ret (default 0 r).

Definition uvmclear (pagetable va : Z) : M K unit :=
  let! pte := walk pagetable va false in
  if decide (pte = 0) then panic "uvmclear"
  else let! w := load64 pte in store64 pte (Z.land w (Z.lnot PTE_U)).

(** ** Page tables of the kernel and of a process *)

Definition TRAMPOLINE : Z := MAXVA - PGSIZE.
Definition TRAPFRAME : Z := TRAMPOLINE - PGSIZE.
Definition KSTACK (i : Z) : Z := TRAMPOLINE - (i + 1) * 2 * PGSIZE.
Definition UART0 : Z := 0x10000000.
Definition VIRTIO0 : Z := 0x10001000.
Definition PLIC : Z := 0x0c000000.

Definition proc_mapstacks (kpgtbl : Z) : M K unit :=
  for_each (zrange 0 64) (fun i =>
    let! pa := kalloc in
    if decide (pa = 0) then panic "kalloc"
    else kvmmap kpgtbl (KSTACK i) pa PGSIZE (Z.lor PTE_R PTE_W)).

(** [etext] and [trampoline] are addresses the linker sets. *)
Definition kvmmake (etext trampoline : Z) : M K Z :=
  let! kpgtbl := kalloc in
  memset_page kpgtbl 0 ;;
  kvmmap kpgtbl UART0 UART0 PGSIZE (Z.lor PTE_R PTE_W) ;;
  kvmmap kpgtbl VIRTIO0 VIRTIO0 PGSIZE (Z.lor PTE_R PTE_W) ;;
  kvmmap kpgtbl PLIC PLIC 0x4000000 (Z.lor PTE_R PTE_W) ;;
  kvmmap kpgtbl KERNBASE KERNBASE (etext - KERNBASE) (Z.lor PTE_R PTE_X) ;;
  kvmmap kpgtbl etext etext (PHYSTOP - etext) (Z.lor PTE_R PTE_W) ;;
  kvmmap kpgtbl TRAMPOLINE trampoline PGSIZE (Z.lor PTE_R PTE_X) ;;
  proc_mapstacks kpgtbl ;;
  ret kpgtbl.

Definition proc_pagetable (trampoline trapframe : Z) : M K Z :=
  let! pagetable := uvmcreate in
  if decide (pagetable = 0) then ret 0
  else
    let! r := mappages pagetable TRAMPOLINE PGSIZE trampoline (Z.lor PTE_R PTE_X) in
    if decide (r < 0) then uvmfree pagetable 0 ;; ret 0
    else
      let! r := mappages pagetable TRAPFRAME PGSIZE trapframe (Z.lor PTE_R PTE_W) in
      if decide (r < 0) then
        uvmunmap pagetable TRAMPOLINE 1 false ;;
        uvmfree pagetable 0 ;;
        ret 0
      else ret pagetable.

Definition proc_freepagetable (pagetable sz : Z) : M K unit :=
  uvmunmap pagetable TRAMPOLINE 1 false ;;
  uvmunmap pagetable TRAPFRAME 1 false ;;
  uvmfree pagetable sz.

(** ** Between kernel and user memory *)

(** What vmfault uses of the current process. *)
Record uproc : Type := mkUproc { p_sz : Z; p_pagetable : Z }.
Variable p : uproc.

Definition vmfault (pagetable va : Z) : M K Z :=
  if decide (va >= p_sz p) then ret 0
  else
    let va := PGROUNDDOWN va in
    let! b := ismapped pagetable va in
    if b then ret 0
    else
      let! mem := kalloc in
      if decide (mem = 0) then ret 0
      else
        memset_page mem 0 ;;
        let! r := mappages (p_pagetable p) va PGSIZE mem (Z.lor (Z.lor PTE_W PTE_U) PTE_R) in
        if decide (r <> 0) then kfree mem ;; ret 0 else ret mem.

(** walkaddr, and vmfault where it finds nothing. *)
Definition user_page (pagetable va0 : Z) : M K Z :=
  let! pa0 := walkaddr pagetable va0 in
  if decide (pa0 = 0) then vmfault pagetable va0 else ret pa0.

(** Each turn copies at least one byte: [len] turns are enough. *)
Fixpoint copyout_loop (fuel : nat) (pagetable dstva src len : Z) : M K Z :=
  if decide (len <= 0) then ret 0
  else match fuel with
  | O => fun _ => Fault OutOfFuel
  | S fuel' =>
      let va0 := PGROUNDDOWN dstva in
      if decide (va0 >= MAXVA) then ret (-1)
      else
        let! pa0 := user_page pagetable va0 in
        if decide (pa0 = 0) then ret (-1)
        else
          let! pte := walk pagetable va0 false in
          let! w := load64 pte in
          if negb (has w PTE_W) then ret (-1)
          else
            let n := Z.min (PGSIZE - (dstva - va0)) len in
            memmove (pa0 + (dstva - va0)) src n ;;
            copyout_loop fuel' pagetable (va0 + PGSIZE) (src + n) (len - n)
  end.
Definition copyout (pagetable dstva src len : Z) : M K Z :=
  copyout_loop (Z.to_nat len) pagetable dstva src len.

Fixpoint copyin_loop (fuel : nat) (pagetable dst srcva len : Z) : M K Z :=
  if decide (len <= 0) then ret 0
  else match fuel with
  | O => fun _ => Fault OutOfFuel
  | S fuel' =>
      let va0 := PGROUNDDOWN srcva in
      let! pa0 := user_page pagetable va0 in
      if decide (pa0 = 0) then ret (-1)
      else
        let n := Z.min (PGSIZE - (srcva - va0)) len in
        memmove dst (pa0 + (srcva - va0)) n ;;
        copyin_loop fuel' pagetable (dst + n) (va0 + PGSIZE) (len - n)
  end.
Definition copyin (pagetable dst srcva len : Z) : M K Z :=
  copyin_loop (Z.to_nat len) pagetable dst srcva len.

(** The bytes of one page, up to the NUL: whether it was found. *)
Fixpoint copyinstr_bytes (n : nat) (q dst : Z) : M K bool :=
  match n with
  | O => ret false
  | S n' =>
      let! b := load8 q in
      if decide (b = 0) then store8 dst 0 ;; ret true
      else store8 dst b ;; copyinstr_bytes n' (q + 1) (dst + 1)
  end.
Fixpoint copyinstr_loop (fuel : nat) (pagetable dst srcva max : Z) : M K Z :=
  if decide (max <= 0) then ret (-1)
  else match fuel with
  | O => fun _ => Fault OutOfFuel
  | S fuel' =>
      let va0 := PGROUNDDOWN srcva in
      let! pa0 := walkaddr pagetable va0 in
      if decide (pa0 = 0) then ret (-1)
      else
        let n := Z.min (PGSIZE - (srcva - va0)) max in
        let! got_null := copyinstr_bytes (Z.to_nat n) (pa0 + (srcva - va0)) dst in
        if got_null then ret 0
        else copyinstr_loop fuel' pagetable (dst + n) (va0 + PGSIZE) (max - n)
  end.
Definition copyinstr (pagetable dst srcva max : Z) : M K Z :=
  copyinstr_loop (Z.to_nat max) pagetable dst srcva max.
End Vm.
