(* ===== verification/VmSpec.v ===== *)
(** * Page tables as maps

    A page table in memory is described by the pages its nodes occupy, found by the
    path of indices that leads to them; the entry of an address is then a function of
    the tree, and walk, mappages and the rest are shown to read and change exactly the
    entries they should. *)

From Stdlib Require Import ZArith Lia.
From stdpp Require Import base numbers list gmap strings.
From S2P Require Import Prelude Spinlock Kalloc Vm.
Open Scope Z_scope.

(** ** Bits *)

Lemma pgrounddown_eq a : PGROUNDDOWN a = a - a mod 4096.
Proof.
  unfold PGROUNDDOWN, PGSIZE. change (4096 - 1) with (Z.ones 12). rewrite <- Z.ldiff_land.
  rewrite Z.ldiff_ones_r by lia. rewrite Z.shiftl_mul_pow2, Z.shiftr_div_pow2 by lia. change (2 ^ 12) with 4096.
  pose proof (Z.div_mod a 4096 ltac:(lia)). lia.
Qed.

Lemma PX_eq level va : 0 <= level -> PX level va = va / 2 ^ (12 + 9 * level) mod 512.
Proof.
  intros. unfold PX, PXSHIFT. change 0x1FF with (Z.ones 9). rewrite Z.land_ones by lia.
  by rewrite Z.shiftr_div_pow2 by lia.
Qed.

Lemma PX_range level va : 0 <= level -> 0 <= PX level va < 512.
Proof. intros. rewrite PX_eq by done. apply Z.mod_pos_bound. lia. Qed.

Lemma has_testbit w k : 0 <= k -> has w (Z.shiftl 1 k) = Z.testbit w k.
Proof.
  intros Hk. unfold has. rewrite Z.shiftl_mul_pow2, Z.mul_1_l by lia.
  destruct (Z.testbit w k) eqn:E.
  - apply bool_decide_eq_true. intros H0. apply (f_equal (fun x => Z.testbit x k)) in H0.
    rewrite Z.land_spec, E, Z.pow2_bits_true, Z.bits_0 in H0 by lia. done.
  - apply bool_decide_eq_false. intros []. apply Z.bits_inj'. intros n Hn.
    rewrite Z.land_spec, Z.bits_0. destruct (decide (n = k)) as [->|Hne]; [by rewrite E|].
    rewrite Z.pow2_bits_false by lia. apply andb_false_r.
Qed.

Lemma has_zero f : has 0 f = false.
Proof. unfold has. by rewrite Z.land_0_l. Qed.

(** A page address with flags, and back. *)
Lemma PA2PTE_small pa : 0 <= pa < 2 ^ 56 -> PA2PTE pa = Z.shiftl (Z.shiftr pa 12) 10.
Proof.
  intros Hp. unfold PA2PTE, u64. apply uwrap_small. rewrite Z.shiftl_mul_pow2, Z.shiftr_div_pow2 by lia.
  change (2 ^ 12) with 4096. change (2 ^ 10) with 1024. split.
  - pose proof (Z.div_pos pa 4096). lia.
  - pose proof (Z.div_lt_upper_bound pa 4096 (2 ^ 44)). lia.
Qed.

Lemma PTE2PA_flags pa f :
  0 <= pa < 2 ^ 56 -> pa mod PGSIZE = 0 -> 0 <= f < 1024 -> PTE2PA (Z.lor (PA2PTE pa) f) = pa.
Proof.
  intros Hp Ha Hf. rewrite PA2PTE_small by done. unfold PTE2PA.
  rewrite Z.shiftr_lor, Z.shiftr_shiftl_l by lia. simpl (10 - 10). rewrite Z.shiftl_0_r.
  replace (Z.shiftr f 10) with 0.
  2: { rewrite Z.shiftr_div_pow2 by lia. symmetry. apply Z.div_small. lia. }
  rewrite Z.lor_0_r, Z.shiftl_mul_pow2, Z.shiftr_div_pow2 by lia. unfold u64. change (2 ^ 12) with 4096.
  unfold PGSIZE in Ha. pose proof (Z.div_mod pa 4096 ltac:(lia)). rewrite Ha in *.
  replace (pa / 4096 * 4096) with pa by lia. apply uwrap_small. lia.
Qed.

Lemma PA2PTE_bit pa k : 0 <= pa < 2 ^ 56 -> 0 <= k < 10 -> Z.testbit (PA2PTE pa) k = false.
Proof. intros. rewrite PA2PTE_small by done. apply Z.shiftl_spec_low. lia. Qed.

Lemma has_flags pa f k :
  0 <= pa < 2 ^ 56 -> 0 <= k < 10 -> has (Z.lor (PA2PTE pa) f) (Z.shiftl 1 k) = Z.testbit f k.
Proof. intros. rewrite has_testbit by lia. by rewrite Z.lor_spec, PA2PTE_bit. Qed.

Lemma lor_u64 a b : 0 <= a < 2 ^ 64 -> 0 <= b < 2 ^ 64 -> u64 (Z.lor a b) = Z.lor a b.
Proof.
  intros Ha Hb. unfold u64, uwrap. rewrite <- Z.land_ones, Z.land_lor_distr_l, !Z.land_ones by lia.
  by rewrite !Z.mod_small.
Qed.

Lemma lor_1024 a b : 0 <= a < 1024 -> 0 <= b < 1024 -> 0 <= Z.lor a b < 1024.
Proof.
  intros Ha Hb. assert (Z.lor a b = Z.lor a b mod 2 ^ 10) as ->; [|apply Z.mod_pos_bound; lia].
  rewrite <- Z.land_ones, Z.land_lor_distr_l, !Z.land_ones by lia. by rewrite !Z.mod_small.
Qed.

(** ** Indices of an address *)

Lemma px_page level va : 0 <= level -> PX level va = va / 4096 / 2 ^ (9 * level) mod 512.
Proof.
  intros. rewrite PX_eq by done. rewrite Z.pow_add_r by lia. change (2 ^ 12) with 4096.
  by rewrite Z.div_div by lia.
Qed.

(** The indices identify the page of an address below MAXVA. *)
Lemma px_inj va va' :
  0 <= va < MAXVA -> 0 <= va' < MAXVA ->
  PX 2 va = PX 2 va' -> PX 1 va = PX 1 va' -> PX 0 va = PX 0 va' -> va / 4096 = va' / 4096.
Proof.
  change MAXVA with (2 ^ 38). intros Hv Hv'. rewrite !px_page by lia.
  set (n := va / 4096). set (n' := va' / 4096).
  assert (0 <= n < 2 ^ 26 /\ 0 <= n' < 2 ^ 26) as [Hn Hn'].
  { unfold n, n'. repeat split; try (apply Z.div_pos; lia); apply Z.div_lt_upper_bound; lia. }
  change (2 ^ (9 * 2)) with 262144. change (2 ^ (9 * 1)) with 512. change (2 ^ (9 * 0)) with 1.
  rewrite !Z.div_1_r. clearbody n n'. clear Hv Hv'.
  intros E2 E1 E0. rewrite (Z.mod_small (n / 262144)), (Z.mod_small (n' / 262144)) in E2
    by (split; [apply Z.div_pos; lia|apply Z.div_lt_upper_bound; lia]).
  change 262144 with (512 * 512) in E2. rewrite <- !Z.div_div in E2 by lia.
  pose proof (Z.div_mod n 512 ltac:(lia)). pose proof (Z.div_mod n' 512 ltac:(lia)).
  pose proof (Z.div_mod (n / 512) 512 ltac:(lia)). pose proof (Z.div_mod (n' / 512) 512 ltac:(lia)). lia.
Qed.

(** ** Words of memory *)

Section Memory.
Variable end_ : Z.
Hypothesis end_pos : 0 < end_.
Notation valid_page := (valid_page end_).
Notation kmem_ok := (kmem_ok end_).

Lemma valid_page_small pg : valid_page pg -> 0 <= pg < 2 ^ 56 /\ pg mod 4096 = 0 /\ pg <> 0.
Proof using end_pos.
  intros [Ha Hr]. unfold PHYSTOP, KERNBASE in Hr. split; [lia|]. split; [done|lia].
Qed.

Lemma entry_addr pg i : pg mod 4096 = 0 -> 0 <= i < 512 ->
  PGROUNDDOWN (pg + 8 * i) = pg /\ (pg + 8 * i) mod PGSIZE / 8 = i.
Proof.
  intros Ha Hi. rewrite pgrounddown_eq. unfold PGSIZE.
  assert ((pg + 8 * i) mod 4096 = 8 * i) as ->.
  { rewrite Z.add_mod, Ha, Z.add_0_l, Z.mod_mod by lia. apply Z.mod_small. lia. }
  split; [lia|]. rewrite Z.mul_comm. apply Z.div_mul. lia.
Qed.

Definition with_pages (m : gmap Z (list Z)) (s : K) : K :=
  mkK (kme s) (kcpu s) (klock s) (mkKmem (freelist (kdata s)) m) (kwoken s).
Notation mem s := (pages (kdata s)).

Lemma load64_run s pg i ws w :
  pg mod 4096 = 0 -> mem s !! pg = Some ws -> 0 <= i < 512 -> ws !! Z.to_nat i = Some w ->
  load64 (pg + 8 * i) s = Ok w s.
Proof.
  intros Ha Hm Hi Hw. unfold load64, kget, gets, bind. destruct (entry_addr pg i Ha Hi) as [-> ->].
  rewrite Hm. simpl. by rewrite Hw.
Qed.

Lemma store64_run s pg i ws v :
  pg mod 4096 = 0 -> mem s !! pg = Some ws -> 0 <= i < 512 ->
  store64 (pg + 8 * i) v s = Ok tt (with_pages (<[pg := <[Z.to_nat i := u64 v]> ws]> (mem s)) s).
Proof.
  intros Ha Hm Hi. unfold store64, kget, gets, bind. destruct (entry_addr pg i Ha Hi) as [-> ->].
  rewrite Hm. done.
Qed.

(** Writing a page that is not free leaves the allocator alone. *)
Lemma kmem_ok_write s ps pg ws w0 ws0 :
  kmem_ok s ps -> pg ∉ ps -> ws = w0 :: ws0 -> kmem_ok (with_pages (<[pg := ws]> (mem s)) s) ps.
Proof.
  intros [Hq Hc Hn Hv Hm] Hni ->. split; simpl; try done.
  - by apply chain_insert.
  - by apply pages_insert.
Qed.

(** ** Trees of tables *)

Notation tree := (gmap (list Z) Z).

Definition index (i : Z) : Prop := 0 <= i < 512.

(** The tables of [t] stand in memory: each in a page of its own that is not free, and
    the valid entries of the upper ones point to the next. *)
Record pt_ok (s : K) (ps : list Z) (root : Z) (t : tree) : Prop := {
  pt_mem : kmem_ok s ps;
  pt_root : t !! [] = Some root;
  pt_path : forall q pg, t !! q = Some pg -> (length q <= 2)%nat /\ Forall index q;
  pt_page : forall q pg, t !! q = Some pg -> valid_page pg /\ pg ∉ ps;
  pt_words : forall q pg, t !! q = Some pg -> exists ws, mem s !! pg = Some ws /\ length ws = 512%nat;
  pt_next : forall q pg ws i w, t !! q = Some pg -> (length q < 2)%nat ->
    mem s !! pg = Some ws -> index i -> ws !! Z.to_nat i = Some w ->
    t !! (q ++ [i]) = if has w PTE_V then Some (PTE2PA w) else None;
  pt_up : forall q i, is_Some (t !! (q ++ [i])) -> is_Some (t !! q);
  pt_inj : forall q q' pg, t !! q = Some pg -> t !! q' = Some pg -> q = q' }.

(** The table with the entry of [va], and that entry. *)
Definition leaf (t : tree) (va : Z) : option Z := t !! [PX 2 va; PX 1 va].
Definition pte_at (m : gmap Z (list Z)) (t : tree) (va : Z) : Z :=
  match leaf t va with
  | Some pg => default 0 (m !! pg ≫= fun ws => ws !! Z.to_nat (PX 0 va))
  | None => 0
  end.

Lemma pt_entry s ps root t q pg i :
  pt_ok s ps root t -> t !! q = Some pg -> index i ->
  exists ws w, mem s !! pg = Some ws /\ length ws = 512%nat /\ ws !! Z.to_nat i = Some w /\
    load64 (pg + 8 * i) s = Ok w s.
Proof using end_pos.
  intros T Hq Hi. destruct (pt_words _ _ _ _ T q pg Hq) as (ws & Hm & Hl).
  destruct (lookup_lt_is_Some_2 ws (Z.to_nat i)) as [w Hw]; [unfold index in Hi; lia|].
  destruct (pt_page _ _ _ _ T q pg Hq) as [Hv _]. destruct (valid_page_small pg Hv) as (_ & Ha & _).
  exists ws, w. split_and!; try done. by eapply load64_run.
Qed.

Lemma walk_loop_lookup s ps root t q pg va levels :
  pt_ok s ps root t -> t !! q = Some pg -> q ++ map (fun l => PX l va) levels = [PX 2 va; PX 1 va] ->
  Forall (fun l => 0 <= l) levels ->
  walk_loop levels pg va false s =
    Ok (match leaf t va with Some pg => pg + 8 * PX 0 va | None => 0 end) s.
Proof using end_pos.
  intros T. revert q pg. induction levels as [|l levels IH]; intros q pg Hq Hpath Hl.
  - simpl in Hpath. rewrite app_nil_r in Hpath. subst q. unfold leaf. by rewrite Hq.
  - apply Forall_cons in Hl as [Hl0 Hl].
    destruct (pt_entry s ps root t q pg (PX l va) T Hq (PX_range l va Hl0)) as (ws & w & Hm & _ & Hw & Hload).
    cbn [walk_loop]. cbv zeta. rewrite (bind_ok _ _ _ _ _ Hload).
    assert (length q < 2)%nat as Hlen.
    { apply (f_equal length) in Hpath. rewrite length_app, length_map in Hpath. simpl in Hpath. lia. }
    pose proof (pt_next _ _ _ _ T q pg ws (PX l va) w Hq Hlen Hm (PX_range l va Hl0) Hw) as Hn.
    destruct (has w PTE_V).
    + apply (IH (q ++ [PX l va])); [done| |done]. by rewrite <- app_assoc.
    + simpl. unfold ret. f_equal. unfold leaf. rewrite <- Hpath. simpl.
      destruct (t !! (q ++ PX l va :: map _ levels)) as [pg'|] eqn:E; [|done]. exfalso.
      assert (is_Some (t !! (q ++ [PX l va]))) as [? Hs].
      { clear Hpath IH Hl. revert pg' E. induction levels as [|l' ls IHl] using rev_ind; intros pg' E; [by eexists|].
        rewrite map_app in E. simpl in E. rewrite app_comm_cons, app_assoc in E.
        destruct (pt_up _ _ _ _ T _ _ (mk_is_Some _ _ E)) as [pg2 E2]. by eapply IHl. }
      congruence.
Qed.

Lemma walk_lookup s ps root t va :
  pt_ok s ps root t -> va < MAXVA ->
  walk root va false s = Ok (match leaf t va with Some pg => pg + 8 * PX 0 va | None => 0 end) s.
Proof using end_pos.
  intros T Hva. unfold walk. rewrite decide_False by lia.
  apply (walk_loop_lookup s ps root t [] root); [done|apply T|done|]. repeat constructor; lia.
Qed.

(** ** A table added *)

Lemma filled_zero : filled 0 = replicate 512 0.
Proof. done. Qed.

Definition table_entry (pa : Z) : Z := Z.lor (PA2PTE pa) PTE_V.
Lemma table_entry_ok pa : valid_page pa ->
  u64 (table_entry pa) = table_entry pa /\ has (table_entry pa) PTE_V = true /\ PTE2PA (table_entry pa) = pa.
Proof using end_pos.
  intros Hv. destruct (valid_page_small pa Hv) as (Hb & Ha & _). split_and!.
  - apply lor_u64; [apply uwrap_range; lia|change PTE_V with 1; lia].
  - exact (has_flags pa PTE_V 0 Hb ltac:(lia)).
  - exact (PTE2PA_flags pa 1 Hb Ha ltac:(lia)).
Qed.

Lemma snoc_ne_nil {A} (q : list A) i : q ++ [i] <> [].
Proof. by destruct q. Qed.

(** The tree after a zeroed page [p] has been hung under the entry [i] of [pg]. *)
Lemma pt_ok_grow s s' p ps root t q pg i ws w :
  pt_ok s (p :: ps) root t -> t !! q = Some pg -> (length q < 2)%nat -> index i ->
  mem s !! pg = Some ws -> ws !! Z.to_nat i = Some w -> has w PTE_V = false ->
  kmem_ok s' ps -> mem s' = <[pg := <[Z.to_nat i := table_entry p]> ws]> (<[p := filled 0]> (mem s)) ->
  valid_page p -> p ∉ ps -> pt_ok s' ps root (<[q ++ [i] := p]> t).
Proof using end_pos.
  intros T Hq Hlen Hi Hm Hw Hinv Hk Hm' Hv Hps.
  assert (t !! (q ++ [i]) = None) as Hnone.
  { rewrite (pt_next _ _ _ _ T q pg ws i w) by done. by rewrite Hinv. }
  assert (forall q' pg', t !! q' = Some pg' -> pg' <> p) as Hnp.
  { intros q' pg' Hq' ->. apply (pt_page _ _ _ _ T) in Hq' as [_ Hn]. apply Hn. left. }
  pose proof (pt_words _ _ _ _ T q pg Hq) as (ws0 & Hm0 & Hl). rewrite Hm in Hm0. injection Hm0 as <-.
  assert (forall q' pg', t !! q' = Some pg' -> q' <> q -> mem s' !! pg' = mem s !! pg') as Hsame.
  { intros q' pg' Hq' Hne. rewrite Hm', !lookup_insert_ne; [done| |].
    - symmetry. by eapply Hnp.
    - intros <-. by apply Hne, (pt_inj _ _ _ _ T q' q pg). }
  assert (mem s' !! pg = Some (<[Z.to_nat i := table_entry p]> ws)) as Hpg by (by rewrite Hm', lookup_insert_eq).
  assert (mem s' !! p = Some (filled 0)) as Hp.
  { rewrite Hm', lookup_insert_ne by by eapply Hnp. by rewrite lookup_insert_eq. }
  destruct (table_entry_ok p Hv) as (_ & HV & HP).
  split.
  - done.
  - rewrite lookup_insert_ne by apply snoc_ne_nil. apply T.
  - intros q' pg' [[<- <-]|[_ Hq']]%lookup_insert_Some; [|by eapply pt_path].
    destruct (pt_path _ _ _ _ T q pg Hq). split; [rewrite length_app; simpl; lia|].
    apply Forall_app. split; [done|]. by constructor.
  - intros q' pg' [[<- <-]|[_ Hq']]%lookup_insert_Some; [done|].
    destruct (pt_page _ _ _ _ T q' pg' Hq') as [? Hn]. split; [done|]. intros Hin. apply Hn. by right.
  - intros q' pg' [[<- <-]|[_ Hq']]%lookup_insert_Some; [by eexists|].
    destruct (decide (q' = q)) as [->|Hne].
    + rewrite Hq in Hq'. injection Hq' as <-. eexists. split; [exact Hpg|]. by rewrite length_insert.
    + rewrite (Hsame q' pg' Hq' Hne). by eapply pt_words.
  - intros q' pg' ws' j w' [[<- <-]|[Hne' Hq']]%lookup_insert_Some Hl' Hws' Hj Hw'.
    + rewrite Hp in Hws'. injection Hws' as <-. rewrite filled_zero in Hw'.
      apply lookup_replicate in Hw' as [-> _]. rewrite has_zero.
      rewrite lookup_insert_ne by (intros E; apply (f_equal length) in E; rewrite !length_app in E; simpl in E; lia).
      destruct (t !! ((q ++ [i]) ++ [j])) eqn:E; [|done].
      destruct (pt_up _ _ _ _ T _ _ (mk_is_Some _ _ E)) as [? E2]. congruence.
    + destruct (decide (q' = q)) as [->|Hne].
      * rewrite Hq in Hq'. injection Hq' as <-. rewrite Hpg in Hws'. injection Hws' as <-.
        destruct (decide (j = i)) as [->|Hji].
        -- rewrite list_lookup_insert_eq in Hw' by (rewrite Hl; unfold index in Hi; lia). injection Hw' as <-.
           by rewrite lookup_insert_eq, HV, HP.
        -- rewrite list_lookup_insert_ne in Hw' by (unfold index in *; lia).
           rewrite lookup_insert_ne by (intros E; apply app_inj_tail in E as [_ E]; congruence).
           by eapply pt_next.
      * rewrite (Hsame q' pg' Hq' Hne) in Hws'.
        rewrite lookup_insert_ne by (intros E; apply app_inj_tail in E as [E _]; congruence).
        by eapply pt_next.
  - intros q' j [x Hx]. apply lookup_insert_Some in Hx as [[E _]|[_ Hx]].
    + apply app_inj_tail in E as [<- <-]. rewrite lookup_insert_ne; [by eexists|].
      intros E. apply (f_equal length) in E. rewrite length_app in E. simpl in E. lia.
    + destruct (pt_up _ _ _ _ T q' j (mk_is_Some _ _ Hx)) as [y Hy].
      destruct (decide (q ++ [i] = q')) as [<-|]; [by rewrite lookup_insert_eq; eexists|].
      rewrite lookup_insert_ne by done. by eexists.
  - intros q1 q2 pg' [[<- <-]|[_ H1]]%lookup_insert_Some [[<- E]|[_ H2]]%lookup_insert_Some; [done| | |].
    + by apply Hnp in H2.
    + subst. by apply Hnp in H1.
    + by eapply pt_inj.
Qed.

(** The entries of all addresses are as before. *)
Lemma pte_at_grow s s' p ps root t q pg i ws w va :
  pt_ok s (p :: ps) root t -> t !! q = Some pg -> (length q < 2)%nat -> index i ->
  mem s !! pg = Some ws -> ws !! Z.to_nat i = Some w -> has w PTE_V = false ->
  mem s' = <[pg := <[Z.to_nat i := table_entry p]> ws]> (<[p := filled 0]> (mem s)) ->
  pte_at (mem s') (<[q ++ [i] := p]> t) va = pte_at (mem s) t va.
Proof using end_pos.
  intros T Hq Hlen Hi Hm Hw Hinv Hm'. unfold pte_at, leaf.
  assert (forall q' pg', t !! q' = Some pg' -> pg' <> p) as Hnp.
  { intros q' pg' Hq' ->. apply (pt_page _ _ _ _ T) in Hq' as [_ Hn]. apply Hn. left. }
  destruct (decide (q ++ [i] = [PX 2 va; PX 1 va])) as [E|Hne].
  - rewrite E, lookup_insert_eq. rewrite <- E.
    rewrite (pt_next _ _ _ _ T q pg ws i w) by done. rewrite Hinv. rewrite Hm'.
    rewrite lookup_insert_ne by by eapply Hnp. rewrite lookup_insert_eq, filled_zero.
    change (default 0 (replicate 512 0 !! Z.to_nat (PX 0 va)) = 0).
    rewrite lookup_replicate_2; [done|]. pose proof (PX_range 0 va). lia.
  - rewrite lookup_insert_ne by done. destruct (t !! [PX 2 va; PX 1 va]) as [pg'|] eqn:E; [|done].
    rewrite Hm', !lookup_insert_ne; [done|symmetry; by eapply Hnp|].
    intros <-. pose proof (pt_inj _ _ _ _ T _ _ _ E Hq) as <-. simpl in Hlen. lia.
Qed.

(** [new], taken from the front of the free list, has become tables; pages that are not
    tables have not changed. *)
Record evolves (s : K) (ps : list Z) (t : tree) (s' : K) (ps' : list Z) (t' : tree) (new : list Z) : Prop := {
  ev_free : ps = new ++ ps';
  ev_tree : t ⊆ t';
  ev_new : forall q pg, t' !! q = Some pg -> t !! q = Some pg \/ pg ∈ new;
  ev_frame : forall pg, pg ∉ new -> (forall q, t !! q <> Some pg) -> mem s' !! pg = mem s !! pg }.

Lemma evolves_refl s ps t : evolves s ps t s ps t [].
Proof. split; try done. by left. Qed.

Lemma evolves_trans s1 ps1 t1 s2 ps2 t2 s3 ps3 t3 n1 n2 :
  evolves s1 ps1 t1 s2 ps2 t2 n1 -> evolves s2 ps2 t2 s3 ps3 t3 n2 -> evolves s1 ps1 t1 s3 ps3 t3 (n1 ++ n2).
Proof.
  intros [A1 A2 A3 A5] [B1 B2 B3 B5]. split.
  - by rewrite A1, B1, app_assoc.
  - by transitivity t2.
  - intros q pg Hq. rewrite elem_of_app. destruct (B3 q pg Hq) as [Hq2|]; [|auto]. destruct (A3 q pg Hq2); auto.
  - intros pg Hpg Ht. rewrite not_elem_of_app in Hpg. destruct Hpg as [Hp1 Hp2].
    rewrite B5; [by apply A5|done|]. intros q Hq. destruct (A3 q pg Hq) as [Hq1|]; [by apply (Ht q)|done].
Qed.

(** The same, with no entry of an address changed. *)
Definition grown s ps t s' ps' t' new : Prop :=
  evolves s ps t s' ps' t' new /\ forall va, pte_at (mem s') t' va = pte_at (mem s) t va.

Lemma grown_refl s ps t : grown s ps t s ps t [].
Proof. split; [apply evolves_refl|done]. Qed.

Lemma grown_trans s1 ps1 t1 s2 ps2 t2 s3 ps3 t3 n1 n2 :
  grown s1 ps1 t1 s2 ps2 t2 n1 -> grown s2 ps2 t2 s3 ps3 t3 n2 -> grown s1 ps1 t1 s3 ps3 t3 (n1 ++ n2).
Proof. intros [A1 A2] [B1 B2]. split; [by eapply evolves_trans|]. intros va. by rewrite B2, A2. Qed.

Lemma add_table_run s p ps root t q pg i ws w :
  pt_ok s (p :: ps) root t -> t !! q = Some pg -> (length q < 2)%nat -> index i ->
  mem s !! pg = Some ws -> ws !! Z.to_nat i = Some w -> has w PTE_V = false ->
  exists s1 s', kalloc s = Ok p s1 /\ p <> 0 /\
    (memset_page p 0 ;; store64 (pg + 8 * i) (Z.lor (PA2PTE p) PTE_V)) s1 = Ok tt s' /\
    pt_ok s' ps root (<[q ++ [i] := p]> t) /\ grown s (p :: ps) t s' ps (<[q ++ [i] := p]> t) [p].
Proof using end_pos.
  intros T Hq Hlen Hi Hm Hw Hinv.
  destruct (kalloc_first end_ end_pos s p ps (pt_mem _ _ _ _ T)) as (s1 & Hrun & Hk1 & Hps & Hv & Hm1).
  destruct (memset_page_run end_ s1 ps p 0 Hk1 Hv Hps) as [Hset Hk2].
  set (s2 := mkK _ _ _ _ _) in *.
  destruct (pt_page _ _ _ _ T q pg Hq) as [Hvpg Hpg]. apply not_elem_of_cons in Hpg as [Hne Hpgps].
  destruct (valid_page_small pg Hvpg) as (_ & Ha & _).
  assert (mem s2 = <[p := filled 0]> (mem s)) as Hm2 by (simpl; by rewrite Hm1, insert_insert_eq).
  assert (mem s2 !! pg = Some ws) as Hpg2 by (by rewrite Hm2, lookup_insert_ne).
  destruct (table_entry_ok p Hv) as (Hu & _ & _).
  exists s1. eexists. split; [exact Hrun|]. split; [by apply valid_page_small|]. split.
  { rewrite (bind_ok _ _ _ _ _ Hset). by apply store64_run. }
  fold (table_entry p). rewrite Hu, Hm2.
  assert (exists w0 ws0, <[Z.to_nat i := table_entry p]> ws = w0 :: ws0) as (w0 & ws0 & Hcons).
  { destruct (pt_words _ _ _ _ T q pg Hq) as (ws' & Hm' & Hl). rewrite Hm in Hm'. injection Hm' as <-.
    destruct (<[Z.to_nat i := table_entry p]> ws) eqn:E; [|by eexists _, _].
    apply (f_equal length) in E. rewrite length_insert, Hl in E. discriminate E. }
  set (s' := with_pages _ s2).
  assert (mem s' = <[pg := <[Z.to_nat i := table_entry p]> ws]> (<[p := filled 0]> (mem s))) as Hm' by done.
  assert (kmem_ok s' ps) as Hk'.
  { unfold s'. rewrite <- Hm2. by eapply kmem_ok_write. }
  assert (t !! (q ++ [i]) = None) as Hnone.
  { rewrite (pt_next _ _ _ _ T q pg ws i w) by done. by rewrite Hinv. }
  split; [by eapply (pt_ok_grow s s')|]. split; [|intros va; by eapply (pte_at_grow s s')]. split.
  - done.
  - by apply insert_subseteq.
  - intros q' pg' [[_ <-]|[_ Hq']]%lookup_insert_Some; [right; left|by left].
  - intros pg' Hn Ht. rewrite Hm', !lookup_insert_ne; [done| |].
    + intros <-. apply Hn. left.
    + intros <-. by apply (Ht q).
Qed.

Lemma walk_loop_alloc s ps root t q pg va levels :
  pt_ok s ps root t -> t !! q = Some pg -> q ++ map (fun l => PX l va) levels = [PX 2 va; PX 1 va] ->
  Forall (fun l => 0 <= l) levels ->
  exists r s' ps' t' new, walk_loop levels pg va true s = Ok r s' /\ pt_ok s' ps' root t' /\
    grown s ps t s' ps' t' new /\
    (r = 0 /\ ps' = [] \/ exists pg', leaf t' va = Some pg' /\ r = pg' + 8 * PX 0 va).
Proof using end_pos.
  revert s ps t q pg. induction levels as [|l levels IH]; intros s ps t q pg T Hq Hpath Hl.
  - simpl in Hpath. rewrite app_nil_r in Hpath. subst q.
    exists (pg + 8 * PX 0 va), s, ps, t, []. split_and!; [done|done|apply grown_refl|]. right. by exists pg.
  - apply Forall_cons in Hl as [Hl0 Hl].
    destruct (pt_entry s ps root t q pg (PX l va) T Hq (PX_range l va Hl0)) as (ws & w & Hm & _ & Hw & Hload).
    cbn [walk_loop]. cbv zeta. rewrite (bind_ok _ _ _ _ _ Hload).
    assert (length q < 2)%nat as Hlen.
    { apply (f_equal length) in Hpath. rewrite length_app, length_map in Hpath. simpl in Hpath. lia. }
    assert ((q ++ [PX l va]) ++ map (fun l => PX l va) levels = [PX 2 va; PX 1 va]) as Hpath' by (by rewrite <- app_assoc).
    pose proof (pt_next _ _ _ _ T q pg ws (PX l va) w Hq Hlen Hm (PX_range l va Hl0) Hw) as Hn.
    destruct (has w PTE_V) eqn:HV.
    + by apply (IH s ps t (q ++ [PX l va])).
    + cbn [negb]. destruct ps as [|p ps].
      * rewrite (bind_ok _ _ _ _ _ (kalloc_none end_ s (pt_mem _ _ _ _ T))). rewrite decide_True by done.
        exists 0, s, [], t, []. split_and!; [done|done|apply grown_refl|by left].
      * destruct (add_table_run s p ps root t q pg (PX l va) ws w T Hq Hlen (PX_range l va Hl0) Hm Hw HV)
          as (s1 & s2 & Hal & Hp0 & Hadd & T2 & G2).
        rewrite (bind_ok _ _ _ _ _ Hal). rewrite decide_False by done.
        destruct (IH s2 ps _ (q ++ [PX l va]) p T2 (lookup_insert_eq _ _ _) Hpath' Hl)
          as (r & s' & ps' & t' & new & Hrun & T' & G' & Hr).
        exists r, s', ps', t', ([p] ++ new). split; [|split; [done|split; [by eapply grown_trans|done]]].
        rewrite <- Hrun. rewrite <- (bind_ok _ (fun _ => walk_loop levels p va true) _ _ _ Hadd).
        by rewrite bind_assoc.
Qed.

Lemma walk_alloc s ps root t va :
  pt_ok s ps root t -> va < MAXVA ->
  exists r s' ps' t' new, walk root va true s = Ok r s' /\ pt_ok s' ps' root t' /\
    grown s ps t s' ps' t' new /\
    (r = 0 /\ ps' = [] \/ exists pg', leaf t' va = Some pg' /\ r = pg' + 8 * PX 0 va).
Proof using end_pos.
  intros T Hva. unfold walk. rewrite decide_False by lia.
  apply (walk_loop_alloc s ps root t [] root); [done|apply T|done|]. repeat constructor; lia.
Qed.

(** ** An entry stored *)

Lemma set_leaf_run s ps root t va pg v :
  pt_ok s ps root t -> 0 <= va < MAXVA -> leaf t va = Some pg ->
  exists s', store64 (pg + 8 * PX 0 va) v s = Ok tt s' /\ pt_ok s' ps root t /\
    (forall x, x <> pg -> mem s' !! x = mem s !! x) /\
    (forall va', 0 <= va' < MAXVA ->
       pte_at (mem s') t va' = if decide (va' / 4096 = va / 4096) then u64 v else pte_at (mem s) t va').
Proof using end_pos.
  intros T Hva Hlf. unfold leaf in Hlf. pose proof (PX_range 0 va ltac:(lia)) as H0.
  destruct (pt_page _ _ _ _ T _ _ Hlf) as [Hv Hps]. destruct (valid_page_small pg Hv) as (_ & Ha & _).
  destruct (pt_words _ _ _ _ T _ _ Hlf) as (ws & Hm & Hl).
  eexists. split; [by apply store64_run|]. set (s' := with_pages _ s).
  assert (mem s' = <[pg := <[Z.to_nat (PX 0 va) := u64 v]> ws]> (mem s)) as Hm' by done.
  assert (forall x, x <> pg -> mem s' !! x = mem s !! x) as Hfr.
  { intros x Hx. by rewrite Hm', lookup_insert_ne. }
  assert (mem s' !! pg = Some (<[Z.to_nat (PX 0 va) := u64 v]> ws)) as Hpg by (by rewrite Hm', lookup_insert_eq).
  split; [|split; [done|]].
  - assert (exists w0 ws0, <[Z.to_nat (PX 0 va) := u64 v]> ws = w0 :: ws0) as (w0 & ws0 & Hcons).
    { destruct (<[Z.to_nat (PX 0 va) := u64 v]> ws) eqn:E; [|by eexists _, _].
      apply (f_equal length) in E. rewrite length_insert, Hl in E. discriminate E. }
    destruct T as [T1 T2 T3 T4 T5 T6 T7 T8]. split; try done.
    + by eapply kmem_ok_write.
    + intros q pg' Hq. destruct (decide (pg' = pg)) as [->|Hne].
      * eexists. split; [exact Hpg|]. by rewrite length_insert.
      * rewrite Hfr by done. by eapply T5.
    + intros q pg' ws' i w Hq Hlen Hws. rewrite Hfr in Hws; [by eapply T6|].
      intros ->. pose proof (T8 _ _ _ Hq Hlf) as ->. simpl in Hlen. lia.
  - intros va' Hva'. unfold pte_at, leaf. case_decide as Hsame.
    + assert (forall l, 0 <= l -> PX l va' = PX l va) as Epx by (intros; by rewrite !px_page, Hsame by done).
      rewrite !Epx, Hlf, Hpg by lia. change (default 0 (<[Z.to_nat (PX 0 va):=u64 v]> ws !! Z.to_nat (PX 0 va)) = u64 v).
      rewrite list_lookup_insert_eq; [done|]. lia.
    + destruct (t !! [PX 2 va'; PX 1 va']) as [pg'|] eqn:E; [|done].
      destruct (decide (pg' = pg)) as [->|Hne]; [|by rewrite Hfr].
      pose proof (pt_inj _ _ _ _ T _ _ _ E Hlf) as Epath. injection Epath as E2 E1.
      rewrite Hpg, Hm. change (default 0 (<[Z.to_nat (PX 0 va):=u64 v]> ws !! Z.to_nat (PX 0 va')) = default 0 (ws !! Z.to_nat (PX 0 va'))).
      rewrite list_lookup_insert_ne; [done|]. intros E0. apply Hsame, px_inj; try done.
      pose proof (PX_range 0 va' ltac:(lia)). lia.
Qed.

(** ** mappages *)

(** The entries after the first [k] pages from [a] have been mapped from [pa] on. *)
Definition leaf_entry (pa perm : Z) : Z := Z.lor (Z.lor (PA2PTE pa) perm) PTE_V.
Definition with_range (a k pa perm : Z) (f : Z -> Z) (va : Z) : Z :=
  if decide (a <= va < a + k * 4096) then leaf_entry (pa + (va / 4096 * 4096 - a)) perm else f va.

Lemma leaf_entry_u64 pa perm : 0 <= perm < 1024 -> u64 (leaf_entry pa perm) = leaf_entry pa perm.
Proof.
  intros Hp. assert (0 <= PA2PTE pa < 2 ^ 64) as Hb by (apply uwrap_range; lia).
  assert (u64 (Z.lor (PA2PTE pa) perm) = Z.lor (PA2PTE pa) perm) as E by (apply lor_u64; lia).
  apply lor_u64; [|change PTE_V with 1; lia]. rewrite <- E. apply uwrap_range. lia.
Qed.

Lemma leaf_entry_ok pa perm : 0 <= pa < 2 ^ 56 -> pa mod PGSIZE = 0 -> 0 <= perm < 1024 ->
  has (leaf_entry pa perm) PTE_V = true /\
  has (leaf_entry pa perm) (Z.shiftl 1 4) = has perm (Z.shiftl 1 4) /\ PTE2PA (leaf_entry pa perm) = pa.
Proof.
  intros Hp Ha Hf. unfold leaf_entry. rewrite <- Z.lor_assoc.
  assert (0 <= Z.lor perm PTE_V < 1024) as Hb by (apply lor_1024; [done|change PTE_V with 1; lia]).
  split_and!.
  - change PTE_V with (Z.shiftl 1 0) at 2. rewrite (has_flags pa _ 0 Hp ltac:(lia)), Z.lor_spec. apply orb_true_r.
  - rewrite (has_flags pa _ 4 Hp ltac:(lia)), Z.lor_spec, has_testbit by lia. apply orb_false_r.
  - by apply PTE2PA_flags.
Qed.

Lemma load_leaf s ps root t va pg :
  pt_ok s ps root t -> leaf t va = Some pg ->
  load64 (pg + 8 * PX 0 va) s = Ok (pte_at (mem s) t va) s /\ pg + 8 * PX 0 va <> 0.
Proof using end_pos.
  intros T Hlf. pose proof (PX_range 0 va ltac:(lia)) as Hi. split.
  - destruct (pt_entry s ps root t _ pg (PX 0 va) T Hlf Hi) as (ws & w & Hm & _ & Hw & Hload).
    rewrite Hload. f_equal. unfold pte_at. by rewrite Hlf, Hm; simpl; rewrite Hw.
  - destruct (pt_page _ _ _ _ T _ _ Hlf) as [[_ Hr] _]. lia.
Qed.

Lemma with_range_one a pa perm f va :
  a mod 4096 = 0 -> with_range a 1 pa perm f va = if decide (va / 4096 = a / 4096) then leaf_entry pa perm else f va.
Proof.
  intros Ha. unfold with_range. pose proof (Z.div_mod a 4096 ltac:(lia)). pose proof (Z.div_mod va 4096 ltac:(lia)).
  pose proof (Z.mod_pos_bound va 4096 ltac:(lia)). repeat case_decide; try lia; try done.
  f_equal. lia.
Qed.

Lemma with_range_step a k pa perm f va :
  0 <= k -> a mod 4096 = 0 ->
  with_range (a + 4096) k (pa + 4096) perm (with_range a 1 pa perm f) va = with_range a (k + 1) pa perm f va.
Proof.
  intros Hk Ha. unfold with_range. pose proof (Z.div_mod a 4096 ltac:(lia)). pose proof (Z.div_mod va 4096 ltac:(lia)).
  pose proof (Z.mod_pos_bound va 4096 ltac:(lia)). repeat case_decide; try lia; try done. f_equal. lia.
Qed.

Lemma with_range_ext a k pa perm f g va :
  (f va = g va) -> with_range a k pa perm f va = with_range a k pa perm g va.
Proof. intros E. unfold with_range. by case_decide. Qed.

(** A turn of the loop: it ends for want of a page for a table, or maps the page [a]. *)
Lemma mappages_turn s ps root t a last pa perm fuel :
  pt_ok s ps root t -> 0 <= a < MAXVA -> a mod 4096 = 0 -> 0 <= perm < 1024 ->
  has (pte_at (mem s) t a) PTE_V = false ->
  exists s' ps' t' new, pt_ok s' ps' root t' /\ evolves s ps t s' ps' t' new /\
    (mappages_loop (S fuel) root a last pa perm s = Ok (-1) s' /\ ps' = [] /\
       (forall va, pte_at (mem s') t' va = pte_at (mem s) t va) \/
     mappages_loop (S fuel) root a last pa perm s =
       (if decide (a = last) then ret 0
        else mappages_loop fuel root (u64 (a + PGSIZE)) last (u64 (pa + PGSIZE)) perm) s' /\
       (forall va, 0 <= va < MAXVA -> pte_at (mem s') t' va = with_range a 1 pa perm (pte_at (mem s) t) va)).
Proof using end_pos.
  intros T Ha Hal Hp Hinv. cbn [mappages_loop].
  destruct (walk_alloc s ps root t a T) as (r & s1 & ps' & t' & new & Hrun & T1 & [E1 Hsame] & Hr); [lia|].
  rewrite (bind_ok _ _ _ _ _ Hrun). destruct Hr as [[-> ->]|(pg & Hlf & ->)].
  { exists s1, [], t', new. rewrite decide_True by done. split; [done|]. split; [done|]. by left. }
  destruct (load_leaf s1 ps' root t' a pg T1 Hlf) as [Hload Hnz]. rewrite decide_False by done.
  rewrite (bind_ok _ _ _ _ _ Hload), Hsame, Hinv. fold (leaf_entry pa perm).
  destruct (set_leaf_run s1 ps' root t' a pg (leaf_entry pa perm) T1 Ha Hlf) as (s' & Hst & T2 & Hfr & Hpte).
  rewrite (bind_ok _ _ _ _ _ Hst). exists s', ps', t', new. split; [done|]. split.
  - destruct E1 as [A1 A2 A3 A4]. split; try done. intros x Hx Ht. rewrite Hfr; [by apply A4|].
    intros ->. destruct (A3 _ _ Hlf) as [Hq|Hin]; [by apply (Ht _ Hq)|done].
  - right. split; [done|]. intros va Hva. rewrite Hpte, with_range_one, leaf_entry_u64 by done.
    case_decide; [done|apply Hsame].
Qed.

Lemma mappages_loop_run root perm n s ps t a pa :
  pt_ok s ps root t -> 0 <= perm < 1024 -> 0 <= a -> a mod 4096 = 0 ->
  a + (Z.of_nat n + 1) * 4096 <= MAXVA -> 0 <= pa -> pa + (Z.of_nat n + 1) * 4096 <= 2 ^ 56 ->
  (forall va, a <= va < a + (Z.of_nat n + 1) * 4096 -> has (pte_at (mem s) t va) PTE_V = false) ->
  exists r s' ps' t' new k,
    mappages_loop (S n) root a (a + Z.of_nat n * 4096) pa perm s = Ok r s' /\
    pt_ok s' ps' root t' /\ evolves s ps t s' ps' t' new /\
    (r = 0 /\ k = Z.of_nat n + 1 \/ r = -1 /\ 0 <= k < Z.of_nat n + 1 /\ ps' = []) /\
    forall va, 0 <= va < MAXVA -> pte_at (mem s') t' va = with_range a k pa perm (pte_at (mem s) t) va.
Proof using end_pos.
  revert s ps t a pa. induction n as [|n IH]; intros s ps t a pa T Hp Ha0 Hal Ha Hpa0 Hpa Hfree;
    (edestruct (mappages_turn s ps root t a) as (s1 & ps1 & t1 & new & T1 & E1 & [(Hrun & -> & Hpte)|[Hrun Hpte]]);
     [done|lia|done|exact Hp|apply Hfree; lia| |]; rewrite Hrun;
     [exists (-1), s1, [], t1, new, 0; split_and!; try done; [right; split_and!; (done || lia)|];
      intros va _; rewrite Hpte; unfold with_range; by rewrite decide_False by lia|]).
  - rewrite decide_True by lia. exists 0, s1, ps1, t1, new, 1. split_and!; try done. by left.
  - rewrite decide_False by lia. assert (MAXVA = 2 ^ 38) as HM by done.
    assert (u64 (a + PGSIZE) = a + 4096) as -> by (apply uwrap_small; unfold PGSIZE; lia).
    assert (u64 (pa + PGSIZE) = pa + 4096) as -> by (apply uwrap_small; unfold PGSIZE; lia).
    replace (a + Z.of_nat (S n) * 4096) with (a + 4096 + Z.of_nat n * 4096) by lia.
    destruct (IH s1 ps1 t1 (a + 4096) (pa + 4096)) as (r' & s' & ps' & t' & new' & k & Hrun' & T' & E' & Hr & Hpte');
      try done; [lia|rewrite Z.add_mod, Hal by lia; done|lia|lia|lia| |].
    { intros va Hva. rewrite Hpte by lia. rewrite with_range_one by done.
      rewrite decide_False; [apply Hfree; lia|]. pose proof (Z.div_mod a 4096 ltac:(lia)).
      pose proof (Z.div_mod va 4096 ltac:(lia)). pose proof (Z.mod_pos_bound va 4096 ltac:(lia)). lia. }
    exists r', s', ps', t', (new ++ new'), (k + 1). split; [done|]. split; [done|].
    split; [by eapply evolves_trans|]. split.
    { destruct Hr as [[-> ->]|(-> & ? & ->)]; [left|right]; (split; [done|]); [lia|]. split; [lia|done]. }
    intros va Hva. rewrite Hpte' by done. rewrite <- with_range_step by (done || lia).
    apply with_range_ext. by apply Hpte.
Qed.

(** ** Translation and creation *)

Lemma walkaddr_run s ps root t va :
  pt_ok s ps root t -> 0 <= va < MAXVA ->
  walkaddr root va s = Ok (let w := pte_at (mem s) t va in
    if has w PTE_V && has w PTE_U then PTE2PA w else 0) s.
Proof using end_pos.
  intros T Hva. unfold walkaddr. rewrite decide_False by lia.
  rewrite (bind_ok _ _ _ _ _ (walk_lookup s ps root t va T ltac:(lia))).
  destruct (leaf t va) as [pg|] eqn:Hlf.
  - destruct (load_leaf s ps root t va pg T Hlf) as [Hload Hnz]. rewrite decide_False by done.
    rewrite (bind_ok _ _ _ _ _ Hload). cbv zeta. by destruct (has _ PTE_V), (has _ PTE_U).
  - rewrite decide_True by done. unfold pte_at. by rewrite Hlf, has_zero.
Qed.

Lemma empty_table_ok s ps root :
  kmem_ok s ps -> valid_page root -> root ∉ ps -> mem s !! root = Some (filled 0) ->
  pt_ok s ps root {[[] := root]}.
Proof.
  intros Hk Hv Hps Hm. split; try done.
  - intros q pg [<- _]%lookup_singleton_Some. split; [simpl; lia|constructor].
  - by intros q pg [_ <-]%lookup_singleton_Some.
  - intros q pg [_ <-]%lookup_singleton_Some. by eexists.
  - intros q pg ws i w [<- <-]%lookup_singleton_Some _ Hws Hi Hw. rewrite Hm in Hws. injection Hws as <-.
    rewrite filled_zero in Hw. apply lookup_replicate in Hw as [-> _]. by rewrite has_zero, lookup_singleton_ne.
  - intros q i [x [E _]%lookup_singleton_Some]. by destruct q.
  - intros q q' pg [<- _]%lookup_singleton_Some [<- _]%lookup_singleton_Some. done.
Qed.

(** A new page table maps nothing. *)
Lemma uvmcreate_run s p ps :
  kmem_ok s (p :: ps) ->
  exists s', uvmcreate s = Ok p s' /\ pt_ok s' ps p {[[] := p]} /\
    mem s' = <[p := filled 0]> (mem s) /\ forall va, pte_at (mem s') {[[] := p]} va = 0.
Proof using end_pos.
  intros Hk. unfold uvmcreate.
  destruct (kalloc_first end_ end_pos s p ps Hk) as (s1 & Hrun & Hk1 & Hps & Hv & Hm1).
  rewrite (bind_ok _ _ _ _ _ Hrun). rewrite decide_False by by apply valid_page_small.
  destruct (memset_page_run end_ s1 ps p 0 Hk1 Hv Hps) as [Hset Hk2]. rewrite (bind_ok _ _ _ _ _ Hset).
  eexists. split; [done|]. split; [|split; [simpl; by rewrite Hm1, insert_insert_eq|]].
  - apply empty_table_ok; [done|done|done|]. simpl. by rewrite lookup_insert_eq.
  - intros va. unfold pte_at, leaf. by rewrite lookup_singleton_ne.
Qed.

Lemma mappages_run s ps root t va size pa perm :
  pt_ok s ps root t -> 0 <= va -> va mod PGSIZE = 0 -> 0 < size -> size mod PGSIZE = 0 -> va + size <= MAXVA ->
  0 <= pa -> pa + size <= 2 ^ 56 -> 0 <= perm < 1024 ->
  (forall v, va <= v < va + size -> has (pte_at (mem s) t v) PTE_V = false) ->
  exists r s' ps' t' new k,
    mappages root va size pa perm s = Ok r s' /\ pt_ok s' ps' root t' /\ evolves s ps t s' ps' t' new /\
    (r = 0 /\ k = size / PGSIZE \/ r = -1 /\ 0 <= k < size / PGSIZE /\ ps' = []) /\
    (forall v, 0 <= v < MAXVA -> pte_at (mem s') t' v = with_range va k pa perm (pte_at (mem s) t) v) /\
    (r = 0 -> pa mod PGSIZE = 0 -> has perm PTE_U = true -> forall v, va <= v < va + size ->
       walkaddr root v s' = Ok (pa + (v - v mod PGSIZE - va)) s').
Proof using end_pos.
  unfold PGSIZE. intros T Hva Hal Hsz Hsal Hmax Hpa0 Hpa Hp Hfree.
  pose proof (Z.div_mod size 4096 ltac:(lia)) as Hdm. rewrite Hsal in Hdm.
  set (n := Z.to_nat (size / 4096 - 1)). assert (size = (Z.of_nat n + 1) * 4096) as Hn by lia.
  unfold mappages, PGSIZE. rewrite !decide_False by lia.
  replace (Z.to_nat (size / 4096)) with (S n) by lia.
  assert (MAXVA = 2 ^ 38) as HM by done.
  assert (u64 (va + size - 4096) = va + Z.of_nat n * 4096) as -> by (rewrite Hn; unfold u64; rewrite uwrap_small; lia).
  destruct (mappages_loop_run root perm n s ps t va pa) as (r & s' & ps' & t' & new & k & Hrun & T' & E & Hr & Hpte);
    try done; try lia. { intros v Hv. apply Hfree. lia. }
  exists r, s', ps', t', new, k. split_and!; try done.
  { destruct Hr as [[-> ->]|(-> & ? & ->)]; [left|right]; (split; [done|]); [lia|]. split; [lia|done]. }
  intros -> Hpal HU v Hv. destruct Hr as [[_ ->]|(? & _)]; [|done].
  rewrite (walkaddr_run s' ps' root t' v T') by lia. cbv zeta. rewrite Hpte by lia. unfold with_range.
  rewrite decide_True by lia. f_equal. pose proof (Z.div_mod v 4096 ltac:(lia)).
  pose proof (Z.mod_pos_bound v 4096 ltac:(lia)).
  replace (v - v mod 4096 - va) with (v / 4096 * 4096 - va) by lia.
  set (p := pa + (v / 4096 * 4096 - va)).
  assert (0 <= p < 2 ^ 56) as Hpb by (unfold p; pose proof (Z.div_mod va 4096 ltac:(lia)); lia).
  assert (p mod PGSIZE = 0) as Hpm.
  { unfold p, PGSIZE. replace (pa + (v / 4096 * 4096 - va)) with (pa - va + v / 4096 * 4096) by lia.
    rewrite Z.mod_add, Zminus_mod, Hpal, Hal by lia. done. }
  destruct (leaf_entry_ok p perm Hpb Hpm Hp) as (-> & HUe & ->). unfold PTE_U in *. by rewrite HUe, HU.
Qed.

(** C4: mappages maps a range of pages and nothing else.  On a well-formed three-level
    page table, with an aligned, non-empty range below MAXVA in which nothing is mapped, it
    always returns.  When it returns 0, every page of the range translates to the
    corresponding physical page with exactly the permissions asked for, and every other
    address translates as before; walkaddr then finds the physical address of each user page
    of the range.  When it returns -1 the allocator has run out of pages, and a first part
    of the range is mapped, the rest untouched.  The new tables are pages taken from the
    front of the free list, the tables already there stay, and no other page of memory
    changes. *)
Theorem mappages_maps s ps root t va size pa perm :
  pt_ok s ps root t -> 0 <= va -> va mod PGSIZE = 0 -> 0 < size -> size mod PGSIZE = 0 -> va + size <= MAXVA ->
  0 <= pa -> pa + size <= 2 ^ 56 -> 0 <= perm < 1024 ->
  (forall v, va <= v < va + size -> has (pte_at (mem s) t v) PTE_V = false) ->
  exists r s' ps' t' new k,
    mappages root va size pa perm s = Ok r s' /\ pt_ok s' ps' root t' /\ evolves s ps t s' ps' t' new /\
    (r = 0 /\ k = size / PGSIZE \/ r = -1 /\ 0 <= k < size / PGSIZE /\ ps' = []) /\
    (forall v, 0 <= v < MAXVA -> pte_at (mem s') t' v = with_range va k pa perm (pte_at (mem s) t) v) /\
    (r = 0 -> pa mod PGSIZE = 0 -> has perm PTE_U = true -> forall v, va <= v < va + size ->
       walkaddr root v s' = Ok (pa + (v - v mod PGSIZE - va)) s').
Proof using end_pos. apply mappages_run. Qed.
End Memory.

(** ** A machine with eight pages above the kernel *)

Definition end8 : Z := PHYSTOP - 8 * PGSIZE.
Definition kmem8 : K :=
  mkK 0 (mkCpu 0 true true) (mkSpinlock 0 "" None)
    (mkKmem 0 (list_to_map ((fun i => (PHYSTOP - i * PGSIZE, filled 0)) <$> zrange 1 9))) [].

Lemma kmem8_mapped pa : valid_page end8 pa -> exists w ws, pages (kdata kmem8) !! pa = Some (w :: ws).
Proof.
  intros [Hal Hr]. exists 0, (replicate 511 0). apply elem_of_list_to_map_1.
  - rewrite <- list_fmap_compose. apply (NoDup_fmap_2_strong _ _); [|apply NoDup_seqZ].
    unfold compose, PGSIZE. simpl. intros. lia.
  - apply list_elem_of_fmap. exists ((PHYSTOP - pa) / PGSIZE). unfold end8, PHYSTOP, KERNBASE, PGSIZE in *.
    apply Z.mod_divide in Hal as [b Hb]; [|lia]. subst pa.
    replace (2147483648 + 128 * 1024 * 1024 - b * 4096) with ((557056 - b) * 4096) by lia. rewrite Z.div_mul by lia.
    split; [f_equal; lia|]. apply elem_of_zrange. lia.
Qed.

Lemma boot8 : exists s p ps, kinit end8 kmem8 = Ok tt s /\ kmem_ok end8 s (p :: ps).
Proof.
  destruct (kinit_run end8 ltac:(reflexivity) kmem8) as (s & ps & Hrun & Hk & Hps);
    [by vm_compute|by left|done|exact kmem8_mapped|].
  exists s. destruct ps as [|p ps]; [exfalso|exists p, ps; split; [exact Hrun|exact Hk]].
  assert (PHYSTOP - PGSIZE ∈ ([] : list Z)) as Hin; [|by apply not_elem_of_nil in Hin].
  apply Hps. split; [reflexivity|]. unfold end8, PHYSTOP, KERNBASE, PGSIZE. lia.
Qed.

(** One page mapped at 0x4000 in a page table that has just been created. *)
Lemma mappages_maps_witness :
  exists (s1 s s' : K) root r, kinit end8 kmem8 = Ok tt s1 /\ uvmcreate s1 = Ok root s /\
    mappages root 0x4000 PGSIZE (PHYSTOP - PGSIZE) (Z.lor PTE_R PTE_U) s = Ok r s' /\
    (r = 0 -> walkaddr root 0x4123 s' = Ok (PHYSTOP - PGSIZE) s').
Proof.
  destruct boot8 as (s1 & p & ps & Hrun & Hk).
  destruct (uvmcreate_run end8 ltac:(reflexivity) s1 p ps Hk) as (s & Hcr & T & _ & Hz).
  destruct (mappages_maps end8 ltac:(reflexivity) s ps p _ 0x4000 PGSIZE (PHYSTOP - PGSIZE) (Z.lor PTE_R PTE_U) T)
    as (r & s' & ps' & t' & new & k & Hmap & _ & _ & _ & _ & Hw);
    [lia|reflexivity|unfold PGSIZE; lia|reflexivity|change MAXVA with (2 ^ 38); unfold PGSIZE; lia
    |unfold PHYSTOP, KERNBASE, PGSIZE; lia|unfold PHYSTOP, KERNBASE; lia|change (Z.lor PTE_R PTE_U) with 18; lia| |].
  { intros v _. rewrite Hz. apply has_zero. }
  exists s1, s, s', p, r. split; [exact Hrun|]. split; [exact Hcr|]. split; [exact Hmap|].
  intros Hr. exact (Hw Hr eq_refl eq_refl 0x4123 ltac:(unfold PGSIZE; lia)).
Defined.
