(* ===== verification/VmProps.v ===== *)
(** * Growing and shrinking an address space

    uvmalloc, uvmdealloc and uvmunmap on the page tables of [VmSpec]: what becomes of the
    entries, of the physical pages and of the free list, when memory runs out too. *)

From Stdlib Require Import ZArith Lia.
From stdpp Require Import base numbers list gmap strings.
From S2P Require Import Prelude Spinlock Kalloc Vm VmSpec.
Open Scope Z_scope.

(** ** The loops over pages *)

Lemma pages_from_nil lo hi : hi <= lo -> pages_from lo hi = [].
Proof.
  intros. unfold pages_from, PGSIZE. rewrite zrange_nil; [done|].
  assert ((hi - lo + 4096 - 1) / 4096 < 1) by (apply Z.div_lt_upper_bound; lia). lia.
Qed.

Lemma pages_from_cons lo hi : lo < hi -> pages_from lo hi = lo :: pages_from (lo + 4096) hi.
Proof.
  intros. unfold pages_from, PGSIZE.
  replace ((hi - lo + 4096 - 1) / 4096) with ((hi - (lo + 4096) + 4096 - 1) / 4096 + 1)
    by (rewrite <- Z.div_add by lia; f_equal; lia).
  set (n := (hi - (lo + 4096) + 4096 - 1) / 4096). assert (0 <= n) by (apply Z.div_pos; lia).
  rewrite zrange_cons by lia. cbn [fmap list_fmap]. f_equal; [lia|].
  unfold zrange. replace (n + 1 - (0 + 1)) with n by lia. replace (n - 0) with n by lia.
  apply list_eq. intros j. rewrite !list_lookup_fmap.
  destruct (decide (Z.of_nat j < n)).
  - rewrite !lookup_seqZ_lt by lia. simpl. f_equal. lia.
  - by rewrite !lookup_seqZ_ge by lia.
Qed.

Lemma pgroundup64_spec x : 0 <= x < 2 ^ 63 ->
  PGROUNDUP64 x mod 4096 = 0 /\ x <= PGROUNDUP64 x < x + 4096.
Proof.
  intros Hx. unfold PGROUNDUP64, PGSIZE. change (Z.land ?a (Z.lnot (4096 - 1))) with (PGROUNDDOWN a).
  rewrite pgrounddown_eq. unfold u64. rewrite uwrap_small by lia.
  pose proof (Z.mod_pos_bound (x + 4096 - 1) 4096 ltac:(lia)). split; [|lia].
  rewrite Zminus_mod, Z.mod_mod, Z.sub_diag by lia. done.
Qed.

Lemma pgroundup64_aligned x : 0 <= x < 2 ^ 63 -> x mod 4096 = 0 -> PGROUNDUP64 x = x.
Proof.
  intros Hx Ha. destruct (pgroundup64_spec x Hx) as [Hm Hr].
  apply Z.mod_divide in Ha as [a ->]; [|lia]. apply Z.mod_divide in Hm as [b Hb]; [|lia]. lia.
Qed.

Section Uvm.
Variable end_ : Z.
Hypothesis end_pos : 0 < end_.
Notation valid_page := (valid_page end_).
Notation kmem_ok := (kmem_ok end_).
Notation pt_ok := (pt_ok end_).
Notation mem s := (pages (kdata s)).
Notation tree := (gmap (list Z) Z).

(** A page of data: of the managed range, in use, and no table. *)
Record data_page (ps : list Z) (t : tree) (pa : Z) : Prop := {
  dp_valid : valid_page pa; dp_used : pa ∉ ps; dp_data : forall q, t !! q <> Some pa }.

(** What happens outside the tables does not concern them. *)
Lemma pt_ok_frame s ps s' ps' root t :
  pt_ok s ps root t -> kmem_ok s' ps' ->
  (forall q pg, t !! q = Some pg -> mem s' !! pg = mem s !! pg /\ pg ∉ ps') ->
  pt_ok s' ps' root t /\ forall va, pte_at (mem s') t va = pte_at (mem s) t va.
Proof.
  intros [T1 T2 T3 T4 T5 T6 T7 T8] Hk Htab. split.
  - split; try done.
    + intros q pg Hq. split; [by eapply T4|by eapply Htab].
    + intros q pg Hq. rewrite (proj1 (Htab q pg Hq)). by eapply T5.
    + intros q pg ws i w Hq Hl Hws. rewrite (proj1 (Htab q pg Hq)) in Hws. by eapply T6.
  - intros va. unfold pte_at, leaf. destruct (t !! [PX 2 va; PX 1 va]) as [pg|] eqn:E; [|done].
    by rewrite (proj1 (Htab _ _ E)).
Qed.

(** Freeing a page of data does not disturb the tables. *)
Lemma kfree_data s ps root t pa :
  pt_ok s ps root t -> data_page ps t pa ->
  exists s', kfree end_ pa s = Ok tt s' /\ pt_ok s' (pa :: ps) root t /\
    (forall x, x <> pa -> mem s' !! x = mem s !! x) /\ forall va, pte_at (mem s') t va = pte_at (mem s) t va.
Proof using end_pos.
  intros T [Hv Hps Hd]. destruct (kfree_ok end_ s ps pa (pt_mem _ _ _ _ _ T) Hv Hps) as (s' & ws & Hrun & Hk & Hm).
  exists s'. split; [done|].
  assert (forall x, x <> pa -> mem s' !! x = mem s !! x) as Hfr by (intros x Hx; by rewrite Hm, lookup_insert_ne).
  destruct (pt_ok_frame s ps s' (pa :: ps) root t T Hk) as [T' Hpte]; [|done].
  intros q pg Hq. assert (pg <> pa) as Hne by (intros ->; by apply (Hd q)). split; [by apply Hfr|].
  rewrite not_elem_of_cons. split; [done|by eapply pt_page].
Qed.

Lemma unmap_mapped s ps root t a w :
  pt_ok s ps root t -> 0 <= a < MAXVA -> pte_at (mem s) t a = w -> has w PTE_V = true ->
  data_page ps t (PTE2PA w) ->
  exists s', unmap_page end_ root a true s = Ok tt s' /\ pt_ok s' (PTE2PA w :: ps) root t /\
    (forall x, x <> PTE2PA w -> (forall q, t !! q <> Some x) -> mem s' !! x = mem s !! x) /\
    forall va, 0 <= va < MAXVA ->
      pte_at (mem s') t va = if decide (va / 4096 = a / 4096) then 0 else pte_at (mem s) t va.
Proof using end_pos.
  intros T Ha Hw HV Hd. unfold unmap_page.
  rewrite (bind_ok _ _ _ _ _ (walk_lookup end_ end_pos s ps root t a T ltac:(lia))).
  destruct (leaf t a) as [pg|] eqn:Hlf.
  2: { unfold pte_at in Hw. rewrite Hlf in Hw. subst w. by rewrite has_zero in HV. }
  destruct (load_leaf end_ end_pos s ps root t a pg T Hlf) as [Hload Hnz]. rewrite decide_False by done.
  rewrite (bind_ok _ _ _ _ _ Hload), Hw, HV. cbn [negb].
  destruct (kfree_data s ps root t (PTE2PA w) T Hd) as (s1 & Hrun & T1 & Hfr1 & Hpte1).
  rewrite (bind_ok _ _ _ _ _ Hrun).
  destruct (set_leaf_run end_ end_pos s1 _ root t a pg 0 T1 Ha Hlf) as (s' & Hst & T' & Hfr & Hpte).
  exists s'. split; [exact Hst|]. split; [done|]. split.
  - intros x Hx Ht. rewrite Hfr; [by apply Hfr1|]. intros ->. by apply (Ht _ Hlf).
  - intros va Hva. rewrite Hpte by done. case_decide; [done|apply Hpte1].
Qed.

(** A run of pages mapped to the pages of data [ds], unmapped and freed. *)
Lemma unmap_run perm root t ds a s ps :
  pt_ok s ps root t -> 0 <= a -> a mod 4096 = 0 -> a + Z.of_nat (length ds) * 4096 <= MAXVA -> 0 <= perm < 1024 ->
  NoDup ds -> Forall (data_page ps t) ds ->
  (forall j pa, ds !! j = Some pa -> pte_at (mem s) t (a + Z.of_nat j * 4096) = leaf_entry pa perm) ->
  exists s', for_each (pages_from a (a + Z.of_nat (length ds) * 4096)) (fun a => unmap_page end_ root a true) s = Ok tt s' /\
    pt_ok s' (reverse ds ++ ps) root t /\
    (forall x, x ∉ ds -> (forall q, t !! q <> Some x) -> mem s' !! x = mem s !! x) /\
    forall va, 0 <= va < MAXVA -> pte_at (mem s') t va =
      if decide (a <= va < a + Z.of_nat (length ds) * 4096) then 0 else pte_at (mem s) t va.
Proof using end_pos.
  intros T Ha0 Hal Hmax Hp Hnd Hd Hpte. revert a s ps T Ha0 Hal Hmax Hd Hpte.
  induction ds as [|pa ds IH]; intros a s ps T Ha0 Hal Hmax Hd Hpte.
  - exists s. rewrite pages_from_nil by (simpl; lia). split; [done|]. split; [done|]. split; [done|].
    intros va Hva. by rewrite decide_False by (simpl; lia).
  - apply NoDup_cons in Hnd as [Hni Hnd]. apply Forall_cons in Hd as [Hd0 Hd]. cbn [length] in *.
    assert (0 <= pa < 2 ^ 56 /\ pa mod PGSIZE = 0) as [Hpb Hpm].
    { destruct (valid_page_small end_ end_pos pa (dp_valid _ _ _ Hd0)) as (? & ? & _). done. }
    destruct (leaf_entry_ok pa perm Hpb Hpm Hp) as (HV & _ & HPA).
    pose proof (Hpte 0%nat pa eq_refl) as Hw. replace (a + Z.of_nat 0 * 4096) with a in Hw by lia.
    destruct (unmap_mapped s ps root t a _ T ltac:(lia) Hw HV) as (s1 & Hrun & T1 & Hfr1 & Hpte1); [by rewrite HPA|].
    rewrite HPA in *.
    destruct (IH Hnd (a + 4096) s1 (pa :: ps)) as (s' & Hrun' & T' & Hfr' & Hpte'); try done; try lia.
    { rewrite Z.add_mod, Hal by lia. done. }
    { apply Forall_forall. intros y Hy. destruct (proj1 (Forall_forall _ _) Hd y Hy) as [Y1 Y2 Y3].
      split; try done. rewrite not_elem_of_cons. split; [|done]. by intros ->. }
    { intros j y Hj. rewrite Hpte1.
      2: { pose proof (lookup_lt_Some _ _ _ Hj). lia. }
      rewrite decide_False.
      - specialize (Hpte (S j) y Hj). by replace (a + 4096 + Z.of_nat j * 4096) with (a + Z.of_nat (S j) * 4096) by lia.
      - replace (a + 4096 + Z.of_nat j * 4096) with (a + (1 + Z.of_nat j) * 4096) by lia. rewrite Z.div_add by lia. lia. }
    exists s'. rewrite pages_from_cons by lia. cbn [for_each]. rewrite (bind_ok _ _ _ _ _ Hrun).
    replace (a + Z.of_nat (S (length ds)) * 4096) with (a + 4096 + Z.of_nat (length ds) * 4096) by lia.
    split; [exact Hrun'|]. split; [by rewrite reverse_cons, <- app_assoc|]. split.
    + intros x Hx Ht. apply not_elem_of_cons in Hx as [? ?]. rewrite Hfr' by done. by apply Hfr1.
    + intros va Hva. rewrite Hpte' by done. rewrite Hpte1 by done.
      pose proof (Z.div_mod a 4096 ltac:(lia)). pose proof (Z.div_mod va 4096 ltac:(lia)).
      pose proof (Z.mod_pos_bound va 4096 ltac:(lia)). repeat case_decide; (done || lia).
Qed.

Lemma uvmdealloc_run perm root t ds s ps oldsz newsz (lo := PGROUNDUP64 newsz) :
  pt_ok s ps root t -> 0 <= newsz <= oldsz -> oldsz <= MAXVA -> PGROUNDUP64 oldsz = lo + Z.of_nat (length ds) * 4096 ->
  0 <= perm < 1024 -> NoDup ds -> Forall (data_page ps t) ds ->
  (forall j pa, ds !! j = Some pa -> pte_at (mem s) t (lo + Z.of_nat j * 4096) = leaf_entry pa perm) ->
  exists s', uvmdealloc end_ root oldsz newsz s = Ok newsz s' /\
    pt_ok s' (reverse ds ++ ps) root t /\
    (forall x, x ∉ ds -> (forall q, t !! q <> Some x) -> mem s' !! x = mem s !! x) /\
    forall va, 0 <= va < MAXVA -> pte_at (mem s') t va =
      if decide (lo <= va < lo + Z.of_nat (length ds) * 4096) then 0 else pte_at (mem s) t va.
Proof using end_pos.
  intros T Hsz Hmax Hlen Hp Hnd Hd Hpte. assert (MAXVA = 2 ^ 38) as HM by done.
  destruct (pgroundup64_spec newsz ltac:(lia)) as [Hal Hlo]. fold lo in Hal, Hlo.
  destruct (pgroundup64_spec oldsz ltac:(lia)) as [Hal' Hhi].
  assert (PGROUNDUP64 oldsz <= MAXVA) as Hhi'.
  { apply Z.mod_divide in Hal' as [b Hb]; [|lia]. lia. }
  destruct (unmap_run perm root t ds lo s ps T) as (s' & Hrun & Hrest); try done; try lia.
  exists s'. split; [|exact Hrest]. unfold uvmdealloc. case_decide as Hge.
  - assert (oldsz = newsz) as -> by lia. fold lo in Hlen. destruct ds; [|simpl in Hlen; lia].
    rewrite pages_from_nil in Hrun by (simpl; lia). injection Hrun as <-. done.
  - fold lo. rewrite Hlen. case_decide as Hlt.
    + replace (lo + Z.of_nat (length ds) * 4096 - lo) with (Z.of_nat (length ds) * PGSIZE) by (unfold PGSIZE; lia).
      rewrite Z.div_mul by done. rewrite i32_small by (unfold in_int, INT_MIN, INT_MAX; lia).
      unfold uvmunmap, PGSIZE. rewrite decide_False by lia.
      assert (u64 (Z.of_nat (length ds)) = Z.of_nat (length ds)) as -> by (apply uwrap_small; lia).
      assert (u64 (lo + Z.of_nat (length ds) * 4096) = lo + Z.of_nat (length ds) * 4096) as -> by (apply uwrap_small; lia).
      by rewrite (bind_ok _ _ _ _ _ Hrun).
    + destruct ds; [|simpl in Hlt; lia]. rewrite pages_from_nil in Hrun by (simpl; lia). by injection Hrun as <-.
Qed.

(** ** One more page *)

Lemma alloc_page_turn s ps root t lo a xperm (perm := Z.lor (Z.lor PTE_R PTE_U) xperm) :
  pt_ok s ps root t -> 0 <= a < MAXVA -> a mod 4096 = 0 -> 0 <= perm < 1024 ->
  (forall va, a <= va < a + 4096 -> has (pte_at (mem s) t va) PTE_V = false) ->
  exists s' ps' t' new, pt_ok s' ps' root t' /\ t ⊆ t' /\
    (forall q pg, t' !! q = Some pg -> t !! q = Some pg \/ pg ∈ new) /\
    (forall x, x ∉ ps -> (forall q, t !! q <> Some x) -> mem s' !! x = mem s !! x) /\
    (alloc_page end_ root lo xperm a s = (uvmdealloc end_ root a lo ;; ret (Some 0)) s' /\ ps ≡ₚ new ++ ps' /\
       (forall va, 0 <= va < MAXVA -> pte_at (mem s') t' va = pte_at (mem s) t va) \/
     alloc_page end_ root lo xperm a s = Ok None s' /\ exists p, ps ≡ₚ p :: new ++ ps' /\
       mem s' !! p = Some (filled 0) /\ data_page ps' t' p /\
       forall va, 0 <= va < MAXVA -> pte_at (mem s') t' va = with_range a 1 p perm (pte_at (mem s) t) va).
Proof using end_pos.
  intros T Ha Hal Hp Hfree. unfold alloc_page. fold perm. assert (MAXVA = 2 ^ 38) as HM by done.
  destruct ps as [|p ps].
  { rewrite (bind_ok _ _ _ _ _ (kalloc_none end_ s (pt_mem _ _ _ _ _ T))). rewrite decide_True by done.
    exists s, [], t, []. split_and!; try done; [by left|]. left. by split_and!. }
  destruct (kalloc_first end_ end_pos s p ps (pt_mem _ _ _ _ _ T)) as (s0 & Hrun & Hk0 & Hps & Hv & Hm0).
  destruct (valid_page_small end_ end_pos p Hv) as (Hpb & Hpm & Hp0).
  assert (p + 4096 <= 2 ^ 56) as Hpb' by (destruct Hv as [_ Hv]; unfold PHYSTOP, KERNBASE in Hv; lia).
  rewrite (bind_ok _ _ _ _ _ Hrun). rewrite decide_False by done.
  destruct (memset_page_run end_ s0 ps p 0 Hk0 Hv Hps) as [Hset Hk1]. rewrite (bind_ok _ _ _ _ _ Hset).
  clear Hrun Hset. set (s1 := mkK _ _ _ _ _) in *.
  assert (mem s1 = <[p := filled 0]> (mem s)) as Hm1 by (simpl; by rewrite Hm0, insert_insert_eq).
  assert (forall q, t !! q <> Some p) as Hpt.
  { intros q Hq. apply (pt_page _ _ _ _ _ T) in Hq as [_ Hn]. apply Hn. left. }
  destruct (pt_ok_frame s (p :: ps) s1 ps root t T Hk1) as [T1 Hpte1].
  { intros q pg Hq. assert (pg <> p) by (intros ->; by apply (Hpt q)). split; [by rewrite Hm1, lookup_insert_ne|].
    apply (pt_page _ _ _ _ _ T) in Hq as [_ Hn]. intros Hin. apply Hn. by right. }
  destruct (mappages_run end_ end_pos s1 ps root t a PGSIZE p perm T1)
    as (r & s2 & ps2 & t2 & new & k & Hmap & T2 & [E1 E2 E3 E4] & Hr & Hpte2 & _); unfold PGSIZE in *; try done; try lia.
  { apply Z.mod_divide in Hal as [b Hb]; [|lia]. lia. }
  { intros v Hvr. rewrite Hpte1. by apply Hfree. }
  rewrite (bind_ok _ _ _ _ _ Hmap). clear Hmap.
  assert (p ∉ new) as Hpnew by (intros Hin; apply Hps; rewrite E1; apply elem_of_app; by left).
  assert (data_page ps2 t2 p) as Hd.
  { split; [done|intros Hin; apply Hps; rewrite E1; apply elem_of_app; by right|].
    intros q Hq. destruct (E3 q p Hq) as [Hq1|]; [by apply (Hpt q)|done]. }
  assert (forall x, x ∉ p :: ps -> (forall q, t !! q <> Some x) -> mem s2 !! x = mem s !! x) as Hfr.
  { intros x Hx Ht. apply not_elem_of_cons in Hx as [? Hx]. rewrite E4; [by rewrite Hm1, lookup_insert_ne| |done].
    intros Hin. apply Hx. rewrite E1. apply elem_of_app. by left. }
  destruct Hr as [[-> ->]|(-> & Hk & ->)].
  - rewrite decide_False by lia. exists s2, ps2, t2, new. split_and!; try done. right. split; [done|].
    exists p. split; [by rewrite E1|]. split; [rewrite E4 by done; by rewrite Hm1, lookup_insert_eq|]. split; [done|].
    intros va Hva. rewrite Hpte2 by done. apply with_range_ext, Hpte1.
  - rewrite decide_True by lia. destruct (kfree_data s2 [] root t2 p T2 Hd) as (s3 & Hfree3 & T3 & Hfr3 & Hpte3).
    rewrite (bind_ok _ _ _ _ _ Hfree3). exists s3, [p], t2, new. split; [done|]. split; [done|]. split; [done|]. split.
    { intros x Hx Ht. apply not_elem_of_cons in Hx as Hx'. destruct Hx' as [? _]. rewrite Hfr3 by done. by apply Hfr. }
    left. split; [done|]. split; [rewrite E1, app_nil_r; apply Permutation_cons_append|].
    intros va Hva. rewrite Hpte3, Hpte2 by done. change (4096 / 4096) with 1 in Hk. replace k with 0 by lia. unfold with_range.
    rewrite decide_False by lia. apply Hpte1.
Qed.

(** ** The whole loop *)

(** From [s0] with free pages [ps0], the pages from [lo] on have got the zeroed pages of
    data [ds]; [nt] have become tables. *)
Record allocated (s0 : K) (ps0 : list Z) (root : Z) (t0 : tree) (lo perm : Z)
    (s : K) (ps : list Z) (t : tree) (nt ds : list Z) : Prop := {
  al_pt : pt_ok s ps root t;
  al_pages : ps0 ≡ₚ nt ++ ds ++ ps;
  al_tree : t0 ⊆ t;
  al_new : forall q pg, t !! q = Some pg -> t0 !! q = Some pg \/ pg ∈ nt;
  al_frame : forall x, x ∉ ps0 -> (forall q, t0 !! q <> Some x) -> mem s !! x = mem s0 !! x;
  al_pte : forall j pa, ds !! j = Some pa -> pte_at (mem s) t (lo + Z.of_nat j * 4096) = leaf_entry pa perm;
  al_other : forall va, 0 <= va < MAXVA -> ~ lo <= va < lo + Z.of_nat (length ds) * 4096 ->
    pte_at (mem s) t va = pte_at (mem s0) t0 va;
  al_data : Forall (data_page ps t) ds;
  al_zero : Forall (fun pa => mem s !! pa = Some (filled 0)) ds }.

Lemma allocated_start s ps root t lo perm :
  pt_ok s ps root t -> allocated s ps root t lo perm s ps t [] [].
Proof. intros T. split; try done. by left. Qed.

(** A page of data stays one while free pages become tables. *)
Lemma data_page_kept ps t pa ps' t' (new : list Z) :
  data_page ps t pa -> (forall x, x ∈ new \/ x ∈ ps' -> x ∈ ps) ->
  (forall q pg, t' !! q = Some pg -> t !! q = Some pg \/ pg ∈ new) -> data_page ps' t' pa.
Proof.
  intros [Hv Hu Hd] Hin Hnew. split; [done|intros Hp; apply Hu, Hin; by right|].
  intros q Hq. destruct (Hnew q pa Hq) as [Hq'|Hq']; [by apply (Hd q)|]. apply Hu, Hin. by left.
Qed.

Lemma allocated_step s0 ps0 root t0 lo perm s ps t nt ds s' ps' t' new p (a := lo + Z.of_nat (length ds) * 4096) :
  allocated s0 ps0 root t0 lo perm s ps t nt ds -> 0 <= lo -> lo mod 4096 = 0 -> a < MAXVA ->
  pt_ok s' ps' root t' -> t ⊆ t' -> (forall q pg, t' !! q = Some pg -> t !! q = Some pg \/ pg ∈ new) ->
  (forall x, x ∉ ps -> (forall q, t !! q <> Some x) -> mem s' !! x = mem s !! x) ->
  ps ≡ₚ p :: new ++ ps' -> mem s' !! p = Some (filled 0) -> data_page ps' t' p ->
  (forall va, 0 <= va < MAXVA -> pte_at (mem s') t' va = with_range a 1 p perm (pte_at (mem s) t) va) ->
  allocated s0 ps0 root t0 lo perm s' ps' t' (nt ++ new) (ds ++ [p]).
Proof.
  intros [A1 A2 A3 A4 A5 A6 A7 A8 A9] Hlo0 Hlo Ha T' Ht Hnew Hfr Hps Hz Hd Hpte.
  assert (a mod 4096 = 0) as Hal by (unfold a; by rewrite Z.mod_add by lia).
  assert (forall x, x ∈ new \/ x ∈ ps' -> x ∈ ps) as Hsub.
  { intros x Hx. rewrite Hps, elem_of_cons, elem_of_app. tauto. }
  split.
  - done.
  - rewrite A2, Hps. rewrite <- !app_assoc. apply Permutation_app_head. simpl.
    rewrite (Permutation_app_comm new (ds ++ p :: ps')), <- app_assoc. apply Permutation_app_head. simpl.
    by rewrite (Permutation_app_comm ps' new).
  - by transitivity t.
  - intros q pg Hq. rewrite elem_of_app. destruct (Hnew q pg Hq) as [Hq'|]; [|auto]. destruct (A4 q pg Hq'); auto.
  - intros x Hx Hx0. rewrite Hfr; [by apply A5| |].
    + intros Hin. apply Hx. rewrite A2, !elem_of_app. auto.
    + intros q Hq. destruct (A4 q x Hq) as [Hq'|Hin]; [by apply (Hx0 q)|]. apply Hx. rewrite A2, elem_of_app. auto.
  - intros j pa Hj. apply lookup_app_Some in Hj as [Hj|[Hle Hj]].
    + pose proof (lookup_lt_Some _ _ _ Hj). rewrite Hpte by (unfold a in Ha; lia). rewrite with_range_one by done.
      rewrite decide_False; [by apply A6|]. unfold a. rewrite !Z.div_add by lia. lia.
    + apply list_lookup_singleton_Some in Hj as [Hj ->]. replace (Z.of_nat j) with (Z.of_nat (length ds)) by lia.
      fold a. rewrite Hpte by (unfold a in *; lia). rewrite with_range_one by done. by rewrite decide_True.
  - intros va Hva Hout. rewrite length_app in Hout. simpl in Hout. rewrite Hpte by done. unfold with_range.
    fold a in Hout. rewrite decide_False by (unfold a in *; lia). apply A7; [done|]. fold a. unfold a in *. lia.
  - apply Forall_app. split; [|by apply Forall_singleton]. eapply Forall_impl; [exact A8|]. intros pa Hpa.
    by eapply data_page_kept.
  - apply Forall_app. split; [|by apply Forall_singleton]. apply Forall_forall. intros pa Hpa.
    pose proof (proj1 (Forall_forall _ _) A8 pa Hpa) as [D1 D2 D3]. rewrite Hfr by done.
    by apply (proj1 (Forall_forall _ _) A9).
Qed.

(** What a failed uvmalloc leaves: pages that have become tables, and no new mapping. *)
Record undone (s0 : K) (ps0 : list Z) (root : Z) (t0 : tree) (lo hi : Z)
    (s : K) (ps : list Z) (t : tree) (nt : list Z) : Prop := {
  un_pt : pt_ok s ps root t;
  un_pages : ps0 ≡ₚ nt ++ ps;
  un_tree : t0 ⊆ t;
  un_new : forall q pg, t !! q = Some pg -> t0 !! q = Some pg \/ pg ∈ nt;
  un_frame : forall x, x ∉ ps0 -> (forall q, t0 !! q <> Some x) -> mem s !! x = mem s0 !! x;
  un_pte : forall va, 0 <= va < MAXVA ->
    pte_at (mem s) t va = pte_at (mem s0) t0 va \/ lo <= va < hi /\ pte_at (mem s) t va = 0 }.

Lemma alloc_undo s0 ps0 root t0 lo perm s ps t nt ds s' ps' t' new hi oldsz newsz
    (a := lo + Z.of_nat (length ds) * 4096) :
  allocated s0 ps0 root t0 lo perm s ps t nt ds -> NoDup ps0 -> 0 <= perm < 1024 ->
  0 <= newsz <= oldsz -> oldsz <= MAXVA -> PGROUNDUP64 newsz = lo -> PGROUNDUP64 oldsz = a -> 0 <= lo -> a <= hi -> a <= MAXVA ->
  pt_ok s' ps' root t' -> t ⊆ t' -> (forall q pg, t' !! q = Some pg -> t !! q = Some pg \/ pg ∈ new) ->
  (forall x, x ∉ ps -> (forall q, t !! q <> Some x) -> mem s' !! x = mem s !! x) ->
  ps ≡ₚ new ++ ps' -> (forall va, 0 <= va < MAXVA -> pte_at (mem s') t' va = pte_at (mem s) t va) ->
  exists s'', uvmdealloc end_ root oldsz newsz s' = Ok newsz s'' /\
    undone s0 ps0 root t0 lo hi s'' (reverse ds ++ ps') t' (nt ++ new).
Proof using end_pos.
  intros [A1 A2 A3 A4 A5 A6 A7 A8 A9] Hnd Hp Hsz Hsmax Elo Ea Hlo0 Ha Hmax T' Ht Hnew Hfr Hps Hpte.
  assert (MAXVA = 2 ^ 38) as HM by done.
  assert (forall x, x ∈ new \/ x ∈ ps' -> x ∈ ps) as Hsub by (intros x Hx; by rewrite Hps, elem_of_app).
  assert (forall x, x ∈ ds -> x ∈ ps0) as Hds by (intros x Hx; rewrite A2, !elem_of_app; auto).
  assert (forall q pg, t' !! q = Some pg -> t0 !! q = Some pg \/ pg ∈ nt ++ new) as Hall.
  { intros q pg Hq. rewrite elem_of_app. destruct (Hnew q pg Hq) as [Hq'|]; [|auto]. destruct (A4 q pg Hq'); auto. }
  destruct (uvmdealloc_run perm root t' ds s' ps' oldsz newsz T') as (s'' & Hrun & T'' & Hfr' & Hpte');
    rewrite ?Elo, ?Ea; try done; try (unfold a; lia).
  - rewrite A2 in Hnd. apply NoDup_app in Hnd as (_ & _ & Hnd). by apply NoDup_app in Hnd as (? & _).
  - eapply Forall_impl; [exact A8|]. intros pa Hpa. by eapply data_page_kept.
  - intros j pa Hj. rewrite Hpte; [by apply A6|]. pose proof (lookup_lt_Some _ _ _ Hj). unfold a in *. lia.
  - rewrite Elo in Hpte'. exists s''. split; [done|]. split; try done.
    + rewrite A2, Hps. rewrite <- !app_assoc. apply Permutation_app_head. rewrite (reverse_Permutation ds).
      rewrite !app_assoc. apply Permutation_app_tail, Permutation_app_comm.
    + by transitivity t.
    + intros x Hx Hx0. assert (x ∉ ps) as Hxp by (intros Hin; apply Hx; rewrite A2, !elem_of_app; auto).
      assert (forall q, t !! q <> Some x) as Hxt.
      { intros q Hq. destruct (A4 q x Hq) as [|Hin]; [by apply (Hx0 q)|]. apply Hx. rewrite A2, elem_of_app. auto. }
      rewrite Hfr'; [rewrite Hfr by done; by apply A5|by intros ?%Hds|].
      intros q Hq. destruct (Hall q x Hq) as [|Hin]; [by apply (Hx0 q)|]. apply Hx. rewrite A2, Hps.
      apply elem_of_app in Hin. rewrite !elem_of_app. tauto.
    + intros va Hva. rewrite Hpte' by done. fold a. case_decide as Hin; [right; split; [lia|done]|left].
      rewrite Hpte by done. by apply A7.
Qed.

Lemma alloc_loop_run s0 ps0 root t0 lo xperm newsz hi (perm := Z.lor (Z.lor PTE_R PTE_U) xperm) n s ps t nt ds :
  allocated s0 ps0 root t0 lo perm s ps t nt ds -> NoDup ps0 -> 0 <= perm < 1024 ->
  0 <= lo -> lo mod 4096 = 0 -> newsz <= hi < newsz + 4096 -> hi <= MAXVA ->
  (forall va, lo <= va < hi -> has (pte_at (mem s0) t0 va) PTE_V = false) ->
  hi = lo + Z.of_nat (length ds + n) * 4096 \/ hi <= lo /\ n = 0%nat /\ ds = [] ->
  exists r s' ps' t' nt' ds',
    for_until (pages_from (lo + Z.of_nat (length ds) * 4096) newsz) (alloc_page end_ root lo xperm) s = Ok r s' /\
    (r = None /\ allocated s0 ps0 root t0 lo perm s' ps' t' nt' ds' /\ length ds' = (length ds + n)%nat \/
     r = Some 0 /\ undone s0 ps0 root t0 lo hi s' ps' t' nt').
Proof using end_pos.
  intros HA Hnd Hp Hlo0 Hlo Hhi Hmax Hfree. revert s ps t nt ds HA.
  assert (MAXVA = 2 ^ 38) as HM by done.
  induction n as [|n IH]; intros s ps t nt ds HA Hn.
  - exists None, s, ps, t, nt, ds. rewrite pages_from_nil by lia. split; [done|]. left. split_and!; [done|done|lia].
  - destruct Hn as [Hn|(_ & ? & _)]; [|lia]. set (a := lo + Z.of_nat (length ds) * 4096).
    assert (a + 4096 <= hi /\ a < newsz) as [Ha Hlt] by (unfold a; lia).
    rewrite pages_from_cons by done. cbn [for_until].
    destruct (alloc_page_turn s ps root t lo a xperm (al_pt _ _ _ _ _ _ _ _ _ _ _ HA))
      as (s1 & ps1 & t1 & new & T1 & Ht & Hnew & Hfr & [(Hrun & Hps & Hpte)|(Hrun & p & Hps & Hz & Hd & Hpte)]);
      [unfold a in *; lia|unfold a; by rewrite Z.mod_add by lia|done| | |].
    { intros va Hva. rewrite (al_other _ _ _ _ _ _ _ _ _ _ _ HA); [apply Hfree; unfold a in *; lia|unfold a in *; lia|].
      fold a. lia. }
    + destruct (alloc_undo s0 ps0 root t0 lo perm s ps t nt ds s1 ps1 t1 new hi a lo) as (s2 & Hrun2 & HU);
        try done; try (fold a; lia); try (unfold a; lia);
        [apply pgroundup64_aligned; [unfold a in *; lia|done]
        |apply pgroundup64_aligned; [unfold a in *; lia|unfold a; by rewrite Z.mod_add by lia]|].
      exists (Some 0), s2, (reverse ds ++ ps1), t1, (nt ++ new), []. split; [|by right].
      unfold bind at 1. rewrite Hrun. by rewrite (bind_ok _ _ _ _ _ Hrun2).
    + assert (allocated s0 ps0 root t0 lo perm s1 ps1 t1 (nt ++ new) (ds ++ [p])) as HA1.
      { eapply allocated_step; try done. fold a. lia. }
      destruct (IH s1 ps1 t1 (nt ++ new) (ds ++ [p]) HA1) as (r & s' & ps' & t' & nt' & ds' & Hrun' & Hres).
      { left. rewrite Hn, length_app. simpl. f_equal. f_equal. lia. }
      exists r, s', ps', t', nt', ds'. rewrite (bind_ok _ _ _ _ _ Hrun).
      rewrite length_app in Hrun', Hres. simpl in Hrun', Hres.
      replace (lo + Z.of_nat (length ds + 1) * 4096) with (a + 4096) in Hrun' by (unfold a; lia).
      split; [exact Hrun'|]. destruct Hres as [(-> & ? & ->)|?]; [left; split_and!; [done|done|lia]|by right].
Qed.

(** uvmalloc, and uvmdealloc of what it has added. *)
Lemma uvmalloc_run s ps root t oldsz newsz xperm
    (lo := PGROUNDUP64 oldsz) (hi := PGROUNDUP64 newsz) (perm := Z.lor (Z.lor PTE_R PTE_U) xperm) :
  pt_ok s ps root t -> 0 <= oldsz <= newsz -> newsz <= MAXVA -> 0 <= xperm < 1024 ->
  (forall va, lo <= va < hi -> has (pte_at (mem s) t va) PTE_V = false) ->
  exists r s' ps' t' nt ds, uvmalloc end_ root oldsz newsz xperm s = Ok r s' /\
    (r = newsz /\ Z.of_nat (length ds) * PGSIZE = hi - lo /\ allocated s ps root t lo perm s' ps' t' nt ds /\
       (exists s'', uvmdealloc end_ root newsz oldsz s' = Ok oldsz s'' /\
          undone s ps root t lo hi s'' (reverse ds ++ ps') t' nt) \/
     r = 0 /\ undone s ps root t lo hi s' ps' t' nt).
Proof using end_pos.
  intros T Hsz Hmax Hx Hfree. assert (MAXVA = 2 ^ 38) as HM by done.
  destruct (pgroundup64_spec oldsz ltac:(lia)) as [Hal Hlo]. destruct (pgroundup64_spec newsz ltac:(lia)) as [Hal' Hhi].
  fold lo in Hal, Hlo. fold hi in Hal', Hhi.
  assert (0 <= perm < 1024) as Hp by (apply lor_1024; [change (Z.lor PTE_R PTE_U) with 18; lia|done]).
  assert (exists n : nat, hi = lo + Z.of_nat n * 4096 /\ hi <= MAXVA) as (n & Hn & Hhim).
  { apply Z.mod_divide in Hal as [b Hb]; [|lia]. apply Z.mod_divide in Hal' as [b' Hb']; [|lia].
    exists (Z.to_nat (b' - b)). lia. }
  pose proof (ko_nodup _ _ _ (pt_mem _ _ _ _ _ T)) as Hnd.
  destruct (alloc_loop_run s ps root t lo xperm newsz hi n s ps t [] [] (allocated_start s ps root t lo perm T))
    as (r & s' & ps' & t' & nt & ds & Hrun & Hres); try done; try lia.
  { left. simpl. lia. }
  unfold uvmalloc. rewrite decide_False by lia. fold lo. cbv zeta. simpl in Hrun.
  replace (lo + Z.of_nat 0 * 4096) with lo in Hrun by lia. rewrite (bind_ok _ _ _ _ _ Hrun). cbv beta. unfold ret.
  destruct Hres as [(-> & HA & Hl)|(-> & HU)].
  - exists newsz, s', ps', t', nt, ds. split; [done|]. left. simpl in Hl. split; [done|]. split; [unfold PGSIZE; lia|].
    split; [done|]. destruct (alloc_undo s ps root t lo perm s' ps' t' nt ds s' ps' t' [] hi newsz oldsz HA)
      as (s'' & Hrun' & HU); try done; try lia; [by apply (al_pt _ _ _ _ _ _ _ _ _ _ _ HA)|by left|].
    exists s''. rewrite app_nil_r in HU. done.
  - exists 0, s', ps', t', nt, []. split; [done|]. by right.
Qed.

(** C25: uvmalloc grows an address space completely or not at all.  On a well-formed page
    table with nothing mapped between the two sizes it always returns.  Either it returns
    the new size, and each page up to it is mapped, readable by the user and with the
    permissions asked for, to a page of its own, filled with zeros; or it returns 0 for want
    of memory, and no page between the sizes is mapped.  In both cases every other address
    translates as before, memory that was in use is unchanged, and no page is lost: the
    pages that were free are the new pages, the pages that became tables and the pages that
    are still free.  Shrinking the grown space back with uvmdealloc gives every new page
    back to the free list. *)
Theorem uvmalloc_grows s ps root t oldsz newsz xperm
    (lo := PGROUNDUP64 oldsz) (hi := PGROUNDUP64 newsz) (perm := Z.lor (Z.lor PTE_R PTE_U) xperm) :
  pt_ok s ps root t -> 0 <= oldsz <= newsz -> newsz <= MAXVA -> 0 <= xperm < 1024 ->
  (forall va, lo <= va < hi -> has (pte_at (mem s) t va) PTE_V = false) ->
  exists r s' ps' t' nt ds, uvmalloc end_ root oldsz newsz xperm s = Ok r s' /\
    (r = newsz /\ Z.of_nat (length ds) * PGSIZE = hi - lo /\ allocated s ps root t lo perm s' ps' t' nt ds /\
       (exists s'', uvmdealloc end_ root newsz oldsz s' = Ok oldsz s'' /\
          undone s ps root t lo hi s'' (reverse ds ++ ps') t' nt) \/
     r = 0 /\ undone s ps root t lo hi s' ps' t' nt).
Proof using end_pos. apply uvmalloc_run. Qed.
End Uvm.

(** From nothing to one page and a byte more. *)
Lemma uvmalloc_grows_witness :
  exists (s1 s s' : K) root r, kinit end8 kmem8 = Ok tt s1 /\ uvmcreate s1 = Ok root s /\
    uvmalloc end8 root 0 (PGSIZE + 1) PTE_W s = Ok r s' /\ (r = PGSIZE + 1 \/ r = 0).
Proof.
  destruct boot8 as (s1 & p & ps & Hrun & Hk).
  destruct (uvmcreate_run end8 ltac:(reflexivity) s1 p ps Hk) as (s & Hcr & T & _ & Hz).
  destruct (uvmalloc_grows end8 ltac:(reflexivity) s ps p _ 0 (PGSIZE + 1) PTE_W T)
    as (r & s' & ps' & t' & nt & ds & Hal & Hres);
    [unfold PGSIZE; lia|change MAXVA with (2 ^ 38); unfold PGSIZE; lia|change PTE_W with 4; lia| |].
  { intros v _. rewrite Hz. apply has_zero. }
  exists s1, s, s', p, r. split; [exact Hrun|]. split; [exact Hcr|]. split; [exact Hal|].
  destruct Hres as [(Hr & _)|[Hr _]]; [left|right]; exact Hr.
Defined.
