(* ===== verification/VmCopy.v ===== *)
(** * Copying between the kernel and user memory

    Memory as bytes, and copyout and copyin of kernel/vm.c on mapped user pages: what is
    copied out is what is copied in again. *)

From Stdlib Require Import ZArith Lia.
From stdpp Require Import base numbers list gmap strings.
From S2P Require Import Prelude Spinlock Kalloc Vm VmSpec VmProps.
Open Scope Z_scope.

(** ** Bytes *)

Definition wbyte (ws : list Z) (x : Z) : option Z := (fun w => get_byte w (x mod 8)) <$> ws !! Z.to_nat (x / 8).
Definition byte_at (m : gmap Z (list Z)) (a : Z) : option Z := m !! PGROUNDDOWN a ≫= fun ws => wbyte ws (a mod 4096).
(** The bytes [bs] stand at [a]. *)
Definition holds (m : gmap Z (list Z)) (a : Z) (bs : list Z) : Prop :=
  forall j b, bs !! j = Some b -> byte_at m (a + Z.of_nat j) = Some b.
(** Pages are 512 words. *)
Definition full (m : gmap Z (list Z)) : Prop := forall pg ws, m !! pg = Some ws -> length ws = 512%nat.

Lemma get_byte_bits w i k : 0 <= i -> 0 <= k -> Z.testbit (get_byte w i) k = (bool_decide (k < 8) && Z.testbit w (8 * i + k))%bool.
Proof.
  intros Hi Hk. unfold get_byte. change 255 with (Z.ones 8). rewrite Z.land_spec, Z.shiftr_spec by lia.
  destruct (decide (k < 8)) as [H|H].
  - rewrite Z.ones_spec_low, bool_decide_true, andb_true_r by lia. cbn. f_equal. lia.
  - rewrite Z.ones_spec_high, bool_decide_false, andb_false_r by lia. done.
Qed.
Lemma get_byte_range w i : 0 <= get_byte w i < 256.
Proof. unfold get_byte. change 255 with (Z.ones 8). rewrite Z.land_ones by lia. apply Z.mod_pos_bound. lia. Qed.
Lemma get_put_byte w i j v : 0 <= i < 8 -> 0 <= j < 8 ->
  get_byte (u64 (put_byte w i v)) j = if decide (i = j) then u8 v else get_byte w j.
Proof.
  intros Hi Hj. assert (0 <= u8 v < 2 ^ 8) as Hv by (apply (uwrap_range 8); lia).
  apply Z.bits_inj'. intros k Hk. rewrite get_byte_bits by lia.
  destruct (decide (k < 8)) as [H8|H8].
  2: { rewrite bool_decide_false by lia. cbn. case_decide; [|by rewrite get_byte_bits, bool_decide_false by lia].
       symmetry. rewrite <- (Z.mod_small (u8 v) (2 ^ 8)) by lia. apply Z.mod_pow2_bits_high. lia. }
  rewrite bool_decide_true by lia. cbn [andb]. unfold u64, uwrap. rewrite Z.mod_pow2_bits_low by lia.
  unfold put_byte. change 255 with (Z.ones 8).
  rewrite Z.lor_spec, Z.land_spec, Z.lnot_spec, !Z.shiftl_spec by lia. case_decide as D.
  - subst j. rewrite Z.ones_spec_low by lia. cbn. rewrite andb_false_r. cbn. f_equal. lia.
  - rewrite get_byte_bits, bool_decide_true by lia. cbn [andb]. destruct (decide (i < j)) as [Hlt|Hge].
    + rewrite Z.ones_spec_high by lia. cbn. rewrite andb_true_r.
      rewrite <- (Z.mod_small (u8 v) (2 ^ 8)) by lia. rewrite Z.mod_pow2_bits_high by lia. apply orb_false_r.
    + rewrite (Z.testbit_neg_r (Z.ones 8)), (Z.testbit_neg_r (u8 v)) by lia. cbn. by rewrite andb_true_r, orb_false_r.
Qed.

(** Where the byte [a] is. *)
Lemma word_of a : 0 <= a -> exists i, 0 <= i < 512 /\ a - a mod 8 = PGROUNDDOWN a + 8 * i /\ a mod 4096 / 8 = i /\
  (a mod 4096) mod 8 = a mod 8 /\ PGROUNDDOWN a mod 4096 = 0.
Proof.
  intros Ha. exists (a mod 4096 / 8). rewrite pgrounddown_eq.
  pose proof (Z.mod_pos_bound a 4096 ltac:(lia)). pose proof (Z.div_mod a 4096 ltac:(lia)) as E.
  assert (a mod 8 = (a mod 4096) mod 8) as E8.
  { rewrite E at 1. replace (4096 * (a / 4096)) with (a / 4096 * 512 * 8) by lia. rewrite Z.add_comm, Z.mod_add by lia. done. }
  pose proof (Z.div_mod (a mod 4096) 8 ltac:(lia)) as E2. split_and!; [apply Z.div_pos; lia|apply Z.div_lt_upper_bound; lia|rewrite E8; lia|done|lia|].
  replace (a - a mod 4096) with (a / 4096 * 4096) by lia. apply Z.mod_mul. lia.
Qed.
Lemma load8_run a b (s : K) : 0 <= a -> byte_at (pages (kdata s)) a = Some b -> load8 a s = Ok b s.
Proof.
  intros Ha Hb. destruct (word_of a Ha) as (i & Hi & E1 & E2 & E3 & E4). unfold load8, byte_at, wbyte in *. rewrite E2, E3 in Hb.
  destruct (pages (kdata s) !! PGROUNDDOWN a) as [ws|] eqn:Ew; [|done]. cbn in Hb.
  destruct (ws !! Z.to_nat i) as [w|] eqn:Ei; [|done]. injection Hb as <-.
  rewrite E1. by rewrite (bind_ok _ _ _ _ _ (load64_run s _ i ws w E4 Ew Hi Ei)).
Qed.
Lemma wbyte_set ws i w v x r : ws !! Z.to_nat i = Some w -> 0 <= i -> 0 <= r < 8 -> 0 <= x ->
  wbyte (<[Z.to_nat i := u64 (put_byte w r v)]> ws) x = if decide (x = 8 * i + r) then Some (u8 v) else wbyte ws x.
Proof.
  intros Hw Hi Hr Hx. unfold wbyte. pose proof (Z.div_mod x 8 ltac:(lia)) as E. pose proof (Z.mod_pos_bound x 8 ltac:(lia)) as Hm.
  assert (0 <= x / 8) as Hq by (apply Z.div_pos; lia). destruct (decide (x / 8 = i)) as [Hd|Hd].
  - rewrite Hd, list_lookup_insert_eq by (by eapply lookup_lt_Some). cbn. rewrite Hw, get_put_byte by lia.
    destruct (decide (r = x mod 8)), (decide (x = 8 * i + r)); first [done|lia].
  - rewrite list_lookup_insert_ne by lia. rewrite decide_False by lia. done.
Qed.
Lemma store8_run a v (s : K) ws : 0 <= a -> pages (kdata s) !! PGROUNDDOWN a = Some ws -> length ws = 512%nat ->
  exists ws', store8 a v s = Ok tt (with_pages (<[PGROUNDDOWN a := ws']> (pages (kdata s))) s) /\ length ws' = 512%nat /\
    forall x, byte_at (<[PGROUNDDOWN a := ws']> (pages (kdata s))) x = if decide (x = a) then Some (u8 v) else byte_at (pages (kdata s)) x.
Proof.
  intros Ha Hm Hl. destruct (word_of a Ha) as (i & Hi & E1 & E2 & E3 & E4).
  destruct (lookup_lt_is_Some_2 ws (Z.to_nat i)) as [w Hw]; [lia|].
  pose proof (Z.mod_pos_bound a 8 ltac:(lia)) as Hr. unfold store8. rewrite E1, (bind_ok _ _ _ _ _ (load64_run s _ i ws w E4 Hm Hi Hw)).
  rewrite (store64_run s _ i ws _ E4 Hm Hi). eexists. split; [reflexivity|]. rewrite length_insert. split; [done|]. intros x.
  unfold byte_at. destruct (decide (PGROUNDDOWN x = PGROUNDDOWN a)) as [Hp|Hp].
  - rewrite Hp, lookup_insert_eq, Hm. cbn. rewrite wbyte_set by (done || lia || (apply Z.mod_pos_bound; lia)).
    rewrite !pgrounddown_eq in *. assert (a mod 4096 = 8 * i + a mod 8) as Em by lia.
    destruct (decide (x mod 4096 = 8 * i + a mod 8)), (decide (x = a)); first [done|lia|subst; lia].
  - rewrite lookup_insert_ne by done. rewrite decide_False by (intros ->; done). done.
Qed.

Lemma full_insert m pg ws : full m -> length ws = 512%nat -> full (<[pg := ws]> m).
Proof. intros Hf Hl x xs. rewrite lookup_insert_Some. intros [[_ <-]|[_ E]]; [done|by eapply Hf]. Qed.
Lemma holds_take m a bs n : holds m a bs -> holds m a (take n bs).
Proof. intros Hh j b Hj. apply Hh. by apply lookup_take_Some in Hj as [? _]. Qed.
Lemma holds_drop m a bs n : holds m a bs -> holds m (a + Z.of_nat n) (drop n bs).
Proof. intros Hh j b Hj. rewrite lookup_drop in Hj. rewrite <- (Hh _ _ Hj). f_equal. lia. Qed.
Lemma holds_bytes m a bs : holds m a bs -> u8 <$> bs = bs.
Proof.
  intros Hh. apply list_eq. intros j. rewrite list_lookup_fmap. destruct (bs !! j) as [b|] eqn:E; [|done]. cbn. f_equal.
  specialize (Hh _ _ E). unfold byte_at, wbyte in Hh. destruct (m !! _) as [ws|]; [|done]. cbn in Hh.
  destruct (ws !! _) as [w|]; [|done]. injection Hh as <-. apply (uwrap_small 8), get_byte_range.
Qed.
Lemma load_bytes_run bs a (s : K) : 0 <= a -> holds (pages (kdata s)) a bs -> load_bytes a (length bs) s = Ok bs s.
Proof.
  revert a. induction bs as [|b bs IH]; intros a Ha Hh; [done|]. cbn [length load_bytes].
  pose proof (Hh 0%nat b eq_refl) as Hb. rewrite Z.add_0_r in Hb. rewrite (bind_ok _ _ _ _ _ (load8_run a b s Ha Hb)).
  rewrite (bind_ok _ _ _ _ _ (IH (a + 1) ltac:(lia) (holds_drop _ _ _ 1 Hh))). done.
Qed.

Section Copy.
Variable end_ : Z.
Hypothesis end_pos : 0 < end_.
Variables (ps : list Z) (root : Z) (t : gmap (list Z) Z).
Notation mem s := (pages (kdata s)).
Notation pt s := (pt_ok end_ s ps root t).

(** A page that can be written without touching the tables or the allocator. *)
Definition plain (m : gmap Z (list Z)) (pg : Z) : Prop := is_Some (m !! pg) /\ pg ∉ ps /\ forall q, t !! q <> Some pg.

(** [m'] is [m] with [bs] stored at [a]. *)
Record stored (m : gmap Z (list Z)) (a : Z) (bs : list Z) (m' : gmap Z (list Z)) : Prop := {
  sd_new : holds m' a (u8 <$> bs);
  sd_old : forall x, ~ (a <= x < a + Z.of_nat (length bs)) -> byte_at m' x = byte_at m x;
  sd_dom : forall pg, is_Some (m' !! pg) <-> is_Some (m !! pg);
  sd_full : full m';
  sd_pte : forall va, pte_at m' t va = pte_at m t va }.

Lemma pt_write (s : K) pg ws : pt s -> pg ∉ ps -> (forall q, t !! q <> Some pg) -> length ws = 512%nat ->
  pt (with_pages (<[pg := ws]> (mem s)) s) /\ forall va, pte_at (<[pg := ws]> (mem s)) t va = pte_at (mem s) t va.
Proof using end_pos.
  intros T Hp Ht Hl. destruct (pt_ok_frame end_ s ps (with_pages (<[pg := ws]> (mem s)) s) ps root t T) as [T' Hpte]; [| |by split].
  - destruct ws as [|w ws]; [done|]. eapply kmem_ok_write; [apply T|done|done].
  - intros q x Hq. split; [|by eapply pt_page]. cbn. rewrite lookup_insert_ne; [done|]. intros ->. by apply (Ht q).
Qed.

Lemma store_bytes_run bs a (s : K) : pt s -> full (mem s) -> 0 <= a ->
  (forall x, a <= x < a + Z.of_nat (length bs) -> plain (mem s) (PGROUNDDOWN x)) ->
  exists m', store_bytes a bs s = Ok tt (with_pages m' s) /\ pt (with_pages m' s) /\ stored (mem s) a bs m'.
Proof using end_pos.
  revert a s. induction bs as [|b bs IH]; intros a s T Hf Ha Hpl.
  - exists (mem s). assert (with_pages (mem s) s = s) as -> by (by destruct s as [? ? ? [] ?]). split_and!; [done|done|].
    split; try done.
  - cbn [length] in Hpl. destruct (Hpl a ltac:(lia)) as ([ws Hws] & Hps & Htab).
    destruct (store8_run a b s ws Ha Hws (Hf _ _ Hws)) as (ws' & E & Hl & Hby). set (m1 := <[PGROUNDDOWN a := ws']> (mem s)) in *.
    destruct (pt_write s (PGROUNDDOWN a) ws' T Hps Htab Hl) as [T1 Hpte1].
    assert (forall pg, is_Some (m1 !! pg) <-> is_Some (mem s !! pg)) as Hdom.
    { intros pg. unfold m1. destruct (decide (pg = PGROUNDDOWN a)) as [->|]; [rewrite lookup_insert_eq, Hws; done|by rewrite lookup_insert_ne]. }
    destruct (IH (a + 1) (with_pages m1 s) T1 (full_insert _ _ _ Hf Hl) ltac:(lia)) as (m' & E' & T' & [Hn Ho Hd Hfu Hpt]).
    { intros x Hx. destruct (Hpl x ltac:(lia)) as (H1 & H2 & H3). split_and!; [by apply Hdom|done|done]. }
    exists m'. cbn [store_bytes]. rewrite (bind_ok _ _ _ _ _ E). split_and!; [exact E'|exact T'|]. cbn in Ho, Hd, Hpt. split.
    + intros [|j] c Hj; cbn in Hj.
      * injection Hj as <-. rewrite Z.add_0_r, Ho, Hby by lia. by rewrite decide_True.
      * rewrite <- (Hn j c Hj). f_equal. lia.
    + intros x Hx. cbn [length] in Hx. rewrite Ho, Hby by lia. by rewrite decide_False by lia.
    + intros pg. by rewrite Hd, Hdom.
    + done.
    + intros va. by rewrite Hpt.
Qed.

(** memmove between places that do not overlap in a page. *)
Lemma kmemmove_run dst src bs (s : K) : pt s -> full (mem s) -> 0 <= dst -> 0 <= src -> holds (mem s) src bs ->
  (forall x, dst <= x < dst + Z.of_nat (length bs) -> plain (mem s) (PGROUNDDOWN x)) ->
  exists m', memmove dst src (Z.of_nat (length bs)) s = Ok tt (with_pages m' s) /\ pt (with_pages m' s) /\ stored (mem s) dst bs m'.
Proof using end_pos.
  intros T Hf Hd Hs Hh Hpl. unfold memmove. rewrite Nat2Z.id, (bind_ok _ _ _ _ _ (load_bytes_run bs src s Hs Hh)).
  by apply store_bytes_run.
Qed.

(** ** User memory *)

Definition phys (m : gmap Z (list Z)) (va : Z) : Z := PTE2PA (pte_at m t va) + va mod 4096.
(** The page of [va] is mapped for the user, to a page of data. *)
Definition mapped (m : gmap Z (list Z)) (va : Z) : Prop := let w := pte_at m t va in
  has w PTE_V = true /\ has w PTE_U = true /\ data_page end_ ps t (PTE2PA w).

Lemma pte_at_page m va va' : va / 4096 = va' / 4096 -> pte_at m t va = pte_at m t va'.
Proof. intros E. unfold pte_at, leaf. by rewrite !px_page, E by lia. Qed.
Lemma phys_page m va : PTE2PA (pte_at m t va) mod 4096 = 0 -> 0 <= PTE2PA (pte_at m t va) -> PGROUNDDOWN (phys m va) = PTE2PA (pte_at m t va).
Proof.
  intros Ha H0. rewrite pgrounddown_eq. unfold phys. rewrite Z.add_mod, Ha, Z.add_0_l, !Z.mod_mod by lia. lia.
Qed.
Lemma mapped_data (s : K) va : pt s -> mapped (mem s) va ->
  PGROUNDDOWN (phys (mem s) va) = PTE2PA (pte_at (mem s) t va) /\ plain (mem s) (PTE2PA (pte_at (mem s) t va)) /\
  0 <= phys (mem s) va /\ PTE2PA (pte_at (mem s) t va) <> 0.
Proof using end_pos.
  intros T (_ & _ & [Hv Hp Hd]). destruct (valid_page_small end_ end_pos _ Hv) as (H1 & H2 & H3).
  destruct (ko_mapped _ _ _ (pt_mem _ _ _ _ _ T) _ Hv) as (w & ws & Hm).
  split_and!; [by apply phys_page; [|lia]|split_and!; [by eexists|done|done]| |done].
  unfold phys. pose proof (Z.mod_pos_bound va 4096 ltac:(lia)). lia.
Qed.
Lemma user_page_run p (s : K) va : pt s -> mapped (mem s) va -> 0 <= va < MAXVA ->
  user_page end_ p root (PGROUNDDOWN va) s = Ok (PTE2PA (pte_at (mem s) t va)) s.
Proof using end_pos.
  intros T Hm Hva. destruct (mapped_data s va T Hm) as (_ & _ & _ & Hnz). destruct Hm as (HV & HU & _).
  pose proof (Z.div_mod va 4096 ltac:(lia)). pose proof (Z.mod_pos_bound va 4096 ltac:(lia)).
  assert (PGROUNDDOWN va / 4096 = va / 4096) as Hpg.
  { rewrite pgrounddown_eq. replace (va - va mod 4096) with (va / 4096 * 4096) by lia. apply Z.div_mul. lia. }
  unfold user_page. rewrite (bind_ok _ _ _ _ _ (walkaddr_run end_ end_pos s ps root t (PGROUNDDOWN va) T ltac:(rewrite pgrounddown_eq; lia))).
  cbv zeta. rewrite (pte_at_page _ _ va Hpg), HV, HU. cbn [andb]. by rewrite decide_False.
Qed.

Lemma same_page va k : 0 <= k -> va mod 4096 + k < 4096 -> (va + k) / 4096 = va / 4096 /\ (va + k) mod 4096 = va mod 4096 + k.
Proof.
  intros Hk Hlt. pose proof (Z.div_mod va 4096 ltac:(lia)). pose proof (Z.mod_pos_bound va 4096 ltac:(lia)).
  assert ((va + k) / 4096 = va / 4096) as E by (symmetry; apply (Z.div_unique _ _ _ (va mod 4096 + k)); lia).
  split; [done|]. pose proof (Z.div_mod (va + k) 4096 ltac:(lia)). lia.
Qed.
Lemma phys_add m va k : 0 <= k -> va mod 4096 + k < 4096 -> phys m (va + k) = phys m va + k.
Proof. intros Hk Hlt. destruct (same_page va k Hk Hlt) as [E1 E2]. unfold phys. rewrite (pte_at_page m _ va E1), E2. lia. Qed.

(** The user range [va, va + n), page by page different from the kernel range [a, a + n). *)
Definition in_range (lo n x : Z) : Prop := lo <= x < lo + n.
Record user_range (m : gmap Z (list Z)) (va n a : Z) : Prop := {
  ur_low : 0 <= va; ur_high : va + n <= MAXVA; ur_kernel : 0 <= a;
  ur_mapped : forall x, in_range va n x -> mapped m x;
  ur_apart : forall x y, in_range va n x -> in_range a n y -> PGROUNDDOWN y <> PTE2PA (pte_at m t x) }.
Definition one_to_one (m : gmap Z (list Z)) (va n : Z) : Prop :=
  forall x y, in_range va n x -> in_range va n y -> PTE2PA (pte_at m t x) = PTE2PA (pte_at m t y) -> x / 4096 = y / 4096.
Lemma user_range_rest m m' va n a k : user_range m va n a -> 0 <= k -> (forall x, pte_at m' t x = pte_at m t x) ->
  user_range m' (va + k) (n - k) (a + k).
Proof.
  intros [H1 H2 H3 H4 H5] Hk Hp. unfold in_range in *. split; try lia.
  - intros x Hx. unfold mapped. rewrite Hp. apply H4. unfold in_range in Hx. lia.
  - intros x y Hx Hy. rewrite Hp. apply H5; unfold in_range in *; lia.
Qed.

Lemma with_pages_id (s : K) : with_pages (mem s) s = s.
Proof. by destruct s as [? ? ? [] ?]. Qed.

(** The bytes up to the end of the page. *)
Definition chunk (va n : Z) : Z := Z.min (PGSIZE - va mod 4096) n.
Lemma chunk_spec va n : 0 < n -> 0 < chunk va n <= n /\ va mod 4096 + chunk va n <= 4096 /\
  (chunk va n = n \/ PGROUNDDOWN va + PGSIZE = va + chunk va n).
Proof.
  intros Hn. pose proof (Z.mod_pos_bound va 4096 ltac:(lia)). rewrite pgrounddown_eq. unfold chunk, PGSIZE. lia.
Qed.
Lemma chunk_image m va n x : 0 < n ->
  phys m va <= x < phys m va + chunk va n <-> exists y, in_range va (chunk va n) y /\ x = phys m y.
Proof.
  intros Hn. destruct (chunk_spec va n Hn) as (Hk & Hk2 & _). unfold in_range. split.
  - intros Hx. exists (va + (x - phys m va)). split; [lia|]. rewrite phys_add by lia. lia.
  - intros (y & Hy & ->). replace y with (va + (y - va)) by lia. rewrite phys_add by lia. lia.
Qed.
(** The bytes of user memory from [va] on. *)
Definition user_holds (m : gmap Z (list Z)) (va : Z) (bs : list Z) : Prop :=
  forall j b, bs !! j = Some b -> byte_at m (phys m (va + Z.of_nat j)) = Some b.
Lemma user_holds_chunk m va bs : user_holds m va bs -> 0 < Z.of_nat (length bs) ->
  holds m (phys m va) (take (Z.to_nat (chunk va (Z.of_nat (length bs)))) bs).
Proof.
  intros Hh Hn. destruct (chunk_spec va _ Hn) as (Hk & Hk2 & _). intros j b [Hj Hlt]%lookup_take_Some.
  rewrite <- phys_add by lia. by apply Hh.
Qed.

Variable p : uproc.

(** ** copyout *)

Lemma copyout_turn fuel bs va a (s : K) (n := Z.of_nat (length bs)) (k := chunk va n) : 0 < n -> pt s -> full (mem s) ->
  user_range (mem s) va n a -> has (pte_at (mem s) t va) PTE_W = true -> holds (mem s) a bs ->
  exists m1, copyout_loop end_ p (S fuel) root va a n s =
      copyout_loop end_ p fuel root (PGROUNDDOWN va + PGSIZE) (a + k) (n - k) (with_pages m1 s) /\
    pt (with_pages m1 s) /\ stored (mem s) (phys (mem s) va) (take (Z.to_nat k) bs) m1.
Proof using end_pos.
  intros Hpos T Hf HU HW Hh. cbn [copyout_loop]. rewrite decide_False by lia.
  pose proof HU as [Hlow Hhigh Hker Hmap Hapart]. assert (in_range va n va) as Hin by (unfold in_range; lia).
  pose proof (Z.mod_pos_bound va 4096 ltac:(lia)) as Hoff. destruct (chunk_spec va n Hpos) as (Hk & Hk2 & _). fold k in Hk, Hk2.
  assert (va - PGROUNDDOWN va = va mod 4096) as Hpo by (rewrite pgrounddown_eq; lia).
  rewrite decide_False by (rewrite pgrounddown_eq; lia).
  rewrite (bind_ok _ _ _ _ _ (user_page_run p s va T (Hmap va Hin) ltac:(lia))).
  destruct (mapped_data s va T (Hmap va Hin)) as (Hpg & Hplain & Hph & Hnz). rewrite decide_False by done.
  rewrite (bind_ok _ _ _ _ _ (walk_lookup end_ end_pos s ps root t (PGROUNDDOWN va) T ltac:(rewrite pgrounddown_eq; lia))).
  assert (PGROUNDDOWN va / 4096 = va / 4096) as Hdiv.
  { rewrite pgrounddown_eq. pose proof (Z.div_mod va 4096 ltac:(lia)). replace (va - va mod 4096) with (va / 4096 * 4096) by lia. apply Z.div_mul. lia. }
  pose proof (pte_at_page (mem s) _ va Hdiv) as Hpte. destruct (leaf t (PGROUNDDOWN va)) as [lf|] eqn:Elf.
  2: { exfalso. destruct (Hmap va Hin) as (HV & _). rewrite <- Hpte in HV. unfold pte_at in HV. rewrite Elf in HV. done. }
  destruct (load_leaf end_ end_pos s ps root t _ lf T Elf) as [Hload _]. rewrite (bind_ok _ _ _ _ _ Hload), Hpte, HW. cbn [negb].
  rewrite Hpo. fold (phys (mem s) va). change (Z.min (PGSIZE - va mod 4096) n) with k.
  set (b1 := take (Z.to_nat k) bs). assert (Z.of_nat (length b1) = k) as Hl1 by (unfold b1; rewrite length_take; lia).
  destruct (kmemmove_run (phys (mem s) va) a b1 s T Hf Hph Hker (holds_take _ _ _ _ Hh)) as (m1 & E1 & T1 & S1).
  { intros x Hx. rewrite Hl1 in Hx. apply (chunk_image _ va n x Hpos) in Hx as (y & Hy & ->). fold k in Hy.
    assert (in_range va n y) as Hix by (unfold in_range in *; lia).
    destruct (mapped_data s _ T (Hmap _ Hix)) as (-> & Hpl & _). exact Hpl. }
  rewrite Hl1 in E1. rewrite (bind_ok _ _ _ _ _ E1). by exists m1.
Qed.

(** Two addresses of the range are at different places. *)
Lemma phys_inj (s : K) va n x y : pt s -> (forall x, in_range va n x -> mapped (mem s) x) -> one_to_one (mem s) va n ->
  in_range va n x -> in_range va n y -> phys (mem s) x = phys (mem s) y -> x = y.
Proof using end_pos.
  intros T Hmap H11 Hx Hy E. pose proof (f_equal PGROUNDDOWN E) as Ep.
  rewrite (proj1 (mapped_data s x T (Hmap x Hx))), (proj1 (mapped_data s y T (Hmap y Hy))) in Ep.
  pose proof (H11 _ _ Hx Hy Ep) as Hsame. unfold phys in E. rewrite Ep in E.
  pose proof (Z.div_mod x 4096 ltac:(lia)). pose proof (Z.div_mod y 4096 ltac:(lia)). lia.
Qed.

(** What copyout has done. *)
Record copied_out (s : K) (va : Z) (bs : list Z) (m' : gmap Z (list Z)) : Prop := {
  co_pt : pt (with_pages m' s);
  co_full : full m';
  co_dom : forall pg, is_Some (m' !! pg) <-> is_Some (mem s !! pg);
  co_pte : forall x, pte_at m' t x = pte_at (mem s) t x;
  co_new : user_holds m' va bs;
  co_old : forall x, (forall y, in_range va (Z.of_nat (length bs)) y -> x <> phys (mem s) y) -> byte_at m' x = byte_at (mem s) x }.
Lemma copied_nothing (s : K) va : pt s -> full (mem s) -> copied_out s va [] (mem s).
Proof. intros T Hf. split; try done. by rewrite with_pages_id. Qed.

(** A turn, and the rest. *)
Lemma copied_out_step (s : K) va a bs m1 m' (n := Z.of_nat (length bs)) (k := chunk va n) : 0 < n -> pt s ->
  user_range (mem s) va n a -> one_to_one (mem s) va n -> holds (mem s) a bs ->
  stored (mem s) (phys (mem s) va) (take (Z.to_nat k) bs) m1 ->
  copied_out (with_pages m1 s) (va + k) (drop (Z.to_nat k) bs) m' -> copied_out s va bs m'.
Proof using end_pos.
  intros Hpos T [Hlow Hhigh Hker Hmap Hapart] H11 Hh [Sn So Sd Sf Sp] [T' F' D' P' N' O']. cbn in *.
  destruct (chunk_spec va n Hpos) as (Hk & Hk2 & _). fold k in Hk, Hk2.
  rewrite (holds_bytes (mem s) a) in Sn by (by apply holds_take).
  assert (Z.of_nat (length (take (Z.to_nat k) bs)) = k) as Hl1 by (rewrite length_take; lia).
  assert (Z.of_nat (length (drop (Z.to_nat k) bs)) = n - k) as Hl2 by (rewrite length_drop; lia). rewrite Hl1 in So. rewrite Hl2 in O'.
  assert (forall x, phys m1 x = phys (mem s) x /\ phys m' x = phys (mem s) x) as Hphys by (intros x; unfold phys; by rewrite P', Sp).
  split; [exact T'|done|intros pg; by rewrite D', Sd|intros x; by rewrite P'| |].
  - intros j b Hj. rewrite (proj2 (Hphys _)). pose proof (lookup_lt_Some _ _ _ Hj) as Hjl. destruct (decide (Z.of_nat j < k)) as [Hjk|Hjk].
    + rewrite O'.
      * rewrite phys_add by lia. apply Sn. rewrite lookup_take_lt; [done|lia].
      * intros y Hy. rewrite (proj1 (Hphys _)). intros Ey. unfold in_range in Hy.
        assert (va + Z.of_nat j = y); [|lia]. apply (phys_inj s va n); unfold in_range; (done || lia).
    + replace (va + Z.of_nat j) with (va + k + Z.of_nat (j - Z.to_nat k)) by lia. rewrite <- (proj2 (Hphys _)). apply N'.
      rewrite lookup_drop, <- Hj. f_equal. lia.
  - intros x Hx. rewrite O', So; [done| |].
    + intros (y & Hy & ->)%(chunk_image _ va n x Hpos). apply (Hx y); [|done]. fold k in Hy. unfold in_range in *. lia.
    + intros y Hy. rewrite (proj1 (Hphys _)). apply Hx. unfold in_range in *. lia.
Qed.

Lemma copyout_run fuel bs va a (s : K) (n := Z.of_nat (length bs)) : (length bs <= fuel)%nat -> pt s -> full (mem s) ->
  user_range (mem s) va n a -> one_to_one (mem s) va n -> (forall x, in_range va n x -> has (pte_at (mem s) t x) PTE_W = true) ->
  holds (mem s) a bs ->
  exists m', copyout_loop end_ p fuel root va a n s = Ok 0 (with_pages m' s) /\ copied_out s va bs m'.
Proof using end_pos.
  revert bs va a s n. induction fuel as [|fuel IH]; intros bs va a s n Hfu T Hf HU H11 HW Hh.
  { destruct bs; [|cbn in Hfu; lia]. exists (mem s). rewrite with_pages_id. split; [done|by apply copied_nothing]. }
  destruct (decide (n <= 0)) as [Hz|Hpos%Z.nle_gt].
  { destruct bs; [|unfold n in Hz; cbn in Hz; lia]. exists (mem s). rewrite with_pages_id. split; [done|by apply copied_nothing]. }
  pose proof HU as [Hlow Hhigh Hker Hmap Hapart].
  destruct (copyout_turn fuel bs va a s Hpos T Hf HU (HW va ltac:(unfold in_range; lia)) Hh) as (m1 & E1 & T1 & S1).
  fold n in E1, S1. set (k := chunk va n) in *. destruct (chunk_spec va n Hpos) as (Hk & Hk2 & Hnext). fold k in Hk, Hk2, Hnext.
  set (b2 := drop (Z.to_nat k) bs). assert (Z.of_nat (length b2) = n - k) as Hl2 by (unfold b2; rewrite length_drop; lia).
  assert (exists m', copyout_loop end_ p fuel root (PGROUNDDOWN va + PGSIZE) (a + k) (n - k) (with_pages m1 s) = Ok 0 (with_pages m' s) /\
    copied_out (with_pages m1 s) (va + k) b2 m') as (m' & E' & C').
  { destruct S1 as [Sn So Sd Sf Sp]. destruct (decide (k = n)) as [Ekn|Hkn].
    - rewrite Ekn, Z.sub_diag in *. destruct b2; [|cbn in Hl2; lia]. exists m1.
      split; [by destruct fuel; cbn [copyout_loop]; rewrite decide_True|]. by apply (copied_nothing (with_pages m1 s)).
    - destruct Hnext as [?|Hnext]; [done|]. rewrite Hnext, <- Hl2. change (with_pages ?m' s) with (with_pages m' (with_pages m1 s)).
      apply IH; [lia|exact T1|exact Sf| | | |]; rewrite ?Hl2; cbn.
      + by apply (user_range_rest (mem s)); [|lia|].
      + intros x y Hx Hy. rewrite !Sp. apply H11; unfold in_range in *; lia.
      + intros x Hx. rewrite Sp. apply HW. unfold in_range in *. lia.
      + replace k with (Z.of_nat (Z.to_nat k)) at 1 by lia. intros j b Hj. rewrite <- (holds_drop _ _ _ (Z.to_nat k) Hh j b Hj).
        apply So. replace (Z.of_nat (length (take (Z.to_nat k) bs))) with k by (rewrite length_take; lia). intros (y & Hy & Ey)%(chunk_image _ va n _ Hpos).
        apply lookup_lt_Some in Hj. fold k in Hy. assert (in_range va n y) as Hyn by (unfold in_range in *; lia).
        apply (Hapart y (a + Z.of_nat (Z.to_nat k) + Z.of_nat j) Hyn); [unfold in_range; lia|].
        rewrite Ey. by destruct (mapped_data s y T (Hmap y Hyn)) as (-> & _). }
  exists m'. split; [by rewrite E1|]. by eapply copied_out_step.
Qed.

(** ** copyin *)

Lemma kstored_app m a b1 m1 b2 m' : stored m a b1 m1 -> stored m1 (a + Z.of_nat (length b1)) b2 m' -> stored m a (b1 ++ b2) m'.
Proof.
  intros [N1 O1 D1 F1 P1] [N2 O2 D2 F2 P2]. split.
  - rewrite fmap_app. intros j b [Hj|[Hl Hj]]%lookup_app_Some.
    + rewrite O2; [by apply N1|]. apply lookup_lt_Some in Hj. rewrite length_fmap in Hj. lia.
    + rewrite length_fmap in *. rewrite <- (N2 _ _ Hj). f_equal. lia.
  - intros x Hx. rewrite length_app in Hx. rewrite O2, O1 by lia. done.
  - intros pg. by rewrite D2, D1.
  - done.
  - intros va. by rewrite P2, P1.
Qed.
Lemma copyin_turn fuel bs va a (s : K) (n := Z.of_nat (length bs)) (k := chunk va n) : 0 < n -> pt s -> full (mem s) ->
  user_range (mem s) va n a -> (forall y, in_range a n y -> plain (mem s) (PGROUNDDOWN y)) -> user_holds (mem s) va bs ->
  exists m1, copyin_loop end_ p (S fuel) root a va n s =
      copyin_loop end_ p fuel root (a + k) (PGROUNDDOWN va + PGSIZE) (n - k) (with_pages m1 s) /\
    pt (with_pages m1 s) /\ stored (mem s) a (take (Z.to_nat k) bs) m1.
Proof using end_pos.
  intros Hpos T Hf [Hlow Hhigh Hker Hmap Hapart] Hpl Hh. cbn [copyin_loop]. rewrite decide_False by lia.
  assert (in_range va n va) as Hin by (unfold in_range; lia). destruct (chunk_spec va n Hpos) as (Hk & Hk2 & _). fold k in Hk, Hk2.
  rewrite (bind_ok _ _ _ _ _ (user_page_run p s va T (Hmap va Hin) ltac:(lia))).
  destruct (mapped_data s va T (Hmap va Hin)) as (_ & _ & Hph & Hnz). rewrite decide_False by done.
  replace (va - PGROUNDDOWN va) with (va mod 4096) by (rewrite pgrounddown_eq; lia). fold (phys (mem s) va).
  change (Z.min (PGSIZE - va mod 4096) n) with k.
  assert (Z.of_nat (length (take (Z.to_nat k) bs)) = k) as Hl1 by (rewrite length_take; lia).
  destruct (kmemmove_run a (phys (mem s) va) (take (Z.to_nat k) bs) s T Hf Hker Hph (user_holds_chunk _ _ _ Hh Hpos)) as (m1 & E1 & T1 & S1).
  { intros x Hx. rewrite Hl1 in Hx. apply Hpl. unfold in_range. lia. }
  rewrite Hl1 in E1. rewrite (bind_ok _ _ _ _ _ E1). by exists m1.
Qed.
Lemma copyin_run fuel bs va a (s : K) (n := Z.of_nat (length bs)) : (length bs <= fuel)%nat -> pt s -> full (mem s) ->
  user_range (mem s) va n a -> (forall y, in_range a n y -> plain (mem s) (PGROUNDDOWN y)) -> user_holds (mem s) va bs ->
  exists m', copyin_loop end_ p fuel root a va n s = Ok 0 (with_pages m' s) /\ pt (with_pages m' s) /\ stored (mem s) a bs m'.
Proof using end_pos.
  revert bs va a s n. induction fuel as [|fuel IH]; intros bs va a s n Hfu T Hf HU Hpl Hh.
  { destruct bs; [|cbn in Hfu; lia]. exists (mem s). rewrite with_pages_id. split_and!; [done|done|by split]. }
  destruct (decide (n <= 0)) as [Hz|Hpos%Z.nle_gt].
  { destruct bs; [|unfold n in Hz; cbn in Hz; lia]. exists (mem s). rewrite with_pages_id. split_and!; [done|done|by split]. }
  pose proof HU as [Hlow Hhigh Hker Hmap Hapart].
  destruct (copyin_turn fuel bs va a s Hpos T Hf HU Hpl Hh) as (m1 & E1 & T1 & S1). fold n in E1, S1.
  set (k := chunk va n) in *. destruct (chunk_spec va n Hpos) as (Hk & Hk2 & Hnext). fold k in Hk, Hk2, Hnext.
  set (b2 := drop (Z.to_nat k) bs). assert (Z.of_nat (length b2) = n - k) as Hl2 by (unfold b2; rewrite length_drop; lia).
  assert (Z.of_nat (length (take (Z.to_nat k) bs)) = k) as Hl1 by (rewrite length_take; lia).
  assert (exists m', copyin_loop end_ p fuel root (a + k) (PGROUNDDOWN va + PGSIZE) (n - k) (with_pages m1 s) = Ok 0 (with_pages m' s) /\
    pt (with_pages m' s) /\ stored m1 (a + k) b2 m') as (m' & E' & T' & S').
  { pose proof S1 as [Sn So Sd Sf Sp]. rewrite Hl1 in So. destruct (decide (k = n)) as [Ekn|Hkn].
    - rewrite Ekn, Z.sub_diag in *. destruct b2; [|cbn in Hl2; lia]. exists m1.
      split_and!; [by destruct fuel; cbn [copyin_loop]; rewrite decide_True|done|by split].
    - destruct Hnext as [?|Hnext]; [done|]. rewrite Hnext, <- Hl2. change (with_pages ?m' s) with (with_pages m' (with_pages m1 s)).
      apply (IH b2 (va + k) (a + k) (with_pages m1 s)); [lia|exact T1|exact Sf| | |]; rewrite ?Hl2; cbn.
      + by apply (user_range_rest (mem s)); [|lia|].
      + intros y Hy. destruct (Hpl y) as (H1 & H2 & H3); [unfold in_range in *; lia|]. split_and!; [by apply Sd|done|done].
      + intros j b Hj. assert (phys m1 (va + k + Z.of_nat j) = phys (mem s) (va + k + Z.of_nat j)) as -> by (unfold phys; by rewrite Sp).
        pose proof (lookup_lt_Some _ _ _ Hj). unfold b2 in Hj. rewrite lookup_drop in Hj.
        assert (in_range va n (va + k + Z.of_nat j)) as Hir by (unfold in_range; lia). rewrite So.
        * rewrite <- (Hh _ _ Hj). do 2 f_equal. lia.
        * intros Hx. apply (Hapart _ (phys (mem s) (va + k + Z.of_nat j)) Hir); [unfold in_range; lia|].
          by destruct (mapped_data s _ T (Hmap _ Hir)) as (-> & _). }
  exists m'. rewrite E1. split_and!; [exact E'|exact T'|]. rewrite <- (take_drop (Z.to_nat k) bs).
  apply (kstored_app _ _ _ m1); [done|]. by rewrite Hl1.
Qed.
End Copy.

(** C9: What the kernel copies out it copies in again.  Over a well-formed page table, for a
    range of user memory, of any length and alignment, whose pages are mapped for the user
    and writable, each to a page of data of its own, copyout of a kernel buffer returns 0 and
    puts exactly its bytes at the places of the range, through the page table; no other byte
    of memory, no translation and no free page changes.  copyin of the range into another
    buffer then returns 0 and leaves the same bytes there, again changing nothing else. *)
Theorem copy_round_trip end_ p ps root t (s : K) va a a2 bs (n := Z.of_nat (length bs)) : 0 < end_ ->
  pt_ok end_ s ps root t -> full (pages (kdata s)) ->
  user_range end_ ps t (pages (kdata s)) va n a -> one_to_one t (pages (kdata s)) va n ->
  (forall x, in_range va n x -> has (pte_at (pages (kdata s)) t x) PTE_W = true) ->
  holds (pages (kdata s)) a bs ->
  user_range end_ ps t (pages (kdata s)) va n a2 -> (forall y, in_range a2 n y -> plain ps t (pages (kdata s)) (PGROUNDDOWN y)) ->
  exists m1 m2, copyout end_ p root va a n s = Ok 0 (with_pages m1 s) /\ copied_out end_ ps root t s va bs m1 /\
    copyin end_ p root a2 va n (with_pages m1 s) = Ok 0 (with_pages m2 s) /\
    pt_ok end_ (with_pages m2 s) ps root t /\ holds m2 a2 bs /\
    (forall x, ~ in_range a2 n x -> byte_at m2 x = byte_at m1 x) /\ user_holds t m2 va bs.
Proof.
  intros He T Hf HU H11 HW Hh HU2 Hpl. unfold copyout, copyin.
  destruct (copyout_run end_ He ps root t p (Z.to_nat n) bs va a s) as (m1 & E1 & C1); try done; [lia|].
  pose proof C1 as [T1 F1 D1 P1 N1 O1].
  assert (user_range end_ ps t m1 va n a2) as HU1.
  { rewrite <- (Z.add_0_r va), <- (Z.sub_0_r n), <- (Z.add_0_r a2). by apply (user_range_rest end_ ps t (pages (kdata s))). }
  destruct (copyin_run end_ He ps root t p (Z.to_nat n) bs va a2 (with_pages m1 s)) as (m2 & E2 & T2 & [Sn So Sd Sf Sp]); try done; [lia| |].
  { intros y Hy. destruct (Hpl y Hy) as (H1 & H2 & H3). split_and!; [by apply D1|done|done]. }
  rewrite (holds_bytes (pages (kdata s)) a bs Hh) in Sn. cbn in So, Sp.
  exists m1, m2. split_and!; [exact E1|exact C1|exact E2|exact T2|exact Sn|exact So|].
  intros j b Hj. assert (phys t m2 (va + Z.of_nat j) = phys t m1 (va + Z.of_nat j)) as -> by (unfold phys; by rewrite Sp).
  rewrite So; [by apply N1|]. apply lookup_lt_Some in Hj. intros Hx.
  assert (in_range va n (va + Z.of_nat j)) as Hir by (unfold in_range; lia).
  apply (ur_apart _ _ _ _ _ _ _ HU1 _ (phys t m1 (va + Z.of_nat j)) Hir); [done|].
  exact (proj1 (mapped_data end_ He ps root t (with_pages m1 s) _ T1 (ur_mapped _ _ _ _ _ _ _ HU1 _ Hir))).
Qed.

(** ** Four bytes across a page boundary *)

Definition grow3 : M K Z := kinit end8 ;; let! root := uvmcreate in uvmalloc end8 root 0 12288 PTE_W.
Lemma grow3_facts : match grow3 kmem8 with
  | Ok r s => r = 12288 /\ map_Forall (fun _ ws => length ws = 512%nat) (pages (kdata s)) | _ => False end.
Proof.
  assert ((match grow3 kmem8 with
    | Ok r s => bool_decide (r = 12288) && forallb (fun x => bool_decide (length x.2 = 512%nat)) (map_to_list (pages (kdata s)))
    | _ => false end) = true) as Hc by (vm_compute; reflexivity).
  destruct (grow3 kmem8) as [r s| |]; [|done|done]. apply andb_true_iff in Hc as [H1 H2]. split; [by apply bool_decide_eq_true in H1|].
  intros pg ws Hws. apply elem_of_map_to_list, list_elem_of_In in Hws. rewrite forallb_forall in H2.
  specialize (H2 _ Hws). by apply bool_decide_eq_true in H2.
Qed.

(** Three pages of user memory; the third is the buffer of the kernel. *)
Definition perm3 : Z := Z.lor (Z.lor PTE_R PTE_U) PTE_W.
Lemma grown3 : exists s ps root t d0 d1 d2, pt_ok end8 s ps root t /\ full (pages (kdata s)) /\ NoDup [d0; d1; d2] /\
  Forall (data_page end8 ps t) [d0; d1; d2] /\
  pte_at (pages (kdata s)) t 0 = leaf_entry d0 perm3 /\ pte_at (pages (kdata s)) t 4096 = leaf_entry d1 perm3.
Proof.
  assert (0 < end8) as He by reflexivity. destruct boot8 as (s1 & p & ps & Hrun & Hk).
  destruct (uvmcreate_run end8 He s1 p ps Hk) as (s & Hcr & T & _ & Hz).
  destruct (uvmalloc_run end8 He s ps p _ 0 12288 PTE_W T) as (r & s' & ps' & t' & nt & ds & Hal & Hres);
    [lia|change MAXVA with (2 ^ 38); lia|change PTE_W with 4; lia|intros v _; rewrite Hz; apply has_zero|].
  assert (grow3 kmem8 = Ok r s') as Hg by (unfold grow3; by rewrite (bind_ok _ _ _ _ _ Hrun), (bind_ok _ _ _ _ _ Hcr)).
  pose proof grow3_facts as HF. rewrite Hg in HF. destruct HF as [-> Hf].
  destruct Hres as [(_ & Hl & A & _)|[? _]]; [|done]. change (PGROUNDUP64 12288 - PGROUNDUP64 0) with 12288 in Hl. unfold PGSIZE in Hl.
  destruct ds as [|d0 [|d1 [|d2 [|]]]]; cbn [length] in Hl; try lia.
  exists s', ps', p, t', d0, d1, d2. split_and!; [apply A|exact Hf| |apply A|exact (al_pte _ _ _ _ _ _ _ _ _ _ _ _ A 0 d0 eq_refl)|exact (al_pte _ _ _ _ _ _ _ _ _ _ _ _ A 1 d1 eq_refl)].
  pose proof (ko_nodup _ _ _ (pt_mem _ _ _ _ _ T)) as Hnd. rewrite (al_pages _ _ _ _ _ _ _ _ _ _ _ _ A) in Hnd.
  by apply NoDup_app in Hnd as (_ & _ & [Hnd _]%NoDup_app).
Qed.
Lemma leaf3 pa : valid_page end8 pa -> has (leaf_entry pa perm3) PTE_V = true /\ has (leaf_entry pa perm3) PTE_U = true /\
  has (leaf_entry pa perm3) PTE_W = true /\ PTE2PA (leaf_entry pa perm3) = pa.
Proof.
  intros Hv. destruct (valid_page_small end8 ltac:(reflexivity) pa Hv) as (H1 & H2 & _).
  assert (0 <= perm3 < 1024) as Hp by (change perm3 with 22; lia).
  destruct (leaf_entry_ok pa perm3 H1 H2 Hp) as (HV & HU & HP).
  split_and!; [exact HV|exact HU| |exact HP]. unfold leaf_entry. rewrite <- Z.lor_assoc. change PTE_W with (Z.shiftl 1 2).
  rewrite (has_flags pa _ 2 H1); [done|lia].
Qed.
Lemma copy_setting : exists s ps root t a, pt_ok end8 s ps root t /\ full (pages (kdata s)) /\
  holds (pages (kdata s)) a [1; 2; 3; 4] /\ one_to_one t (pages (kdata s)) 4094 4 /\
  (forall x, in_range 4094 4 x -> has (pte_at (pages (kdata s)) t x) PTE_W = true) /\
  (forall i, 0 <= i <= 100 -> user_range end8 ps t (pages (kdata s)) 4094 4 (a + i) /\
     forall y, in_range (a + i) 4 y -> plain ps t (pages (kdata s)) (PGROUNDDOWN y)).
Proof.
  assert (0 < end8) as He by reflexivity. destruct grown3 as (s & ps & root & t & d0 & d1 & d2 & T & Hf & Hnd & HD & P0 & P1).
  apply NoDup_cons in Hnd as [N0 Hnd]. apply NoDup_cons in Hnd as [N1 _].
  apply not_elem_of_cons in N0 as [N01 N0]. apply not_elem_of_cons in N0 as [N02 _]. apply not_elem_of_cons in N1 as [N12 _].
  apply Forall_cons in HD as [D0 HD]. apply Forall_cons in HD as [D1 HD]. apply Forall_cons in HD as [D2 _].
  destruct (valid_page_small end8 He d2 (dp_valid _ _ _ _ D2)) as (H2r & H2m & H2n).
  assert (forall y, d2 <= y < d2 + 4096 -> PGROUNDDOWN y = d2) as Hpg.
  { intros y Hy. rewrite pgrounddown_eq. replace y with (d2 + (y - d2)) at 2 by lia.
    rewrite Z.add_mod, H2m, Z.add_0_l, Z.mod_mod, Z.mod_small by lia. lia. }
  assert (plain ps t (pages (kdata s)) d2) as Hpl.
  { destruct (ko_mapped _ _ _ (pt_mem _ _ _ _ _ T) _ (dp_valid _ _ _ _ D2)) as (w & ws & Hm). split_and!; [by eexists|apply D2|apply D2]. }
  assert (forall x, d2 <= x < d2 + Z.of_nat (length [1; 2; 3; 4]) -> plain ps t (pages (kdata s)) (PGROUNDDOWN x)) as Hrange
    by (intros x Hx; cbn in Hx; rewrite Hpg by lia; exact Hpl).
  pose proof (store_bytes_run end8 He ps root t [1; 2; 3; 4] d2 s T Hf (proj1 H2r) Hrange) as Hst.
  destruct Hst as (m & _ & T1 & [Sn So Sd Sf Sp]).
  assert (forall x, in_range 4094 4 x -> exists d, (d = d0 \/ d = d1) /\ (d = d0 <-> x / 4096 = 0) /\ (d = d1 <-> x / 4096 = 1) /\ pte_at m t x = leaf_entry d perm3) as Hpte.
  { intros x Hx. unfold in_range in Hx. rewrite Sp. destruct (decide (x < 4096)) as [Hlt|Hge].
    - exists d0. assert (x / 4096 = 0) as E by (apply Z.div_small; lia). rewrite E, <- P0. split_and!; [by left|done| |by apply pte_at_page].
      split; [intros E1; by destruct N01|lia].
    - exists d1. assert (x / 4096 = 1) as E by (symmetry; apply (Z.div_unique _ _ _ (x - 4096)); lia).
      rewrite E, <- P1. split_and!; [by right| |done|by apply pte_at_page]. split; [intros E1; by destruct N01|lia]. }
  assert (forall d, d = d0 \/ d = d1 -> data_page end8 ps t d /\ d <> d2) as Hd by (intros d [-> | ->]; by split).
  exists (with_pages m s), ps, root, t, d2. split_and!; [exact T1|exact Sf|exact Sn| | |].
  - intros x y Hx Hy E. destruct (Hpte x Hx) as (dx & Hx1 & Hx2 & Hx3 & Ex). destruct (Hpte y Hy) as (dy & Hy1 & Hy2 & Hy3 & Ey).
    cbn in E. rewrite Ex, Ey in E. destruct (leaf3 dx (dp_valid _ _ _ _ (proj1 (Hd _ Hx1)))) as (_ & _ & _ & Qx).
    destruct (leaf3 dy (dp_valid _ _ _ _ (proj1 (Hd _ Hy1)))) as (_ & _ & _ & Qy). rewrite Qx, Qy in E.
    subst dy. destruct Hx1 as [Ed|Ed]; [by rewrite (proj1 Hx2 Ed), (proj1 Hy2 Ed)|by rewrite (proj1 Hx3 Ed), (proj1 Hy3 Ed)].
  - intros x Hx. destruct (Hpte x Hx) as (dx & Hx1 & _ & _ & Ex). cbn. rewrite Ex. apply leaf3, Hd, Hx1.
  - intros i Hi. split.
    + split; [lia|change MAXVA with (2 ^ 38); lia|lia| |].
      * intros x Hx. destruct (Hpte x Hx) as (dx & Hx1 & _ & _ & Ex). destruct (Hd dx Hx1) as [Dx _].
        destruct (leaf3 dx (dp_valid _ _ _ _ Dx)) as (HV & HU & _ & HP). unfold mapped. cbn. rewrite Ex, HP. done.
      * intros x y Hx Hy. destruct (Hpte x Hx) as (dx & Hx1 & _ & _ & Ex). destruct (Hd dx Hx1) as [Dx Hne].
        destruct (leaf3 dx (dp_valid _ _ _ _ Dx)) as (_ & _ & _ & HP). cbn. rewrite Ex, HP, Hpg; [done|unfold in_range in Hy; lia].
    + intros y Hy. cbn. rewrite Hpg by (unfold in_range in Hy; lia). destruct Hpl as (Q1 & Q2 & Q3). split_and!; [by apply Sd|done|done].
Qed.
Lemma copy_round_trip_witness : exists (s : K) root a m1 m2,
  copyout end8 (mkUproc 0 0) root 4094 a 4 s = Ok 0 (with_pages m1 s) /\
  copyin end8 (mkUproc 0 0) root (a + 100) 4094 4 (with_pages m1 s) = Ok 0 (with_pages m2 s) /\ holds m2 (a + 100) [1; 2; 3; 4].
Proof.
  destruct copy_setting as (s & ps & root & t & a & T & Hf & Hh & H11 & HW & HU).
  destruct (HU 0 ltac:(lia)) as [HU0 _]. rewrite Z.add_0_r in HU0. destruct (HU 100 ltac:(lia)) as [HU1 Hpl].
  destruct (copy_round_trip end8 (mkUproc 0 0) ps root t s 4094 a (a + 100) [1; 2; 3; 4] eq_refl T Hf HU0 H11 HW Hh HU1 Hpl)
    as (m1 & m2 & E1 & _ & E2 & _ & Hh2 & _). exists s, root, a, m1, m2. split; [exact E1|split; [exact E2|exact Hh2]].
Defined.
