(* ===== verification/Pipe.v ===== *)
(** * kernel/pipe.c: a bounded byte queue

    The pipe's lock, its 512-byte ring and its 32-bit counters are the state; the
    counters run freely and wrap around.  [sleep] gives the lock up and ends the
    activation with [WSleep]/[RSleep]; the loop is entered again, with the same
    progress, when the process is woken.  The caller's memory is reached through
    [copyin] and [copyout] one byte at a time, and whether the caller has been
    killed is asked in every round. *)

From Stdlib Require Import ZArith Lia.
From stdpp Require Import base numbers list strings.
From S2P Require Import Prelude Spinlock.
Open Scope Z_scope.

Definition PIPESIZE : Z := 512.

Record pipe : Type := mkPipe {
  data : list Z; nread : Z; nwrite : Z; readopen : Z; writeopen : Z }.

Definition set_readopen v p := mkPipe (data p) (nread p) (nwrite p) v (writeopen p).
Definition set_writeopen v p := mkPipe (data p) (nread p) (nwrite p) (readopen p) v.
Definition set_nread v p := mkPipe (data p) v (nwrite p) (readopen p) (writeopen p).
Definition set_nwrite v p := mkPipe (data p) (nread p) v (readopen p) (writeopen p).
Definition set_data v p := mkPipe v (nread p) (nwrite p) (readopen p) (writeopen p).

(** The channels &pi->nread and &pi->nwrite. *)
Definition chan_nread : Z := 1.
Definition chan_nwrite : Z := 2.

(** The pipe that pipealloc sets up in a fresh page. *)
Definition pipe_init (page : list Z) (p : pipe) : pipe := mkPipe page 0 0 1 1.

(** pipeclose: [true] when the last end was closed and the page freed. *)
Definition pipeclose (writable : bool) : M (kobj pipe) bool :=
  acquire the_lock ;;
  (if writable then kmod (set_writeopen 0) ;; kwakeup chan_nread
   else kmod (set_readopen 0) ;; kwakeup chan_nwrite) ;;
  let! p := kget in
  if decide (readopen p = 0 /\ writeopen p = 0) then release the_lock ;; ret true
  else release the_lock ;; ret false.

Inductive wout : Type := WRet (r : Z) | WSleep (i : Z).

Section PipeWrite.
Variables (copyin : Z -> option Z) (killed : Z -> bool) (addr n : Z).

Definition write_end (i : Z) : M (kobj pipe) wout :=
  kwakeup chan_nread ;;
  release the_lock ;;
  ret (WRet i).

(** The while loop from progress [i], with the lock held. *)
Fixpoint pipewrite_loop (fuel : nat) (i : Z) : M (kobj pipe) wout :=
  match fuel with
  | O => fun _ => Fault OutOfFuel
  | S fuel' =>
      if decide (i < n) then
        let! p := kget in
        if decide (readopen p = 0 \/ killed i = true) then
          release the_lock ;; ret (WRet (-1))
        else if decide (nwrite p = u32 (nread p + PIPESIZE)) then
          kwakeup chan_nread ;;
          release the_lock ;;
          ret (WSleep i)
        else
          match copyin (addr + i) with
          | None => write_end i
          | Some ch =>
              match arr_set (data p) (nwrite p mod PIPESIZE) ch with
              | None => undef "pi->data"
              | Some d =>
                  kmod (set_data d) ;;
                  kmod (set_nwrite (u32 (nwrite p + 1))) ;;
                  pipewrite_loop fuel' (i + 1)
              end
          end
      else write_end i
  end.

(** One activation: the first ([i = 0]) or after a wakeup. *)
Definition pipewrite (i : Z) : M (kobj pipe) wout :=
  acquire the_lock ;;
  pipewrite_loop (S (Z.to_nat (n - i))) i.
End PipeWrite.

Inductive rout : Type := RRet (r : Z) | RSleep.

Section PipeRead.
Context {U : Type} (copyout : U -> Z -> Z -> option U) (killed : bool) (addr n : Z).

(** The copy loop: the number of bytes and the caller's memory. *)
Fixpoint piperead_loop (fuel : nat) (i : Z) (u : U) : M (kobj pipe) (Z * U) :=
  match fuel with
  | O => fun _ => Fault OutOfFuel
  | S fuel' =>
      if decide (i < n) then
        let! p := kget in
        if decide (nread p = nwrite p) then ret (i, u)
        else
          match arr_get (data p) (nread p mod PIPESIZE) with
          | None => undef "pi->data"
          | Some ch =>
              kmod (set_nread (u32 (nread p + 1))) ;;
              match copyout u (addr + i) ch with
              | None => ret (i, u)
              | Some u' => piperead_loop fuel' (i + 1) u'
              end
          end
      else ret (i, u)
  end.

Definition piperead (u : U) : M (kobj pipe) (rout * U) :=
  acquire the_lock ;;
  let! p := kget in
  if decide (nread p = nwrite p /\ writeopen p <> 0) then
    if killed then release the_lock ;; ret (RRet (-1), u)
    else release the_lock ;; ret (RSleep, u)
  else
    let! iu := piperead_loop (S (Z.to_nat n)) 0 u in
    kwakeup chan_nwrite ;;
    release the_lock ;;
    ret (RRet iu.1, iu.2).
End PipeRead.

(** ** What the ring holds *)

Definition count (p : pipe) : Z := u32 (nwrite p - nread p).

Record pipe_ok (p : pipe) : Prop := {
  po_len : length (data p) = 512%nat;
  po_r : 0 <= nread p < 2 ^ 32;
  po_w : 0 <= nwrite p < 2 ^ 32;
  po_count : count p <= PIPESIZE }.

(** The byte [k] places after the read position. *)
Definition at_ (p : pipe) (k : Z) : Z := default 0 (arr_get (data p) ((nread p + k) mod PIPESIZE)).

(** The bytes in the pipe, oldest first. *)
Definition contents (p : pipe) : list Z := map (at_ p) (zrange 0 (count p)).

Lemma count_range p : 0 <= count p < 2 ^ 32.
Proof. apply (uwrap_range 32). lia. Qed.

Lemma mod_wrap x : u32 x mod PIPESIZE = x mod PIPESIZE.
Proof.
  unfold u32, uwrap, PIPESIZE. change (2 ^ 32) with (512 * 8388608).
  rewrite Z.rem_mul_r by lia. rewrite Z.mul_comm, Z.mod_add by lia. apply Z.mod_mod. lia.
Qed.

Lemma u32_add_l x y : u32 (u32 x + y) = u32 (x + y).
Proof. unfold u32, uwrap. by rewrite Zplus_mod_idemp_l. Qed.

Lemma u32_sub_r x y : u32 (x - u32 y) = u32 (x - y).
Proof. unfold u32, uwrap. by rewrite Zminus_mod_idemp_r. Qed.

Lemma count_full p : pipe_ok p -> nwrite p = u32 (nread p + PIPESIZE) <-> count p = PIPESIZE.
Proof.
  intros [_ Hr Hw _]. unfold count, u32, uwrap, PIPESIZE in *. split.
  - intros ->. rewrite Zminus_mod_idemp_l. by replace (nread p + 512 - nread p) with 512 by lia.
  - intros Hc. rewrite <- (Z.mod_small (nwrite p) (2 ^ 32)) by done.
    replace (nwrite p) with ((nwrite p - nread p) + nread p) by lia.
    rewrite <- Zplus_mod_idemp_l, Hc. f_equal. lia.
Qed.

Lemma count_empty p : pipe_ok p -> nread p = nwrite p <-> count p = 0.
Proof.
  intros [_ Hr Hw _]. unfold count, u32, uwrap. split; [intros ->; by rewrite Z.sub_diag|].
  intros Hc. apply Z.mod_divide in Hc as [k Hk]; [|lia]. lia.
Qed.

Lemma contents_length p : length (contents p) = Z.to_nat (count p).
Proof. unfold contents, zrange. rewrite length_map, length_seqZ. f_equal. lia. Qed.

(** Writing [ch] at the write position of a pipe that is not full. *)
Definition written (p : pipe) (ch : Z) : pipe :=
  set_nwrite (u32 (nwrite p + 1)) (set_data (<[Z.to_nat (nwrite p mod PIPESIZE) := ch]> (data p)) p).

Lemma written_ok p ch :
  pipe_ok p -> count p < PIPESIZE ->
  pipe_ok (written p ch) /\ contents (written p ch) = contents p ++ [ch].
Proof.
  intros Hok Hlt. pose proof Hok as [Hlen Hr Hw Hc]. pose proof (count_range p) as Hcr.
  assert (count (written p ch) = count p + 1) as Hcnt.
  { unfold count, written. simpl. rewrite <- (u32_sub_r _ (nread p)).
    unfold u32, uwrap. rewrite Zminus_mod. rewrite !Z.mod_mod by lia. rewrite <- Zminus_mod.
    replace (nwrite p + 1 - nread p) with (nwrite p - nread p + 1) by lia.
    rewrite <- Zplus_mod_idemp_l. change ((nwrite p - nread p) mod 2 ^ 32) with (count p).
    apply Z.mod_small. unfold PIPESIZE in *. lia. }
  split.
  { split; simpl; try done; [by rewrite length_insert|apply (uwrap_range 32); lia|]. rewrite Hcnt. lia. }
  unfold contents. rewrite Hcnt. rewrite (zrange_split 0 (count p)) by lia.
  rewrite map_app, zrange_one. cbn [map].
  assert (nwrite p mod PIPESIZE = (nread p + count p) mod PIPESIZE) as Hwpos.
  { unfold count. rewrite <- (mod_wrap (nread p + _)). rewrite Z.add_comm, u32_add_l, mod_wrap.
    f_equal. lia. }
  assert (0 <= nwrite p mod PIPESIZE < 512) as Hpos by (apply Z.mod_pos_bound; done).
  f_equal.
  - apply map_ext_in. intros k Hk%list_elem_of_In%elem_of_zrange. unfold at_, written. simpl.
    unfold arr_get. case_decide; [|done]. rewrite list_lookup_insert_ne; [done|].
    rewrite Hwpos. intros Heq. apply Z2Nat.inj in Heq; [|lia|lia].
    assert ((nread p + count p - (nread p + k)) mod PIPESIZE = 0) as Hd.
    { rewrite Zminus_mod, Heq, Z.sub_diag. done. }
    replace (nread p + count p - (nread p + k)) with (count p - k) in Hd by lia.
    rewrite Z.mod_small in Hd by (unfold PIPESIZE in *; lia). lia.
  - f_equal. unfold at_, written. simpl. rewrite <- Hwpos. unfold arr_get.
    rewrite decide_True by lia. by rewrite list_lookup_insert_eq by lia.
Qed.

(** Removing the oldest byte. *)
Lemma read_ok p :
  pipe_ok p -> count p <> 0 ->
  exists ch, arr_get (data p) (nread p mod PIPESIZE) = Some ch /\
    pipe_ok (set_nread (u32 (nread p + 1)) p) /\
    contents p = ch :: contents (set_nread (u32 (nread p + 1)) p).
Proof.
  intros Hok Hne. pose proof Hok as [Hlen Hr Hw Hc]. pose proof (count_range p) as Hcr.
  assert (0 <= nread p mod PIPESIZE < 512) as Hpos by (apply Z.mod_pos_bound; done).
  destruct (arr_get_lt (data p) (nread p mod PIPESIZE)) as [ch Hch]; [lia|]. exists ch.
  set (p' := set_nread (u32 (nread p + 1)) p).
  assert (count p' = count p - 1) as Hcnt.
  { unfold count, p'. simpl. rewrite u32_sub_r. unfold u32, uwrap.
    replace (nwrite p - (nread p + 1)) with (nwrite p - nread p - 1) by lia.
    rewrite <- Zminus_mod_idemp_l. change ((nwrite p - nread p) mod 2 ^ 32) with (count p).
    apply Z.mod_small. lia. }
  split; [done|]. split.
  - split; simpl; try done; [apply (uwrap_range 32); lia|]. rewrite Hcnt. lia.
  - unfold contents. rewrite Hcnt, (zrange_cons 0) by lia. cbn [map]. f_equal.
    + unfold at_. rewrite Z.add_0_r, Hch. done.
    + unfold zrange. replace (count p - 1 - 0) with (count p - (0 + 1)) by lia.
      rewrite <- (fmap_add_seqZ 1 0). rewrite <- list_fmap_compose.
      apply list_fmap_ext. intros i k _. simpl. unfold at_, p'. simpl.
      rewrite <- (mod_wrap (u32 _ + _)), u32_add_l, mod_wrap. do 3 f_equal. lia.
Qed.

(** ** The operations *)

(** How a write activation that has stored [bs] from progress [i] ends. *)
Definition write_ends (copyin : Z -> option Z) (killed : Z -> bool) (addr n i : Z)
    (p' : pipe) (bs : list Z) (o : wout) : Prop :=
  let j := i + Z.of_nat (length bs) in
  match o with
  | WSleep k => k = j /\ j < n /\ count p' = PIPESIZE
  | WRet r =>
      (r = -1 /\ j < n /\ (readopen p' = 0 \/ killed j = true)) \/
      (r = j /\ (n <= j \/ copyin (addr + j) = None))
  end.

Section WriteSpec.
Variables (copyin : Z -> option Z) (killed : Z -> bool) (addr n : Z).

Lemma pipewrite_loop_spec (s : kobj pipe) fuel i p w :
  quiet s -> pipe_ok p -> 0 <= i -> (Z.to_nat (n - i) < fuel)%nat ->
  exists bs o p' w',
    pipewrite_loop copyin killed addr n fuel i (held s p w) =
      Ok o (mkK (kme s) (kcpu s) (klock s) p' w') /\
    pipe_ok p' /\ contents p' = contents p ++ bs /\
    readopen p' = readopen p /\ writeopen p' = writeopen p /\
    (forall j ch, bs !! j = Some ch -> copyin (addr + (i + Z.of_nat j)) = Some ch) /\
    write_ends copyin killed addr n i p' bs o /\
    (o <> WRet (-1) -> chan_nread ∈ w').
Proof.
  intros Hq. revert i p. induction fuel as [|fuel IH]; intros i p Hok Hi Hf; [lia|].
  assert (chan_nread ∈ w ++ [chan_nread]) as Hwk by (apply elem_of_app; right; left).
  cbn [pipewrite_loop]. destruct (decide (i < n)) as [Hin|Hin].
  2: { exists [], (WRet i), p, (w ++ [chan_nread]). unfold write_end. ksteps.
       rewrite (bind_ok _ _ _ _ _ (krelease s _ _ Hq)), app_nil_r. split_and!; try done.
       right. simpl. lia. }
  ksteps. destruct (decide (readopen p = 0 \/ killed i = true)) as [Hstop|Hgo].
  { exists [], (WRet (-1)), p, w. rewrite (bind_ok _ _ _ _ _ (krelease s _ _ Hq)), app_nil_r.
    split_and!; try done. left. simpl. by rewrite Z.add_0_r. }
  destruct (decide (nwrite p = u32 (nread p + PIPESIZE))) as [Hfull|Hfull].
  { exists [], (WSleep i), p, (w ++ [chan_nread]). ksteps.
    rewrite (bind_ok _ _ _ _ _ (krelease s _ _ Hq)), app_nil_r.
    split_and!; try done. unfold write_ends. simpl. split_and!; [lia..|]. by apply (count_full p Hok). }
  destruct (copyin (addr + i)) as [ch|] eqn:Hch.
  2: { exists [], (WRet i), p, (w ++ [chan_nread]). unfold write_end. ksteps.
       rewrite (bind_ok _ _ _ _ _ (krelease s _ _ Hq)), app_nil_r. split_and!; try done.
       right. simpl. rewrite Z.add_0_r. by split; [|right]. }
  assert (0 <= nwrite p mod PIPESIZE < 512) as Hpos by (apply Z.mod_pos_bound; done).
  rewrite arr_set_Some by (rewrite (po_len p Hok); lia). ksteps.
  change (set_nwrite _ _) with (written p ch).
  destruct (written_ok p ch Hok) as [Hok' Hcont].
  { rewrite count_full in Hfull by done. pose proof (po_count p Hok). lia. }
  destruct (IH (i + 1) (written p ch) Hok') as (bs & o & p' & w' & Hrun & Hp' & Hc' & Hro & Hwo & Hbs & Hend & Hw');
    [lia|lia|].
  exists (ch :: bs), o, p', w'. split; [done|]. split; [done|].
  split; [rewrite Hc', Hcont, <- app_assoc; done|]. split; [done|]. split; [done|].
  split; [|split; [|done]].
  - intros [|j] c Hj; cbn in Hj; [injection Hj as <-; rewrite <- Hch; f_equal; lia|].
    rewrite <- (Hbs j c Hj). f_equal. lia.
  - unfold write_ends in *. cbn [length].
    replace (i + Z.of_nat (S (length bs))) with (i + 1 + Z.of_nat (length bs)) by lia. done.
Qed.
End WriteSpec.

(** pipewrite appends to the pipe, in order, exactly the caller's bytes that it
    reports: from progress i it stores the bytes at addr+i, addr+i+1, ... behind
    those already queued, never overwriting an unread byte, and ends by returning
    the number stored, by going to sleep only when the pipe is full (after waking
    the readers), or with -1 only when the reader is gone or the caller killed; the
    lock is released in every case. *)
Lemma pipewrite_appends copyin killed addr n i (s : kobj pipe) :
  quiet s -> pipe_ok (kdata s) -> 0 <= i ->
  exists bs o p' w',
    pipewrite copyin killed addr n i s = Ok o (mkK (kme s) (kcpu s) (klock s) p' w') /\
    pipe_ok p' /\ contents p' = contents (kdata s) ++ bs /\
    readopen p' = readopen (kdata s) /\ writeopen p' = writeopen (kdata s) /\
    (forall j ch, bs !! j = Some ch -> copyin (addr + (i + Z.of_nat j)) = Some ch) /\
    write_ends copyin killed addr n i p' bs o /\
    (o <> WRet (-1) -> chan_nread ∈ w').
Proof.
  intros Hq Hok Hi. unfold pipewrite. rewrite (bind_ok _ _ _ _ _ (kacquire s Hq)).
  apply pipewrite_loop_spec; [done|done|done|lia].
Qed.

Section ReadSpec.
Context {U : Type} (copyout : U -> Z -> Z -> option U) (addr n : Z).

(** Delivering [bs] to the caller's memory from [addr + i] on. *)
Fixpoint deliver (i : Z) (bs : list Z) (u : U) : option U :=
  match bs with
  | [] => Some u
  | ch :: bs' => match copyout u (addr + i) ch with Some u' => deliver (i + 1) bs' u' | None => None end
  end.

(** The copy loop takes [bs] from the front; [lost] is the byte whose copyout
    failed, which has left the pipe without being delivered. *)
Lemma piperead_loop_spec (s : kobj pipe) fuel i u p w :
  pipe_ok p -> 0 <= i -> (Z.to_nat (n - i) < fuel)%nat ->
  exists bs lost u' p',
    piperead_loop copyout addr n fuel i u (held s p w) =
      Ok (i + Z.of_nat (length bs), u') (held s p' w) /\
    pipe_ok p' /\ contents p = bs ++ lost ++ contents p' /\
    readopen p' = readopen p /\ writeopen p' = writeopen p /\ deliver i bs u = Some u' /\
    ((lost = [] /\ (n <= i + Z.of_nat (length bs) \/ contents p' = [])) \/
     exists ch, lost = [ch] /\ copyout u' (addr + (i + Z.of_nat (length bs))) ch = None).
Proof.
  revert i u p. induction fuel as [|fuel IH]; intros i u p Hok Hi Hf; [lia|].
  cbn [piperead_loop]. destruct (decide (i < n)) as [Hin|Hin].
  2: { exists [], [], u, p. simpl. rewrite Z.add_0_r. split_and!; try done. left. split; [done|]. left. lia. }
  ksteps. destruct (decide (nread p = nwrite p)) as [He|He]; rewrite count_empty in He by done.
  { exists [], [], u, p. simpl. rewrite Z.add_0_r. split_and!; try done. left. split; [done|]. right.
    apply nil_length_inv. rewrite contents_length, He. done. }
  destruct (read_ok p Hok He) as (ch & Hch & Hok' & Hcont). rewrite Hch. ksteps.
  destruct (copyout u (addr + i) ch) as [u1|] eqn:Hco.
  - destruct (IH (i + 1) u1 _ Hok') as (bs & lost & u' & p' & Hrun & Hp' & Hc' & Hr & Hw & Hd & Hend); [lia|lia|].
    exists (ch :: bs), lost, u', p'. rewrite Hrun. cbn [length deliver app].
    replace (i + Z.of_nat (S (length bs))) with (i + 1 + Z.of_nat (length bs)) by lia.
    rewrite Hco. split_and!; try done. by rewrite Hcont, Hc'.
  - exists [], [ch], u, (set_nread (u32 (nread p + 1)) p). simpl. rewrite Z.add_0_r.
    split_and!; try done. right. by exists ch.
Qed.
End ReadSpec.

(** piperead delivers the oldest bytes of the pipe in order: it sleeps (or
    returns -1 if killed) only on an empty pipe whose writer is still open, and
    otherwise returns a count n', copies the first n' queued bytes to addr,
    addr+1, ..., and leaves the rest queued, n' being all that was asked for or all
    there was unless a copyout failed, in which case one further byte has left the
    pipe undelivered; writers are woken and the lock is released. *)
Lemma piperead_delivers {U} (copyout : U -> Z -> Z -> option U) killed addr n u (s : kobj pipe) :
  quiet s -> pipe_ok (kdata s) ->
  let p := kdata s in
  if decide (contents p = [] /\ writeopen p <> 0) then
    piperead copyout killed addr n u s = Ok (if killed then RRet (-1) else RSleep, u) s
  else
    exists bs lost u' p' w',
      piperead copyout killed addr n u s =
        Ok (RRet (Z.of_nat (length bs)), u') (mkK (kme s) (kcpu s) (klock s) p' w') /\
      pipe_ok p' /\ contents p = bs ++ lost ++ contents p' /\
      deliver copyout addr 0 bs u = Some u' /\ chan_nwrite ∈ w' /\
      ((lost = [] /\ (n <= Z.of_nat (length bs) \/ contents p' = [])) \/
       exists ch, lost = [ch] /\ copyout u' (addr + Z.of_nat (length bs)) ch = None).
Proof.
  intros Hq Hok p. unfold piperead. rewrite (bind_ok _ _ _ _ _ (kacquire s Hq)). ksteps. fold p.
  assert (nread p = nwrite p <-> contents p = []) as Hempty.
  { rewrite count_empty by done. split; intros H.
    - apply nil_length_inv. by rewrite contents_length, H.
    - pose proof (contents_length p) as Hl. rewrite H in Hl. simpl in Hl. pose proof (count_range p). lia. }
  case_decide as E; (case_decide as E'; [|try tauto]).
  - destruct killed; rewrite (bind_ok _ _ _ _ _ (krelease s _ _ Hq)); by destruct s.
  - destruct E' as [E1 E2]. tauto.
  - destruct (piperead_loop_spec copyout addr n s (S (Z.to_nat n)) 0 u p (kwoken s) Hok)
      as (bs & lost & u' & p' & Hrun & Hp' & Hc' & _ & _ & Hd & Hend); [lia|lia|].
    rewrite (bind_ok _ _ _ _ _ Hrun). ksteps. rewrite (bind_ok _ _ _ _ _ (krelease s _ _ Hq)).
    exists bs, lost, u', p', (kwoken s ++ [chan_nwrite]). simpl. rewrite Z.add_0_l in Hend |- *.
    split_and!; try done. apply elem_of_app. right. left.
Qed.

(** A pipe that holds the byte 7, its counters about to wrap around. *)
Definition pipe7 : kobj pipe :=
  mkK 0 (mkCpu 0 true true) (mkSpinlock 0 "pipe" None)
    (mkPipe (<[511%nat := 7]> (replicate 512 0)) (2 ^ 32 - 1) 0 1 1) [].

Lemma pipe7_ok : quiet pipe7 /\ pipe_ok (kdata pipe7) /\ contents (kdata pipe7) = [7].
Proof.
  split; [split; [by left|done]|]. split; [|vm_compute; reflexivity].
  split; vm_compute; repeat split; discriminate.
Qed.

(** C16: A pipe is a queue of bytes.  pipewrite stores, from progress i, the caller's bytes at
    addr+i, addr+i+1, ... behind those already queued, never over an unread byte, and ends by
    returning the number stored, by going to sleep only when the pipe is full (after waking
    the readers), or with -1 only when the reader is gone or the caller killed.  piperead
    sleeps (or returns -1 if killed) only on an empty pipe whose writer is still open, and
    otherwise takes the oldest bytes, in order, copies them to addr, addr+1, ..., returns
    their number, all that was asked for or all there was, and wakes the writers; when a
    copyout fails, one further byte has left the pipe undelivered.  The lock is released in
    every case. *)
Theorem pipe_queue (s : kobj pipe) : quiet s -> pipe_ok (kdata s) ->
  (forall copyin killed addr n i, 0 <= i ->
     exists bs o p' w',
       pipewrite copyin killed addr n i s = Ok o (mkK (kme s) (kcpu s) (klock s) p' w') /\
       pipe_ok p' /\ contents p' = contents (kdata s) ++ bs /\
       readopen p' = readopen (kdata s) /\ writeopen p' = writeopen (kdata s) /\
       (forall j ch, bs !! j = Some ch -> copyin (addr + (i + Z.of_nat j)) = Some ch) /\
       write_ends copyin killed addr n i p' bs o /\ (o <> WRet (-1) -> chan_nread ∈ w')) /\
  (forall U (copyout : U -> Z -> Z -> option U) killed addr n u,
     if decide (contents (kdata s) = [] /\ writeopen (kdata s) <> 0) then
       piperead copyout killed addr n u s = Ok (if killed then RRet (-1) else RSleep, u) s
     else
       exists bs lost u' p' w',
         piperead copyout killed addr n u s =
           Ok (RRet (Z.of_nat (length bs)), u') (mkK (kme s) (kcpu s) (klock s) p' w') /\
         pipe_ok p' /\ contents (kdata s) = bs ++ lost ++ contents p' /\
         deliver copyout addr 0 bs u = Some u' /\ chan_nwrite ∈ w' /\
         ((lost = [] /\ (n <= Z.of_nat (length bs) \/ contents p' = [])) \/
          exists ch, lost = [ch] /\ copyout u' (addr + Z.of_nat (length bs)) ch = None)).
Proof.
  intros Hq Hok. split; intros.
  - by apply pipewrite_appends.
  - by apply (piperead_delivers copyout).
Qed.

(** Two bytes written from addresses 100 and 101, and up to four read. *)
Lemma pipe_queue_witness :
  (exists bs o p' w',
    pipewrite (fun a => Some (a - 100)) (fun _ => false) 100 2 0 pipe7 =
      Ok o (mkK 0 (mkCpu 0 true true) (mkSpinlock 0 "pipe" None) p' w') /\
    contents p' = [7] ++ bs /\ write_ends (fun a => Some (a - 100)) (fun _ => false) 100 2 0 p' bs o) /\
  (exists bs lost u' p' w',
    piperead (fun (u : list Z) _ c => Some (u ++ [c])) false 200 4 [] pipe7 =
      Ok (RRet (Z.of_nat (length bs)), u') (mkK 0 (mkCpu 0 true true) (mkSpinlock 0 "pipe" None) p' w') /\
    [7] = bs ++ lost ++ contents p').
Proof.
  destruct pipe7_ok as (Hq & Hok & Hc). destruct (pipe_queue pipe7 Hq Hok) as [Hw Hr]. split.
  - destruct (Hw (fun a => Some (a - 100)) (fun _ => false) 100 2 0)
      as (bs & o & p' & w' & Hrun & _ & Hcont & _ & _ & _ & Hend & _); [lia|].
    exists bs, o, p', w'. split; [exact Hrun|]. split; [rewrite <- Hc; exact Hcont|exact Hend].
  - pose proof (Hr (list Z) (fun u _ c => Some (u ++ [c])) false 200 4 []) as H.
    rewrite decide_False in H by (rewrite Hc; intros [? _]; discriminate).
    destruct H as (bs & lost & u' & p' & w' & Hrun & _ & Hcont & _).
    exists bs, lost, u', p', w'. split; [exact Hrun|]. rewrite <- Hc. exact Hcont.
Defined.
