(* ===== verification/Proc.v ===== *)
(** * kernel/proc.c: the process table

    One CPU runs the operations; each [struct proc], [wait_lock] and [pid_lock]
    has its spinlock in the state and every [acquire] and [release] is executed.
    A pointer to a table entry is its index ([fin NPROC]).  Memory, page tables and
    files belong to other components and are reached through the class [ProcEnv].
    [swtch] ends an activation: [sched] hands the CPU to the scheduler, which
    clears [c->proc] and releases the lock it finds held, and [scheduler_run]
    picks a process and lets it resume where [kcont] says it stopped. *)

From Stdlib Require Import ZArith Lia.
From stdpp Require Import base numbers list vector fin finite strings.
From S2P Require Import Prelude Spinlock.
Open Scope Z_scope.

Definition NPROC : nat := 64.
Definition NOFILE : nat := 16.
Definition PGSIZE : Z := 4096.

Inductive procstate : Type := UNUSED | USED | SLEEPING | RUNNABLE | RUNNING | ZOMBIE.
#[export] Instance procstate_dec : EqDecision procstate.
Proof. solve_decision. Defined.

(** The user registers saved in the trapframe page: those the kernel reads or
    writes by name, and the others together. *)
Record trapframe : Type := mkTf {
  kernel_satp : Z; kernel_sp : Z; kernel_trap : Z; epc : Z; kernel_hartid : Z;
  a0 : Z; a1 : Z; a2 : Z; a3 : Z; a4 : Z; a5 : Z; a7 : Z; others : list Z }.
Definition set_a0 v t := mkTf (kernel_satp t) (kernel_sp t) (kernel_trap t) (epc t) (kernel_hartid t)
  v (a1 t) (a2 t) (a3 t) (a4 t) (a5 t) (a7 t) (others t).
Definition set_epc v t := mkTf (kernel_satp t) (kernel_sp t) (kernel_trap t) v (kernel_hartid t)
  (a0 t) (a1 t) (a2 t) (a3 t) (a4 t) (a5 t) (a7 t) (others t).
(** The four assignments of prepare_return. *)
Definition set_kernel satp sp trap hartid t := mkTf satp sp trap (epc t) hartid
  (a0 t) (a1 t) (a2 t) (a3 t) (a4 t) (a5 t) (a7 t) (others t).
Definition tf0 : trapframe := mkTf 0 0 0 0 0 0 0 0 0 0 0 0 [].

(** Where a process that is not running resumes in the kernel, with the value that
    the local variable [intena] of sched holds there. *)
Inductive kcont : Type :=
| KFork                                 (* at forkret, never run yet *)
| KYield (intena : bool)                (* in yield, in the call of sched *)
| KSleep (wait : bool) (intena : bool)  (* in sleep, likewise; [wait]: on wait_lock *)
| KExit (intena : bool).                (* in kexit, likewise *)

Record proc : Type := mkProc {
  lock : spinlock;
  state : procstate;
  chan : Z;
  killed_ : Z;
  xstate : Z;
  pid : Z;
  parent : option (fin NPROC);
  kstack : Z;
  sz : Z;
  pagetable : Z;
  trapframe_ : Z;            (* address of the trapframe page, 0 if none *)
  tf : trapframe;            (* contents of that page *)
  cont : kcont;              (* what context.ra stands for *)
  ofile : vec Z NOFILE;      (* 0 when closed *)
  cwd : Z;
  name : list Z;
  trace_mask : Z }.

Definition p_lock v p := mkProc v (state p) (chan p) (killed_ p) (xstate p) (pid p) (parent p) (kstack p) (sz p) (pagetable p) (trapframe_ p) (tf p) (cont p) (ofile p) (cwd p) (name p) (trace_mask p).
Definition p_state v p := mkProc (lock p) v (chan p) (killed_ p) (xstate p) (pid p) (parent p) (kstack p) (sz p) (pagetable p) (trapframe_ p) (tf p) (cont p) (ofile p) (cwd p) (name p) (trace_mask p).
Definition p_chan v p := mkProc (lock p) (state p) v (killed_ p) (xstate p) (pid p) (parent p) (kstack p) (sz p) (pagetable p) (trapframe_ p) (tf p) (cont p) (ofile p) (cwd p) (name p) (trace_mask p).
Definition p_killed v p := mkProc (lock p) (state p) (chan p) v (xstate p) (pid p) (parent p) (kstack p) (sz p) (pagetable p) (trapframe_ p) (tf p) (cont p) (ofile p) (cwd p) (name p) (trace_mask p).
Definition p_xstate v p := mkProc (lock p) (state p) (chan p) (killed_ p) v (pid p) (parent p) (kstack p) (sz p) (pagetable p) (trapframe_ p) (tf p) (cont p) (ofile p) (cwd p) (name p) (trace_mask p).
Definition p_pid v p := mkProc (lock p) (state p) (chan p) (killed_ p) (xstate p) v (parent p) (kstack p) (sz p) (pagetable p) (trapframe_ p) (tf p) (cont p) (ofile p) (cwd p) (name p) (trace_mask p).
Definition p_parent v p := mkProc (lock p) (state p) (chan p) (killed_ p) (xstate p) (pid p) v (kstack p) (sz p) (pagetable p) (trapframe_ p) (tf p) (cont p) (ofile p) (cwd p) (name p) (trace_mask p).
Definition p_kstack v p := mkProc (lock p) (state p) (chan p) (killed_ p) (xstate p) (pid p) (parent p) v (sz p) (pagetable p) (trapframe_ p) (tf p) (cont p) (ofile p) (cwd p) (name p) (trace_mask p).
Definition p_sz v p := mkProc (lock p) (state p) (chan p) (killed_ p) (xstate p) (pid p) (parent p) (kstack p) v (pagetable p) (trapframe_ p) (tf p) (cont p) (ofile p) (cwd p) (name p) (trace_mask p).
Definition p_pagetable v p := mkProc (lock p) (state p) (chan p) (killed_ p) (xstate p) (pid p) (parent p) (kstack p) (sz p) v (trapframe_ p) (tf p) (cont p) (ofile p) (cwd p) (name p) (trace_mask p).
Definition p_trapframe v p := mkProc (lock p) (state p) (chan p) (killed_ p) (xstate p) (pid p) (parent p) (kstack p) (sz p) (pagetable p) v (tf p) (cont p) (ofile p) (cwd p) (name p) (trace_mask p).
Definition p_tf v p := mkProc (lock p) (state p) (chan p) (killed_ p) (xstate p) (pid p) (parent p) (kstack p) (sz p) (pagetable p) (trapframe_ p) v (cont p) (ofile p) (cwd p) (name p) (trace_mask p).
Definition p_cont v p := mkProc (lock p) (state p) (chan p) (killed_ p) (xstate p) (pid p) (parent p) (kstack p) (sz p) (pagetable p) (trapframe_ p) (tf p) v (ofile p) (cwd p) (name p) (trace_mask p).
Definition p_ofile v p := mkProc (lock p) (state p) (chan p) (killed_ p) (xstate p) (pid p) (parent p) (kstack p) (sz p) (pagetable p) (trapframe_ p) (tf p) (cont p) v (cwd p) (name p) (trace_mask p).
Definition p_cwd v p := mkProc (lock p) (state p) (chan p) (killed_ p) (xstate p) (pid p) (parent p) (kstack p) (sz p) (pagetable p) (trapframe_ p) (tf p) (cont p) (ofile p) v (name p) (trace_mask p).
Definition p_name v p := mkProc (lock p) (state p) (chan p) (killed_ p) (xstate p) (pid p) (parent p) (kstack p) (sz p) (pagetable p) (trapframe_ p) (tf p) (cont p) (ofile p) (cwd p) v (trace_mask p).
Definition p_trace_mask v p := mkProc (lock p) (state p) (chan p) (killed_ p) (xstate p) (pid p) (parent p) (kstack p) (sz p) (pagetable p) (trapframe_ p) (tf p) (cont p) (ofile p) (cwd p) (name p) v.

(** What proc.c asks of the allocator, the page tables and the file system; an
    answer of 0 is a failed allocation, a negative one an error. *)
Class ProcEnv (E : Type) := {
  e_kalloc : E -> Z * E;
  e_kfree : Z -> E -> E;
  e_proc_pagetable : Z -> E -> Z * E;
  e_proc_freepagetable : Z -> Z -> E -> E;
  e_uvmcopy : Z -> Z -> Z -> E -> Z * E;
  e_uvmalloc : Z -> Z -> Z -> E -> Z * E;
  e_uvmdealloc : Z -> Z -> Z -> E -> Z * E;
  e_copyout : Z -> Z -> Z -> E -> Z * E;
  e_filedup : Z -> E -> E;
  e_fileclose : Z -> E -> E;
  e_idup : Z -> E -> E;
  e_iput : Z -> E -> E;             (* begin_op(); iput(ip); end_op() *)
  e_root : Z;
  e_namei_root : E -> E }.

Record kst (E : Type) : Type := mkKst {
  kcpuid : nat;
  kcpu : cpu;
  procs : vec proc NPROC;
  nextpid : Z;
  pid_lock : spinlock;
  wait_lock : spinlock;
  initproc : option (fin NPROC);
  curproc : option (fin NPROC);      (* c->proc *)
  env : E }.
Arguments mkKst {E}. Arguments kcpuid {E}. Arguments kcpu {E}. Arguments procs {E}.
Arguments nextpid {E}. Arguments pid_lock {E}. Arguments wait_lock {E}.
Arguments initproc {E}. Arguments curproc {E}. Arguments env {E}.

Section Proc.
Context {E : Type} `{ProcEnv E}.
Notation K := (kst E).

#[global] Instance kst_cpu : OnCpu K := {
  me := kcpuid;
  get_cpu := kcpu;
  set_cpu := fun c s => mkKst (kcpuid s) c (procs s) (nextpid s) (pid_lock s) (wait_lock s)
                          (initproc s) (curproc s) (env s) }.

Definition with_procs f (s : K) :=
  mkKst (kcpuid s) (kcpu s) (f (procs s)) (nextpid s) (pid_lock s) (wait_lock s)
    (initproc s) (curproc s) (env s).
Definition with_nextpid v (s : K) :=
  mkKst (kcpuid s) (kcpu s) (procs s) v (pid_lock s) (wait_lock s)
    (initproc s) (curproc s) (env s).
Definition with_pid_lock v (s : K) :=
  mkKst (kcpuid s) (kcpu s) (procs s) (nextpid s) v (wait_lock s)
    (initproc s) (curproc s) (env s).
Definition with_wait_lock v (s : K) :=
  mkKst (kcpuid s) (kcpu s) (procs s) (nextpid s) (pid_lock s) v
    (initproc s) (curproc s) (env s).
Definition with_initproc v (s : K) :=
  mkKst (kcpuid s) (kcpu s) (procs s) (nextpid s) (pid_lock s) (wait_lock s)
    v (curproc s) (env s).
Definition with_curproc v (s : K) :=
  mkKst (kcpuid s) (kcpu s) (procs s) (nextpid s) (pid_lock s) (wait_lock s)
    (initproc s) v (env s).
Definition with_env (v : E) (s : K) : K :=
  mkKst (kcpuid s) (kcpu s) (procs s) (nextpid s) (pid_lock s) (wait_lock s)
    (initproc s) (curproc s) v.

(** [p->field] and [p->field = v]. *)
Definition pget (p : fin NPROC) : M K proc := gets (fun s => procs s !!! p).
Definition pmod (p : fin NPROC) (f : proc -> proc) : M K unit :=
  modify (with_procs (fun v => vinsert p (f (v !!! p)) v)).

Definition plock (p : fin NPROC) : lockref K :=
  mkLockref (fun s => lock (procs s !!! p))
    (fun l => with_procs (fun v => vinsert p (p_lock l (v !!! p)) v)).
Definition the_pid_lock : lockref K := mkLockref pid_lock with_pid_lock.
Definition the_wait_lock : lockref K := mkLockref wait_lock with_wait_lock.

(** A call into the environment, with and without an answer. *)
Definition ask (f : E -> Z * E) : M K Z := fun s =>
  let '(r, e) := f (env s) in Ok r (with_env e s).
Definition tell (f : E -> E) : M K unit := modify (fun s => with_env (f (env s)) s).

(** The channel of a process: the address of its table entry. *)
Definition proc_chan (p : fin NPROC) : Z := 1000 + Z.of_nat (fin_to_nat p).
Definition KSTACK (p : fin NPROC) : Z := 2 ^ 38 - PGSIZE - (Z.of_nat (fin_to_nat p) + 1) * 2 * PGSIZE.

Definition all_procs : list (fin NPROC) := fin_enum NPROC.

Definition procinit : M K unit :=
  initlock the_pid_lock "nextpid" ;;
  initlock the_wait_lock "wait_lock" ;;
  for_each all_procs (fun p =>
    initlock (plock p) "proc" ;;
    pmod p (p_state UNUSED) ;;
    pmod p (p_kstack (KSTACK p))).

Definition myproc : M K (option (fin NPROC)) :=
  push_off ;;
  let! p := gets curproc in
  pop_off ;;
  ret p.

(** [struct proc *p = myproc()] where p is then dereferenced. *)
Definition my : M K (fin NPROC) :=
  let! p := myproc in
  match p with Some p => ret p | None => undef "myproc" end.

Definition allocpid : M K Z :=
  acquire the_pid_lock ;;
  let! pid := gets nextpid in
  (if decide (in_int (pid + 1)) then modify (with_nextpid (pid + 1)) else undef "nextpid") ;;
  release the_pid_lock ;;
  ret pid.

Definition freeproc (p : fin NPROC) : M K unit :=
  let! x := pget p in
  (if decide (trapframe_ x <> 0) then tell (e_kfree (trapframe_ x)) else ret tt) ;;
  pmod p (p_trapframe 0) ;;
  (if decide (pagetable x <> 0) then tell (e_proc_freepagetable (pagetable x) (sz x)) else ret tt) ;;
  pmod p (p_pagetable 0) ;;
  pmod p (p_sz 0) ;;
  pmod p (p_pid 0) ;;
  pmod p (p_parent None) ;;
  pmod p (p_name []) ;;
  pmod p (p_chan 0) ;;
  pmod p (p_killed 0) ;;
  pmod p (p_xstate 0) ;;
  pmod p (p_state UNUSED).

(** The scan of allocproc stops at an UNUSED entry with its lock held. *)
Definition find_unused : M K (option (fin NPROC)) :=
  for_until all_procs (fun p =>
    acquire (plock p) ;;
    let! x := pget p in
    if decide (state x = UNUSED) then ret (Some p)
    else release (plock p) ;; ret None).

Definition allocproc : M K (option (fin NPROC)) :=
  let! o := find_unused in
  match o with
  | None => ret None
  | Some p =>
      let! pid := allocpid in
      pmod p (p_pid pid) ;;
      pmod p (p_state USED) ;;
      let! page := ask e_kalloc in
      pmod p (p_trapframe page) ;;
      if decide (page = 0) then
        freeproc p ;;
        release (plock p) ;;
        ret None
      else
        let! pt := ask (e_proc_pagetable page) in
        pmod p (p_pagetable pt) ;;
        if decide (pt = 0) then
          freeproc p ;;
          release (plock p) ;;
          ret None
        else
          pmod p (p_cont KFork) ;;
          ret (Some p)
  end.

Definition userinit : M K unit :=
  let! o := allocproc in
  modify (with_initproc o) ;;
  match o with
  | None => undef "userinit"
  | Some p =>
      tell e_namei_root ;;
      pmod p (p_cwd e_root) ;;
      pmod p (p_state RUNNABLE) ;;
      release (plock p)
  end.

Definition growproc (n : Z) : M K Z :=
  let! p := my in
  let! x := pget p in
  if decide (n > 0) then
    let! s := ask (e_uvmalloc (pagetable x) (sz x) (u64 (sz x + n))) in
    if decide (s = 0) then ret (-1) else pmod p (p_sz s) ;; ret 0
  else if decide (n < 0) then
    let! s := ask (e_uvmdealloc (pagetable x) (sz x) (u64 (sz x + n))) in
    pmod p (p_sz s) ;; ret 0
  else pmod p (p_sz (sz x)) ;; ret 0.

(** The loop that duplicates the open files of [p] into [np]. *)
Definition dup_files (p np : fin NPROC) : M K unit :=
  for_each (fin_enum NOFILE) (fun i =>
    let! x := pget p in
    let f := ofile x !!! i in
    if decide (f <> 0) then
      tell (e_filedup f) ;;
      pmod np (fun y => p_ofile (vinsert i f (ofile y)) y)
    else ret tt).

Definition kfork : M K Z :=
  let! p := my in
  let! o := allocproc in
  match o with
  | None => ret (-1)
  | Some np =>
      let! x := pget p in
      let! y := pget np in
      let! r := ask (e_uvmcopy (pagetable x) (pagetable y) (sz x)) in
      if decide (r < 0) then
        freeproc np ;;
        release (plock np) ;;
        ret (-1)
      else
        pmod np (p_sz (sz x)) ;;
        pmod np (p_tf (tf x)) ;;
        pmod np (fun y => p_tf (set_a0 0 (tf y)) y) ;;
        dup_files p np ;;
        tell (e_idup (cwd x)) ;;
        pmod np (p_cwd (cwd x)) ;;
        pmod np (p_name (take 15 (name x))) ;;
        pmod np (p_trace_mask (trace_mask x)) ;;
        let! y := pget np in
        let pid := pid y in
        release (plock np) ;;
        acquire the_wait_lock ;;
        pmod np (p_parent (Some p)) ;;
        release the_wait_lock ;;
        acquire (plock np) ;;
        pmod np (p_state RUNNABLE) ;;
        release (plock np) ;;
        ret pid
  end.

Definition wakeup (c : Z) : M K unit :=
  for_each all_procs (fun p =>
    let! cur := myproc in
    if decide (Some p <> cur) then
      acquire (plock p) ;;
      let! x := pget p in
      (if decide (state x = SLEEPING /\ chan x = c) then pmod p (p_state RUNNABLE) else ret tt) ;;
      release (plock p)
    else ret tt).

Definition reparent (p : fin NPROC) : M K unit :=
  for_each all_procs (fun pp =>
    let! x := pget pp in
    if decide (parent x = Some p) then
      let! ip := gets initproc in
      pmod pp (p_parent ip) ;;
      match ip with Some i => wakeup (proc_chan i) | None => undef "initproc" end
    else ret tt).

(** sched: the checks, then the switch, which saves where the caller [k] is to
    resume; the scheduler goes on by clearing c->proc and releasing the lock of the
    process that came back. *)
Definition sched (k : bool -> kcont) : M K unit :=
  let! p := my in
  let! h := holding (plock p) in
  let! c := gets kcpu in
  let! x := pget p in
  let! i := intr_get in
  if decide (h = false) then panic "sched p->lock"
  else if decide (noff c <> 1) then panic "sched locks"
  else if decide (state x = RUNNING) then panic "sched RUNNING"
  else if i then panic "sched interruptible"
  else
    pmod p (p_cont (k (intena c))) ;;
    modify (with_curproc None) ;;
    release (plock p).

Definition yield : M K unit :=
  let! p := my in
  acquire (plock p) ;;
  pmod p (p_state RUNNABLE) ;;
  sched KYield.

(** sleep(chan, lk), up to the switch. *)
Definition sleep_on (c : Z) (lk : option (lockref K)) (k : bool -> kcont) : M K unit :=
  let! p := my in
  acquire (plock p) ;;
  match lk with Some lk => release lk | None => ret tt end ;;
  pmod p (p_chan c) ;;
  pmod p (p_state SLEEPING) ;;
  sched k.

(** The calls of sleep from this file ([wait]: with wait_lock) and, without their
    lock, from components that are not part of this state. *)
Definition sleep (c : Z) (wait : bool) : M K unit :=
  sleep_on c (if wait then Some the_wait_lock else None) (KSleep wait).

(** One entry of the scheduler's scan: if [p] is RUNNABLE it is switched to, and
    runs its tail of yield, sleep or forkret until it holds no lock of its own. *)
Definition scheduler_run (p : fin NPROC) : M K bool :=
  acquire (plock p) ;;
  let! x := pget p in
  if decide (state x = RUNNABLE) then
    pmod p (p_state RUNNING) ;;
    modify (with_curproc (Some p)) ;;
    match cont x with
    | KFork => release (plock p) ;; ret true
    | KYield i => set_intena i ;; release (plock p) ;; ret true
    | KExit i => set_intena i ;; panic "zombie exit"
    | KSleep wait i =>
        set_intena i ;;
        pmod p (p_chan 0) ;;
        release (plock p) ;;
        (if wait then acquire the_wait_lock else ret tt) ;;
        ret true
    end
  else release (plock p) ;; ret false.

Definition close_files (p : fin NPROC) : M K unit :=
  for_each (fin_enum NOFILE) (fun fd =>
    let! x := pget p in
    let f := ofile x !!! fd in
    if decide (f <> 0) then
      tell (e_fileclose f) ;;
      pmod p (fun y => p_ofile (vinsert fd 0 (ofile y)) y)
    else ret tt).

Definition kexit (status : Z) : M K unit :=
  let! p := my in
  let! ip := gets initproc in
  if decide (Some p = ip) then panic "init exiting"
  else
    close_files p ;;
    let! x := pget p in
    tell (e_iput (cwd x)) ;;
    pmod p (p_cwd 0) ;;
    acquire the_wait_lock ;;
    reparent p ;;
    let! x := pget p in
    match parent x with
    | None => wakeup 0
    | Some q => wakeup (proc_chan q)
    end ;;
    acquire (plock p) ;;
    pmod p (p_xstate status) ;;
    pmod p (p_state ZOMBIE) ;;
    release the_wait_lock ;;
    sched KExit.

Definition killed (p : fin NPROC) : M K Z :=
  acquire (plock p) ;;
  let! x := pget p in
  release (plock p) ;;
  ret (killed_ x).

Definition setkilled (p : fin NPROC) : M K unit :=
  acquire (plock p) ;;
  pmod p (p_killed 1) ;;
  release (plock p).

Inductive waitres : Type := WaitRet (r : Z) | WaitSleep.

(** The scan of kwait for an exited child; [inl r] leaves the function with r,
    [inr havekids] when the scan found none. *)
Fixpoint wait_scan (l : list (fin NPROC)) (p : fin NPROC) (addr : Z) (havekids : bool)
  : M K (Z + bool) :=
  match l with
  | [] => ret (inr havekids)
  | pp :: l' =>
      let! x := pget pp in
      if decide (parent x = Some p) then
        acquire (plock pp) ;;
        let! x := pget pp in
        if decide (state x = ZOMBIE) then
          let! me := pget p in
          let! r := (if decide (addr <> 0) then ask (e_copyout (pagetable me) addr (xstate x))
                     else ret 0) in
          if decide (r < 0) then
            release (plock pp) ;;
            release the_wait_lock ;;
            ret (inl (-1))
          else
            freeproc pp ;;
            release (plock pp) ;;
            release the_wait_lock ;;
            ret (inl (pid x))
        else
          release (plock pp) ;;
          wait_scan l' p addr true
      else wait_scan l' p addr havekids
  end.

(** kwait from the top of its loop, with wait_lock held: it returns, or sleeps and
    starts again from here when woken. *)
Definition kwait_loop (addr : Z) : M K waitres :=
  let! p := my in
  let! r := wait_scan all_procs p addr false in
  match r with
  | inl v => ret (WaitRet v)
  | inr havekids =>
      let! k := (if havekids then killed p else ret 1) in
      if decide (k <> 0) then
        release the_wait_lock ;;
        ret (WaitRet (-1))
      else
        sleep (proc_chan p) true ;;
        ret WaitSleep
  end.
Definition kwait (addr : Z) : M K waitres :=
  acquire the_wait_lock ;;
  kwait_loop addr.

Definition kkill (target : Z) : M K Z :=
  let! r := for_until all_procs (fun p =>
    acquire (plock p) ;;
    let! x := pget p in
    if decide (pid x = target) then
      pmod p (p_killed 1) ;;
      (if decide (state x = SLEEPING) then pmod p (p_state RUNNABLE) else ret tt) ;;
      release (plock p) ;;
      ret (Some 0)
    else release (plock p) ;; ret None) in
  match r with Some v => ret v | None => ret (-1) end.
End Proc.
