(* ===== verification/ProcSpec.v ===== *)
(** * Executing proc.c symbolically

    A lock that is held by the running CPU is written [taken lk s], where [s] is
    the state as it would be with the lock free: every operation of proc.c moves
    under [taken], and releasing the lock strips it off again.  So each routine has
    a plain functional description on states with no lock held. *)

From Stdlib Require Import ZArith Lia.
From stdpp Require Import base numbers list vector fin finite strings.
From S2P Require Import Prelude Spinlock Proc.
Open Scope Z_scope.

(** The table is large: do not compute with it by accident. *)
#[global] Arguments fun_to_vec : simpl never.
#[global] Arguments vinsert : simpl never.
#[global] Arguments fin_enum : simpl never.

Lemma release_taken {S} `{OnCpuLaws S} (lk : lockref S) `{!LockLaws lk} (t : S) :
  cpu_ok (get_cpu t) -> is_free (lget lk t) -> release lk (taken lk t) = Ok tt t.
Proof.
  intros Hc Hf. pose proof (acquire_release lk t Hc Hf) as Hr.
  by rewrite (bind_ok _ _ _ _ _ (acquire_run lk t Hf)) in Hr.
Qed.

Lemma vinsert_twice {A n} (i : fin n) x y (v : vec A n) : vinsert i x (vinsert i y v) = vinsert i x v.
Proof.
  apply vec_eq. intros j. destruct (decide (i = j)) as [->|Hne].
  - by rewrite !vlookup_insert.
  - by rewrite !vlookup_insert_ne.
Qed.

Lemma vinsert_comm {A n} (i j : fin n) x y (v : vec A n) :
  i <> j -> vinsert i x (vinsert j y v) = vinsert j y (vinsert i x v).
Proof.
  intros Hij. apply vec_eq. intros k.
  destruct (decide (i = k)) as [->|Hi], (decide (j = k)) as [->|Hj]; try done.
  - by rewrite vlookup_insert, vlookup_insert_ne, vlookup_insert by done.
  - by rewrite vlookup_insert_ne, !vlookup_insert by done.
  - by rewrite !vlookup_insert_ne by done.
Qed.

(** Updates of a table entry that leave its lock alone. *)
Class KeepsLock (f : proc -> proc) : Prop := {
  kl_lock : forall x, lock (f x) = lock x;
  kl_comm : forall l x, f (p_lock l x) = p_lock l (f x) }.
Ltac keeps_lock := split; reflexivity.
#[export] Instance kl_state v : KeepsLock (p_state v). Proof. keeps_lock. Qed.
#[export] Instance kl_chan v : KeepsLock (p_chan v). Proof. keeps_lock. Qed.
#[export] Instance kl_killed v : KeepsLock (p_killed v). Proof. keeps_lock. Qed.
#[export] Instance kl_xstate v : KeepsLock (p_xstate v). Proof. keeps_lock. Qed.
#[export] Instance kl_pid v : KeepsLock (p_pid v). Proof. keeps_lock. Qed.
#[export] Instance kl_parent v : KeepsLock (p_parent v). Proof. keeps_lock. Qed.
#[export] Instance kl_kstack v : KeepsLock (p_kstack v). Proof. keeps_lock. Qed.
#[export] Instance kl_sz v : KeepsLock (p_sz v). Proof. keeps_lock. Qed.
#[export] Instance kl_pagetable v : KeepsLock (p_pagetable v). Proof. keeps_lock. Qed.
#[export] Instance kl_trapframe v : KeepsLock (p_trapframe v). Proof. keeps_lock. Qed.
#[export] Instance kl_tf v : KeepsLock (p_tf v). Proof. keeps_lock. Qed.
#[export] Instance kl_cont v : KeepsLock (p_cont v). Proof. keeps_lock. Qed.
#[export] Instance kl_ofile v : KeepsLock (p_ofile v). Proof. keeps_lock. Qed.
#[export] Instance kl_cwd v : KeepsLock (p_cwd v). Proof. keeps_lock. Qed.
#[export] Instance kl_name v : KeepsLock (p_name v). Proof. keeps_lock. Qed.
#[export] Instance kl_trace_mask v : KeepsLock (p_trace_mask v). Proof. keeps_lock. Qed.
#[export] Instance kl_a0 v : KeepsLock (fun y => p_tf (set_a0 v (tf y)) y). Proof. keeps_lock. Qed.
#[export] Instance kl_fd (i : fin NOFILE) (v : Z) :
  KeepsLock (fun y => p_ofile (vinsert i v (ofile y)) y).
Proof. keeps_lock. Qed.
#[export] Instance kl_id : KeepsLock (fun x => x). Proof. keeps_lock. Qed.
#[export] Instance kl_compose f g : KeepsLock f -> KeepsLock g -> KeepsLock (fun x => f (g x)).
Proof.
  intros Hf Hg. split; intros.
  - by rewrite kl_lock, kl_lock.
  - by rewrite !kl_comm.
Qed.

Section Symbolic.
Context {E : Type} `{ProcEnv E}.
Notation K := (kst E).

#[export] Instance kst_cpu_laws : OnCpuLaws K.
Proof. split; intros; by destruct s. Qed.
#[export] Instance pid_lock_laws : LockLaws (the_pid_lock (E := E)).
Proof. split; intros; by destruct s. Qed.
#[export] Instance wait_lock_laws : LockLaws (the_wait_lock (E := E)).
Proof. split; intros; by destruct s. Qed.
#[export] Instance plock_laws (p : fin NPROC) : LockLaws (plock (E := E) p).
Proof.
  split; intros; destruct s as [? ? ps]; unfold plock, with_procs; simpl; try done.
  - by rewrite vlookup_insert.
  - f_equal. transitivity (vinsert p (ps !!! p) ps); [|apply vlookup_insert_self].
    f_equal. by destruct (ps !!! p).
  - f_equal. rewrite vlookup_insert, vinsert_twice. done.
Qed.

(** The state with entry [p] changed by [f]. *)
Definition upd (p : fin NPROC) (f : proc -> proc) (s : K) : K :=
  with_procs (fun v => vinsert p (f (v !!! p)) v) s.

Lemma pmod_upd p f (s : K) : pmod p f s = Ok tt (upd p f s).
Proof. done. Qed.

Lemma pget_run p (s : K) : pget p s = Ok (procs s !!! p) s.
Proof. done. Qed.
Lemma tell_run f (s : K) : tell f s = Ok tt (with_env (f (env s)) s).
Proof. done. Qed.

Lemma upd_upd p f g (s : K) : upd p f (upd p g s) = upd p (fun x => f (g x)) s.
Proof. unfold upd, with_procs. simpl. f_equal. by rewrite vlookup_insert, vinsert_twice. Qed.

Lemma lookup_upd p f (s : K) : procs (upd p f s) !!! p = f (procs s !!! p).
Proof. simpl. by rewrite vlookup_insert. Qed.

Lemma lookup_upd_ne p q f (s : K) : p <> q -> procs (upd p f s) !!! q = procs s !!! q.
Proof. intros. simpl. by rewrite vlookup_insert_ne. Qed.

Lemma upd_ext p f g (s : K) : f (procs s !!! p) = g (procs s !!! p) -> upd p f s = upd p g s.
Proof. intros Hfg. unfold upd, with_procs. by rewrite Hfg. Qed.

(** ** Moving updates under a held lock *)

Definition mine (n : string) (s : K) : spinlock := mkSpinlock 1 n (Some (kcpuid s)).

Lemma upd_taken_p p q f (s : K) `{!KeepsLock f} :
  upd q f (taken (plock p) s) = taken (plock p) (upd q f s).
Proof.
  destruct s. unfold upd, taken, entered, plock, with_procs. simpl. f_equal.
  destruct (decide (p = q)) as [->|Hne].
  - rewrite !vlookup_insert, !vinsert_twice. f_equal. by rewrite kl_comm, kl_lock.
  - rewrite !vlookup_insert_ne by done. by rewrite vinsert_comm by done.
Qed.

Lemma upd_taken_w q f (s : K) : upd q f (taken the_wait_lock s) = taken the_wait_lock (upd q f s).
Proof. by destruct s. Qed.
Lemma upd_taken_pid q f (s : K) : upd q f (taken the_pid_lock s) = taken the_pid_lock (upd q f s).
Proof. by destruct s. Qed.
Lemma env_taken_p p e (s : K) : with_env e (taken (plock p) s) = taken (plock p) (with_env e s).
Proof. by destruct s. Qed.
Lemma env_taken_w e (s : K) : with_env e (taken the_wait_lock s) = taken the_wait_lock (with_env e s).
Proof. by destruct s. Qed.
Lemma nextpid_taken v (s : K) :
  with_nextpid v (taken the_pid_lock s) = taken the_pid_lock (with_nextpid v s).
Proof. by destruct s. Qed.
Lemma nextpid_taken_p p v (s : K) :
  with_nextpid v (taken (plock p) s) = taken (plock p) (with_nextpid v s).
Proof. by destruct s. Qed.
Lemma curproc_taken_p p v (s : K) :
  with_curproc v (taken (plock p) s) = taken (plock p) (with_curproc v s).
Proof. by destruct s. Qed.
Lemma curproc_taken_w v (s : K) :
  with_curproc v (taken the_wait_lock s) = taken the_wait_lock (with_curproc v s).
Proof. by destruct s. Qed.
Lemma taken_pw p (s : K) :
  taken (plock p) (taken the_wait_lock s) = taken the_wait_lock (taken (plock p) s).
Proof. by destruct s. Qed.

(** What a held lock leaves of an entry: everything but its lock field. *)
Lemma lookup_taken_p p q (s : K) :
  exists l, procs (taken (plock p) s) !!! q = p_lock l (procs s !!! q) /\
            (p <> q -> l = lock (procs s !!! q)).
Proof.
  unfold taken, entered, plock, with_procs. simpl. destruct (decide (p = q)) as [->|Hne].
  - rewrite vlookup_insert. by eexists.
  - rewrite vlookup_insert_ne by done. exists (lock (procs s !!! q)). split; [|done].
    by destruct (procs s !!! q).
Qed.

(** ** Locks free and held *)

Definition free_p (s : K) (p : fin NPROC) : Prop := is_free (lock (procs s !!! p)).

Record at_rest (s : K) : Prop := {
  ar_cpu : cpu_ok (kcpu s);
  ar_procs : forall p, free_p s p;
  ar_pid : is_free (pid_lock s);
  ar_wait : is_free (wait_lock s) }.

Lemma acquire_p p (s : K) : free_p s p -> acquire (plock p) s = Ok tt (taken (plock p) s).
Proof. exact (acquire_run (plock p) s). Qed.
Lemma release_p p (s : K) :
  cpu_ok (kcpu s) -> free_p s p -> release (plock p) (taken (plock p) s) = Ok tt s.
Proof. exact (release_taken (plock p) s). Qed.
Lemma acquire_w (s : K) : is_free (wait_lock s) ->
  acquire the_wait_lock s = Ok tt (taken the_wait_lock s).
Proof. exact (acquire_run the_wait_lock s). Qed.
Lemma release_w (s : K) : cpu_ok (kcpu s) -> is_free (wait_lock s) ->
  release the_wait_lock (taken the_wait_lock s) = Ok tt s.
Proof. exact (release_taken the_wait_lock s). Qed.

Lemma at_rest_upd p f (s : K) `{!KeepsLock f} : at_rest s -> at_rest (upd p f s).
Proof.
  intros [Hc Hp Hi Hw]. split; try done. intros q. unfold free_p. destruct (decide (p = q)) as [->|Hne].
  - rewrite lookup_upd, kl_lock. apply Hp.
  - rewrite lookup_upd_ne by done. apply Hp.
Qed.

Lemma at_rest_env e (s : K) : at_rest s -> at_rest (with_env e s).
Proof. by intros []. Qed.
Lemma at_rest_nextpid v (s : K) : at_rest s -> at_rest (with_nextpid v s).
Proof. by intros []. Qed.
Lemma at_rest_curproc v (s : K) : at_rest s -> at_rest (with_curproc v s).
Proof. by intros []. Qed.

Lemma cpu_taken_p p (s : K) : cpu_ok (kcpu s) -> cpu_ok (kcpu (taken (plock p) s)).
Proof. apply cpu_push_ok. Qed.
Lemma cpu_taken_w (s : K) : cpu_ok (kcpu s) -> cpu_ok (kcpu (taken the_wait_lock s)).
Proof. apply cpu_push_ok. Qed.
Lemma free_taken_w p (s : K) : free_p s p -> free_p (taken the_wait_lock s) p.
Proof. by destruct s. Qed.

(** [myproc()] has no effect on the state. *)
Lemma myproc_run (s : K) : cpu_ok (kcpu s) -> myproc s = Ok (curproc s) s.
Proof.
  intros Hc. unfold myproc. rewrite (bind_ok _ _ _ _ _ (push_off_run s)).
  unfold gets. unfold bind at 1. simpl. assert (cpu_ok (get_cpu s)) as Hg by exact Hc.
  rewrite (bind_ok _ _ _ _ _ (pop_off_run (entered s) s (get_cpu s) Hg eq_refl)).
  unfold ret. f_equal. by destruct s.
Qed.

Lemma my_run p (s : K) : cpu_ok (kcpu s) -> curproc s = Some p -> my s = Ok p s.
Proof. intros Hc Hp. unfold my. by rewrite (bind_ok _ _ _ _ _ (myproc_run s Hc)), Hp. Qed.

(** Lock, change the entry, unlock. *)
Lemma with_plock {B} p (k : proc -> M K B) (s s' : K) b :
  free_p s p -> cpu_ok (kcpu s') -> free_p s' p ->
  (forall l, k (p_lock l (procs s !!! p)) (taken (plock p) s) = Ok b (taken (plock p) s')) ->
  (acquire (plock p) ;; (let! x := pget p in let! r := k x in release (plock p) ;; ret r)) s = Ok b s'.
Proof.
  intros Hf Hc Hf' Hk. rewrite (bind_ok _ _ _ _ _ (acquire_p p s Hf)).
  destruct (lookup_taken_p p p s) as (l & Hl & _). unfold pget, gets. unfold bind at 1.
  rewrite Hl. rewrite (bind_ok _ _ _ _ _ (Hk l)).
  by rewrite (bind_ok _ _ _ _ _ (release_p p s' Hc Hf')).
Qed.

(** The table entries are unlocked, whatever other locks are held. *)
Definition procs_free (s : K) : Prop := cpu_ok (kcpu s) /\ forall p, free_p s p.

Lemma procs_free_rest (s : K) : at_rest s -> procs_free s.
Proof. intros []. by split. Qed.

Lemma procs_free_upd p f (s : K) `{!KeepsLock f} : procs_free s -> procs_free (upd p f s).
Proof.
  intros [Hc Hp]. split; [done|]. intros q. unfold free_p. destruct (decide (p = q)) as [->|Hne].
  - rewrite lookup_upd, kl_lock. apply Hp.
  - rewrite lookup_upd_ne by done. apply Hp.
Qed.

Lemma procs_free_w (s : K) : procs_free s -> procs_free (taken the_wait_lock s).
Proof. intros [Hc Hp]. split; [by apply cpu_taken_w|]. intros p. by apply free_taken_w. Qed.

Lemma pget_taken p q (s : K) :
  exists l, pget q (taken (plock p) s) = Ok (p_lock l (procs s !!! q)) (taken (plock p) s).
Proof. destruct (lookup_taken_p p q s) as (l & Hl & _). exists l. unfold pget, gets. by rewrite Hl. Qed.

(** ** wakeup *)

Definition wakes (c : Z) (cur : option (fin NPROC)) (p : fin NPROC) (x : proc) : proc :=
  if decide (Some p <> cur /\ state x = SLEEPING /\ chan x = c) then p_state RUNNABLE x else x.

#[export] Instance kl_wakes c cur p : KeepsLock (wakes c cur p).
Proof. split; intros; unfold wakes; simpl; by case_decide. Qed.

Lemma upd_id p f (s : K) : f (procs s !!! p) = procs s !!! p -> upd p f s = s.
Proof.
  intros Hf. destruct s as [? ? ps]. unfold upd, with_procs. simpl in *. f_equal. rewrite Hf.
  apply vlookup_insert_self.
Qed.

Lemma wakeup_one c p (s : K) : procs_free s ->
  (let! cur := myproc in
   if decide (Some p <> cur) then
     acquire (plock p) ;;
     let! x := pget p in
     (if decide (state x = SLEEPING /\ chan x = c) then pmod p (p_state RUNNABLE) else ret tt) ;;
     release (plock p)
   else ret tt) s = Ok tt (upd p (wakes c (curproc s) p) s).
Proof.
  intros [Hc Hp]. rewrite (bind_ok _ _ _ _ _ (myproc_run s Hc)). case_decide as Hne.
  2: { unfold ret. f_equal. symmetry. apply upd_id. unfold wakes. rewrite decide_False; [done|tauto]. }
  rewrite (bind_ok _ _ _ _ _ (acquire_p p s (Hp p))).
  destruct (pget_taken p p s) as [l Hl]. rewrite (bind_ok _ _ _ _ _ Hl).
  change (state (p_lock l (procs s !!! p))) with (state (procs s !!! p)).
  change (chan (p_lock l (procs s !!! p))) with (chan (procs s !!! p)).
  unfold wakes. case_decide as Hs.
  - rewrite (bind_ok _ _ _ _ _ (pmod_upd _ _ _)), upd_taken_p by apply _.
    rewrite release_p; [|done|by apply procs_free_upd; [apply _|]].
    f_equal. unfold upd, with_procs. do 2 f_equal. by rewrite decide_True by tauto.
  - unfold bind, ret. rewrite release_p by done. f_equal. symmetry. apply upd_id.
    rewrite decide_False; [done|tauto].
Qed.

Definition woken (c : Z) (s : K) : vec proc NPROC :=
  fun_to_vec (fun p => wakes c (curproc s) p (procs s !!! p)).
Definition after_wakeup (c : Z) (s : K) : K := with_procs (fun _ => woken c s) s.

(** The table after [f] has been applied to the entries in [ps]. *)
Definition applied (f : fin NPROC -> proc -> proc) (ps : list (fin NPROC)) (s : K) : K :=
  with_procs (fun _ => fun_to_vec (fun p =>
    if decide (p ∈ ps) then f p (procs s !!! p) else procs s !!! p)) s.

Lemma applied_nil f (s : K) : applied f [] s = s.
Proof.
  destruct s as [? ? ps]. unfold applied, with_procs. simpl. f_equal. apply vec_eq. intros p.
  rewrite lookup_fun_to_vec. done.
Qed.

Lemma applied_snoc f ps p (s : K) :
  p ∉ ps -> upd p (f p) (applied f ps s) = applied f (ps ++ [p]) s.
Proof.
  intros Hp. unfold applied, upd, with_procs. simpl. f_equal. apply vec_eq. intros q.
  rewrite !lookup_fun_to_vec. destruct (decide (p = q)) as [->|Hne].
  - rewrite vlookup_insert, decide_False by done. rewrite decide_True; [done|].
    apply elem_of_app. right. left.
  - rewrite vlookup_insert_ne, lookup_fun_to_vec by done.
    destruct (decide (q ∈ ps)) as [Hq|Hq].
    + by rewrite decide_True by (apply elem_of_app; by left).
    + rewrite decide_False; [done|]. rewrite elem_of_app, list_elem_of_singleton. naive_solver.
Qed.

Lemma all_procs_in p : p ∈ all_procs.
Proof. pose proof (elem_of_enum p) as Hp. unfold enum, fin_finite in Hp. exact Hp. Qed.
Lemma all_procs_nodup : NoDup all_procs.
Proof. pose proof (NoDup_enum (fin NPROC)) as Hn. unfold enum, fin_finite in Hn. exact Hn. Qed.

Lemma applied_all f (s : K) :
  applied f all_procs s = with_procs (fun v => fun_to_vec (fun p => f p (v !!! p))) s.
Proof.
  assert (forall p, p ∈ all_procs) as Hall by apply all_procs_in.
  revert Hall. generalize all_procs. intros ps Hall. unfold applied, with_procs. f_equal.
  apply vec_eq. intros p. rewrite !lookup_fun_to_vec. by rewrite decide_True by apply Hall.
Qed.

(** A loop over the table whose body updates the entry it is at. *)
Lemma for_all_procs (f : fin NPROC -> proc -> proc) (body : fin NPROC -> M K unit) (s : K) :
  (forall p ps, body p (applied f ps s) = Ok tt (upd p (f p) (applied f ps s))) ->
  for_each all_procs body s = Ok tt (applied f all_procs s).
Proof.
  intros Hbody.
  destruct (for_each_inv (fun done s' => s' = applied f done s) body all_procs s)
    as (s' & Hrun & ->).
  - by rewrite applied_nil.
  - intros dn p rest s0 Hl ->. eexists. split; [apply Hbody|].
    apply applied_snoc. pose proof all_procs_nodup as Hnd. rewrite Hl in Hnd.
    apply NoDup_app in Hnd as (_ & Hd & _). intros Hin. apply (Hd p Hin). left.
  - done.
Qed.

Lemma procs_free_applied f ps (s : K) :
  (forall p, KeepsLock (f p)) -> procs_free s -> procs_free (applied f ps s).
Proof.
  intros Hf [Hc Hp]. split; [done|]. intros p. unfold free_p. simpl. rewrite lookup_fun_to_vec.
  case_decide; [rewrite kl_lock|]; apply Hp.
Qed.

Lemma wakeup_run c (s : K) : procs_free s -> wakeup c s = Ok tt (after_wakeup c s).
Proof.
  intros Hs. unfold wakeup. rewrite (for_all_procs (wakes c (curproc s))).
  - by rewrite applied_all.
  - intros p ps. exact (wakeup_one c p (applied (wakes c (curproc s)) ps s)
      (procs_free_applied _ ps s (fun q => kl_wakes c (curproc s) q) Hs)).
Qed.
End Symbolic.
