(* ===== verification/Sleeplock.v ===== *)
(** * kernel/sleeplock.c: locks that sleep

    A sleep lock is reached inside a larger state by a [sleepref]; its inner spinlock
    is then a [lockref].  A process that finds the lock taken sleeps: the call ends
    [Blocked] on the channel of the lock, and is made again when it is woken. *)

From Stdlib Require Import ZArith Lia.
From stdpp Require Import base numbers list strings.
From S2P Require Import Prelude Spinlock ProcSpec.
Open Scope Z_scope.

Record sleeplock : Type := mkSleeplock {
  sl_lk : spinlock; sl_name : string; sl_locked : Z; sl_pid : Z }.

Definition sl_set_lk v l := mkSleeplock v (sl_name l) (sl_locked l) (sl_pid l).
Definition sl_set_name v l := mkSleeplock (sl_lk l) v (sl_locked l) (sl_pid l).
Definition sl_set_locked v l := mkSleeplock (sl_lk l) (sl_name l) v (sl_pid l).
Definition sl_set_pid v l := mkSleeplock (sl_lk l) (sl_name l) (sl_locked l) v.

(** What a component shows of the process that runs it: its pid, and the channels
    it has passed to wakeup. *)
Class OnProc (S : Type) := {
  my_pid : S -> Z;
  note_wakeup : Z -> S -> S }.

Record sleepref (S : Type) := mkSleepref {
  slget : S -> sleeplock;
  slset : sleeplock -> S -> S;
  slchan : Z }.
Arguments mkSleepref {S}. Arguments slget {S}. Arguments slset {S}. Arguments slchan {S}.

Section Operations.
Context {S : Type} `{OnCpu S} `{OnProc S}.

Definition sl_spin (r : sleepref S) : lockref S :=
  mkLockref (fun s => sl_lk (slget r s)) (fun l s => slset r (sl_set_lk l (slget r s)) s).

Definition sl_mod (r : sleepref S) (f : sleeplock -> sleeplock) : M S unit :=
  modify (fun s => slset r (f (slget r s)) s).

Definition initsleeplock (r : sleepref S) (name : string) : M S unit :=
  initlock (sl_spin r) "sleep lock" ;;
  sl_mod r (sl_set_name name) ;;
  sl_mod r (sl_set_locked 0) ;;
  sl_mod r (sl_set_pid 0).

Definition acquiresleep (r : sleepref S) : M S unit :=
  acquire (sl_spin r) ;;
  let! l := gets (slget r) in
  if decide (sl_locked l <> 0) then
    release (sl_spin r) ;;
    block (slchan r)
  else
    sl_mod r (sl_set_locked 1) ;;
    let! pid := gets my_pid in
    sl_mod r (sl_set_pid pid) ;;
    release (sl_spin r).

Definition releasesleep (r : sleepref S) : M S unit :=
  acquire (sl_spin r) ;;
  sl_mod r (sl_set_locked 0) ;;
  sl_mod r (sl_set_pid 0) ;;
  modify (note_wakeup (slchan r)) ;;
  release (sl_spin r).

Definition holdingsleep (r : sleepref S) : M S bool :=
  acquire (sl_spin r) ;;
  let! l := gets (slget r) in
  let! pid := gets my_pid in
  release (sl_spin r) ;;
  ret (bool_decide (sl_locked l <> 0 /\ sl_pid l = pid)).
End Operations.

(** ** Laws *)

Class SleepLaws {S : Type} `{OnCpuLaws S} `{OnProc S} (r : sleepref S) : Prop := {
  slp_get_set : forall l (s : S), slget r (slset r l s) = l;
  slp_set_get : forall (s : S), slset r (slget r s) s = s;
  slp_set_set : forall l l' (s : S), slset r l (slset r l' s) = slset r l s;
  slp_cpu : forall l (s : S), get_cpu (slset r l s) = get_cpu s;
  slp_get_cpu : forall c (s : S), slget r (set_cpu c s) = slget r s;
  slp_me : forall l (s : S), me (slset r l s) = me s;
  slp_cpu_comm : forall l c (s : S), slset r l (set_cpu c s) = set_cpu c (slset r l s);
  slp_pid_cpu : forall c (s : S), my_pid (set_cpu c s) = my_pid s;
  slp_pid_set : forall l (s : S), my_pid (slset r l s) = my_pid s;
  slp_wake_set : forall c l (s : S), note_wakeup c (slset r l s) = slset r l (note_wakeup c s);
  slp_wake_get : forall c (s : S), slget r (note_wakeup c s) = slget r s;
  slp_wake_cpu : forall c k (s : S), note_wakeup c (set_cpu k s) = set_cpu k (note_wakeup c s);
  slp_cpu_wake : forall c (s : S), get_cpu (note_wakeup c s) = get_cpu s;
  slp_me_wake : forall c (s : S), me (note_wakeup c s) = me s }.

Section Laws.
Context {S : Type} `{OnCpuLaws S} `{!OnProc S} (r : sleepref S) `{!SleepLaws r}.

#[export] Instance sl_spin_laws : LockLaws (sl_spin r).
Proof.
  split; intros; unfold sl_spin, sl_set_lk; simpl;
    rewrite ?slp_get_set, ?slp_set_set, ?slp_cpu, ?slp_get_cpu, ?slp_me, ?slp_cpu_comm; try done.
  destruct (slget r s) as [] eqn:Hg. simpl. rewrite <- Hg. apply slp_set_get.
Qed.

(** A sleep lock nobody is operating on. *)
Definition sl_rest (s : S) : Prop := cpu_ok (get_cpu s) /\ is_free (sl_lk (slget r s)).

(** Changes of the lock word move under the inner spinlock. *)
Lemma sl_mod_taken f (s : S) :
  (forall v l, f (sl_set_lk v l) = sl_set_lk v (f l)) -> (forall l, sl_lk (f l) = sl_lk l) ->
  sl_mod r f (taken (sl_spin r) s) = Ok tt (taken (sl_spin r) (slset r (f (slget r s)) s)).
Proof.
  intros Hc Hl. unfold sl_mod, modify, taken, entered, sl_spin. simpl. f_equal.
  rewrite !slp_get_set, !slp_set_set, !slp_get_cpu, !slp_cpu, !slp_me.
  rewrite !slp_get_set, Hc, Hl, <- slp_cpu_comm, slp_set_set. done.
Qed.

Lemma sl_locked_taken v (s : S) :
  sl_mod r (sl_set_locked v) (taken (sl_spin r) s) =
    Ok tt (taken (sl_spin r) (slset r (sl_set_locked v (slget r s)) s)).
Proof. by apply sl_mod_taken. Qed.
Lemma sl_pid_taken v (s : S) :
  sl_mod r (sl_set_pid v) (taken (sl_spin r) s) =
    Ok tt (taken (sl_spin r) (slset r (sl_set_pid v (slget r s)) s)).
Proof. by apply sl_mod_taken. Qed.

Lemma slget_taken (s : S) :
  exists v, slget r (taken (sl_spin r) s) = sl_set_lk v (slget r s) /\ my_pid (taken (sl_spin r) s) = my_pid s.
Proof.
  unfold taken, entered, sl_spin. simpl. eexists. rewrite slp_get_set, slp_get_cpu.
  split; [done|]. by rewrite slp_pid_set, slp_pid_cpu.
Qed.

Lemma wake_taken c (s : S) :
  note_wakeup c (taken (sl_spin r) s) = taken (sl_spin r) (note_wakeup c s).
Proof.
  unfold taken, entered, sl_spin. simpl.
  by rewrite slp_wake_set, slp_wake_cpu, !slp_get_cpu, !slp_wake_get, slp_cpu_wake, slp_me_wake.
Qed.

Lemma rest_release (s : S) : sl_rest s -> release (sl_spin r) (taken (sl_spin r) s) = Ok tt s.
Proof. intros [Hc Hf]. exact (release_taken (sl_spin r) s Hc Hf). Qed.

Lemma rest_acquire (s : S) : sl_rest s -> acquire (sl_spin r) s = Ok tt (taken (sl_spin r) s).
Proof. intros [Hc Hf]. exact (acquire_run (sl_spin r) s Hf). Qed.

Lemma rest_mod (s : S) f : (forall l, sl_lk (f l) = sl_lk l) ->
  sl_rest s -> sl_rest (slset r (f (slget r s)) s).
Proof. intros Hl [Hc Hf]. split; [by rewrite slp_cpu|]. by rewrite slp_get_set, Hl. Qed.

Definition sl_taken (p : Z) (l : sleeplock) : sleeplock := sl_set_pid p (sl_set_locked 1 l).
Definition sl_freed (l : sleeplock) : sleeplock := sl_set_pid 0 (sl_set_locked 0 l).

Lemma acquiresleep_run (s : S) :
  sl_rest s -> sl_locked (slget r s) = 0 ->
  acquiresleep r s = Ok tt (slset r (sl_taken (my_pid s) (slget r s)) s).
Proof.
  intros Hr Hl. unfold acquiresleep. rewrite (bind_ok _ _ _ _ _ (rest_acquire s Hr)).
  destruct (slget_taken s) as (v & Hv & Hp). unfold gets. unfold bind at 1.
  rewrite Hv, decide_False by (simpl; lia).
  rewrite (bind_ok _ _ _ _ _ (sl_locked_taken _ _)). unfold bind at 1.
  set (s1 := slset r (sl_set_locked 1 (slget r s)) s).
  destruct (slget_taken s1) as (v1 & _ & Hp1). rewrite Hp1.
  rewrite (bind_ok _ _ _ _ _ (sl_pid_taken _ _)).
  assert (slset r (sl_set_pid (my_pid s1) (slget r s1)) s1 = slset r (sl_taken (my_pid s) (slget r s)) s) as ->.
  { unfold s1. by rewrite slp_get_set, slp_set_set, slp_pid_set. }
  apply rest_release. by apply (rest_mod s (sl_taken (my_pid s))).
Qed.

Lemma acquiresleep_waits (s : S) :
  sl_rest s -> sl_locked (slget r s) <> 0 -> acquiresleep r s = Blocked (slchan r) s.
Proof.
  intros Hr Hl. unfold acquiresleep. rewrite (bind_ok _ _ _ _ _ (rest_acquire s Hr)).
  destruct (slget_taken s) as (v & Hv & Hp). unfold gets. unfold bind at 1.
  rewrite Hv, decide_True by done. by rewrite (bind_ok _ _ _ _ _ (rest_release s Hr)).
Qed.

Lemma releasesleep_run (s : S) :
  sl_rest s -> releasesleep r s = Ok tt (note_wakeup (slchan r) (slset r (sl_freed (slget r s)) s)).
Proof.
  intros Hr. unfold releasesleep. rewrite (bind_ok _ _ _ _ _ (rest_acquire s Hr)).
  rewrite (bind_ok _ _ _ _ _ (sl_locked_taken _ _)).
  rewrite (bind_ok _ _ _ _ _ (sl_pid_taken _ _)).
  rewrite slp_get_set, slp_set_set. unfold modify. unfold bind at 1. rewrite wake_taken.
  apply rest_release. destruct (rest_mod s sl_freed ltac:(done) Hr) as [Hc Hf].
  split; [by rewrite slp_cpu_wake|by rewrite slp_wake_get].
Qed.

Lemma holdingsleep_run (s : S) :
  sl_rest s -> holdingsleep r s =
    Ok (bool_decide (sl_locked (slget r s) <> 0 /\ sl_pid (slget r s) = my_pid s)) s.
Proof.
  intros Hr. unfold holdingsleep. rewrite (bind_ok _ _ _ _ _ (rest_acquire s Hr)).
  destruct (slget_taken s) as (v & Hv & Hp). unfold gets. unfold bind at 1. unfold bind at 1.
  rewrite Hv, Hp, (bind_ok _ _ _ _ _ (rest_release s Hr)). done.
Qed.
End Laws.
