(* ===== verification/BlockCache.v ===== *)
(** * What the log asks of the buffer cache

    [BufCache] names the operations of kernel/bio.c that kernel/log.c calls, and
    [BufCacheLaws] what they promise, in terms of the disk and of the map of blocks in
    use; the theorems on the log are proved against this interface, which [BioSpec]
    shows the buffer cache to implement. *)

From Stdlib Require Import ZArith Lia.
From stdpp Require Import base numbers list gmap strings.
From S2P Require Import Prelude Spinlock.
Open Scope Z_scope.

(** A block is the list of its 256 32-bit words. *)
Notation blk := (list Z).
Notation diskmap := (gmap Z blk).

Definition BWORDS : nat := 256.
Definition zero_blk : blk := replicate BWORDS 0.
Definition disk_block (d : diskmap) (b : Z) : blk := default zero_blk (d !! b).

(** A block in use: its references, whether its lock is held, its contents. *)
Record pin : Type := mkPin { p_ref : Z; p_held : bool; p_data : blk }.
Notation pins := (gmap Z pin).

Definition NBUF : nat := 30.

(** The map when a held block with [r] references is released; the entry goes with
    the last one. *)
Definition unref (n r : Z) (c : blk) (P : pins) : pins :=
  if decide (r = 1) then delete n P else <[n := mkPin (r - 1) false c]> P.

Class BufCache (S B : Type) `{OnCpu S} := {
  c_bread : Z -> Z -> M S B;
  c_bwrite : B -> M S unit;
  c_brelse : B -> M S unit;
  c_bpin : B -> M S unit;
  c_bunpin : B -> M S unit;
  c_data : B -> S -> blk;           (* b->data *)
  c_set_data : B -> blk -> M S unit;
  c_blockno : B -> S -> Z;
  c_history : S -> list diskmap;
  crep : S -> diskmap -> pins -> Prop;
  cnames : S -> B -> Z -> Prop }.

(** What an operation keeps: the history grows by [ds], the CPU is as before, and
    buffers go on naming their blocks, [n] apart. *)
Record cgoes {S B} `{BufCache S B} (s s' : S) (ds : list diskmap) (n : option Z) : Prop := {
  cg_history : c_history s' = c_history s ++ ds;
  cg_cpu : get_cpu s' = get_cpu s;
  cg_me : me s' = me s;
  cg_names : forall j m, n <> Some m -> cnames s j m -> cnames s' j m }.

Definition the_dev : Z := 1.

Class BufCacheLaws (S B : Type) `{BufCache S B} : Prop := {
  c_cpu_laws :: OnCpuLaws S;
  c_rep_cpu : forall s d P, crep s d P -> cpu_ok (get_cpu s);
  c_rep_set_cpu : forall s d P c, crep s d P -> cpu_ok c -> crep (set_cpu c s) d P;
  c_names_set_cpu : forall s i n c, cnames s i n -> cnames (set_cpu c s) i n;
  c_history_set_cpu : forall s c, c_history (set_cpu c s) = c_history s;
  c_names_pin : forall s d P i n, crep s d P -> cnames s i n ->
    exists r h, 0 < r < 2 ^ 32 /\ P !! n = Some (mkPin r h (c_data i s)) /\ c_blockno i s = n;
  c_bread_hit : forall s d P n r c,
    crep s d P -> P !! n = Some (mkPin r false c) -> r + 1 < 2 ^ 32 ->
    exists i s', c_bread the_dev n s = Ok i s' /\ cnames s' i n /\
      crep s' d (<[n := mkPin (r + 1) true c]> P) /\ cgoes s s' [] None;
  c_bread_miss : forall s d P n,
    crep s d P -> P !! n = None ->
    if decide (size P < NBUF)%nat then
      exists i s', c_bread the_dev n s = Ok i s' /\ cnames s' i n /\
        crep s' d (<[n := mkPin 1 true (disk_block d n)]> P) /\ cgoes s s' [] None
    else c_bread the_dev n s = Fault (Panic "bget: no buffers");
  c_set_data_ok : forall s d P i n r c c',
    crep s d P -> cnames s i n -> P !! n = Some (mkPin r true c) ->
    exists s', c_set_data i c' s = Ok tt s' /\
      crep s' d (<[n := mkPin r true c']> P) /\ cgoes s s' [] None;
  c_bwrite_ok : forall s d P i n r c,
    crep s d P -> cnames s i n -> P !! n = Some (mkPin r true c) ->
    exists s', c_bwrite i s = Ok tt s' /\ crep s' (<[n := c]> d) P /\ cgoes s s' [<[n := c]> d] None;
  c_brelse_ok : forall s d P i n r c,
    crep s d P -> cnames s i n -> P !! n = Some (mkPin r true c) -> (r = 1 -> c = disk_block d n) ->
    exists s', c_brelse i s = Ok tt s' /\ crep s' d (unref n r c P) /\ cgoes s s' [] (Some n);
  c_bpin_ok : forall s d P i n r h c,
    crep s d P -> cnames s i n -> P !! n = Some (mkPin r h c) -> 0 < r -> r + 1 < 2 ^ 32 ->
    exists s', c_bpin i s = Ok tt s' /\ crep s' d (<[n := mkPin (r + 1) h c]> P) /\ cgoes s s' [] None;
  c_bunpin_ok : forall s d P i n r h c,
    crep s d P -> cnames s i n -> P !! n = Some (mkPin r h c) -> 1 < r < 2 ^ 32 ->
    exists s', c_bunpin i s = Ok tt s' /\ crep s' d (<[n := mkPin (r - 1) h c]> P) /\ cgoes s s' [] None }.
