(* ===== verification/Bio.v ===== *)
(** * kernel/bio.c: the buffer cache

    Thirty buffers on a doubly linked list in order of use, [None] standing for the
    list head; each buffer has its sleep lock.  A block is the list of its 256 32-bit
    words.  The disk is reached by [virtio_disk_rw], which transfers a whole block at a
    time; [history] keeps every contents the disk has had, the states in which a crash
    may leave it.  One process runs, with pid [bpid]. *)

From Stdlib Require Import ZArith Lia.
From stdpp Require Import base numbers list vector fin finite gmap strings.
From S2P Require Import Prelude Spinlock Proc ProcSpec Sleeplock BlockCache.
Open Scope Z_scope.

Notation bufid := (fin NBUF).

Record buf : Type := mkBuf {
  valid : Z; dev : Z; blockno : Z; bsleep : sleeplock; refcnt : Z;
  prev : option bufid; next : option bufid; data : blk }.

Definition set_valid v b := mkBuf v (dev b) (blockno b) (bsleep b) (refcnt b) (prev b) (next b) (data b).
Definition set_dev v b := mkBuf (valid b) v (blockno b) (bsleep b) (refcnt b) (prev b) (next b) (data b).
Definition set_blockno v b := mkBuf (valid b) (dev b) v (bsleep b) (refcnt b) (prev b) (next b) (data b).
Definition set_bsleep v b := mkBuf (valid b) (dev b) (blockno b) v (refcnt b) (prev b) (next b) (data b).
Definition set_refcnt v b := mkBuf (valid b) (dev b) (blockno b) (bsleep b) v (prev b) (next b) (data b).
Definition set_prev v b := mkBuf (valid b) (dev b) (blockno b) (bsleep b) (refcnt b) v (next b) (data b).
Definition set_next v b := mkBuf (valid b) (dev b) (blockno b) (bsleep b) (refcnt b) (prev b) v (data b).
Definition set_data v b := mkBuf (valid b) (dev b) (blockno b) (bsleep b) (refcnt b) (prev b) (next b) v.

Record bst : Type := mkBst {
  bme : nat; bcpu : cpu; bpid : Z; bwakes : list Z;
  bcache_lock : spinlock;
  bufs : vec buf NBUF;
  head_prev : option bufid; head_next : option bufid;
  disk : diskmap; history : list diskmap }.

#[export] Instance bst_cpu : OnCpu bst := {
  me := bme;
  get_cpu := bcpu;
  set_cpu := fun c s => mkBst (bme s) c (bpid s) (bwakes s) (bcache_lock s) (bufs s)
                          (head_prev s) (head_next s) (disk s) (history s) }.
#[export] Instance bst_cpu_laws : OnCpuLaws bst.
Proof. split; intros; by destruct s. Qed.
#[export] Instance bst_proc : OnProc bst := {
  my_pid := bpid;
  note_wakeup := fun c s => mkBst (bme s) (bcpu s) (bpid s) (bwakes s ++ [c]) (bcache_lock s) (bufs s)
                              (head_prev s) (head_next s) (disk s) (history s) }.

Definition with_bufs f (s : bst) :=
  mkBst (bme s) (bcpu s) (bpid s) (bwakes s) (bcache_lock s) (f (bufs s))
    (head_prev s) (head_next s) (disk s) (history s).
Definition with_bcache_lock v (s : bst) :=
  mkBst (bme s) (bcpu s) (bpid s) (bwakes s) v (bufs s)
    (head_prev s) (head_next s) (disk s) (history s).
Definition with_head_prev v (s : bst) :=
  mkBst (bme s) (bcpu s) (bpid s) (bwakes s) (bcache_lock s) (bufs s)
    v (head_next s) (disk s) (history s).
Definition with_head_next v (s : bst) :=
  mkBst (bme s) (bcpu s) (bpid s) (bwakes s) (bcache_lock s) (bufs s)
    (head_prev s) v (disk s) (history s).
Definition with_disk (v : diskmap) (s : bst) :=
  mkBst (bme s) (bcpu s) (bpid s) (bwakes s) (bcache_lock s) (bufs s)
    (head_prev s) (head_next s) v (history s ++ [v]).

Definition bupd (i : bufid) (f : buf -> buf) : bst -> bst :=
  with_bufs (fun v => vinsert i (f (v !!! i)) v).
Definition the_buf (i : bufid) : M bst buf := gets (fun s => bufs s !!! i).
Definition bmod (i : bufid) (f : buf -> buf) : M bst unit := modify (bupd i f).

Definition bcache : lockref bst := mkLockref bcache_lock with_bcache_lock.
Definition buf_lock (i : bufid) : sleepref bst :=
  mkSleepref (fun s => bsleep (bufs s !!! i)) (fun l => bupd i (set_bsleep l))
    (3000 + Z.of_nat (fin_to_nat i)).

(** Links: [b->next], [b->prev] and their assignment, [b] being a buffer or the head. *)
Definition next_of (s : bst) (b : option bufid) : option bufid :=
  match b with None => head_next s | Some i => next (bufs s !!! i) end.
Definition prev_of (s : bst) (b : option bufid) : option bufid :=
  match b with None => head_prev s | Some i => prev (bufs s !!! i) end.
Definition set_next_of (b v : option bufid) : M bst unit :=
  modify (match b with None => with_head_next v | Some i => bupd i (set_next v) end).
Definition set_prev_of (b v : option bufid) : M bst unit :=
  modify (match b with None => with_head_prev v | Some i => bupd i (set_prev v) end).

(** ** The operations *)

(** b is put right behind the head. *)
Definition insert_head (i : bufid) : M bst unit :=
  let! h := gets head_next in
  set_next_of (Some i) h ;;
  set_prev_of (Some i) None ;;
  let! h := gets head_next in
  set_prev_of h (Some i) ;;
  set_next_of None (Some i).

Definition binit : M bst unit :=
  initlock bcache "bcache" ;;
  set_prev_of None None ;;
  set_next_of None None ;;
  for_each (fin_enum NBUF) (fun i =>
    let! h := gets head_next in
    set_next_of (Some i) h ;;
    set_prev_of (Some i) None ;;
    initsleeplock (buf_lock i) "buffer" ;;
    let! h := gets head_next in
    set_prev_of h (Some i) ;;
    set_next_of None (Some i)).

(** The two scans of bget; each visits a buffer once, so the fuel is enough. *)
Fixpoint find_cached (fuel : nat) (b : option bufid) (d n : Z) : M bst (option bufid) :=
  match fuel, b with
  | O, _ => fun _ => Fault OutOfFuel
  | S _, None => ret None
  | S fuel', Some i =>
      let! x := the_buf i in
      if decide (dev x = d /\ blockno x = n) then ret (Some i)
      else find_cached fuel' (next x) d n
  end.
Fixpoint find_unused (fuel : nat) (b : option bufid) : M bst (option bufid) :=
  match fuel, b with
  | O, _ => fun _ => Fault OutOfFuel
  | S _, None => ret None
  | S fuel', Some i =>
      let! x := the_buf i in
      if decide (refcnt x = 0) then ret (Some i)
      else find_unused fuel' (prev x)
  end.

Definition bget (d n : Z) : M bst bufid :=
  acquire bcache ;;
  let! h := gets head_next in
  let! o := find_cached (S NBUF) h d n in
  match o with
  | Some i =>
      bmod i (fun x => set_refcnt (u32 (refcnt x + 1)) x) ;;
      release bcache ;;
      acquiresleep (buf_lock i) ;;
      ret i
  | None =>
      let! t := gets head_prev in
      let! o := find_unused (S NBUF) t in
      match o with
      | Some i =>
          bmod i (set_dev d) ;;
          bmod i (set_blockno n) ;;
          bmod i (set_valid 0) ;;
          bmod i (set_refcnt 1) ;;
          release bcache ;;
          acquiresleep (buf_lock i) ;;
          ret i
      | None => panic "bget: no buffers"
      end
  end.

(** The transfer of a block between a buffer and the disk. *)
Definition virtio_disk_rw (i : bufid) (write : bool) : M bst unit := fun s =>
  let x := bufs s !!! i in
  if write then Ok tt (with_disk (<[blockno x := data x]> (disk s)) s)
  else Ok tt (bupd i (set_data (disk_block (disk s) (blockno x))) s).

Definition bread (d n : Z) : M bst bufid :=
  let! i := bget d n in
  let! x := the_buf i in
  (if decide (valid x = 0) then virtio_disk_rw i false ;; bmod i (set_valid 1) else ret tt) ;;
  ret i.

Definition bwrite (i : bufid) : M bst unit :=
  let! h := holdingsleep (buf_lock i) in
  if h then virtio_disk_rw i true else panic "bwrite".

Definition brelse (i : bufid) : M bst unit :=
  let! h := holdingsleep (buf_lock i) in
  if h then
    releasesleep (buf_lock i) ;;
    acquire bcache ;;
    bmod i (fun x => set_refcnt (u32 (refcnt x - 1)) x) ;;
    let! x := the_buf i in
    (if decide (refcnt x = 0) then
       set_prev_of (next x) (prev x) ;;
       set_next_of (prev x) (next x) ;;
       insert_head i
     else ret tt) ;;
    release bcache
  else panic "brelse".

Definition bpin (i : bufid) : M bst unit :=
  acquire bcache ;;
  bmod i (fun x => set_refcnt (u32 (refcnt x + 1)) x) ;;
  release bcache.

Definition bunpin (i : bufid) : M bst unit :=
  acquire bcache ;;
  bmod i (fun x => set_refcnt (u32 (refcnt x - 1)) x) ;;
  release bcache.

(** ** Linked lists *)

Section Links.
Context {F : Type} `{EqDecision F}.
Implicit Types (nx pv : option F -> option F) (x y : option F) (l : list F).

(** From [x] through [l] to [y], with links both ways. *)
Fixpoint seg nx pv x l y : Prop :=
  match l with
  | [] => nx x = y /\ pv y = x
  | i :: l => nx x = Some i /\ pv (Some i) = x /\ seg nx pv (Some i) l y
  end.

Lemma seg_app nx pv x l1 i l2 y :
  seg nx pv x (l1 ++ i :: l2) y <-> seg nx pv x l1 (Some i) /\ seg nx pv (Some i) l2 y.
Proof.
  revert x. induction l1 as [|k l1 IH]; intros x; simpl; [tauto|]. rewrite IH. tauto.
Qed.

(** Only the links on the way matter. *)
Lemma seg_frame nx pv nx' pv' x l y :
  (forall z, z = x \/ (exists i, z = Some i /\ i ∈ l) -> nx' z = nx z) ->
  (forall z, z = y \/ (exists i, z = Some i /\ i ∈ l) -> pv' z = pv z) ->
  seg nx pv x l y -> seg nx' pv' x l y.
Proof.
  revert x. induction l as [|k l IH]; intros x Hn Hp; simpl.
  - by rewrite Hn, Hp by (by left).
  - intros (H1 & H2 & H3). rewrite Hn by (by left). rewrite Hp by (right; exists k; split; [done|left]).
    split; [done|]. split; [done|]. apply IH; [..|done].
    + intros z [->|(i & -> & Hi)]; apply Hn; right; [exists k|exists i]; (split; [done|]); [left|by right].
    + intros z [->|(i & -> & Hi)]; apply Hp; [by left|right; exists i; split; [done|by right]].
Qed.

Definition fupd (f : option F -> option F) (a b : option F) : option F -> option F :=
  fun z => if decide (z = a) then b else f z.

Lemma fupd_same f a b : fupd f a b a = b.
Proof. unfold fupd. by rewrite decide_True. Qed.
Lemma fupd_ne f a b z : z <> a -> fupd f a b z = f z.
Proof. intros. unfold fupd. by rewrite decide_False. Qed.

(** Where the links next to an element lead. *)
Lemma seg_last nx pv x l y : seg nx pv x l y ->
  nx (match last l with Some a => Some a | None => x end) = y /\
  pv y = match last l with Some a => Some a | None => x end.
Proof.
  revert x. induction l as [|k l IH]; intros x; [done|]. intros (_ & _ & Hs). specialize (IH _ Hs).
  rewrite last_cons. by destruct (last l).
Qed.
Lemma seg_first nx pv x l y : seg nx pv x l y ->
  nx x = match head l with Some a => Some a | None => y end.
Proof. destruct l; simpl; tauto. Qed.

(** Taking an element out. *)
Lemma seg_unlink nx pv l1 i l2 :
  NoDup (l1 ++ i :: l2) -> seg nx pv None (l1 ++ i :: l2) None ->
  seg (fupd nx (pv (Some i)) (nx (Some i))) (fupd pv (nx (Some i)) (pv (Some i))) None (l1 ++ l2) None.
Proof.
  intros Hnd [H1 H2]%seg_app. pose proof (proj2 (seg_last _ _ _ _ _ H1)) as Hp.
  pose proof (seg_first _ _ _ _ _ H2) as Hn. rewrite Hn, Hp. clear Hn Hp.
  destruct l1 as [|a l1 _] using rev_ind; [|rewrite last_snoc; rewrite <- app_assoc in Hnd |- *; simpl in Hnd |- *;
    apply seg_app in H1 as [H1 _]; apply seg_app]; destruct l2 as [|c l2]; simpl in H2 |- *.
  - by rewrite !fupd_same.
  - destruct H2 as (_ & _ & H2). rewrite !fupd_same. split; [done|]. split; [done|].
    eapply seg_frame; [| |exact H2].
    + intros z Hz. rewrite fupd_ne; [done|]. intros ->. destruct Hz as [?|(j & ? & _)]; done.
    + intros z Hz. rewrite fupd_ne; [done|]. intros ->. destruct Hz as [?|(j & [= <-] & Hj)]; [done|].
      apply NoDup_cons in Hnd as [_ Hnd]. by apply NoDup_cons in Hnd as [Hnd _].
  - rewrite !fupd_same. split; [|done]. eapply seg_frame; [| |exact H1].
    + intros z Hz. rewrite fupd_ne; [done|]. intros ->. destruct Hz as [?|(j & [= <-] & Hj)]; [done|].
      apply NoDup_app in Hnd as (_ & Hd & _). apply (Hd a Hj). left.
    + intros z Hz. rewrite fupd_ne; [done|]. intros ->. destruct Hz as [?|(j & ? & _)]; done.
  - destruct H2 as (_ & _ & H2). rewrite !fupd_same. split; [|split; [done|split; [done|]]].
    + eapply seg_frame; [| |exact H1]; intros z Hz; (rewrite fupd_ne; [done|]; intros ->);
        apply NoDup_app in Hnd as (_ & Hd & Hnd).
      * destruct Hz as [?|(j & [= <-] & Hj)]; [done|]. apply (Hd a Hj). left.
      * destruct Hz as [[= ->]|(j & [= <-] & Hj)].
        -- apply NoDup_cons in Hnd as [Hnd _]. apply Hnd. right. left.
        -- apply (Hd c Hj). right. right. left.
    + apply NoDup_app in Hnd as (_ & _ & Hnd). apply NoDup_cons in Hnd as [Ha Hnd].
      apply NoDup_cons in Hnd as [_ Hnd]. apply NoDup_cons in Hnd as [Hc _].
      eapply seg_frame; [| |exact H2]; intros z Hz; (rewrite fupd_ne; [done|]; intros ->).
      * destruct Hz as [[= ->]|(j & [= <-] & Hj)]; [apply Ha; right; left|apply Ha; right; by right].
      * destruct Hz as [?|(j & [= <-] & Hj)]; [done|]. by apply Hc.
Qed.

(** Putting an element in front. *)
Lemma seg_push nx pv l i :
  NoDup (i :: l) -> seg nx pv None l None ->
  seg (fupd (fupd nx (Some i) (nx None)) None (Some i))
      (fupd (fupd pv (Some i) None) (nx None) (Some i)) None (i :: l) None.
Proof.
  intros [Hi Hnd]%NoDup_cons Hs. simpl. rewrite fupd_same. split; [done|].
  pose proof (seg_first _ _ _ _ _ Hs) as Hf. rewrite Hf. split.
  { rewrite fupd_ne; [by rewrite fupd_same|]. destruct l; simpl; [done|]. intros [= ->]. apply Hi. left. }
  destruct l as [|c l]; simpl in Hs |- *.
  - rewrite (fupd_ne _ None) by done. by rewrite !fupd_same.
  - rewrite (fupd_ne _ None) by done. rewrite !fupd_same. split; [done|]. split; [done|].
    destruct Hs as (_ & _ & Hs). apply not_elem_of_cons in Hi as [Hic Hil].
    eapply seg_frame; [| |exact Hs]; intros z Hz.
    + rewrite !fupd_ne; [done|..]; intros ->; by destruct Hz as [[= ?]|(j & [= ?] & Hj)]; subst.
    + rewrite !fupd_ne; [done|..]; intros ->.
      * by destruct Hz as [?|(j & [= ?] & Hj)]; subst.
      * destruct Hz as [?|(j & [= ?] & Hj)]; subst; [done|].
        by apply NoDup_cons in Hnd as [Hnd _].
Qed.
End Links.
