(* ===== verification/BioSpec.v ===== *)
(** * The buffer cache as an abstract cache

    To its users the cache is the disk and a finite map of the blocks in use
    ([pins]): how many references each has, whether its sleep lock is held, and its
    contents, which may be newer than the disk's.  [rep s d P] says that the buffers
    of [s] implement disk [d] and map [P]; every operation of bio.c is then a simple
    change of [d] and [P]. *)

From Stdlib Require Import ZArith Lia.
From stdpp Require Import base numbers list vector fin finite gmap strings.
From S2P Require Import Prelude Spinlock Proc ProcSpec Sleeplock BlockCache Bio.
Open Scope Z_scope.

Notation ROOTDEV := the_dev.

(** The part of a buffer that is not a link. *)
Definition core (x : buf) := (valid x, dev x, blockno x, bsleep x, refcnt x, data x).

Definition lock_is (pid : Z) (h : bool) (l : sleeplock) : Prop :=
  if h then sl_locked l = 1 /\ sl_pid l = pid else sl_locked l = 0.

Record buf_ok (pid : Z) (d : diskmap) (P : pins) (x : buf) : Prop := {
  bk_ref : 0 <= refcnt x < 2 ^ 32;
  bk_free : is_free (sl_lk (bsleep x));
  bk_used : 0 < refcnt x -> dev x = ROOTDEV /\ valid x <> 0 /\
    exists h, P !! blockno x = Some (mkPin (refcnt x) h (data x)) /\ lock_is pid h (bsleep x);
  bk_idle : refcnt x = 0 -> sl_locked (bsleep x) = 0 /\
    (dev x = ROOTDEV -> valid x <> 0 -> data x = disk_block d (blockno x)) }.

(** Buffer [i] is in use for block [n]. *)
Definition names (s : bst) (i : bufid) (n : Z) : Prop :=
  dev (bufs s !!! i) = ROOTDEV /\ blockno (bufs s !!! i) = n /\ 0 < refcnt (bufs s !!! i).

Definition ordered (s : bst) : Prop :=
  exists l, NoDup l /\ (forall i, i ∈ l) /\ seg (next_of s) (prev_of s) None l None.

Record rep (s : bst) (d : diskmap) (P : pins) : Prop := {
  rep_cpu : cpu_ok (bcpu s);
  rep_lock : is_free (bcache_lock s);
  rep_order : ordered s;
  rep_disk : disk s = d;
  rep_bufs : forall i, buf_ok (bpid s) d P (bufs s !!! i);
  rep_pins : forall n p, P !! n = Some p -> exists i, names s i n;
  rep_uniq : forall i j, dev (bufs s !!! i) = ROOTDEV -> dev (bufs s !!! j) = ROOTDEV ->
    blockno (bufs s !!! i) = blockno (bufs s !!! j) -> i = j }.

(** ** Moving through the locks *)

#[export] Instance bcache_laws : LockLaws bcache.
Proof. split; intros; by destruct s. Qed.

Lemma bupd_bupd i f g (s : bst) : bupd i f (bupd i g s) = bupd i (fun x => f (g x)) s.
Proof. unfold bupd, with_bufs. simpl. f_equal. by rewrite vlookup_insert, vinsert_twice. Qed.
Lemma bufs_bupd i f (s : bst) : bufs (bupd i f s) !!! i = f (bufs s !!! i).
Proof. simpl. by rewrite vlookup_insert. Qed.
Lemma bufs_bupd_ne i j f (s : bst) : i <> j -> bufs (bupd i f s) !!! j = bufs s !!! j.
Proof. intros. simpl. by rewrite vlookup_insert_ne. Qed.
Lemma bupd_id i f (s : bst) : f (bufs s !!! i) = bufs s !!! i -> bupd i f s = s.
Proof.
  intros Hf. unfold bupd, with_bufs. rewrite Hf. destruct s as [? ? ? ? ? v ? ? ? ?]; simpl in *.
  f_equal. apply vec_eq. intros j. destruct (decide (i = j)) as [->|Hne].
  - by rewrite vlookup_insert.
  - by rewrite vlookup_insert_ne.
Qed.

#[export] Instance buf_lock_laws i : SleepLaws (buf_lock i).
Proof.
  split; intros; unfold buf_lock; simpl; rewrite ?vlookup_insert; try done.
  - apply bupd_id. by destruct (bufs s !!! i).
  - by rewrite bupd_bupd.
Qed.

Lemma bmod_taken i f (s : bst) : bmod i f (taken bcache s) = Ok tt (taken bcache (bupd i f s)).
Proof. done. Qed.
Lemma the_buf_taken i (s : bst) : the_buf i (taken bcache s) = Ok (bufs s !!! i) (taken bcache s).
Proof. done. Qed.

Lemma acquire_bcache (s : bst) : is_free (bcache_lock s) -> acquire bcache s = Ok tt (taken bcache s).
Proof. exact (acquire_run bcache s). Qed.
Lemma release_bcache (s : bst) :
  cpu_ok (bcpu s) -> is_free (bcache_lock s) -> release bcache (taken bcache s) = Ok tt s.
Proof. exact (release_taken bcache s). Qed.

(** ** The scans of bget *)

Lemma find_cached_run fuel x l d n (s : bst) :
  seg (next_of s) (prev_of s) x l None -> (length l < fuel)%nat ->
  (find_cached fuel (next_of s x) d n (taken bcache s) = Ok None (taken bcache s) /\
   forall i, i ∈ l -> ~ (dev (bufs s !!! i) = d /\ blockno (bufs s !!! i) = n)) \/
  exists i, i ∈ l /\ dev (bufs s !!! i) = d /\ blockno (bufs s !!! i) = n /\
    find_cached fuel (next_of s x) d n (taken bcache s) = Ok (Some i) (taken bcache s).
Proof.
  revert x fuel. induction l as [|i l IH]; intros x [|fuel] Hs Hf; try (simpl in Hf; lia).
  - destruct Hs as [-> _]. left. split; [done|]. by intros i Hi%not_elem_of_nil.
  - destruct Hs as (-> & _ & Hs). cbn [find_cached].
    rewrite (bind_ok _ _ _ _ _ (the_buf_taken _ _)). case_decide as Hd.
    + right. exists i. split; [left|]. by destruct Hd.
    + destruct (IH (Some i) fuel Hs) as [[Hr Hn]|(j & Hj & Hdv & Hbn & Hr)]; [simpl in Hf; lia|left|right].
      * split; [exact Hr|]. intros j [->|Hj]%elem_of_cons; [done|by apply Hn].
      * exists j. split; [by right|done].
Qed.

Lemma find_free_buf_run fuel l y (s : bst) :
  seg (next_of s) (prev_of s) None l y -> (length l < fuel)%nat ->
  (find_unused fuel (prev_of s y) (taken bcache s) = Ok None (taken bcache s) /\
   forall i, i ∈ l -> refcnt (bufs s !!! i) <> 0) \/
  exists i, i ∈ l /\ refcnt (bufs s !!! i) = 0 /\
    find_unused fuel (prev_of s y) (taken bcache s) = Ok (Some i) (taken bcache s).
Proof.
  revert y fuel. induction l as [|i l IH] using rev_ind; intros y [|fuel] Hs Hf;
    try (rewrite ?length_app in Hf; simpl in Hf; lia).
  - destruct Hs as [_ ->]. left. split; [done|]. by intros i Hi%not_elem_of_nil.
  - apply seg_app in Hs as [Hs [_ ->]]. cbn [find_unused].
    rewrite (bind_ok _ _ _ _ _ (the_buf_taken _ _)). case_decide as Hd.
    + right. exists i. split; [apply elem_of_app; right; left|done].
    + destruct (IH (Some i) fuel Hs) as [[Hr Hn]|(j & Hj & Hz & Hr)];
        [rewrite length_app in Hf; simpl in Hf; lia|left|right].
      * split; [exact Hr|]. intros j [Hj|Hj]%elem_of_app; [by apply Hn|]. apply list_elem_of_singleton in Hj as ->. done.
      * exists j. split; [apply elem_of_app; by left|done].
Qed.

Lemma order_length (l : list bufid) : NoDup l -> (length l < S NBUF)%nat.
Proof.
  intros Hnd. assert (l ⊆+ fin_enum NBUF) as Hsub.
  { apply NoDup_submseteq; [done|]. intros i _. pose proof (elem_of_enum i) as Hi.
    unfold enum, fin_finite in Hi. exact Hi. }
  apply submseteq_length in Hsub. change (length (fin_enum NBUF)) with NBUF in Hsub. lia.
Qed.

(** ** Changing one buffer *)

Lemma ordered_links (s s' : bst) :
  (forall b, next_of s' b = next_of s b) -> (forall b, prev_of s' b = prev_of s b) ->
  ordered s -> ordered s'.
Proof.
  intros Hn Hp (l & Hnd & Hall & Hs). exists l. split; [done|]. split; [done|].
  eapply seg_frame; [| |exact Hs]; auto.
Qed.

Lemma ordered_bupd i f (s : bst) :
  (forall x, next (f x) = next x) -> (forall x, prev (f x) = prev x) -> ordered s -> ordered (bupd i f s).
Proof.
  intros Hn Hp. apply ordered_links; intros [j|]; try done; simpl;
    (destruct (decide (i = j)) as [->|Hne]; [rewrite vlookup_insert; auto|by rewrite vlookup_insert_ne]).
Qed.

Lemma buf_ok_core pid d P x y : core x = core y -> buf_ok pid d P x -> buf_ok pid d P y.
Proof.
  unfold core. intros [= H1 H2 H3 H4 H5 H6] [B1 B2 B3 B4]. destruct x, y. simpl in *. subst. by split.
Qed.

(** A buffer of another block does not see a change of the map at [n]. *)
Lemma buf_ok_other pid d d' P P' n x :
  (forall b, b <> n -> P' !! b = P !! b) -> (forall b, b <> n -> disk_block d' b = disk_block d b) ->
  (dev x = ROOTDEV -> blockno x <> n) -> buf_ok pid d P x -> buf_ok pid d' P' x.
Proof.
  intros HP Hd Hn [B1 B2 B3 B4]. split; try done.
  - intros Hr. destruct (B3 Hr) as (Hdv & Hv & h & Hh & Hl). split; [done|]. split; [done|]. exists h.
    rewrite HP; [done|by apply Hn].
  - intros Hr. destruct (B4 Hr) as (Hl & Hcl). split; [done|]. intros Hdv Hv. rewrite Hd; [by apply Hcl|by apply Hn].
Qed.

Lemma rep_one (s s' : bst) i n d d' P P' :
  rep s d P ->
  cpu_ok (bcpu s') -> is_free (bcache_lock s') -> ordered s' -> disk s' = d' -> bpid s' = bpid s ->
  (forall j, j <> i -> core (bufs s' !!! j) = core (bufs s !!! j)) ->
  dev (bufs s' !!! i) = ROOTDEV -> blockno (bufs s' !!! i) = n ->
  (forall j, j <> i -> dev (bufs s !!! j) = ROOTDEV -> blockno (bufs s !!! j) <> n) ->
  (0 < refcnt (bufs s !!! i) -> blockno (bufs s !!! i) = n) ->
  (forall b, b <> n -> P' !! b = P !! b) -> (forall b, b <> n -> disk_block d' b = disk_block d b) ->
  (forall p, P' !! n = Some p -> 0 < refcnt (bufs s' !!! i)) ->
  buf_ok (bpid s) d' P' (bufs s' !!! i) -> rep s' d' P'.
Proof.
  intros [Hc Hl Ho Hd Hb Hp Hu] Hc' Hl' Ho' Hd' Hpid Hcore Hdev Hbn Hoth Hold HP HD Hex Hok.
  assert (forall j, j <> i -> dev (bufs s' !!! j) = dev (bufs s !!! j) /\
    blockno (bufs s' !!! j) = blockno (bufs s !!! j) /\ refcnt (bufs s' !!! j) = refcnt (bufs s !!! j)) as Hsame.
  { intros j Hj. specialize (Hcore j Hj). unfold core in Hcore. by injection Hcore. }
  split; try done.
  - intros j. rewrite Hpid. destruct (decide (j = i)) as [->|Hj]; [done|].
    apply (buf_ok_core _ _ _ (bufs s !!! j)); [by rewrite Hcore|].
    eapply buf_ok_other; [exact HP|exact HD|by apply Hoth|by apply Hb].
  - intros b p Hbp. destruct (decide (b = n)) as [->|Hne].
    + exists i. split; [done|]. split; [done|]. by eapply Hex.
    + rewrite HP in Hbp by done. destruct (Hp b p Hbp) as (j & Hjd & Hjb & Hjr).
      assert (j <> i) as Hj by (intros ->; apply Hne; rewrite <- Hjb; by apply Hold).
      destruct (Hsame j Hj) as (E1 & E2 & E3). exists j. unfold names. by rewrite E1, E2, E3.
  - intros j k Hj Hk Hjk.
    destruct (decide (j = i)) as [->|Hji], (decide (k = i)) as [->|Hki]; try done.
    + destruct (Hsame k Hki) as (E1 & E2 & _). exfalso. apply (Hoth k Hki); congruence.
    + destruct (Hsame j Hji) as (E1 & E2 & _). exfalso. apply (Hoth j Hji); congruence.
    + destruct (Hsame j Hji) as (E1 & E2 & _), (Hsame k Hki) as (F1 & F2 & _). apply Hu; congruence.
Qed.

(** The entry of a buffer in use. *)
Lemma rep_names (s : bst) d P i n :
  rep s d P -> names s i n ->
  exists h, P !! n = Some (mkPin (refcnt (bufs s !!! i)) h (data (bufs s !!! i))) /\
    lock_is (bpid s) h (bsleep (bufs s !!! i)) /\ valid (bufs s !!! i) <> 0.
Proof.
  intros Hr (Hd & <- & Href). destruct (bk_used _ _ _ _ (rep_bufs _ _ _ Hr i) Href) as (_ & Hv & h & Hh & Hl).
  by exists h.
Qed.

Lemma names_data (s : bst) d P i n r h c :
  rep s d P -> names s i n -> P !! n = Some (mkPin r h c) -> data (bufs s !!! i) = c.
Proof. intros Hr Hn HP. destruct (rep_names s d P i n Hr Hn) as (h' & HP' & _). congruence. Qed.

Lemma names_other (s : bst) d P i n j :
  rep s d P -> names s i n -> j <> i -> dev (bufs s !!! j) = ROOTDEV -> blockno (bufs s !!! j) <> n.
Proof. intros Hr (Hd & <- & _) Hj Hdj Hb. apply Hj. by apply (rep_uniq _ _ _ Hr). Qed.

(** A change of the fields of a buffer in use that keeps its block. *)
Lemma rep_bupd (s : bst) d P i n f p :
  rep s d P -> names s i n ->
  (forall x, next (f x) = next x) -> (forall x, prev (f x) = prev x) ->
  let y := f (bufs s !!! i) in
  dev y = ROOTDEV -> blockno y = n -> valid y <> 0 -> 0 < refcnt y < 2 ^ 32 ->
  is_free (sl_lk (bsleep y)) -> lock_is (bpid s) (p_held p) (bsleep y) ->
  p_ref p = refcnt y -> p_data p = data y ->
  rep (bupd i f s) d (<[n := p]> P).
Proof.
  intros Hr Hn Hnx Hpv y Hdev Hbn Hval Hrc Hfree Hlk Hpr Hpd.
  apply (rep_one s _ i n d d P); rewrite ?bufs_bupd; fold y; try done.
  - apply Hr.
  - apply Hr.
  - by apply ordered_bupd; [..|apply Hr].
  - apply Hr.
  - intros j Hj. by rewrite bufs_bupd_ne.
  - intros j Hj. by eapply names_other.
  - intros _. apply Hn.
  - intros b Hb. by rewrite lookup_insert_ne.
  - by intros _ _; apply Hrc.
  - split; [lia|done| |lia]. intros _. split; [done|]. split; [done|]. exists (p_held p).
    rewrite Hbn, lookup_insert_eq. split; [|done]. f_equal. destruct p; simpl in *. by subst.
Qed.

(** ** Free buffers *)

Definition in_use (s : bst) (i : bufid) : Prop := 0 < refcnt (bufs s !!! i).
#[export] Instance in_use_dec s i : Decision (in_use s i).
Proof. unfold in_use. apply _. Defined.

Lemma all_bufs (i : bufid) : i ∈ fin_enum NBUF.
Proof. pose proof (elem_of_enum i) as Hi. unfold enum, fin_finite in Hi. exact Hi. Qed.

Lemma all_bufs_nodup : NoDup (fin_enum NBUF).
Proof. pose proof (NoDup_enum (fin NBUF)) as Hn. unfold enum, fin_finite in Hn. exact Hn. Qed.

Lemma filter_all {A} (P : A -> Prop) `{forall x, Decision (P x)} (l : list A) :
  (forall x, P x) -> filter P l = l.
Proof. intros HP. induction l as [|x l IH]; [done|]. by rewrite filter_cons_True, IH. Qed.

(** The map has one entry for each buffer in use. *)
Lemma rep_size (s : bst) d P :
  rep s d P -> size P = length (filter (in_use s) (fin_enum NBUF)).
Proof.
  intros Hr. set (U := filter (in_use s) (fin_enum NBUF)).
  assert (forall i, i ∈ U <-> in_use s i) as HU.
  { intros i. unfold U. rewrite list_elem_of_filter. split; [by intros [? _]|]. intros Hi. split; [done|apply all_bufs]. }
  rewrite <- size_dom. assert (dom P = list_to_set ((fun i => blockno (bufs s !!! i)) <$> U)) as ->.
  { apply set_eq. intros n. rewrite elem_of_dom, elem_of_list_to_set, list_elem_of_fmap. split.
    - intros [p Hp]. destruct (rep_pins _ _ _ Hr n p Hp) as (i & _ & Hb & Hi). exists i. by rewrite HU.
    - intros (i & -> & Hi%HU). destruct (bk_used _ _ _ _ (rep_bufs _ _ _ Hr i) Hi) as (_ & _ & h & Hh & _).
      by rewrite Hh. }
  rewrite size_list_to_set; [by rewrite length_fmap|].
  apply NoDup_fmap_2_strong; [|apply NoDup_filter, all_bufs_nodup].
  intros i j Hi%HU Hj%HU Hb. apply (rep_uniq _ _ _ Hr); [| |done].
  - by apply (bk_used _ _ _ _ (rep_bufs _ _ _ Hr i)).
  - by apply (bk_used _ _ _ _ (rep_bufs _ _ _ Hr j)).
Qed.

Lemma rep_size_max (s : bst) d P : rep s d P -> (size P <= NBUF)%nat.
Proof.
  intros Hr. rewrite (rep_size s d P Hr). etrans; [apply length_filter|]. done.
Qed.

Lemma rep_all_used (s : bst) d P :
  rep s d P -> (forall i, refcnt (bufs s !!! i) <> 0) <-> size P = NBUF.
Proof.
  intros Hr. rewrite (rep_size s d P Hr). split.
  - intros Hall. rewrite filter_all; [done|]. intros i.
    unfold in_use. pose proof (bk_ref _ _ _ _ (rep_bufs _ _ _ Hr i)). specialize (Hall i). lia.
  - intros Hlen i Hz. assert (length (filter (in_use s) (fin_enum NBUF)) < length (fin_enum NBUF))%nat as Hlt;
      [|rewrite Hlen in Hlt; change (length (fin_enum NBUF)) with NBUF in Hlt; lia].
    apply length_filter_lt with i; [apply all_bufs|]. unfold in_use. lia.
Qed.

(** ** The operations *)

(** What a caller may rely on besides the map: the disk contents written on the way,
    the CPU, and which buffers it goes on holding, [n] apart. *)
Record goes (s s' : bst) (ds : list diskmap) (n : option Z) : Prop := {
  go_history : history s' = history s ++ ds;
  go_cpu : bcpu s' = bcpu s;
  go_me : bme s' = bme s;
  go_names : forall j m, n <> Some m -> names s j m -> names s' j m }.

Lemma goes_bupd i f (s : bst) n :
  names s i n -> names (bupd i f s) i n -> goes s (bupd i f s) [] None.
Proof.
  intros Hn Hn'. split; try done; [by rewrite app_nil_r|]. intros j m _ Hj.
  destruct (decide (i = j)) as [->|Hne].
  - destruct Hn as (_ & <- & _), Hj as (_ & <- & _). done.
  - unfold names. by rewrite bufs_bupd_ne.
Qed.

Lemma set_data_rep (s : bst) d P i n r c c' :
  rep s d P -> names s i n -> P !! n = Some (mkPin r true c) ->
  rep (bupd i (set_data c') s) d (<[n := mkPin r true c']> P) /\
  goes s (bupd i (set_data c') s) [] None.
Proof.
  intros Hr Hn HP. destruct (rep_names s d P i n Hr Hn) as (h & Hh & Hl & Hv).
  rewrite HP in Hh. simplify_eq. pose proof (rep_bufs _ _ _ Hr i) as [B1 B2 _ _].
  pose proof Hn as (Hd & Hb & Hrc). split.
  - apply (rep_bupd s d P i n); simpl; try done. lia.
  - apply goes_bupd with n; [done|]. unfold names. by rewrite bufs_bupd.
Qed.

(** bpin and bunpin: the reference count goes from [r] to [r']. *)
Lemma recount_rep (s : bst) d P i n r h c f :
  rep s d P -> names s i n -> P !! n = Some (mkPin r h c) -> 0 < u32 (f r) < 2 ^ 32 ->
  exists s', (acquire bcache ;; bmod i (fun x => set_refcnt (u32 (f (refcnt x))) x) ;; release bcache) s = Ok tt s' /\
    rep s' d (<[n := mkPin (u32 (f r)) h c]> P) /\ goes s s' [] None.
Proof.
  intros Hr Hn HP Hlt. destruct (rep_names s d P i n Hr Hn) as (h' & Hh & Hl & Hv).
  rewrite HP in Hh. simplify_eq. pose proof (rep_bufs _ _ _ Hr i) as [B1 B2 _ _].
  pose proof Hn as (Hd & Hb & Hrc).
  rewrite (bind_ok _ _ _ _ _ (acquire_bcache s (rep_lock _ _ _ Hr))), (bind_ok _ _ _ _ _ (bmod_taken _ _ _)).
  rewrite release_bcache by (apply Hr). eexists. split; [done|]. split.
  - apply (rep_bupd s d P i n); simpl; done.
  - apply goes_bupd with n; [done|]. unfold names. rewrite bufs_bupd. simpl. split; [done|]. split; [done|lia].
Qed.

Lemma bpin_rep (s : bst) d P i n r h c :
  rep s d P -> names s i n -> P !! n = Some (mkPin r h c) -> 0 < r -> r + 1 < 2 ^ 32 ->
  exists s', bpin i s = Ok tt s' /\ rep s' d (<[n := mkPin (r + 1) h c]> P) /\ goes s s' [] None.
Proof.
  intros Hr Hn HP Hp Hlt.
  assert (u32 (r + 1) = r + 1) as Hu by (apply uwrap_small; lia).
  destruct (recount_rep s d P i n r h c (fun r => r + 1) Hr Hn HP) as (s' & Hrun & Hrep & Hg); [lia|].
  exists s'. rewrite Hu in Hrep. done.
Qed.

Lemma bunpin_rep (s : bst) d P i n r h c :
  rep s d P -> names s i n -> P !! n = Some (mkPin r h c) -> 1 < r < 2 ^ 32 ->
  exists s', bunpin i s = Ok tt s' /\ rep s' d (<[n := mkPin (r - 1) h c]> P) /\ goes s s' [] None.
Proof.
  intros Hr Hn HP Hp.
  assert (u32 (r - 1) = r - 1) as Hu by (apply uwrap_small; lia).
  destruct (recount_rep s d P i n r h c (fun r => r - 1) Hr Hn HP) as (s' & Hrun & Hrep & Hg); [lia|].
  exists s'. rewrite Hu in Hrep. done.
Qed.

Lemma holding_buf (s : bst) d P i n r c :
  rep s d P -> names s i n -> P !! n = Some (mkPin r true c) ->
  holdingsleep (buf_lock i) s = Ok true s.
Proof.
  intros Hr Hn HP. destruct (rep_names s d P i n Hr Hn) as (h & Hh & Hl & Hv).
  rewrite HP in Hh. simplify_eq. pose proof (rep_bufs _ _ _ Hr i) as [B1 B2 _ _].
  assert (sl_rest (buf_lock i) s) as Hrest by (split; [apply Hr|exact B2]).
  rewrite (holdingsleep_run (buf_lock i) s Hrest).
  simpl in Hl. rewrite bool_decide_eq_true_2; [done|]. simpl. destruct Hl as [-> ->]. done.
Qed.

(** bwrite: the disk has the contents of the buffer. *)
Lemma bwrite_rep (s : bst) d P i n r c :
  rep s d P -> names s i n -> P !! n = Some (mkPin r true c) ->
  exists s', bwrite i s = Ok tt s' /\ rep s' (<[n := c]> d) P /\ goes s s' [<[n := c]> d] None.
Proof.
  intros Hr Hn HP. destruct (rep_names s d P i n Hr Hn) as (h & Hh & Hl & Hv).
  unfold bwrite. rewrite (bind_ok _ _ _ _ _ (holding_buf s d P i n r c Hr Hn HP)).
  rewrite HP in Hh. simplify_eq. unfold virtio_disk_rw.
  pose proof Hn as (Hd & Hb & Hrc). rewrite Hb, (rep_disk _ _ _ Hr).
  eexists. split; [done|]. split; [|by split].
  apply (rep_one s _ i n d _ P); try done.
  - exact (rep_cpu _ _ _ Hr).
  - exact (rep_lock _ _ _ Hr).
  - apply (ordered_links s); [by intros []|by intros []|apply Hr].
  - intros j Hj. by eapply names_other.
  - intros b Hbn. unfold disk_block. by rewrite lookup_insert_ne.
  - pose proof (rep_bufs _ _ _ Hr i) as [B1 B2 B3 B4]. split; [done|done|done|].
    intros Hz. change (refcnt (bufs s !!! i) = 0) in Hz. lia.
Qed.

Lemma cached_unique (s : bst) d P i j n :
  rep s d P -> names s i n -> dev (bufs s !!! j) = ROOTDEV -> blockno (bufs s !!! j) = n -> j = i.
Proof. intros Hr (Hd & Hb & _) Hdj Hbj. apply (rep_uniq _ _ _ Hr); congruence. Qed.

(** The tail of bget: the buffer's lock is taken. *)
Lemma lock_buf (s : bst) i :
  cpu_ok (bcpu s) -> is_free (sl_lk (bsleep (bufs s !!! i))) -> sl_locked (bsleep (bufs s !!! i)) = 0 ->
  acquiresleep (buf_lock i) s = Ok tt (bupd i (fun x => set_bsleep (sl_taken (bpid s) (bsleep x)) x) s).
Proof.
  intros Hc Hf Hl. assert (sl_rest (buf_lock i) s) as Hr by (by split).
  by rewrite (acquiresleep_run (buf_lock i) s Hr).
Qed.

Lemma bread_hit (s : bst) d P n r c :
  rep s d P -> P !! n = Some (mkPin r false c) -> r + 1 < 2 ^ 32 ->
  exists i s', bread ROOTDEV n s = Ok i s' /\ names s' i n /\
    rep s' d (<[n := mkPin (r + 1) true c]> P) /\ goes s s' [] None.
Proof.
  intros Hr HP Hlt. destruct (rep_pins _ _ _ Hr n _ HP) as (i & Hn). pose proof Hn as (Hd & Hb & Hrc).
  destruct (rep_names s d P i n Hr Hn) as (h & Hh & Hl & Hv). rewrite HP in Hh. simplify_eq.
  pose proof (rep_bufs _ _ _ Hr i) as [B1 B2 _ _].
  destruct (rep_order _ _ _ Hr) as (l & Hnd & Hall & Hs).
  exists i. unfold bread, bget. rewrite !bind_assoc, (bind_ok _ _ _ _ _ (acquire_bcache s (rep_lock _ _ _ Hr))).
  rewrite !bind_assoc. unfold gets. unfold bind at 1.
  destruct (find_cached_run (S NBUF) None l ROOTDEV (blockno (bufs s !!! i)) s Hs (order_length l Hnd))
    as [[_ Hno]|(j & _ & Hdj & Hbj & Hrun)]; [by destruct (Hno i (Hall i))|].
  assert (j = i) as -> by (by eapply cached_unique). rewrite !bind_assoc.
  change (head_next (taken bcache s)) with (next_of s None). rewrite (bind_ok _ _ _ _ _ Hrun).
  rewrite !bind_assoc, (bind_ok _ _ _ _ _ (bmod_taken _ _ _)), !bind_assoc.
  set (s1 := bupd i (fun x => set_refcnt (u32 (refcnt x + 1)) x) s).
  rewrite (bind_ok _ _ _ _ _ (release_bcache s1 (rep_cpu _ _ _ Hr) (rep_lock _ _ _ Hr))), !bind_assoc.
  assert (sl_locked (bsleep (bufs s1 !!! i)) = 0 /\ is_free (sl_lk (bsleep (bufs s1 !!! i)))) as [Hl1 Hf1]
    by (unfold s1; rewrite bufs_bupd; done).
  rewrite (bind_ok _ _ _ _ _ (lock_buf s1 i (rep_cpu _ _ _ Hr) Hf1 Hl1)), bind_ret.
  unfold s1. rewrite bupd_bupd. unfold the_buf, gets. unfold bind at 1. rewrite bufs_bupd.
  rewrite decide_False by done. rewrite bind_ret. eexists. split; [done|].
  match goal with |- names (bupd i ?f s) i _ /\ _ => set (g := f) end.
  assert (names (bupd i g s) i (blockno (bufs s !!! i))) as Hn'.
  { unfold names. rewrite bufs_bupd. simpl. split; [done|]. split; [done|]. rewrite (uwrap_small 32); lia. }
  split; [done|]. split; [|by eapply goes_bupd].
  apply (rep_bupd s d P i); simpl; try done; rewrite (uwrap_small 32); lia.
Qed.

Lemma find_none_other (s : bst) d P i n :
  rep s d P -> P !! n = None -> names s i n -> False.
Proof. intros Hr HP Hn. destruct (rep_names s d P i n Hr Hn) as (h & Hh & _). congruence. Qed.

(** A buffer that is not in use is taken over for block [n]. *)
Lemma rep_recycle (s : bst) d P i n f :
  rep s d P -> refcnt (bufs s !!! i) = 0 -> P !! n = None ->
  (forall j, j <> i -> dev (bufs s !!! j) = ROOTDEV -> blockno (bufs s !!! j) <> n) ->
  (forall x, next (f x) = next x) -> (forall x, prev (f x) = prev x) ->
  let y := f (bufs s !!! i) in
  dev y = ROOTDEV -> blockno y = n -> valid y <> 0 -> refcnt y = 1 ->
  is_free (sl_lk (bsleep y)) -> lock_is (bpid s) true (bsleep y) -> data y = disk_block d n ->
  rep (bupd i f s) d (<[n := mkPin 1 true (disk_block d n)]> P) /\ goes s (bupd i f s) [] None.
Proof.
  intros Hr Hz HP Hoth Hnx Hpv y Hdev Hbn Hval Hrc Hfree Hlk Hdat. split.
  - apply (rep_one s _ i n d d P); rewrite ?bufs_bupd; fold y; try done; try apply Hr.
    + by apply ordered_bupd; [..|apply Hr].
    + intros j Hj. by rewrite bufs_bupd_ne.
    + intros ?. lia.
    + intros b Hb. by rewrite lookup_insert_ne.
    + intros p _. lia.
    + split; [lia|done| |lia]. intros _. split; [done|]. split; [done|]. exists true.
      by rewrite Hbn, lookup_insert_eq, Hrc, Hdat.
  - split; try done; [by rewrite app_nil_r|]. intros j m _ Hj. unfold names.
    assert (j <> i) by (intros ->; destruct Hj as (_ & _ & ?); lia). by rewrite bufs_bupd_ne.
Qed.

(** bread once bget has locked the buffer: an idle buffer [i], given the identity
    [n] by [f], ends up holding the disk's contents. *)
Lemma bread_tail (s : bst) d P i n f :
  rep s d P -> refcnt (bufs s !!! i) = 0 -> P !! n = None ->
  (forall j, j <> i -> dev (bufs s !!! j) = ROOTDEV -> blockno (bufs s !!! j) <> n) ->
  (forall x, next (f x) = next x) -> (forall x, prev (f x) = prev x) -> (forall x, bsleep (f x) = bsleep x) ->
  let y := f (bufs s !!! i) in
  dev y = ROOTDEV -> blockno y = n -> refcnt y = 1 -> (valid y <> 0 -> data y = disk_block d n) ->
  exists s', (acquiresleep (buf_lock i) ;; ret i ;; let! x := the_buf i in
      (if decide (valid x = 0) then virtio_disk_rw i false ;; bmod i (set_valid 1) else ret tt) ;; ret i)
      (bupd i f s) = Ok i s' /\
    names s' i n /\ rep s' d (<[n := mkPin 1 true (disk_block d n)]> P) /\ goes s s' [] None.
Proof.
  intros Hr Hz HP Hoth Hnx Hpv Hsl y Hdev Hbn Hrc Hdat.
  pose proof (rep_bufs _ _ _ Hr i) as [B1 B2 _ B4]. destruct (B4 Hz) as [Hl _].
  assert (sl_locked (bsleep (bufs (bupd i f s) !!! i)) = 0 /\ is_free (sl_lk (bsleep (bufs (bupd i f s) !!! i))))
    as [Hl1 Hf1] by (rewrite bufs_bupd, Hsl; done).
  rewrite (bind_ok _ _ _ _ _ (lock_buf (bupd i f s) i (rep_cpu _ _ _ Hr) Hf1 Hl1)), bind_ret, bupd_bupd.
  unfold the_buf, gets. unfold bind at 1. rewrite bufs_bupd. fold y. cbn [valid set_bsleep].
  assert (forall g, (forall x, next (g x) = next x) -> (forall x, prev (g x) = prev x) ->
    (dev (g y) = ROOTDEV /\ blockno (g y) = n /\ valid (g y) <> 0 /\ refcnt (g y) = 1 /\
     bsleep (g y) = sl_taken (bpid s) (bsleep y) /\ data (g y) = disk_block d n) ->
    names (bupd i (fun x => g (f x)) s) i n /\
    rep (bupd i (fun x => g (f x)) s) d (<[n := mkPin 1 true (disk_block d n)]> P) /\
    goes s (bupd i (fun x => g (f x)) s) [] None) as Hfin.
  { intros g Hg1 Hg2 (G1 & G2 & G3 & G4 & G5 & G6). split.
    - unfold names. rewrite bufs_bupd. fold y. rewrite G1, G2, G4. done.
    - apply rep_recycle; fold y; try done.
      + intros x. by rewrite Hg1.
      + intros x. by rewrite Hg2.
      + rewrite G5. unfold y. rewrite Hsl. done.
      + rewrite G5. done. }
  case_decide as Hv.
  - unfold virtio_disk_rw. unfold bind at 1. unfold bind at 1. cbv beta zeta.
    rewrite bupd_bupd. unfold bmod, modify. rewrite bupd_bupd, bufs_bupd. fold y.
    eexists. split; [done|].
    apply (Hfin (fun x => set_valid 1 (set_data (disk_block (disk s) (blockno y)) (set_bsleep (sl_taken (bpid s) (bsleep x)) x))));
      [done|done|]. simpl. rewrite Hbn, (rep_disk _ _ _ Hr). done.
  - rewrite bind_ret. eexists. split; [done|].
    apply (Hfin (fun x => set_bsleep (sl_taken (bpid s) (bsleep x)) x)); [done|done|]. simpl. auto 10.
Qed.

(** bread up to the result of the first scan of bget. *)
Ltac enter_bget s Hr Hrun :=
  unfold bread, bget; rewrite !bind_assoc, (bind_ok _ _ _ _ _ (acquire_bcache s (rep_lock _ _ _ Hr)));
  rewrite !bind_assoc; unfold gets; unfold bind at 1; change (head_next (taken bcache s)) with (next_of s None);
  rewrite !bind_assoc, (bind_ok _ _ _ _ _ Hrun).

Lemma bread_miss (s : bst) d P n :
  rep s d P -> P !! n = None ->
  if decide (size P < NBUF)%nat then
    exists i s', bread ROOTDEV n s = Ok i s' /\ names s' i n /\
      rep s' d (<[n := mkPin 1 true (disk_block d n)]> P) /\ goes s s' [] None
  else bread ROOTDEV n s = Fault (Panic "bget: no buffers").
Proof.
  intros Hr HP. destruct (rep_order _ _ _ Hr) as (l & Hnd & Hall & Hs).
  pose proof (rep_all_used s d P Hr) as Hfull. pose proof (rep_size_max s d P Hr) as Hmax.
  assert (forall i, refcnt (bufs s !!! i) = 0 -> (size P < NBUF)%nat) as Hroom.
  { intros i Hz. destruct (decide (size P = NBUF)) as [He|]; [by destruct (proj2 Hfull He i)|lia]. }
  destruct (find_cached_run (S NBUF) None l ROOTDEV n s Hs (order_length l Hnd))
    as [[Hrun Hno]|(j & _ & Hdj & Hbj & Hrun)].
  - destruct (find_free_buf_run (S NBUF) l None s Hs (order_length l Hnd)) as [[Hrun2 Hu]|(i & _ & Hz & Hrun2)].
    + rewrite decide_False by (assert (size P = NBUF) by (apply Hfull; auto); lia). enter_bget s Hr Hrun.
      rewrite !bind_assoc. unfold bind at 1. rewrite !bind_assoc. by rewrite (bind_ok _ _ _ _ _ Hrun2).
    + rewrite decide_True by (by eapply Hroom). enter_bget s Hr Hrun.
      rewrite !bind_assoc. unfold bind at 1. rewrite !bind_assoc. rewrite (bind_ok _ _ _ _ _ Hrun2).
      do 4 (rewrite !bind_assoc, (bind_ok _ _ _ _ _ (bmod_taken _ _ _))). rewrite !bupd_bupd, !bind_assoc.
      match goal with |- context [taken bcache ?t] => set (s1 := t) end.
      rewrite (bind_ok _ _ _ _ _ (release_bcache s1 (rep_cpu _ _ _ Hr) (rep_lock _ _ _ Hr))), bind_assoc.
      exists i. apply (bread_tail s d P i n); try done.
      intros k _ Hdk Hbk. by apply (Hno k (Hall k)).
  - pose proof (bk_ref _ _ _ _ (rep_bufs _ _ _ Hr j)) as Hrc.
    assert (refcnt (bufs s !!! j) = 0) as Hz.
    { destruct (decide (refcnt (bufs s !!! j) = 0)); [done|]. exfalso.
      eapply find_none_other; [done..|]. split; [done|]. split; [done|lia]. }
    rewrite decide_True by (by eapply Hroom). enter_bget s Hr Hrun.
    rewrite !bind_assoc, (bind_ok _ _ _ _ _ (bmod_taken _ _ _)), !bind_assoc.
    match goal with |- context [taken bcache ?t] => set (s1 := t) end.
    rewrite (bind_ok _ _ _ _ _ (release_bcache s1 (rep_cpu _ _ _ Hr) (rep_lock _ _ _ Hr))), bind_assoc.
    exists j. apply (bread_tail s d P j n); try done.
    + intros k Hkj Hdk Hbk. apply Hkj. apply (rep_uniq _ _ _ Hr); congruence.
    + simpl. rewrite Hz. done.
    + simpl. intros Hv. rewrite <- Hbj. by apply (bk_idle _ _ _ _ (rep_bufs _ _ _ Hr j)).
Qed.

(** ** brelse *)

Definition link_next (b v : option bufid) (s : bst) : bst :=
  match b with None => with_head_next v s | Some i => bupd i (set_next v) s end.
Definition link_prev (b v : option bufid) (s : bst) : bst :=
  match b with None => with_head_prev v s | Some i => bupd i (set_prev v) s end.

Lemma next_link_next b v s z : next_of (link_next b v s) z = fupd (next_of s) b v z.
Proof.
  unfold fupd. destruct b as [i|], z as [j|]; simpl; try done.
  destruct (decide (i = j)) as [->|Hne].
  - by rewrite decide_True, vlookup_insert.
  - by rewrite decide_False, vlookup_insert_ne by congruence.
Qed.
Lemma prev_link_next b v s z : prev_of (link_next b v s) z = prev_of s z.
Proof.
  destruct b as [i|], z as [j|]; simpl; try done.
  destruct (decide (i = j)) as [->|Hne]; [by rewrite vlookup_insert|by rewrite vlookup_insert_ne].
Qed.
Lemma prev_link_prev b v s z : prev_of (link_prev b v s) z = fupd (prev_of s) b v z.
Proof.
  unfold fupd. destruct b as [i|], z as [j|]; simpl; try done.
  destruct (decide (i = j)) as [->|Hne].
  - by rewrite decide_True, vlookup_insert.
  - by rewrite decide_False, vlookup_insert_ne by congruence.
Qed.
Lemma next_link_prev b v s z : next_of (link_prev b v s) z = next_of s z.
Proof.
  destruct b as [i|], z as [j|]; simpl; try done.
  destruct (decide (i = j)) as [->|Hne]; [by rewrite vlookup_insert|by rewrite vlookup_insert_ne].
Qed.

(** States that differ in links only. *)
Record relinked (s s' : bst) : Prop := {
  rl_core : forall j, core (bufs s' !!! j) = core (bufs s !!! j);
  rl_rest : bcpu s' = bcpu s /\ bme s' = bme s /\ bpid s' = bpid s /\ bcache_lock s' = bcache_lock s /\
            disk s' = disk s /\ history s' = history s }.

Lemma relinked_trans s1 s2 s3 : relinked s1 s2 -> relinked s2 s3 -> relinked s1 s3.
Proof.
  intros [C1 (A1 & A2 & A3 & A4 & A5 & A6)] [C2 (B1 & B2 & B3 & B4 & B5 & B6)]. split.
  - intros j. by rewrite C2.
  - repeat split; congruence.
Qed.
Lemma relinked_next b v s : relinked s (link_next b v s).
Proof.
  split; [|by destruct b]. intros j. destruct b as [i|]; [|done]. simpl.
  destruct (decide (i = j)) as [->|Hne]; [by rewrite vlookup_insert|by rewrite vlookup_insert_ne].
Qed.
Lemma relinked_prev b v s : relinked s (link_prev b v s).
Proof.
  split; [|by destruct b]. intros j. destruct b as [i|]; [|done]. simpl.
  destruct (decide (i = j)) as [->|Hne]; [by rewrite vlookup_insert|by rewrite vlookup_insert_ne].
Qed.

Lemma fupd_ext {F} `{EqDecision F} (f g : option F -> option F) a b z :
  f z = g z -> fupd f a b z = fupd g a b z.
Proof. intros He. unfold fupd. by rewrite He. Qed.

(** Moving buffer [i] to the front of the list, as brelse does. *)
Definition unlinked (i : bufid) (s : bst) : bst :=
  link_next (prev_of s (Some i)) (next_of s (Some i)) (link_prev (next_of s (Some i)) (prev_of s (Some i)) s).
Definition fronted (i : bufid) (s : bst) : bst :=
  let s1 := link_prev (Some i) None (link_next (Some i) (next_of s None) s) in
  link_next None (Some i) (link_prev (next_of s1 None) (Some i) s1).
Definition moved_front (i : bufid) (s : bst) : bst := fronted i (unlinked i s).

Lemma relinked_moved i s : relinked s (moved_front i s).
Proof.
  unfold moved_front, fronted, unlinked.
  repeat (eapply relinked_trans; [|first [apply relinked_next|apply relinked_prev]]).
  by split.
Qed.

Lemma moved_ordered i s : ordered s -> ordered (moved_front i s).
Proof.
  intros (l & Hnd & Hall & Hs). pose proof (Hall i) as Hi. apply list_elem_of_split in Hi as (l1 & l2 & ->).
  exists (i :: l1 ++ l2).
  assert (l1 ++ i :: l2 ≡ₚ i :: l1 ++ l2) as Hp by (by rewrite Permutation_middle).
  assert (NoDup (i :: l1 ++ l2)) as Hnd' by (by rewrite <- Hp). split; [done|].
  split; [intros j; rewrite <- Hp; apply Hall|].
  pose proof (seg_unlink _ _ _ _ _ Hnd Hs) as Hu.
  assert (seg (next_of (unlinked i s)) (prev_of (unlinked i s)) None (l1 ++ l2) None) as Hu'.
  { eapply seg_frame; [| |exact Hu]; intros z _; unfold unlinked.
    - rewrite next_link_next. apply fupd_ext, next_link_prev.
    - by rewrite prev_link_next, prev_link_prev. }
  pose proof (seg_push _ _ _ _ Hnd' Hu') as Hf.
  eapply seg_frame; [| |exact Hf]; intros z _; unfold moved_front, fronted.
  - rewrite next_link_next. apply fupd_ext. by rewrite next_link_prev, next_link_prev, next_link_next.
  - rewrite prev_link_next, prev_link_prev, next_link_prev, next_link_next.
    rewrite (fupd_ne _ (Some i) _ None) by done. apply fupd_ext.
    rewrite prev_link_prev. apply fupd_ext, prev_link_next.
Qed.

Lemma links_taken (s : bst) b : next_of (taken bcache s) b = next_of s b /\ prev_of (taken bcache s) b = prev_of s b.
Proof. by destruct b. Qed.
Lemma set_next_taken b v (s : bst) : set_next_of b v (taken bcache s) = Ok tt (taken bcache (link_next b v s)).
Proof. by destruct b. Qed.
Lemma set_prev_taken b v (s : bst) : set_prev_of b v (taken bcache s) = Ok tt (taken bcache (link_prev b v s)).
Proof. by destruct b. Qed.

Lemma insert_head_taken i (s : bst) :
  insert_head i (taken bcache s) = Ok tt (taken bcache (fronted i s)).
Proof.
  unfold insert_head, gets. unfold bind at 1. change (head_next (taken bcache s)) with (next_of s None).
  rewrite (bind_ok _ _ _ _ _ (set_next_taken _ _ _)), (bind_ok _ _ _ _ _ (set_prev_taken _ _ _)).
  unfold bind at 1. set (s1 := link_prev (Some i) None _). change (head_next (taken bcache s1)) with (next_of s1 None).
  by rewrite (bind_ok _ _ _ _ _ (set_prev_taken _ _ _)), set_next_taken.
Qed.

(** brelse once the sleep lock is given up, on the state without it. *)
Lemma brelse_tail i (s : bst) :
  cpu_ok (bcpu s) -> is_free (bcache_lock s) ->
  (acquire bcache ;;
   bmod i (fun x => set_refcnt (u32 (refcnt x - 1)) x) ;;
   let! x := the_buf i in
   (if decide (refcnt x = 0) then
      set_prev_of (next x) (prev x) ;; set_next_of (prev x) (next x) ;; insert_head i
    else ret tt) ;;
   release bcache) s =
  Ok tt (let s1 := bupd i (fun x => set_refcnt (u32 (refcnt x - 1)) x) s in
         if decide (refcnt (bufs s1 !!! i) = 0) then moved_front i s1 else s1).
Proof.
  intros Hc Hf. rewrite (bind_ok _ _ _ _ _ (acquire_bcache s Hf)), (bind_ok _ _ _ _ _ (bmod_taken _ _ _)).
  set (s1 := bupd i _ s). rewrite (bind_ok _ _ _ _ _ (the_buf_taken _ _)). cbv zeta. case_decide.
  - change (next (bufs s1 !!! i)) with (next_of s1 (Some i)). change (prev (bufs s1 !!! i)) with (prev_of s1 (Some i)).
    rewrite !bind_assoc, (bind_ok _ _ _ _ _ (set_prev_taken _ _ _)).
    rewrite !bind_assoc, (bind_ok _ _ _ _ _ (set_next_taken _ _ _)).
    rewrite (bind_ok _ _ _ _ _ (insert_head_taken _ _)). fold (unlinked i s1). fold (moved_front i s1).
    destruct (rl_rest _ _ (relinked_moved i s1)) as (E1 & _ & _ & E4 & _).
    apply release_bcache; [by rewrite E1|by rewrite E4].
  - rewrite bind_ret. by apply release_bcache.
Qed.

Lemma rep_wake c (s : bst) d P : rep s d P -> rep (note_wakeup c s) d P.
Proof.
  intros [Hc Hl Ho Hd Hb Hp Hu]. by split.
Qed.

Lemma core_fields x y : core x = core y -> valid x = valid y /\ dev x = dev y /\ blockno x = blockno y /\
  bsleep x = bsleep y /\ refcnt x = refcnt y /\ data x = data y.
Proof. unfold core. by intros [= -> -> -> -> -> ->]. Qed.

(** The last reference may be given up when the contents are the disk's. *)
Lemma brelse_rep (s : bst) d P i n r c :
  rep s d P -> names s i n -> P !! n = Some (mkPin r true c) -> (r = 1 -> c = disk_block d n) ->
  exists s', brelse i s = Ok tt s' /\ rep s' d (unref n r c P) /\ goes s s' [] (Some n).
Proof.
  intros Hr Hn HP Hcl. destruct (rep_names s d P i n Hr Hn) as (h & Hh & Hl & Hv).
  unfold brelse. rewrite (bind_ok _ _ _ _ _ (holding_buf s d P i n r c Hr Hn HP)).
  rewrite HP in Hh. simplify_eq. pose proof (rep_bufs _ _ _ Hr i) as [B1 B2 _ _].
  pose proof Hn as (Hd & Hb & Hrc). set (r := refcnt (bufs s !!! i)) in *.
  assert (sl_rest (buf_lock i) s) as Hrest by (split; [apply Hr|exact B2]).
  rewrite (bind_ok _ _ _ _ _ (releasesleep_run (buf_lock i) s Hrest)).
  set (s0 := note_wakeup _ _).
  rewrite (brelse_tail i s0 (rep_cpu _ _ _ Hr) (rep_lock _ _ _ Hr)).
  set (s1 := bupd i _ s0). cbv zeta.
  assert (bufs s1 !!! i = set_refcnt (r - 1) (set_bsleep (sl_freed (bsleep (bufs s !!! i))) (bufs s !!! i))) as Hs1.
  { unfold s1. rewrite bufs_bupd. unfold s0. simpl. rewrite vlookup_insert. simpl. fold r.
    rewrite (uwrap_small 32) by lia. done. }
  assert (forall j, j <> i -> bufs s1 !!! j = bufs s !!! j) as Hs1j.
  { intros j Hj. unfold s1, s0. simpl. by rewrite !vlookup_insert_ne. }
  assert (ordered s1) as Ho1.
  { apply ordered_bupd; [done|done|]. apply (ordered_links (bupd i (set_bsleep (sl_freed (bsleep (bufs s !!! i)))) s));
      [by intros []|by intros []|]. apply ordered_bupd; [done|done|apply Hr]. }
  set (s2 := if decide (refcnt (bufs s1 !!! i) = 0) then moved_front i s1 else s1).
  assert (relinked s1 s2 /\ ordered s2) as [[Hcore (E1 & E2 & E3 & E4 & E5 & E6)] Ho2].
  { unfold s2. case_decide; [split; [apply relinked_moved|by apply moved_ordered]|by split]. }
  exists s2. split; [done|].
  pose proof (Hcore i) as Hci. rewrite Hs1 in Hci. unfold core in Hci. simpl in Hci.
  injection Hci as C1 C2 C3 C4 C5 C6.
  split.
  - apply (rep_one s s2 i n d d P); try done.
    + rewrite E1. apply Hr.
    + rewrite E4. apply Hr.
    + rewrite E5. apply Hr.
    + intros j Hj. by rewrite Hcore, Hs1j.
    + by rewrite C2.
    + by rewrite C3.
    + intros j Hj. by eapply names_other.
    + intros b Hbn. unfold unref. case_decide; [by rewrite lookup_delete_ne|by rewrite lookup_insert_ne].
    + intros p. rewrite C5. unfold unref. case_decide as Hone.
      * subst n. by rewrite lookup_delete_eq.
      * lia.
    + split; rewrite ?C1, ?C2, ?C3, ?C4, ?C5, ?C6; simpl; [lia|done| |].
      * intros Hpos. split; [done|]. split; [done|]. exists false. split; [|done].
        unfold unref. rewrite decide_False by lia. by rewrite Hb, lookup_insert_eq.
      * intros Hz. split; [done|]. intros _ _. rewrite Hb. apply Hcl. lia.
  - split; [by rewrite E6, app_nil_r|done|done|].
    intros j m Hm Hj. destruct (decide (j = i)) as [->|Hji].
    + destruct Hj as (_ & Hbm & _). congruence.
    + specialize (Hcore j). rewrite (Hs1j j Hji) in Hcore. destruct (core_fields _ _ Hcore) as (_ & R2 & R3 & _ & R1 & _).
      unfold names. by rewrite R1, R2, R3.
Qed.

(** ** binit *)

#[local] Opaque fin_enum.

(** The cache before main() runs, with a disk that holds [d]. *)
Definition zero_buf : buf :=
  mkBuf 0 0 0 (mkSleeplock (mkSpinlock 0 "" None) "" 0 0) 0 None None zero_blk.
Definition cold_cache (cpuid : nat) (pid : Z) (d : diskmap) : bst :=
  mkBst cpuid (mkCpu 0 false false) pid [] (mkSpinlock 0 "" None) (vreplicate NBUF zero_buf)
    None None d [].

Definition ready_lock : sleeplock := mkSleeplock (mkSpinlock 0 "sleep lock" None) "buffer" 0 0.

Lemma initsleeplock_run i (s : bst) :
  initsleeplock (buf_lock i) "buffer" s = Ok tt (bupd i (set_bsleep ready_lock) s).
Proof.
  unfold initsleeplock, initlock, sl_mod, modify, bind, sl_spin, buf_lock. simpl.
  rewrite !vlookup_insert. f_equal. rewrite !bupd_bupd. done.
Qed.

(** The invariant of the loop: the buffers done so far are linked, in reverse order. *)
Record binit_inv (d : diskmap) (pid : Z) (dn : list bufid) (s : bst) : Prop := {
  bi_seg : seg (next_of s) (prev_of s) None (rev dn) None;
  bi_nodup : NoDup (rev dn);
  bi_core : forall i, refcnt (bufs s !!! i) = 0 /\ dev (bufs s !!! i) = 0 /\ valid (bufs s !!! i) = 0 /\
    is_free (sl_lk (bsleep (bufs s !!! i))) /\ sl_locked (bsleep (bufs s !!! i)) = 0;
  bi_rest : bcpu s = mkCpu 0 false false /\ is_free (bcache_lock s) /\ disk s = d /\ history s = [] /\ bpid s = pid }.

Lemma binit_step d pid dn i s :
  i ∉ dn -> binit_inv d pid dn s ->
  exists s', (let! h := gets head_next in
    set_next_of (Some i) h ;; set_prev_of (Some i) None ;; initsleeplock (buf_lock i) "buffer" ;;
    let! h := gets head_next in set_prev_of h (Some i) ;; set_next_of None (Some i)) s = Ok tt s' /\
    binit_inv d pid (dn ++ [i]) s'.
Proof.
  intros Hi [Hs Hnd Hc Hr]. unfold gets. unfold bind at 1.
  rewrite (bind_ok _ _ _ tt (link_next (Some i) (next_of s None) s)) by done.
  rewrite (bind_ok _ _ _ tt (link_prev (Some i) None (link_next (Some i) (next_of s None) s))) by done.
  rewrite (bind_ok _ _ _ _ _ (initsleeplock_run i _)). set (s1 := link_prev (Some i) None _).
  set (s2 := bupd i (set_bsleep ready_lock) s1). unfold bind at 1.
  rewrite (bind_ok _ _ _ tt (link_prev (next_of s2 None) (Some i) s2)) by (simpl; by destruct (head_next s)).
  eexists. split; [done|]. change (with_head_next (Some i) ?t) with (link_next None (Some i) t).
  set (s3 := link_next None (Some i) _).
  assert (forall z, next_of s2 z = next_of s1 z /\ prev_of s2 z = prev_of s1 z) as H12.
  { intros [j|]; [|done]. unfold s2. simpl.
    destruct (decide (i = j)) as [->|Hne]; [by rewrite !vlookup_insert|by rewrite !vlookup_insert_ne]. }
  assert (NoDup (i :: rev dn)) as Hnd'.
  { apply NoDup_cons. split; [|done]. by rewrite list_elem_of_In, <- in_rev, <- list_elem_of_In. }
  assert (relinked s2 s3) as [Hcore _].
  { unfold s3. eapply relinked_trans; [apply relinked_prev|apply relinked_next]. }
  assert (relinked s s1) as [Hcore1 _].
  { unfold s1. eapply relinked_trans; [apply relinked_next|apply relinked_prev]. }
  split.
  - rewrite rev_app_distr. cbn [rev app]. eapply seg_frame; [| |exact (seg_push _ _ _ _ Hnd' Hs)]; intros z _; unfold s3.
    + rewrite next_link_next. apply fupd_ext. rewrite next_link_prev, (proj1 (H12 z)). unfold s1.
      by rewrite next_link_prev, next_link_next.
    + rewrite prev_link_next, prev_link_prev, (proj1 (H12 None)). unfold s1 at 1.
      rewrite next_link_prev, next_link_next, (fupd_ne _ (Some i) _ None) by done. apply fupd_ext.
      rewrite (proj2 (H12 z)). unfold s1. rewrite prev_link_prev. apply fupd_ext, prev_link_next.
  - by rewrite rev_app_distr.
  - intros j. specialize (Hcore j). specialize (Hcore1 j). specialize (Hc j).
    apply core_fields in Hcore as (D1 & D2 & D3 & D4 & D5 & D6).
    apply core_fields in Hcore1 as (F1 & F2 & F3 & F4 & F5 & F6).
    rewrite D1, D2, D4, D5. unfold s2. destruct (decide (i = j)) as [->|Hne].
    + rewrite bufs_bupd. cbn [valid dev refcnt bsleep set_bsleep]. rewrite F1, F2, F5. by destruct Hc as (-> & -> & -> & _).
    + rewrite bufs_bupd_ne by done. by rewrite F1, F2, F4, F5.
  - unfold s3, s2, s1. by destruct (next_of _ None).
Qed.

Lemma binit_inv_rep d pid dn s : (forall i, i ∈ dn) -> binit_inv d pid dn s -> rep s d ∅.
Proof.
  intros Hall [Hs Hnd Hc (R1 & R2 & R3 & R4 & R5)]. split; try done.
  - rewrite R1. by left.
  - exists (rev dn). split; [done|]. split; [|done]. intros i.
    by rewrite list_elem_of_In, <- in_rev, <- list_elem_of_In.
  - intros i. destruct (Hc i) as (C1 & C2 & C3 & C4 & C5). split; [lia|done|lia|].
    intros _. split; [done|]. by rewrite C2.
  - intros i j Hi. destruct (Hc i) as (_ & C2 & _). by rewrite C2 in Hi.
Qed.

Lemma binit_rep c pid d : exists s, binit (cold_cache c pid d) = Ok tt s /\ rep s d ∅ /\ history s = [] /\
  bcpu s = mkCpu 0 false false.
Proof.
  unfold binit. set (s0 := cold_cache c pid d).
  unfold initlock at 1, set_prev_of at 1, set_next_of at 1, modify. do 3 unfold bind at 1.
  match goal with |- context [for_each _ ?b ?t] => set (body := b); set (s1 := t) end.
  destruct (for_each_inv (binit_inv d pid) body (fin_enum NBUF) s1) as (s & Hrun & Hi).
  - split; [done|constructor| |done]. intros i.
    change (bufs s1) with (vreplicate NBUF zero_buf). rewrite vlookup_replicate. done.
  - intros dn i rest t Hl Ht. apply binit_step; [|done]. pose proof all_bufs_nodup as Hnd. rewrite Hl in Hnd.
    apply NoDup_app in Hnd as (_ & Hd & _). intros Hin. apply (Hd i Hin). left.
  - exists s. split; [exact Hrun|]. split; [exact (binit_inv_rep d pid (fin_enum NBUF) s all_bufs Hi)|].
    split; apply (bi_rest _ _ _ _ Hi).
Qed.

(** ** The interface is implemented *)

Lemma rep_set_cpu c (s : bst) d P : rep s d P -> cpu_ok c -> rep (set_cpu c s) d P.
Proof. intros [Hc Hl Ho Hd Hb Hp Hu] Hok. by split. Qed.

#[export] Instance bio_cache : BufCache bst bufid := {
  c_bread := bread; c_bwrite := bwrite; c_brelse := brelse; c_bpin := bpin; c_bunpin := bunpin;
  c_data := fun i s => data (bufs s !!! i);
  c_set_data := fun i c => bmod i (set_data c);
  c_blockno := fun i s => blockno (bufs s !!! i);
  c_history := history; crep := rep; cnames := names }.

Lemma goes_cgoes s s' ds n : goes s s' ds n -> cgoes s s' ds n.
Proof. by intros []. Qed.

#[export] Instance bio_cache_laws : BufCacheLaws bst bufid.
Proof.
  split; simpl.
  - apply _.
  - intros s d P Hr. apply Hr.
  - intros s d P c. apply rep_set_cpu.
  - done.
  - done.
  - intros s d P i n Hr Hn. destruct (rep_names s d P i n Hr Hn) as (h & Hh & _).
    pose proof (bk_ref _ _ _ _ (rep_bufs _ _ _ Hr i)). destruct Hn as (_ & Hb & Hrc).
    exists (refcnt (bufs s !!! i)), h. split; [lia|done].
  - intros s d P n r c Hr HP Hlt. destruct (bread_hit s d P n r c Hr HP Hlt) as (i & s' & ? & ? & ? & ?).
    exists i, s'. auto using goes_cgoes.
  - intros s d P n Hr HP. pose proof (bread_miss s d P n Hr HP) as Hb.
    case_decide; [|done]. destruct Hb as (i & s' & ? & ? & ? & ?). exists i, s'. auto using goes_cgoes.
  - intros s d P i n r c c' Hr Hn HP. destruct (set_data_rep s d P i n r c c' Hr Hn HP).
    eexists. split; [done|]. auto using goes_cgoes.
  - intros s d P i n r c Hr Hn HP. destruct (bwrite_rep s d P i n r c Hr Hn HP) as (s' & ? & ? & ?).
    exists s'. auto using goes_cgoes.
  - intros s d P i n r c Hr Hn HP Hcl. destruct (brelse_rep s d P i n r c Hr Hn HP Hcl) as (s' & ? & ? & ?).
    exists s'. auto using goes_cgoes.
  - intros s d P i n r h c Hr Hn HP H0 H1. destruct (bpin_rep s d P i n r h c Hr Hn HP H0 H1) as (s' & ? & ? & ?).
    exists s'. auto using goes_cgoes.
  - intros s d P i n r h c Hr Hn HP H0. destruct (bunpin_rep s d P i n r h c Hr Hn HP H0) as (s' & ? & ? & ?).
    exists s'. auto using goes_cgoes.
Qed.


