(* ===== verification/Log.v ===== *)
(** * kernel/log.c: the write-ahead log

    The log's own state beside a buffer cache [S] that implements [BufCache].  The
    routines that may sleep end [Blocked] on the log's channel and are entered again
    when woken. *)

From Stdlib Require Import ZArith Lia.
From stdpp Require Import base numbers list gmap strings.
From S2P Require Import Prelude Spinlock BlockCache.
Open Scope Z_scope.

Definition MAXOPBLOCKS : Z := 10.
Definition LOGBLOCKS : Z := MAXOPBLOCKS * 3.
Definition BSIZE : Z := 1024.

Record lst (S : Type) : Type := mkLst {
  log_lock : spinlock; log_start : Z; log_outstanding : Z; log_committing : Z; log_dev : Z;
  lh_n : Z; lh_block : list Z;          (* log.lh *)
  lwoken : list Z;                      (* channels passed to wakeup *)
  cache : S }.
Arguments mkLst {S}. Arguments log_lock {S}. Arguments log_start {S}. Arguments log_outstanding {S}.
Arguments log_committing {S}. Arguments log_dev {S}. Arguments lh_n {S}. Arguments lh_block {S}.
Arguments lwoken {S}. Arguments cache {S}.

Definition log_chan : Z := 5000.

Section Log.
Context {S B : Type} `{BufCache S B}.
Notation L := (lst S).

Definition with_cache (c : S) (s : L) : L :=
  mkLst (log_lock s) (log_start s) (log_outstanding s) (log_committing s) (log_dev s)
    (lh_n s) (lh_block s) (lwoken s) c.
Definition with_log_lock v (s : L) : L :=
  mkLst v (log_start s) (log_outstanding s) (log_committing s) (log_dev s)
    (lh_n s) (lh_block s) (lwoken s) (cache s).
Definition with_start v (s : L) : L :=
  mkLst (log_lock s) v (log_outstanding s) (log_committing s) (log_dev s)
    (lh_n s) (lh_block s) (lwoken s) (cache s).
Definition with_outstanding v (s : L) : L :=
  mkLst (log_lock s) (log_start s) v (log_committing s) (log_dev s)
    (lh_n s) (lh_block s) (lwoken s) (cache s).
Definition with_committing v (s : L) : L :=
  mkLst (log_lock s) (log_start s) (log_outstanding s) v (log_dev s)
    (lh_n s) (lh_block s) (lwoken s) (cache s).
Definition with_dev v (s : L) : L :=
  mkLst (log_lock s) (log_start s) (log_outstanding s) (log_committing s) v
    (lh_n s) (lh_block s) (lwoken s) (cache s).
Definition with_n v (s : L) : L :=
  mkLst (log_lock s) (log_start s) (log_outstanding s) (log_committing s) (log_dev s)
    v (lh_block s) (lwoken s) (cache s).
Definition with_block v (s : L) : L :=
  mkLst (log_lock s) (log_start s) (log_outstanding s) (log_committing s) (log_dev s)
    (lh_n s) v (lwoken s) (cache s).
Definition wakeup_log (s : L) : L :=
  mkLst (log_lock s) (log_start s) (log_outstanding s) (log_committing s) (log_dev s)
    (lh_n s) (lh_block s) (lwoken s ++ [log_chan]) (cache s).

#[global] Instance lst_cpu : OnCpu L := {
  me := fun s => me (cache s);
  get_cpu := fun s => get_cpu (cache s);
  set_cpu := fun c s => with_cache (set_cpu c (cache s)) s }.

Definition the_log_lock : lockref L := mkLockref log_lock with_log_lock.

(** A call of the buffer cache. *)
Definition in_cache {A} (m : M S A) : M L A := fun s =>
  match m (cache s) with
  | Ok a c => Ok a (with_cache c s)
  | Blocked ch c => Blocked ch (with_cache c s)
  | Fault f => Fault f
  end.
Definition bread (d n : Z) : M L B := in_cache (c_bread d n).
Definition bwrite (b : B) : M L unit := in_cache (c_bwrite b).
Definition brelse (b : B) : M L unit := in_cache (c_brelse b).
Definition bpin (b : B) : M L unit := in_cache (c_bpin b).
Definition bunpin (b : B) : M L unit := in_cache (c_bunpin b).
Definition buf_data (b : B) : M L blk := gets (fun s => c_data b (cache s)).
Definition set_buf_data (b : B) (c : blk) : M L unit := in_cache (c_set_data b c).

(** The header in a block: the word 0 is n, the word 1 + i is block[i]. *)
Definition word (c : blk) (i : Z) : Z := i32 (default 0 (arr_get c i)).
Definition put_word (c : blk) (i v : Z) : blk := <[Z.to_nat i := u32 v]> c.

(** log.lh.block[i], read and assigned. *)
Definition block_at (i : Z) : M L Z :=
  let! bs := gets lh_block in from_option "lh.block" (arr_get bs i).
Definition set_block_at (i v : Z) : M L unit :=
  let! bs := gets lh_block in
  let! bs' := from_option "lh.block" (arr_set bs i v) in
  modify (with_block bs').

(** The loop bodies of install_trans and write_log have names of their own.  The line
    printed while recovering is console output. *)
Definition install_one (recovering : bool) (tail : Z) : M L unit :=
  let! dev := gets log_dev in
  let! start := gets log_start in
  let! lbuf := bread dev (start + tail + 1) in
  let! b := block_at tail in
  let! dbuf := bread dev b in
  let! x := buf_data lbuf in
  set_buf_data dbuf x ;;
  bwrite dbuf ;;
  (if recovering then ret tt else bunpin dbuf) ;;
  brelse lbuf ;;
  brelse dbuf.

Definition install_trans (recovering : bool) : M L unit :=
  let! n := gets lh_n in
  for_each (zrange 0 n) (install_one recovering).

Definition read_head : M L unit :=
  let! dev := gets log_dev in
  let! start := gets log_start in
  let! buf := bread dev start in
  let! c := buf_data buf in
  modify (with_n (word c 0)) ;;
  for_each (zrange 0 (word c 0)) (fun i => set_block_at i (word c (1 + i))) ;;
  brelse buf.

Definition write_head : M L unit :=
  let! dev := gets log_dev in
  let! start := gets log_start in
  let! buf := bread dev start in
  let! n := gets lh_n in
  let! c := buf_data buf in
  set_buf_data buf (put_word c 0 n) ;;
  for_each (zrange 0 n) (fun i =>
    let! b := block_at i in
    let! c := buf_data buf in
    set_buf_data buf (put_word c (1 + i) b)) ;;
  bwrite buf ;;
  brelse buf.

Definition recover_from_log : M L unit :=
  read_head ;;
  install_trans true ;;
  modify (with_n 0) ;;
  write_head.

Definition initlog (dev logstart : Z) : M L unit :=
  if decide (4 * (1 + LOGBLOCKS) >= BSIZE) then panic "initlog: too big logheader"
  else
    initlock the_log_lock "log" ;;
    modify (with_start logstart) ;;
    modify (with_dev dev) ;;
    recover_from_log.

(** sleep(&log, &log.lock) gives up the lock; begin_op starts again when woken. *)
Definition begin_op : M L unit :=
  acquire the_log_lock ;;
  let! committing := gets log_committing in
  if decide (committing <> 0) then release the_log_lock ;; block log_chan
  else
    let! n := gets lh_n in
    let! outstanding := gets log_outstanding in
    if decide (n + (outstanding + 1) * MAXOPBLOCKS > LOGBLOCKS)
    then release the_log_lock ;; block log_chan
    else
      modify (with_outstanding (outstanding + 1)) ;;
      release the_log_lock.

Definition log_one (tail : Z) : M L unit :=
  let! dev := gets log_dev in
  let! start := gets log_start in
  let! to := bread dev (start + tail + 1) in
  let! b := block_at tail in
  let! from := bread dev b in
  let! x := buf_data from in
  set_buf_data to x ;;
  bwrite to ;;
  brelse from ;;
  brelse to.

Definition write_log : M L unit :=
  let! n := gets lh_n in
  for_each (zrange 0 n) log_one.

Definition commit : M L unit :=
  let! n := gets lh_n in
  if decide (n > 0) then
    write_log ;;
    write_head ;;
    install_trans false ;;
    modify (with_n 0) ;;
    write_head
  else ret tt.

Definition end_op : M L unit :=
  acquire the_log_lock ;;
  let! o := gets log_outstanding in
  modify (with_outstanding (o - 1)) ;;
  let! committing := gets log_committing in
  if decide (committing <> 0) then panic "log.committing"
  else
    let do_commit := decide (o - 1 = 0) in
    (if do_commit then modify (with_committing 1) else modify wakeup_log) ;;
    release the_log_lock ;;
    if do_commit then
      commit ;;
      acquire the_log_lock ;;
      modify (with_committing 0) ;;
      modify wakeup_log ;;
      release the_log_lock
    else ret tt.

Definition log_write (b : B) : M L unit :=
  acquire the_log_lock ;;
  let! n := gets lh_n in
  if decide (n >= LOGBLOCKS) then panic "too big a transaction"
  else
    let! o := gets log_outstanding in
    if decide (o < 1) then panic "log_write outside of trans"
    else
      let! blockno := gets (fun s => c_blockno b (cache s)) in
      let! bs := gets lh_block in
      let! i := for_until (zrange 0 n) (fun i =>
        if decide (arr_get bs i = Some blockno) then ret (Some i) else ret None) in
      let i := default n i in
      set_block_at i blockno ;;
      (if decide (i = n) then bpin b ;; modify (with_n (n + 1)) else ret tt) ;;
      release the_log_lock.
End Log.
