(* ===== verification/LogSpec.v ===== *)
(** * Executing log.c against the interface of the buffer cache

    Every routine of the log leaves the log's own fields alone while it works on the
    cache, so its states are written [with_cache c s].  The disks it passes through are
    described block by block. *)

From Stdlib Require Import ZArith Lia.
From stdpp Require Import base numbers list gmap strings.
From S2P Require Import Prelude Spinlock BlockCache Log.
Open Scope Z_scope.

(** ** Sequences of disk writes *)

Definition put_block (d : diskmap) (kx : Z * blk) : diskmap := <[kx.1 := kx.2]> d.
Definition puts (kxs : list (Z * blk)) (d : diskmap) : diskmap := foldl put_block d kxs.

(** The disks passed through. *)
Fixpoint trail (d : diskmap) (kxs : list (Z * blk)) : list diskmap :=
  match kxs with
  | [] => []
  | kx :: rest => put_block d kx :: trail (put_block d kx) rest
  end.

(** Consecutive blocks from [k] on. *)
Fixpoint region (k : Z) (xs : list blk) : list (Z * blk) :=
  match xs with [] => [] | x :: rest => (k, x) :: region (k + 1) rest end.

Lemma disk_block_insert d k x b : disk_block (<[k := x]> d) b = if decide (k = b) then x else disk_block d b.
Proof.
  unfold disk_block. case_decide; subst; [by rewrite lookup_insert_eq|by rewrite lookup_insert_ne].
Qed.

Lemma puts_other kxs d b : b ∉ kxs.*1 -> disk_block (puts kxs d) b = disk_block d b.
Proof.
  revert d. induction kxs as [|[k x] kxs IH]; intros d; [done|]. simpl. rewrite not_elem_of_cons.
  intros [Hk Hin]. unfold puts in *. simpl. rewrite IH by done. unfold put_block. simpl.
  rewrite disk_block_insert. by rewrite decide_False.
Qed.

Lemma puts_last k x kxs d : k ∉ kxs.*1 -> disk_block (puts kxs (<[k := x]> d)) k = x.
Proof. intros Hk. rewrite puts_other by done. rewrite disk_block_insert. by rewrite decide_True. Qed.

(** A disk on the trail is reached by a prefix of the writes. *)
Lemma elem_of_trail d kxs e : e ∈ trail d kxs -> exists pre post, kxs = pre ++ post /\ e = puts pre d.
Proof.
  revert d. induction kxs as [|kx kxs IH]; intros d; simpl; [by intros ?%not_elem_of_nil|].
  intros [->|He]%elem_of_cons.
  - by exists [kx], kxs.
  - destruct (IH _ He) as (pre & post & -> & ->). by exists (kx :: pre), post.
Qed.

Lemma region_keys k xs b : b ∈ (region k xs).*1 <-> k <= b < k + Z.of_nat (length xs).
Proof.
  revert k. induction xs as [|x xs IH]; intros k; simpl.
  - split; [by intros ?%not_elem_of_nil|lia].
  - rewrite elem_of_cons, IH. lia.
Qed.

Lemma region_lookup k xs d i x :
  xs !! i = Some x -> disk_block (puts (region k xs) d) (k + Z.of_nat i) = x.
Proof.
  revert k d i. induction xs as [|y xs IH]; intros k d [|i] Hx; simplify_eq/=.
  - replace (k + Z.of_nat 0) with k by lia. apply puts_last. rewrite region_keys. lia.
  - unfold puts in *. simpl. replace (k + Z.of_nat (S i)) with (k + 1 + Z.of_nat i) by lia. by apply IH.
Qed.

(** ** The header block *)

Fixpoint put_words (x : blk) (i : Z) (vs : list Z) : blk :=
  match vs with [] => x | v :: rest => put_words (put_word x i v) (i + 1) rest end.
Definition header (x : blk) (hs : list Z) : blk := put_words (put_word x 0 (Z.of_nat (length hs))) 1 hs.
Definition homes (x : blk) : list Z := (fun i => word x (1 + i)) <$> zrange 0 (word x 0).

Lemma word_put x i v j :
  0 <= i < Z.of_nat (length x) -> in_int v ->
  word (put_word x i v) j = if decide (i = j) then v else word x j.
Proof.
  intros Hi Hv. unfold word, put_word.
  rewrite (arr_get_set x _ i j (u32 v)) by by apply arr_set_Some.
  case_decide; [|done]. simpl. by apply i32_u32.
Qed.

Lemma put_words_length x i vs : length (put_words x i vs) = length x.
Proof. revert x i. induction vs as [|v vs IH]; intros x i; [done|]. simpl. rewrite IH. apply length_insert. Qed.

Lemma put_words_other x i vs j :
  0 <= i -> i + Z.of_nat (length vs) <= Z.of_nat (length x) -> Forall in_int vs -> j < i ->
  word (put_words x i vs) j = word x j.
Proof.
  revert x i. induction vs as [|v vs IH]; intros x i Hi Hl Hv Hj; [done|]. simpl in *.
  apply Forall_cons in Hv as [Hv Hvs].
  rewrite IH; [|lia|unfold put_word; rewrite length_insert; lia|done|lia].
  rewrite word_put by first [done | lia]. by rewrite decide_False by lia.
Qed.

Lemma put_words_at x i vs k v :
  0 <= i -> i + Z.of_nat (length vs) <= Z.of_nat (length x) -> Forall in_int vs -> vs !! k = Some v ->
  word (put_words x i vs) (i + Z.of_nat k) = v.
Proof.
  revert x i k. induction vs as [|w vs IH]; intros x i [|k] Hi Hl Hv Hk; simplify_eq/=;
    apply Forall_cons in Hv as [Hv Hvs].
  - rewrite put_words_other; [|lia|unfold put_word; rewrite length_insert; lia|done|lia].
    rewrite word_put by first [done | lia]. by rewrite decide_True by lia.
  - replace (i + Z.of_nat (S k)) with (i + 1 + Z.of_nat k) by lia.
    apply IH; [lia|unfold put_word; rewrite length_insert; lia|done|done].
Qed.

Lemma header_n x hs :
  length x = BWORDS -> Z.of_nat (length hs) <= LOGBLOCKS -> Forall in_int hs ->
  word (header x hs) 0 = Z.of_nat (length hs).
Proof.
  intros Hx Hl Hi. unfold header, LOGBLOCKS, MAXOPBLOCKS, BWORDS in *.
  rewrite put_words_other; [|lia|unfold put_word; rewrite length_insert; lia|done|lia].
  rewrite word_put; [by rewrite decide_True|lia|]. unfold in_int, INT_MIN, INT_MAX. lia.
Qed.

(** What is written in the header is what is read back. *)
Lemma homes_header x hs :
  length x = BWORDS -> Z.of_nat (length hs) <= LOGBLOCKS -> Forall in_int hs -> homes (header x hs) = hs.
Proof.
  intros Hx Hl Hi. unfold homes. rewrite header_n by done. apply list_eq. intros i.
  rewrite list_lookup_fmap. unfold zrange, LOGBLOCKS, MAXOPBLOCKS, BWORDS in *.
  destruct (hs !! i) as [h|] eqn:Eh.
  - rewrite lookup_seqZ_lt by (apply lookup_lt_Some in Eh; lia). simpl. f_equal. unfold header.
    apply put_words_at; [lia|unfold put_word; rewrite length_insert; lia|done|done].
  - apply lookup_ge_None in Eh. by rewrite lookup_seqZ_ge by lia.
Qed.

Section Spec.
Context {S B : Type} `{BufCacheLaws S B}.
Notation L := (lst S).
Implicit Types (c : S) (d : diskmap) (P : pins) (s : L).

Lemma in_cache_ok {A} (m : M S A) c c' s a :
  m c = Ok a c' -> in_cache m (with_cache c s) = Ok a (with_cache c' s).
Proof. intros Hm. unfold in_cache. simpl. rewrite Hm. done. Qed.

(** The disks written between two caches, and the CPU kept. *)
Record moved c c' (ds : list diskmap) : Prop := {
  mv_history : c_history c' = c_history c ++ ds;
  mv_cpu : get_cpu c' = get_cpu c }.

Lemma moved_trans c1 c2 c3 ds es : moved c1 c2 ds -> moved c2 c3 es -> moved c1 c3 (ds ++ es).
Proof. intros [Ha Hb] [Hc Hd]. split; [by rewrite Hc, Ha, app_assoc|congruence]. Qed.
Lemma goes_moved c c' ds n : cgoes (B := B) c c' ds n -> moved c c' ds.
Proof. by intros []. Qed.
Lemma moved_refl c : moved c c [].
Proof. split; [by rewrite app_nil_r|done]. Qed.

(** ** Steps on one buffer, in the log's state *)

Lemma bread_hit_l c d P s n r x :
  crep c d P -> P !! n = Some (mkPin r false x) -> r + 1 < 2 ^ 32 ->
  exists i c', bread the_dev n (with_cache c s) = Ok i (with_cache c' s) /\ cnames c' i n /\
    crep c' d (<[n := mkPin (r + 1) true x]> P) /\ cgoes c c' [] None.
Proof.
  intros Hr HP Hlt. destruct (c_bread_hit c d P n r x Hr HP Hlt) as (i & c' & Hrun & ?).
  exists i, c'. split; [by apply in_cache_ok|done].
Qed.

Lemma bread_miss_l c d P s n :
  crep c d P -> P !! n = None -> (size P < NBUF)%nat ->
  exists i c', bread the_dev n (with_cache c s) = Ok i (with_cache c' s) /\ cnames c' i n /\
    crep c' d (<[n := mkPin 1 true (disk_block d n)]> P) /\ cgoes c c' [] None.
Proof.
  intros Hr HP Hlt. pose proof (c_bread_miss c d P n Hr HP) as Hb. rewrite decide_True in Hb by done.
  destruct Hb as (i & c' & Hrun & ?). exists i, c'. split; [by apply in_cache_ok|done].
Qed.

Lemma set_data_l c d P s i n r x x' :
  crep c d P -> cnames c i n -> P !! n = Some (mkPin r true x) ->
  exists c', set_buf_data i x' (with_cache c s) = Ok tt (with_cache c' s) /\
    crep c' d (<[n := mkPin r true x']> P) /\ cgoes (B := B) c c' [] None.
Proof.
  intros Hr Hn HP. destruct (c_set_data_ok c d P i n r x x' Hr Hn HP) as (c' & Hrun & ?).
  exists c'. split; [by apply in_cache_ok|done].
Qed.

Lemma bwrite_l c d P s i n r x :
  crep c d P -> cnames c i n -> P !! n = Some (mkPin r true x) ->
  exists c', bwrite i (with_cache c s) = Ok tt (with_cache c' s) /\
    crep c' (<[n := x]> d) P /\ cgoes (B := B) c c' [<[n := x]> d] None.
Proof.
  intros Hr Hn HP. destruct (c_bwrite_ok c d P i n r x Hr Hn HP) as (c' & Hrun & ?).
  exists c'. split; [by apply in_cache_ok|done].
Qed.

Lemma brelse_l c d P s i n r x :
  crep c d P -> cnames c i n -> P !! n = Some (mkPin r true x) -> (r = 1 -> x = disk_block d n) ->
  exists c', brelse i (with_cache c s) = Ok tt (with_cache c' s) /\
    crep c' d (unref n r x P) /\ cgoes (B := B) c c' [] (Some n).
Proof.
  intros Hr Hn HP Hcl. destruct (c_brelse_ok c d P i n r x Hr Hn HP Hcl) as (c' & Hrun & ?).
  exists c'. split; [by apply in_cache_ok|done].
Qed.

Lemma bunpin_l c d P s i n r h x :
  crep c d P -> cnames c i n -> P !! n = Some (mkPin r h x) -> 1 < r < 2 ^ 32 ->
  exists c', bunpin i (with_cache c s) = Ok tt (with_cache c' s) /\
    crep c' d (<[n := mkPin (r - 1) h x]> P) /\ cgoes (B := B) c c' [] None.
Proof.
  intros Hr Hn HP Hlt. destruct (c_bunpin_ok c d P i n r h x Hr Hn HP Hlt) as (c' & Hrun & ?).
  exists c'. split; [by apply in_cache_ok|done].
Qed.

Lemma buf_data_l c d P s i n r h x :
  crep c d P -> cnames c i n -> P !! n = Some (mkPin r h x) ->
  buf_data i (with_cache c s) = Ok x (with_cache c s).
Proof.
  intros Hr Hn HP. destruct (c_names_pin c d P i n Hr Hn) as (r' & h' & _ & HP' & _).
  unfold buf_data, gets. simpl. congruence.
Qed.

Lemma block_at_l s c bs i h :
  lh_block s = bs -> arr_get bs i = Some h -> block_at i (with_cache c s) = Ok h (with_cache c s).
Proof. intros Hbs Hb. unfold block_at, gets, bind. simpl. by rewrite Hbs, Hb. Qed.

(** Lookups in a map changed at a few keys. *)
Ltac pins_lookup := repeat first
  [ rewrite lookup_insert_eq | rewrite lookup_insert_ne by (done || lia || congruence)
  | rewrite lookup_delete_eq | rewrite lookup_delete_ne by (done || lia || congruence) ].

(** After a step of the cache: the run is used up, the names of the blocks are carried
    to the new cache, and the disks written so far are gathered in one [moved]. *)
Ltac stepped Hrun Hg :=
  try rewrite (bind_ok _ _ _ _ _ Hrun); try clear Hrun;
  lazymatch type of Hg with cgoes ?c ?c' ?ds _ =>
    repeat match goal with Hn : cnames c ?i ?n |- _ =>
      apply (cg_names _ _ _ _ Hg i n ltac:(congruence)) in Hn end;
    apply goes_moved in Hg;
    try match goal with Hm : moved ?c0 c ?es |- _ =>
      let Hm' := fresh in pose proof (moved_trans _ _ _ _ _ Hm Hg) as Hm'; clear Hm Hg; rename Hm' into Hg end
  end.

(** ** One block copied to the log *)

Lemma log_one_run c d P s start tail k home r x bs :
  log_dev s = the_dev -> log_start s = start -> lh_block s = bs -> arr_get bs tail = Some home ->
  k = start + tail + 1 ->
  crep c d P -> P !! k = None -> (size P < NBUF)%nat -> k <> home ->
  P !! home = Some (mkPin r false x) -> 0 < r -> r + 1 < 2 ^ 32 ->
  exists c', log_one tail (with_cache c s) = Ok tt (with_cache c' s) /\
    crep c' (<[k := x]> d) P /\ moved c c' [<[k := x]> d].
Proof.
  intros Hdev Hst Hbs Hb -> Hr Hk Hsz Hne Hh Hr0 Hr1. set (k := start + tail + 1) in *.
  unfold log_one.
  unfold gets at 1, bind at 1. simpl. rewrite Hdev. unfold gets at 1, bind at 1. simpl. rewrite Hst.
  destruct (bread_miss_l c d P s k Hr Hk Hsz) as (to & c1 & Hrun & Hn & Hc1 & Hg1). fold k.
  stepped Hrun Hg1.
  rewrite (bind_ok _ _ _ _ _ (block_at_l s c1 bs tail home Hbs Hb)).
  destruct (bread_hit_l c1 d _ s home r x Hc1) as (from & c2 & Hrun & Hf & Hr2 & Hg2); [by pins_lookup|done|].
  stepped Hrun Hg2.
  rewrite (bind_ok _ _ _ _ _ (buf_data_l c2 d _ s from home (r + 1) true x Hr2 Hf ltac:(by pins_lookup))).
  destruct (set_data_l c2 d _ s to k 1 (disk_block d k) x Hr2 Hn) as (c3 & Hrun & Hr3 & Hg3); [by pins_lookup|].
  stepped Hrun Hg3.
  destruct (bwrite_l c3 d _ s to k 1 x Hr3 Hn) as (c4 & Hrun & Hr4 & Hg4); [by pins_lookup|].
  stepped Hrun Hg4.
  destruct (brelse_l c4 _ _ s from home (r + 1) x Hr4 Hf) as (c5 & Hrun & Hr5 & Hg5); [by pins_lookup|lia|].
  stepped Hrun Hg5. unfold unref in Hr5. rewrite decide_False in Hr5 by lia.
  destruct (brelse_l c5 _ _ s to k 1 x Hr5 Hn) as (c6 & Hrun & Hr6 & Hg6); [by pins_lookup| |].
  { intros _. unfold disk_block. by rewrite lookup_insert_eq. }
  exists c6. split; [exact Hrun|]. stepped Hrun Hg6. split.
  - unfold unref in Hr6. rewrite decide_True in Hr6 by done.
    match type of Hr6 with crep _ _ ?Q => replace P with Q; [exact Hr6|] end.
    apply map_eq. intros j. destruct (decide (j = k)) as [->|Hjk]; [by pins_lookup|].
    destruct (decide (j = home)) as [->|Hjh]; pins_lookup; [|done]. rewrite Hh. do 2 f_equal. lia.
  - done.
Qed.

(** ** Loops over the entries of the log *)

(** [hs] stands in the array [bs] from [tail] on; [xs] on the disk from block [k] on. *)
Definition slots (bs : list Z) (tail : Z) (hs : list Z) : Prop :=
  forall i h, hs !! i = Some h -> arr_get bs (tail + Z.of_nat i) = Some h.
Definition on_disk d (k : Z) (xs : list blk) : Prop :=
  forall i x, xs !! i = Some x -> disk_block d (k + Z.of_nat i) = x.

Lemma slots_cons bs tail h hs : slots bs tail (h :: hs) -> arr_get bs tail = Some h /\ slots bs (tail + 1) hs.
Proof.
  intros Hs. split.
  - specialize (Hs 0%nat h eq_refl). by replace (tail + Z.of_nat 0) with tail in Hs by lia.
  - intros i h' Hi. specialize (Hs (Datatypes.S i) h' Hi).
    by replace (tail + 1 + Z.of_nat i) with (tail + Z.of_nat (Datatypes.S i)) by lia.
Qed.

Lemma on_disk_cons d k x xs : on_disk d k (x :: xs) -> disk_block d k = x /\ on_disk d (k + 1) xs.
Proof.
  intros Hs. split.
  - specialize (Hs 0%nat x eq_refl). by replace (k + Z.of_nat 0) with k in Hs by lia.
  - intros i y Hy. specialize (Hs (Datatypes.S i) y Hy).
    by replace (k + 1 + Z.of_nat i) with (k + Z.of_nat (Datatypes.S i)) by lia.
Qed.

Lemma on_disk_insert d k xs b x :
  ~ (k <= b < k + Z.of_nat (length xs)) -> on_disk d k xs -> on_disk (<[b := x]> d) k xs.
Proof.
  intros Hb Hs i y Hy. rewrite disk_block_insert. pose proof (lookup_lt_Some _ _ _ Hy).
  rewrite decide_False by lia. by apply Hs.
Qed.

Lemma for_each_succ (body : Z -> M L unit) tail n :
  for_each (seqZ tail (Z.of_nat (Datatypes.S n))) body =
    (body tail ;; for_each (seqZ (tail + 1) (Z.of_nat n)) body).
Proof.
  rewrite seqZ_cons by lia. cbn [for_each].
  replace (Z.pred (Z.of_nat (Datatypes.S n))) with (Z.of_nat n) by lia. done.
Qed.

(** A block held by the log: its lock free, its contents [x]. *)
Definition pinned P (h : Z) (x : blk) : Prop :=
  exists r, P !! h = Some (mkPin r false x) /\ 0 < r /\ r + 1 < 2 ^ 32.

Lemma log_loop s bs start hs xs tail k c d P :
  log_dev s = the_dev -> log_start s = start -> lh_block s = bs -> k = start + tail + 1 ->
  slots bs tail hs -> Forall2 (pinned P) hs xs -> crep c d P -> (size P < NBUF)%nat ->
  (forall b, k <= b < k + Z.of_nat (length hs) -> P !! b = None) ->
  exists c', for_each (seqZ tail (Z.of_nat (length hs))) log_one (with_cache c s) = Ok tt (with_cache c' s) /\
    crep c' (puts (region k xs) d) P /\ moved c c' (trail d (region k xs)).
Proof.
  intros Hdev Hst Hbs Hk Hget Hpin. revert tail k c d Hk Hget.
  induction Hpin as [|h x hs xs Hp Hpin IH]; intros tail k c d Hk Hget Hr Hsz Hfree.
  - exists c. split_and!; [done|done|apply moved_refl].
  - destruct Hp as (r & Hh & Hr0 & Hr1). apply slots_cons in Hget as [Hg Hget]. cbn [length] in *.
    assert (P !! k = None) as HPk by (apply Hfree; lia).
    destruct (log_one_run c d P s start tail k h r x bs Hdev Hst Hbs Hg) as (c1 & Hrun & Hr' & Hm); try done.
    { congruence. }
    destruct (IH (tail + 1) (k + 1) c1 (<[k := x]> d)) as (c2 & Hrun2 & Hr2 & Hm2); try done; [lia| |].
    { intros b Hb. apply Hfree. lia. }
    exists c2. rewrite for_each_succ, (bind_ok _ _ _ _ _ Hrun). split_and!; [exact Hrun2|exact Hr2|].
    exact (moved_trans _ _ _ _ _ Hm Hm2).
Qed.

(** ** One block copied from the log to its home *)

Lemma unref_insert n r x P p : unref n r x (<[n := p]> P) = unref n r x P.
Proof.
  unfold unref. case_decide; apply map_eq; intros j; destruct (decide (j = n)) as [->|]; by pins_lookup.
Qed.

Lemma install_one_run c d P s start tail k home r x bs :
  log_dev s = the_dev -> log_start s = start -> lh_block s = bs -> arr_get bs tail = Some home ->
  k = start + tail + 1 ->
  crep c d P -> P !! k = None -> (size P < NBUF)%nat -> disk_block d k = x ->
  P !! home = Some (mkPin r false x) -> 0 < r -> r + 1 < 2 ^ 32 ->
  exists c', install_one false tail (with_cache c s) = Ok tt (with_cache c' s) /\
    crep c' (<[home := x]> d) (unref home r x P) /\ moved c c' [<[home := x]> d].
Proof.
  intros Hdev Hst Hbs Hb -> Hr Hk Hsz Hdk Hh Hr0 Hr1. set (k := start + tail + 1) in *.
  assert (k <> home) as Hne by congruence. unfold install_one.
  unfold gets at 1, bind at 1. simpl. rewrite Hdev. unfold gets at 1, bind at 1. simpl. rewrite Hst.
  destruct (bread_miss_l c d P s k Hr Hk Hsz) as (lb & c1 & Hrun & Hn & Hc1 & Hg1). fold k.
  stepped Hrun Hg1. rewrite Hdk in Hc1.
  rewrite (bind_ok _ _ _ _ _ (block_at_l s c1 bs tail home Hbs Hb)).
  destruct (bread_hit_l c1 d _ s home r x Hc1) as (db & c2 & Hrun & Hf & Hc2 & Hg2); [by pins_lookup|done|].
  stepped Hrun Hg2.
  rewrite (bind_ok _ _ _ _ _ (buf_data_l c2 d _ s lb k 1 true x Hc2 Hn ltac:(by pins_lookup))).
  destruct (set_data_l c2 d _ s db home (r + 1) x x Hc2 Hf) as (c3 & Hrun & Hc3 & Hg3); [by pins_lookup|].
  stepped Hrun Hg3.
  destruct (bwrite_l c3 d _ s db home (r + 1) x Hc3 Hf) as (c4 & Hrun & Hc4 & Hg4); [by pins_lookup|].
  stepped Hrun Hg4.
  destruct (bunpin_l c4 _ _ s db home (r + 1) true x Hc4 Hf) as (c5 & Hrun & Hc5 & Hg5); [by pins_lookup|lia|].
  stepped Hrun Hg5.
  destruct (brelse_l c5 _ _ s lb k 1 x Hc5 Hn) as (c6 & Hrun & Hc6 & Hg6); [by pins_lookup| |].
  { intros _. rewrite disk_block_insert. by rewrite decide_False by done. }
  stepped Hrun Hg6. unfold unref in Hc6. rewrite decide_True in Hc6 by done.
  destruct (brelse_l c6 _ _ s db home r x Hc6 Hf) as (c7 & Hrun & Hc7 & Hg7).
  { pins_lookup. do 2 f_equal. lia. }
  { intros _. rewrite disk_block_insert. by rewrite decide_True. }
  exists c7. split; [exact Hrun|]. stepped Hrun Hg7. split.
  - match type of Hc7 with crep _ _ ?Q => replace (unref home r x P) with Q; [exact Hc7|] end.
    unfold unref. case_decide; apply map_eq; intros j; destruct (decide (j = home)) as [->|]; pins_lookup; try done;
      destruct (decide (j = k)) as [->|]; by pins_lookup.
  - done.
Qed.

(** The same when the cache is cold: neither block is in use. *)
Lemma recover_one_run c d P s start tail k home bs :
  log_dev s = the_dev -> log_start s = start -> lh_block s = bs -> arr_get bs tail = Some home ->
  k = start + tail + 1 ->
  crep c d P -> P !! k = None -> P !! home = None -> k <> home -> (size P + 1 < NBUF)%nat ->
  exists c', install_one true tail (with_cache c s) = Ok tt (with_cache c' s) /\
    crep c' (<[home := disk_block d k]> d) P /\ moved c c' [<[home := disk_block d k]> d].
Proof.
  intros Hdev Hst Hbs Hb -> Hr Hk Hh Hne Hsz. set (k := start + tail + 1) in *. unfold install_one.
  unfold gets at 1, bind at 1. simpl. rewrite Hdev. unfold gets at 1, bind at 1. simpl. rewrite Hst.
  destruct (bread_miss_l c d P s k Hr Hk) as (lb & c1 & Hrun & Hn & Hc1 & Hg1); [lia|]. fold k.
  stepped Hrun Hg1.
  rewrite (bind_ok _ _ _ _ _ (block_at_l s c1 bs tail home Hbs Hb)).
  destruct (bread_miss_l c1 d _ s home Hc1) as (db & c2 & Hrun & Hf & Hc2 & Hg2);
    [by pins_lookup|rewrite map_size_insert_None by done; lia|].
  stepped Hrun Hg2.
  set (x := disk_block d k) in *.
  rewrite (bind_ok _ _ _ _ _ (buf_data_l c2 d _ s lb k 1 true x Hc2 Hn ltac:(by pins_lookup))).
  destruct (set_data_l c2 d _ s db home 1 (disk_block d home) x Hc2 Hf) as (c3 & Hrun & Hc3 & Hg3); [by pins_lookup|].
  stepped Hrun Hg3.
  destruct (bwrite_l c3 d _ s db home 1 x Hc3 Hf) as (c4 & Hrun & Hc4 & Hg4); [by pins_lookup|].
  stepped Hrun Hg4.
  unfold ret at 1, bind at 1.
  destruct (brelse_l c4 _ _ s lb k 1 x Hc4 Hn) as (c6 & Hrun & Hc6 & Hg6); [by pins_lookup| |].
  { intros _. rewrite disk_block_insert. by rewrite decide_False by done. }
  stepped Hrun Hg6. unfold unref in Hc6. rewrite decide_True in Hc6 by done.
  destruct (brelse_l c6 _ _ s db home 1 x Hc6 Hf) as (c7 & Hrun & Hc7 & Hg7); [by pins_lookup| |].
  { intros _. rewrite disk_block_insert. by rewrite decide_True. }
  exists c7. split; [exact Hrun|]. stepped Hrun Hg7. split.
  - unfold unref in Hc7. rewrite decide_True in Hc7 by done.
    match type of Hc7 with crep _ _ ?Q => replace P with Q; [exact Hc7|] end.
    apply map_eq. intros j. destruct (decide (j = home)) as [->|]; pins_lookup; [done|].
    destruct (decide (j = k)) as [->|]; by pins_lookup.
  - done.
Qed.

(** ** The two installing loops *)

Definition drop_pin P (h : Z) : pins :=
  match P !! h with Some p => unref h (p_ref p) (p_data p) P | None => P end.
Definition drop_pins (hs : list Z) P : pins := foldl drop_pin P hs.

Lemma drop_pin_ne P h j : j <> h -> drop_pin P h !! j = P !! j.
Proof. intros. unfold drop_pin, unref. destruct (P !! h); [|done]. case_decide; by pins_lookup. Qed.

Lemma drop_pin_size P h : (size (drop_pin P h) <= size P)%nat.
Proof.
  unfold drop_pin, unref. destruct (P !! h) eqn:E; [|done]. case_decide.
  - rewrite map_size_delete, E. simpl. lia.
  - rewrite map_size_insert, E. simpl. done.
Qed.

Lemma drop_pin_pinned P h hs xs : h ∉ hs -> Forall2 (pinned P) hs xs -> Forall2 (pinned (drop_pin P h)) hs xs.
Proof.
  intros Hh HF. induction HF as [|h' x hs xs (r & Hp & Hr) HF IH]; [done|].
  apply not_elem_of_cons in Hh as [? ?]. constructor; [|by apply IH].
  exists r. by rewrite drop_pin_ne by done.
Qed.

Lemma install_loop s bs start hs xs tail k c d P :
  log_dev s = the_dev -> log_start s = start -> lh_block s = bs -> k = start + tail + 1 ->
  slots bs tail hs -> Forall2 (pinned P) hs xs -> NoDup hs -> crep c d P -> (size P < NBUF)%nat ->
  (forall b, k <= b < k + Z.of_nat (length hs) -> P !! b = None) -> on_disk d k xs ->
  exists c', for_each (seqZ tail (Z.of_nat (length hs))) (install_one false) (with_cache c s) =
      Ok tt (with_cache c' s) /\
    crep c' (puts (zip hs xs) d) (drop_pins hs P) /\ moved c c' (trail d (zip hs xs)).
Proof.
  intros Hdev Hst Hbs. revert xs tail k c d P.
  induction hs as [|h hs IH]; intros xs tail k c d P Hk Hget Hpin Hnd Hr Hsz Hfree Hx;
    inversion Hpin as [|? x ? xs' Hp Hpin']; subst xs.
  - exists c. split_and!; [done|done|apply moved_refl].
  - destruct Hp as (r & Hh & Hr0 & Hr1). apply NoDup_cons in Hnd as [Hh' Hnd].
    apply slots_cons in Hget as [Hg Hget]. apply on_disk_cons in Hx as [Hx0 Hx]. cbn [length] in *.
    pose proof (Forall2_length _ _ _ Hpin') as Hlen.
    assert (P !! k = None) as HPk by (apply Hfree; lia).
    destruct (install_one_run c d P s start tail k h r x bs Hdev Hst Hbs Hg) as (c1 & Hrun & Hr' & Hm); try done.
    replace (unref h r x P) with (drop_pin P h) in Hr' by (unfold drop_pin; by rewrite Hh).
    pose proof (drop_pin_size P h) as Hds.
    destruct (IH xs' (tail + 1) (k + 1) c1 (<[h := x]> d) (drop_pin P h)) as (c2 & Hrun2 & Hr2 & Hm2);
      [lia|done|by apply drop_pin_pinned|done|done|lia| | |].
    { intros b Hb. assert (P !! b = None) as HPb by (apply Hfree; lia). rewrite drop_pin_ne; congruence. }
    { apply on_disk_insert; [|done]. intros Hin. rewrite Hfree in Hh by lia. discriminate Hh. }
    exists c2. rewrite for_each_succ, (bind_ok _ _ _ _ _ Hrun). split_and!; [exact Hrun2|exact Hr2|].
    exact (moved_trans _ _ _ _ _ Hm Hm2).
Qed.

Lemma recover_loop s bs start hs xs tail k c d P :
  log_dev s = the_dev -> log_start s = start -> lh_block s = bs -> k = start + tail + 1 ->
  slots bs tail hs -> length xs = length hs -> crep c d P -> (size P + 1 < NBUF)%nat ->
  (forall b, k <= b < k + Z.of_nat (length hs) -> P !! b = None /\ b ∉ hs) ->
  (forall h, h ∈ hs -> P !! h = None) -> on_disk d k xs ->
  exists c', for_each (seqZ tail (Z.of_nat (length hs))) (install_one true) (with_cache c s) =
      Ok tt (with_cache c' s) /\
    crep c' (puts (zip hs xs) d) P /\ moved c c' (trail d (zip hs xs)).
Proof.
  intros Hdev Hst Hbs. revert xs tail k c d.
  induction hs as [|h hs IH]; intros [|x xs] tail k c d Hk Hget Hlen Hr Hsz Hfree Hhome Hx; try discriminate Hlen.
  - exists c. split_and!; [done|done|apply moved_refl].
  - apply slots_cons in Hget as [Hg Hget]. apply on_disk_cons in Hx as [Hx0 Hx]. cbn [length] in *.
    destruct (Hfree k) as [HPk Hnot]; [lia|]. apply not_elem_of_cons in Hnot as [Hne _].
    destruct (recover_one_run c d P s start tail k h bs Hdev Hst Hbs Hg) as (c1 & Hrun & Hr' & Hm); try done.
    { apply Hhome. left. }
    rewrite Hx0 in Hr', Hm.
    destruct (IH xs (tail + 1) (k + 1) c1 (<[h := x]> d)) as (c2 & Hrun2 & Hr2 & Hm2);
      [lia|done|lia|done|done| | | |].
    { intros b Hb. destruct (Hfree b) as [? Hn]; [lia|]. by apply not_elem_of_cons in Hn as [_ ?]. }
    { intros h' Hin. apply Hhome. by right. }
    { apply on_disk_insert; [|done]. intros Hin. destruct (Hfree h) as [_ []]; [lia|]. left. }
    exists c2. rewrite for_each_succ, (bind_ok _ _ _ _ _ Hrun). split_and!; [exact Hrun2|exact Hr2|].
    exact (moved_trans _ _ _ _ _ Hm Hm2).
Qed.

(** ** The header written and read *)

Lemma head_words_run s bs hs tail i c d P k r x :
  lh_block s = bs -> slots bs tail hs -> crep c d P -> cnames c i k -> P !! k = Some (mkPin r true x) ->
  exists c', for_each (seqZ tail (Z.of_nat (length hs))) (fun j =>
      let! b := block_at j in
      let! x := buf_data i in
      set_buf_data i (put_word x (1 + j) b)) (with_cache c s) = Ok tt (with_cache c' s) /\
    crep c' d (<[k := mkPin r true (put_words x (1 + tail) hs)]> P) /\ cnames (B := B) c' i k /\ moved c c' [].
Proof.
  intros Hbs. revert tail c P x.
  induction hs as [|h hs IH]; intros tail c P x Hget Hr Hn Hk.
  - exists c. split_and!; [done| |done|apply moved_refl]. simpl. by rewrite insert_id.
  - apply slots_cons in Hget as [Hg Hget]. cbn [length put_words].
    destruct (set_data_l c d P s i k r x (put_word x (1 + tail) h) Hr Hn Hk) as (c1 & Hrun & Hc1 & Hg1).
    assert (cnames c1 i k) as Hn1 by (apply (cg_names _ _ _ _ Hg1); [done|exact Hn]).
    destruct (IH (tail + 1) c1 (<[k := mkPin r true (put_word x (1 + tail) h)]> P) (put_word x (1 + tail) h))
      as (c2 & Hrun2 & Hc2 & Hn2 & Hm2); [done|done|done|by pins_lookup|].
    exists c2. rewrite for_each_succ. rewrite (bind_ok _ _ _ tt (with_cache c1 s)).
    2: { rewrite (bind_ok _ _ _ _ _ (block_at_l s c bs tail h Hbs Hg)).
         by rewrite (bind_ok _ _ _ _ _ (buf_data_l c d P s i k r true x Hr Hn Hk)). }
    split; [exact Hrun2|]. rewrite insert_insert_eq in Hc2.
    replace (1 + (tail + 1)) with (1 + tail + 1) in Hc2 by lia. split; [exact Hc2|]. split; [exact Hn2|].
    exact (moved_trans _ _ _ _ _ (goes_moved _ _ _ _ Hg1) Hm2).
Qed.

Lemma write_head_run s bs start hs c d P :
  log_dev s = the_dev -> log_start s = start -> lh_block s = bs -> lh_n s = Z.of_nat (length hs) ->
  slots bs 0 hs -> crep c d P -> P !! start = None -> (size P < NBUF)%nat ->
  exists c', write_head (with_cache c s) = Ok tt (with_cache c' s) /\
    crep c' (<[start := header (disk_block d start) hs]> d) P /\
    moved c c' [<[start := header (disk_block d start) hs]> d].
Proof.
  intros Hdev Hst Hbs Hn Hget Hr Hk Hsz. unfold write_head.
  unfold gets at 1, bind at 1. simpl. rewrite Hdev. unfold gets at 1, bind at 1. simpl. rewrite Hst.
  destruct (bread_miss_l c d P s start Hr Hk Hsz) as (i & c1 & Hrun & Hi & Hc1 & Hg1). stepped Hrun Hg1.
  unfold gets at 1, bind at 1. simpl. rewrite Hn. set (x := disk_block d start) in *.
  rewrite (bind_ok _ _ _ _ _ (buf_data_l c1 d _ s i start 1 true x Hc1 Hi ltac:(by pins_lookup))).
  destruct (set_data_l c1 d _ s i start 1 x (put_word x 0 (Z.of_nat (length hs))) Hc1 Hi)
    as (c2 & Hrun & Hc2 & Hg2); [by pins_lookup|]. stepped Hrun Hg2. rewrite insert_insert_eq in Hc2.
  destruct (head_words_run s bs hs 0 i c2 d _ start 1 (put_word x 0 (Z.of_nat (length hs))) Hbs Hget Hc2 Hi) as (c3 & Hrun & Hc3 & Hi3 & Hm3);
    [by pins_lookup|].
  unfold zrange. replace (Z.of_nat (length hs) - 0) with (Z.of_nat (length hs)) by lia.
  rewrite (bind_ok _ _ _ _ _ Hrun). clear Hrun. rewrite insert_insert_eq in Hc3.
  pose proof (moved_trans _ _ _ _ _ Hg2 Hm3) as Hm. change (put_words _ (1 + 0) hs) with (header x hs) in Hc3.
  destruct (bwrite_l c3 d _ s i start 1 (header x hs) Hc3 Hi3) as (c4 & Hrun & Hc4 & Hg4); [by pins_lookup|].
  clear Hm3. stepped Hrun Hg4.
  destruct (brelse_l c4 _ _ s i start 1 (header x hs) Hc4 Hi3) as (c5 & Hrun & Hc5 & Hg5); [by pins_lookup| |].
  { intros _. rewrite disk_block_insert. by rewrite decide_True. }
  exists c5. split; [exact Hrun|]. stepped Hrun Hg5. split; [|done].
  unfold unref in Hc5. rewrite decide_True in Hc5 by done. by rewrite delete_insert_id in Hc5.
Qed.

Lemma read_words_run (f : Z -> Z) s n tail bs c :
  lh_block s = bs -> 0 <= tail -> tail + Z.of_nat n <= Z.of_nat (length bs) ->
  exists bs', for_each (seqZ tail (Z.of_nat n)) (fun i => set_block_at i (f i)) (with_cache c s) =
      Ok tt (with_cache c (with_block bs' s)) /\ length bs' = length bs /\
    forall j, arr_get bs' j = if decide (tail <= j < tail + Z.of_nat n) then Some (f j) else arr_get bs j.
Proof.
  revert tail bs s. induction n as [|n IH]; intros tail bs s Hbs Ht Hn.
  - exists bs. split_and!; [destruct s; simpl in *; by subst|done|]. intros j. by rewrite decide_False by lia.
  - destruct (IH (tail + 1) (<[Z.to_nat tail := f tail]> bs) (with_block (<[Z.to_nat tail := f tail]> bs) s))
      as (bs' & Hrun & Hl & Hget); [done|lia|rewrite length_insert; lia|].
    exists bs'. rewrite for_each_succ. rewrite length_insert in Hl.
    rewrite (bind_ok _ _ _ tt (with_cache c (with_block (<[Z.to_nat tail := f tail]> bs) s))).
    2: { unfold set_block_at, gets, bind, modify. simpl. rewrite Hbs, arr_set_Some by lia. done. }
    split; [exact Hrun|]. split; [done|]. intros j. rewrite Hget.
    rewrite (arr_get_set bs _ tail j (f tail)) by (apply arr_set_Some; lia).
    repeat case_decide; subst; try done; lia.
Qed.

Lemma read_head_run s start c d P x :
  log_dev s = the_dev -> log_start s = start -> length (lh_block s) = Z.to_nat LOGBLOCKS ->
  x = disk_block d start -> 0 <= word x 0 <= LOGBLOCKS ->
  crep c d P -> P !! start = None -> (size P < NBUF)%nat ->
  exists c' bs', read_head (with_cache c s) = Ok tt (with_cache c' (with_block bs' (with_n (word x 0) s))) /\
    length bs' = length (lh_block s) /\ slots bs' 0 (homes x) /\ crep c' d P /\ moved c c' [].
Proof.
  intros Hdev Hst Hl Hx Hn Hr Hk Hsz. unfold read_head.
  unfold gets at 1, bind at 1. simpl. rewrite Hdev. unfold gets at 1, bind at 1. simpl. rewrite Hst.
  destruct (bread_miss_l c d P s start Hr Hk Hsz) as (i & c1 & Hrun & Hi & Hc1 & Hg1). stepped Hrun Hg1.
  rewrite <- Hx in Hc1.
  rewrite (bind_ok _ _ _ _ _ (buf_data_l c1 d _ s i start 1 true x Hc1 Hi ltac:(by pins_lookup))).
  unfold modify at 1, bind at 1.
  destruct (read_words_run (fun i => word x (1 + i)) (with_n (word x 0) s) (Z.to_nat (word x 0)) 0 (lh_block s) c1)
    as (bs' & Hrun & Hl' & Hget); [done|lia|unfold LOGBLOCKS, MAXOPBLOCKS in *; lia|].
  rewrite Z2Nat.id in Hrun, Hget by lia. unfold zrange.
  change (with_n (word x 0) (with_cache c1 s)) with (with_cache c1 (with_n (word x 0) s)).
  replace (word x 0 - 0) with (word x 0) by lia. rewrite (bind_ok _ _ _ _ _ Hrun). clear Hrun.
  destruct (brelse_l c1 d _ (with_block bs' (with_n (word x 0) s)) i start 1 x Hc1 Hi) as (c2 & Hrun & Hc2 & Hg2);
    [by pins_lookup|done|].
  exists c2, bs'. split; [exact Hrun|]. stepped Hrun Hg2. split; [done|]. split; [|split; [|done]].
  - intros j h Hj. rewrite Hget. unfold homes, zrange in Hj. rewrite list_lookup_fmap in Hj.
    apply fmap_Some in Hj as (z & Hz & ->). apply lookup_seqZ in Hz as [-> Hz]. by rewrite decide_True by lia.
  - unfold unref in Hc2. rewrite decide_True in Hc2 by done. by rewrite delete_insert_id in Hc2.
Qed.
End Spec.
