(* ===== verification/LogProps.v ===== *)
(** * Correctness of the write-ahead log

    A transaction becomes durable as a whole: at whatever point of end_op the machine
    stops, initlog brings the file system's blocks to what they were before the
    transaction or to what they are after it.  The reservations of begin_op keep the log
    from overflowing. *)

From Stdlib Require Import ZArith Lia.
From stdpp Require Import base numbers list gmap strings.
From S2P Require Import Prelude Spinlock Proc ProcSpec BlockCache Bio BioSpec Log LogSpec.
Open Scope Z_scope.

(** ** Disks, block by block *)

(** The blocks of the log: its header and the blocks behind it. *)
Definition in_log (start b : Z) : Prop := start <= b <= start + LOGBLOCKS.

(** Two disks with the same file system. *)
Definition same_fs (start : Z) (d e : diskmap) : Prop :=
  forall b, ~ in_log start b -> disk_block d b = disk_block e b.

#[export] Instance same_fs_equiv start : Equivalence (same_fs start).
Proof.
  split; [done|intros d e He b Hb; symmetry; by apply He|].
  intros d e f H1 H2 b Hb. by rewrite (H1 b Hb), (H2 b Hb).
Qed.

(** Disks that agree outside the blocks written agree after the writes. *)
Lemma puts_ext kxs d e b :
  (b ∉ kxs.*1 -> disk_block d b = disk_block e b) -> disk_block (puts kxs d) b = disk_block (puts kxs e) b.
Proof.
  revert d e. induction kxs as [|[k x] kxs IH]; intros d e Hde; [apply Hde, not_elem_of_nil|].
  apply (IH (<[k := x]> d) (<[k := x]> e)). intros Hb. rewrite !disk_block_insert. case_decide; [done|].
  apply Hde. simpl. rewrite not_elem_of_cons. split; [congruence|done].
Qed.

#[export] Instance puts_proper start kxs : Proper (same_fs start ==> same_fs start) (puts kxs).
Proof. intros d e He b Hb. apply puts_ext. intros _. by apply He. Qed.

Lemma same_fs_insert start b x d : in_log start b -> same_fs start (<[b := x]> d) d.
Proof. intros Hb b' Hb'. rewrite disk_block_insert, decide_False; [done|]. by intros ->. Qed.

Lemma same_fs_puts start kxs d : (forall b, b ∈ kxs.*1 -> in_log start b) -> same_fs start (puts kxs d) d.
Proof. intros Hk b Hb. apply puts_other. intros Hin. by apply Hb, Hk. Qed.

(** Repeating a prefix of the writes changes nothing. *)
Lemma puts_again start pre post d :
  same_fs start (puts (pre ++ post) (puts pre d)) (puts (pre ++ post) d).
Proof.
  intros b _. apply puts_ext. rewrite fmap_app, not_elem_of_app. intros [Hb _]. by apply puts_other.
Qed.

(** ** What recovery makes of a disk *)

Definition logged (start : Z) (d : diskmap) (n : Z) : list blk :=
  (fun i => disk_block d (start + 1 + i)) <$> zrange 0 n.
Definition replay (start : Z) (d : diskmap) : list (Z * blk) :=
  let x := disk_block d start in zip (homes x) (logged start d (word x 0)).
Definition recovered (start : Z) (d : diskmap) : diskmap :=
  let d1 := puts (replay start d) d in <[start := header (disk_block d1 start) []]> d1.

(** A log that recovery can read. *)
Definition log_ok (start : Z) (d : diskmap) : Prop :=
  let x := disk_block d start in
  length x = BWORDS /\ 0 <= word x 0 <= LOGBLOCKS /\ forall h, h ∈ homes x -> ~ in_log start h.

Lemma logged_length start d n : 0 <= n -> length (logged start d n) = Z.to_nat n.
Proof. intros. unfold logged, zrange. rewrite length_fmap, length_seqZ. f_equal. lia. Qed.
Lemma homes_length x : 0 <= word x 0 -> length (homes x) = Z.to_nat (word x 0).
Proof. intros. unfold homes, zrange. rewrite length_fmap, length_seqZ. f_equal. lia. Qed.

Lemma logged_on_disk start d n : on_disk d (start + 1) (logged start d n).
Proof.
  intros i x Hi. unfold logged, zrange in Hi. rewrite list_lookup_fmap in Hi.
  apply fmap_Some in Hi as (z & Hz & ->). apply lookup_seqZ in Hz as [-> _]. done.
Qed.

Lemma on_disk_logged start d xs : on_disk d (start + 1) xs -> logged start d (Z.of_nat (length xs)) = xs.
Proof.
  intros Hs. apply list_eq. intros i. unfold logged, zrange. rewrite list_lookup_fmap.
  destruct (xs !! i) as [x|] eqn:E.
  - rewrite lookup_seqZ_lt by (apply lookup_lt_Some in E; lia). simpl. f_equal. by apply Hs.
  - apply lookup_ge_None in E. by rewrite lookup_seqZ_ge by lia.
Qed.

Lemma recovered_fs start d : same_fs start (recovered start d) (puts (replay start d) d).
Proof. apply same_fs_insert. unfold in_log, LOGBLOCKS, MAXOPBLOCKS. lia. Qed.

Lemma replay_empty start d : word (disk_block d start) 0 = 0 -> replay start d = [].
Proof. intros Hn. unfold replay, homes. by rewrite Hn. Qed.

Lemma replay_header start d hs xs :
  homes (disk_block d start) = hs -> word (disk_block d start) 0 = Z.of_nat (length hs) -> length xs = length hs ->
  on_disk d (start + 1) xs -> replay start d = zip hs xs.
Proof. intros Hh Hn Hl Hs. unfold replay. rewrite Hh, Hn, <- Hl. by rewrite on_disk_logged. Qed.

(** The disks recovery itself goes through. *)
Definition recovery_disks (start : Z) (d : diskmap) : list diskmap :=
  trail d (replay start d) ++ [recovered start d].

Lemma log_ok_empty start e :
  length (disk_block e start) = BWORDS -> word (disk_block e start) 0 = 0 -> log_ok start e.
Proof.
  intros Hl Hw. unfold log_ok, homes, LOGBLOCKS, MAXOPBLOCKS. rewrite Hw. split_and!; [done|lia|lia|].
  by intros h Hh%not_elem_of_nil.
Qed.

Lemma header_length y vs : length (header y vs) = length y.
Proof. unfold header. rewrite put_words_length. apply length_insert. Qed.

Lemma header_cleared y : length y = BWORDS -> word (header y []) 0 = 0.
Proof. intros Hy. apply (header_n y []); [done|unfold LOGBLOCKS, MAXOPBLOCKS; simpl; lia|done]. Qed.

(** While recovery writes the homes, the log stands. *)
Lemma replay_prefix start d pre post (e := puts pre d) :
  log_ok start d -> replay start d = pre ++ post ->
  disk_block e start = disk_block d start /\ replay start e = replay start d.
Proof.
  intros (Hx & Hn & Hout) E.
  assert (forall b, in_log start b -> disk_block e b = disk_block d b) as Hk.
  { intros b Hb. apply puts_other. intros Hin. apply (Hout b); [|done].
    assert (b ∈ (replay start d).*1) as Hr by (rewrite E, fmap_app; apply elem_of_app; by left).
    unfold replay in Hr. rewrite fst_zip in Hr; [done|]. rewrite homes_length, logged_length; lia. }
  assert (disk_block e start = disk_block d start) as Hs
    by (apply Hk; unfold in_log, LOGBLOCKS, MAXOPBLOCKS; lia).
  split; [done|]. unfold replay. rewrite Hs. f_equal. unfold logged. apply list_fmap_ext.
  intros i z Hz. apply lookup_seqZ in Hz as [-> Hz]. apply Hk. unfold in_log. lia.
Qed.

Lemma recovered_ok start d :
  log_ok start d -> log_ok start (recovered start d) /\ word (disk_block (recovered start d) start) 0 = 0.
Proof.
  intros Hok. destruct (replay_prefix start d (replay start d) [] Hok) as [Hh _]; [by rewrite app_nil_r|].
  assert (disk_block (recovered start d) start = header (disk_block d start) []) as E.
  { unfold recovered. rewrite disk_block_insert, decide_True by done. by rewrite Hh. }
  destruct Hok as (Hx & _).
  assert (word (disk_block (recovered start d) start) 0 = 0) as Hw by (rewrite E; by apply header_cleared).
  split; [|done]. apply log_ok_empty; [|done]. by rewrite E, header_length.
Qed.

(** A crash during recovery loses nothing. *)
Lemma recovery_disks_recover start d e :
  log_ok start d -> e ∈ recovery_disks start d ->
  log_ok start e /\ same_fs start (recovered start e) (recovered start d).
Proof.
  intros Hok [He|He]%elem_of_app.
  - apply elem_of_trail in He as (pre & post & E & ->).
    destruct (replay_prefix start d pre post Hok E) as [Hh Hr]. split.
    + destruct Hok as (Hx & Hn & Hout). unfold log_ok. by rewrite Hh.
    + rewrite !recovered_fs, Hr, E. apply puts_again.
  - apply list_elem_of_singleton in He as ->. destruct (recovered_ok start d Hok) as [Hok' Hw]. split; [done|].
    rewrite recovered_fs, replay_empty by done. reflexivity.
Qed.

(** ** A commit, disk by disk *)

Section Disks.
Context (start : Z) (d : diskmap) (hs : list Z) (xs : list blk).
Let x := disk_block d start.
Hypothesis Hx : length x = BWORDS.
Hypothesis Hempty : word x 0 = 0.
Hypothesis Hlen : length xs = length hs.
Hypothesis Hroom : Z.of_nat (length hs) <= LOGBLOCKS.
Hypothesis Hint : Forall in_int hs.
Hypothesis Hout : forall h, h ∈ hs -> ~ in_log start h.

Definition d_logged : diskmap := puts (region (start + 1) xs) d.
Definition d_committed : diskmap := <[start := header (disk_block d_logged start) hs]> d_logged.
Definition d_installed : diskmap := puts (zip hs xs) d_committed.
Definition d_cleared : diskmap := <[start := header (disk_block d_installed start) []]> d_installed.
Definition commit_disks : list diskmap :=
  trail d (region (start + 1) xs) ++ [d_committed] ++ trail d_committed (zip hs xs) ++ [d_cleared].

Lemma zip_keys : (zip hs xs).*1 = hs.
Proof. apply fst_zip. lia. Qed.

Lemma logged_prefix pre post :
  region (start + 1) xs = pre ++ post -> disk_block (puts pre d) start = x /\ same_fs start (puts pre d) d.
Proof.
  intros E.
  assert (forall b, b ∈ pre.*1 -> start + 1 <= b <= start + LOGBLOCKS) as Hk.
  { intros b Hb. assert (b ∈ (region (start + 1) xs).*1) as Hr by (rewrite E, fmap_app; apply elem_of_app; by left).
    apply region_keys in Hr. lia. }
  split; [apply puts_other; intros Hb%Hk; lia|].
  apply same_fs_puts. intros b Hb%Hk. unfold in_log. lia.
Qed.

Lemma d_logged_head : disk_block d_logged start = x.
Proof. exact (proj1 (logged_prefix _ [] (eq_sym (app_nil_r _)))). Qed.

(** While the homes are written the header and the log stand. *)
Lemma installed_prefix pre post (e := puts pre d_committed) :
  zip hs xs = pre ++ post ->
  disk_block e start = header x hs /\ on_disk e (start + 1) xs /\ same_fs start e (puts pre d).
Proof.
  intros E.
  assert (forall b, in_log start b -> b ∉ pre.*1) as Hk.
  { intros b Hb Hin. apply (Hout b); [|done]. rewrite <- zip_keys, E, fmap_app. apply elem_of_app. by left. }
  split_and!.
  - unfold e. rewrite puts_other by (apply Hk; unfold in_log, LOGBLOCKS, MAXOPBLOCKS; lia). unfold d_committed.
    rewrite disk_block_insert, decide_True by done. by rewrite d_logged_head.
  - intros i y Hy. pose proof (lookup_lt_Some _ _ _ Hy). unfold e.
    rewrite puts_other by (apply Hk; unfold in_log; lia). unfold d_committed.
    rewrite disk_block_insert, decide_False by lia. by apply region_lookup.
  - unfold e. apply puts_proper. unfold d_committed. transitivity d_logged.
    + apply same_fs_insert. unfold in_log, LOGBLOCKS, MAXOPBLOCKS. lia.
    + exact (proj2 (logged_prefix _ [] (eq_sym (app_nil_r _)))).
Qed.

Lemma d_cleared_head : disk_block d_cleared start = header (header x hs) [].
Proof.
  unfold d_cleared. rewrite disk_block_insert, decide_True by done. f_equal.
  apply (installed_prefix (zip hs xs) []). by rewrite app_nil_r.
Qed.

Lemma d_cleared_fs : same_fs start d_cleared (puts (zip hs xs) d).
Proof.
  unfold d_cleared. rewrite same_fs_insert by (unfold in_log, LOGBLOCKS, MAXOPBLOCKS; lia).
  apply (installed_prefix (zip hs xs) []). by rewrite app_nil_r.
Qed.

(** Each disk of a commit can be recovered, to the old file system or to the new one. *)
Lemma commit_disks_recover e :
  e ∈ d :: commit_disks ->
  log_ok start e /\
  (same_fs start (recovered start e) d \/ same_fs start (recovered start e) (puts (zip hs xs) d)).
Proof.
  assert (forall pre post, region (start + 1) xs = pre ++ post ->
    log_ok start (puts pre d) /\ same_fs start (recovered start (puts pre d)) d) as Hold.
  { intros pre post E. destruct (logged_prefix pre post E) as [Hh Hs]. split.
    - apply log_ok_empty; by rewrite Hh.
    - rewrite recovered_fs, replay_empty by by rewrite Hh. exact Hs. }
  assert (forall pre post, zip hs xs = pre ++ post -> log_ok start (puts pre d_committed) /\
    same_fs start (recovered start (puts pre d_committed)) (puts (zip hs xs) d)) as Hnew.
  { intros pre post E. destruct (installed_prefix pre post E) as (Hh & Hs & Hfs). split.
    - unfold log_ok. rewrite Hh, header_length, homes_header, header_n by done. split_and!; [done|lia|lia|done].
    - rewrite recovered_fs.
      rewrite (replay_header start _ hs xs); [|by rewrite Hh, homes_header|by rewrite Hh, header_n|done|done].
      rewrite Hfs, E. apply puts_again. }
  unfold commit_disks. rewrite elem_of_cons, !elem_of_app, !list_elem_of_singleton.
  intros [->|[He|[->|[He| ->]]]].
  - destruct (Hold [] (region (start + 1) xs) eq_refl). auto.
  - apply elem_of_trail in He as (pre & post & E & ->). destruct (Hold pre post E). auto.
  - destruct (Hnew [] (zip hs xs) eq_refl). auto.
  - apply elem_of_trail in He as (pre & post & E & ->). destruct (Hnew pre post E). auto.
  - assert (length (header x hs) = BWORDS) as Hl by (by rewrite header_length).
    assert (word (disk_block d_cleared start) 0 = 0) as Hw.
    { rewrite d_cleared_head. by apply header_cleared. }
    split; [apply log_ok_empty; [by rewrite d_cleared_head, header_length|done]|right].
    rewrite recovered_fs, replay_empty by done. apply d_cleared_fs.
Qed.
End Disks.

(** ** The code goes through these disks *)

Section Runs.
Context {S B : Type} `{BufCacheLaws S B}.
Notation L := (lst S).
Implicit Types (c : S) (d : diskmap) (P : pins) (s : L).

#[export] Instance lst_cpu_laws : OnCpuLaws L.
Proof.
  split; intros; destruct s; simpl; unfold with_cache; simpl; try done.
  - apply cpu_get_set.
  - by rewrite cpu_set_set.
  - by rewrite cpu_set_get.
  - apply me_set_cpu.
Qed.
#[export] Instance log_lock_laws : LockLaws the_log_lock.
Proof. split; intros; by destruct s. Qed.

Lemma acquire_log {A} (k : M L A) s :
  is_free (log_lock s) -> (acquire the_log_lock ;; k) s = k (taken the_log_lock s).
Proof. intros Hf. by rewrite (bind_ok _ _ _ _ _ (acquire_run the_log_lock s Hf)). Qed.

Lemma zrange_0 n : zrange 0 (Z.of_nat n) = seqZ 0 (Z.of_nat n).
Proof. unfold zrange. f_equal. lia. Qed.

Lemma recover_run s c d start :
  log_dev s = the_dev -> log_start s = start -> length (lh_block s) = Z.to_nat LOGBLOCKS ->
  crep c d ∅ -> log_ok start d ->
  exists c' bs, recover_from_log (with_cache c s) = Ok tt (with_cache c' (with_n 0 (with_block bs s))) /\
    length bs = length (lh_block s) /\ crep c' (recovered start d) ∅ /\ moved c c' (recovery_disks start d).
Proof.
  intros Hdev Hst Hl Hr (Hx & Hn & Hout). unfold recover_from_log.
  destruct (read_head_run s start c d ∅ _ Hdev Hst Hl eq_refl Hn Hr) as (c1 & bs & Hrun & Hbs & Hsl & Hc1 & Hm1);
    [done|unfold NBUF; rewrite map_size_empty; lia|].
  rewrite (bind_ok _ _ _ _ _ Hrun). clear Hrun. set (x := disk_block d start) in *.
  set (s1 := with_block bs (with_n (word x 0) s)).
  destruct (recover_loop s1 bs start (homes x) (logged start d (word x 0)) 0 (start + 1) c1 d ∅)
    as (c2 & Hrun & Hc2 & Hm2); try done; [lia| | | | |].
  { rewrite logged_length, homes_length; lia. }
  { unfold NBUF. rewrite map_size_empty. lia. }
  { intros b Hb. rewrite homes_length in Hb by lia. split; [done|]. intros Hin. apply (Hout b Hin). unfold in_log. lia. }
  { apply logged_on_disk. }
  rewrite homes_length in Hrun by lia. rewrite Z2Nat.id in Hrun by lia.
  rewrite (bind_ok _ _ _ tt (with_cache c2 s1)).
  2: { unfold install_trans, gets, bind at 1, zrange. simpl. by replace (word x 0 - 0) with (word x 0) by lia. }
  unfold modify, bind at 1.
  destruct (write_head_run (with_n 0 s1) bs start [] c2 (puts (replay start d) d) ∅) as (c3 & Hrun3 & Hc3 & Hm3);
    try done; [unfold NBUF; rewrite map_size_empty; lia|].
  exists c3, bs. split; [exact Hrun3|]. split; [done|]. split; [exact Hc3|].
  exact (moved_trans _ _ _ _ _ Hm1 (moved_trans _ _ _ _ _ Hm2 Hm3)).
Qed.

(** A transaction ready to be committed: the blocks [hs] are logged and pinned with the
    contents [xs], the log on the disk is empty, and a buffer is left for the log. *)
Record txn s c d P (hs : list Z) (xs : list blk) : Prop := {
  tx_dev : log_dev s = the_dev;
  tx_n : lh_n s = Z.of_nat (length hs);
  tx_slots : slots (lh_block s) 0 hs;
  tx_room : Z.of_nat (length hs) <= LOGBLOCKS;
  tx_rep : crep c d P;
  tx_pinned : Forall2 (pinned P) hs xs;
  tx_nodup : NoDup hs;
  tx_int : Forall in_int hs;
  tx_free : forall b, in_log (log_start s) b -> P !! b = None;
  tx_buf : (size P < NBUF)%nat;
  tx_head : length (disk_block d (log_start s)) = BWORDS;
  tx_empty : word (disk_block d (log_start s)) 0 = 0 }.

Lemma txn_out s c d P hs xs h : txn s c d P hs xs -> h ∈ hs -> ~ in_log (log_start s) h.
Proof.
  intros T Hh Hin. apply (tx_free _ _ _ _ _ _ T) in Hin.
  apply list_elem_of_lookup in Hh as [i Hi].
  destruct (Forall2_lookup_l _ _ _ _ _ (tx_pinned _ _ _ _ _ _ T) Hi) as (x & _ & r & Hp & _). congruence.
Qed.

Lemma drop_pins_size hs P : (size (drop_pins hs P) <= size P)%nat.
Proof.
  revert P. induction hs as [|h hs IH]; intros P; [done|]. simpl.
  pose proof (IH (drop_pin P h)). pose proof (drop_pin_size P h). unfold drop_pins in *. lia.
Qed.
Lemma drop_pins_ne hs P j : j ∉ hs -> drop_pins hs P !! j = P !! j.
Proof.
  revert P. induction hs as [|h hs IH]; intros P Hj; [done|]. apply not_elem_of_cons in Hj as [? ?].
  unfold drop_pins in *. simpl. rewrite IH by done. by rewrite drop_pin_ne.
Qed.

Lemma commit_run s c d P hs xs (start := log_start s) :
  txn s c d P hs xs -> hs <> [] ->
  exists c', commit (with_cache c s) = Ok tt (with_cache c' (with_n 0 s)) /\
    crep c' (d_cleared start d hs xs) (drop_pins hs P) /\ moved c c' (commit_disks start d hs xs).
Proof.
  intros T Hne. pose proof (fun h => txn_out s c d P hs xs h T) as Hout.
  destruct T as [Hdev Hn Hsl Hroom Hr Hpin Hnd Hint Hfree Hsz Hx Hem].
  pose proof (Forall2_length _ _ _ Hpin) as Hlen. subst start. set (start := log_start s) in *.
  assert (in_log start start) as Hself by (unfold in_log, LOGBLOCKS, MAXOPBLOCKS; lia).
  unfold commit, gets, bind at 1. simpl. rewrite Hn, decide_True by (destruct hs; simpl; [done|lia]).
  destruct (log_loop s (lh_block s) start hs xs 0 (start + 1) c d P) as (c1 & Hrun & Hc1 & Hm1); try done; [lia| |].
  { intros b Hb. apply Hfree. unfold in_log. lia. }
  rewrite (bind_ok _ _ _ tt (with_cache c1 s)).
  2: { unfold write_log, gets, bind at 1. simpl. by rewrite Hn, zrange_0. }
  destruct (write_head_run s (lh_block s) start hs c1 (d_logged start d xs) P) as (c2 & Hrun2 & Hc2 & Hm2); try done.
  { by apply Hfree. }
  rewrite (bind_ok _ _ _ _ _ Hrun2). clear Hrun Hrun2.
  destruct (install_loop s (lh_block s) start hs xs 0 (start + 1) c2 (d_committed start d hs xs) P)
    as (c3 & Hrun & Hc3 & Hm3); try done; [lia| | |].
  { intros b Hb. apply Hfree. unfold in_log. lia. }
  { by apply (installed_prefix start d hs xs) with (pre := []) (post := zip hs xs). }
  rewrite (bind_ok _ _ _ tt (with_cache c3 s)).
  2: { unfold install_trans, gets, bind at 1. simpl. by rewrite Hn, zrange_0. }
  clear Hrun. unfold modify, bind at 1.
  destruct (write_head_run (with_n 0 s) (lh_block s) start [] c3 (d_installed start d hs xs) (drop_pins hs P))
    as (c4 & Hrun & Hc4 & Hm4); try done.
  { rewrite drop_pins_ne; [by apply Hfree|]. intros Hin. by apply (Hout start). }
  { pose proof (drop_pins_size hs P). lia. }
  exists c4. split; [exact Hrun|]. split; [exact Hc4|].
  exact (moved_trans _ _ _ _ _ Hm1 (moved_trans _ _ _ _ _ Hm2 (moved_trans _ _ _ _ _ Hm3 Hm4))).
Qed.

Lemma with_cache_id s : with_cache (cache s) s = s.
Proof. by destruct s. Qed.

Lemma initlog_run t e start :
  length (lh_block t) = Z.to_nat LOGBLOCKS -> crep (cache t) e ∅ -> log_ok start e ->
  exists t', initlog the_dev start t = Ok tt t' /\ crep (cache t') (recovered start e) ∅ /\ lh_n t' = 0 /\
    c_history (cache t') = c_history (cache t) ++ recovery_disks start e.
Proof.
  intros Hl Hr Hok. unfold initlog. rewrite decide_False by (unfold LOGBLOCKS, MAXOPBLOCKS, BSIZE; lia). unfold initlock, modify. do 3 unfold bind at 1.
  set (t1 := with_dev _ _).
  destruct (recover_run t1 (cache t) e start) as (c' & bs & Hrun & _ & Hc & Hm); try done.
  change (with_cache (cache t) t1) with t1 in Hrun.
  eexists. split; [exact Hrun|]. split; [exact Hc|]. split; [done|apply (mv_history _ _ _ Hm)].
Qed.

Lemma end_op_run s d P hs xs (start := log_start s) :
  is_free (log_lock s) -> log_committing s = 0 -> log_outstanding s = 1 -> txn s (cache s) d P hs xs ->
  exists c', end_op s = Ok tt (wakeup_log (with_committing 0 (with_n 0 (with_outstanding 0 (with_cache c' s))))) /\
    crep c' (if decide (hs = []) then d else d_cleared start d hs xs) (drop_pins hs P) /\
    moved (cache s) c' (if decide (hs = []) then [] else commit_disks start d hs xs).
Proof.
  intros Hf Hc Ho T. pose proof (c_rep_cpu _ _ _ (tx_rep _ _ _ _ _ _ T)) as Hcpu. unfold end_op.
  rewrite acquire_log by done.
  unfold gets at 1, bind at 1. unfold modify at 1, bind at 1. unfold gets at 1, bind at 1.
  change (log_committing _) with (log_committing s). change (log_outstanding _) with (log_outstanding s).
  rewrite Hc, Ho, decide_False by lia. change (1 - 1) with 0.
  rewrite (decide_True (P := 0 = 0)) by done. cbv zeta. unfold modify at 1. unfold bind at 1.
  set (s1 := with_committing 1 (with_outstanding 0 s)).
  change (with_committing 1 (with_outstanding 0 (taken the_log_lock s))) with (taken the_log_lock s1).
  assert (cpu_ok (get_cpu s1)) as Hcpu1 by exact Hcpu.
  rewrite (bind_ok _ _ _ _ _ (release_taken the_log_lock s1 Hcpu1 Hf)).
  assert (exists c', commit s1 = Ok tt (with_cache c' (with_n 0 s1)) /\
    crep c' (if decide (hs = []) then d else d_cleared start d hs xs) (drop_pins hs P) /\
    moved (cache s) c' (if decide (hs = []) then [] else commit_disks start d hs xs)) as (c' & Hrun & Hr & Hm).
  { case_decide as Hh.
    - exists (cache s). subst hs. pose proof (tx_n _ _ _ _ _ _ T) as Hn. simpl in Hn. split; [|split].
      + unfold commit, gets, bind. change (lh_n s1) with (lh_n s). rewrite Hn. rewrite decide_False by lia.
        unfold ret. f_equal. unfold s1. destruct s; simpl in *; by subst.
      + apply T.
      + apply moved_refl.
    - destruct (commit_run s1 (cache s) d P hs xs) as (c' & Hrun & Hrest); [by destruct T; constructor|done|].
      exists c'. split; [exact Hrun|exact Hrest]. }
  change (1 - 1) with 0. rewrite (decide_True (P := 0 = 0)) by done.
  rewrite (bind_ok _ _ _ _ _ Hrun). set (s2 := with_cache c' (with_n 0 s1)).
  rewrite acquire_log by done. unfold modify at 1, bind at 1. unfold modify, bind at 1.
  change (wakeup_log (with_committing 0 (taken the_log_lock s2)))
    with (taken the_log_lock (wakeup_log (with_committing 0 s2))).
  rewrite (release_taken the_log_lock); [|exact (c_rep_cpu _ _ _ Hr)|exact Hf].
  exists c'. done.
Qed.

(** ** Reservations *)

(** [used] holds, for each operation under way, the blocks it has added to the log so
    far; [hs] are the blocks logged.  What the operations may still add fits. *)
Record reserved s (used : list Z) (hs : list Z) : Prop := {
  rs_free : is_free (log_lock s);
  rs_cpu : cpu_ok (get_cpu s);
  rs_committing : log_committing s = 0;
  rs_outstanding : log_outstanding s = Z.of_nat (length used);
  rs_used : Forall (fun u => 0 <= u <= MAXOPBLOCKS) used;
  rs_length : length (lh_block s) = Z.to_nat LOGBLOCKS;
  rs_n : lh_n s = Z.of_nat (length hs);
  rs_slots : slots (lh_block s) 0 hs;
  rs_nodup : NoDup hs;
  rs_space : lh_n s + foldr (fun u z => MAXOPBLOCKS - u + z) 0 used <= LOGBLOCKS }.

Lemma remaining_bound used :
  Forall (fun u => 0 <= u <= MAXOPBLOCKS) used ->
  0 <= foldr (fun u z => MAXOPBLOCKS - u + z) 0 used <= Z.of_nat (length used) * MAXOPBLOCKS.
Proof. induction 1; simpl; lia. Qed.

Lemma remaining_app pre post :
  foldr (fun u z => MAXOPBLOCKS - u + z) 0 (pre ++ post) =
  foldr (fun u z => MAXOPBLOCKS - u + z) 0 pre + foldr (fun u z => MAXOPBLOCKS - u + z) 0 post.
Proof. induction pre; simpl; lia. Qed.

Lemma begin_op_run s used hs :
  reserved s used hs ->
  if decide (lh_n s + (log_outstanding s + 1) * MAXOPBLOCKS > LOGBLOCKS)
  then begin_op s = Blocked log_chan s
  else exists s', begin_op s = Ok tt s' /\ reserved s' (0 :: used) hs /\ cache s' = cache s.
Proof.
  intros [Hf Hc Hco Ho Hu Hl Hn Hs Hnd Hsp]. unfold begin_op.
  case_decide as Hfull; rewrite acquire_log by done; unfold gets; unfold bind at 1;
    change (log_committing (taken _ s)) with (log_committing s); rewrite Hco, decide_False by lia;
    do 2 unfold bind at 1; change (lh_n (taken _ s)) with (lh_n s);
    change (log_outstanding (taken _ s)) with (log_outstanding s).
  - rewrite decide_True by done. by rewrite (bind_ok _ _ _ _ _ (release_taken the_log_lock s Hc Hf)).
  - rewrite decide_False by done. unfold modify, bind at 1. set (s1 := with_outstanding (log_outstanding s + 1) s).
    change (with_outstanding (log_outstanding s + 1) (taken the_log_lock s)) with (taken the_log_lock s1).
    assert (cpu_ok (get_cpu s1)) as Hc1 by exact Hc.
    rewrite (release_taken the_log_lock s1 Hc1 Hf). exists s1. split; [done|]. split; [|done].
    pose proof (remaining_bound used Hu) as Hb. split; try done.
    + change (log_outstanding s1) with (log_outstanding s + 1). rewrite Ho. simpl. lia.
    + apply Forall_cons. split; [unfold MAXOPBLOCKS; lia|done].
    + change (lh_n s1) with (lh_n s). simpl. rewrite Ho in Hfull. lia.
Qed.

(** The search of log_write. *)
Lemma find_slot bs hs n b s :
  slots bs 0 hs -> n = Z.of_nat (length hs) ->
  exists o, for_until (zrange 0 n) (fun i =>
      if decide (arr_get bs i = Some b) then ret (Some i) else ret None) s = Ok o s /\
    match o with
    | Some i => 0 <= i < n /\ arr_get bs i = Some b /\ b ∈ hs
    | None => b ∉ hs
    end.
Proof.
  intros Hs ->. destruct (first_split (fun i => arr_get bs i = Some b) (zrange 0 (Z.of_nat (length hs))))
    as [Hno|(l1 & i & l2 & E & Hi & Hbefore)].
  - exists None. split.
    + apply for_until_none. intros i Hin. by rewrite decide_False by by apply Hno.
    + intros Hin. apply list_elem_of_lookup in Hin as [k Hk]. pose proof (lookup_lt_Some _ _ _ Hk).
      apply (Hno (Z.of_nat k)); [apply elem_of_zrange; lia|]. specialize (Hs k b Hk).
      by replace (0 + Z.of_nat k) with (Z.of_nat k) in Hs by lia.
  - exists (Some i). split.
    + rewrite E. apply for_until_found; [|by rewrite decide_True].
      intros j Hj. by rewrite decide_False by by apply Hbefore.
    + assert (i ∈ zrange 0 (Z.of_nat (length hs))) as Hin by (rewrite E; apply elem_of_app; right; left).
      apply elem_of_zrange in Hin. split; [done|]. split; [done|].
      destruct (lookup_lt_is_Some_2 hs (Z.to_nat i)) as [h Hh]; [lia|]. specialize (Hs _ _ Hh).
      replace (0 + Z.of_nat (Z.to_nat i)) with i in Hs by lia. rewrite Hi in Hs. simplify_eq.
      apply list_elem_of_lookup. by eexists.
Qed.

Lemma slots_snoc bs hs b bs' :
  slots bs 0 hs -> arr_set bs (Z.of_nat (length hs)) b = Some bs' -> slots bs' 0 (hs ++ [b]).
Proof.
  intros Hs Hset i h Hi. rewrite (arr_get_set _ _ _ _ _ Hset). apply lookup_app_Some in Hi as [Hi|[Hle Hi]].
  - pose proof (lookup_lt_Some _ _ _ Hi). rewrite decide_False by lia. by apply Hs.
  - apply list_lookup_singleton_Some in Hi as [Hi ->]. by rewrite decide_True by lia.
Qed.

Lemma arr_set_same {A} (bs : list A) i b : arr_get bs i = Some b -> arr_set bs i b = Some bs.
Proof.
  intros Hi. rewrite arr_set_Some by by eapply arr_get_range. apply arr_get_Some in Hi as [_ Hi].
  by rewrite list_insert_id.
Qed.

(** An operation with blocks left to use logs a block: once, pinning it the first time. *)
Lemma log_write_run s pre u post hs d P b n r h x :
  reserved s (pre ++ u :: post) hs -> u < MAXOPBLOCKS ->
  crep (cache s) d P -> cnames (cache s) b n -> P !! n = Some (mkPin r h x) -> r + 1 < 2 ^ 32 ->
  exists s' u', log_write b s = Ok tt s' /\ u' <= u + 1 /\
    reserved s' (pre ++ u' :: post) (if decide (n ∈ hs) then hs else hs ++ [n]) /\
    crep (cache s') d (if decide (n ∈ hs) then P else <[n := mkPin (r + 1) h x]> P).
Proof.
  intros [Hf Hc Hco Ho Hu Hl Hn Hs Hnd Hsp] Hlt Hr Hnm HP Hr1.
  rewrite remaining_app in Hsp. simpl in Hsp. apply Forall_app in Hu as [Hu1 Hu2].
  apply Forall_cons in Hu2 as [Hu Hu2].
  pose proof (remaining_bound pre Hu1) as Hb1. pose proof (remaining_bound post Hu2) as Hb2.
  unfold log_write. rewrite acquire_log by done. unfold gets at 1, bind at 1.
  change (lh_n (taken _ s)) with (lh_n s). rewrite decide_False by lia.
  unfold gets at 1, bind at 1. change (log_outstanding (taken _ s)) with (log_outstanding s).
  rewrite decide_False by (rewrite Ho, length_app; simpl; lia).
  set (c1 := set_cpu (cpu_push (get_cpu (cache s))) (cache s)).
  assert (crep c1 d P) as Hr' by (by apply c_rep_set_cpu, cpu_push_ok).
  assert (cnames c1 b n) as Hnm' by (by apply c_names_set_cpu).
  destruct (c_names_pin c1 d P b n Hr' Hnm') as (r' & h' & Hrr & HP' & Hbn).
  assert (0 < r) as Hr0 by (rewrite HP in HP'; injection HP'; intros; subst; lia). clear HP' Hrr r' h'.
  unfold gets at 1, bind at 1. change (cache (taken _ s)) with c1. rewrite Hbn.
  unfold gets at 1, bind at 1. change (lh_block (taken _ s)) with (lh_block s).
  destruct (find_slot (lh_block s) hs (lh_n s) n (taken the_log_lock s) Hs Hn) as (o & Hfind & Hfound).
  rewrite (bind_ok _ _ _ _ _ Hfind). clear Hfind. destruct o as [i|]; cbv zeta.
  - change (default (lh_n s) (Some i)) with i. destruct Hfound as (Hi & Hat & Hin). rewrite (decide_True (P := n ∈ hs)) by done.
    rewrite (decide_True (P := n ∈ hs)) by done.
    rewrite (bind_ok _ _ _ tt (taken the_log_lock s)).
    2: { unfold set_block_at, gets, bind. change (lh_block (taken _ s)) with (lh_block s).
         rewrite arr_set_same by done. unfold from_option, ret, modify. by destruct s. }
    rewrite decide_False by lia. unfold ret at 1, bind at 1.
    rewrite (release_taken the_log_lock s Hc Hf). exists s, u. split; [done|]. split; [lia|]. split; [|done].
    split; try done. { apply Forall_app. split; [done|]. by apply Forall_cons. }
    rewrite remaining_app. simpl. lia.
  - change (default (lh_n s) None) with (lh_n s). rewrite (decide_False (P := n ∈ hs)) by done. rewrite (decide_False (P := n ∈ hs)) by done.
    destruct (arr_set (lh_block s) (lh_n s) n) as [bs'|] eqn:Hset.
    2: { rewrite arr_set_Some in Hset; [done|]. rewrite Hl. unfold LOGBLOCKS in *. lia. }
    rewrite (bind_ok _ _ _ tt (with_block bs' (taken the_log_lock s))).
    2: { unfold set_block_at, gets, bind. change (lh_block (taken _ s)) with (lh_block s). by rewrite Hset. }
    rewrite decide_True by done.
    destruct (c_bpin_ok c1 d P b n r h x Hr' Hnm' HP) as (c2 & Hpin & Hc2 & Hg2); [lia|lia|].
    assert (get_cpu c2 = cpu_push (get_cpu (cache s))) as Hcpu2.
    { rewrite (cg_cpu _ _ _ _ Hg2). unfold c1. apply cpu_get_set. }
    rewrite bind_assoc. unfold bpin at 1.
    rewrite (bind_ok _ _ _ tt (with_cache c2 (with_block bs' (taken the_log_lock s)))).
    2: { unfold in_cache. change (cache (with_block bs' (taken the_log_lock s))) with c1. by rewrite Hpin. }
    unfold modify, bind at 1. set (s2 := with_n (lh_n s + 1) _).
    rewrite (release_run the_log_lock s2 (get_cpu (cache s))); [|exact Hc|exact Hcpu2|done|].
    2: { unfold s2. simpl. f_equal. rewrite (cg_me _ _ _ _ Hg2). unfold c1. by rewrite me_set_cpu. }
    eexists _, (u + 1). split; [done|]. split; [lia|]. split; [|by apply c_rep_set_cpu].
    pose proof (arr_set_length _ _ _ _ Hset) as Hlen. rewrite Hn in Hset.
    split; try done; simpl.
    + by rewrite cpu_get_set.
    + rewrite Ho, !length_app. done.
    + apply Forall_app. split; [done|]. apply Forall_cons. split; [lia|done].
    + by rewrite Hlen.
    + rewrite length_app, Hn. simpl. lia.
    + by eapply slots_snoc.
    + apply NoDup_app. split; [done|]. split; [|apply NoDup_singleton].
      intros y Hy ->%list_elem_of_singleton. done.
    + rewrite remaining_app. simpl. lia.
Qed.

(** An operation ends while others go on: its reservation is given up, and the waiting
    ones are woken. *)
Lemma end_op_more s pre u post hs :
  reserved s (pre ++ u :: post) hs -> pre ++ post <> [] ->
  exists s', end_op s = Ok tt s' /\ reserved s' (pre ++ post) hs /\ lwoken s' = lwoken s ++ [log_chan] /\
    cache s' = cache s.
Proof.
  intros [Hf Hc Hco Ho Hu Hl Hn Hs Hnd Hsp] Hne. unfold end_op. rewrite acquire_log by done.
  assert (log_outstanding s - 1 = Z.of_nat (length (pre ++ post))) as Ho'.
  { rewrite Ho, !length_app. simpl. lia. }
  unfold gets at 1, bind at 1. unfold modify at 1, bind at 1. unfold gets at 1, bind at 1.
  change (log_committing _) with (log_committing s). change (log_outstanding (taken _ s)) with (log_outstanding s).
  rewrite Hco, decide_False by lia. cbv zeta.
  assert (log_outstanding s - 1 <> 0) as Hnz by (destruct (pre ++ post); simpl in *; [done|lia]).
  rewrite decide_False by done. unfold modify, bind at 1.
  set (s1 := wakeup_log (with_outstanding (log_outstanding s - 1) s)).
  change (wakeup_log (with_outstanding (log_outstanding s - 1) (taken the_log_lock s))) with (taken the_log_lock s1).
  assert (cpu_ok (get_cpu s1)) as Hc1 by exact Hc.
  rewrite (bind_ok _ _ _ _ _ (release_taken the_log_lock s1 Hc1 Hf)). rewrite ?decide_False by done.
  exists s1. split; [done|]. split; [|done]. split; try done.
  - apply Forall_app in Hu as [? Hu]. apply Forall_cons in Hu as [_ ?]. by apply Forall_app.
  - change (lh_n s1) with (lh_n s). rewrite remaining_app in *. simpl in Hsp.
    apply Forall_app in Hu as [_ Hu]. apply Forall_cons in Hu as [? _]. lia.
Qed.

(** C32: The log never overflows: as long as each operation logs at most MAXOPBLOCKS
    blocks, what the operations under way may still log fits in what is left of the log's 30
    blocks.  In every state with that reservation: begin_op either admits the operation and
    keeps the reservation with the new operation's ten blocks, or sleeps on the log's
    channel with the state unchanged, and it never sleeps when no operation is under way and
    the log is empty; log_write of a held block by an operation with blocks left never
    panics, records the block once and pins it the first time only; end_op of an operation
    that is not the last one gives its part back and wakes those that wait. *)
Theorem log_space s used hs :
  reserved s used hs ->
  (if decide (lh_n s + (log_outstanding s + 1) * MAXOPBLOCKS > LOGBLOCKS)
   then begin_op s = Blocked log_chan s /\ (used <> [] \/ hs <> [])
   else exists s', begin_op s = Ok tt s' /\ reserved s' (0 :: used) hs) /\
  (forall pre u post, used = pre ++ u :: post ->
     (u < MAXOPBLOCKS -> forall d P b n r h x,
        crep (cache s) d P -> cnames (cache s) b n -> P !! n = Some (mkPin r h x) -> r + 1 < 2 ^ 32 ->
        exists s' u', log_write b s = Ok tt s' /\ u' <= u + 1 /\
          reserved s' (pre ++ u' :: post) (if decide (n ∈ hs) then hs else hs ++ [n]) /\
          crep (cache s') d (if decide (n ∈ hs) then P else <[n := mkPin (r + 1) h x]> P)) /\
     (pre ++ post <> [] ->
        exists s', end_op s = Ok tt s' /\ reserved s' (pre ++ post) hs /\ lwoken s' = lwoken s ++ [log_chan])).
Proof.
  intros R. split.
  - pose proof (begin_op_run s used hs R) as Hb. case_decide as Hfull.
    + split; [done|]. destruct R as [_ _ _ Ho _ _ Hn _ _ _]. rewrite Ho, Hn in Hfull.
      destruct used as [|? ?]; [|by left]. destruct hs as [|? ?]; [|by right].
      unfold LOGBLOCKS, MAXOPBLOCKS in Hfull. simpl in Hfull. lia.
    + destruct Hb as (s' & ? & ? & _). by exists s'.
  - intros pre u post ->. split.
    + intros Hu d P b n r h x. by apply log_write_run.
    + intros Hne. destruct (end_op_more s pre u post hs R Hne) as (s' & ? & ? & ? & _). by exists s'.
Qed.

(** [f] is a disk that the recovery of [e] goes through: where a second crash may leave it. *)
Definition crash_in_recovery (start : Z) (e f : diskmap) : Prop :=
  exists (t t' : L) ds, length (lh_block t) = Z.to_nat LOGBLOCKS /\ crep (cache t) e ∅ /\
    initlog the_dev start t = Ok tt t' /\ c_history (cache t') = c_history (cache t) ++ ds /\ f ∈ ds.

Lemma crashes_recover start e f :
  log_ok start e -> rtc (crash_in_recovery start) e f ->
  log_ok start f /\ same_fs start (recovered start f) (recovered start e).
Proof.
  intros Hok Hrtc. induction Hrtc as [e|e f g (t & t' & ds & Hl & Hr & Hrun & Hh & Hin) _ IH]; [done|].
  destruct (initlog_run t e start Hl Hr Hok) as (t2 & Hrun2 & _ & _ & Hh2).
  rewrite Hrun in Hrun2. injection Hrun2 as <-. rewrite Hh in Hh2. apply app_inv_head in Hh2 as ->.
  destruct (recovery_disks_recover start e f Hok Hin) as [Hokf Hf]. destruct (IH Hokf) as [Hokg Hg].
  split; [done|]. by rewrite Hg.
Qed.

(** C2: Transactions are atomic across crashes.  When the last file system operation
    ends with a transaction of up to 30 blocks, an empty log on the disk and a buffer to
    spare, end_op commits it: it succeeds, the home blocks on the disk get the logged
    contents, the pins are dropped and the log is empty again.  And if the machine stops at
    any moment of it, leaving any of the disks the commit passes through, and stops again
    any number of times while it recovers, the next boot's initlog succeeds on a cold cache,
    empties the log, and leaves every block outside the log either as it was before the
    transaction or as it is after it, all blocks together. *)
Theorem commit_crash_safe s d P hs xs (start := log_start s) :
  is_free (log_lock s) -> log_committing s = 0 -> log_outstanding s = 1 -> txn s (cache s) d P hs xs ->
  exists s' d' ds,
    end_op s = Ok tt s' /\ lh_n s' = 0 /\ log_outstanding s' = 0 /\ log_committing s' = 0 /\
    crep (cache s') d' (drop_pins hs P) /\ same_fs start d' (puts (zip hs xs) d) /\
    word (disk_block d' start) 0 = 0 /\ c_history (cache s') = c_history (cache s) ++ ds /\
    forall e f (t : L), e ∈ d :: ds -> rtc (crash_in_recovery start) e f ->
      length (lh_block t) = Z.to_nat LOGBLOCKS -> crep (cache t) f ∅ ->
      exists t' f', initlog the_dev start t = Ok tt t' /\ crep (cache t') f' ∅ /\ lh_n t' = 0 /\
        word (disk_block f' start) 0 = 0 /\
        (same_fs start f' d \/ same_fs start f' (puts (zip hs xs) d)).
Proof.
  intros Hf Hc Ho T. pose proof (fun h => txn_out _ _ _ _ _ _ h T) as Hout.
  destruct (end_op_run s d P hs xs Hf Hc Ho T) as (c' & Hrun & Hr & Hm).
  destruct T as [_ _ _ Hroom _ Hpin _ Hint _ _ Hx Hem]. pose proof (Forall2_length _ _ _ Hpin) as Hlen.
  symmetry in Hlen. set (ds := if decide (hs = []) then [] else commit_disks start d hs xs) in *.
  assert (forall e, e ∈ d :: ds -> log_ok start e /\
    (same_fs start (recovered start e) d \/ same_fs start (recovered start e) (puts (zip hs xs) d))) as Hrec.
  { intros e He. apply (commit_disks_recover start d hs xs); try done. unfold ds in He.
    case_decide; [|done]. apply list_elem_of_singleton in He as ->. left. }
  eexists _, _, ds. split; [exact Hrun|]. do 3 (split; [done|]). split; [exact Hr|].
  split; [|split; [|split; [apply (mv_history _ _ _ Hm)|]]].
  - case_decide as Hh; [by subst|]. apply (d_cleared_fs start d hs xs); done.
  - case_decide; [done|]. subst start. rewrite d_cleared_head by done. apply header_cleared. by rewrite header_length.
  - intros e f t He Hcr Hl Ht. destruct (Hrec e He) as [Hok Hfs].
    destruct (crashes_recover start e f Hok Hcr) as [Hokf Hff].
    destruct (initlog_run t f start Hl Ht Hokf) as (t' & Hrun' & Hr' & Hn' & _).
    exists t', (recovered start f). split_and!; try done; [by apply recovered_ok|]. by rewrite Hff.
Qed.
End Runs.

(** ** A machine with one disk *)

Definition boot_log (c : bst) : lst bst :=
  mkLst (mkSpinlock 0 "" None) 0 0 0 0 0 (replicate (Z.to_nat LOGBLOCKS) 0) [] c.

(** A cache as binit leaves it, in which block 50 has then been changed and pinned. *)
Definition new_blk : blk := replicate BWORDS 9.

Lemma pinned_cache : exists c : bst, rep c ∅ {[50 := mkPin 1 false new_blk]}.
Proof.
  destruct (binit_rep 0 1 ∅) as (c & _ & Hr & _).
  pose proof (bread_miss c ∅ ∅ 50 Hr eq_refl) as Hb.
  rewrite decide_True in Hb by (rewrite map_size_empty; unfold NBUF; lia).
  destruct Hb as (i & c1 & _ & Hn1 & Hr1 & Hg1). rewrite insert_empty in Hr1.
  destruct (set_data_rep c1 ∅ _ i 50 1 (disk_block ∅ 50) new_blk Hr1 Hn1) as (Hr2 & Hg2); [apply lookup_singleton_eq|].
  assert (names (bupd i (set_data new_blk) c1) i 50) as Hn2 by (by apply (go_names _ _ _ _ Hg2)).
  rewrite insert_singleton_eq in Hr2.
  destruct (bpin_rep _ ∅ _ i 50 1 true new_blk Hr2 Hn2) as (c3 & _ & Hr3 & Hg3); [apply lookup_singleton_eq|lia|lia|].
  assert (names c3 i 50) as Hn3 by (by apply (go_names _ _ _ _ Hg3)). rewrite insert_singleton_eq in Hr3.
  destruct (brelse_rep c3 ∅ _ i 50 2 new_blk Hr3 Hn3) as (c4 & _ & Hr4 & _); [apply lookup_singleton_eq|lia|].
  exists c4. unfold unref in Hr4. rewrite decide_False in Hr4 by lia. by rewrite insert_singleton_eq in Hr4.
Qed.

Definition one_txn (c : bst) : lst bst :=
  mkLst (mkSpinlock 0 "log" None) 2 1 0 the_dev 1 (50 :: replicate 29 0) [] c.

Lemma one_txn_ok c : rep c ∅ {[50 := mkPin 1 false new_blk]} ->
  txn (B := bufid) (one_txn c) c ∅ {[50 := mkPin 1 false new_blk]} [50] [new_blk].
Proof.
  intros Hr. split; try done.
  - intros [|i] h Hi; [by injection Hi as <-|done].
  - constructor; [|constructor]. exists 1. split; [apply lookup_singleton_eq|lia].
  - apply NoDup_singleton.
  - constructor; [|constructor]. unfold in_int, INT_MIN, INT_MAX. lia.
  - intros b Hb. apply lookup_singleton_ne. unfold in_log, LOGBLOCKS, MAXOPBLOCKS in Hb. simpl in Hb. lia.
  - rewrite map_size_singleton. unfold NBUF. lia.
Qed.

(** One block logged by the only operation. *)
Lemma commit_crash_safe_witness :
  exists c : bst, exists s' d', rep c ∅ {[50 := mkPin 1 false new_blk]} /\ end_op (one_txn c) = Ok tt s' /\
    rep (cache s') d' (drop_pins [50] {[50 := mkPin 1 false new_blk]}) /\
    same_fs 2 d' (puts [(50, new_blk)] ∅).
Proof.
  destruct pinned_cache as [c Hr].
  destruct (commit_crash_safe (one_txn c) ∅ _ [50] [new_blk] (conj eq_refl eq_refl) eq_refl eq_refl (one_txn_ok c Hr))
    as (s' & d' & ds & Hrun & _ & _ & _ & Hr' & Hfs & _).
  exists c, s', d'. split; [exact Hr|]. split; [exact Hrun|]. split; [exact Hr'|exact Hfs].
Defined.

(** No operation under way, then one that ends: the first one is admitted. *)
Lemma log_space_witness :
  exists c : bst, exists s', begin_op (boot_log c) = Ok tt s' /\ reserved s' [0] [].
Proof.
  destruct (binit_rep 0 1 ∅) as (c & _ & Hr & _). exists c.
  destruct (log_space (boot_log c) [] []) as [Hb _].
  - split; try done.
    + exact (rep_cpu _ _ _ Hr).
    + constructor.
  - rewrite decide_False in Hb by (unfold LOGBLOCKS, MAXOPBLOCKS; simpl; lia). exact Hb.
Defined.

(** Three operations of ten blocks each: what begin_op admits at most. *)
Definition full_transaction (blocks : Z) : M (lst bst) unit :=
  in_cache binit ;;
  initlog the_dev 2 ;;
  begin_op ;; begin_op ;; begin_op ;;
  for_each (zrange 50 (50 + blocks)) (fun n =>
    let! b := Log.bread the_dev n in
    log_write b ;;
    Log.brelse b) ;;
  end_op ;; end_op ;; end_op.

Definition outcome {S A} (r : res S A) : res unit A :=
  match r with Ok a _ => Ok a tt | Blocked c _ => Blocked c tt | Fault f => Fault f end.

