(* ===== verification/Fs.v ===== *)
(** * kernel/fs.c: blocks, inodes, directories and paths

    The state is what the log and the buffer cache show of the disk ([blocks], 1024
    bytes each), which blocks the process holds, the operation it is in, and the table
    of inodes.  bread of a block that is already held would wait for itself.  [dirty]
    collects the blocks changed since they were last logged: a change that is still there
    when its block is released is not part of any transaction.  A pointer to an inode is
    its index in the table, a null pointer is [None].  There is one disk, and one process
    runs; the room of the cache and of the log is the business of [Bio] and [Log]. *)

From Stdlib Require Import ZArith Lia.
From stdpp Require Import base numbers list gmap strings.
From S2P Require Import Prelude.
Open Scope Z_scope.

Definition BSIZE : Z := 1024.
Definition FSMAGIC : Z := 270544960.      (* 0x10203040 *)
Definition NDIRECT : Z := 12.
Definition NINDIRECT : Z := 256.
Definition MAXFILE : Z := NDIRECT + NINDIRECT.
Definition IPB : Z := 16.
Definition BPB : Z := BSIZE * 8.
Definition DIRSIZ : nat := 14.
Definition DESIZE : Z := 16.              (* sizeof(struct dirent) *)
Definition NINODE : nat := 50.
Definition ROOTDEV : Z := 1.
Definition ROOTINO : Z := 1.
Definition T_DIR : Z := 1.
Definition SLASH : Z := 47.

(** ** Integers in bytes *)

Fixpoint le (n : nat) (x : Z) : list Z :=
  match n with O => [] | S n' => x mod 256 :: le n' (x / 256) end.
Fixpoint unle (l : list Z) : Z := match l with [] => 0 | b :: l' => b + 256 * unle l' end.

(** The bytes of [l] at [off], and [l] with [bs] there. *)
Definition slice (l : list Z) (off n : Z) : list Z := take (Z.to_nat n) (drop (Z.to_nat off) l).
Definition splice (l : list Z) (off : Z) (bs : list Z) : list Z :=
  take (Z.to_nat off) l ++ bs ++ drop (Z.to_nat off + length bs) l.

(** ** The state *)

Record superblock : Type := mkSb {
  magic : Z; sb_size : Z; nblocks : Z; ninodes : Z; nlog : Z; logstart : Z; inodestart : Z; bmapstart : Z }.

Record inode : Type := mkInode {
  dev : Z; inum : Z; ref : Z; locked : bool; valid : bool;
  type : Z; major : Z; minor : Z; nlink : Z; size : Z; addrs : list Z }.

Definition set_key d i x := mkInode d i 1 (locked x) false (type x) (major x) (minor x) (nlink x) (size x) (addrs x).
Definition set_ref v x := mkInode (dev x) (inum x) v (locked x) (valid x) (type x) (major x) (minor x) (nlink x) (size x) (addrs x).
Definition set_locked v x := mkInode (dev x) (inum x) (ref x) v (valid x) (type x) (major x) (minor x) (nlink x) (size x) (addrs x).
Definition set_valid v x := mkInode (dev x) (inum x) (ref x) (locked x) v (type x) (major x) (minor x) (nlink x) (size x) (addrs x).
Definition set_type v x := mkInode (dev x) (inum x) (ref x) (locked x) (valid x) v (major x) (minor x) (nlink x) (size x) (addrs x).
Definition set_major v x := mkInode (dev x) (inum x) (ref x) (locked x) (valid x) (type x) v (minor x) (nlink x) (size x) (addrs x).
Definition set_minor v x := mkInode (dev x) (inum x) (ref x) (locked x) (valid x) (type x) (major x) v (nlink x) (size x) (addrs x).
Definition set_nlink v x := mkInode (dev x) (inum x) (ref x) (locked x) (valid x) (type x) (major x) (minor x) v (size x) (addrs x).
Definition set_size v x := mkInode (dev x) (inum x) (ref x) (locked x) (valid x) (type x) (major x) (minor x) (nlink x) v (addrs x).
Definition set_addrs v x := mkInode (dev x) (inum x) (ref x) (locked x) (valid x) (type x) (major x) (minor x) (nlink x) (size x) v.

Record fs : Type := mkFs {
  blocks : gmap Z (list Z);      (* as seen through the cache *)
  held : gset Z;                 (* buffers that are locked *)
  dirty : gset Z;                (* changed and not yet logged *)
  ops : Z;                       (* file system operations under way *)
  sb : superblock;
  itable_lock : bool;
  itable : list inode;
  cwd : nat }.

Definition with_blocks v s := mkFs v (held s) (dirty s) (ops s) (sb s) (itable_lock s) (itable s) (cwd s).
Definition with_held v s := mkFs (blocks s) v (dirty s) (ops s) (sb s) (itable_lock s) (itable s) (cwd s).
Definition with_dirty v s := mkFs (blocks s) (held s) v (ops s) (sb s) (itable_lock s) (itable s) (cwd s).
Definition with_ops v s := mkFs (blocks s) (held s) (dirty s) v (sb s) (itable_lock s) (itable s) (cwd s).
Definition with_sb v s := mkFs (blocks s) (held s) (dirty s) (ops s) v (itable_lock s) (itable s) (cwd s).
Definition with_lock v s := mkFs (blocks s) (held s) (dirty s) (ops s) (sb s) v (itable s) (cwd s).
Definition with_itable v s := mkFs (blocks s) (held s) (dirty s) (ops s) (sb s) (itable_lock s) v (cwd s).
Definition with_cwd v s := mkFs (blocks s) (held s) (dirty s) (ops s) (sb s) (itable_lock s) (itable s) v.

(** ** Buffers, as the cache and the log provide them *)

Definition zero_block : list Z := replicate (Z.to_nat BSIZE) 0.
Definition data (b : Z) (s : fs) : list Z := default zero_block (blocks s !! b).

Definition bread (b : Z) : M fs Z := fun s =>
  if decide (b ∈ held s) then Blocked b s else Ok b (with_held ({[b]} ∪ held s) s).
Definition brelse (b : Z) : M fs unit := fun s =>
  if decide (b ∉ held s) then Fault (Panic "brelse")
  else Ok tt (with_held (held s ∖ {[b]}) s).
Definition log_write (b : Z) : M fs unit := fun s =>
  if decide (ops s < 1) then Fault (Panic "log_write outside of trans")
  else if decide (b ∉ held s) then Fault (Undef "buffer not held")
  else Ok tt (with_dirty (dirty s ∖ {[b]}) s).

Definition get_bytes (b off n : Z) : M fs (list Z) := fun s =>
  if decide (b ∈ held s /\ 0 <= off /\ off + n <= BSIZE) then Ok (slice (data b s) off n) s
  else Fault (Undef "read outside a buffer").
Definition put_bytes (b off : Z) (bs : list Z) : M fs unit := fun s =>
  if decide (b ∈ held s /\ 0 <= off /\ off + Z.of_nat (length bs) <= BSIZE) then
    Ok tt (with_dirty ({[b]} ∪ dirty s) (with_blocks (<[b := splice (data b s) off bs]> (blocks s)) s))
  else Fault (Undef "write outside a buffer").
Definition get_int (b off n : Z) : M fs Z := let! l := get_bytes b off n in ret (unle l).
Definition put_int (b off : Z) (n : nat) (x : Z) : M fs unit := put_bytes b off (le n x).

Definition begin_op : M fs unit := modify (fun s => with_ops (ops s + 1) s).
Definition end_op : M fs unit := modify (fun s => with_ops (ops s - 1) s).

(** ** The super block *)

Definition readsb : M fs superblock :=
  let! bp := bread 1 in
  let! l := get_bytes bp 0 32 in
  brelse bp ;;
  let f i := unle (slice l (4 * i) 4) in
  ret (mkSb (f 0) (f 1) (f 2) (f 3) (f 4) (f 5) (f 6) (f 7)).

Definition IBLOCK (i : Z) (s : superblock) : Z := u32 (i / IPB + inodestart s).
Definition BBLOCK (b : Z) (s : superblock) : Z := u32 (b / BPB + bmapstart s).

(** ** Blocks *)

Definition bzero (bno : Z) : M fs unit :=
  let! bp := bread bno in
  put_bytes bp 0 zero_block ;;
  log_write bp ;;
  brelse bp.

(** The test of one bit of a block of the map. *)
Definition try_bit (bp bi : Z) : M fs (option Z) :=
  let m := Z.shiftl 1 (bi mod 8) in
  let! x := get_int bp (bi / 8) 1 in
  if decide (Z.land x m = 0) then
    put_int bp (bi / 8) 1 (Z.lor x m) ;;
    ret (Some bi)
  else ret None.

(** The inner loop, over the bits that stand for the blocks from [b] on. *)
Definition find_free (bp b : Z) : M fs (option Z) :=
  let! sz := gets (fun s => sb_size (sb s)) in
  for_until (zrange 0 (Z.min BPB (sz - b))) (try_bit bp).

Definition balloc_in (b : Z) : M fs (option Z) :=
  let! sbk := gets sb in
  let! bp := bread (BBLOCK b sbk) in
  let! r := find_free bp b in
  match r with
  | Some bi =>
      log_write bp ;;
      brelse bp ;;
      bzero (b + bi) ;;
      ret (Some (b + bi))
  | None => brelse bp ;; ret None
  end.

Definition balloc : M fs Z :=
  let! sbk := gets sb in
  let! r := for_until (zrange 0 ((sb_size sbk + BPB - 1) / BPB)) (fun i => balloc_in (i * BPB)) in
  ret (default 0 r).

Definition bfree (b : Z) : M fs unit :=
  let! sbk := gets sb in
  let! bp := bread (BBLOCK b sbk) in
  let bi := b mod BPB in
  let m := Z.shiftl 1 (bi mod 8) in
  let! x := get_int bp (bi / 8) 1 in
  if decide (Z.land x m = 0) then panic "freeing free block"
  else
    put_int bp (bi / 8) 1 (Z.land x (Z.lnot m)) ;;
    log_write bp ;;
    brelse bp.

(** ** The inode table *)

Definition acquire : M fs unit := fun s => if itable_lock s then Fault (Panic "acquire") else Ok tt (with_lock true s).
Definition release : M fs unit := fun s => if itable_lock s then Ok tt (with_lock false s) else Fault (Panic "release").

Definition iat (ip : nat) : M fs inode := fun s => from_option "inode table index" (itable s !! ip) s.
Definition imod (ip : nat) (f : inode -> inode) : M fs unit :=
  let! x := iat ip in modify (fun s => with_itable (<[ip := f x]> (itable s)) s).

Definition free_inode : inode := mkInode 0 0 0 false false 0 0 0 0 0 (replicate 13 0).
Definition iinit : M fs unit := modify (fun s => with_lock false (with_itable (replicate NINODE free_inode) s)).

(** The scan of iget: the entry of [inum], or the first empty one. *)
Fixpoint iget_scan (d i : Z) (k : nat) (l : list inode) (empty : option nat) : option nat * bool :=
  match l with
  | [] => (empty, false)
  | x :: l' =>
      if decide (ref x > 0 /\ dev x = d /\ inum x = i) then (Some k, true)
      else iget_scan d i (S k) l' (match empty with None => if decide (ref x = 0) then Some k else None | _ => empty end)
  end.

Definition iget (d i : Z) : M fs nat :=
  acquire ;;
  let! l := gets itable in
  match iget_scan d i 0 l None with
  | (Some k, true) => imod k (fun x => set_ref (ref x + 1) x) ;; release ;; ret k
  | (Some k, false) => imod k (set_key d i) ;; release ;; ret k
  | (None, _) => panic "iget: no inodes"
  end.

Definition idup (ip : nat) : M fs nat :=
  acquire ;; imod ip (fun x => set_ref (ref x + 1) x) ;; release ;; ret ip.

Definition acquiresleep (ip : nat) : M fs unit :=
  let! x := iat ip in
  if locked x then block (Z.of_nat ip) else imod ip (set_locked true).
Definition releasesleep (ip : nat) : M fs unit := imod ip (set_locked false).

(** ** Inodes on the disk

    struct dinode: type, major, minor and nlink are shorts at 0, 2, 4 and 6, size an
    integer at 8, addrs thirteen integers from 12 on. *)

Definition DINODE : Z := 64.
Definition dip (i : Z) : Z := (i mod IPB) * DINODE.

Definition get_addrs (bp off : Z) (n : nat) : M fs (list Z) :=
  let! l := get_bytes bp off (4 * Z.of_nat n) in
  ret ((fun i => unle (slice l (4 * i) 4)) <$> zrange 0 (Z.of_nat n)).
Definition put_addrs (bp off : Z) (l : list Z) : M fs unit := put_bytes bp off (l ≫= le 4).

Definition ialloc (d t : Z) : M fs (option nat) :=
  let! sbk := gets sb in
  for_until (zrange 1 (ninodes sbk)) (fun i =>
    let! bp := bread (IBLOCK i sbk) in
    let! ty := get_int bp (dip i) 2 in
    if decide (ty = 0) then
      put_bytes bp (dip i) (replicate (Z.to_nat DINODE) 0) ;;
      put_int bp (dip i) 2 t ;;
      log_write bp ;;
      brelse bp ;;
      let! ip := iget d i in
      ret (Some ip)
    else brelse bp ;; ret None).

Definition iupdate (ip : nat) : M fs unit :=
  let! x := iat ip in
  let! sbk := gets sb in
  let! bp := bread (IBLOCK (inum x) sbk) in
  let d := dip (inum x) in
  put_int bp d 2 (type x) ;;
  put_int bp (d + 2) 2 (major x) ;;
  put_int bp (d + 4) 2 (minor x) ;;
  put_int bp (d + 6) 2 (nlink x) ;;
  put_int bp (d + 8) 4 (size x) ;;
  put_addrs bp (d + 12) (addrs x) ;;
  log_write bp ;;
  brelse bp.

Definition ilock (ip : nat) : M fs unit :=
  let! x := iat ip in
  if decide (ref x < 1) then panic "ilock"
  else
    acquiresleep ip ;;
    if valid x then ret tt
    else
      let! sbk := gets sb in
      let! bp := bread (IBLOCK (inum x) sbk) in
      let d := dip (inum x) in
      let! ty := get_int bp d 2 in
      let! mj := get_int bp (d + 2) 2 in
      let! mn := get_int bp (d + 4) 2 in
      let! nl := get_int bp (d + 6) 2 in
      let! sz := get_int bp (d + 8) 4 in
      let! ad := get_addrs bp (d + 12) 13 in
      imod ip (fun x => mkInode (dev x) (inum x) (ref x) (locked x) (valid x) (i16 ty) (i16 mj) (i16 mn) (i16 nl) sz ad) ;;
      brelse bp ;;
      imod ip (set_valid true) ;;
      if decide (i16 ty = 0) then panic "ilock: no type" else ret tt.

Definition iunlock (ip : nat) : M fs unit :=
  let! x := iat ip in
  if decide (locked x = false \/ ref x < 1) then panic "iunlock" else releasesleep ip.

(** ** The content of inodes *)

Definition bmap_direct (ip : nat) (bn : Z) : M fs Z :=
  let! x := iat ip in
  let! addr := from_option "addrs" (arr_get (addrs x) bn) in
  if decide (addr = 0) then
    let! addr := balloc in
    if decide (addr = 0) then ret 0
    else imod ip (fun x => set_addrs (<[Z.to_nat bn := addr]> (addrs x)) x) ;; ret addr
  else ret addr.

Definition bmap (ip : nat) (bn : Z) : M fs Z :=
  if decide (bn < NDIRECT) then bmap_direct ip bn
  else
    let bn := bn - NDIRECT in
    if decide (bn < NINDIRECT) then
      let! addr := bmap_direct ip NDIRECT in
      if decide (addr = 0) then ret 0
      else
        let! bp := bread addr in
        let! addr := get_int bp (4 * bn) 4 in
        let! addr :=
          (if decide (addr = 0) then
             let! addr := balloc in
             if decide (addr <> 0) then put_int bp (4 * bn) 4 addr ;; log_write bp ;; ret addr
             else ret addr
           else ret addr) in
        brelse bp ;;
        ret addr
    else panic "bmap: out of range".

Definition itrunc (ip : nat) : M fs unit :=
  for_each (zrange 0 NDIRECT) (fun i =>
    let! x := iat ip in
    let! a := from_option "addrs" (arr_get (addrs x) i) in
    if decide (a <> 0) then
      bfree a ;; imod ip (fun x => set_addrs (<[Z.to_nat i := 0]> (addrs x)) x)
    else ret tt) ;;
  let! x := iat ip in
  let! a := from_option "addrs" (arr_get (addrs x) NDIRECT) in
  (if decide (a <> 0) then
     let! bp := bread a in
     for_each (zrange 0 NINDIRECT) (fun j =>
       let! e := get_int bp (4 * j) 4 in
       if decide (e <> 0) then bfree e else ret tt) ;;
     brelse bp ;;
     bfree a ;;
     imod ip (fun x => set_addrs (<[Z.to_nat NDIRECT := 0]> (addrs x)) x)
   else ret tt) ;;
  imod ip (set_size 0) ;;
  iupdate ip.

Definition iput (ip : nat) : M fs unit :=
  acquire ;;
  let! x := iat ip in
  (if decide (ref x = 1 /\ valid x = true /\ nlink x = 0) then
     acquiresleep ip ;;
     release ;;
     itrunc ip ;;
     imod ip (set_type 0) ;;
     iupdate ip ;;
     imod ip (set_valid false) ;;
     releasesleep ip ;;
     acquire
   else ret tt) ;;
  imod ip (fun x => set_ref (ref x - 1) x) ;;
  release.

Definition iunlockput (ip : nat) : M fs unit := iunlock ip ;; iput ip.

Definition ireclaim (d : Z) : M fs unit :=
  let! sbk := gets sb in
  for_each (zrange 1 (ninodes sbk)) (fun i =>
    let! bp := bread (IBLOCK i sbk) in
    let! ty := get_int bp (dip i) 2 in
    let! nl := get_int bp (dip i + 6) 2 in
    let! ip := (if decide (ty <> 0 /\ nl = 0) then let! ip := iget d i in ret (Some ip) else ret None) in
    brelse bp ;;
    match ip with
    | Some ip => begin_op ;; ilock ip ;; iunlock ip ;; iput ip ;; end_op
    | None => ret tt
    end).

(** initlog reads the log of the disk back ([Log.initlog]). *)
Definition fsinit (initlog : superblock -> M fs unit) (d : Z) : M fs unit :=
  let! sbk := readsb in
  modify (with_sb sbk) ;;
  if decide (magic sbk <> FSMAGIC) then panic "invalid file system"
  else initlog sbk ;; ireclaim d.

Record stat : Type := mkStat { st_dev : Z; st_ino : Z; st_type : Z; st_nlink : Z; st_size : Z }.
Definition stati (ip : nat) : M fs stat :=
  let! x := iat ip in ret (mkStat (i32 (dev x)) (inum x) (type x) (nlink x) (size x)).

(** either_copyout: whether the [m] bytes at offset [tot] of the destination can be
    written.  The result is what readi returns and the bytes it has copied. *)
Fixpoint readi_loop (fuel : nat) (ip : nat) (dst : Z -> Z -> bool) (off n tot : Z) (got : list Z) : M fs (Z * list Z) :=
  match fuel with
  | O => fun _ => Fault OutOfFuel
  | S fuel =>
      if decide (tot < n) then
        let! addr := bmap ip (off / BSIZE) in
        if decide (addr = 0) then ret (tot, got)
        else
          let! bp := bread addr in
          let m := Z.min (n - tot) (BSIZE - off mod BSIZE) in
          let! l := get_bytes bp (off mod BSIZE) m in
          if dst tot m then
            brelse bp ;;
            readi_loop fuel ip dst (off + m) n (tot + m) (got ++ l)
          else brelse bp ;; ret (-1, got)
      else ret (tot, got)
  end.

(** A loop over [n] bytes from [off] on takes at most one turn for each block. *)
Definition turns (n : Z) : nat := Z.to_nat (n / BSIZE + 3).

Definition readi (ip : nat) (dst : Z -> Z -> bool) (off n : Z) : M fs (Z * list Z) :=
  let! x := iat ip in
  if decide (off > size x \/ u32 (off + n) < off) then ret (0, [])
  else
    let n := if decide (u32 (off + n) > size x) then size x - off else n in
    readi_loop (turns n) ip dst off n 0 [].

(** either_copyin: the bytes of the [m] at offset [tot] of the source that were copied,
    and whether that is all of them: user memory may end in the middle. *)
Definition source : Type := Z -> Z -> list Z * bool.
Definition kernel_src (l : list Z) : source := fun tot m => (slice l tot m, true).

Fixpoint writei_loop (fuel : nat) (ip : nat) (src : source) (off n tot : Z) : M fs (Z * Z) :=
  match fuel with
  | O => fun _ => Fault OutOfFuel
  | S fuel =>
      if decide (tot < n) then
        let! addr := bmap ip (off / BSIZE) in
        if decide (addr = 0) then ret (tot, off)
        else
          let! bp := bread addr in
          let m := Z.min (n - tot) (BSIZE - off mod BSIZE) in
          let '(l, ok) := src tot m in
          (if decide (l = []) then ret tt else put_bytes bp (off mod BSIZE) l) ;;
          if (ok : bool) then
            log_write bp ;;
            brelse bp ;;
            writei_loop fuel ip src (off + m) n (tot + m)
          else brelse bp ;; ret (tot, off)
      else ret (tot, off)
  end.

Definition writei (ip : nat) (src : source) (off n : Z) : M fs Z :=
  let! x := iat ip in
  if decide (off > size x \/ u32 (off + n) < off) then ret (-1)
  else if decide (u32 (off + n) > MAXFILE * BSIZE) then ret (-1)
  else
    let! (tot, off) := writei_loop (turns n) ip src off n 0 in
    let! x := iat ip in
    (if decide (off > size x) then imod ip (set_size off) else ret tt) ;;
    iupdate ip ;;
    ret tot.

(** ** Directories

    A name is the bytes of a string, with a NUL after the last, or an array of DIRSIZ. *)

Definition ch (l : list Z) (i : nat) : Z := default 0 (l !! i).

Fixpoint strncmp_from (n : nat) (s t : list Z) (i : nat) : Z :=
  match n with
  | O => 0
  | S n => if decide (ch s i <> 0 /\ ch s i = ch t i) then strncmp_from n s t (S i) else ch s i - ch t i
  end.
Definition namecmp (s t : list Z) : Z := strncmp_from DIRSIZ s t 0.

(** strncpy(de.name, name, DIRSIZ): the bytes of the string, then NULs. *)
Fixpoint str_prefix (n : nat) (s : list Z) (i : nat) : list Z :=
  match n with
  | O => []
  | S n => if decide (ch s i = 0) then replicate (S n) 0 else ch s i :: str_prefix n s (S i)
  end.

Definition de_inum (de : list Z) : Z := unle (take 2 de).
Definition de_name (de : list Z) : list Z := drop 2 de.
Definition dirent (i : Z) (name : list Z) : list Z := le 2 i ++ str_prefix DIRSIZ name 0.

Definition whole : Z -> Z -> bool := fun _ _ => true.
Definition entries (sz : Z) : list Z := (fun k => k * DESIZE) <$> zrange 0 ((sz + DESIZE - 1) / DESIZE).

(** The inode and the offset of its entry. *)
Definition dirlookup (dp : nat) (name : list Z) : M fs (option (nat * Z)) :=
  let! x := iat dp in
  if decide (type x <> T_DIR) then panic "dirlookup not DIR"
  else
    for_until (entries (size x)) (fun off =>
      let! (r, de) := readi dp whole off DESIZE in
      if decide (r <> DESIZE) then panic "dirlookup read"
      else if decide (de_inum de = 0) then ret None
      else if decide (namecmp name (de_name de) = 0) then
        let! ip := iget (dev x) (de_inum de) in
        ret (Some (ip, off))
      else ret None).

Definition dirlink (dp : nat) (name : list Z) (i : Z) : M fs Z :=
  let! r := dirlookup dp name in
  match r with
  | Some (ip, _) => iput ip ;; ret (-1)
  | None =>
      let! x := iat dp in
      let! r := for_until (entries (size x)) (fun off =>
        let! (r, de) := readi dp whole off DESIZE in
        if decide (r <> DESIZE) then panic "dirlink read"
        else if decide (de_inum de = 0) then ret (Some off)
        else ret None) in
      let off := default ((size x + DESIZE - 1) / DESIZE * DESIZE) r in
      let! w := writei dp (kernel_src (dirent i name)) off DESIZE in
      if decide (w <> DESIZE) then ret (-1) else ret 0
  end.

(** ** Paths *)

Fixpoint skip_slashes (path : list Z) : list Z :=
  match path with c :: p => if decide (c = SLASH) then skip_slashes p else path | [] => [] end.
Fixpoint take_elem (path : list Z) : list Z * list Z :=
  match path with
  | c :: p => if decide (c <> SLASH) then let '(e, r) := take_elem p in (c :: e, r) else ([], path)
  | [] => ([], [])
  end.

(** The rest of the path, and what is in [name] then. *)
Definition skipelem (path name : list Z) : option (list Z * list Z) :=
  match skip_slashes path with
  | [] => None
  | s =>
      let '(e, r) := take_elem s in
      let name' := if decide (DIRSIZ <= length e)%nat then take DIRSIZ e
                   else e ++ [0] ++ drop (length e + 1) name in
      Some (skip_slashes r, name')
  end.

Fixpoint namex_loop (fuel : nat) (ip : nat) (path : list Z) (parent : bool) (name : list Z) : M fs (option nat * list Z) :=
  match fuel with
  | O => fun _ => Fault OutOfFuel
  | S fuel =>
      match skipelem path name with
      | Some (path, name) =>
          ilock ip ;;
          let! x := iat ip in
          if decide (type x <> T_DIR) then iunlockput ip ;; ret (None, name)
          else if decide (parent = true /\ path = []) then iunlock ip ;; ret (Some ip, name)
          else
            let! next := dirlookup ip name in
            match next with
            | None => iunlockput ip ;; ret (None, name)
            | Some (next, _) => iunlockput ip ;; namex_loop fuel next path parent name
            end
      | None => if parent then iput ip ;; ret (None, name) else ret (Some ip, name)
      end
  end.

Definition namex (path : list Z) (parent : bool) (name : list Z) : M fs (option nat * list Z) :=
  let! ip := (if decide (ch path 0 = SLASH) then iget ROOTDEV ROOTINO
              else let! c := gets cwd in idup c) in
  namex_loop (S (length path)) ip path parent name.

(** [name] is what the local array holds at first. *)
Definition namei (name path : list Z) : M fs (option nat) :=
  let! (ip, _) := namex path false name in ret ip.
Definition nameiparent (path name : list Z) : M fs (option nat * list Z) := namex path true name.
