(* ===== verification/FsBlocks.v ===== *)
(** * kernel/fs.c: buffers and the map of free blocks

    What the operations on a held buffer do to the disk, the layout of the disk, and
    balloc and bfree as operations on the set of blocks in use. *)

From Stdlib Require Import ZArith Lia.
From stdpp Require Import base numbers list gmap strings.
From S2P Require Import Prelude Fs.
Open Scope Z_scope.

(** ** Bytes of lists *)

Definition nthb (l : list Z) (i : Z) : Z := default 0 (l !! Z.to_nat i).
Definition byte (x : Z) : Prop := 0 <= x < 256.

Lemma length_le n x : length (le n x) = n.
Proof. revert x. induction n; intros; simpl; [done|]. by rewrite IHn. Qed.
Lemma le_bytes n x : Forall byte (le n x).
Proof. revert x. induction n; intros; simpl; constructor; [apply Z.mod_pos_bound; lia|done]. Qed.
Lemma unle_le n x : unle (le n x) = x mod 256 ^ Z.of_nat n.
Proof.
  revert x. induction n as [|n IH]; intros x; [by rewrite Z.mod_1_r|].
  cbn [le unle]. rewrite IH, Nat2Z.inj_succ, Z.pow_succ_r by lia.
  rewrite (Z.rem_mul_r x 256) by lia. lia.
Qed.

Lemma length_splice l off bs :
  0 <= off -> off + Z.of_nat (length bs) <= Z.of_nat (length l) -> length (splice l off bs) = length l.
Proof. intros. unfold splice. rewrite !length_app, length_take, length_drop. lia. Qed.

Lemma length_splice_max l off bs :
  0 <= off <= Z.of_nat (length l) ->
  Z.of_nat (length (splice l off bs)) = Z.max (Z.of_nat (length l)) (off + Z.of_nat (length bs)).
Proof. intros. unfold splice. rewrite !length_app, length_take, length_drop. lia. Qed.

Lemma nthb_splice l off bs i :
  0 <= off <= Z.of_nat (length l) -> 0 <= i ->
  nthb (splice l off bs) i =
    if decide (off <= i < off + Z.of_nat (length bs)) then nthb bs (i - off) else nthb l i.
Proof.
  intros. unfold nthb, splice. case_decide; f_equal.
  - rewrite lookup_app_r; rewrite length_take; [|lia]. rewrite lookup_app_l by lia. f_equal. lia.
  - destruct (decide (i < off)).
    + rewrite lookup_app_l by (rewrite length_take; lia). by rewrite lookup_take_lt by lia.
    + rewrite lookup_app_r; rewrite length_take; [|lia]. rewrite lookup_app_r by lia.
      rewrite lookup_drop. f_equal. lia.
Qed.

Lemma length_slice l off n :
  0 <= off -> 0 <= n -> off + n <= Z.of_nat (length l) -> length (slice l off n) = Z.to_nat n.
Proof. intros. unfold slice. rewrite length_take, length_drop. lia. Qed.
Lemma nthb_slice l off n i : 0 <= off -> 0 <= i < n -> nthb (slice l off n) i = nthb l (off + i).
Proof.
  intros. unfold nthb, slice. rewrite lookup_take_lt by lia. rewrite lookup_drop. do 2 f_equal. lia.
Qed.
Lemma slice_one l i : 0 <= i < Z.of_nat (length l) -> slice l i 1 = [nthb l i].
Proof.
  intros. unfold slice, nthb. destruct (lookup_lt_is_Some_2 l (Z.to_nat i)) as [x Hx]; [lia|].
  rewrite Hx. by rewrite (drop_S _ _ _ Hx).
Qed.
Lemma nthb_ext (l k : list Z) :
  length l = length k -> (forall i, 0 <= i < Z.of_nat (length l) -> nthb l i = nthb k i) -> l = k.
Proof.
  intros Hl H. apply list_eq_same_length with (length l); [done|done|].
  intros i x y Hi Hx Hy. specialize (H (Z.of_nat i)). unfold nthb in H. rewrite Nat2Z.id, Hx, Hy in H.
  apply H. lia.
Qed.

Lemma Forall_splice (P : Z -> Prop) l off bs : Forall P l -> Forall P bs -> Forall P (splice l off bs).
Proof. intros. unfold splice. rewrite !Forall_app. split_and!; [by apply Forall_take|done|by apply Forall_drop]. Qed.
Lemma nthb_byte l i : Forall byte l -> byte (nthb l i).
Proof.
  intros H. unfold nthb. destruct (l !! Z.to_nat i) eqn:E; [|by cbv]. by eapply Forall_lookup_1 in E.
Qed.

(** Two adjacent writes are one. *)
Lemma splice_splice l off a b :
  0 <= off <= Z.of_nat (length l) ->
  splice (splice l off a) (off + Z.of_nat (length a)) b = splice l off (a ++ b).
Proof.
  intros. assert (length (a ++ b) = length a + length b)%nat as Hab by apply length_app.
  pose proof (length_splice_max l off a ltac:(lia)) as L1. pose proof (length_splice_max l off (a ++ b) ltac:(lia)) as L2.
  pose proof (length_splice_max (splice l off a) (off + Z.of_nat (length a)) b ltac:(lia)) as L3.
  apply nthb_ext; [lia|]. intros i Hi. rewrite !nthb_splice by lia.
  unfold nthb. repeat case_decide; try lia; try done.
  - rewrite lookup_app_r by lia. do 2 f_equal. lia.
  - rewrite lookup_app_l by lia. done.
Qed.

(** ** Holding, changing and logging a buffer *)

Create Rewrite HintDb buffers.

Definition hold (b : Z) (s : fs) : fs := with_held ({[b]} ∪ held s) s.
Definition dirt (b : Z) (s : fs) : fs := with_dirty ({[b]} ∪ dirty s) s.
Definition setb (b : Z) (c : list Z) (s : fs) : fs := with_blocks (<[b := c]> (blocks s)) s.

Lemma fs_eta s : mkFs (blocks s) (held s) (dirty s) (ops s) (sb s) (itable_lock s) (itable s) (cwd s) = s.
Proof. by destruct s. Qed.

Lemma data_setb b c d s : data d (setb b c s) = if decide (d = b) then c else data d s.
Proof.
  unfold data, setb. simpl. case_decide; subst; [by rewrite lookup_insert_eq|by rewrite lookup_insert_ne].
Qed.
Lemma setb_setb b c d s : setb b c (setb b d s) = setb b c s.
Proof. unfold setb, with_blocks. simpl. by rewrite insert_insert_eq. Qed.

Lemma bread_run b s : b ∉ held s -> bread b s = Ok b (hold b s).
Proof. intros. unfold bread. by rewrite decide_False. Qed.
Lemma brelse_run b s : b ∉ held s -> brelse b (hold b s) = Ok tt s.
Proof.
  intros. unfold brelse. rewrite decide_False by (simpl; set_solver). f_equal.
  unfold with_held, hold. simpl. replace (({[b]} ∪ held s) ∖ {[b]}) with (held s) by set_solver. apply fs_eta.
Qed.
Lemma get_run b off n s :
  b ∈ held s -> 0 <= off -> off + n <= BSIZE -> get_bytes b off n s = Ok (slice (data b s) off n) s.
Proof. intros. unfold get_bytes. by rewrite decide_True. Qed.
Lemma put_run b off bs s :
  b ∈ held s -> 0 <= off -> off + Z.of_nat (length bs) <= BSIZE ->
  put_bytes b off bs s = Ok tt (dirt b (setb b (splice (data b s) off bs) s)).
Proof. intros. unfold put_bytes. by rewrite decide_True. Qed.
Lemma dirt_dirt b s : dirt b (dirt b s) = dirt b s.
Proof. unfold dirt, with_dirty. simpl. f_equal. set_solver. Qed.
Lemma log_run b s :
  b ∈ held s -> 1 <= ops s -> dirty s = ∅ -> log_write b (dirt b s) = Ok tt s.
Proof.
  intros. unfold log_write. simpl. rewrite decide_False by lia. rewrite decide_False by tauto.
  f_equal. unfold with_dirty, dirt. simpl.
  replace (({[b]} ∪ dirty s) ∖ {[b]}) with (dirty s) by set_solver. apply fs_eta.
Qed.

Lemma setb_hold b c d s : setb b c (hold d s) = hold d (setb b c s).
Proof. done. Qed.
Lemma setb_dirt b c d s : setb b c (dirt d s) = dirt d (setb b c s).
Proof. done. Qed.
Lemma data_hold b d s : data b (hold d s) = data b s.
Proof. done. Qed.
Lemma data_dirt b d s : data b (dirt d s) = data b s.
Proof. done. Qed.
#[export] Hint Rewrite setb_hold setb_dirt data_hold data_dirt dirt_dirt : buffers.

Lemma in_hold b s : b ∈ held (hold b s).
Proof. simpl. set_solver. Qed.
#[export] Hint Resolve in_hold : core.

(** ** The layout of the disk *)

(** The boot block, the super block, the log, the inodes, the map of free blocks, and
    from here on the data blocks. *)
Definition data_start (k : superblock) : Z := bmapstart k + (sb_size k - 1) / BPB + 1.

Record layout (k : superblock) : Prop := {
  lay_size : 0 < sb_size k < 2 ^ 31;
  lay_inodes : 0 <= ninodes k /\ 0 <= inodestart k;
  lay_map : inodestart k + ninodes k / IPB < bmapstart k;
  lay_data : data_start k <= sb_size k;
}.

(** The bit of block [b] in the map. *)
Definition used (b : Z) (s : fs) : bool :=
  Z.testbit (nthb (data (BBLOCK b (sb s)) s) (b mod BPB / 8)) (b mod BPB mod 8).

Definition whole_block (l : list Z) : Prop := length l = Z.to_nat BSIZE /\ Forall byte l.

Record disk_ok (s : fs) : Prop := {
  dk_layout : layout (sb s);
  dk_whole b : whole_block (data b s);
  dk_meta b : 0 <= b < data_start (sb s) -> used b s = true;
}.

(** The process is inside an operation, and everything it changed is logged. *)
Definition logged (s : fs) : Prop := 1 <= ops s /\ dirty s = ∅.

Definition mapblock (b : Z) (k : superblock) : Prop := bmapstart k <= b < data_start k.

Lemma BBLOCK_eq b k : layout k -> 0 <= b < sb_size k -> BBLOCK b k = b / BPB + bmapstart k.
Proof.
  intros [Hs [Hn Hi] Hm Hd] Hb. unfold BBLOCK, data_start in *. apply uwrap_small.
  assert (0 <= b / BPB <= (sb_size k - 1) / BPB).
  { split; [apply Z.div_pos; [lia|by cbv]|apply Z.div_le_mono; [by cbv|lia]]. }
  assert (0 <= ninodes k / IPB) by (apply Z.div_pos; [lia|by cbv]).
  change (2 ^ 32) with (2 * 2 ^ 31). lia.
Qed.
Lemma BBLOCK_map b k : layout k -> 0 <= b < sb_size k -> mapblock (BBLOCK b k) k.
Proof.
  intros Hk Hb. rewrite BBLOCK_eq by done. unfold mapblock, data_start.
  assert (0 <= b / BPB <= (sb_size k - 1) / BPB); [|lia].
  split; [apply Z.div_pos; [lia|by cbv]|apply Z.div_le_mono; [by cbv|lia]].
Qed.
Lemma bit_index b : 0 <= b mod BPB / 8 < BSIZE /\ 0 <= b mod BPB mod 8 < 8.
Proof.
  pose proof (Z.mod_pos_bound b BPB ltac:(by cbv)). unfold BPB, BSIZE in *.
  split; [|apply Z.mod_pos_bound; lia]. split; [apply Z.div_pos; lia|]. apply Z.div_lt_upper_bound; lia.
Qed.

Lemma mask_clear x i : 0 <= i -> (Z.land x (Z.shiftl 1 i) = 0 <-> Z.testbit x i = false).
Proof.
  intros Hi. rewrite Z.shiftl_1_l. split; intros H.
  - assert (Z.testbit (Z.land x (2 ^ i)) i = false) as E by (rewrite H; apply Z.testbit_0_l).
    by rewrite Z.land_spec, Z.pow2_bits_true, andb_true_r in E by lia.
  - apply Z.bits_inj'. intros n Hn. rewrite Z.land_spec, Z.testbit_0_l.
    destruct (decide (n = i)) as [->|]; [by rewrite H|].
    rewrite (Z.pow2_bits_false i n) by lia. apply andb_false_r.
Qed.

(** The map after one byte has been written back with bit [b] set to [v]. *)
Definition mark (b x : Z) (s : fs) : fs :=
  let bm := BBLOCK b (sb s) in setb bm (splice (data bm s) (b mod BPB / 8) (le 1 x)) s.
Definition bit_to (v : bool) (b : Z) (s : fs) (x : Z) : Prop :=
  forall j, 0 <= j < 8 ->
    Z.testbit x j = if decide (j = b mod BPB mod 8) then v
                    else Z.testbit (nthb (data (BBLOCK b (sb s)) s) (b mod BPB / 8)) j.

Lemma lor_bit b s :
  bit_to true b s (Z.lor (nthb (data (BBLOCK b (sb s)) s) (b mod BPB / 8)) (Z.shiftl 1 (b mod BPB mod 8))).
Proof.
  intros j Hj. destruct (bit_index b) as [_ ?]. rewrite Z.lor_spec, Z.shiftl_1_l. case_decide; subst.
  - rewrite Z.pow2_bits_true by lia. apply orb_true_r.
  - rewrite Z.pow2_bits_false by lia. apply orb_false_r.
Qed.
Lemma land_bit b s :
  bit_to false b s (Z.land (nthb (data (BBLOCK b (sb s)) s) (b mod BPB / 8)) (Z.lnot (Z.shiftl 1 (b mod BPB mod 8)))).
Proof.
  intros j Hj. destruct (bit_index b) as [_ ?].
  rewrite Z.land_spec, Z.lnot_spec, Z.shiftl_1_l by lia. case_decide; subst.
  - rewrite Z.pow2_bits_true by lia. apply andb_false_r.
  - rewrite Z.pow2_bits_false by lia. apply andb_true_r.
Qed.

Lemma data_mark b x s d : d <> BBLOCK b (sb s) -> data d (mark b x s) = data d s.
Proof. intros. unfold mark. rewrite data_setb. by rewrite decide_False. Qed.

Lemma mark_whole b x s : (forall d, whole_block (data d s)) -> forall d, whole_block (data d (mark b x s)).
Proof.
  intros H d. unfold mark. rewrite data_setb. case_decide; [|done].
  destruct (H (BBLOCK b (sb s))) as [Hl Hb]. destruct (bit_index b) as [? _]. split.
  - rewrite length_splice; [done|lia|]. rewrite Hl, length_le. unfold BSIZE in *. lia.
  - apply Forall_splice; [done|apply le_bytes].
Qed.

Lemma used_mark b c v x s :
  disk_ok s -> 0 <= b < sb_size (sb s) -> 0 <= c < sb_size (sb s) -> bit_to v b s x ->
  used c (mark b x s) = if decide (c = b) then v else used c s.
Proof.
  intros [Hk Hw _] Hb Hc Hx. unfold used. destruct (bit_index b) as [Hb1 Hb2], (bit_index c) as [Hc1 Hc2].
  replace (sb (mark b x s)) with (sb s) by done. unfold mark. rewrite data_setb.
  destruct (decide (BBLOCK c (sb s) = BBLOCK b (sb s))) as [E|E].
  2: { rewrite decide_False; [done|]. by intros ->. }
  destruct (Hw (BBLOCK b (sb s))) as [Hl _]. rewrite E.
  rewrite nthb_splice by (rewrite ?Hl, ?length_le; unfold BSIZE in *; lia).
  rewrite length_le. rewrite !BBLOCK_eq in E by done. 
  assert (c / BPB = b / BPB) as Ed by lia.
  pose proof (Z.div_mod c BPB ltac:(done)) as Dc. pose proof (Z.div_mod b BPB ltac:(done)) as Db.
  pose proof (Z.div_mod (c mod BPB) 8 ltac:(done)) as Dc'. pose proof (Z.div_mod (b mod BPB) 8 ltac:(done)) as Db'.
  destruct (decide (c mod BPB / 8 = b mod BPB / 8)) as [E8|E8].
  - rewrite decide_True by lia. rewrite E8, Z.sub_diag.
    change (nthb (le 1 x) 0) with (x mod 2 ^ 8). rewrite Z.mod_pow2_bits_low by lia. rewrite Hx by lia.
    destruct (decide (c = b)) as [->|Hne]; [by rewrite decide_True|].
    rewrite decide_False; [done|]. intros E'. apply Hne. rewrite Dc, Db, Ed. f_equal. lia.
  - rewrite decide_False by lia. rewrite decide_False; [done|]. intros ->. lia.
Qed.

(** ** Allocating a block *)

Lemma get_byte_run b off s :
  b ∈ held s -> whole_block (data b s) -> 0 <= off < BSIZE -> get_int b off 1 s = Ok (nthb (data b s) off) s.
Proof.
  intros Hb [Hl _] Ho. unfold get_int. rewrite (bind_ok _ _ _ _ _ (get_run b off 1 s Hb ltac:(lia) ltac:(lia))).
  rewrite slice_one by (rewrite Hl; unfold BSIZE in *; lia). unfold ret. f_equal. simpl. lia.
Qed.

(** A block number [b] in the words of the loops: block [i] of the map, bit [bi]. *)
Lemma split_number i bi : 0 <= bi < BPB -> (i * BPB + bi) mod BPB = bi /\ (i * BPB + bi) / BPB = i.
Proof.
  intros. split; [rewrite Z.add_comm, Z.mod_add by done; by apply Z.mod_small|].
  rewrite Z.add_comm, Z.div_add by done. rewrite Z.div_small by done. lia.
Qed.

Lemma try_bit_run s i bi :
  disk_ok s -> 0 <= i -> 0 <= bi < BPB -> i * BPB + bi < sb_size (sb s) ->
  let c := i * BPB + bi in let bp := BBLOCK c (sb s) in
  try_bit bp bi (hold bp s) =
    if used c s then Ok None (hold bp s)
    else Ok (Some bi) (dirt bp (hold bp (mark c (Z.lor (nthb (data bp s) (bi / 8)) (Z.shiftl 1 (bi mod 8))) s))).
Proof.
  intros Hd Hi Hbi Hc c bp. destruct (split_number i bi Hbi) as [Em Ed]. fold c in Em, Ed.
  destruct (bit_index c) as [H1 H2]. rewrite Em in H1, H2. unfold try_bit.
  rewrite (bind_ok _ _ _ _ _ (get_byte_run bp (bi / 8) (hold bp s) (in_hold _ _) (dk_whole _ Hd _) H1)).
  change (data bp (hold bp s)) with (data bp s).
  assert (used c s = Z.testbit (nthb (data bp s) (bi / 8)) (bi mod 8)) as Hu by (unfold used; by rewrite Em).
  destruct (used c s); [rewrite decide_False|rewrite decide_True].
  - done.
  - rewrite mask_clear by lia. congruence.
  - unfold put_int. rewrite (bind_ok _ _ _ _ _ (put_run bp (bi / 8) (le 1 _) _ (in_hold _ _) ltac:(lia) ltac:(rewrite length_le; lia))).
    unfold ret, mark. fold bp. by rewrite Em.
  - apply mask_clear; [lia|congruence].
Qed.

(** What balloc has done when it has chosen block [a]. *)
Record allocates (a : Z) (s s' : fs) : Prop := {
  al_frame : s' = with_blocks (blocks s') s;
  al_range : data_start (sb s) <= a < sb_size (sb s);
  al_free : used a s = false;
  al_ok : disk_ok s';
  al_used b : 0 <= b < sb_size (sb s) -> used b s' = bool_decide (b = a) || used b s;
  al_zero : data a s' = zero_block;
  al_same b : b <> a -> ~ mapblock b (sb s) -> data b s' = data b s;
}.

(** Everything in use: the disk is full. *)
Definition full (s : fs) : Prop := forall b, 0 <= b < sb_size (sb s) -> used b s = true.

(** Buffers of blocks that balloc may touch are not held. *)
Definition may_alloc (s : fs) : Prop :=
  forall b, b ∈ held s -> ~ mapblock b (sb s) /\ (0 <= b < sb_size (sb s) -> used b s = true).

Lemma bzero_run b s :
  b ∉ held s -> logged s -> (forall d, whole_block (data d s)) -> bzero b s = Ok tt (setb b zero_block s).
Proof.
  intros Hb [Ho Hd] Hw. unfold bzero. rewrite (bind_ok _ _ _ _ _ (bread_run _ _ Hb)).
  rewrite (bind_ok _ _ _ _ _ (put_run b 0 zero_block _ (in_hold _ _) ltac:(lia) ltac:(by cbv))).
  rewrite setb_hold, (bind_ok _ _ _ _ _ (log_run b (hold b (setb b _ s)) (in_hold _ _) Ho Hd)).
  rewrite brelse_run by done. f_equal. f_equal. destruct (Hw b) as [Hl _].
  unfold splice. rewrite take_0, drop_ge; [apply app_nil_r|].
  change (data b (hold b s)) with (data b s). rewrite Hl. by cbv.
Qed.

Lemma zero_block_whole : whole_block zero_block.
Proof. split; [done|]. apply Forall_replicate. by cbv. Qed.

Lemma used_setb b d c s : layout (sb s) -> 0 <= b < sb_size (sb s) -> ~ mapblock d (sb s) -> used b (setb d c s) = used b s.
Proof.
  intros Hk Hb Hd. unfold used. replace (sb (setb d c s)) with (sb s) by done.
  rewrite data_setb, decide_False; [done|]. intros E. apply Hd. rewrite <- E. by apply BBLOCK_map.
Qed.

Lemma layout_positive k : layout k -> 0 < bmapstart k /\ 0 < data_start k.
Proof.
  intros [Hs [Hn Hi] Hm Hd]. assert (0 <= ninodes k / IPB) by (apply Z.div_pos; [lia|by cbv]).
  assert (0 <= (sb_size k - 1) / BPB) by (apply Z.div_pos; [lia|by cbv]). unfold data_start. lia.
Qed.

(** Marking a free block and clearing it. *)
Lemma allocates_marked c x s :
  disk_ok s -> 0 <= c < sb_size (sb s) -> used c s = false -> bit_to true c s x ->
  allocates c s (setb c zero_block (mark c x s)).
Proof.
  intros Hd Hc Hu Hx. pose proof (dk_layout _ Hd) as Hk. destruct (layout_positive _ Hk) as [Hp1 Hp2].
  assert (data_start (sb s) <= c) as Hs.
  { destruct (decide (c < data_start (sb s))); [|lia]. rewrite (dk_meta _ Hd) in Hu by lia. done. }
  assert (~ mapblock c (sb s)) as Hm by (unfold mapblock; lia).
  assert (forall b, 0 <= b < sb_size (sb s) ->
            used b (setb c zero_block (mark c x s)) = bool_decide (b = c) || used b s) as HU.
  { intros b Hb. rewrite used_setb by done. rewrite (used_mark c b true) by done.
    by case_decide; case_bool_decide. }
  split; [done|lia|done| |done| |].
  - split; [done| |].
    + intros b. rewrite data_setb. case_decide; [apply zero_block_whole|]. apply mark_whole, Hd.
    + intros b Hb. rewrite HU; [|simpl in Hb; pose proof (lay_data _ Hk); lia].
      rewrite (dk_meta _ Hd b) by done. apply orb_true_r.
  - rewrite data_setb. by rewrite decide_True.
  - intros b Hb Hb'. rewrite data_setb, decide_False by done. apply data_mark.
    intros ->. apply Hb'. by apply BBLOCK_map.
Qed.

Lemma balloc_in_run s i :
  disk_ok s -> logged s -> may_alloc s -> 0 <= i -> i * BPB < sb_size (sb s) ->
  (balloc_in (i * BPB) s = Ok None s /\ forall b, b / BPB = i -> 0 <= b < sb_size (sb s) -> used b s = true) \/
  exists a s', balloc_in (i * BPB) s = Ok (Some a) s' /\ allocates a s s'.
Proof.
  intros Hd [Ho Hdi] Hh Hi Hsz. pose proof (dk_layout _ Hd) as Hk.
  assert (0 < BPB) by (by cbv). assert (0 <= i * BPB) by nia. set (bp := BBLOCK (i * BPB) (sb s)).
  assert (bp ∉ held s) as Hbp by (intros ?%Hh; pose proof (BBLOCK_map (i * BPB) _ Hk ltac:(lia)); tauto).
  assert (forall bi, 0 <= bi < BPB -> i * BPB + bi < sb_size (sb s) -> BBLOCK (i * BPB + bi) (sb s) = bp) as Hsame.
  { intros bi Hbi Hc. unfold bp. rewrite !BBLOCK_eq by (done || lia).
    rewrite (proj2 (split_number i bi Hbi)), Z.div_mul by done. done. }
  eassert (balloc_in (i * BPB) s = bind (find_free bp (i * BPB)) _ (hold bp s)) as Hrun.
  { unfold balloc_in, gets at 1. unfold bind at 1. fold bp. by rewrite (bind_ok _ _ _ _ _ (bread_run _ _ Hbp)). }
  assert (find_free bp (i * BPB) (hold bp s) =
            for_until (zrange 0 (Z.min BPB (sb_size (sb s) - i * BPB))) (try_bit bp) (hold bp s)) as Hff by done.
  destruct (first_split (fun bi => used (i * BPB + bi) s = false) (zrange 0 (Z.min BPB (sb_size (sb s) - i * BPB))))
    as [Hall|(l1 & bi & l2 & Hl & Hfree & Hbefore)].
  - left. rewrite Hrun. rewrite (bind_ok _ _ _ None (hold bp s)).
    2: { rewrite Hff. apply for_until_none. intros bi Hbi. pose proof (Hall bi Hbi). apply elem_of_zrange in Hbi.
         pose proof (try_bit_run s i bi Hd ltac:(lia) ltac:(lia) ltac:(lia)) as T. cbv zeta in T.
         rewrite Hsame in T by lia. rewrite T. by destruct (used (i * BPB + bi) s). }
    rewrite (bind_ok _ _ _ _ _ (brelse_run _ _ Hbp)). split; [done|]. intros b Hb Hbs.
    pose proof (Z.div_mod b BPB ltac:(done)) as D. pose proof (Z.mod_pos_bound b BPB ltac:(by cbv)).
    specialize (Hall (b mod BPB)). rewrite elem_of_zrange in Hall.
    replace (i * BPB + b mod BPB) with b in Hall by lia. destruct (used b s); [done|]. exfalso. apply Hall; [lia|done].
  - right. assert (bi ∈ zrange 0 (Z.min BPB (sb_size (sb s) - i * BPB))) as Hbi by (rewrite Hl; set_solver).
    apply elem_of_zrange in Hbi. set (c := i * BPB + bi) in *.
    set (x := Z.lor (nthb (data bp s) (bi / 8)) (Z.shiftl 1 (bi mod 8))).
    pose proof (try_bit_run s i bi Hd ltac:(lia) ltac:(lia) ltac:(lia)) as T. cbv zeta in T.
    rewrite Hsame in T by lia. fold c x in T. rewrite Hfree in T.
    exists c, (setb c zero_block (mark c x s)). split.
    2: { apply allocates_marked; [done|unfold c in *; lia|done|].
         pose proof (lor_bit c s) as L. unfold c in L. rewrite Hsame in L by lia.
         by rewrite (proj1 (split_number i bi ltac:(lia))) in L. }
    rewrite Hrun.
    rewrite (bind_ok _ _ _ (Some bi) (dirt bp (hold bp (mark c x s)))).
    2: { rewrite Hff, Hl. apply for_until_found; [|done]. intros y Hy. pose proof (Hbefore y Hy) as Hu.
         assert (y ∈ zrange 0 (Z.min BPB (sb_size (sb s) - i * BPB))) as Hy' by (rewrite Hl; set_solver).
         apply elem_of_zrange in Hy'. pose proof (try_bit_run s i y Hd ltac:(lia) ltac:(lia) ltac:(lia)) as T'.
         cbv zeta in T'. rewrite Hsame in T' by lia. rewrite T'. by destruct (used (i * BPB + y) s). }
    rewrite (bind_ok _ _ _ _ _ (log_run bp (hold bp (mark c x s)) (in_hold _ _) Ho Hdi)).
    rewrite (bind_ok _ _ _ _ _ (brelse_run bp (mark c x s) Hbp)).
    assert (c ∉ held (mark c x s)) as Hch by (intros [_ Hc']%Hh; rewrite Hc' in Hfree by (unfold c in *; lia); done).
    rewrite (bind_ok _ _ _ _ _ (bzero_run c (mark c x s) Hch (conj Ho Hdi) (mark_whole _ _ _ (dk_whole _ Hd)))). done.
Qed.

(** A search whose body leaves the state alone until it succeeds. *)
Lemma for_until_cases {S A B} (P : A -> Prop) (Q : B -> S -> Prop) (body : A -> M S (option B)) l s :
  (forall x, x ∈ l -> (body x s = Ok None s /\ P x) \/ exists v s', body x s = Ok (Some v) s' /\ Q v s') ->
  (for_until l body s = Ok None s /\ forall x, x ∈ l -> P x) \/
  exists v s', for_until l body s = Ok (Some v) s' /\ Q v s'.
Proof.
  induction l as [|x l IH]; intros H; [left; split; [done|]; by intros x Hx%not_elem_of_nil|]. simpl.
  destruct (H x ltac:(by left)) as [[Hx HP]|(v & s' & Hx & HQ)].
  - rewrite (bind_ok _ _ _ _ _ Hx). destruct IH as [[Hl HPl]|?]; [|left; split; [done|]|by right].
    { intros y Hy. apply H. by right. }
    intros y [->|Hy]%elem_of_cons; auto.
  - right. exists v, s'. by rewrite (bind_ok _ _ _ _ _ Hx).
Qed.

Lemma balloc_run s :
  disk_ok s -> logged s -> may_alloc s ->
  (balloc s = Ok 0 s /\ full s) \/ exists a s', balloc s = Ok a s' /\ a <> 0 /\ allocates a s s'.
Proof.
  intros Hd Hl Hh. pose proof (dk_layout _ Hd) as Hk. destruct (layout_positive _ Hk) as [_ Hp].
  set (n := (sb_size (sb s) + BPB - 1) / BPB).
  destruct (for_until_cases (fun i => forall b, b / BPB = i -> 0 <= b < sb_size (sb s) -> used b s = true)
              (fun a s' => allocates a s s') (fun i => balloc_in (i * BPB)) (zrange 0 n) s)
    as [[Hn Hall]|(a & s' & Ha & HA)].
  - intros i [Hi Hn]%elem_of_zrange. apply balloc_in_run; try done.
    assert (n * BPB <= sb_size (sb s) + BPB - 1) by (unfold n; rewrite Z.mul_comm; by apply Z.mul_div_le).
    assert (0 < BPB) by (by cbv). nia.
  - left. unfold balloc, gets, bind at 1. rewrite (bind_ok _ _ _ _ _ Hn). split; [done|].
    intros b Hb. apply (Hall (b / BPB)); [|done|done]. apply elem_of_zrange. assert (0 < BPB) by (by cbv).
    split; [by apply Z.div_pos; lia|]. unfold n. apply Z.le_succ_l.
    replace (Z.succ (b / BPB)) with ((b + 1 * BPB) / BPB) by (rewrite Z.div_add by done; lia).
    apply Z.div_le_mono; lia.
  - right. exists a, s'. pose proof (al_range _ _ _ HA). split_and!; [|lia|done].
    unfold balloc, gets, bind at 1. by rewrite (bind_ok _ _ _ _ _ Ha).
Qed.

(** ** Freeing a block *)

Record frees (b : Z) (s s' : fs) : Prop := {
  fr_frame : s' = with_blocks (blocks s') s;
  fr_ok : disk_ok s';
  fr_used c : 0 <= c < sb_size (sb s) -> used c s' = negb (bool_decide (c = b)) && used c s;
  fr_same c : ~ mapblock c (sb s) -> data c s' = data c s;
}.

Lemma bfree_run b s :
  disk_ok s -> logged s -> BBLOCK b (sb s) ∉ held s -> data_start (sb s) <= b < sb_size (sb s) ->
  if used b s then exists s', bfree b s = Ok tt s' /\ frees b s s'
  else bfree b s = Fault (Panic "freeing free block").
Proof.
  intros Hd [Ho Hdi] Hh Hb. pose proof (dk_layout _ Hd) as Hk. destruct (layout_positive _ Hk) as [_ Hp].
  destruct (bit_index b) as [H1 H2]. set (bp := BBLOCK b (sb s)) in *.
  set (x := Z.land (nthb (data bp s) (b mod BPB / 8)) (Z.lnot (Z.shiftl 1 (b mod BPB mod 8)))).
  eassert (bfree b s = _) as ->.
  { unfold bfree, gets at 1. unfold bind at 1. fold bp. rewrite (bind_ok _ _ _ _ _ (bread_run _ _ Hh)).
    rewrite (bind_ok _ _ _ _ _ (get_byte_run bp _ (hold bp s) (in_hold _ _) (dk_whole _ Hd _) H1)). reflexivity. }
  change (data bp (hold bp s)) with (data bp s).
  destruct (used b s) eqn:Hu; unfold used in Hu; fold bp in Hu.
  2: { rewrite decide_True; [done|]. apply mask_clear; [lia|done]. }
  rewrite decide_False by (rewrite mask_clear by lia; congruence). exists (mark b x s). split.
  - unfold put_int. fold x.
    rewrite (bind_ok _ _ _ _ _ (put_run bp (b mod BPB / 8) (le 1 x) (hold bp s) (in_hold _ _) ltac:(lia) ltac:(rewrite length_le; lia))).
    rewrite setb_hold, data_hold.
    rewrite (bind_ok _ _ _ _ _ (log_run bp (hold bp (setb bp _ s)) (in_hold _ _) Ho Hdi)).
    by rewrite brelse_run.
  - pose proof (lay_data _ Hk). assert (0 <= b < sb_size (sb s)) as Hb' by lia.
    assert (forall c, 0 <= c < sb_size (sb s) ->
              used c (mark b x s) = negb (bool_decide (c = b)) && used c s) as HU.
    { intros c Hc. rewrite (used_mark b c false) by (done || apply land_bit). by case_decide; case_bool_decide. }
    split; [done| |done|].
    + split; [done|apply mark_whole, Hd|]. intros c Hc. change (sb (mark b x s)) with (sb s) in Hc.
      rewrite HU by lia. rewrite (dk_meta _ Hd c Hc). rewrite bool_decide_false by lia. done.
    + intros c Hc. apply data_mark. intros ->. apply Hc. by apply BBLOCK_map.
Qed.
