(* ===== verification/FsFile.v ===== *)
(** * kernel/fs.c: files as sequences of bytes

    The blocks that an inode owns, bmap as the function that finds and adds them, and
    readi and writei as reading and writing the bytes of the file. *)

From Stdlib Require Import ZArith Lia.
From stdpp Require Import base numbers list gmap strings.
From S2P Require Import Prelude Fs FsBlocks.
Open Scope Z_scope.

(** ** The blocks of an inode

    Slots 0 to 11 are the direct blocks, slot 12 is the indirect block, and the slots
    after it are its entries. *)

Definition NSLOT : Z := 269.
Definition word (l : list Z) (k : Z) : Z := unle (slice l (4 * k) 4).
Definition slot (x : inode) (s : fs) (j : Z) : Z :=
  if decide (j < 13) then nthb (addrs x) j
  else if decide (nthb (addrs x) 12 = 0) then 0 else word (data (nthb (addrs x) 12) s) (j - 13).
(** The slot of block [k] of the file. *)
Definition dslot (k : Z) : Z := if decide (k < NDIRECT) then k else k + 1.

Record file_ok (x : inode) (s : fs) : Prop := {
  fo_addrs : length (addrs x) = 13%nat;
  fo_slot j : 0 <= j < NSLOT -> slot x s j = 0 \/
    (data_start (sb s) <= slot x s j < sb_size (sb s) /\ used (slot x s j) s = true);
  fo_inj i j : 0 <= i < NSLOT -> 0 <= j < NSLOT -> slot x s i = slot x s j -> slot x s i <> 0 -> i = j;
  fo_size : 0 <= size x <= MAXFILE * BSIZE;
  fo_blocks k : 0 <= k -> k * BSIZE < size x -> slot x s (dslot k) <> 0;
}.

(** No buffer is held, and everything is logged. *)
Definition ready (s : fs) : Prop := logged s /\ held s = ∅.

(** [x'] is [x] with more blocks, that were free; nothing outside the disk and this
    entry of the table has changed. *)
Record evolves (ip : nat) (x : inode) (s : fs) (x' : inode) (s' : fs) : Prop := {
  ev_frame : s' = with_blocks (blocks s') (with_itable (<[ip := x']> (itable s)) s);
  ev_inode : x' = set_addrs (addrs x') x;
  ev_ok : disk_ok s';
  ev_file : file_ok x' s';
  ev_slot j : 0 <= j < NSLOT -> slot x s j <> 0 -> slot x' s' j = slot x s j;
  ev_new j : 0 <= j < NSLOT -> slot x s j = 0 -> slot x' s' j <> 0 -> used (slot x' s' j) s = false;
  ev_used b : 0 <= b < sb_size (sb s) -> used b s = true -> used b s' = true;
}.

(** Moreover no block in use has changed but the map and the indirect block of [x]. *)
Record extends (ip : nat) (x : inode) (s : fs) (x' : inode) (s' : fs) : Prop := {
  ex_ev :> evolves ip x s x' s';
  ex_same b : 0 <= b < sb_size (sb s) -> used b s = true -> ~ mapblock b (sb s) -> b <> slot x s 12 ->
    data b s' = data b s;
}.

Lemma file_evolves_refl ip x s : disk_ok s -> file_ok x s -> itable s !! ip = Some x -> evolves ip x s x s.
Proof.
  intros Hd Hf Hx. split; try done; try (by destruct x).
  rewrite list_insert_id by done. by destruct s.
Qed.

Lemma extends_refl ip x s : disk_ok s -> file_ok x s -> itable s !! ip = Some x -> extends ip x s x s.
Proof. split; [by apply file_evolves_refl|done]. Qed.

Lemma ev_sb ip x s x' s' : evolves ip x s x' s' -> sb s' = sb s.
Proof. intros H. by rewrite (ev_frame _ _ _ _ _ H). Qed.
Lemma ev_itable ip x s x' s' : evolves ip x s x' s' -> itable s' = <[ip := x']> (itable s).
Proof. intros H. by rewrite (ev_frame _ _ _ _ _ H). Qed.
Lemma ev_ready ip x s x' s' : evolves ip x s x' s' -> ready s -> ready s'.
Proof. intros H. by rewrite (ev_frame _ _ _ _ _ H). Qed.
Lemma ev_lookup ip x s x' s' : evolves ip x s x' s' -> itable s !! ip = Some x -> itable s' !! ip = Some x'.
Proof.
  intros H Hx. rewrite (ev_itable _ _ _ _ _ H). apply list_lookup_insert_eq. by eapply lookup_lt_Some.
Qed.

Lemma slot12 x s : slot x s 12 = nthb (addrs x) 12.
Proof. done. Qed.

Lemma file_evolves_trans ip x s x1 s1 x2 s2 :
  file_ok x s -> evolves ip x s x1 s1 -> evolves ip x1 s1 x2 s2 -> evolves ip x s x2 s2.
Proof.
  intros Hf H1 H2. pose proof (ev_sb _ _ _ _ _ H1) as Hsb.
  split; [| |apply H2|apply H2| | |].
  - rewrite (ev_frame _ _ _ _ _ H2) at 1. rewrite (ev_frame _ _ _ _ _ H1).
    unfold with_blocks, with_itable. simpl. by rewrite list_insert_insert_eq.
  - pose proof (ev_inode _ _ _ _ _ H1) as E1. pose proof (ev_inode _ _ _ _ _ H2) as E2.
    rewrite E2 at 1. rewrite E1. done.
  - intros j Hj Hne. pose proof (ev_slot _ _ _ _ _ H1 j Hj Hne) as E.
    rewrite (ev_slot _ _ _ _ _ H2 j Hj); congruence.
  - intros j Hj H0 Hne. destruct (decide (slot x1 s1 j = 0)) as [E|E].
    + pose proof (ev_new _ _ _ _ _ H2 j Hj E Hne) as Hu. apply not_true_is_false. intros Ht.
      destruct (fo_slot _ _ (ev_file _ _ _ _ _ H2) j Hj) as [?|[Hr _]]; [done|].
      rewrite (ev_sb _ _ _ _ _ H2), Hsb in Hr.
      destruct (fo_slot _ _ (ev_file _ _ _ _ _ H2) j Hj) as [?|[Hr' _]]; [done|].
      rewrite (ev_used _ _ _ _ _ H1) in Hu; [done| |done].
      pose proof (layout_positive _ (dk_layout _ (ev_ok _ _ _ _ _ H1))). rewrite Hsb in *. lia.
    + pose proof (ev_slot _ _ _ _ _ H2 j Hj E) as E2. rewrite E2. by apply (ev_new _ _ _ _ _ H1).
  - intros b Hb Hu. apply (ev_used _ _ _ _ _ H2); [by rewrite Hsb|]. by apply (ev_used _ _ _ _ _ H1).
Qed.

Lemma extends_trans ip x s x1 s1 x2 s2 :
  file_ok x s -> extends ip x s x1 s1 -> extends ip x1 s1 x2 s2 -> extends ip x s x2 s2.
Proof.
  intros Hf H1 H2. pose proof (ev_sb _ _ _ _ _ H1) as Hsb. split; [by eapply file_evolves_trans; [|apply H1|apply H2]|].
  intros b Hb Hu Hm Hne.
  rewrite (ex_same _ _ _ _ _ H2), (ex_same _ _ _ _ _ H1); try done; try (by rewrite Hsb).
  - by apply (ev_used _ _ _ _ _ H1).
  - destruct (decide (slot x s 12 = 0)) as [E|E].
    + intros ->. destruct (decide (slot x1 s1 12 = 0)) as [E1|E1]; [by rewrite E, E1 in Hne|].
      rewrite (ev_new _ _ _ _ _ H1 12) in Hu by done. done.
    + by rewrite (ev_slot _ _ _ _ _ H1 12).
Qed.

(** ** bmap *)

Lemma word_range l k : Forall byte l -> 0 <= word l k < 2 ^ 32.
Proof.
  intros H. unfold word, slice. assert (Forall byte (take 4 (drop (Z.to_nat (4 * k)) l))) as F
    by (by apply Forall_take, Forall_drop).
  change (Z.to_nat 4) with 4%nat. remember (take 4 _) as w eqn:E.
  assert (length w <= 4)%nat as Hl by (rewrite E, length_take; lia). clear E H l.
  unfold byte in F. change (2 ^ 32) with 4294967296.
  do 4 (destruct w as [|? w]; [simpl; rewrite ?Forall_cons in F; lia|simpl in Hl]).
  destruct w; [|simpl in Hl; lia]. rewrite !Forall_cons in F. simpl. lia.
Qed.

Lemma word_splice l b a k :
  0 <= b -> 0 <= k -> 4 * b + 4 <= Z.of_nat (length l) -> 4 * k + 4 <= Z.of_nat (length l) ->
  word (splice l (4 * b) (le 4 a)) k = if decide (k = b) then a mod 2 ^ 32 else word l k.
Proof.
  intros. assert (length (splice l (4 * b) (le 4 a)) = length l) as Hl by (apply length_splice; rewrite ?length_le; lia).
  unfold word. case_decide as E.
  - subst. change (2 ^ 32) with (256 ^ Z.of_nat 4). rewrite <- unle_le. f_equal. apply nthb_ext.
    + rewrite length_slice, length_le by lia. done.
    + intros i Hi. rewrite length_slice in Hi by lia.
      rewrite nthb_slice by lia. rewrite nthb_splice by (rewrite ?length_le; lia).
      rewrite length_le. rewrite decide_True by lia. f_equal. lia.
  - f_equal. apply nthb_ext; [by rewrite !length_slice by lia|].
    intros i Hi. rewrite length_slice in Hi by lia. rewrite !nthb_slice by lia.
    rewrite nthb_splice by (rewrite ?length_le; lia). rewrite length_le. by rewrite decide_False by lia.
Qed.
Lemma word_zero k : 0 <= k -> 4 * k + 4 <= BSIZE -> word zero_block k = 0.
Proof.
  intros. unfold word. replace (slice zero_block (4 * k) 4) with [0; 0; 0; 0]; [done|].
  apply nthb_ext; [by rewrite length_slice; [|lia|lia|unfold BSIZE in *; simpl; lia]|].
  intros i Hi. simpl in Hi. rewrite nthb_slice by lia. unfold nthb, zero_block.
  rewrite lookup_replicate_2 by (unfold BSIZE in *; lia).
  assert (i = 0 \/ i = 1 \/ i = 2 \/ i = 3) as [-> | [-> | [-> | ->]]] by lia; done.
Qed.

Lemma get_word_run b k s :
  b ∈ held s -> 0 <= k -> 4 * k + 4 <= BSIZE -> get_int b (4 * k) 4 s = Ok (word (data b s) k) s.
Proof. intros. unfold get_int. by rewrite (bind_ok _ _ _ _ _ (get_run b (4 * k) 4 s H ltac:(lia) ltac:(lia))). Qed.

Lemma iat_run ip s x : itable s !! ip = Some x -> iat ip s = Ok x s.
Proof. intros H. unfold iat. by rewrite H. Qed.
Lemma imod_run ip f s x :
  itable s !! ip = Some x -> imod ip f s = Ok tt (with_itable (<[ip := f x]> (itable s)) s).
Proof. intros H. unfold imod. by rewrite (bind_ok _ _ _ _ _ (iat_run _ _ _ H)). Qed.

Lemma addr_get x j : length (addrs x) = 13%nat -> 0 <= j < 13 -> arr_get (addrs x) j = Some (nthb (addrs x) j).
Proof.
  intros Hl Hj. destruct (arr_get_lt (addrs x) j) as [a Ha]; [lia|]. rewrite Ha. f_equal.
  apply arr_get_Some in Ha as [_ Ha]. unfold nthb. by rewrite Ha.
Qed.
Lemma nthb_insert (l : list Z) i j a :
  0 <= i < Z.of_nat (length l) -> 0 <= j -> nthb (<[Z.to_nat i := a]> l) j = if decide (j = i) then a else nthb l j.
Proof.
  intros Hi Hj. unfold nthb. case_decide; subst; [by rewrite list_lookup_insert_eq by lia|].
  by rewrite list_lookup_insert_ne by lia.
Qed.

(** A slot in use is a data block, apart from the map. *)
Lemma slot_used x s j :
  disk_ok s -> file_ok x s -> 0 <= j < NSLOT -> slot x s j <> 0 ->
  0 <= slot x s j < sb_size (sb s) /\ used (slot x s j) s = true /\ ~ mapblock (slot x s j) (sb s).
Proof.
  intros Hd Hf Hj Hne. destruct (fo_slot _ _ Hf j Hj) as [?|[Hr Hu]]; [done|].
  destruct (layout_positive _ (dk_layout _ Hd)). unfold mapblock. split_and!; [lia|lia|done|lia].
Qed.

(** A fresh block [a] in slot [j], and no other change. *)
Lemma extends_one ip x s j a s1 x' s' :
  disk_ok s -> file_ok x s -> 0 <= j < NSLOT -> slot x s j = 0 -> allocates a s s1 ->
  s' = with_blocks (blocks s') (with_itable (<[ip := x']> (itable s)) s) -> x' = set_addrs (addrs x') x ->
  length (addrs x') = 13%nat -> disk_ok s' ->
  (forall b, 0 <= b < sb_size (sb s) -> used b s' = used b s1) ->
  (forall b, b <> slot x s 12 -> data b s' = data b s1) ->
  (forall i, 0 <= i < NSLOT -> slot x' s' i = if decide (i = j) then a else slot x s i) ->
  extends ip x s x' s' /\ slot x' s' j = a.
Proof.
  intros Hd Hf Hj H0 [Hfr Hr Hfree Hok Hu Hz Hs] Hfr' Hx' Hl Hd' HU HD HS.
  destruct (layout_positive _ (dk_layout _ Hd)) as [Hp1 Hp2].
  assert (sb s' = sb s) as Hsb by (by rewrite Hfr'). assert (size x' = size x) as Hsz by (by rewrite Hx').
  split; [|rewrite HS by done; by rewrite decide_True].
  split; [split; [done|done|done| | | |]|].
  - split; [done| | |rewrite Hsz; apply Hf|].
    + intros i Hi. rewrite HS, Hsb by done. case_decide; [right|].
      * split; [lia|]. rewrite HU, Hu by lia. by rewrite bool_decide_true.
      * destruct (fo_slot _ _ Hf i Hi) as [?|[? Hu']]; [by left|right]. split; [done|].
        rewrite HU, Hu by lia. rewrite Hu'. apply orb_true_r.
    + intros i i' Hi Hi'. rewrite !HS by done. repeat case_decide; subst; try done.
      * intros E _. exfalso. destruct (slot_used x s i' Hd Hf Hi') as (_ & ? & _); [|congruence]. rewrite <- E. lia.
      * intros E Hne. exfalso. destruct (slot_used x s i Hd Hf Hi Hne) as (_ & ? & _). congruence.
      * by apply Hf.
    + intros k Hk Hks. rewrite Hsz in Hks. assert (0 <= dslot k < NSLOT) as Hds.
      { pose proof (fo_size _ _ Hf).
        unfold dslot, NSLOT, MAXFILE, NDIRECT, NINDIRECT, BSIZE in *. case_decide; lia. }
      rewrite HS by done. case_decide; [lia|]. by apply Hf.
  - intros i Hi Hne. rewrite HS by done. case_decide; [congruence|done].
  - intros i Hi Hi0. rewrite HS by done. case_decide; [|done]. by intros _.
  - intros b Hb Hub. rewrite HU, Hu by done. rewrite Hub. apply orb_true_r.
  - intros b Hb Hub Hm Hne. rewrite HD by done. apply Hs; [congruence|done].
Qed.

(** A block is put into slot [j], one of addrs. *)
Lemma extends_direct ip x s j a s1 :
  disk_ok s -> file_ok x s -> 0 <= j < 13 -> slot x s j = 0 -> allocates a s s1 ->
  let x' := set_addrs (<[Z.to_nat j := a]> (addrs x)) x in
  let s' := with_itable (<[ip := x']> (itable s)) s1 in
  extends ip x s x' s' /\ slot x' s' j = a.
Proof.
  intros Hd Hf Hj H0 HA x' s'. pose proof (fo_addrs _ _ Hf) as Hl. pose proof (al_range _ _ _ HA) as Hr.
  destruct (layout_positive _ (dk_layout _ Hd)) as [Hp1 Hp2].
  apply (extends_one ip x s j a s1); try done; [unfold NSLOT; lia| | |by destruct (al_ok _ _ _ HA)|].
  - unfold s'. rewrite (al_frame _ _ _ HA) at 1. done.
  - change (addrs x') with (<[Z.to_nat j := a]> (addrs x)). by rewrite length_insert.
  - intros i Hi. unfold slot. change (addrs x') with (<[Z.to_nat j := a]> (addrs x)).
    rewrite !nthb_insert by lia. destruct (decide (i < 13)) as [Hi'|Hi']; [done|].
    rewrite (decide_False (P := i = j)) by lia. destruct (decide (12 = j)) as [E|E].
    + subst j. unfold slot in H0. simpl in H0. rewrite H0. rewrite decide_False by lia. simpl.
      change (data a s') with (data a s1). rewrite (al_zero _ _ _ HA). apply word_zero; unfold NSLOT, BSIZE in *; lia.
    + case_decide as E12; [done|]. destruct (slot_used x s 12 Hd Hf ltac:(by cbv) E12) as (? & Hu12 & Hm12).
      rewrite slot12 in *. change (data (nthb (addrs x) 12) s') with (data (nthb (addrs x) 12) s1).
      rewrite (al_same _ _ _ HA); [done| |done]. intros Ea. pose proof (al_free _ _ _ HA). congruence.
Qed.

(** A block is entered into the indirect block. *)
Lemma extends_indirect ip x s k a s1 :
  disk_ok s -> file_ok x s -> itable s !! ip = Some x -> slot x s 12 <> 0 ->
  0 <= k < NINDIRECT -> slot x s (13 + k) = 0 -> allocates a s s1 ->
  let ind := slot x s 12 in
  let s' := setb ind (splice (data ind s1) (4 * k) (le 4 a)) s1 in
  extends ip x s x s' /\ slot x s' (13 + k) = a.
Proof.
  intros Hd Hf Hx Hne Hk H0 HA ind s'. pose proof (al_range _ _ _ HA) as Hr. pose proof (al_ok _ _ _ HA) as Hok.
  destruct (layout_positive _ (dk_layout _ Hd)) as [Hp1 Hp2].
  assert (sb s1 = sb s) as Hsb by (by rewrite (al_frame _ _ _ HA)).
  destruct (slot_used x s 12 Hd Hf ltac:(by cbv) Hne) as (Hri & Hui & Hmi). fold ind in Hri, Hui, Hmi.
  assert (data ind s1 = data ind s) as Hdi.
  { apply (al_same _ _ _ HA); [|done]. intros E. pose proof (al_free _ _ _ HA). congruence. }
  destruct (dk_whole _ Hd ind) as [Hil Hib].
  assert (forall b, 0 <= b < sb_size (sb s) -> used b s' = used b s1) as HU.
  { intros b Hb. unfold s'. apply used_setb; rewrite ?Hsb; try done. by rewrite <- Hsb; apply Hok. }
  unfold NINDIRECT in *. apply (extends_one ip x s (13 + k) a s1); try done.
  - unfold NSLOT. lia.
  - rewrite list_insert_id by done. unfold s'. rewrite (al_frame _ _ _ HA). done.
  - by destruct x.
  - apply Hf.
  - split; [apply Hok| |].
    + intros b. unfold s'. rewrite data_setb. case_decide; [|apply Hok]. rewrite Hdi. split.
      * rewrite length_splice; rewrite ?length_le; [done|lia|rewrite Hil; unfold BSIZE; lia].
      * apply Forall_splice; [done|apply le_bytes].
    + intros b Hb. change (sb s') with (sb s1) in Hb. rewrite Hsb in Hb.
      pose proof (lay_data _ (dk_layout _ Hd)). rewrite HU by lia. apply Hok. by rewrite Hsb.
  - intros b Hb. unfold s'. by rewrite data_setb, decide_False.
  - intros i Hi. unfold slot. unfold NSLOT in *. destruct (decide (i < 13)) as [Hi'|Hi'].
    { by rewrite decide_False by lia. }
    rewrite (decide_False (P := nthb (addrs x) 12 = 0)) by done. change (nthb (addrs x) 12) with ind.
    unfold s'. rewrite data_setb, decide_True by done. rewrite Hdi. rewrite word_splice by (rewrite ?Hil; unfold BSIZE; lia).
    rewrite Z.mod_small by (pose proof (lay_size _ (dk_layout _ Hd)); change (2 ^ 32) with (2 * 2 ^ 31); lia).
    destruct (decide (i = 13 + k)); [by rewrite decide_True by lia|]. rewrite !decide_False by (done || lia). done.
Qed.

Lemma may_alloc_none s : held s = ∅ -> may_alloc s.
Proof. intros H b. rewrite H. set_solver. Qed.

Lemma bmap_direct_run ip x s j :
  disk_ok s -> ready s -> itable s !! ip = Some x -> file_ok x s -> 0 <= j < 13 ->
  (bmap_direct ip j s = Ok 0 s /\ full s) \/
  exists a x' s', bmap_direct ip j s = Ok a s' /\ a <> 0 /\ extends ip x s x' s' /\ slot x' s' j = a.
Proof.
  intros Hd [Hl Hh] Hx Hf Hj. eassert (bmap_direct ip j s = _) as Hrun.
  { unfold bmap_direct. rewrite (bind_ok _ _ _ _ _ (iat_run _ _ _ Hx)).
    rewrite (addr_get x j (fo_addrs _ _ Hf) Hj). cbn [from_option]. unfold bind at 1, ret at 1. reflexivity. }
  rewrite Hrun. clear Hrun.
  assert (slot x s j = nthb (addrs x) j) as Hs by (unfold slot; by rewrite decide_True by lia).
  case_decide as E; [|right; exists (nthb (addrs x) j), x, s; split_and!; [done|done|by apply extends_refl|done]].
  destruct (balloc_run s Hd Hl (may_alloc_none _ Hh)) as [[Hb Hfull]|(a & s1 & Hb & Ha & HA)].
  { left. by rewrite (bind_ok _ _ _ _ _ Hb). }
  right. destruct (extends_direct ip x s j a s1 Hd Hf Hj ltac:(congruence) HA) as [HE HSl].
  eexists a, _, _. split_and!; [|done|exact HE|exact HSl].
  rewrite (bind_ok _ _ _ _ _ Hb), decide_False by done.
  assert (itable s1 = itable s) as Hit by (by rewrite (al_frame _ _ _ HA)).
  rewrite (bind_ok _ _ _ _ _ (imod_run ip _ s1 x ltac:(by rewrite Hit))). by rewrite Hit.
Qed.

(** Allocating while a buffer that is in use is held. *)
Lemma balloc_held d s :
  disk_ok s -> ready s -> ~ mapblock d (sb s) -> used d s = true ->
  (balloc (hold d s) = Ok 0 (hold d s) /\ full s) \/
  exists a s', balloc (hold d s) = Ok a (hold d s') /\ a <> 0 /\ allocates a s s'.
Proof.
  intros Hd [Hl Hh] Hm Hu. assert (disk_ok (hold d s)) as Hd' by (by destruct Hd).
  destruct (balloc_run (hold d s) Hd' Hl) as [[Hb Hfull]|(a & s1 & Hb & Ha & HA)]; [| by left |].
  { intros b Hb. assert (b = d) as -> by (simpl in Hb; rewrite Hh in Hb; set_solver). done. }
  right. exists a, (with_blocks (blocks s1) s). split_and!; [|done|].
  - rewrite Hb. f_equal. by rewrite (al_frame _ _ _ HA).
  - assert (forall b, data b s1 = data b (with_blocks (blocks s1) s)) as HD by done.
    pose proof (al_frame _ _ _ HA) as Hfr. assert (sb s1 = sb s) as Hsb by (by rewrite Hfr).
    assert (forall b, used b s1 = used b (with_blocks (blocks s1) s)) as HU by (intros; unfold used; by rewrite Hsb).
    destruct HA as [_ Hr Hfree Hok HU' Hz Hs]. split; try done; [|intros b Hb'; rewrite <- HU; by apply HU'].
    destruct Hok as [H1 H2 H3]. split; [by rewrite Hsb in H1|done|]. intros b Hb'. rewrite <- HU. apply H3. by rewrite Hsb.
Qed.

Lemma bmap_run ip x s k :
  disk_ok s -> ready s -> itable s !! ip = Some x -> file_ok x s -> 0 <= k < MAXFILE ->
  exists a x' s', bmap ip k s = Ok a s' /\ extends ip x s x' s' /\
    ((a = 0 /\ full s') \/ (a <> 0 /\ slot x' s' (dslot k) = a)).
Proof.
  intros Hd Hr Hx Hf Hk. unfold bmap, dslot. destruct (decide (k < NDIRECT)) as [Hlt|Hge].
  { destruct (bmap_direct_run ip x s k Hd Hr Hx Hf ltac:(unfold NDIRECT in *; lia)) as [[Hb Hfull]|(a & x' & s' & Hb & Ha & HE & HS)].
    - exists 0, x, s. split_and!; [done|by apply extends_refl|by left].
    - exists a, x', s'. split_and!; [done|done|by right]. }
  unfold MAXFILE, NDIRECT, NINDIRECT in *. rewrite decide_True by lia.
  destruct (bmap_direct_run ip x s 12 Hd Hr Hx Hf ltac:(lia)) as [[Hb Hfull]|(ind & x1 & s1 & Hb & Ha & HE & HS)].
  { exists 0, x, s. rewrite (bind_ok _ _ _ _ _ Hb), decide_True by done.
    split_and!; [done|by apply extends_refl|by left]. }
  rewrite (bind_ok _ _ _ _ _ Hb), decide_False by done.
  pose proof (ev_ok _ _ _ _ _ HE) as Hd1. pose proof (ev_file _ _ _ _ _ HE) as Hf1.
  pose proof (ev_ready _ _ _ _ _ HE Hr) as Hr1. pose proof (ev_lookup _ _ _ _ _ HE Hx) as Hx1.
  destruct Hr1 as [[Ho1 Hdi1] Hh1]. assert (ind ∉ held s1) as Hnh by (rewrite Hh1; set_solver).
  rewrite (bind_ok _ _ _ _ _ (bread_run _ _ Hnh)).
  rewrite (bind_ok _ _ _ _ _ (get_word_run ind (k - 12) (hold ind s1) (in_hold _ _) ltac:(lia) ltac:(unfold BSIZE; lia))).
  rewrite data_hold. assert (slot x1 s1 (k + 1) = word (data ind s1) (k - 12)) as Hw.
  { unfold slot. rewrite decide_False by lia. rewrite slot12 in HS. rewrite HS, decide_False by done. f_equal. lia. }
  destruct (decide (word (data ind s1) (k - 12) = 0)) as [E|E].
  2: { unfold bind at 1, ret at 1. rewrite (bind_ok _ _ _ _ _ (brelse_run _ _ Hnh)).
       eexists _, x1, s1. split_and!; [done|done|by right]. }
  assert (slot x1 s1 12 <> 0) as Hne by congruence.
  destruct (slot_used x1 s1 12 Hd1 Hf1 ltac:(by cbv) Hne) as (_ & Hui & Hmi). rewrite HS in Hui, Hmi.
  destruct (balloc_held ind s1 Hd1 (conj (conj Ho1 Hdi1) Hh1) Hmi Hui) as [[Hb2 Hfull]|(a & s2 & Hb2 & Ha2 & HA)].
  { exists 0, x1, s1. unfold bind at 1. rewrite (bind_ok _ _ _ _ _ Hb2). rewrite decide_False by tauto.
    unfold ret at 1. rewrite (bind_ok _ _ _ _ _ (brelse_run _ _ Hnh)). split_and!; [done|done|by left]. }
  assert (slot x1 s1 (13 + (k - 12)) = 0) as H0 by (replace (13 + (k - 12)) with (k + 1) by lia; congruence).
  destruct (extends_indirect ip x1 s1 (k - 12) a s2 Hd1 Hf1 Hx1 Hne ltac:(unfold NINDIRECT; lia) H0 HA) as [HE2 HS2].
  rewrite HS in HE2, HS2. replace (13 + (k - 12)) with (k + 1) in HS2 by lia.
  eexists a, x1, _. split_and!; [|by eapply extends_trans|right; split; [done|exact HS2]].
  assert (ind ∉ held s2 /\ ops s2 = ops s1 /\ dirty s2 = dirty s1) as (Hnh2 & Ho2 & Hdi2) by (by rewrite (al_frame _ _ _ HA)).
  rewrite <- Ho2 in Ho1. rewrite <- Hdi2 in Hdi1.
  unfold bind at 1. rewrite (bind_ok _ _ _ _ _ Hb2). rewrite decide_True by done. unfold put_int.
  rewrite (bind_ok _ _ _ _ _ (put_run ind (4 * (k - 12)) (le 4 a) (hold ind s2) (in_hold _ _) ltac:(lia) ltac:(rewrite length_le; unfold BSIZE; lia))).
  rewrite setb_hold, data_hold.
  rewrite (bind_ok _ _ _ _ _ (log_run ind (hold ind (setb ind _ s2)) (in_hold _ _) Ho1 Hdi1)).
  unfold ret at 1. by rewrite (bind_ok _ _ _ _ _ (brelse_run ind (setb ind _ s2) Hnh2)).
Qed.

(** A block that is there is found, and nothing changes. *)
Lemma bmap_there ip x s k :
  held s = ∅ -> itable s !! ip = Some x -> length (addrs x) = 13%nat -> 0 <= k < MAXFILE ->
  slot x s (dslot k) <> 0 -> bmap ip k s = Ok (slot x s (dslot k)) s.
Proof.
  intros Hh Hx Hl Hk Hne. unfold bmap.
  assert (forall j, 0 <= j < 13 -> nthb (addrs x) j <> 0 -> bmap_direct ip j s = Ok (nthb (addrs x) j) s) as Hdir.
  { intros j Hj Hn. unfold bmap_direct. rewrite (bind_ok _ _ _ _ _ (iat_run _ _ _ Hx)).
    rewrite (addr_get x j Hl Hj). cbn [from_option]. unfold bind at 1, ret at 1. by rewrite decide_False. }
  unfold MAXFILE, dslot, NDIRECT, NINDIRECT in *. destruct (decide (k < 12)) as [E|E].
  - unfold slot in *. rewrite decide_True in * by lia. by apply Hdir; [lia|].
  - rewrite decide_True by lia. unfold slot in *. rewrite decide_False in * by lia. case_decide as E12; [done|].
    rewrite (bind_ok _ _ _ _ _ (Hdir 12 ltac:(lia) E12)), decide_False by done.
    set (ind := nthb (addrs x) 12) in *. assert (ind ∉ held s) as Hnh by (rewrite Hh; set_solver).
    rewrite (bind_ok _ _ _ _ _ (bread_run _ _ Hnh)).
    rewrite (bind_ok _ _ _ _ _ (get_word_run ind (k - 12) (hold ind s) (in_hold _ _) ltac:(lia) ltac:(unfold BSIZE; lia))).
    replace (k + 1 - 13) with (k - 12) in * by lia. rewrite data_hold, decide_False by done.
    unfold bind at 1, ret at 1. by rewrite (bind_ok _ _ _ _ _ (brelse_run _ _ Hnh)).
Qed.

(** ** The bytes of a file *)

Definition fbyte (x : inode) (s : fs) (o : Z) : Z :=
  nthb (data (slot x s (dslot (o / BSIZE))) s) (o mod BSIZE).
Definition content (x : inode) (s : fs) : list Z := fbyte x s <$> zrange 0 (size x).

Lemma length_zrange lo hi : length (zrange lo hi) = Z.to_nat (hi - lo).
Proof. apply length_seqZ. Qed.
Lemma nthb_zrange f lo hi i : 0 <= i < hi - lo -> nthb (f <$> zrange lo hi) i = f (lo + i).
Proof.
  intros H. unfold nthb, zrange. rewrite list_lookup_fmap, lookup_seqZ_lt by lia. simpl. f_equal. lia.
Qed.
Lemma length_content x s : 0 <= size x -> Z.of_nat (length (content x s)) = size x.
Proof. intros. unfold content. rewrite length_fmap, length_zrange. lia. Qed.
Lemma nthb_content x s o : 0 <= o < size x -> nthb (content x s) o = fbyte x s o.
Proof. intros. unfold content. rewrite nthb_zrange by lia. f_equal. Qed.
Lemma slice_content x s off n :
  0 <= off -> 0 <= n -> off + n <= size x -> slice (content x s) off n = fbyte x s <$> zrange off (off + n).
Proof.
  intros. pose proof (length_content x s ltac:(lia)). apply nthb_ext.
  - rewrite length_slice, length_fmap, length_zrange by lia. lia.
  - intros i Hi. rewrite length_slice in Hi by lia. rewrite nthb_slice, nthb_content, nthb_zrange by lia. done.
Qed.

(** The loops of readi and writei: [m] bytes of the block of [off], up to its end. *)
Definition chunk (off left : Z) : Z := Z.min left (BSIZE - off mod BSIZE).
Lemma chunk_bounds off left : 0 < left -> 0 < chunk off left <= left /\ 0 <= off mod BSIZE /\ off mod BSIZE + chunk off left <= BSIZE.
Proof. intros. unfold chunk. pose proof (Z.mod_pos_bound off BSIZE ltac:(by cbv)). lia. Qed.
Lemma chunk_offsets off left i :
  0 <= off -> 0 < left -> 0 <= i < chunk off left ->
  (off + i) / BSIZE = off / BSIZE /\ (off + i) mod BSIZE = off mod BSIZE + i.
Proof.
  intros Ho Hl Hi. destruct (chunk_bounds off left Hl) as (_ & ? & ?).
  pose proof (Z.div_mod off BSIZE ltac:(done)) as D.
  assert (0 <= off mod BSIZE + i < BSIZE) by lia.
  replace (off + i) with ((off mod BSIZE + i) + off / BSIZE * BSIZE) by lia.
  rewrite Z.div_add, Z.mod_add, Z.div_small, Z.mod_small by done. lia.
Qed.

(** The fuel is enough while it covers the bytes that are left. *)
Definition enough (fuel : nat) (off left : Z) : Prop :=
  (1 <= fuel)%nat /\ (left <= 0 \/ off mod BSIZE + left <= BSIZE * (Z.of_nat fuel - 1)).
Lemma enough_turns off n : 0 <= off -> 0 <= n -> enough (turns n) off n.
Proof.
  intros. unfold enough, turns. assert (0 <= n / BSIZE) by (apply Z.div_pos; [lia|by cbv]). split; [lia|right].
  pose proof (Z.mod_pos_bound off BSIZE ltac:(by cbv)). pose proof (Z.div_mod n BSIZE ltac:(done)).
  pose proof (Z.mod_pos_bound n BSIZE ltac:(by cbv)). lia.
Qed.
Lemma enough_step fuel off left :
  0 <= off -> 0 < left -> enough (S fuel) off left -> enough fuel (off + chunk off left) (left - chunk off left).
Proof.
  intros Ho Hl [_ [?|He]]; [lia|]. pose proof (Z.mod_pos_bound off BSIZE ltac:(by cbv)).
  assert (0 < BSIZE) by (by cbv). assert (1 <= fuel)%nat by nia. split; [done|].
  unfold chunk in *. destruct (Z.min_spec left (BSIZE - off mod BSIZE)) as [[? ->]|[? ->]]; [left; lia|right].
  replace ((off + (BSIZE - off mod BSIZE)) mod BSIZE) with 0.
  2: { pose proof (Z.div_mod off BSIZE ltac:(done)) as D.
       replace (off + (BSIZE - off mod BSIZE)) with ((off / BSIZE + 1) * BSIZE) by lia. by rewrite Z.mod_mul. }
  lia.
Qed.

(** ** readi *)

(** The [m] bytes at [o], all of one block. *)
Lemma block_bytes x s off left :
  disk_ok s -> 0 <= off -> 0 < left ->
  slice (data (slot x s (dslot (off / BSIZE))) s) (off mod BSIZE) (chunk off left) =
    fbyte x s <$> zrange off (off + chunk off left).
Proof.
  intros Hd Ho Hl. destruct (chunk_bounds off left Hl) as (? & ? & ?).
  destruct (dk_whole _ Hd (slot x s (dslot (off / BSIZE)))) as [Hlen _].
  assert (off mod BSIZE + chunk off left <= Z.of_nat (length (data (slot x s (dslot (off / BSIZE))) s)))
    by (rewrite Hlen; unfold BSIZE in *; lia).
  apply nthb_ext; [rewrite length_slice, length_fmap, length_zrange by lia; lia|].
  intros i Hi. rewrite length_slice in Hi by lia. rewrite nthb_slice, nthb_zrange by lia.
  destruct (chunk_offsets off left i Ho Hl ltac:(lia)) as [E1 E2]. unfold fbyte. by rewrite E1, E2.
Qed.

(** What is left of the file from [off] on. *)
Definition tail (x : inode) (s : fs) (off n : Z) : list Z := fbyte x s <$> zrange off (off + n).
Lemma tail_split x s off m n : 0 <= m <= n -> tail x s off n = tail x s off m ++ tail x s (off + m) (n - m).
Proof.
  intros. unfold tail. rewrite <- fmap_app. f_equal. rewrite (zrange_split off (off + m)) by lia.
  by replace (off + m + (n - m)) with (off + n) by lia.
Qed.

Lemma block_range x off : 0 <= off < size x -> size x <= MAXFILE * BSIZE -> 0 <= off / BSIZE < MAXFILE /\ off / BSIZE * BSIZE < size x.
Proof.
  intros H Hs. assert (0 < BSIZE) by (by cbv). pose proof (Z.mul_div_le off BSIZE ltac:(done)).
  split; [split; [apply Z.div_pos; lia|apply Z.div_lt_upper_bound; lia]|lia].
Qed.

Lemma readi_loop_run fuel ip x s dst off n tot got :
  disk_ok s -> held s = ∅ -> itable s !! ip = Some x -> file_ok x s ->
  0 <= off -> 0 <= tot <= n -> off + (n - tot) <= size x -> enough fuel off (n - tot) ->
  readi_loop fuel ip dst off n tot got s = Ok (n, got ++ tail x s off (n - tot)) s \/
  exists t m l, dst t m = false /\ l `prefix_of` tail x s off (n - tot) /\
    readi_loop fuel ip dst off n tot got s = Ok (-1, got ++ l) s.
Proof.
  intros Hd Hh Hx Hf. revert off tot got. induction fuel as [|fuel IH]; intros off tot got Ho Ht Hs He.
  { destruct He; lia. }
  cbn [readi_loop]. case_decide as Hlt.
  2: { left. replace (n - tot) with 0 by lia. unfold tail. rewrite zrange_nil by lia.
       rewrite app_nil_r. unfold ret. do 2 f_equal. lia. }
  set (m := chunk off (n - tot)). destruct (chunk_bounds off (n - tot) ltac:(lia)) as (Hm1 & Hm2 & Hm3). fold m in Hm1, Hm3.
  destruct (block_range x off ltac:(lia) (proj2 (fo_size _ _ Hf))) as [Hb1 Hb2].
  pose proof (fo_blocks _ _ Hf (off / BSIZE) ltac:(lia) Hb2) as Hne.
  set (a := slot x s (dslot (off / BSIZE))) in *. assert (a ∉ held s) as Hnh by (rewrite Hh; set_solver).
  pose proof (bmap_there ip x s (off / BSIZE) Hh Hx (fo_addrs _ _ Hf) Hb1 Hne) as Hbm. fold a in Hbm.
  rewrite (bind_ok _ _ _ _ _ Hbm), (decide_False (P := a = 0)) by done.
  rewrite (bind_ok _ _ _ _ _ (bread_run _ _ Hnh)).
  change (Z.min (n - tot) (BSIZE - off mod BSIZE)) with m.
  rewrite (bind_ok _ _ _ _ _ (get_run a (off mod BSIZE) m (hold a s) (in_hold _ _) Hm2 Hm3)).
  rewrite data_hold. pose proof (block_bytes x s off (n - tot) Hd Ho ltac:(lia)) as BB.
  fold a m (tail x s off m) in BB. rewrite BB.
  rewrite (tail_split x s off m (n - tot)) by lia.
  destruct (dst tot m) eqn:Edst.
  2: { right. exists tot, m, []. rewrite (bind_ok _ _ _ _ _ (brelse_run _ _ Hnh)), app_nil_r.
       split_and!; [done|apply prefix_nil|done]. }
  rewrite (bind_ok _ _ _ _ _ (brelse_run _ _ Hnh)).
  replace (n - tot - m) with (n - (tot + m)) by lia.
  destruct (IH (off + m) (tot + m) (got ++ tail x s off m)) as [-> | (t & m' & l & Hf' & Hp & ->)]; try lia.
  - replace (n - (tot + m)) with (n - tot - m) by lia. apply enough_step; [lia|lia|done].
  - left. by rewrite app_assoc.
  - right. exists t, m', (tail x s off m ++ l). rewrite app_assoc. split_and!; [done| |done].
    by apply prefix_app.
Qed.

(** How many bytes there are to read: up to the end of the file. *)
Definition readable (x : inode) (off n : Z) : Z := Z.min n (size x - off).

Lemma readi_run ip x s dst off n :
  disk_ok s -> held s = ∅ -> itable s !! ip = Some x -> file_ok x s -> 0 <= off <= size x -> 0 <= n < 2 ^ 31 ->
  let r := readable x off n in let l := slice (content x s) off r in
  readi ip dst off n s = Ok (r, l) s \/
  exists t m l', dst t m = false /\ l' `prefix_of` l /\ readi ip dst off n s = Ok (-1, l') s.
Proof.
  intros Hd Hh Hx Hf Ho Hn r l. pose proof (fo_size _ _ Hf) as Hsz.
  assert (0 <= r /\ off + r <= size x) as [Hr1 Hr2] by (unfold r, readable; lia).
  assert (u32 (off + n) = off + n) as Hu.
  { apply uwrap_small. unfold MAXFILE, NDIRECT, NINDIRECT, BSIZE in Hsz. change (2 ^ 32) with (2 * 2 ^ 31). lia. }
  eassert (readi ip dst off n s = readi_loop (turns r) ip dst off r 0 [] s) as ->.
  { unfold readi. rewrite (bind_ok _ _ _ _ _ (iat_run _ _ _ Hx)), Hu, decide_False by lia.
    unfold r, readable. case_decide; [rewrite Z.min_r by lia|rewrite Z.min_l by lia]; done. }
  destruct (readi_loop_run (turns r) ip x s dst off r 0 [] Hd Hh Hx Hf) as [-> | (t & m & l' & ? & ? & ->)]; try lia.
  - rewrite Z.sub_0_r. apply enough_turns; lia.
  - left. rewrite Z.sub_0_r. unfold l. rewrite slice_content by lia. done.
  - right. exists t, m, l'. unfold l. rewrite slice_content by lia. rewrite Z.sub_0_r in *. done.
Qed.
