(* ===== verification/FsWrite.v ===== *)
(** * kernel/fs.c: writei and iupdate

    writei as the writing of bytes into a file: the file becomes what it should, no other
    file changes, and a short count means that the disk is full or the source ended. *)

From Stdlib Require Import ZArith Lia.
From stdpp Require Import base numbers list gmap strings.
From S2P Require Import Prelude Fs FsBlocks FsFile.
Open Scope Z_scope.

(** ** Changes to the bytes of a file *)

(** The bytes [lo, hi) of the file are those of [g] now, the others are as before, and no
    block in use outside the file has changed but the map. *)
Record writes (ip : nat) (x : inode) (s : fs) (x' : inode) (s' : fs) (lo hi : Z) (g : Z -> Z) : Prop := {
  wr_ev :> evolves ip x s x' s';
  wr_other b : 0 <= b < sb_size (sb s) -> used b s = true -> ~ mapblock b (sb s) ->
    (forall j, 0 <= j < NSLOT -> b <> slot x s j) -> data b s' = data b s;
  wr_keep o : 0 <= o < MAXFILE * BSIZE -> slot x s (dslot (o / BSIZE)) <> 0 -> ~ (lo <= o < hi) ->
    fbyte x' s' o = fbyte x s o;
  wr_put o : lo <= o < hi -> slot x' s' (dslot (o / BSIZE)) <> 0 /\ fbyte x' s' o = g o;
}.

Lemma dslot_range k : 0 <= k < MAXFILE -> 0 <= dslot k < NSLOT /\ dslot k <> 12.
Proof. unfold dslot, NSLOT, MAXFILE, NDIRECT, NINDIRECT. intros. case_decide; lia. Qed.
Lemma offset_block o : 0 <= o < MAXFILE * BSIZE -> 0 <= o / BSIZE < MAXFILE.
Proof. intros. assert (0 < BSIZE) by (by cbv). split; [apply Z.div_pos; lia|apply Z.div_lt_upper_bound; lia]. Qed.

Lemma writes_nothing ip x s x' s' lo g :
  disk_ok s -> file_ok x s -> extends ip x s x' s' -> writes ip x s x' s' lo lo g.
Proof.
  intros Hd Hf HE. split; [apply HE| | |lia].
  - intros b Hb Hu Hm Hj. apply (ex_same _ _ _ _ _ HE); try done. by apply Hj.
  - intros o Ho Hne _. destruct (dslot_range _ (offset_block _ Ho)) as [Hr H12]. unfold fbyte.
    rewrite (ev_slot _ _ _ _ _ HE) by done. destruct (slot_used _ _ _ Hd Hf Hr Hne) as (? & ? & ?).
    rewrite (ex_same _ _ _ _ _ HE); try done. intros E. apply H12. by apply (fo_inj _ _ Hf).
Qed.

Lemma writes_trans ip x s x1 s1 x2 s2 lo mid hi g :
  disk_ok s -> file_ok x s -> 0 <= lo <= mid -> mid <= hi <= MAXFILE * BSIZE ->
  writes ip x s x1 s1 lo mid g -> writes ip x1 s1 x2 s2 mid hi g -> writes ip x s x2 s2 lo hi g.
Proof.
  intros Hd Hf Hlo Hhi H1 H2. pose proof (ev_sb _ _ _ _ _ H1) as Hsb.
  split; [by eapply file_evolves_trans; [|apply H1|apply H2]| | |].
  - intros b Hb Hu Hm Hj. rewrite (wr_other _ _ _ _ _ _ _ _ H2), (wr_other _ _ _ _ _ _ _ _ H1); try done; try (by rewrite Hsb).
    + by apply (ev_used _ _ _ _ _ H1).
    + intros j Hjr E. destruct (decide (slot x s j = 0)) as [E0|E0].
      * destruct (decide (slot x1 s1 j = 0)); [specialize (Hj j Hjr); congruence|].
        rewrite E in Hu. rewrite (ev_new _ _ _ _ _ H1) in Hu by done. done.
      * rewrite (ev_slot _ _ _ _ _ H1) in E by done. by apply (Hj j).
  - intros o Ho Hne Hout. destruct (dslot_range _ (offset_block _ Ho)) as [Hr _].
    rewrite (wr_keep _ _ _ _ _ _ _ _ H2), (wr_keep _ _ _ _ _ _ _ _ H1); try done; try lia.
    by rewrite (ev_slot _ _ _ _ _ H1).
  - intros o Ho. destruct (decide (o < mid)) as [Hlt|Hge]; [|by apply H2; lia].
    destruct (dslot_range _ (offset_block o ltac:(lia))) as [Hr _].
    destruct (wr_put _ _ _ _ _ _ _ _ H1 o ltac:(lia)) as [Hne Hg].
    rewrite (ev_slot _ _ _ _ _ H2), (wr_keep _ _ _ _ _ _ _ _ H2) by (done || lia). done.
Qed.

(** ** What does not touch a file *)

Lemma file_frame y s s' :
  file_ok y s -> sb s' = sb s ->
  (forall j, 0 <= j < NSLOT -> slot y s j <> 0 ->
     used (slot y s j) s' = true /\ data (slot y s j) s' = data (slot y s j) s) ->
  (forall j, 0 <= j < NSLOT -> slot y s' j = slot y s j) /\ file_ok y s' /\ content y s' = content y s.
Proof.
  intros Hf Hsb Hk.
  assert (forall j, 0 <= j < NSLOT -> slot y s' j = slot y s j) as HS.
  { intros j Hj. unfold slot. case_decide; [done|]. case_decide as E; [done|].
    destruct (Hk 12 ltac:(by cbv) E) as [_ Hd]. rewrite slot12 in Hd. by rewrite Hd. }
  split_and!; [done| |].
  - split; try apply Hf.
    + intros j Hj. rewrite HS, Hsb by done. destruct (decide (slot y s j = 0)) as [E|E]; [by left|right].
      destruct (fo_slot _ _ Hf j Hj) as [?|[? _]]; [done|]. split; [done|]. by apply Hk.
    + intros i j Hi Hj. rewrite !HS by done. by apply Hf.
    + intros k Hk' Hks. rewrite HS; [by apply Hf|]. pose proof (fo_size _ _ Hf).
      apply dslot_range. assert (0 < BSIZE) by (by cbv). nia.
  - unfold content. apply list_fmap_ext. intros i o Ho. apply list_elem_of_lookup_2, elem_of_zrange in Ho.
    destruct (block_range y o Ho (proj2 (fo_size _ _ Hf))) as [Hb1 Hb2]. destruct (dslot_range _ Hb1) as [Hr _].
    unfold fbyte. rewrite HS by done. f_equal. apply Hk; [done|]. apply Hf; lia.
Qed.

(** One piece of the source goes into one block. *)
Lemma writes_block ip x s off left l :
  disk_ok s -> file_ok x s -> itable s !! ip = Some x -> 0 <= off < MAXFILE * BSIZE -> 0 < left ->
  Forall byte l -> Z.of_nat (length l) = chunk off left ->
  let a := slot x s (dslot (off / BSIZE)) in a <> 0 ->
  writes ip x s x (setb a (splice (data a s) (off mod BSIZE) l) s) off (off + chunk off left) (fun o => nthb l (o - off)).
Proof.
  intros Hd Hf Hx Ho Hl Hb Hlen a Hne. set (m := chunk off left) in *.
  destruct (chunk_bounds off left Hl) as (Hm1 & Hm2 & Hm3). fold m in Hm1, Hm3.
  destruct (dslot_range _ (offset_block _ Ho)) as [Hr H12]. destruct (slot_used _ _ _ Hd Hf Hr Hne) as (Hra & Hua & Hma).
  fold a in Hra, Hua, Hma. destruct (dk_whole _ Hd a) as [Hla Hba].
  assert (Z.of_nat (length (data a s)) = BSIZE) as Hla' by (rewrite Hla; unfold BSIZE; lia).
  set (s' := setb a _ s).
  assert (forall b, b <> a -> data b s' = data b s) as HD by (intros b E; unfold s'; by rewrite data_setb, decide_False).
  assert (forall b, 0 <= b < sb_size (sb s) -> used b s' = used b s) as HU.
  { intros b Hbr. apply used_setb; [apply Hd|done|done]. }
  assert (forall j, 0 <= j < NSLOT -> slot x s' j = slot x s j) as HS.
  { intros j Hj. unfold slot. case_decide; [done|]. case_decide as E; [done|]. rewrite HD; [done|].
    intros E'. apply H12. symmetry. apply (fo_inj _ _ Hf); done. }
  assert (disk_ok s') as Hd'.
  { split; [apply Hd| |].
    - intros b. unfold s'. rewrite data_setb. case_decide; [|apply Hd]. split; [|by apply Forall_splice].
      rewrite length_splice; [done|lia|lia].
    - intros b Hbr. pose proof (lay_data _ (dk_layout _ Hd)). change (sb s') with (sb s) in Hbr. rewrite HU by lia. by apply Hd. }
  split.
  - split; try done; [|by destruct x| | | |].
    + rewrite list_insert_id by done. done.
    + split; try apply Hf.
      * intros j Hj. rewrite HS by done. change (sb s') with (sb s).
        destruct (fo_slot _ _ Hf j Hj) as [?|[? ?]]; [by left|right]. split; [done|].
        rewrite HU; [done|]. pose proof (layout_positive _ (dk_layout _ Hd)). lia.
      * intros i j Hi Hj. rewrite !HS by done. by apply Hf.
      * intros k Hk Hks. rewrite HS; [by apply Hf|]. pose proof (fo_size _ _ Hf).
        apply dslot_range. assert (0 < BSIZE) by (by cbv). nia.
    + intros j Hj _. by apply HS.
    + intros j Hj E. by rewrite HS.
    + intros b Hbr. by rewrite HU.
  - intros b _ _ _ Hj. apply HD, Hj. done.
  - intros o Hor Hno Hout. destruct (dslot_range _ (offset_block _ Hor)) as [Hro _]. unfold fbyte. rewrite HS by done.
    destruct (decide (slot x s (dslot (o / BSIZE)) = a)) as [E|E]; [|by rewrite HD].
    rewrite E. unfold s'. rewrite data_setb, decide_True by done.
    pose proof (Z.mod_pos_bound o BSIZE ltac:(by cbv)). rewrite nthb_splice by lia. rewrite Hlen. fold m.
    rewrite decide_False; [done|]. intros Hin. apply Hout.
    apply (fo_inj _ _ Hf) in E; [|done|done|done].
    assert (o / BSIZE = off / BSIZE) as Eq by (unfold dslot in E; repeat case_decide; lia).
    pose proof (Z.div_mod o BSIZE ltac:(done)). pose proof (Z.div_mod off BSIZE ltac:(done)). lia.
  - intros o Hor. destruct (chunk_offsets off left (o - off) ltac:(lia) Hl ltac:(lia)) as [E1 E2].
    replace (off + (o - off)) with o in E1, E2 by lia. rewrite E1. split; [by rewrite HS|].
    unfold fbyte. rewrite E1, HS by done. fold a. unfold s'. rewrite data_setb, decide_True by done.
    rewrite nthb_splice by lia. rewrite Hlen, decide_True by lia. f_equal. lia.
Qed.

(** ** The loop of writei *)

(** The bytes [bs] are there to be copied, or a piece of them is not there at all. *)
Definition delivers (src : source) (bs : list Z) : Prop :=
  forall t m, 0 <= t -> 0 <= m -> t + m <= Z.of_nat (length bs) -> src t m = (slice bs t m, true) \/ src t m = ([], false).
Definition runs_out (src : source) (n : Z) : Prop := exists t m, 0 <= t /\ 0 < m /\ t + m <= n /\ (src t m).2 = false.

Lemma Forall_slice (P : Z -> Prop) l off n : Forall P l -> Forall P (slice l off n).
Proof. intros. unfold slice. by apply Forall_take, Forall_drop. Qed.

Lemma wr_weaken ip x s x' s' lo hi g g' :
  (forall o, lo <= o < hi -> g o = g' o) -> writes ip x s x' s' lo hi g -> writes ip x s x' s' lo hi g'.
Proof.
  intros Hg [H1 H2 H3 H4]. split; try done. intros o Ho. rewrite <- Hg by done. by apply H4.
Qed.

(** A piece that does not end the source ends a block. *)
Lemma chunk_end off left : chunk off left <> left -> (off + chunk off left) mod BSIZE = 0.
Proof.
  unfold chunk. intros H. replace (Z.min _ _) with (BSIZE - off mod BSIZE) by lia.
  pose proof (Z.div_mod off BSIZE ltac:(done)) as D.
  replace (off + (BSIZE - off mod BSIZE)) with ((off / BSIZE + 1) * BSIZE) by lia. by rewrite Z.mod_mul.
Qed.

Lemma writei_loop_run fuel ip src bs : forall x s off tot,
  disk_ok s -> ready s -> itable s !! ip = Some x -> file_ok x s -> delivers src bs -> Forall byte bs ->
  let n := Z.of_nat (length bs) in
  0 <= off -> 0 <= tot <= n -> off + (n - tot) <= MAXFILE * BSIZE -> enough fuel off (n - tot) ->
  exists tot' x' s', writei_loop fuel ip src off n tot s = Ok (tot', off + (tot' - tot)) s' /\
    tot <= tot' <= n /\ writes ip x s x' s' off (off + (tot' - tot)) (fun o => nthb bs (o - (off - tot))) /\
    (tot' < n -> full s' \/ runs_out src n) /\
    (tot' = tot \/ tot' = n \/ (off + (tot' - tot)) mod BSIZE = 0).
Proof.
  induction fuel as [|fuel IH]; intros x s off tot Hd Hr Hx Hf Hsrc Hbs n Ho Ht Hmax He.
  { destruct He; lia. }
  cbn [writei_loop]. case_decide as Hlt.
  2: { exists tot, x, s. rewrite Z.sub_diag, Z.add_0_r. split_and!; [done|lia|lia| |lia|by left].
       apply writes_nothing; [done|done|by apply extends_refl]. }
  set (m := chunk off (n - tot)). destruct (chunk_bounds off (n - tot) ltac:(lia)) as (Hm1 & Hm2 & Hm3). fold m in Hm1, Hm3.
  destruct (bmap_run ip x s (off / BSIZE) Hd Hr Hx Hf (offset_block off ltac:(lia))) as (a & x1 & s1 & Hbm & HE & HC).
  pose proof (writes_nothing ip x s x1 s1 off (fun o => nthb bs (o - (off - tot))) Hd Hf HE) as HW1.
  rewrite (bind_ok _ _ _ _ _ Hbm). destruct HC as [[-> Hfull]|[Ha HS]].
  { exists tot, x1, s1. rewrite Z.sub_diag, Z.add_0_r. split_and!; [done|lia|lia|done|by left|by left]. }
  rewrite (decide_False (P := a = 0)) by done.
  pose proof (ev_ok _ _ _ _ _ HE) as Hd1. pose proof (ev_file _ _ _ _ _ HE) as Hf1.
  pose proof (ev_ready _ _ _ _ _ HE Hr) as Hr1. pose proof (ev_lookup _ _ _ _ _ HE Hx) as Hx1.
  destruct Hr1 as [[Ho1 Hdi1] Hh1]. assert (a ∉ held s1) as Hnh by (rewrite Hh1; set_solver).
  rewrite (bind_ok _ _ _ _ _ (bread_run _ _ Hnh)). change (Z.min (n - tot) (BSIZE - off mod BSIZE)) with m.
  destruct (Hsrc tot m ltac:(lia) ltac:(lia) ltac:(lia)) as [-> | Efail].
  2: { rewrite Efail, decide_True by done. unfold bind at 1, ret at 1. rewrite (bind_ok _ _ _ _ _ (brelse_run _ _ Hnh)).
       exists tot, x1, s1. rewrite Z.sub_diag, Z.add_0_r. split_and!; [done|lia|lia|done| |by left].
       right. exists tot, m. rewrite Efail. split_and!; [lia|lia|lia|done]. }
  assert (length (slice bs tot m) = Z.to_nat m) as Hlen by (apply length_slice; lia).
  rewrite decide_False by (intros E; rewrite E in Hlen; simpl in Hlen; lia).
  rewrite (bind_ok _ _ _ _ _ (put_run a _ _ (hold a s1) (in_hold _ _) Hm2 ltac:(rewrite Hlen; lia))).
  rewrite setb_hold, data_hold.
  rewrite (bind_ok _ _ _ _ _ (log_run a (hold a (setb a _ s1)) (in_hold _ _) Ho1 Hdi1)).
  rewrite (bind_ok _ _ _ _ _ (brelse_run a (setb a _ s1) Hnh)).
  pose proof (writes_block ip x1 s1 off (n - tot) (slice bs tot m) Hd1 Hf1 Hx1 ltac:(lia) ltac:(lia)
                (Forall_slice _ _ _ _ Hbs) ltac:(rewrite Hlen; fold m; lia) ltac:(congruence)) as HW2.
  cbv zeta in HW2. fold m in HW2. rewrite HS in HW2. set (s2 := setb a _ s1) in *.
  apply (wr_weaken _ _ _ _ _ _ _ _ (fun o => nthb bs (o - (off - tot)))) in HW2.
  2: { intros o Hor. rewrite nthb_slice by lia. f_equal. lia. }
  assert (writes ip x s x1 s2 off (off + m) (fun o => nthb bs (o - (off - tot)))) as HW.
  { eapply writes_trans; [done|done| | |exact HW1|exact HW2]; lia. }
  pose proof (ev_ok _ _ _ _ _ HW) as Hd2. pose proof (ev_file _ _ _ _ _ HW) as Hf2.
  destruct (IH x1 s2 (off + m) (tot + m)) as (tot' & x3 & s3 & Hrun & Ht' & HW3 & Hshort & Hend);
    try done; try lia.
  { replace (Z.of_nat (length bs) - (tot + m)) with (n - tot - m) by (unfold n; lia). apply enough_step; [lia|lia|done]. }
  fold n in Ht', Hshort, Hrun, Hend. rewrite Hrun. exists tot', x3, s3.
  replace (off + m + (tot' - (tot + m))) with (off + (tot' - tot)) in * by lia.
  replace (off + m - (tot + m)) with (off - tot) in HW3 by lia.
  split_and!; [done|lia|lia|eapply writes_trans; [done|done| | |exact HW|exact HW3]; lia|done|].
  destruct Hend as [->|Hend]; [|by right]. right.
  replace (off + (tot + m - tot)) with (off + m) by lia.
  destruct (decide (m = n - tot)); [left; lia|right]. by apply chunk_end.
Qed.

(** ** Inodes on the disk *)

Definition dinode_bytes (x : inode) : list Z :=
  le 2 (type x) ++ le 2 (major x) ++ le 2 (minor x) ++ le 2 (nlink x) ++ le 4 (size x) ++ (addrs x ≫= le 4).

Lemma length_words l : length (l ≫= le 4) = (4 * length l)%nat.
Proof. induction l as [|a l IH]; [done|]. rewrite bind_cons, length_app, length_le, IH. simpl. lia. Qed.
Lemma length_dinode x : length (addrs x) = 13%nat -> length (dinode_bytes x) = 64%nat.
Proof. intros H. unfold dinode_bytes. rewrite !length_app, !length_le, length_words, H. done. Qed.
Lemma dinode_bytes_ok x : Forall byte (dinode_bytes x).
Proof.
  unfold dinode_bytes. rewrite !Forall_app. split_and!; try apply le_bytes.
  induction (addrs x); [constructor|]. rewrite bind_cons, Forall_app. split; [apply le_bytes|done].
Qed.

Lemma IBLOCK_range i k : layout k -> 0 <= i < ninodes k -> 0 <= IBLOCK i k < bmapstart k.
Proof.
  intros [Hs [Hn Hi] Hm Hd] Hin. unfold IBLOCK, data_start in *.
  assert (0 <= i / IPB <= ninodes k / IPB).
  { split; [apply Z.div_pos; [lia|by cbv]|apply Z.div_le_mono; [by cbv|lia]]. }
  assert (0 <= (sb_size k - 1) / BPB) by (apply Z.div_pos; [lia|by cbv]).
  unfold u32. rewrite uwrap_small; [lia|]. change (2 ^ 32) with (2 * 2 ^ 31). lia.
Qed.
Lemma dip_range i : 0 <= dip i /\ dip i + DINODE <= BSIZE.
Proof.
  unfold dip. pose proof (Z.mod_pos_bound i IPB ltac:(by cbv)). unfold IPB, DINODE, BSIZE in *. lia.
Qed.

(** Consecutive writes to a held buffer. *)
Lemma put_next b l d a off bs s :
  b ∈ held s -> length l = Z.to_nat BSIZE -> 0 <= d -> off = d + Z.of_nat (length a) -> off + Z.of_nat (length bs) <= BSIZE ->
  put_bytes b off bs (dirt b (setb b (splice l d a) s)) = Ok tt (dirt b (setb b (splice l d (a ++ bs)) s)).
Proof.
  intros Hb Hl Hd -> Hle. rewrite put_run by (done || lia).
  rewrite setb_dirt, dirt_dirt, setb_setb, data_dirt, data_setb, decide_True by done.
  rewrite splice_splice; [done|]. rewrite Hl. unfold BSIZE in *. lia.
Qed.

Lemma iupdate_run ip x s :
  disk_ok s -> ready s -> itable s !! ip = Some x -> length (addrs x) = 13%nat -> 
  let b := IBLOCK (inum x) (sb s) in
  iupdate ip s = Ok tt (setb b (splice (data b s) (dip (inum x)) (dinode_bytes x)) s).
Proof.
  intros Hd [[Ho Hdi] Hh] Hx Hl b. unfold iupdate, put_int, put_addrs.
  assert (b ∉ held s) as Hnh by (rewrite Hh; set_solver). destruct (dip_range (inum x)) as [Hd1 Hd2].
  destruct (dk_whole _ Hd b) as [Hlen _]. unfold DINODE in Hd2. set (d := dip (inum x)) in *.
  rewrite (bind_ok _ _ _ _ _ (iat_run _ _ _ Hx)). unfold gets, bind at 1. fold b.
  rewrite (bind_ok _ _ _ _ _ (bread_run _ _ Hnh)). cbv zeta.
  rewrite (bind_ok _ _ _ _ _ (put_run b d (le 2 (type x)) (hold b s) (in_hold _ _) Hd1 ltac:(rewrite length_le; lia))), data_hold.
  do 5 (erewrite bind_ok; [|apply put_next; [apply in_hold|done|done|rewrite ?length_app, !length_le; lia|rewrite ?length_words, ?length_le, ?Hl; lia]]).
  rewrite setb_hold. rewrite (bind_ok _ _ _ _ _ (log_run b (hold b (setb b _ s)) (in_hold _ _) Ho Hdi)).
  rewrite brelse_run by done. unfold dinode_bytes. by rewrite <- !app_assoc.
Qed.

(** A block of inodes is rewritten: no file changes. *)
Lemma inode_write b c s :
  disk_ok s -> 0 <= b < bmapstart (sb s) -> whole_block c ->
  disk_ok (setb b c s) /\
  forall y, file_ok y s -> (forall j, 0 <= j < NSLOT -> slot y (setb b c s) j = slot y s j) /\
    file_ok y (setb b c s) /\ content y (setb b c s) = content y s.
Proof.
  intros Hd Hb Hc. destruct (layout_positive _ (dk_layout _ Hd)) as [Hp1 Hp2]. pose proof (lay_data _ (dk_layout _ Hd)).
  assert (~ mapblock b (sb s)) as Hm by (unfold mapblock; lia).
  assert (bmapstart (sb s) < data_start (sb s)) as Hbs.
  { unfold data_start. assert (0 <= (sb_size (sb s) - 1) / BPB); [|lia].
    apply Z.div_pos; [|by cbv]. pose proof (lay_size _ (dk_layout _ Hd)). lia. }
  split.
  - split; [apply Hd| |].
    + intros d. rewrite data_setb. case_decide; [done|apply Hd].
    + intros d Hd'. change (sb (setb b c s)) with (sb s) in Hd'. rewrite used_setb; [by apply Hd|apply Hd|lia|done].
  - intros y Hy. apply file_frame; [done|done|]. intros j Hj Hne.
    destruct (slot_used _ _ _ Hd Hy Hj Hne) as (Hr & Hu & _).
    rewrite used_setb by (done || apply Hd). rewrite data_setb, decide_False; [done|].
    destruct (fo_slot _ _ Hy j Hj) as [?|[? _]]; [done|lia].
Qed.

Definition on_disk (i : Z) (s : fs) : list Z := slice (data (IBLOCK i (sb s)) s) (dip i) DINODE.
Definition disjoint (x y : inode) (s : fs) : Prop :=
  forall i j, 0 <= i < NSLOT -> 0 <= j < NSLOT -> slot x s i = slot y s j -> slot x s i = 0.

Lemma iupdate_effect ip x s :
  disk_ok s -> ready s -> itable s !! ip = Some x -> length (addrs x) = 13%nat -> 0 <= inum x < ninodes (sb s) ->
  exists c, let s' := setb (IBLOCK (inum x) (sb s)) c s in
    iupdate ip s = Ok tt s' /\ whole_block c /\ on_disk (inum x) s' = dinode_bytes x.
Proof.
  intros Hd Hr Hx Hl Hi. eexists. cbv zeta. split; [by apply iupdate_run|].
  destruct (dk_whole _ Hd (IBLOCK (inum x) (sb s))) as [Hlen Hb]. destruct (dip_range (inum x)) as [Hd1 Hd2].
  pose proof (length_dinode x Hl) as Hdl. unfold DINODE, BSIZE in *.
  split; [split|].
  - rewrite length_splice; [done|lia|]. rewrite Hdl, Hlen. lia.
  - apply Forall_splice; [done|apply dinode_bytes_ok].
  - unfold on_disk. change (sb (setb _ _ s)) with (sb s). rewrite data_setb, decide_True by done.
    set (l := data _ s) in *. unfold DINODE. apply nthb_ext.
    + rewrite length_slice; [by rewrite Hdl|lia|lia|]. rewrite length_splice; rewrite ?Hdl, ?Hlen; lia.
    + intros i Hir. rewrite length_slice in Hir; [|lia|lia|rewrite length_splice; rewrite ?Hdl, ?Hlen; lia].
      rewrite nthb_slice by lia. rewrite nthb_splice by (rewrite ?Hlen; lia). rewrite Hdl, decide_True by lia. f_equal. lia.
Qed.

(** Another file, across the loop. *)
Lemma writes_others ip x s x' s' lo hi g y :
  disk_ok s -> writes ip x s x' s' lo hi g -> file_ok y s -> disjoint x y s ->
  (forall j, 0 <= j < NSLOT -> slot y s' j = slot y s j) /\ file_ok y s' /\ content y s' = content y s /\ disjoint x' y s'.
Proof.
  intros Hd HW Hy Hxy. destruct (file_frame y s s' Hy (ev_sb _ _ _ _ _ HW)) as (HS & Hy' & Hc).
  { intros j Hj Hne. destruct (slot_used _ _ _ Hd Hy Hj Hne) as (Hr & Hu & Hm).
    split; [by apply (ev_used _ _ _ _ _ HW)|]. apply (wr_other _ _ _ _ _ _ _ _ HW); try done.
    intros i Hi E. apply Hne. rewrite E. apply (Hxy i j); [done|done|congruence]. }
  split_and!; try done. intros i j Hi Hj. rewrite HS by done. intros E.
  destruct (decide (slot x s i = 0)) as [E0|E0].
  - destruct (decide (slot x' s' i = 0)) as [|E1]; [done|]. exfalso.
    pose proof (ev_new _ _ _ _ _ HW i Hi E0 E1) as Hu. rewrite E in Hu, E1.
    destruct (slot_used _ _ _ Hd Hy Hj E1) as (_ & ? & _). congruence.
  - pose proof (ev_slot _ _ _ _ _ HW i Hi E0) as Es. rewrite Es in E. by rewrite (Hxy i j) in E0.
Qed.

(** The content after the loop, with the size brought up to date. *)
Lemma writes_content ip x s x' s' off tot bs :
  file_ok x s -> 0 <= off <= size x -> 0 <= tot <= Z.of_nat (length bs) ->
  off + tot <= MAXFILE * BSIZE ->
  writes ip x s x' s' off (off + tot) (fun o => nthb bs (o - off)) ->
  let x2 := set_size (Z.max (size x) (off + tot)) x' in
  file_ok x2 s' /\ content x2 s' = splice (content x s) off (take (Z.to_nat tot) bs).
Proof.
  intros Hf Ho Ht Hmax HW x2. pose proof (ev_file _ _ _ _ _ HW) as Hf'. pose proof (fo_size _ _ Hf) as Hsz.
  assert (forall j, slot x2 s' j = slot x' s' j) as HS by done.
  assert (forall o, fbyte x2 s' o = fbyte x' s' o) as HB by done.
  assert (size x2 = Z.max (size x) (off + tot)) as Hsz2 by done.
  split.
  - split; [apply Hf'|apply Hf'|apply Hf'|lia|]. intros k Hk Hks. rewrite HS.
    destruct (decide (k * BSIZE < size x)) as [Hlt|Hge].
    + assert (0 <= dslot k < NSLOT) as Hr by (apply dslot_range; assert (0 < BSIZE) by (by cbv); nia).
      pose proof (fo_blocks _ _ Hf k Hk Hlt) as Hne. by rewrite (ev_slot _ _ _ _ _ HW).
    + destruct (wr_put _ _ _ _ _ _ _ _ HW (k * BSIZE) ltac:(lia)) as [Hne _]. by rewrite Z.div_mul in Hne.
  - assert (Z.of_nat (length (content x s)) = size x) as Hlc by (apply length_content; lia).
    assert (length (take (Z.to_nat tot) bs) = Z.to_nat tot) as Htl by (rewrite length_take; lia).
    assert (Z.of_nat (length (content x2 s')) = size x2) as Hlc2 by (apply length_content; lia).
    apply nthb_ext.
    + apply Nat2Z.inj. rewrite length_splice_max by lia. rewrite Hlc2, Hsz2. lia.
    + intros o Hor. rewrite nthb_content by lia. rewrite nthb_splice by lia. rewrite Htl, HB. case_decide as Hin.
      * destruct (wr_put _ _ _ _ _ _ _ _ HW o ltac:(lia)) as [_ ->]. unfold nthb.
        by rewrite lookup_take_lt by lia.
      * rewrite nthb_content by lia. apply (wr_keep _ _ _ _ _ _ _ _ HW); [lia| |lia].
        destruct (block_range x o ltac:(lia) (proj2 Hsz)). by apply Hf; lia.
Qed.

(** ** writei *)

(** What a write of [bs] at [off] that stored [tot] bytes leaves behind. *)
Record written (ip : nat) (x : inode) (s : fs) (off tot : Z) (bs : list Z) (x' : inode) (s' : fs) : Prop := {
  wn_frame : s' = with_blocks (blocks s') (with_itable (<[ip := x']> (itable s)) s);
  wn_inode : x' = set_size (size x') (set_addrs (addrs x') x);
  wn_disk : disk_ok s';
  wn_file : file_ok x' s';
  wn_content : content x' s' = splice (content x s) off (take (Z.to_nat tot) bs);
  wn_ondisk : on_disk (inum x) s' = dinode_bytes x';
  wn_others y : file_ok y s -> disjoint x y s ->
    file_ok y s' /\ content y s' = content y s /\ disjoint x' y s';
}.

Lemma writei_run ip x s src bs off :
  disk_ok s -> ready s -> itable s !! ip = Some x -> file_ok x s -> 0 <= inum x < ninodes (sb s) ->
  delivers src bs -> Forall byte bs -> 0 <= off <= size x ->
  let n := Z.of_nat (length bs) in off + n <= MAXFILE * BSIZE ->
  exists tot x' s', writei ip src off n s = Ok tot s' /\ 0 <= tot <= n /\
    (tot < n -> full s' \/ runs_out src n) /\ (tot = 0 \/ tot = n \/ (off + tot) mod BSIZE = 0) /\
    written ip x s off tot bs x' s'.
Proof.
  intros Hd Hr Hx Hf Hi Hsrc Hbs Ho n Hmax. pose proof (fo_size _ _ Hf) as Hsz.
  assert (u32 (off + n) = off + n) as Hu.
  { apply uwrap_small. unfold MAXFILE, NDIRECT, NINDIRECT, BSIZE in Hmax. change (2 ^ 32) with (2 * 2 ^ 31). lia. }
  destruct (writei_loop_run (turns n) ip src bs x s off 0 Hd Hr Hx Hf Hsrc Hbs) as (tot & x1 & s1 & Hloop & Ht & HW & Hshort & Hend);
    [lia|lia|lia|rewrite Z.sub_0_r; apply enough_turns; lia|]. fold n in Hloop, Ht, Hshort.
  rewrite !Z.sub_0_r in Hloop, HW, Hend. replace (off - 0) with off in HW by lia.
  destruct (writes_content ip x s x1 s1 off tot bs Hf Ho Ht ltac:(lia) HW) as [Hf2 Hc2].
  set (x2 := set_size (Z.max (size x) (off + tot)) x1) in *.
  set (s2 := with_itable (<[ip := x2]> (itable s1)) s1).
  pose proof (ev_lookup _ _ _ _ _ HW Hx) as Hx1. pose proof (ev_ready _ _ _ _ _ HW Hr) as Hr1.
  pose proof (ev_inode _ _ _ _ _ HW) as Hi1. pose proof (ev_sb _ _ _ _ _ HW) as Hsb.
  assert (disk_ok s2) as Hd2 by (by destruct (ev_ok _ _ _ _ _ HW)).
  assert (itable s2 !! ip = Some x2) as Hx2 by (apply list_lookup_insert_eq; by eapply lookup_lt_Some).
  assert (inum x2 = inum x) as Hinum by (unfold x2; by rewrite Hi1).
  destruct (iupdate_effect ip x2 s2 Hd2 Hr1 Hx2 (fo_addrs _ _ Hf2)) as (c & Hup & Hc & Hon).
  { rewrite Hinum. change (sb s2) with (sb s1). by rewrite Hsb. }
  set (s3 := setb (IBLOCK (inum x2) (sb s2)) c s2) in *.
  assert (0 <= IBLOCK (inum x2) (sb s2) < bmapstart (sb s2)) as Hib.
  { rewrite Hinum. change (sb s2) with (sb s1). rewrite Hsb. apply IBLOCK_range; [apply Hd|done]. }
  destruct (inode_write _ c s2 Hd2 Hib Hc) as [Hd3 Hfiles]. fold s3 in Hd3, Hfiles.
  assert (forall y, file_ok y s1 -> file_ok y s2 /\ content y s2 = content y s1) as H12.
  { intros y [? ? ? ? ?]. done. }
  exists tot, x2, s3. split_and!; [|lia|lia|intros Hlt|done|].
  - unfold writei. rewrite (bind_ok _ _ _ _ _ (iat_run _ _ _ Hx)), Hu, !decide_False by lia.
    rewrite (bind_ok _ _ _ _ _ Hloop). rewrite (bind_ok _ _ _ _ _ (iat_run _ _ _ Hx1)).
    assert (size x1 = size x) as Hsx by (by rewrite Hi1). rewrite Hsx.
    assert ((if decide (off + tot > size x) then imod ip (set_size (off + tot)) else ret tt) s1 = Ok tt s2) as Hset.
    { case_decide.
      - rewrite (imod_run _ _ _ _ Hx1). unfold s2, x2. by rewrite Z.max_r by lia.
      - unfold ret, s2, x2. rewrite Z.max_l by lia. rewrite <- Hsx.
        replace (set_size (size x1) x1) with x1 by (by destruct x1). rewrite list_insert_id by done. by destruct s1. }
    rewrite (bind_ok _ _ _ _ _ Hset), (bind_ok _ _ _ _ _ Hup). done.
  - destruct (Hshort Hlt) as [Hfull|?]; [left|by right]. intros b Hb. change (sb s3) with (sb s2) in Hb.
    unfold s3. rewrite used_setb; [by apply Hfull|apply Hd2|done|]. unfold mapblock. lia.
  - split.
    + unfold s3, s2. rewrite (ev_frame _ _ _ _ _ HW). unfold setb, with_blocks, with_itable. simpl.
      by rewrite list_insert_insert_eq.
    + unfold x2 at 1. by rewrite Hi1.
    + done.
    + apply Hfiles. destruct (ev_ok _ _ _ _ _ HW). by destruct Hf2.
    + rewrite (proj2 (proj2 (Hfiles x2 (proj1 (H12 _ Hf2))))). done.
    + by rewrite <- Hinum.
    + intros y Hy Hxy. destruct (writes_others _ _ _ _ _ _ _ _ y Hd HW Hy Hxy) as (HS1 & Hy1 & Hcy & Hdis).
      destruct (Hfiles y (proj1 (H12 _ Hy1))) as (HS3 & Hy3 & Hc3). split_and!; [done|by rewrite Hc3|].
      destruct (Hfiles x2 (proj1 (H12 _ Hf2))) as (HSx & _). intros i j Hi' Hj. rewrite HSx, HS3 by done. by apply Hdis.
Qed.
