(* ===== verification/FsTrunc.v ===== *)
(** * kernel/fs.c: itrunc and iput

    itrunc gives back exactly the blocks of a file; iput counts references and, with the
    last one of an inode without links, frees the inode and its blocks. *)

From Stdlib Require Import ZArith Lia.
From stdpp Require Import base numbers list gmap strings.
From S2P Require Import Prelude Fs FsBlocks FsFile FsWrite.
Open Scope Z_scope.

(** ** Giving back the blocks of some slots *)

Definition owns (x : inode) (s : fs) (js : list Z) (b : Z) : Prop := b <> 0 /\ b ∈ (slot x s <$> js).
#[export] Instance owns_dec x s js b : Decision (owns x s js b).
Proof. unfold owns. apply _. Defined.

Record released (x : inode) (s : fs) (js : list Z) (t : fs) : Prop := {
  re_sb : sb t = sb s;
  re_ok : disk_ok t;
  re_same c : ~ mapblock c (sb s) -> data c t = data c s;
  re_used b : 0 <= b < sb_size (sb s) -> used b t = negb (bool_decide (owns x s js b)) && used b s;
}.

Lemma owns_snoc x s js j b : owns x s (js ++ [j]) b <-> owns x s js b \/ (b <> 0 /\ b = slot x s j).
Proof. unfold owns. rewrite fmap_app. set_solver. Qed.

Lemma released_none x s : disk_ok s -> released x s [] s.
Proof.
  intros Hd. split; try done. intros b Hb. rewrite bool_decide_false; [done|]. unfold owns. set_solver.
Qed.
Lemma released_skip x s js j t : slot x s j = 0 -> released x s js t -> released x s (js ++ [j]) t.
Proof.
  intros H0 [H1 H2 H3 H4]. split; try done. intros b Hb. rewrite H4 by done. f_equal. f_equal.
  apply bool_decide_ext. rewrite owns_snoc. split; [tauto|]. intros [?|[? ?]]; [done|congruence].
Qed.
Lemma released_free x s js j t t' :
  slot x s j <> 0 -> released x s js t -> frees (slot x s j) t t' -> released x s (js ++ [j]) t'.
Proof.
  intros Hne [H1 H2 H3 H4] [F1 F2 F3 F4]. rewrite H1 in F3, F4.
  assert (sb t' = sb s) as Hsb by (by rewrite F1).
  split; [done|done| |].
  - intros c Hc. rewrite F4, H3 by done. done.
  - intros b Hb. rewrite F3, H4 by done. rewrite andb_assoc. f_equal. rewrite <- negb_orb. f_equal.
    rewrite <- bool_decide_or. apply bool_decide_ext. rewrite owns_snoc. split; [|naive_solver].
    intros [->|?]; [right; done|by left].
Qed.

(** The block of a slot that is not yet given back is still in use. *)
Lemma released_used x s js j t :
  disk_ok s -> file_ok x s -> released x s js t -> 0 <= j < NSLOT -> slot x s j <> 0 ->
  (forall i, i ∈ js -> 0 <= i < NSLOT /\ i <> j) ->
  used (slot x s j) t = true /\ data_start (sb t) <= slot x s j < sb_size (sb t).
Proof.
  intros Hd Hf HR Hj Hne Hjs. destruct (slot_used _ _ _ Hd Hf Hj Hne) as (Hr & Hu & _).
  rewrite (re_sb _ _ _ _ HR). split; [|by destruct (fo_slot _ _ Hf j Hj) as [?|[? _]]].
  rewrite (re_used _ _ _ _ HR) by done. rewrite Hu, andb_true_r.
  rewrite bool_decide_false; [done|]. intros [_ Hin]. apply list_elem_of_fmap in Hin as (i & E & Hi).
  destruct (Hjs i Hi) as [Hir Hij]. apply Hij. by apply (fo_inj _ _ Hf); [..|congruence].
Qed.

(** Freeing a slot in a state that holds the buffers [h], none of the map. *)
Lemma bfree_slot x s js j t :
  disk_ok s -> file_ok x s -> released x s js t -> logged t -> (forall b, b ∈ held t -> ~ mapblock b (sb s)) ->
  0 <= j < NSLOT -> slot x s j <> 0 -> (forall i, i ∈ js -> 0 <= i < NSLOT /\ i <> j) ->
  exists t', bfree (slot x s j) t = Ok tt t' /\ t' = with_blocks (blocks t') t /\ released x s (js ++ [j]) t'.
Proof.
  intros Hd Hf HR Hl Hh Hj Hne Hjs. destruct (released_used _ _ _ _ _ Hd Hf HR Hj Hne Hjs) as [Hu Hr].
  pose proof (re_ok _ _ _ _ HR) as Hdt. pose proof (layout_positive _ (dk_layout _ Hdt)) as [_ ?].
  pose proof (bfree_run (slot x s j) t Hdt Hl) as B. rewrite Hu in B. destruct B as (t' & Hb & Hfr).
  - intros Hin%Hh. apply Hin. rewrite <- (re_sb _ _ _ _ HR). apply BBLOCK_map; [apply Hdt|lia].
  - done.
  - exists t'. split_and!; [done|apply Hfr|by eapply released_free].
Qed.

(** ** itrunc *)

(** The table with the first [k] direct blocks of the inode cleared. *)
Definition cleared (k : nat) (x : inode) : inode := set_addrs (replicate k 0 ++ drop k (addrs x)) x.

Lemma cleared_at k x j :
  length (addrs x) = 13%nat -> (k <= 13)%nat -> 0 <= j ->
  nthb (addrs (cleared k x)) j = if decide (j < Z.of_nat k) then 0 else nthb (addrs x) j.
Proof.
  intros Hl Hk Hj. simpl. unfold nthb. case_decide.
  - rewrite lookup_app_l by (rewrite length_replicate; lia). by rewrite lookup_replicate_2 by lia.
  - rewrite lookup_app_r; rewrite length_replicate; [|lia]. rewrite lookup_drop. do 2 f_equal. lia.
Qed.
Lemma cleared_step k x :
  length (addrs x) = 13%nat -> (k < 13)%nat ->
  set_addrs (<[k := 0]> (addrs (cleared k x))) (cleared k x) = cleared (S k) x.
Proof.
  intros Hl Hk. destruct (lookup_lt_is_Some_2 (addrs x) k) as [a Ha]; [lia|].
  assert (<[k := 0]> (addrs (cleared k x)) = addrs (cleared (S k) x)) as E; [|by rewrite E].
  unfold cleared. cbn [addrs set_addrs].
  rewrite insert_app_r_alt by (rewrite length_replicate; lia). rewrite length_replicate, Nat.sub_diag.
  rewrite (drop_S _ _ _ Ha), replicate_S_end, <- app_assoc. done.
Qed.
Lemma cleared_length k x : length (addrs x) = 13%nat -> (k <= 13)%nat -> length (addrs (cleared k x)) = 13%nat.
Proof. intros. simpl. rewrite length_app, length_replicate, length_drop. lia. Qed.
Lemma cleared_same k x :
  length (addrs x) = 13%nat -> (k < 13)%nat -> nthb (addrs x) (Z.of_nat k) = 0 -> cleared (S k) x = cleared k x.
Proof.
  intros Hl Hk H0. unfold cleared. f_equal. destruct (lookup_lt_is_Some_2 (addrs x) k) as [a Ha]; [lia|].
  unfold nthb in H0. rewrite Nat2Z.id, Ha in H0. simpl in H0. subst a.
  rewrite (drop_S _ _ _ Ha), replicate_S_end, <- app_assoc. done.
Qed.

Lemma zrange_prefix lo hi dn j rest :
  zrange lo hi = dn ++ j :: rest -> j = lo + Z.of_nat (length dn) /\ j < hi /\ dn = zrange lo j.
Proof.
  intros E. assert (zrange lo hi !! length dn = Some j) as H by (rewrite E; by apply list_lookup_middle).
  apply lookup_seqZ in H as [Hj Hlt]. split_and!; [done|lia|].
  rewrite (zrange_split lo j hi) in E by lia. apply app_inj_1 in E as [E _]; [done|].
  rewrite length_zrange. lia.
Qed.

Lemma trunc_direct ip x s :
  disk_ok s -> ready s -> itable s !! ip = Some x -> file_ok x s ->
  exists t, for_each (zrange 0 NDIRECT) (fun i =>
      let! x := iat ip in
      let! a := from_option "addrs" (arr_get (addrs x) i) in
      if decide (a <> 0) then bfree a ;; imod ip (fun x => set_addrs (<[Z.to_nat i := 0]> (addrs x)) x)
      else ret tt) s = Ok tt t /\
    t = with_blocks (blocks t) (with_itable (<[ip := cleared 12 x]> (itable s)) s) /\
    released x s (zrange 0 NDIRECT) t.
Proof.
  intros Hd [[Ho Hdi] Hh] Hx Hf. pose proof (fo_addrs _ _ Hf) as Hl.
  edestruct (for_each_inv (fun dn t => t = with_blocks (blocks t) (with_itable (<[ip := cleared (length dn) x]> (itable s)) s) /\
                                       released x s dn t)) as (t & Hrun & Hfr & HR).
  3: { exists t. split_and!; [exact Hrun|exact Hfr|exact HR]. }
  { simpl. unfold cleared. simpl. replace (set_addrs (drop 0 (addrs x)) x) with x by (by destruct x).
    rewrite list_insert_id by done. split; [by destruct s|by apply released_none]. }
  intros dn j rest t El [Hfr HR]. destruct (zrange_prefix _ _ _ _ _ El) as (Hj & Hjn & Edn).
  unfold NDIRECT in Hjn. rewrite Z.add_0_l in Hj. assert (ip < length (itable s))%nat as Hip by (by eapply lookup_lt_Some).
  assert (itable t !! ip = Some (cleared (length dn) x)) as Hxt by (rewrite Hfr; by apply list_lookup_insert_eq).
  rewrite (bind_ok _ _ _ _ _ (iat_run _ _ _ Hxt)).
  rewrite (addr_get (cleared (length dn) x) j) by (try apply cleared_length; lia). cbn [from_option]. unfold bind at 1, ret at 1.
  rewrite cleared_at by lia. rewrite (decide_False (P := j < Z.of_nat (length dn))) by lia. rewrite length_app. simpl. rewrite Nat.add_1_r.
  assert (slot x s j = nthb (addrs x) j) as Hs by (unfold slot; by rewrite decide_True by lia).
  case_decide as E.
  - rewrite <- Hs in *. destruct (bfree_slot x s dn j t Hd Hf HR) as (t' & Hb & Hfr' & HR').
    { by rewrite Hfr. } { rewrite Hfr. simpl. rewrite Hh. set_solver. } { unfold NSLOT; lia. } { done. }
    { intros i Hi. rewrite Edn in Hi. apply elem_of_zrange in Hi. unfold NSLOT. lia. }
    rewrite (bind_ok _ _ _ _ _ Hb).
    assert (itable t' !! ip = Some (cleared (length dn) x)) as Hxt' by (by rewrite Hfr').
    rewrite (imod_run _ _ _ _ Hxt'). eexists. split; [done|].
    replace (Z.to_nat j) with (length dn) by lia. rewrite cleared_step by lia. split.
    + rewrite Hfr', Hfr. unfold with_itable, with_blocks. simpl. by rewrite list_insert_insert_eq.
    + destruct HR' as [? [? ? ?] ? ?]. split; done.
  - exists t. split; [done|]. rewrite cleared_same; [|lia|lia|]. 2: { rewrite <- Hj. destruct (decide (nthb (addrs x) j = 0)); tauto. }
    split; [done|]. apply released_skip; [|done]. rewrite Hs. destruct (decide (nthb (addrs x) j = 0)); tauto.
Qed.

Lemma trunc_indirect x s ind t0 js :
  disk_ok s -> file_ok x s -> ind = slot x s 12 -> ind <> 0 -> js = zrange 0 NDIRECT ->
  released x s js t0 -> ready t0 ->
  exists t, for_each (zrange 0 NINDIRECT) (fun j =>
      let! e := get_int ind (4 * j) 4 in
      if decide (e <> 0) then bfree e else ret tt) (hold ind t0) = Ok tt (hold ind t) /\
    t = with_blocks (blocks t) t0 /\ released x s (js ++ (Z.add 13 <$> zrange 0 NINDIRECT)) t.
Proof.
  intros Hd Hf Ei Hne Ejs HR0 [[Ho Hdi] Hh].
  destruct (slot_used x s 12 Hd Hf ltac:(by cbv) ltac:(congruence)) as (_ & _ & Hmi). rewrite <- Ei in Hmi.
  edestruct (for_each_inv (fun dn t => t = with_blocks (blocks t) (hold ind t0) /\
                                       released x s (js ++ (Z.add 13 <$> dn)) t)) as (t & Hrun & Hfr & HR).
  3: { exists (with_blocks (blocks t) t0). split_and!; [|done|].
       - rewrite Hrun, Hfr. done.
       - assert (sb t = sb t0) as Hsb by (by rewrite Hfr).
         assert (forall b, used b (with_blocks (blocks t) t0) = used b t) as HU by (intros b; unfold used; by rewrite Hsb).
         destruct HR as [R1 [D1 D2 D3] R3 R4]. split; try done; [simpl; congruence| |intros; by rewrite HU, R4].
         split; [simpl; by rewrite <- Hsb|done|]. intros b Hb. rewrite HU. apply D3. by rewrite Hsb. }
  { simpl. rewrite app_nil_r. destruct HR0 as [? [? ? ?] ? ?]. done. }
  intros dn j rest t El [Hfr HR]. destruct (zrange_prefix _ _ _ _ _ El) as (Hj & Hjn & Edn). unfold NINDIRECT in Hjn.
  assert (ind ∈ held t) as Hin by (rewrite Hfr; apply in_hold).
  rewrite (bind_ok _ _ _ _ _ (get_word_run ind j t Hin ltac:(lia) ltac:(unfold BSIZE; lia))).
  assert (slot x s (13 + j) = word (data ind t) j) as Hs.
  { rewrite (re_same _ _ _ _ HR) by done. unfold slot. rewrite decide_False by lia.
    rewrite slot12 in Ei. rewrite <- Ei, decide_False by done. f_equal. lia. }
  rewrite fmap_app, app_assoc. case_decide as E.
  - rewrite <- Hs in *. destruct (bfree_slot x s (js ++ (Z.add 13 <$> dn)) (13 + j) t Hd Hf HR) as (t' & Hb & Hfr' & HR').
    { rewrite Hfr. done. } { rewrite Hfr. simpl. rewrite Hh. intros b Hb. assert (b = ind) as -> by set_solver. done. }
    { unfold NSLOT; lia. } { done. }
    { intros i [Hi|Hi]%elem_of_app.
      - rewrite Ejs in Hi. apply elem_of_zrange in Hi. unfold NSLOT, NDIRECT in *. lia.
      - apply list_elem_of_fmap in Hi as (i' & -> & Hi). rewrite Edn in Hi. apply elem_of_zrange in Hi. unfold NSLOT. lia. }
    exists t'. split; [done|]. split; [by rewrite Hfr', Hfr|done].
  - exists t. split; [done|]. split; [done|]. apply released_skip; [|done]. rewrite Hs.
    destruct (decide (word (data ind t) j = 0)); tauto.
Qed.

(** The inode without its blocks, with its type and links as given. *)
Definition emptied (x : inode) : inode := set_size 0 (set_addrs (replicate 13 0) x).

(** The file is empty, in memory and on the disk; the blocks it had, and only those, are
    free; of the others only the map and the block of its inode have changed. *)
Record truncated (ip : nat) (x : inode) (s : fs) (x' : inode) (s' : fs) : Prop := {
  tr_frame : s' = with_blocks (blocks s') (with_itable (<[ip := x']> (itable s)) s);
  tr_ok : disk_ok s';
  tr_used b : 0 <= b < sb_size (sb s) -> used b s' = negb (bool_decide (owns x s (zrange 0 NSLOT) b)) && used b s;
  tr_same c : ~ mapblock c (sb s) -> c <> IBLOCK (inum x) (sb s) -> data c s' = data c s;
  tr_ondisk : on_disk (inum x) s' = dinode_bytes x';
}.

Lemma released_all x s js t :
  released x s js t -> (forall j, 0 <= j < NSLOT -> j ∈ js \/ slot x s j = 0) -> (forall j, j ∈ js -> 0 <= j < NSLOT) ->
  released x s (zrange 0 NSLOT) t.
Proof.
  intros [R1 R2 R3 R4] Hall Hin. split; try done. intros b Hb. rewrite R4 by done. f_equal. f_equal.
  apply bool_decide_ext. unfold owns. rewrite !list_elem_of_fmap.
  split; intros [Hb0 (j & -> & Hj)]; (split; [done|]).
  - exists j. rewrite elem_of_zrange. split; [done|]. apply Hin in Hj. lia.
  - apply elem_of_zrange in Hj. destruct (Hall j Hj); [by exists j|done].
Qed.

Lemma released_table x s js t ip y : released x s js t -> released x s js (with_itable (<[ip := y]> (itable t)) t).
Proof. intros [R1 [? ? ?] R3 R4]. split; done. Qed.

(** The blocks of addrs[NDIRECT]. *)
Lemma trunc_rest ip x s t :
  disk_ok s -> file_ok x s -> ready t -> itable t !! ip = Some (cleared 12 x) -> released x s (zrange 0 NDIRECT) t ->
  exists t', (let! x := iat ip in
      let! a := from_option "addrs" (arr_get (addrs x) NDIRECT) in
      if decide (a <> 0) then
        let! bp := bread a in
        for_each (zrange 0 NINDIRECT) (fun j =>
          let! e := get_int bp (4 * j) 4 in
          if decide (e <> 0) then bfree e else ret tt) ;;
        brelse bp ;;
        bfree a ;;
        imod ip (fun x => set_addrs (<[Z.to_nat NDIRECT := 0]> (addrs x)) x)
      else ret tt) t = Ok tt t' /\
    t' = with_blocks (blocks t') (with_itable (<[ip := cleared 13 x]> (itable t)) t) /\
    released x s (zrange 0 NSLOT) t'.
Proof.
  intros Hd Hf Hr Hx HR. pose proof (fo_addrs _ _ Hf) as Hl.
  rewrite (bind_ok _ _ _ _ _ (iat_run _ _ _ Hx)).
  rewrite (addr_get (cleared 12 x) NDIRECT) by (try apply cleared_length; unfold NDIRECT; lia).
  cbn [from_option]. unfold bind at 1, ret at 1.
  rewrite cleared_at by (unfold NDIRECT; lia). cbn [decide]. rewrite (decide_False (P := NDIRECT < _)) by (unfold NDIRECT; lia).
  change (nthb (addrs x) NDIRECT) with (slot x s 12). case_decide as E.
  - destruct (trunc_indirect x s _ t _ Hd Hf eq_refl E eq_refl HR Hr) as (t1 & Hloop & Hfr & HR1).
    set (ind := slot x s 12) in *. destruct Hr as [[Ho Hdi] Hh].
    assert (ind ∉ held t /\ ind ∉ held t1) as [Hnh Hnh1]
      by (assert (held t1 = held t) as -> by (by rewrite Hfr); rewrite Hh; clear; set_solver).
    rewrite (bind_ok _ _ _ _ _ (bread_run _ _ Hnh)), (bind_ok _ _ _ _ _ Hloop), (bind_ok _ _ _ _ _ (brelse_run _ _ Hnh1)).
    destruct (bfree_slot x s _ 12 t1 Hd Hf HR1) as (t2 & Hb & Hfr2 & HR2).
    { by rewrite Hfr. } { assert (held t1 = held t) as -> by (by rewrite Hfr). rewrite Hh. clear. set_solver. } { by cbv. } { done. }
    { intros i [Hi|Hi]%elem_of_app.
      - apply elem_of_zrange in Hi. unfold NSLOT, NDIRECT in *. lia.
      - apply list_elem_of_fmap in Hi as (i' & -> & Hi). apply elem_of_zrange in Hi. unfold NSLOT, NINDIRECT in *. lia. }
    fold ind in Hb. rewrite (bind_ok _ _ _ _ _ Hb).
    assert (itable t2 !! ip = Some (cleared 12 x)) as Hx2 by (by rewrite Hfr2, Hfr).
    rewrite (imod_run _ _ _ _ Hx2). eexists. split; [done|].
    change (Z.to_nat NDIRECT) with 12%nat. rewrite cleared_step by lia. split.
    + by rewrite Hfr2, Hfr.
    + apply released_table. eapply released_all; [exact HR2| |].
      * intros j Hj. left. rewrite !elem_of_app, elem_of_zrange, list_elem_of_fmap. unfold NSLOT, NDIRECT, NINDIRECT in *.
        destruct (decide (j < 12)); [left; left; lia|]. destruct (decide (j = 12)) as [->|]; [right; by apply list_elem_of_singleton|].
        left. right. exists (j - 13). rewrite elem_of_zrange. lia.
      * intros j [[Hj|Hj]%elem_of_app|Hj]%elem_of_app; unfold NSLOT, NDIRECT, NINDIRECT in *.
        -- apply elem_of_zrange in Hj. lia.
        -- apply list_elem_of_fmap in Hj as (j' & -> & Hj). apply elem_of_zrange in Hj. lia.
        -- apply list_elem_of_singleton in Hj. lia.
  - assert (slot x s 12 = 0) as E0 by (destruct (decide (slot x s 12 = 0)); tauto). clear E.
    exists t. split; [done|]. split.
    + rewrite (cleared_same 12); [|lia|lia|exact E0]. rewrite list_insert_id by done. by destruct t.
    + eapply released_all; [exact HR| |intros j Hj%elem_of_zrange; unfold NSLOT, NDIRECT in *; lia].
      intros j Hj. destruct (decide (j < 12)); [left; apply elem_of_zrange; unfold NDIRECT; lia|right].
      destruct (decide (j = 12)) as [->|]; [done|]. unfold slot. rewrite decide_False by lia. by rewrite decide_True.
Qed.

Lemma itrunc_run ip x s :
  disk_ok s -> ready s -> itable s !! ip = Some x -> file_ok x s -> 0 <= inum x < ninodes (sb s) ->
  exists s', itrunc ip s = Ok tt s' /\ truncated ip x s (emptied x) s'.
Proof.
  intros Hd Hr Hx Hf Hi. pose proof (fo_addrs _ _ Hf) as Hl.
  assert (ip < length (itable s))%nat as Hip by (by eapply lookup_lt_Some).
  destruct (trunc_direct ip x s Hd Hr Hx Hf) as (t1 & Hrun1 & Hfr1 & HR1).
  assert (itable t1 = <[ip := cleared 12 x]> (itable s)) as Hit1 by (by rewrite Hfr1).
  assert (ready t1) as Hr1 by (by rewrite Hfr1).
  destruct (trunc_rest ip x s t1 Hd Hf Hr1) as (t2 & Hrun2 & Hfr2 & HR2);
    [rewrite Hit1; by apply list_lookup_insert_eq|done|].
  assert (cleared 13 x = set_addrs (replicate 13 0) x) as E13.
  { unfold cleared. f_equal. rewrite drop_ge by lia. by rewrite app_nil_r. }
  assert (itable t2 !! ip = Some (cleared 13 x)) as Hx2.
  { rewrite Hfr2. apply list_lookup_insert_eq. by rewrite Hit1, length_insert. }
  set (t3 := with_itable (<[ip := emptied x]> (itable t2)) t2).
  assert (imod ip (set_size 0) t2 = Ok tt t3) as Hrun3 by (rewrite (imod_run _ _ _ _ Hx2), E13; done).
  assert (itable t3 = <[ip := emptied x]> (itable s)) as Hit3.
  { unfold t3. simpl. rewrite Hfr2. simpl. by rewrite Hit1, !list_insert_insert_eq. }
  pose proof (released_table x s _ t2 ip (emptied x) HR2) as HR3. fold t3 in HR3.
  assert (sb t3 = sb s) as Hsb by apply HR3.
  destruct (iupdate_effect ip (emptied x) t3) as (c & Hup & Hc & Hon); [apply HR3| | |done|by rewrite Hsb|].
  { unfold t3. rewrite Hfr2, Hfr1. done. } { rewrite Hit3. by apply list_lookup_insert_eq. }
  change (inum (emptied x)) with (inum x) in *. rewrite Hsb in Hup, Hon.
  pose proof (IBLOCK_range (inum x) (sb s) (dk_layout _ Hd) Hi) as Hib.
  destruct (inode_write (IBLOCK (inum x) (sb s)) c t3) as [Hd' _]; [apply HR3|by rewrite Hsb|done|].
  assert (~ mapblock (IBLOCK (inum x) (sb s)) (sb s)) as Hnm by (unfold mapblock; lia).
  exists (setb (IBLOCK (inum x) (sb s)) c t3). split.
  { unfold itrunc. rewrite (bind_ok _ _ _ _ _ Hrun1). unfold bind in Hrun2 |- *.
    destruct (iat ip t1); [|done|done]. destruct (from_option _ _ _); [|done|done]. rewrite Hrun2. 
    unfold bind in Hrun3. rewrite Hrun3. exact Hup. }
  split; [|done| | |done].
  - unfold t3. rewrite Hfr2, Hfr1. unfold setb, with_blocks, with_itable. simpl. by rewrite !list_insert_insert_eq.
  - intros b Hb. rewrite used_setb; rewrite ?Hsb; [by apply HR3|apply Hd|done|done].
  - intros d Hm Hne. rewrite data_setb, decide_False by done. by apply HR3.
Qed.
