(* ===== verification/FsTable.v ===== *)
(** * kernel/fs.c: the table of inodes

    iget, idup and iput count the references to inodes; the last iput of an inode without
    links frees it and its blocks. *)

From Stdlib Require Import ZArith Lia.
From stdpp Require Import base numbers list gmap strings.
From S2P Require Import Prelude Fs FsBlocks FsFile FsWrite FsTrunc.
Open Scope Z_scope.

(** ** The table *)

Definition is_entry (d i : Z) (e : inode) : Prop := ref e > 0 /\ dev e = d /\ inum e = i.
#[export] Instance is_entry_dec d i e : Decision (is_entry d i e).
Proof. unfold is_entry. apply _. Defined.

(** No reference count is negative, and no inode has two entries in use. *)
Record table_ok (l : list inode) : Prop := {
  tb_refs k e : l !! k = Some e -> 0 <= ref e;
  tb_unique k k' e e' d i : l !! k = Some e -> l !! k' = Some e' -> is_entry d i e -> is_entry d i e' -> k = k';
}.

(** The references to an inode. *)
Fixpoint refs (d i : Z) (l : list inode) : Z :=
  match l with
  | [] => 0
  | e :: l' => (if decide (is_entry d i e) then ref e else 0) + refs d i l'
  end.

Definition share (d i : Z) (e : inode) : Z := if decide (is_entry d i e) then ref e else 0.

Lemma refs_insert d i l k e e' :
  l !! k = Some e -> refs d i (<[k := e']> l) = refs d i l - share d i e + share d i e'.
Proof.
  revert k. induction l as [|x l IH]; intros [|k] Hk; simplify_eq/=; [unfold share; lia|]. rewrite (IH k) by done. lia.
Qed.

(** ** iget *)

Lemma iget_scan_spec d i l : forall k empty,
  (exists j e, l !! j = Some e /\ is_entry d i e /\ iget_scan d i k l empty = (Some (k + j)%nat, true)) \/
  ((forall j e, l !! j = Some e -> ~ is_entry d i e) /\
   ((exists j e, l !! j = Some e /\ ref e = 0 /\ empty = None /\ iget_scan d i k l empty = (Some (k + j)%nat, false)) \/
    (iget_scan d i k l empty = (empty, false) /\ (empty = None -> forall j e, l !! j = Some e -> ref e <> 0)))).
Proof.
  induction l as [|x l IH]; intros k empty; cbn [iget_scan].
  { right. split; [done|]. right. split; done. }
  case_decide as Hx.
  { left. exists 0%nat, x. by rewrite Nat.add_0_r. }
  set (empty' := match empty with None => if decide (ref x = 0) then Some k else None | _ => empty end).
  destruct (IH (S k) empty') as [(j & e & Hj & He & Hs)|[Hno H]].
  { left. exists (S j), e. split_and!; [done|done|]. rewrite Hs. do 2 f_equal. lia. }
  right. split; [intros [|j] e Hj; simplify_eq/=; [done|by eapply Hno]|].
  destruct H as [(j & e & Hj & He & Hem & Hs)|[Hs Hfull]].
  - left. destruct empty as [b|]; [done|]. exists (S j), e. split_and!; try done. rewrite Hs. do 2 f_equal. lia.
  - subst empty'. destruct empty as [b|]; [right; done|]. destruct (decide (ref x = 0)) as [E|E].
    + left. exists 0%nat, x. by rewrite Nat.add_0_r.
    + right. split; [done|]. intros _ [|j] e Hj; simplify_eq/=; [done|]. by eapply Hfull.
Qed.

(** An entry for [i] is found or made, with one more reference; nothing else changes. *)
Record referenced (d i : Z) (k : nat) (s s' : fs) : Prop := {
  rf_frame : exists e, s' = with_itable (<[k := e]> (itable s)) s /\ is_entry d i e /\
    itable s' !! k = Some e /\
    ((exists e0, itable s !! k = Some e0 /\ is_entry d i e0 /\ e = set_ref (ref e0 + 1) e0) \/
     (exists e0, itable s !! k = Some e0 /\ ref e0 = 0 /\ e = set_key d i e0 /\
        forall j e', itable s !! j = Some e' -> ~ is_entry d i e'));
  rf_table : table_ok (itable s');
  rf_count d' i' : refs d' i' (itable s') = refs d' i' (itable s) + (if decide ((d', i') = (d, i)) then 1 else 0);
}.

Lemma unlock_lock s : itable_lock s = false -> with_lock false (with_lock true s) = s.
Proof. destruct s. simpl. by intros ->. Qed.

Lemma table_insert l k e :
  table_ok l -> 0 <= ref e ->
  (forall j e' d i, l !! j = Some e' -> j <> k -> is_entry d i e -> is_entry d i e' -> False) -> table_ok (<[k := e]> l).
Proof.
  intros [H1 H2] He Hne. split.
  - intros j e' Hj. apply list_lookup_insert_Some in Hj as [(_ & -> & _)|[_ Hj]]; [done|by eapply H1].
  - intros j j' e1 e2 d i Hj Hj' He1 He2.
    apply list_lookup_insert_Some in Hj as [(-> & -> & _)|[Hn Hj]];
      apply list_lookup_insert_Some in Hj' as [(-> & -> & _)|[Hn' Hj']]; try done.
    + destruct (Hne j' e2 d i); done.
    + destruct (Hne j e1 d i); done.
    + by eapply H2.
Qed.

Lemma iget_run d i s :
  table_ok (itable s) -> itable_lock s = false ->
  (exists k s', iget d i s = Ok k s' /\ referenced d i k s s') \/
  (iget d i s = Fault (Panic "iget: no inodes") /\
   forall k e, itable s !! k = Some e -> ref e > 0 /\ ~ is_entry d i e).
Proof.
  intros Ht Hl. destruct (iget_scan_spec d i (itable s) 0 None) as [(k & e & Hk & He & Hs)|[Hno [(k & e & Hk & He & _ & Hs)|[Hs Hfull]]]].
  - left. assert (k < length (itable s))%nat by (by eapply lookup_lt_Some).
    exists k, (with_itable (<[k := set_ref (ref e + 1) e]> (itable s)) s). split.
    + unfold iget, acquire. unfold bind at 1. rewrite Hl. unfold gets, bind at 1. cbn [itable with_lock]. rewrite Hs.
      rewrite (bind_ok _ _ _ _ _ (imod_run k _ (with_lock true s) e Hk)). unfold release, bind at 1. simpl.
      unfold ret, with_itable, with_lock. simpl. by rewrite Hl.
    + destruct He as (Hr & <- & <-). split.
      * exists (set_ref (ref e + 1) e). split_and!; [done|unfold is_entry; simpl; split_and!; [lia|done|done]| |].
        { simpl. by apply list_lookup_insert_eq. } { left. by exists e. }
      * apply table_insert; [done|simpl; lia|]. intros j e' d i Hj Hjk (_ & <- & <-) He'. simpl in *.
        apply Hjk. eapply (tb_unique _ Ht); [done|done|done|done].
      * intros d' i'. simpl. rewrite (refs_insert _ _ _ _ e) by done. unfold share, is_entry. simpl.
        repeat case_decide; simplify_eq; try lia; naive_solver lia.
  - left. assert (k < length (itable s))%nat by (by eapply lookup_lt_Some).
    exists k, (with_itable (<[k := set_key d i e]> (itable s)) s). split.
    + unfold iget, acquire. unfold bind at 1. rewrite Hl. unfold gets, bind at 1. cbn [itable with_lock]. rewrite Hs.
      rewrite (bind_ok _ _ _ _ _ (imod_run k _ (with_lock true s) e Hk)). unfold release, bind at 1. simpl.
      unfold ret, with_itable, with_lock. simpl. by rewrite Hl.
    + split.
      * exists (set_key d i e). split_and!; [done|done| |].
        { simpl. by apply list_lookup_insert_eq. } { right. by exists e. }
      * apply table_insert; [done|simpl; lia|]. intros j e' d0 i0 Hj Hjk (_ & <- & <-) He'. by apply (Hno j e').
      * intros d' i'. simpl. rewrite (refs_insert _ _ _ _ e) by done. unfold share, is_entry. simpl.
        repeat case_decide; simplify_eq; try lia; naive_solver lia.
  - right. split.
    + unfold iget, acquire. unfold bind at 1. rewrite Hl. unfold gets, bind at 1. cbn [itable with_lock]. by rewrite Hs.
    + intros k e Hk. split; [|by eapply Hno]. pose proof (tb_refs _ Ht k e Hk). pose proof (Hfull eq_refl k e Hk). lia.
Qed.

(** ** idup and iput *)

Lemma locked_imod k f s e :
  itable_lock s = false -> itable s !! k = Some e ->
  (imod k f ;; release) (with_lock true s) = Ok tt (with_itable (<[k := f e]> (itable s)) s).
Proof.
  intros Hl Hk. rewrite (bind_ok _ _ _ _ _ (imod_run k f (with_lock true s) e Hk)).
  unfold release. simpl. unfold with_itable, with_lock. simpl. by rewrite Hl.
Qed.

Lemma idup_run k s e :
  itable_lock s = false -> itable s !! k = Some e ->
  idup k s = Ok k (with_itable (<[k := set_ref (ref e + 1) e]> (itable s)) s).
Proof.
  intros Hl Hk. unfold idup, acquire. unfold bind at 1. rewrite Hl.
  pose proof (locked_imod k (fun x => set_ref (ref x + 1) x) s e Hl Hk) as H.
  unfold bind in H |- *. destruct (imod k _ (with_lock true s)); [|done|done]. by rewrite H.
Qed.

(** Not the last reference, or an inode that keeps its links. *)
Lemma iput_keeps k s e :
  itable_lock s = false -> itable s !! k = Some e -> ~ (ref e = 1 /\ valid e = true /\ nlink e = 0) ->
  iput k s = Ok tt (with_itable (<[k := set_ref (ref e - 1) e]> (itable s)) s).
Proof.
  intros Hl Hk Hn. unfold iput, acquire. unfold bind at 1. rewrite Hl.
  rewrite (bind_ok _ _ _ _ _ (iat_run k (with_lock true s) e Hk)). rewrite decide_False by done.
  unfold bind at 1, ret at 1. by apply (locked_imod k (fun x => set_ref (ref x - 1) x)).
Qed.

Lemma isleep_run k s e :
  itable s !! k = Some e -> locked e = false ->
  acquiresleep k s = Ok tt (with_itable (<[k := set_locked true e]> (itable s)) s).
Proof.
  intros Hk Hl. unfold acquiresleep. rewrite (bind_ok _ _ _ _ _ (iat_run _ _ _ Hk)), Hl. by apply imod_run.
Qed.

(** The entry of an inode that has been freed. *)
Definition freed (e : inode) : inode := set_ref 0 (set_valid false (set_type 0 (emptied e))).

Lemma with_itable_twice l l' s : with_itable l (with_itable l' s) = with_itable l s.
Proof. done. Qed.

Lemma iput_frees k s e :
  disk_ok s -> ready s -> itable_lock s = false -> itable s !! k = Some e -> file_ok e s ->
  0 <= inum e < ninodes (sb s) -> ref e = 1 -> valid e = true -> nlink e = 0 -> locked e = false ->
  exists s', iput k s = Ok tt s' /\
    s' = with_blocks (blocks s') (with_itable (<[k := freed e]> (itable s)) s) /\ disk_ok s' /\
    (forall b, 0 <= b < sb_size (sb s) -> used b s' = negb (bool_decide (owns e s (zrange 0 NSLOT) b)) && used b s) /\
    (forall c, ~ mapblock c (sb s) -> c <> IBLOCK (inum e) (sb s) -> data c s' = data c s) /\
    on_disk (inum e) s' = dinode_bytes (freed e).
Proof.
  intros Hd Hr Hl Hk Hf Hi Hr1 Hv Hn Hlk. assert (k < length (itable s))%nat as Hlt by (by eapply lookup_lt_Some).
  set (e1 := set_locked true e). set (s1 := with_itable (<[k := e1]> (itable s)) s).
  assert (itable s1 !! k = Some e1) as Hk1 by (by apply list_lookup_insert_eq).
  assert (disk_ok s1) as Hd1 by (by destruct Hd). assert (file_ok e1 s1) as Hf1 by (by destruct Hf).
  destruct (itrunc_run k e1 s1 Hd1 Hr Hk1 Hf1 Hi) as (s2 & Htr & [Tf Tok Tu Ts To]).
  set (e3 := set_type 0 (emptied e1)). set (s3 := with_itable (<[k := e3]> (itable s)) s2).
  assert (itable s2 = <[k := emptied e1]> (itable s)) as Hit2.
  { rewrite Tf. simpl. by rewrite list_insert_insert_eq. }
  assert (itable s2 !! k = Some (emptied e1)) as Hk2 by (rewrite Hit2; by apply list_lookup_insert_eq).
  assert (itable s3 !! k = Some e3) as Hk3 by (by apply list_lookup_insert_eq).
  assert (disk_ok s3) as Hd3 by (by destruct Tok).
  assert (ready s3) as Hr3 by (unfold s3; rewrite Tf; done).
  assert (sb s3 = sb s) as Hsb by (unfold s3; rewrite Tf; done).
  destruct (iupdate_effect k e3 s3 Hd3 Hr3 Hk3 eq_refl) as (c & Hup & Hc & Hon); [by rewrite Hsb|].
  change (inum e3) with (inum e) in *. rewrite Hsb in Hup, Hon.
  pose proof (IBLOCK_range (inum e) (sb s) (dk_layout _ Hd) Hi) as Hib.
  destruct (inode_write (IBLOCK (inum e) (sb s)) c s3 Hd3) as [Hd4 _]; [by rewrite Hsb|done|].
  set (s4 := setb _ c s3) in *. assert (itable_lock s4 = false) as Hl4 by (unfold s4, s3; rewrite Tf; done).
  exists (with_itable (<[k := freed e]> (itable s)) s4). split_and!.
  - unfold iput, acquire. unfold bind at 1. rewrite Hl.
    rewrite (bind_ok _ _ _ _ _ (iat_run k (with_lock true s) e Hk)), decide_True by done.
    rewrite bind_assoc, (bind_ok _ _ _ _ _ (isleep_run k (with_lock true s) e Hk Hlk)).
    rewrite bind_assoc. unfold release at 1. unfold bind at 1. cbn [itable_lock with_itable with_lock].
    replace (with_lock false _) with s1 by (unfold s1, with_lock, with_itable; simpl; by rewrite Hl).
    rewrite bind_assoc, (bind_ok _ _ _ _ _ Htr). rewrite bind_assoc, (bind_ok _ _ _ _ _ (imod_run k (set_type 0) s2 _ Hk2)).
    rewrite Hit2, list_insert_insert_eq. change (with_itable _ s2) with s3.
    rewrite bind_assoc, (bind_ok _ _ _ _ _ Hup). rewrite bind_assoc.
    rewrite (bind_ok _ _ _ _ _ (imod_run k (set_valid false) s4 e3 Hk3)). unfold releasesleep. rewrite bind_assoc.
    assert (itable s4 = <[k := e3]> (itable s)) as Hit4 by done. rewrite Hit4, list_insert_insert_eq.
    erewrite bind_ok; [|apply imod_run; simpl; by apply list_lookup_insert_eq].
    rewrite with_itable_twice. cbn [itable with_itable]. rewrite list_insert_insert_eq.
    unfold acquire, bind at 1. cbn [itable_lock with_itable]. rewrite Hl4.
    rewrite locked_imod with (e := set_locked false (set_valid false e3)); [|done|simpl; by apply list_lookup_insert_eq].
    rewrite with_itable_twice. cbn [itable with_itable]. rewrite list_insert_insert_eq. do 4 f_equal.
    unfold freed, e3, e1, emptied. destruct e. simpl in *. subst. done.
  - unfold s4, s3. rewrite Tf. unfold setb, with_blocks, with_itable. simpl. done.
  - by destruct Hd4.
  - intros b Hb. change (used b s4 = negb (bool_decide (owns e s (zrange 0 NSLOT) b)) && used b s). unfold s4.
    rewrite used_setb; rewrite ?Hsb; [by apply (Tu b)|apply Hd|done|unfold mapblock; lia].
  - intros d Hm Hne. change (data d s4 = data d s). unfold s4. rewrite data_setb, decide_False by done. by apply Ts.
  - exact Hon.
Qed.
