(* ===== verification/FsDir.v ===== *)
(** * kernel/fs.c: directories as maps from names to inode numbers *)

From Stdlib Require Import ZArith Lia.
From stdpp Require Import base numbers list gmap strings.
From S2P Require Import Prelude Fs FsBlocks FsFile FsWrite FsTrunc FsTable.
Open Scope Z_scope.

(** ** Names *)

(** A name in a directory: its first DIRSIZ characters up to the NUL, filled up. *)
Definition norm (name : list Z) : list Z := str_prefix DIRSIZ name 0.

Lemma strncmp_prefix n s t : forall i, strncmp_from n s t i = 0 <-> str_prefix n s i = str_prefix n t i.
Proof.
  induction n as [|n IH]; intros i; [done|]. cbn [strncmp_from str_prefix].
  destruct (decide (ch s i <> 0 /\ ch s i = ch t i)) as [[H1 H2]|H].
  - rewrite IH. rewrite !decide_False by congruence. rewrite H2. split; [by intros ->|by intros [= ->]].
  - repeat case_decide; simpl; split; intros E; try done; try (injection E as E'); try lia; try tauto.
    all: try (exfalso; apply H; split; [done|lia]).
    all: rewrite H0 in *; congruence.
Qed.

Lemma str_prefix_app n s : forall i pre, str_prefix n (pre ++ str_prefix n s i) (length pre) = str_prefix n s i.
Proof.
  induction n as [|n IH]; intros i pre; [done|].
  assert (forall c l, ch (pre ++ c :: l) (length pre) = c) as Hch.
  { intros c l. unfold ch. by rewrite list_lookup_middle. }
  cbn [str_prefix]. destruct (decide (ch s i = 0)) as [E|E].
  - cbn [replicate]. rewrite Hch. by rewrite decide_True.
  - rewrite Hch, decide_False by done. f_equal.
    specialize (IH (S i) (pre ++ [ch s i])). rewrite <- app_assoc, length_app, Nat.add_1_r in IH. exact IH.
Qed.
Lemma norm_norm name : norm (norm name) = norm name.
Proof. apply (str_prefix_app DIRSIZ name 0 []). Qed.
Lemma length_str_prefix n s : forall i, length (str_prefix n s i) = n.
Proof.
  induction n as [|n IH]; intros i; [done|]. cbn [str_prefix]. case_decide; [apply length_replicate|]. simpl. by rewrite IH.
Qed.
Lemma namecmp_norm s t : namecmp s t = 0 <-> norm s = norm t.
Proof. apply strncmp_prefix. Qed.

(** ** Entries *)

Definition matches (name de : list Z) : Prop := de_inum de <> 0 /\ norm name = norm (de_name de).
#[export] Instance matches_dec name de : Decision (matches name de).
Proof. unfold matches. apply _. Defined.

Definition dirents (l : list Z) : list (list Z) :=
  (fun k => slice l (k * DESIZE) DESIZE) <$> zrange 0 (Z.of_nat (length l) / DESIZE).
Definition found (name de : list Z) : option Z := if decide (matches name de) then Some (de_inum de) else None.
(** The directory as a map. *)
Definition dir_get (name : list Z) (l : list Z) : option Z := head (omap (found name) (dirents l)).

Lemma length_dirent i name : length (dirent i name) = 16%nat.
Proof. unfold dirent. rewrite length_app, length_le, length_str_prefix. done. Qed.
Lemma dirent_inum i name : de_inum (dirent i name) = i mod 65536.
Proof. unfold de_inum, dirent. rewrite take_app_length' by (by rewrite length_le). by rewrite unle_le. Qed.
Lemma dirent_name i name : de_name (dirent i name) = norm name.
Proof. unfold de_name, dirent. by rewrite drop_app_length' by (by rewrite length_le). Qed.
Lemma found_dirent i name name' :
  0 < i < 65536 -> found name' (dirent i name) = if decide (norm name' = norm name) then Some i else None.
Proof.
  intros Hi. assert (matches name' (dirent i name) <-> norm name' = norm name) as Hm.
  { unfold matches. rewrite dirent_inum, dirent_name, norm_norm, Z.mod_small by lia. split; [tauto|]. split; [lia|done]. }
  unfold found. rewrite dirent_inum, Z.mod_small by lia. repeat case_decide; tauto || done.
Qed.

Lemma dirents_lookup l k :
  0 <= k < Z.of_nat (length l) / DESIZE -> dirents l !! Z.to_nat k = Some (slice l (k * DESIZE) DESIZE).
Proof.
  intros Hk. unfold dirents, zrange. rewrite list_lookup_fmap, lookup_seqZ_lt by lia. simpl. by rewrite Z2Nat.id by lia.
Qed.

Lemma splice_slice l k q de :
  Z.of_nat (length l) = q * DESIZE -> 0 <= k <= q -> length de = 16%nat -> forall j, 0 <= j <= Z.max (q - 1) k ->
  slice (splice l (k * DESIZE) de) (j * DESIZE) DESIZE = if decide (j = k) then de else slice l (j * DESIZE) DESIZE.
Proof.
  unfold DESIZE. intros Hl Hk Hde j Hj.
  pose proof (length_splice_max l (k * 16) de ltac:(lia)) as Hs. rewrite Hl, Hde in Hs.
  apply nthb_ext; [case_decide; rewrite !length_slice; lia|].
  intros i Hi. rewrite length_slice in Hi by lia. rewrite nthb_slice, nthb_splice by lia. rewrite Hde.
  case_decide as E; case_decide; try lia.
  - f_equal. lia.
  - by rewrite nthb_slice by lia.
Qed.

(** An entry is written at [k]: over a free one, or at the end. *)
Lemma dirents_splice l q k de :
  Z.of_nat (length l) = q * DESIZE -> 0 <= k <= q -> length de = 16%nat ->
  exists es1 es2, dirents (splice l (k * DESIZE) de) = es1 ++ de :: es2 /\
    (if decide (k < q) then exists e, e = slice l (k * DESIZE) DESIZE /\ dirents l = es1 ++ e :: es2
     else es2 = [] /\ dirents l = es1).
Proof.
  intros Hl Hk Hde. pose proof (splice_slice l k q de Hl Hk Hde) as HS.
  assert (forall q', q' * DESIZE / DESIZE = q') as Hq by (intros; by apply Z.div_mul).
  exists ((fun j => slice l (j * DESIZE) DESIZE) <$> zrange 0 k), ((fun j => slice l (j * DESIZE) DESIZE) <$> zrange (k + 1) q).
  pose proof (length_splice_max l (k * DESIZE) de ltac:(unfold DESIZE in *; lia)) as Hs.
  assert (Z.of_nat (length (splice l (k * DESIZE) de)) = Z.max q (k + 1) * DESIZE) as Hs'.
  { rewrite Hs, Hl, Hde. unfold DESIZE. lia. }
  unfold dirents. rewrite Hs', Hl, !Hq. rewrite (zrange_split 0 k) by lia. rewrite (zrange_cons k) by lia.
  rewrite fmap_app, fmap_cons. split.
  - f_equal; [|f_equal].
    + apply list_fmap_ext. intros i j Hj. apply list_elem_of_lookup_2, elem_of_zrange in Hj.
      rewrite HS by lia. by rewrite decide_False by lia.
    + rewrite HS by lia. by rewrite decide_True.
    + destruct (decide (k < q)); [|rewrite !zrange_nil by lia; done]. rewrite Z.max_l by lia.
      apply list_fmap_ext. intros i j Hj. apply list_elem_of_lookup_2, elem_of_zrange in Hj.
      rewrite HS by lia. by rewrite decide_False by lia.
  - case_decide.
    + eexists. split; [done|]. rewrite (zrange_split 0 k q) by lia. rewrite (zrange_cons k q) by lia. by rewrite fmap_app, fmap_cons.
    + replace q with k by lia. split; [by rewrite zrange_nil by lia|done].
Qed.

(** A new name is added to the map. *)
Lemma dir_get_add l q k i name name' :
  Z.of_nat (length l) = q * DESIZE -> 0 <= k <= q -> 0 < i < 65536 -> dir_get name l = None ->
  (k < q -> de_inum (slice l (k * DESIZE) DESIZE) = 0) ->
  dir_get name' (splice l (k * DESIZE) (dirent i name)) = if decide (norm name' = norm name) then Some i else dir_get name' l.
Proof.
  intros Hl Hk Hi Hno Hfree. destruct (dirents_splice l q k (dirent i name) Hl Hk (length_dirent _ _)) as (es1 & es2 & E & Ek).
  unfold dir_get in *. rewrite E, omap_app. cbn [omap list_omap]. rewrite found_dirent by done.
  assert (exists mid, dirents l = es1 ++ mid ++ es2 /\ omap (found name') mid = []) as (mid & El & Hmid).
  { case_decide.
    - destruct Ek as (e & -> & El). exists [slice l (k * DESIZE) DESIZE]. split; [done|]. simpl. unfold found.
      rewrite decide_False; [done|]. unfold matches. rewrite Hfree by done. tauto.
    - destruct Ek as [-> El]. exists []. by rewrite El, !app_nil_r. }
  rewrite El, !omap_app in *. rewrite Hmid. destruct (decide (norm name' = norm name)) as [En|En]; [|done].
  assert (omap (found name') es1 = omap (found name) es1) as ->.
  { apply list_omap_ext. apply Forall_Forall2_diag, Forall_true. intros e.
    unfold found. assert (matches name' e <-> matches name e) by (unfold matches; by rewrite En).
    repeat case_decide; tauto || done. }
  apply head_None, app_eq_nil in Hno as [-> _]. done.
Qed.

(** ** dirlookup *)

Record dir_ok (x : inode) (q : Z) (s : fs) : Prop := {
  do_file : file_ok x s;
  do_type : type x = T_DIR;
  do_size : size x = q * DESIZE;
}.

Lemma dir_entries q : 0 <= q -> entries (q * DESIZE) = (fun k => k * DESIZE) <$> zrange 0 q.
Proof.
  intros. unfold entries. f_equal. f_equal. unfold DESIZE. replace (q * 16 + 16 - 1) with (15 + q * 16) by lia.
  rewrite Z.div_add by done. done.
Qed.

Lemma do_q x q s : dir_ok x q s -> 0 <= q.
Proof. intros [Hf _ Hs]. pose proof (fo_size _ _ Hf). unfold DESIZE in Hs. lia. Qed.
Lemma dir_length x q s : dir_ok x q s -> Z.of_nat (length (content x s)) = q * DESIZE.
Proof. intros [Hf _ Hs]. rewrite length_content; [done|]. apply Hf. Qed.
Lemma dirents_content x q s :
  dir_ok x q s -> dirents (content x s) = (fun k => slice (content x s) (k * DESIZE) DESIZE) <$> zrange 0 q.
Proof. intros H. unfold dirents. rewrite (dir_length _ _ _ H). by rewrite Z.div_mul. Qed.

Lemma read_dirent dp x q s k :
  disk_ok s -> held s = ∅ -> itable s !! dp = Some x -> dir_ok x q s -> 0 <= k < q ->
  readi dp whole (k * DESIZE) DESIZE s = Ok (DESIZE, slice (content x s) (k * DESIZE) DESIZE) s.
Proof.
  intros Hd Hh Hx Hdir Hk. pose proof (do_size _ _ _ Hdir) as Hs.
  destruct (readi_run dp x s whole (k * DESIZE) DESIZE Hd Hh Hx (do_file _ _ _ Hdir)) as [R|(? & ? & ? & ? & _)];
    [unfold DESIZE in *; lia|by cbv| |done].
  rewrite R. unfold readable. rewrite Z.min_l by (unfold DESIZE in *; lia). done.
Qed.

Lemma omap_found_nil name es : (forall de, de ∈ es -> ~ matches name de) -> omap (found name) es = [].
Proof.
  induction es as [|de es IH]; intros H; [done|]. simpl. unfold found at 1. rewrite decide_False by (apply H; left).
  apply IH. intros e He. apply H. by right.
Qed.

Lemma for_until_fmap {S A B C} (f : A -> B) (body : B -> M S (option C)) l s :
  for_until (f <$> l) body s = for_until l (fun x => body (f x)) s.
Proof.
  revert s. induction l as [|x l IH]; intros s; [done|]. rewrite fmap_cons. simpl. unfold bind.
  destruct (body (f x) s) as [[v|] s'| |]; [done|apply IH|done|done].
Qed.

Lemma for_until_skip {S A B} (body : A -> M S (option B)) l1 x l2 s :
  (forall y, y ∈ l1 -> body y s = Ok None s) ->
  for_until (l1 ++ x :: l2) body s =
    (let! r := body x in match r with Some v => ret (Some v) | None => for_until l2 body end) s.
Proof.
  induction l1 as [|y l1 IH]; intros H; [done|]. simpl. rewrite (bind_ok _ _ _ None s) by (apply H; left).
  apply IH. intros z Hz. apply H. by right.
Qed.

Lemma dirlookup_run dp name x q s :
  disk_ok s -> held s = ∅ -> itable s !! dp = Some x -> dir_ok x q s ->
  match dir_get name (content x s) with
  | None => dirlookup dp name s = Ok None s
  | Some i => i <> 0 /\ exists off, dirlookup dp name s = (let! ip := iget (dev x) i in ret (Some (ip, off))) s
  end.
Proof.
  intros Hd Hh Hx Hdir. pose proof (do_q _ _ _ Hdir) as Hq. set (l := content x s).
  eassert (dirlookup dp name s = _) as ->.
  { unfold dirlookup. rewrite (bind_ok _ _ _ _ _ (iat_run _ _ _ Hx)).
    rewrite decide_False by (rewrite (do_type _ _ _ Hdir); tauto). rewrite (do_size _ _ _ Hdir), dir_entries by done.
    rewrite for_until_fmap. reflexivity. }
  assert (forall k, k ∈ zrange 0 q -> readi dp whole (k * DESIZE) DESIZE s = Ok (DESIZE, slice l (k * DESIZE) DESIZE) s) as Hread.
  { intros k Hk%elem_of_zrange. by eapply read_dirent. }
  pose proof (dirents_content _ _ _ Hdir) as Ed. fold l in Ed. unfold dir_get. rewrite Ed.
  destruct (first_split (fun k => matches name (slice l (k * DESIZE) DESIZE)) (zrange 0 q)) as [Hno|(l1 & k & l2 & E & Hk & Hbefore)].
  - rewrite omap_found_nil; [|intros de (k & -> & Hk)%list_elem_of_fmap; by apply Hno]. apply for_until_none. intros k Hk.
    rewrite (bind_ok _ _ _ _ _ (Hread k Hk)). rewrite decide_False by tauto.
    specialize (Hno k Hk). unfold matches in Hno. rewrite <- namecmp_norm in Hno. repeat case_decide; done || tauto.
  - rewrite E, fmap_app, fmap_cons, omap_app. rewrite omap_found_nil; [|intros de (j & -> & Hj)%list_elem_of_fmap; by apply Hbefore].
    simpl. unfold found at 1. rewrite decide_True by done. destruct Hk as [Hi Hn]. split; [done|]. exists (k * DESIZE).
    assert (k ∈ zrange 0 q) as Hkin by (rewrite E; set_solver).
    rewrite for_until_skip.
    2: { intros j Hj. assert (j ∈ zrange 0 q) as Hjin by (rewrite E; set_solver).
         rewrite (bind_ok _ _ _ _ _ (Hread j Hjin)). rewrite decide_False by tauto.
         specialize (Hbefore j Hj). unfold matches in Hbefore. rewrite <- namecmp_norm in Hbefore.
         repeat case_decide; done || tauto. }
    unfold bind at 1. rewrite (bind_ok _ _ _ _ _ (Hread k Hkin)). rewrite decide_False by tauto.
    rewrite decide_False by done. rewrite decide_True by (by apply namecmp_norm).
    unfold bind. by destruct (iget _ _ s).
Qed.

(** ** dirlink *)

(** A reference taken and dropped leaves the counts as they were. *)
Lemma iget_iput d i k s s1 :
  table_ok (itable s) -> itable_lock s = false -> referenced d i k s s1 ->
  exists s2, iput k s1 = Ok tt s2 /\ s2 = with_itable (itable s2) s /\
    forall d' i', refs d' i' (itable s2) = refs d' i' (itable s).
Proof.
  intros Ht Hl HR. pose proof (rf_count _ _ _ _ _ HR) as Hc. destruct (rf_frame _ _ _ _ _ HR) as (e & Hs1 & He & Hk & Hcase).
  assert (itable_lock s1 = false) as Hl1 by (by rewrite Hs1).
  eexists. split; [apply (iput_keeps k s1 e Hl1 Hk)|split].
  - destruct Hcase as [(e0 & _ & [? _] & ->)|(e0 & _ & _ & -> & _)]; simpl; [lia|intros (_ & ? & _); done].
  - by rewrite Hs1.
  - intros d' i'. cbn [itable with_itable]. rewrite (refs_insert _ _ _ _ e) by done. rewrite Hc.
    destruct He as (Hr & <- & <-). unfold share, is_entry. simpl.
    repeat case_decide; simplify_eq; try lia; naive_solver lia.
Qed.

Lemma kernel_delivers bs : delivers (kernel_src bs) bs.
Proof. intros t m _ _ _. by left. Qed.

Lemma str_prefix_bytes n s : Forall byte s -> forall i, Forall byte (str_prefix n s i).
Proof.
  intros Hs. induction n as [|n IH]; intros i; [constructor|]. cbn [str_prefix]. case_decide.
  - apply Forall_replicate. by cbv.
  - constructor; [|apply IH]. unfold ch. destruct (s !! i) as [c|] eqn:E; [|by cbv]. by eapply Forall_lookup_1 in E.
Qed.
Lemma dirent_bytes i name : Forall byte name -> Forall byte (dirent i name).
Proof. intros. apply Forall_app. split; [apply le_bytes|by apply str_prefix_bytes]. Qed.

(** The place for a new entry: the first free one, or the end. *)
Lemma free_dirent dp x q s :
  disk_ok s -> held s = ∅ -> itable s !! dp = Some x -> dir_ok x q s ->
  exists k r, for_until (entries (size x)) (fun off =>
      let! (r, de) := readi dp whole off DESIZE in
      if decide (r <> DESIZE) then panic "dirlink read"
      else if decide (de_inum de = 0) then ret (Some off) else ret None) s = Ok r s /\
    default ((size x + DESIZE - 1) / DESIZE * DESIZE) r = k * DESIZE /\ 0 <= k <= q /\
    (k < q -> de_inum (slice (content x s) (k * DESIZE) DESIZE) = 0).
Proof.
  intros Hd Hh Hx Hdir. pose proof (do_q _ _ _ Hdir) as Hq. rewrite (do_size _ _ _ Hdir), dir_entries by done.
  assert (forall k, k ∈ zrange 0 q -> readi dp whole (k * DESIZE) DESIZE s = Ok (DESIZE, slice (content x s) (k * DESIZE) DESIZE) s) as Hread.
  { intros k Hk%elem_of_zrange. by eapply read_dirent. }
  rewrite for_until_fmap.
  destruct (first_split (fun k => de_inum (slice (content x s) (k * DESIZE) DESIZE) = 0) (zrange 0 q)) as [Hno|(l1 & k & l2 & E & Hk & Hbefore)].
  - exists q, None. rewrite for_until_none.
    2: { intros k Hk. rewrite (bind_ok _ _ _ _ _ (Hread k Hk)), decide_False by tauto. by rewrite decide_False by (by apply Hno). }
    split_and!; [done| |lia|lia|lia]. simpl. unfold DESIZE. replace (q * 16 + 16 - 1) with (15 + q * 16) by lia.
    by rewrite Z.div_add.
  - assert (k ∈ zrange 0 q) as Hkin by (rewrite E; set_solver). exists k, (Some (k * DESIZE)).
    apply elem_of_zrange in Hkin as Hkr. split_and!; [|done|lia|lia|done].
    rewrite E. apply for_until_found.
    + intros j Hj. rewrite (bind_ok _ _ _ _ _ (Hread j ltac:(rewrite E; set_solver))), decide_False by tauto.
      by rewrite decide_False by (by apply Hbefore).
    + rewrite (bind_ok _ _ _ _ _ (Hread k Hkin)), decide_False by tauto. by rewrite decide_True.
Qed.

Lemma dirlink_run dp name i x q s :
  disk_ok s -> ready s -> itable s !! dp = Some x -> dir_ok x q s -> 0 <= inum x < ninodes (sb s) ->
  size x < MAXFILE * BSIZE -> Forall byte name -> 0 < i < 65536 -> dir_get name (content x s) = None ->
  exists r off tot x' s', dirlink dp name i s = Ok r s' /\ written dp x s off tot (dirent i name) x' s' /\
    ((r = 0 /\ forall name', dir_get name' (content x' s') =
        if decide (norm name' = norm name) then Some i else dir_get name' (content x s)) \/
     (r = -1 /\ full s' /\ content x' s' = content x s)).
Proof.
  intros Hd Hr Hx Hdir Hi Hsz Hnm Hir Hno. pose proof Hr as [_ Hh]. pose proof (do_q _ _ _ Hdir) as Hq.
  pose proof (dirlookup_run dp name x q s Hd Hh Hx Hdir) as HL. rewrite Hno in HL.
  destruct (free_dirent dp x q s Hd Hh Hx Hdir) as (k & r & Hscan & Hoff & Hk & Hfree).
  pose proof (do_size _ _ _ Hdir) as Hs.
  destruct (writei_run dp x s (kernel_src (dirent i name)) (dirent i name) (k * DESIZE) Hd Hr Hx (do_file _ _ _ Hdir) Hi
              (kernel_delivers _) (dirent_bytes _ _ Hnm)) as (tot & x' & s' & Hw & Ht & Hshort & Hend & HW).
  { unfold DESIZE in *. lia. } { rewrite length_dirent. unfold DESIZE, MAXFILE, NDIRECT, NINDIRECT, BSIZE in *. lia. }
  rewrite length_dirent in Hw, Ht, Hshort, Hend. change (Z.of_nat 16) with DESIZE in *.
  exists (if decide (tot <> DESIZE) then -1 else 0), (k * DESIZE), tot, x', s'. split_and!; [|done|].
  - unfold dirlink. rewrite (bind_ok _ _ _ _ _ HL), (bind_ok _ _ _ _ _ (iat_run _ _ _ Hx)), (bind_ok _ _ _ _ _ Hscan).
    rewrite Hoff. rewrite (bind_ok _ _ _ _ _ Hw). by case_decide.
  - pose proof (wn_content _ _ _ _ _ _ _ _ HW) as Hc. case_decide as E.
    + right. assert (tot = 0) as ->.
      { destruct Hend as [?|[?|Hm]]; [done|lia|]. unfold DESIZE, BSIZE in *.
        apply Z.mod_divide in Hm as [c Hc']; [|done]. lia. }
      split; [done|]. split; [by destruct (Hshort ltac:(by cbv)) as [?|(? & ? & ? & ? & ? & ?)]|].
      rewrite Hc. pose proof (dir_length _ _ _ Hdir) as Hl. unfold splice. simpl. rewrite Nat.add_0_r. apply take_drop.
    + left. split; [done|]. intros name'. assert (tot = DESIZE) as -> by (destruct (decide (tot = DESIZE)); tauto).
      rewrite Hc. rewrite take_ge by (rewrite length_dirent; by cbv).
      apply (dir_get_add _ q); try done. by eapply dir_length.
Qed.
