(* ===== verification/FsPath.v ===== *)
(** * kernel/fs.c: the elements of a path *)

From Stdlib Require Import ZArith Lia.
From stdpp Require Import base numbers list gmap strings.
From S2P Require Import Prelude Fs FsBlocks FsFile FsWrite FsTrunc FsTable FsDir.
Open Scope Z_scope.

(** ** Elements

    The pieces between the slashes, empty ones left out. *)

Fixpoint pieces (cur path : list Z) : list (list Z) :=
  match path with
  | [] => [cur]
  | c :: p => if decide (c = SLASH) then cur :: pieces [] p else pieces (cur ++ [c]) p
  end.
Definition elems (path : list Z) : list (list Z) := filter (fun e => e <> []) (pieces [] path).

Lemma elems_slash p : elems (SLASH :: p) = elems p.
Proof. done. Qed.
Lemma elems_skip p : elems (skip_slashes p) = elems p.
Proof. induction p as [|c p IH]; [done|]. simpl. case_decide; [subst; by rewrite IH|done]. Qed.
Lemma skip_slashes_head p c r : skip_slashes p = c :: r -> c <> SLASH.
Proof. induction p as [|a p IH]; [done|]. simpl. case_decide; [done|]. congruence. Qed.

Lemma pieces_elem p : forall cur e r, take_elem p = (e, r) -> pieces cur p = (cur ++ e) :: match r with [] => [] | _ :: r' => pieces [] r' end.
Proof.
  induction p as [|c p IH]; intros cur e r; simpl.
  { intros [= <- <-]. by rewrite app_nil_r. }
  destruct (decide (c = SLASH)) as [->|Hc].
  { rewrite decide_False by tauto. intros [= <- <-]. by rewrite app_nil_r. }
  rewrite decide_True by done. destruct (take_elem p) as [e' r'] eqn:E. intros [= <- <-].
  rewrite (IH _ _ _ eq_refl). by rewrite <- app_assoc.
Qed.
Lemma take_elem_rest p e r : take_elem p = (e, r) -> r = [] \/ exists r', r = SLASH :: r'.
Proof.
  revert e r. induction p as [|c p IH]; intros e r; simpl; [intros [= <- <-]; by left|].
  case_decide as Hc.
  - destruct (take_elem p) as [e' r'] eqn:E. intros [= <- <-]. by eapply IH.
  - intros [= <- <-]. right. exists p. f_equal. destruct (decide (c = SLASH)); tauto.
Qed.
Lemma take_elem_app p e r : take_elem p = (e, r) -> p = e ++ r.
Proof.
  revert e r. induction p as [|c p IH]; intros e r; simpl; [by intros [= <- <-]|].
  case_decide; [|by intros [= <- <-]]. destruct (take_elem p) as [e' r'] eqn:E. intros [= <- <-]. simpl. f_equal. by apply IH.
Qed.

(** What is in the name buffer compares like the element. *)
Lemma str_prefix_ext n s t : forall i j,
  (forall k, (k < n)%nat -> ch s (i + k) = ch t (j + k) \/ exists k', (k' < k)%nat /\ ch s (i + k') = 0 /\ ch t (j + k') = 0) ->
  str_prefix n s i = str_prefix n t j.
Proof.
  induction n as [|n IH]; intros i j H; [done|]. cbn [str_prefix].
  destruct (H 0%nat ltac:(lia)) as [E|(? & ? & _)]; [|lia]. rewrite !Nat.add_0_r in E. rewrite E. case_decide; [done|].
  f_equal. apply IH. intros k Hk. destruct (H (S k) ltac:(lia)) as [E'|(k' & Hk' & H1 & H2)].
  - left. rewrite !Nat.add_succ_r in E'. done.
  - destruct k' as [|k']; [rewrite !Nat.add_0_r in *; congruence|]. right. exists k'.
    rewrite !Nat.add_succ_r in *. split_and!; [lia|done|done].
Qed.

Lemma skipelem_spec path name :
  Forall (fun c => c <> 0) path ->
  match skipelem path name with
  | None => elems path = []
  | Some (rest, name') => exists e, elems path = e :: elems rest /\ norm name' = norm e /\ (rest = [] <-> elems rest = []) /\
      (length rest < length path)%nat /\ Forall (fun c => c <> 0) rest
  end.
Proof.
  intros Hp. unfold skipelem. rewrite <- (elems_skip path).
  assert (Forall (fun c => c <> 0) (skip_slashes path) /\ (length (skip_slashes path) <= length path)%nat) as [Hs Hlen].
  { clear name. induction path as [|c p IH]; [done|]. apply Forall_cons in Hp as [Hc Hp]. simpl.
    case_decide; [|split; [by constructor|simpl; lia]]. destruct (IH Hp). split; [done|lia]. }
  destruct (skip_slashes path) as [|c s] eqn:Es; [done|].
  pose proof (skip_slashes_head _ _ _ Es) as Hc. destruct (take_elem (c :: s)) as [e r] eqn:Et.
  pose proof (take_elem_app _ _ _ Et) as Eapp. rewrite Eapp in Hs. apply Forall_app in Hs as [He Hr].
  assert (e <> []) as Hne.
  { simpl in Et. rewrite decide_True in Et by done. destruct (take_elem s). injection Et as <- _. done. }
  assert (Forall (fun c => c <> 0) (skip_slashes r) /\ (length (skip_slashes r) <= length r)%nat) as [Hr' Hlen'].
  { clear -Hr. induction r as [|c r IH]; [done|]. apply Forall_cons in Hr as [Hc Hr]. simpl.
    case_decide; [|split; [by constructor|simpl; lia]]. destruct (IH Hr). split; [done|lia]. }
  exists e. split_and!.
  - rewrite elems_skip. unfold elems at 1. rewrite (pieces_elem _ _ _ _ Et). rewrite filter_cons_True by done. f_equal.
    destruct (take_elem_rest _ _ _ Et) as [->|[r' ->]]; [done|]. by rewrite elems_slash.
  - apply str_prefix_ext. intros k Hk. simpl. unfold ch. case_decide as Hd.
    + left. by rewrite lookup_take_lt.
    + destruct (decide (k < length e)%nat); [left; by rewrite lookup_app_l|].
      destruct (decide (k = length e)) as [->|].
      * left. rewrite lookup_app_r, Nat.sub_diag by lia. simpl. by rewrite lookup_ge_None_2 by lia.
      * right. exists (length e). split; [lia|]. rewrite lookup_app_r, Nat.sub_diag by lia. simpl. by rewrite lookup_ge_None_2 by lia.
  - rewrite elems_skip. split; [intros E; rewrite <- elems_skip; by rewrite E|]. intros E.
    destruct (skip_slashes r) as [|c' r'] eqn:Er; [done|]. exfalso. rewrite <- elems_skip, Er in E.
    pose proof (skip_slashes_head _ _ _ Er) as Hc'. destruct (take_elem (c' :: r')) as [e' r2] eqn:Et'.
    unfold elems in E. rewrite (pieces_elem _ _ _ _ Et') in E.
    simpl in Et'. rewrite decide_True in Et' by done. destruct (take_elem r'). injection Et' as <- _.
    by rewrite filter_cons_True in E by done.
  - apply (f_equal length) in Eapp. rewrite length_app in Eapp. simpl in Eapp, Hlen.
    assert (length e <> 0)%nat by (by destruct e). lia.
  - done.
Qed.
