(* ===== verification/FsNamei.v ===== *)
(** * kernel/fs.c: namei and nameiparent follow a path through the directories *)

From Stdlib Require Import ZArith Lia.
From stdpp Require Import base numbers list gmap strings.
From S2P Require Import Prelude Fs FsBlocks FsFile FsWrite FsTrunc FsTable FsDir FsPath.
Open Scope Z_scope.

(** ** Inodes read from the disk *)

Definition decode (l : list Z) (x : inode) : inode :=
  mkInode (dev x) (inum x) (ref x) (locked x) (valid x)
    (i16 (unle (slice l 0 2))) (i16 (unle (slice l 2 2))) (i16 (unle (slice l 4 2))) (i16 (unle (slice l 6 2)))
    (unle (slice l 8 4)) ((fun i => unle (slice (slice l 12 52) (4 * i) 4)) <$> zrange 0 13).

(** The inode [i] of the disk. *)
Definition dn (s : fs) (i : Z) : inode := decode (on_disk i s) free_inode.

Lemma slice_slice l a n b m : 0 <= a -> 0 <= b -> 0 <= m -> b + m <= n -> slice (slice l a n) b m = slice l (a + b) m.
Proof.
  intros. unfold slice. replace (Z.to_nat n) with (Z.to_nat b + Z.to_nat (n - b))%nat by lia.
  rewrite <- take_drop_commute, take_take, drop_drop. f_equal; [lia|f_equal; lia].
Qed.

(** What iupdate stores is read back. *)
Lemma slice_app_l a b n : n = Z.of_nat (length a) -> slice (a ++ b) 0 n = a.
Proof. intros ->. unfold slice. change (Z.to_nat 0) with 0%nat. rewrite drop_0, Nat2Z.id. apply take_app_length. Qed.
Lemma slice_app_r a b off n : Z.of_nat (length a) <= off -> slice (a ++ b) off n = slice b (off - Z.of_nat (length a)) n.
Proof. intros H. unfold slice. rewrite drop_app_ge by lia. do 2 f_equal. lia. Qed.

Definition short (x : Z) : Prop := - 2 ^ 15 <= x < 2 ^ 15.
Lemma read_short x : short x -> i16 (unle (le 2 x)) = x.
Proof. intros H. rewrite unle_le. change (256 ^ Z.of_nat 2) with (2 ^ 16). fold (uwrap 16 x). unfold i16. rewrite swrap_uwrap by done. by apply swrap_small. Qed.
Lemma read_words l : Forall (fun a => 0 <= a < 2 ^ 32) l ->
  (fun i => unle (slice (l ≫= le 4) (4 * i) 4)) <$> zrange 0 (Z.of_nat (length l)) = l.
Proof.
  intros H. apply list_eq_same_length with (length l); rewrite ?length_fmap, ?length_zrange; [done|lia|].
  intros i x y Hi Hx Hy. unfold zrange in Hx. rewrite list_lookup_fmap, lookup_seqZ_lt in Hx by lia.
  injection Hx as <-. rewrite Z.add_0_l. clear Hi. revert i Hy. induction l as [|a l IH]; intros i Hy; [done|]. apply Forall_cons in H as [Ha Hl]. rewrite bind_cons.
  destruct i as [|i]; cbn [lookup list_lookup] in Hy.
  - injection Hy as ->. change (4 * Z.of_nat 0) with 0. rewrite (slice_app_l (le 4 y)) by done. rewrite unle_le. by apply Z.mod_small.
  - rewrite (slice_app_r (le 4 a)) by (rewrite length_le; lia). rewrite length_le.
    replace (4 * Z.of_nat (S i) - Z.of_nat 4) with (4 * Z.of_nat i) by lia. by apply IH.
Qed.

Lemma decode_dinode x :
  short (type x) -> short (major x) -> short (minor x) -> short (nlink x) -> 0 <= size x < 2 ^ 32 ->
  length (addrs x) = 13%nat -> Forall (fun a => 0 <= a < 2 ^ 32) (addrs x) -> decode (dinode_bytes x) x = x.
Proof.
  intros H1 H2 H3 H4 H5 Hl H6. unfold decode.
  change (slice (dinode_bytes x) 0 2) with (le 2 (type x)). change (slice (dinode_bytes x) 2 2) with (le 2 (major x)).
  change (slice (dinode_bytes x) 4 2) with (le 2 (minor x)). change (slice (dinode_bytes x) 6 2) with (le 2 (nlink x)).
  change (slice (dinode_bytes x) 8 4) with (le 4 (size x)).
  change (slice (dinode_bytes x) 12 52) with (take 52 (addrs x ≫= le 4)).
  rewrite !read_short by done. rewrite unle_le, Z.mod_small by (change (256 ^ Z.of_nat 4) with (2 ^ 32); done).
  rewrite take_ge by (rewrite length_words, Hl; lia).
  pose proof (read_words (addrs x) H6) as R. rewrite Hl in R. change (Z.of_nat 13) with 13 in R. rewrite R. by destruct x.
Qed.

Definition loaded (s : fs) (e : inode) : inode := set_valid true (set_locked true (decode (on_disk (inum e) s) e)).

Lemma ilock_run k s e :
  held s = ∅ -> itable s !! k = Some e -> 1 <= ref e -> locked e = false ->
  (valid e = true -> decode (on_disk (inum e) s) e = e) -> type (dn s (inum e)) <> 0 ->
  ilock k s = Ok tt (with_itable (<[k := loaded s e]> (itable s)) s).
Proof.
  intros Hh Hk Hr Hl Hv Ht. unfold ilock. rewrite (bind_ok _ _ _ _ _ (iat_run _ _ _ Hk)), decide_False by lia.
  rewrite (bind_ok _ _ _ _ _ (isleep_run k s e Hk Hl)). set (s1 := with_itable _ s).
  assert (k < length (itable s))%nat as Hlt by (by eapply lookup_lt_Some).
  destruct (valid e) eqn:Ev.
  { unfold ret, s1, loaded. do 4 f_equal. rewrite Hv by done. unfold set_locked, set_valid. simpl. by rewrite <- Ev. }
  unfold gets, bind at 1. set (b := IBLOCK (inum e) (sb s1)). assert (b ∉ held s1) as Hnh by (simpl; rewrite Hh; set_solver).
  rewrite (bind_ok _ _ _ _ _ (bread_run _ _ Hnh)). destruct (dip_range (inum e)) as [Hd1 Hd2]. unfold DINODE in Hd2.
  set (d := dip (inum e)) in *. unfold get_int, get_addrs. rewrite !bind_assoc.
  assert (forall off n, 0 <= off -> 0 <= n -> off + n <= 64 ->
            get_bytes b (d + off) n (hold b s1) = Ok (slice (on_disk (inum e) s) off n) (hold b s1)) as Hget.
  { intros off n H1 H2 H3. rewrite get_run by (apply in_hold || lia). f_equal. unfold on_disk, DINODE. rewrite slice_slice by lia. done. }
  pose proof (Hget 0 2 ltac:(lia) ltac:(lia) ltac:(lia)) as H0. rewrite Z.add_0_r in H0.
  rewrite (bind_ok _ _ _ _ _ H0). unfold bind at 1, ret at 1. rewrite !bind_assoc.
  rewrite (bind_ok _ _ _ _ _ (Hget 2 2 ltac:(lia) ltac:(lia) ltac:(lia))). unfold bind at 1, ret at 1. rewrite !bind_assoc.
  rewrite (bind_ok _ _ _ _ _ (Hget 4 2 ltac:(lia) ltac:(lia) ltac:(lia))). unfold bind at 1, ret at 1. rewrite !bind_assoc.
  rewrite (bind_ok _ _ _ _ _ (Hget 6 2 ltac:(lia) ltac:(lia) ltac:(lia))). unfold bind at 1, ret at 1. rewrite !bind_assoc.
  rewrite (bind_ok _ _ _ _ _ (Hget 8 4 ltac:(lia) ltac:(lia) ltac:(lia))). unfold bind at 1, ret at 1. rewrite !bind_assoc.
  rewrite (bind_ok _ _ _ _ _ (Hget 12 52 ltac:(lia) ltac:(lia) ltac:(lia))). unfold bind at 1, ret at 1.
  erewrite bind_ok; [|apply imod_run; simpl; by apply list_lookup_insert_eq].
  match goal with |- context [with_itable ?l (hold b s1)] =>
    change (with_itable l (hold b s1)) with (hold b (with_itable l s1));
    rewrite (bind_ok _ _ _ _ _ (brelse_run b (with_itable l s1) Hnh))
  end.
  erewrite bind_ok; [|apply imod_run; simpl; rewrite list_insert_insert_eq; by apply list_lookup_insert_eq].
  rewrite decide_False by exact Ht. unfold ret, with_itable. simpl. rewrite !list_insert_insert_eq. done.
Qed.

(** ** The table while a path is followed

    [lk] is the entry that is locked, if any; valid entries agree with the disk. *)

Record tab (s : fs) (lk : option nat) (l : list inode) : Prop := {
  ta_ok : table_ok l;
  ta_lock k e : l !! k = Some e -> locked e = bool_decide (lk = Some k);
  ta_fresh k e : l !! k = Some e -> ref e > 0 -> valid e = true -> decode (on_disk (inum e) s) e = e;
}.

Fixpoint nfree (l : list inode) : Z :=
  match l with [] => 0 | e :: l' => (if decide (ref e = 0) then 1 else 0) + nfree l' end.

Lemma nfree_insert l k e e' :
  l !! k = Some e -> nfree (<[k := e']> l) = nfree l - (if decide (ref e = 0) then 1 else 0) + (if decide (ref e' = 0) then 1 else 0).
Proof. revert k. induction l as [|x l IH]; intros [|k] Hk; simplify_eq/=; [lia|]. rewrite (IH k) by done. lia. Qed.
Lemma nfree_none l : (forall k e, l !! k = Some e -> ref e <> 0) -> nfree l = 0.
Proof.
  induction l as [|x l IH]; intros H; [done|]. simpl. rewrite decide_False by (by apply (H 0%nat)).
  rewrite IH; [done|]. intros k e Hk. by apply (H (S k)).
Qed.

Lemma refs_nonneg d i l : (forall k e, l !! k = Some e -> 0 <= ref e) -> 0 <= refs d i l.
Proof.
  induction l as [|x l IH]; intros H; [done|]. simpl. pose proof (H 0%nat x eq_refl).
  pose proof (IH (fun k e => H (S k) e)). case_decide; lia.
Qed.
Lemma refs_entry d i l k e : table_ok l -> l !! k = Some e -> is_entry d i e -> refs d i l = ref e.
Proof.
  intros [H1 H2] Hk He. revert k H1 H2 Hk. induction l as [|x l IH]; intros [|k] H1 H2 Hk; simplify_eq/=.
  - rewrite decide_True by done. assert (refs d i l = 0); [|lia].
    assert (forall j e', l !! j = Some e' -> ~ is_entry d i e') as Hno.
    { intros j e' Hj He'. by pose proof (H2 0%nat (S j) e e' d i eq_refl Hj He He'). }
    clear -Hno. induction l as [|y l IH]; [done|]. simpl. rewrite decide_False by (by apply (Hno 0%nat)).
    rewrite IH; [done|]. intros j e' Hj. by apply (Hno (S j)).
  - rewrite decide_False.
    2: { intros Hx. by pose proof (H2 0%nat (S k) x e d i eq_refl Hk Hx He). }
    rewrite (IH k); [done|by intros j; apply (H1 (S j))| |done].
    intros j j' e1 e2 d' i' Hj Hj' He1 He2. by injection (H2 (S j) (S j') e1 e2 d' i' Hj Hj' He1 He2).
Qed.
Lemma refs_absent d i l : (forall k e, l !! k = Some e -> ~ is_entry d i e) -> refs d i l = 0.
Proof.
  induction l as [|x l IH]; intros H; [done|]. simpl. rewrite decide_False by (by apply (H 0%nat)).
  rewrite IH; [done|]. intros k e Hk. by apply (H (S k)).
Qed.

(** One entry is replaced by one with the same key. *)
Lemma tab_set s lk lk' l k e e' :
  tab s lk l -> l !! k = Some e -> dev e' = dev e -> inum e' = inum e -> 0 <= ref e' -> (ref e' > 0 -> ref e > 0) ->
  locked e' = bool_decide (lk' = Some k) -> (forall j, j <> k -> (lk = Some j <-> lk' = Some j)) ->
  (ref e' > 0 -> valid e' = true -> decode (on_disk (inum e') s) e' = e') ->
  tab s lk' (<[k := e']> l).
Proof.
  intros [T1 T2 T3] Hk Hdev Hinum Hr Hr' Hl Hlk Hfr. split.
  - apply table_insert; [done|done|]. intros j e2 d i Hj Hjk (R & Ed & Ei) He2. apply Hjk.
    eapply (tb_unique _ T1); [exact Hj|exact Hk|exact He2|]. unfold is_entry. split_and!; [tauto|congruence|congruence].
  - intros j e2 Hj. apply list_lookup_insert_Some in Hj as [(-> & -> & _)|[Hn Hj]]; [done|].
    rewrite (T2 j e2 Hj). apply bool_decide_ext. by apply Hlk.
  - intros j e2 Hj. apply list_lookup_insert_Some in Hj as [(-> & -> & _)|[Hn Hj]]; [done|by eapply T3].
Qed.

Lemma refs_same d i l k e e' :
  l !! k = Some e -> dev e' = dev e -> inum e' = inum e -> ref e' = ref e -> refs d i (<[k := e']> l) = refs d i l.
Proof.
  intros Hk Hd Hi Hr. rewrite (refs_insert _ _ _ _ e) by done. unfold share.
  assert (is_entry d i e' <-> is_entry d i e) by (unfold is_entry; by rewrite Hd, Hi, Hr).
  repeat case_decide; try tauto; lia.
Qed.

(** iget, from the table [l]. *)
Lemma iget_tab d i s lk l :
  tab s lk l -> itable_lock s = false -> 0 < nfree l ->
  exists k e, iget d i (with_itable l s) = Ok k (with_itable (<[k := e]> l) s) /\ (k < length l)%nat /\ is_entry d i e /\
    tab s lk (<[k := e]> l) /\
    (forall d' i', refs d' i' (<[k := e]> l) = refs d' i' l + (if decide ((d', i') = (d, i)) then 1 else 0)) /\
    nfree (<[k := e]> l) = nfree l - (if decide (refs d i l = 0) then 1 else 0) /\
    (forall j, lk = Some j -> (exists e', l !! j = Some e' /\ ref e' > 0) -> j = k -> exists e', l !! j = Some e' /\ e = set_ref (ref e' + 1) e').
Proof.
  intros T Hl Hf. pose proof (ta_ok _ _ _ T) as Ht.
  destruct (iget_run d i (with_itable l s) Ht Hl) as [(k & s' & Hrun & [(e & Hs' & He & _ & Hcase) Hok Hc])|[_ Hfull]].
  2: { rewrite nfree_none in Hf; [lia|]. intros k e Hk. destruct (Hfull k e Hk) as [? _]. lia. }
  cbn [itable with_itable] in Hs', Hcase. rewrite with_itable_twice in Hs'. rewrite Hs' in Hrun, Hc.
  cbn [itable with_itable] in Hc. exists k, e.
  destruct Hcase as [(e0 & Hk & He0 & ->)|(e0 & Hk & Hr0 & -> & Hno)].
  - pose proof (refs_entry d i l k e0 Ht Hk He0) as Hrefs. destruct He0 as (Hr & Hd & Hi). split_and!; try done.
    + by eapply lookup_lt_Some.
    + eapply (tab_set s lk lk l k e0); try done; [simpl; lia|simpl; by apply (ta_lock _ _ _ T)|].
      intros _ Hv. pose proof (ta_fresh _ _ _ T k e0 Hk Hr Hv) as Hfr. cbn [inum set_ref].
      transitivity (set_ref (ref e0 + 1) (decode (on_disk (inum e0) s) e0)); [done|by rewrite Hfr].
    + rewrite (nfree_insert _ _ e0) by done. simpl. rewrite !decide_False by lia. lia.
    + intros j _ _ ->. by exists e0.
  - pose proof (refs_absent d i l Hno) as Hrefs. split_and!; try done.
    + by eapply lookup_lt_Some.
    + destruct T as [T1 T2 T3]. split.
      * by rewrite Hs' in Hok.
      * intros j e2 Hj. apply list_lookup_insert_Some in Hj as [(<- & <- & _)|[Hn Hj]]; [by apply (T2 k e0)|by apply T2].
      * intros j e2 Hj. apply list_lookup_insert_Some in Hj as [(<- & <- & _)|[Hn Hj]]; [done|by eapply T3].
    + rewrite (nfree_insert _ _ e0) by done. simpl. rewrite (decide_True (P := ref e0 = 0)), (decide_True (P := refs d i l = 0)) by done. lia.
    + intros j _ (e' & Hj & Hr') ->. simplify_eq. lia.
Qed.

Lemma ilock_tab k s l e :
  tab s None l -> held s = ∅ -> l !! k = Some e -> ref e > 0 -> type (dn s (inum e)) <> 0 ->
  ilock k (with_itable l s) = Ok tt (with_itable (<[k := loaded s e]> l) s) /\
  tab s (Some k) (<[k := loaded s e]> l).
Proof.
  intros T Hh Hk Hr Ht. split.
  - rewrite (ilock_run k (with_itable l s) e); try done; [lia|by rewrite (ta_lock _ _ _ T k e Hk)|].
    intros Hv. by apply (ta_fresh _ _ _ T k e).
  - eapply (tab_set s None (Some k) l k e); try done; [simpl; lia|by rewrite bool_decide_true|].
    intros j Hj. naive_solver.
Qed.

Lemma iunlock_tab k s l e :
  tab s (Some k) l -> l !! k = Some e -> ref e > 0 ->
  iunlock k (with_itable l s) = Ok tt (with_itable (<[k := set_locked false e]> l) s) /\
  tab s None (<[k := set_locked false e]> l).
Proof.
  intros T Hk Hr. assert (locked e = true) as Hl by (rewrite (ta_lock _ _ _ T k e Hk); by apply bool_decide_true). split.
  - unfold iunlock. rewrite (bind_ok _ _ _ _ _ (iat_run k (with_itable l s) e Hk)).
    rewrite decide_False by (rewrite Hl; naive_solver lia). by apply (imod_run k _ (with_itable l s)).
  - eapply (tab_set s (Some k) None l k e); try done; [simpl; lia| |].
    + intros j Hj. naive_solver.
    + intros _ Hv. transitivity (set_locked false (decode (on_disk (inum e) s) e)); [done|].
      by rewrite (ta_fresh _ _ _ T k e Hk Hr Hv).
Qed.

(** A reference is dropped and the inode stays. *)
Lemma iput_tab k s l e :
  tab s None l -> itable_lock s = false -> l !! k = Some e -> ref e > 0 -> nlink (dn s (inum e)) <> 0 ->
  let e' := set_ref (ref e - 1) e in
  iput k (with_itable l s) = Ok tt (with_itable (<[k := e']> l) s) /\ tab s None (<[k := e']> l) /\
  (forall d i, refs d i (<[k := e']> l) = refs d i l - (if decide ((d, i) = (dev e, inum e)) then 1 else 0)) /\
  nfree (<[k := e']> l) = nfree l + (if decide (ref e = 1) then 1 else 0).
Proof.
  intros T Hlk Hk Hr Hn e'. split_and!.
  - rewrite (iput_keeps k (with_itable l s) e Hlk Hk); [done|]. intros (_ & Hv & Hnl).
    apply Hn. rewrite <- (ta_fresh _ _ _ T k e Hk Hr Hv) in Hnl. exact Hnl.
  - apply (tab_set s None None l k e e'); try done; [simpl; lia|by apply (ta_lock _ _ _ T k e)|].
    intros _ Hv. cbn [valid e' set_ref] in Hv. cbn [inum e' set_ref].
    transitivity (set_ref (ref e - 1) (decode (on_disk (inum e) s) e)); [done|].
    by rewrite (ta_fresh _ _ _ T k e Hk Hr Hv).
  - intros d i. rewrite (refs_insert _ _ _ _ e) by done. unfold share, is_entry, e'. simpl.
    repeat case_decide; simplify_eq; try lia; naive_solver lia.
  - rewrite (nfree_insert _ _ e) by done. unfold e'. simpl. repeat case_decide; lia.
Qed.

(** ** Trees of directories *)

Definition allocated (s : fs) (i : Z) : Prop := 0 < i < ninodes (sb s) /\ type (dn s i) <> 0.

(** Every inode of the disk is a file with links; the entries of directories lead to inodes. *)
Record tree (s : fs) : Prop := {
  tr_file i : allocated s i -> file_ok (dn s i) s;
  tr_links i : allocated s i -> nlink (dn s i) <> 0;
  tr_dir i : allocated s i -> type (dn s i) = T_DIR -> exists q, size (dn s i) = q * DESIZE;
  tr_entry i name j : allocated s i -> type (dn s i) = T_DIR -> dir_get name (content (dn s i) s) = Some j -> allocated s j;
}.

(** Following the elements of a path from inode [i]; with [parent], up to the directory of
    the last one. *)
Fixpoint follow (s : fs) (parent : bool) (i : Z) (es : list (list Z)) : option Z :=
  match es with
  | [] => if parent then None else Some i
  | e :: es' =>
      if decide (type (dn s i) <> T_DIR) then None
      else if decide (parent = true /\ es' = []) then Some i
      else match dir_get e (content (dn s i) s) with
           | Some j => follow s parent j es'
           | None => None
           end
  end.

Lemma dir_get_norm a b l : norm a = norm b -> dir_get a l = dir_get b l.
Proof.
  intros E. unfold dir_get. f_equal. apply list_omap_ext. apply Forall_Forall2_diag, Forall_true. intros e. unfold found.
  assert (matches a e <-> matches b e) by (unfold matches; by rewrite E). repeat case_decide; tauto || done.
Qed.

(** One reference to [i] more than in the table [l0], at entry [k]. *)
Record at_inode (s : fs) (l0 : list inode) (i : Z) (l : list inode) (k : nat) : Prop := {
  ai_tab : tab s None l;
  ai_entry : exists e, l !! k = Some e /\ is_entry ROOTDEV i e;
  ai_refs d' i' : refs d' i' l = refs d' i' l0 + (if decide ((d', i') = (ROOTDEV, i)) then 1 else 0);
  ai_free : nfree l = nfree l0 - (if decide (refs ROOTDEV i l0 = 0) then 1 else 0);
}.

(** No reference more. *)
Record same_refs (s : fs) (l0 l : list inode) : Prop := {
  sr_tab : tab s None l;
  sr_refs d i : refs d i l = refs d i l0;
  sr_free : nfree l = nfree l0;
}.

Lemma at_inode_ref s l0 i l k e :
  at_inode s l0 i l k -> l !! k = Some e -> is_entry ROOTDEV i e -> ref e = refs ROOTDEV i l0 + 1.
Proof.
  intros A Hk He. rewrite <- (refs_entry _ _ _ _ _ (ta_ok _ _ _ (ai_tab _ _ _ _ _ A)) Hk He).
  rewrite (ai_refs _ _ _ _ _ A). by rewrite decide_True.
Qed.

Lemma drop_inode s l0 i l k :
  tree s -> itable_lock s = false -> allocated s i -> at_inode s l0 i l k ->
  exists l', iput k (with_itable l s) = Ok tt (with_itable l' s) /\ same_refs s l0 l'.
Proof.
  intros HT Hlk Ha A. destruct (ai_entry _ _ _ _ _ A) as (e & Hk & He). pose proof (at_inode_ref _ _ _ _ _ _ A Hk He) as Hr.
  destruct He as (Hr0 & Hd & Hi).
  destruct (iput_tab k s l e (ai_tab _ _ _ _ _ A) Hlk Hk Hr0) as (Hrun & T & Hrefs & Hn); [rewrite Hi; by apply HT|].
  eexists. split; [exact Hrun|]. split; [done| |].
  - intros d i'. rewrite Hrefs, (ai_refs _ _ _ _ _ A), Hd, Hi. lia.
  - rewrite Hn, (ai_free _ _ _ _ _ A). repeat case_decide; lia.
Qed.

(** Locking the inode, and unlocking it again. *)
Lemma visit s l0 i l k :
  held s = ∅ -> allocated s i -> at_inode s l0 i l k ->
  exists e, l !! k = Some e /\ is_entry ROOTDEV i e /\
    ilock k (with_itable l s) = Ok tt (with_itable (<[k := loaded s e]> l) s) /\ tab s (Some k) (<[k := loaded s e]> l) /\
    exists l2, iunlock k (with_itable (<[k := loaded s e]> l) s) = Ok tt (with_itable l2 s) /\ at_inode s l0 i l2 k.
Proof.
  intros Hh [Hr Ht] A. destruct (ai_entry _ _ _ _ _ A) as (e & Hk & He). pose proof He as (Hr0 & Hd & Hi).
  assert (k < length l)%nat as Hlt by (by eapply lookup_lt_Some).
  destruct (ilock_tab k s l e (ai_tab _ _ _ _ _ A) Hh Hk Hr0) as [Hrun T]; [by rewrite Hi|].
  exists e. split_and!; try done.
  destruct (iunlock_tab k s _ (loaded s e) T) as [Hrun2 T2]; [by apply list_lookup_insert_eq|done|].
  eexists. split; [exact Hrun2|]. rewrite list_insert_insert_eq in *. split; [done| | |].
  - eexists. split; [by apply list_lookup_insert_eq|done].
  - intros d' i'. rewrite (refs_same _ _ _ _ e) by done. apply A.
  - rewrite (nfree_insert _ _ e) by done. simpl. rewrite <- (ai_free _ _ _ _ _ A). case_decide; lia.
Qed.

(** From a locked directory to the inode of one of its entries. *)
Lemma advance s l0 i l k e j :
  tree s -> itable_lock s = false -> 2 <= nfree l0 -> table_ok l0 -> allocated s i -> at_inode s l0 i l k ->
  l !! k = Some e -> is_entry ROOTDEV i e -> tab s (Some k) (<[k := loaded s e]> l) ->
  exists k' l1 l3, iget ROOTDEV j (with_itable (<[k := loaded s e]> l) s) = Ok k' (with_itable l1 s) /\
    iunlockput k (with_itable l1 s) = Ok tt (with_itable l3 s) /\ at_inode s l0 j l3 k'.
Proof.
  intros HT Hlk Hf0 Ht0 Ha A Hk He T. pose proof (at_inode_ref _ _ _ _ _ _ A Hk He) as Hr. pose proof He as (Hr0 & Hd & Hi).
  assert (k < length l)%nat as Hlt by (by eapply lookup_lt_Some). set (x := loaded s e) in *. set (l1 := <[k := x]> l) in *.
  assert (l1 !! k = Some x) as Hk1 by (by apply list_lookup_insert_eq).
  assert (forall d' i', refs d' i' l1 = refs d' i' l) as Hrl by (intros; by apply (refs_same _ _ _ _ e)).
  assert (nfree l1 = nfree l) as Hnl by (unfold l1; rewrite (nfree_insert _ _ e) by done; simpl; case_decide; lia).
  pose proof (ai_free _ _ _ _ _ A) as Hfree. pose proof (ai_refs _ _ _ _ _ A) as Hrefs.
  destruct (iget_tab ROOTDEV j s (Some k) l1 T Hlk) as (k' & e' & Hget & Hk' & He' & T' & Hrefs' & Hn' & Hself).
  { rewrite Hnl, Hfree. case_decide; lia. }
  set (l2 := <[k' := e']> l1) in *.
  assert (exists ek, l2 !! k = Some ek /\ is_entry ROOTDEV i ek /\ (k' = k -> ek = e' /\ ref e' = ref x + 1 /\ j = i)) as (ek & Hek & Hiek & Hsame).
  { destruct (decide (k' = k)) as [->|Hne].
    - destruct (Hself k eq_refl ltac:(by exists x) eq_refl) as (x' & Hx' & ->). simplify_eq.
      exists (set_ref (ref x + 1) x). split_and!; [by apply list_lookup_insert_eq|unfold is_entry; simpl; split_and!; [lia|done|done]|].
      intros _. split_and!; [done|done|]. destruct He' as (_ & _ & Hj). simpl in Hj. congruence.
    - exists x. split_and!; [by unfold l2; rewrite list_lookup_insert_ne|done|done]. }
  destruct Hiek as (Hrk & Hdk & Hik).
  pose proof (refs_entry ROOTDEV i l2 k ek (ta_ok _ _ _ T') Hek (conj Hrk (conj Hdk Hik))) as Hrek.
  rewrite Hrefs', Hrl, Hrefs, decide_True in Hrek by done.
  destruct (iunlock_tab k s l2 ek T' Hek Hrk) as [Hun T2].
  destruct (iput_tab k s (<[k := set_locked false ek]> l2) (set_locked false ek)) as (Hput & T3 & Hrefs3 & Hn3); try done.
  { apply list_lookup_insert_eq. by eapply lookup_lt_Some. } { cbn [inum set_locked]. rewrite Hik. by apply HT. }
  exists k', l2. eexists. split_and!; [exact Hget| |].
  { unfold iunlockput. rewrite (bind_ok _ _ _ _ _ Hun). exact Hput. }
  rewrite list_insert_insert_eq in *. cbn [ref set_locked dev inum] in *.
  pose proof (refs_nonneg ROOTDEV i l0 (tb_refs _ Ht0)). pose proof (refs_nonneg ROOTDEV j l0 (tb_refs _ Ht0)).
  split; [done| | |].
  - destruct (decide (k' = k)) as [->|Hne].
    + destruct (Hsame eq_refl) as (-> & Hre & ->). eexists. split; [apply list_lookup_insert_eq; by eapply lookup_lt_Some|].
      unfold is_entry. simpl. split_and!; [|done|done]. change (ref x) with (ref e) in Hre. lia.
    + exists e'. split; [|done]. rewrite list_lookup_insert_ne by done. by apply list_lookup_insert_eq.
  - intros d' i'. rewrite Hrefs3, (refs_same _ _ _ _ ek), Hrefs', Hrl, Hrefs, Hdk, Hik by done. lia.
  - rewrite Hn3, (nfree_insert _ _ ek) by done. simpl. rewrite Hn', Hnl, Hfree, Hrl, Hrefs.
    repeat case_decide; simplify_eq; try lia.
Qed.

(** ** The walk *)

Lemma dir_ok_loaded s i e l q :
  tree s -> allocated s i -> inum e = i -> type (dn s i) = T_DIR -> size (dn s i) = q * DESIZE ->
  dir_ok (loaded s e) q (with_itable l s) /\ content (loaded s e) (with_itable l s) = content (dn s i) s.
Proof.
  intros HT Ha <- Ht Hq. split; [|done]. split; [|done|done]. destruct (tr_file _ HT _ Ha). split; done.
Qed.

(** What namex answers: an entry for the inode reached, with one reference more, or none. *)
Definition outcome (s : fs) (l0 : list inode) (reached : option Z) (es : list (list Z)) (parent : bool)
    (r : res fs (option nat * list Z)) : Prop :=
  match reached with
  | Some j => exists k l name, r = Ok (Some k, name) (with_itable l s) /\ at_inode s l0 j l k /\
      (parent = true -> exists e, list.last es = Some e /\ norm name = norm e)
  | None => exists l name, r = Ok (None, name) (with_itable l s) /\ same_refs s l0 l
  end.

Lemma outcome_cons s l0 reached e es parent r :
  es <> [] -> outcome s l0 reached es parent r -> outcome s l0 reached (e :: es) parent r.
Proof. intros Hne. unfold outcome. destruct reached; [|done]. destruct es; [done|]. done. Qed.
Lemma outcome_file s l0 reached es es' r : outcome s l0 reached es false r -> outcome s l0 reached es' false r.
Proof. unfold outcome. destruct reached; [|done]. intros (k & l & n & ? & ? & _). by exists k, l, n. Qed.

Lemma namex_loop_run s l0 parent :
  disk_ok s -> held s = ∅ -> itable_lock s = false -> tree s -> 2 <= nfree l0 -> table_ok l0 ->
  forall fuel path name i l k,
  (length path < fuel)%nat -> Forall (fun c => c <> 0) path -> allocated s i -> at_inode s l0 i l k ->
  outcome s l0 (follow s parent i (elems path)) (elems path) parent (namex_loop fuel k path parent name (with_itable l s)).
Proof.
  intros Hd Hh Hlk HT Hf0 Ht0. induction fuel as [|fuel IH]; intros path name i l k Hlen Hp Ha A; [lia|].
  cbn [namex_loop]. pose proof (skipelem_spec path name Hp) as Hskip.
  destruct (skipelem path name) as [[rest name']|].
  2: { rewrite Hskip. cbn [follow]. destruct parent.
       - destruct (drop_inode s l0 i l k HT Hlk Ha A) as (l' & Hput & S). exists l', name.
         by rewrite (bind_ok _ _ _ _ _ Hput).
       - by exists k, l, name. }
  destruct Hskip as (e0 & Hes & Hnm & Hrest & Hlr & Hpr). rewrite Hes. cbn [follow].
  destruct (visit s l0 i l k Hh Ha A) as (e & Hk & He & Hlock & T & l2 & Hun & A2).
  assert (k < length l)%nat as Hlt by (by eapply lookup_lt_Some). pose proof He as (Hr & Hdev & Hi).
  rewrite (bind_ok _ _ _ _ _ Hlock). set (l1 := <[k := loaded s e]> l) in *.
  assert (itable (with_itable l1 s) !! k = Some (loaded s e)) as Hk1 by (by apply list_lookup_insert_eq).
  rewrite (bind_ok _ _ _ _ _ (iat_run _ _ _ Hk1)).
  assert (type (loaded s e) = type (dn s i)) as Htype by (by rewrite <- Hi). rewrite Htype.
  destruct (drop_inode s l0 i l2 k HT Hlk Ha A2) as (l3 & Hput & S3).
  assert (iunlockput k (with_itable l1 s) = Ok tt (with_itable l3 s)) as Hup.
  { unfold iunlockput. by rewrite (bind_ok _ _ _ _ _ Hun). }
  destruct (decide (type (dn s i) <> T_DIR)) as [Hnd|Hdir].
  { exists l3, name'. by rewrite (bind_ok _ _ _ _ _ Hup). }
  assert (type (dn s i) = T_DIR) as Hty by (destruct (decide (type (dn s i) = T_DIR)); tauto).
  destruct (decide (parent = true /\ rest = [])) as [[-> ->]|Hnp].
  { rewrite decide_True by done. exists k, l2, name'. rewrite (bind_ok _ _ _ _ _ Hun). split_and!; try done.
    intros _. exists e0. by split. }
  rewrite (decide_False (P := parent = true /\ elems rest = [])) by tauto.
  destruct (tr_dir _ HT i Ha Hty) as [q Hq].
  destruct (dir_ok_loaded s i e l1 q HT Ha Hi Hty Hq) as [Hdk Hc].
  pose proof (dirlookup_run k name' (loaded s e) q (with_itable l1 s)) as HL. rewrite Hc in HL.
  rewrite (dir_get_norm name' e0) in HL by done. specialize (HL (Build_disk_ok (with_itable l1 s) (dk_layout _ Hd) (dk_whole _ Hd) (dk_meta _ Hd)) Hh Hk1 Hdk).
  destruct (dir_get e0 (content (dn s i) s)) as [j|] eqn:Ej.
  2: { rewrite (bind_ok _ _ _ _ _ HL). exists l3, name'. by rewrite (bind_ok _ _ _ _ _ Hup). }
  destruct HL as (_ & off & HL). change (dev (loaded s e)) with (dev e) in HL. rewrite Hdev in HL.
  destruct (advance s l0 i l k e j HT Hlk Hf0 Ht0 Ha A Hk He T) as (k' & l4 & l5 & Hget & Hup' & A').
  fold l1 in Hget. rewrite (bind_ok _ _ _ _ _ Hget) in HL. rewrite (bind_ok _ _ _ _ _ HL), (bind_ok _ _ _ _ _ Hup').
  pose proof (IH rest name' j l5 k' ltac:(lia) Hpr (tr_entry _ HT i e0 j Ha Hty Ej) A') as HO.
  destruct (decide (elems rest = [])) as [E|E].
  - destruct parent; [exfalso; apply Hnp; split; [done|by apply Hrest]|]. by eapply outcome_file.
  - by apply outcome_cons.
Qed.

(** The current directory, or the root for a path that begins with a slash. *)
Definition start (path : list Z) (c : Z) : Z := if decide (ch path 0 = SLASH) then ROOTINO else c.

Lemma namex_run s path parent name c :
  disk_ok s -> held s = ∅ -> itable_lock s = false -> tree s -> tab s None (itable s) -> 2 <= nfree (itable s) ->
  Forall (fun c => c <> 0) path -> allocated s ROOTINO -> allocated s c ->
  (exists e, itable s !! cwd s = Some e /\ is_entry ROOTDEV c e) ->
  outcome s (itable s) (follow s parent (start path c) (elems path)) (elems path) parent (namex path parent name s).
Proof.
  intros Hd Hh Hlk HT T Hf Hp Hroot Hc (e & Hcwd & He).
  assert (s = with_itable (itable s) s) as Es by (by destruct s).
  assert (exists k l, (if decide (ch path 0 = SLASH) then iget ROOTDEV ROOTINO else let! c := gets cwd in idup c) s
            = Ok k (with_itable l s) /\ at_inode s (itable s) (start path c) l k) as (k & l & Hrun & A).
  { unfold start. case_decide as E.
    - destruct (iget_tab ROOTDEV ROOTINO s None (itable s) T Hlk ltac:(lia)) as (k & e' & Hget & Hk & He' & T' & Hr & Hn & _).
      rewrite <- Es in Hget. eexists k, _. split; [exact Hget|]. split; [done| |done|done].
      exists e'. split; [by apply list_lookup_insert_eq|done].
    - pose proof (idup_run (cwd s) s e Hlk Hcwd) as Hrun. pose proof He as (Hr & Hdv & Hi).
      assert (cwd s < length (itable s))%nat as Hlt by (by eapply lookup_lt_Some).
      pose proof (refs_entry _ _ _ _ _ (ta_ok _ _ _ T) Hcwd He) as Hrefs.
      eexists (cwd s), _. split; [exact Hrun|]. split.
      + eapply (tab_set s None None (itable s) (cwd s) e); try done; [simpl; lia|by apply (ta_lock _ _ _ T (cwd s) e)|].
        intros _ Hv. transitivity (set_ref (ref e + 1) (decode (on_disk (inum e) s) e)); [done|].
        by rewrite (ta_fresh _ _ _ T (cwd s) e Hcwd Hr Hv).
      + eexists. split; [by apply list_lookup_insert_eq|]. unfold is_entry. simpl. split_and!; [lia|done|done].
      + intros d' i'. rewrite (refs_insert _ _ _ _ e) by done. unfold share, is_entry. simpl. rewrite <- Hdv, <- Hi.
        repeat case_decide; simplify_eq; try lia; naive_solver lia.
      + rewrite (nfree_insert _ _ e) by done. simpl. rewrite Hrefs. repeat case_decide; lia. }
  unfold namex. rewrite (bind_ok _ _ _ _ _ Hrun).
  apply (namex_loop_run s (itable s) parent Hd Hh Hlk HT Hf (ta_ok _ _ _ T)); [lia|done| |done].
  unfold start. by case_decide.
Qed.
