(* ===== verification/FsProps.v ===== *)
(** * kernel/fs.c: what the file system does

    The theorems on files, directories, references and paths, and a small disk on which
    they apply. *)

From Stdlib Require Import ZArith Lia.
From stdpp Require Import base numbers list gmap strings.
From S2P Require Import Prelude Fs FsBlocks FsFile FsWrite FsTrunc FsTable FsDir FsPath FsNamei.
Open Scope Z_scope.

(** ** A disk of 64 blocks

    Inode 1 is the root directory with the entry a, inode 2 a file of three bytes. *)

Definition sb64 : superblock := mkSb FSMAGIC 64 50 16 0 2 2 4.
Definition root_inode : inode := mkInode 0 1 0 false false T_DIR 0 0 1 16 (6 :: replicate 12 0).
Definition file_inode : inode := mkInode 0 2 0 false false 2 0 0 1 3 (7 :: replicate 12 0).
Definition block2 : list Z := splice (splice zero_block 64 (dinode_bytes root_inode)) 128 (dinode_bytes file_inode).
Definition block4 : list Z := splice zero_block 0 [255].
Definition block6 : list Z := splice zero_block 0 (dirent 2 [97]).
Definition block7 : list Z := splice zero_block 0 [10; 20; 30].
Definition disk64 : gmap Z (list Z) := <[2 := block2]> (<[4 := block4]> (<[6 := block6]> (<[7 := block7]> ∅))).
(** The file is open in entry 0 of the table; the current directory is entry 1. *)
Definition table2 : list inode :=
  mkInode 1 2 1 false true 2 0 0 1 3 (7 :: replicate 12 0) ::
  mkInode 1 1 1 false true T_DIR 0 0 1 16 (6 :: replicate 12 0) :: replicate 48 free_inode.
Definition fs64 : fs := mkFs disk64 ∅ ∅ 1 sb64 false table2 1.

Lemma data64 b : data b fs64 = if decide (b = 2) then block2 else if decide (b = 4) then block4
                               else if decide (b = 6) then block6 else if decide (b = 7) then block7 else zero_block.
Proof.
  unfold data, fs64, disk64. simpl. repeat case_decide; subst; [by rewrite lookup_insert_eq|..];
    repeat (rewrite lookup_insert_ne by done); rewrite ?lookup_insert_eq; done.
Qed.

#[local] Instance whole_block_dec l : Decision (whole_block l).
Proof. unfold whole_block, byte. apply _. Defined.

Lemma layout64 : layout sb64.
Proof. split; try done; by vm_compute. Qed.

Lemma disk_ok64 : disk_ok fs64.
Proof.
  split; [apply layout64| |].
  - intros b. rewrite data64. repeat case_decide; apply (bool_decide_unpack _); by vm_compute.
  - intros b Hb. change (data_start (sb fs64)) with 5 in Hb.
    assert (b = 0 \/ b = 1 \/ b = 2 \/ b = 3 \/ b = 4) as [-> | [-> | [-> | [-> | ->]]]] by lia; by vm_compute.
Qed.
Lemma ready64 : ready fs64.
Proof. done. Qed.

(** A file of one block. *)
Lemma one_block_file x s a :
  addrs x = a :: replicate 12 0 -> data_start (sb s) <= a < sb_size (sb s) -> 0 < a -> used a s = true -> 0 <= size x <= BSIZE -> file_ok x s.
Proof.
  intros Ha Hr Hpos Hu Hs.
  assert (forall j, 0 <= j -> slot x s j = if decide (j = 0) then a else 0) as HS.
  { intros j Hj. unfold slot. rewrite Ha. unfold nthb. destruct (decide (j < 13)) as [Hlt|Hge].
    - destruct (decide (j = 0)) as [->|Hne]; [done|]. replace (Z.to_nat j) with (S (Z.to_nat (j - 1))) by lia.
      change (default 0 (replicate 12 0 !! Z.to_nat (j - 1)) = 0). by rewrite lookup_replicate_2 by lia.
    - simpl. by rewrite decide_False by lia. }
  split.
  - by rewrite Ha.
  - intros j Hj. rewrite HS by lia. case_decide; [right|by left]. done.
  - intros i j Hi Hj. rewrite !HS by lia. repeat case_decide; subst; try done; lia.
  - unfold MAXFILE, NDIRECT, NINDIRECT, BSIZE in *. lia.
  - intros k Hk Hks. assert (k = 0) as -> by (unfold BSIZE in *; lia). change (dslot 0) with 0. rewrite HS, decide_True by done. lia.
Qed.

(** ** Files *)


Lemma file64 : file_ok (mkInode 1 2 1 false true 2 0 0 1 3 (7 :: replicate 12 0)) fs64.
Proof. apply (one_block_file _ _ 7); try done; by vm_compute. Qed.


(** ** Directories *)

Lemma dirlink_present dp name i j x q s :
  disk_ok s -> ready s -> itable s !! dp = Some x -> dir_ok x q s -> table_ok (itable s) -> itable_lock s = false ->
  dir_get name (content x s) = Some j ->
  (exists s', dirlink dp name i s = Ok (-1) s' /\ s' = with_itable (itable s') s /\
     forall d' i', refs d' i' (itable s') = refs d' i' (itable s)) \/
  (dirlink dp name i s = Fault (Panic "iget: no inodes") /\ forall k e, itable s !! k = Some e -> ref e > 0).
Proof.
  intros Hd Hr Hx Hdir Ht Hl Hj. pose proof (dirlookup_run dp name x q s Hd (proj2 Hr) Hx Hdir) as HL. rewrite Hj in HL.
  destruct HL as (_ & off & HL). unfold dirlink.
  destruct (iget_run (dev x) j s Ht Hl) as [(k & s1 & Hget & R)|[Hget Hfull]].
  - left. rewrite (bind_ok _ _ _ _ _ Hget) in HL. rewrite (bind_ok _ _ _ _ _ HL).
    destruct (iget_iput _ _ _ _ _ Ht Hl R) as (s2 & Hput & Hfr & Hc). exists s2. by rewrite (bind_ok _ _ _ _ _ Hput).
  - right. unfold bind in HL |- *. rewrite Hget in HL. rewrite HL. split; [done|]. intros k e Hk. by eapply Hfull.
Qed.

(** C11: A directory is a map from names of up to DIRSIZ characters to inode numbers.
    dirlookup finds the inode of a name, and takes a reference to it, exactly if the name
    is in the map.  dirlink adds a name that is not there, over a free entry or at the
    end, and no other name changes; with the disk full it answers -1 and the
    directory is as before; it refuses a name that is there, leaving the disk and the reference counts
    alone.  (Both stop the kernel when the table of inodes is full.) *)
Theorem directory_map dp x q s :
  disk_ok s -> ready s -> itable s !! dp = Some x -> dir_ok x q s -> 0 <= inum x < ninodes (sb s) ->
  table_ok (itable s) -> itable_lock s = false ->
  (forall name, match dir_get name (content x s) with
     | None => dirlookup dp name s = Ok None s
     | Some i => (exists k off s', dirlookup dp name s = Ok (Some (k, off)) s' /\ referenced (dev x) i k s s') \/
         (dirlookup dp name s = Fault (Panic "iget: no inodes") /\ forall k e, itable s !! k = Some e -> ref e > 0)
     end) /\
  (forall name i, Forall byte name -> 0 < i < 65536 ->
     match dir_get name (content x s) with
     | Some _ =>
         (exists s', dirlink dp name i s = Ok (-1) s' /\ s' = with_itable (itable s') s /\
            forall d' i', refs d' i' (itable s') = refs d' i' (itable s)) \/
         (dirlink dp name i s = Fault (Panic "iget: no inodes") /\ forall k e, itable s !! k = Some e -> ref e > 0)
     | None => size x < MAXFILE * BSIZE ->
         exists r x' s', dirlink dp name i s = Ok r s' /\ itable s' = <[dp := x']> (itable s) /\ disk_ok s' /\ file_ok x' s' /\
           ((r = 0 /\ forall name', dir_get name' (content x' s') =
               if decide (norm name' = norm name) then Some i else dir_get name' (content x s)) \/
            (r = -1 /\ full s' /\ content x' s' = content x s)) /\
           forall y, file_ok y s -> disjoint x y s -> file_ok y s' /\ content y s' = content y s
     end).
Proof.
  intros Hd Hr Hx Hdir Hi Ht Hl. split.
  - intros name. pose proof (dirlookup_run dp name x q s Hd (proj2 Hr) Hx Hdir) as HL.
    destruct (dir_get name (content x s)) as [i|]; [|done]. destruct HL as (_ & off & HL).
    destruct (iget_run (dev x) i s Ht Hl) as [(k & s1 & Hget & R)|[Hget Hfull]].
    + left. rewrite (bind_ok _ _ _ _ _ Hget) in HL. by exists k, off, s1.
    + right. rewrite HL. unfold bind. rewrite Hget. split; [done|]. intros k e Hk. by eapply Hfull.
  - intros name i Hnm Hir. destruct (dir_get name (content x s)) as [j|] eqn:E; [by eapply dirlink_present|].
    intros Hsz. destruct (dirlink_run dp name i x q s Hd Hr Hx Hdir Hi Hsz Hnm Hir E) as (r & off & tot & x' & s' & Hrun & W & Hres).
    exists r, x', s'. split_and!; [done|by rewrite (wn_frame _ _ _ _ _ _ _ _ W)|apply W|apply W|done|].
    intros y Hy Hxy. by destruct (wn_others _ _ _ _ _ _ _ _ W y Hy Hxy) as (? & ? & _).
Qed.

Definition root_entry : inode := mkInode 1 1 1 false true T_DIR 0 0 1 16 (6 :: replicate 12 0).
Lemma dir64 : dir_ok root_entry 1 fs64.
Proof. split; [|done|done]. apply (one_block_file _ _ 6); try done; by vm_compute. Qed.

Lemma table64 : table_ok table2.
Proof.
  assert (forall j e, (replicate 48 free_inode) !! j = Some e -> e = free_inode) as Hrep.
  { intros j e Hj. by apply lookup_replicate in Hj as [-> _]. }
  split.
  - intros [|[|k]] e Hk; simplify_eq/=; try done. by rewrite (Hrep k e Hk).
  - intros [|[|k]] [|[|k']] e e' d i Hk Hk' (R & Ed & Ei) (R' & Ed' & Ei'); simplify_eq/=; try done;
      try (rewrite (Hrep _ _ Hk) in *; by cbv in R); try (rewrite (Hrep _ _ Hk') in *; by cbv in R').
Qed.

Lemma directory_map_witness :
  (exists k off s', dirlookup 1 [97] fs64 = Ok (Some (k, off)) s' /\ referenced 1 2 k fs64 s') /\
  exists r x' s', dirlink 1 [98] 2 fs64 = Ok r s' /\
    ((r = 0 /\ dir_get [98] (content x' s') = Some 2 /\ dir_get [97] (content x' s') = Some 2) \/ full s').
Proof.
  destruct (directory_map 1 root_entry 1 fs64 disk_ok64 ready64 eq_refl dir64 ltac:(by vm_compute) table64 eq_refl) as [HL HK].
  split.
  - specialize (HL [97]). assert (dir_get [97] (content root_entry fs64) = Some 2) as E by (vm_compute; reflexivity).
    rewrite E in HL. destruct HL as [H|[_ H]]; [exact H|]. specialize (H 2%nat free_inode eq_refl). discriminate.
  - specialize (HK [98] 2 ltac:(repeat constructor; by vm_compute) ltac:(by vm_compute)).
    assert (dir_get [98] (content root_entry fs64) = None) as E by (vm_compute; reflexivity). rewrite E in HK.
    destruct (HK ltac:(by vm_compute)) as (r & x' & s' & H1 & _ & _ & _ & H2 & _). exists r, x', s'. split; [exact H1|].
    destruct H2 as [[H2 H3]|[_ [H2 _]]]; [left|right; exact H2]. split; [exact H2|].
    rewrite !H3. vm_compute. split; reflexivity.
Defined.

(** ** References *)

Lemma refs_set_ref d i l k e r :
  l !! k = Some e -> ref e > 0 -> 0 <= r ->
  refs d i (<[k := set_ref r e]> l) = refs d i l + (if decide ((d, i) = (dev e, inum e)) then r - ref e else 0).
Proof.
  intros Hk Hr H0. rewrite (refs_insert _ _ _ _ e) by done. unfold share, is_entry. simpl.
  repeat case_decide; simplify_eq; try lia; naive_solver lia.
Qed.

(** C12: The table of inodes counts references.  iget finds the entry of an inode or makes
    one, adds one reference to it and changes no other count, and no inode ever has two
    entries; it stops the kernel only when all entries are in use by other inodes.  idup
    adds a reference, iput takes one away, and the disk stays as it is; only the last iput
    of an inode without links frees it: afterwards exactly the blocks of the file are free
    that were in use before, the inode on the disk has type 0, and no other block has
    changed. *)
Theorem inode_references s :
  table_ok (itable s) -> itable_lock s = false ->
  (forall d i, (exists k s', iget d i s = Ok k s' /\ referenced d i k s s') \/
     (iget d i s = Fault (Panic "iget: no inodes") /\ forall k e, itable s !! k = Some e -> ref e > 0 /\ ~ is_entry d i e)) /\
  (forall k e, itable s !! k = Some e -> ref e > 0 ->
     (exists l, idup k s = Ok k (with_itable l s) /\
        forall d i, refs d i l = refs d i (itable s) + (if decide ((d, i) = (dev e, inum e)) then 1 else 0)) /\
     (~ (ref e = 1 /\ valid e = true /\ nlink e = 0) ->
        exists l, iput k s = Ok tt (with_itable l s) /\
          forall d i, refs d i l = refs d i (itable s) - (if decide ((d, i) = (dev e, inum e)) then 1 else 0)) /\
     (ref e = 1 /\ valid e = true /\ nlink e = 0 ->
        disk_ok s -> ready s -> file_ok e s -> 0 <= inum e < ninodes (sb s) -> locked e = false ->
        exists s', iput k s = Ok tt s' /\ disk_ok s' /\
          (forall d i, refs d i (itable s') = refs d i (itable s) - (if decide ((d, i) = (dev e, inum e)) then 1 else 0)) /\
          (forall b, 0 <= b < sb_size (sb s) ->
             used b s' = negb (bool_decide (owns e s (zrange 0 NSLOT) b)) && used b s) /\
          (forall c, ~ mapblock c (sb s) -> c <> IBLOCK (inum e) (sb s) -> data c s' = data c s) /\
          type (dn s' (inum e)) = 0)).
Proof.
  intros Ht Hl. split; [intros d i; by apply iget_run|]. intros k e Hk Hr. split_and!.
  - eexists. split; [by apply idup_run|]. intros d i. rewrite refs_set_ref by (done || lia). case_decide; lia.
  - intros Hn. eexists. split; [by apply iput_keeps|]. intros d i. rewrite refs_set_ref by (done || lia). case_decide; lia.
  - intros (Hr1 & Hv & Hn) Hd Hrd Hf Hi Hlk.
    destruct (iput_frees k s e Hd Hrd Hl Hk Hf Hi Hr1 Hv Hn Hlk) as (s' & Hrun & Hfr & Hd' & Hu & Hs & Ho).
    exists s'. split_and!; try done.
    + intros d i. rewrite Hfr. cbn [itable with_itable with_blocks]. rewrite (refs_insert _ _ _ _ e) by done.
      unfold share, is_entry. simpl. repeat case_decide; simplify_eq; try lia; naive_solver lia.
    + unfold dn, decode. cbn [type]. by rewrite Ho.
Qed.

Lemma inode_references_witness :
  exists s', iput 0 fs64 = Ok tt s' /\ refs 1 2 (itable s') = 0 /\ refs 1 1 (itable s') = 1.
Proof.
  destruct (inode_references fs64 table64 eq_refl) as [_ H].
  destruct (H 0%nat _ eq_refl eq_refl) as (_ & H1 & _).
  destruct H1 as (l & Hl & Hr); [intros (_ & _ & E); discriminate|].
  exists (with_itable l fs64). split; [exact Hl|]. cbn [itable with_itable]. rewrite !Hr. vm_compute. split; reflexivity.
Defined.

(** ** Paths *)

Lemma tree64 : tree fs64.
Proof.
  assert (forall i, allocated fs64 i -> i = 1 \/ i = 2) as Hall.
  { intros i [Hi Ht]. change (ninodes (sb fs64)) with 16 in Hi.
    destruct (decide (i = 1)); [by left|]. destruct (decide (i = 2)); [by right|]. exfalso. apply Ht.
    assert (i ∈ zrange 3 16) as Hin by (apply elem_of_zrange; lia). clear -Hin. revert i Hin.
    apply Forall_forall. unfold zrange. apply (bool_decide_unpack _). by vm_compute. }
  split.
  - intros i [-> | ->]%Hall; [apply (one_block_file _ _ 6)|apply (one_block_file _ _ 7)]; try (by vm_compute); split; by vm_compute.
  - intros i [-> | ->]%Hall; by vm_compute.
  - intros i [-> | ->]%Hall Ht; [|by vm_compute in Ht]. exists 1. by vm_compute.
  - intros i name j [-> | ->]%Hall Ht Hj; [|by vm_compute in Ht].
    assert (dirents (content (dn fs64 1) fs64) = [dirent 2 [97]]) as E by (vm_compute; reflexivity).
    unfold dir_get in Hj. rewrite E in Hj. simpl in Hj. unfold found in Hj. case_decide; simplify_eq/=.
    split; by vm_compute.
Qed.

(** C10: namei and nameiparent follow paths.  With every entry of a directory leading to an
    inode with links, and two free entries in the table, namei returns an entry
    for the inode that the elements of the path lead to from the root (for a path with a
    slash in front) or from the current directory, with one reference more, or no inode
    if an element is missing or not looked up in a directory; nameiparent stops at the
    directory of the last element and hands back its name.  All other
    reference counts are as before, no inode stays locked and the disk is unchanged. *)
Theorem namex_follows s path name c :
  disk_ok s -> ready s -> itable_lock s = false -> tree s -> tab s None (itable s) -> 2 <= nfree (itable s) ->
  Forall (fun c => c <> 0) path -> allocated s ROOTINO -> allocated s c ->
  (exists e, itable s !! cwd s = Some e /\ is_entry ROOTDEV c e) ->
  let from := start path c in let es := elems path in
  match follow s false from es with
  | Some j => exists k l, namei name path s = Ok (Some k) (with_itable l s) /\ at_inode s (itable s) j l k
  | None => exists l, namei name path s = Ok None (with_itable l s) /\ same_refs s (itable s) l
  end /\
  match follow s true from es with
  | Some j => exists k l name', nameiparent path name s = Ok (Some k, name') (with_itable l s) /\
      at_inode s (itable s) j l k /\ exists e, list.last es = Some e /\ norm name' = norm e
  | None => exists l name', nameiparent path name s = Ok (None, name') (with_itable l s) /\ same_refs s (itable s) l
  end.
Proof.
  intros Hd [_ Hh] Hlk HT T Hf Hp Hroot Hc Hcwd from es.
  pose proof (namex_run s path false name c Hd Hh Hlk HT T Hf Hp Hroot Hc Hcwd) as O1.
  pose proof (namex_run s path true name c Hd Hh Hlk HT T Hf Hp Hroot Hc Hcwd) as O2.
  fold from es in O1, O2. split.
  - unfold namei, outcome in *. destruct (follow s false from es).
    + destruct O1 as (k & l & n & E & A & _). exists k, l. by rewrite (bind_ok _ _ _ _ _ E).
    + destruct O1 as (l & n & E & S). exists l. by rewrite (bind_ok _ _ _ _ _ E).
  - unfold nameiparent, outcome in *. destruct (follow s true from es); [|done].
    destruct O2 as (k & l & n & E & A & Hn). exists k, l, n. split_and!; [done|done|by apply Hn].
Qed.

Lemma tab64 : tab fs64 None table2.
Proof.
  assert (forall j e, (replicate 48 free_inode) !! j = Some e -> e = free_inode) as Hrep.
  { intros j e Hj. by apply lookup_replicate in Hj as [-> _]. }
  split; [apply table64| |].
  - intros [|[|k]] e Hk; simplify_eq/=; try done. by rewrite (Hrep k e Hk).
  - intros [|[|k]] e Hk Hr Hv; simplify_eq/=; [by vm_compute|by vm_compute|]. by rewrite (Hrep k e Hk) in Hr.
Qed.

Lemma namex_follows_witness :
  (exists k l, namei [] [47; 97; 47] fs64 = Ok (Some k) (with_itable l fs64) /\ at_inode fs64 table2 2 l k) /\
  (exists l, namei [] [98] fs64 = Ok None (with_itable l fs64) /\ same_refs fs64 table2 l) /\
  (exists k l name', nameiparent [98] [] fs64 = Ok (Some k, name') (with_itable l fs64) /\
      at_inode fs64 table2 1 l k /\ exists e, list.last [[98]] = Some e /\ norm name' = norm e).
Proof.
  assert (allocated fs64 1) as Ha by (split; by vm_compute).
  assert (exists e, itable fs64 !! cwd fs64 = Some e /\ is_entry ROOTDEV 1 e) as Hc by (exists root_entry; split; [reflexivity|done]).
  pose proof (fun path (Hp : Forall (fun c => c <> 0) path) => namex_follows fs64 path [] 1 disk_ok64 ready64 eq_refl tree64 tab64 ltac:(by vm_compute) Hp Ha Ha Hc) as N.
  split; [|split].
  - destruct (N [47; 97; 47] ltac:(repeat constructor; done)) as [N1 _].
    assert (follow fs64 false (start [47; 97; 47] 1) (elems [47; 97; 47]) = Some 2) as E by (vm_compute; reflexivity).
    rewrite E in N1. exact N1.
  - destruct (N [98] ltac:(repeat constructor; done)) as [N1 _].
    assert (follow fs64 false (start [98] 1) (elems [98]) = None) as E by (vm_compute; reflexivity). rewrite E in N1. exact N1.
  - destruct (N [98] ltac:(repeat constructor; done)) as [_ N2].
    assert (follow fs64 true (start [98] 1) (elems [98]) = Some 1) as E by (vm_compute; reflexivity). rewrite E in N2. exact N2.
Defined.

(** A source that ends inside a piece: the bytes copied so far are in the buffer, but the
    buffer is released without being logged. *)
Lemma partial_copy_unlogged :
  exists s', writei 0 (fun _ _ => ([9], false)) 0 3 fs64 = Ok 0 s' /\ take 3 (data 7 s') = [9; 20; 30] /\
    elements (dirty s') = [7] /\ held s' = ∅.
Proof. eexists. split; [vm_compute; reflexivity|]. by vm_compute. Qed.
