(* ===== verification/File.v ===== *)
(** * kernel/file.c and kernel/sysfile.c: open files and the system calls on them

    The state is the file system of [Fs], the table of open files, the descriptors of the
    process, and the pipes and devices, whose operations are parameters.  User memory is a
    parameter as well: which bytes an address range holds and which can be written.
    System calls take the values that argint, argaddr and argstr deliver, a path that
    cannot be fetched being [None].  A pointer to an open file is its index. *)

From Stdlib Require Import ZArith Lia.
From stdpp Require Import base numbers list gmap strings.
From S2P Require Import Prelude Fs.
Open Scope Z_scope.

Definition NFILE : nat := 100.
Definition NOFILE : nat := 16.
Definition NDEV : Z := 10.
Definition MAXOPBLOCKS : Z := 10.
Definition T_FILE : Z := 2.
Definition T_DEVICE : Z := 3.
Definition O_RDONLY : Z := 0.
Definition O_WRONLY : Z := 1.
Definition O_RDWR : Z := 2.
Definition O_CREATE : Z := 512.
Definition O_TRUNC : Z := 1024.

Inductive fdtype : Type := FD_NONE | FD_PIPE | FD_INODE | FD_DEVICE.
#[export] Instance fdtype_dec : EqDecision fdtype.
Proof. solve_decision. Defined.

Record file : Type := mkFile {
  f_type : fdtype; f_ref : Z; readable : bool; writable : bool; f_pipe : nat; f_ip : nat; f_off : Z; f_major : Z }.
Definition set_fref v f := mkFile (f_type f) v (readable f) (writable f) (f_pipe f) (f_ip f) (f_off f) (f_major f).
Definition set_ftype v f := mkFile v (f_ref f) (readable f) (writable f) (f_pipe f) (f_ip f) (f_off f) (f_major f).
Definition set_off v f := mkFile (f_type f) (f_ref f) (readable f) (writable f) (f_pipe f) (f_ip f) v (f_major f).
Definition free_file : file := mkFile FD_NONE 0 false false 0 0 0 0.

(** The flags of an open mode. *)
Definition flag (omode bit : Z) : bool := bool_decide (Z.land omode bit <> 0).

Section File.
Context {P : Type}.

Record ks : Type := mkKs {
  fsys : fs; ftable_lock : bool; ftable : list file; ofile : list (option nat); pipes : P }.
Definition with_fsys v s := mkKs v (ftable_lock s) (ftable s) (ofile s) (pipes s).
Definition with_flock v s := mkKs (fsys s) v (ftable s) (ofile s) (pipes s).
Definition with_ftable v s := mkKs (fsys s) (ftable_lock s) v (ofile s) (pipes s).
Definition with_ofile v s := mkKs (fsys s) (ftable_lock s) (ftable s) v (pipes s).
Definition with_pipes v s := mkKs (fsys s) (ftable_lock s) (ftable s) (ofile s) v.

Definition in_fs {A} (m : M fs A) : M ks A := fun s =>
  match m (fsys s) with
  | Ok a t => Ok a (with_fsys t s)
  | Blocked c t => Blocked c (with_fsys t s)
  | Fault f => Fault f
  end.
Definition in_pipes {A} (m : M P A) : M ks A := fun s =>
  match m (pipes s) with
  | Ok a t => Ok a (with_pipes t s)
  | Blocked c t => Blocked c (with_pipes t s)
  | Fault f => Fault f
  end.

(** The operations of pipe.c on a pipe, the devices, and user memory. *)
Context (pipe_new : M P (option nat)) (pipeclose : nat -> bool -> M P unit)
        (piperead pipewrite : nat -> Z -> Z -> M P Z)
        (devsw_read devsw_write : Z -> option (Z -> Z -> M P Z))
        (user_dst : Z -> Z -> Z -> bool) (user_src : Z -> source) (copyout : Z -> Z -> bool).

Definition facquire : M ks unit := fun s => if ftable_lock s then Fault (Panic "acquire") else Ok tt (with_flock true s).
Definition frelease : M ks unit := fun s => if ftable_lock s then Ok tt (with_flock false s) else Fault (Panic "release").
Definition fat (f : nat) : M ks file := fun s => from_option "file table index" (ftable s !! f) s.
Definition fmod (f : nat) (g : file -> file) : M ks unit :=
  let! x := fat f in modify (fun s => with_ftable (<[f := g x]> (ftable s)) s).

(** ** file.c *)

Definition fileinit : M ks unit := modify (with_flock false).

Fixpoint first_free (l : list file) (k : nat) : option nat :=
  match l with [] => None | x :: l' => if decide (f_ref x = 0) then Some k else first_free l' (S k) end.
Definition filealloc : M ks (option nat) :=
  facquire ;;
  let! l := gets ftable in
  match first_free l 0 with
  | Some f => fmod f (set_fref 1) ;; frelease ;; ret (Some f)
  | None => frelease ;; ret None
  end.

Definition filedup (f : nat) : M ks nat :=
  facquire ;;
  let! x := fat f in
  if decide (f_ref x < 1) then panic "filedup"
  else fmod f (fun x => set_fref (f_ref x + 1) x) ;; frelease ;; ret f.

Definition fileclose (f : nat) : M ks unit :=
  facquire ;;
  let! x := fat f in
  if decide (f_ref x < 1) then panic "fileclose"
  else
    fmod f (fun x => set_fref (f_ref x - 1) x) ;;
    if decide (f_ref x - 1 > 0) then frelease
    else
      let! ff := fat f in
      fmod f (fun x => set_ftype FD_NONE (set_fref 0 x)) ;;
      frelease ;;
      match f_type ff with
      | FD_PIPE => in_pipes (pipeclose (f_pipe ff) (writable ff))
      | FD_INODE | FD_DEVICE => in_fs (begin_op ;; iput (f_ip ff) ;; end_op)
      | FD_NONE => ret tt
      end.

Definition filestat (f : nat) (addr : Z) : M ks (Z * option stat) :=
  let! x := fat f in
  match f_type x with
  | FD_INODE | FD_DEVICE =>
      let! st := in_fs (ilock (f_ip x) ;; let! st := stati (f_ip x) in iunlock (f_ip x) ;; ret st) in
      if copyout addr 24 then ret (0, Some st) else ret (-1, None)
  | _ => ret (-1, None)
  end.

(** The result and, for a file, the bytes that have been copied out. *)
Definition fileread (f : nat) (addr n : Z) : M ks (Z * list Z) :=
  let! x := fat f in
  if negb (readable x) then ret (-1, [])
  else
    match f_type x with
    | FD_PIPE => let! r := in_pipes (piperead (f_pipe x) addr n) in ret (r, [])
    | FD_DEVICE =>
        if decide (f_major x < 0 \/ f_major x >= NDEV) then ret (-1, [])
        else match devsw_read (f_major x) with
             | None => ret (-1, [])
             | Some op => let! r := in_pipes (op addr n) in ret (r, [])
             end
    | FD_INODE =>
        in_fs (ilock (f_ip x)) ;;
        let! (r, l) := in_fs (readi (f_ip x) (user_dst addr) (f_off x) (u32 n)) in
        (if decide (r > 0) then fmod f (fun y => set_off (u32 (f_off y + r)) y) else ret tt) ;;
        in_fs (iunlock (f_ip x)) ;;
        ret (r, l)
    | FD_NONE => panic "fileread"
    end.

Definition max_write : Z := (MAXOPBLOCKS - 1 - 1 - 2) / 2 * BSIZE.

(** One turn of the loop of filewrite: [n1] bytes at [addr + i] in one transaction. *)
Definition write_some (f : nat) (ip : nat) (addr i n1 : Z) : M ks Z :=
  in_fs begin_op ;;
  in_fs (ilock ip) ;;
  let! x := fat f in
  let! r := in_fs (writei ip (user_src (addr + i)) (f_off x) n1) in
  (if decide (r > 0) then fmod f (fun y => set_off (u32 (f_off y + r)) y) else ret tt) ;;
  in_fs (iunlock ip) ;;
  in_fs end_op ;;
  ret r.
Fixpoint filewrite_loop (fuel : nat) (f : nat) (ip : nat) (addr n i : Z) : M ks Z :=
  match fuel with
  | O => fun _ => Fault OutOfFuel
  | S fuel =>
      if decide (i < n) then
        let n1 := Z.min (n - i) max_write in
        let! r := write_some f ip addr i n1 in
        if decide (r <> n1) then ret i else filewrite_loop fuel f ip addr n (i + r)
      else ret i
  end.

Definition filewrite (f : nat) (addr n : Z) : M ks Z :=
  let! x := fat f in
  if negb (writable x) then ret (-1)
  else
    match f_type x with
    | FD_PIPE => in_pipes (pipewrite (f_pipe x) addr n)
    | FD_DEVICE =>
        if decide (f_major x < 0 \/ f_major x >= NDEV) then ret (-1)
        else match devsw_write (f_major x) with
             | None => ret (-1)
             | Some op => in_pipes (op addr n)
             end
    | FD_INODE =>
        let! i := filewrite_loop (Z.to_nat (Z.max n 0 / max_write + 2)) f (f_ip x) addr n 0 in
        ret (if decide (i = n) then n else -1)
    | FD_NONE => panic "filewrite"
    end.

(** ** pipealloc of pipe.c *)

Definition pipe_end (pi : nat) (wr : bool) (f : file) : file := mkFile FD_PIPE (f_ref f) (negb wr) wr pi (f_ip f) (f_off f) (f_major f).
Definition close_opt (f : option nat) : M ks unit := match f with Some f => fileclose f | None => ret tt end.

Definition pipealloc : M ks (option (nat * nat)) :=
  let! f0 := filealloc in
  let! f1 := (match f0 with Some _ => filealloc | None => ret None end) in
  let! pi := (match f1 with Some _ => in_pipes pipe_new | None => ret None end) in
  match f0, f1, pi with
  | Some f0, Some f1, Some pi => fmod f0 (pipe_end pi false) ;; fmod f1 (pipe_end pi true) ;; ret (Some (f0, f1))
  | _, _, _ => close_opt f0 ;; close_opt f1 ;; ret None
  end.

(** ** sysfile.c *)

Definition argfd (fd : Z) : M ks (option nat) :=
  if decide (fd < 0 \/ fd >= Z.of_nat NOFILE) then ret None
  else let! l := gets ofile in from_option "ofile" (l !! Z.to_nat fd).

Fixpoint first_none (l : list (option nat)) (k : nat) : option nat :=
  match l with [] => None | x :: l' => match x with None => Some k | Some _ => first_none l' (S k) end end.
Definition fdalloc (f : nat) : M ks Z :=
  let! l := gets ofile in
  match first_none l 0 with
  | Some fd => modify (fun s => with_ofile (<[fd := Some f]> (ofile s)) s) ;; ret (Z.of_nat fd)
  | None => ret (-1)
  end.
Definition clear_fd (fd : Z) : M ks unit := modify (fun s => with_ofile (<[Z.to_nat fd := None]> (ofile s)) s).

Definition sys_dup (fd : Z) : M ks Z :=
  let! f := argfd fd in
  match f with
  | None => ret (-1)
  | Some f => let! fd := fdalloc f in if decide (fd < 0) then ret (-1) else filedup f ;; ret fd
  end.

Definition sys_read (fd p n : Z) : M ks (Z * list Z) :=
  let! f := argfd fd in match f with None => ret (-1, []) | Some f => fileread f p n end.
Definition sys_write (fd p n : Z) : M ks Z :=
  let! f := argfd fd in match f with None => ret (-1) | Some f => filewrite f p n end.
Definition sys_close (fd : Z) : M ks Z :=
  let! f := argfd fd in
  match f with None => ret (-1) | Some f => clear_fd fd ;; fileclose f ;; ret 0 end.
Definition sys_fstat (fd st : Z) : M ks (Z * option stat) :=
  let! f := argfd fd in match f with None => ret (-1, None) | Some f => filestat f st end.

(** [name] is what the local array holds at first. *)
Definition link_bad (ip : nat) : M fs Z :=
  ilock ip ;; imod ip (fun x => set_nlink (i16 (nlink x - 1)) x) ;; iupdate ip ;; iunlockput ip ;; end_op ;; ret (-1).
Definition link_ (name old new : list Z) : M fs Z :=
  begin_op ;;
  let! ip := namei name old in
  match ip with
  | None => end_op ;; ret (-1)
  | Some ip =>
      ilock ip ;;
      let! x := iat ip in
      if decide (type x = T_DIR) then iunlockput ip ;; end_op ;; ret (-1)
      else
        imod ip (fun x => set_nlink (i16 (nlink x + 1)) x) ;;
        iupdate ip ;;
        iunlock ip ;;
        let! (dp, name) := nameiparent new name in
        match dp with
        | None => link_bad ip
        | Some dp =>
            ilock dp ;;
            let! d := iat dp in
            let! x := iat ip in
            if decide (dev d <> dev x) then iunlockput dp ;; link_bad ip
            else
              let! r := dirlink dp name (inum x) in
              if decide (r < 0) then iunlockput dp ;; link_bad ip
              else iunlockput dp ;; iput ip ;; end_op ;; ret 0
        end
  end.
Definition sys_link (name : list Z) (old new : option (list Z)) : M ks Z :=
  match old, new with
  | Some old, Some new => in_fs (link_ name old new)
  | _, _ => ret (-1)
  end.

Definition isdirempty (dp : nat) : M fs bool :=
  let! x := iat dp in
  let! r := for_until (drop 2 (entries (size x))) (fun off =>
    let! (r, de) := readi dp whole off DESIZE in
    if decide (r <> DESIZE) then panic "isdirempty: readi"
    else if decide (de_inum de <> 0) then ret (Some tt) else ret None) in
  ret (match r with Some _ => false | None => true end).

Definition DOT : list Z := [46].
Definition DOTDOT : list Z := [46; 46].

Definition unlink (name path : list Z) : M fs Z :=
  begin_op ;;
  let! (dp, name) := nameiparent path name in
  match dp with
  | None => end_op ;; ret (-1)
  | Some dp =>
      ilock dp ;;
      let bad := (iunlockput dp ;; end_op ;; ret (-1)) in
      if decide (namecmp name DOT = 0 \/ namecmp name DOTDOT = 0) then bad
      else
        let! r := dirlookup dp name in
        match r with
        | None => bad
        | Some (ip, off) =>
            ilock ip ;;
            let! x := iat ip in
            if decide (nlink x < 1) then panic "unlink: nlink < 1"
            else
              let! stay := (if decide (type x = T_DIR) then let! b := isdirempty ip in ret (negb b) else ret false) in
              if (stay : bool) then iunlockput ip ;; bad
              else
                let! w := writei dp (kernel_src (replicate (Z.to_nat DESIZE) 0)) off DESIZE in
                if decide (w <> DESIZE) then panic "unlink: writei"
                else
                  (if decide (type x = T_DIR) then imod dp (fun d => set_nlink (i16 (nlink d - 1)) d) ;; iupdate dp else ret tt) ;;
                  iunlockput dp ;;
                  imod ip (fun x => set_nlink (i16 (nlink x - 1)) x) ;;
                  iupdate ip ;;
                  iunlockput ip ;;
                  end_op ;;
                  ret 0
        end
  end.
Definition sys_unlink (name : list Z) (path : option (list Z)) : M ks Z :=
  match path with Some path => in_fs (unlink name path) | None => ret (-1) end.

Definition create (name path : list Z) (ty mj mn : Z) : M fs (option nat) :=
  let! (dp, name) := nameiparent path name in
  match dp with
  | None => ret None
  | Some dp =>
      ilock dp ;;
      let! r := dirlookup dp name in
      match r with
      | Some (ip, _) =>
          iunlockput dp ;;
          ilock ip ;;
          let! x := iat ip in
          if decide (ty = T_FILE /\ (type x = T_FILE \/ type x = T_DEVICE)) then ret (Some ip)
          else iunlockput ip ;; ret None
      | None =>
          let! d := iat dp in
          let! ip := ialloc (dev d) ty in
          match ip with
          | None => iunlockput dp ;; ret None
          | Some ip =>
              ilock ip ;;
              imod ip (fun x => set_nlink 1 (set_minor (i16 mn) (set_major (i16 mj) x))) ;;
              iupdate ip ;;
              let! x := iat ip in
              let! ok := (if decide (ty = T_DIR) then
                  let! r := dirlink ip DOT (inum x) in
                  if decide (r < 0) then ret false
                  else let! r := dirlink ip DOTDOT (inum d) in ret (bool_decide (0 <= r))
                else ret true) in
              let! ok := (if (ok : bool) then let! r := dirlink dp name (inum x) in ret (bool_decide (0 <= r)) else ret false) in
              if (ok : bool) then
                (if decide (ty = T_DIR) then imod dp (fun d => set_nlink (i16 (nlink d + 1)) d) ;; iupdate dp else ret tt) ;;
                iunlockput dp ;;
                ret (Some ip)
              else
                imod ip (set_nlink 0) ;;
                iupdate ip ;;
                iunlockput ip ;;
                iunlockput dp ;;
                ret None
          end
      end
  end.

(** The inode for open, locked, or nothing. *)
Definition open_inode (name path : list Z) (omode : Z) : M fs (option nat) :=
  if flag omode O_CREATE then create name path T_FILE 0 0
  else
    let! ip := namei name path in
    match ip with
    | None => ret None
    | Some ip =>
        ilock ip ;;
        let! x := iat ip in
        if decide (type x = T_DIR /\ omode <> O_RDONLY) then iunlockput ip ;; ret None else ret (Some ip)
    end.

Definition opened (ip : nat) (x : inode) (omode : Z) (f : file) : file :=
  let wr := flag omode O_WRONLY || flag omode O_RDWR in
  if decide (type x = T_DEVICE) then mkFile FD_DEVICE (f_ref f) (negb (flag omode O_WRONLY)) wr (f_pipe f) ip (f_off f) (major x)
  else mkFile FD_INODE (f_ref f) (negb (flag omode O_WRONLY)) wr (f_pipe f) ip 0 (f_major f).

Definition sys_open (name : list Z) (path : option (list Z)) (omode : Z) : M ks Z :=
  match path with
  | None => ret (-1)
  | Some path =>
      in_fs begin_op ;;
      let! ip := in_fs (open_inode name path omode) in
      match ip with
      | None => in_fs end_op ;; ret (-1)
      | Some ip =>
          let! x := in_fs (iat ip) in
          let fail := (in_fs (iunlockput ip ;; end_op) ;; ret (-1)) in
          if decide (type x = T_DEVICE /\ (major x < 0 \/ major x >= NDEV)) then fail
          else
            let! f := filealloc in
            match f with
            | None => fail
            | Some f =>
                let! fd := fdalloc f in
                if decide (fd < 0) then fileclose f ;; fail
                else
                  fmod f (opened ip x omode) ;;
                  in_fs ((if decide (flag omode O_TRUNC = true /\ type x = T_FILE) then itrunc ip else ret tt) ;;
                         iunlock ip ;; end_op) ;;
                  ret fd
            end
      end
  end.

Definition sys_mknode (name : list Z) (path : option (list Z)) (ty mj mn : Z) : M ks Z :=
  in_fs (
    begin_op ;;
    let! ip := (match path with Some path => create name path ty mj mn | None => ret None end) in
    match ip with
    | None => end_op ;; ret (-1)
    | Some ip => iunlockput ip ;; end_op ;; ret 0
    end).
Definition sys_mkdir (name : list Z) (path : option (list Z)) : M ks Z := sys_mknode name path T_DIR 0 0.
Definition sys_mknod (name : list Z) (path : option (list Z)) (mj mn : Z) : M ks Z := sys_mknode name path T_DEVICE mj mn.

Definition sys_chdir (name : list Z) (path : option (list Z)) : M ks Z :=
  in_fs (
    begin_op ;;
    let! ip := (match path with Some path => namei name path | None => ret None end) in
    match ip with
    | None => end_op ;; ret (-1)
    | Some ip =>
        ilock ip ;;
        let! x := iat ip in
        if decide (type x <> T_DIR) then iunlockput ip ;; end_op ;; ret (-1)
        else
          iunlock ip ;;
          let! c := gets cwd in
          iput c ;;
          end_op ;;
          modify (with_cwd ip) ;;
          ret 0
    end).

Definition sys_pipe (fdarray : Z) : M ks (Z * option (Z * Z)) :=
  let! r := pipealloc in
  match r with
  | None => ret (-1, None)
  | Some (rf, wf) =>
      let! fd0 := fdalloc rf in
      let! fd1 := (if decide (fd0 < 0) then ret (-1) else fdalloc wf) in
      if decide (fd0 < 0 \/ fd1 < 0) then
        (if decide (fd0 >= 0) then clear_fd fd0 else ret tt) ;;
        fileclose rf ;; fileclose wf ;; ret (-1, None)
      else if copyout fdarray 4 && copyout (fdarray + 4) 4 then ret (0, Some (fd0, fd1))
      else
        clear_fd fd0 ;; clear_fd fd1 ;; fileclose rf ;; fileclose wf ;; ret (-1, None)
  end.

End File.
Arguments ks P : clear implicits.
