(* ===== verification/FileProps.v ===== *)
(** * kernel/file.c and sysfile.c: what is written is read back, and descriptors are counted *)

From Stdlib Require Import ZArith Lia.
From stdpp Require Import base numbers list gmap strings.
From S2P Require Import Prelude Fs FsBlocks FsFile FsWrite FsTrunc FsTable FsDir FsPath FsNamei FsProps File.
Open Scope Z_scope.

(** ** An inode in memory, locked and unlocked *)

Lemma ilock_valid ip s x :
  itable s !! ip = Some x -> 1 <= ref x -> locked x = false -> valid x = true ->
  ilock ip s = Ok tt (with_itable (<[ip := set_locked true x]> (itable s)) s).
Proof.
  intros Hx Hr Hl Hv. unfold ilock. rewrite (bind_ok _ _ _ _ _ (iat_run _ _ _ Hx)), decide_False by lia.
  rewrite (bind_ok _ _ _ _ _ (isleep_run ip s x Hx Hl)). by rewrite Hv.
Qed.
Lemma iunlock_valid ip s x :
  itable s !! ip = Some x -> 1 <= ref x -> locked x = true ->
  iunlock ip s = Ok tt (with_itable (<[ip := set_locked false x]> (itable s)) s).
Proof.
  intros Hx Hr Hl. unfold iunlock. rewrite (bind_ok _ _ _ _ _ (iat_run _ _ _ Hx)).
  rewrite decide_False by (rewrite Hl; naive_solver lia). by apply imod_run.
Qed.

Section FileProps.
Context {P : Type} (piperead pipewrite : nat -> Z -> Z -> M P Z)
        (devsw_read devsw_write : Z -> option (Z -> Z -> M P Z))
        (user_dst : Z -> Z -> Z -> bool) (user_src : Z -> source).
Notation fileread := (fileread piperead devsw_read user_dst).
Notation filewrite := (filewrite pipewrite devsw_write user_src).
Notation write_some := (write_some user_src).
Notation filewrite_loop := (filewrite_loop user_src).

Lemma in_fs_run {A} (m : M fs A) (s : ks P) a t : m (fsys s) = Ok a t -> in_fs m s = Ok a (with_fsys t s).
Proof. intros H. unfold in_fs. by rewrite H. Qed.
Lemma fat_run f (s : ks P) y : ftable s !! f = Some y -> fat f s = Ok y s.
Proof. intros H. unfold fat. by rewrite H. Qed.
Lemma fmod_run f g (s : ks P) y : ftable s !! f = Some y -> fmod f g s = Ok tt (with_ftable (<[f := g y]> (ftable s)) s).
Proof. intros H. unfold fmod. by rewrite (bind_ok _ _ _ _ _ (fat_run _ _ _ H)). Qed.

(** [f] is an open file for the inode [x] at entry [ip]. *)
Record open_file (s : ks P) (f ip : nat) (y : file) (x : inode) : Prop := {
  of_file : ftable s !! f = Some y;
  of_type : f_type y = FD_INODE /\ f_ip y = ip;
  of_inode : itable (fsys s) !! ip = Some x;
  of_ref : 1 <= ref x /\ locked x = false /\ valid x = true;
  of_ok : file_ok x (fsys s);
  of_inum : 0 <= inum x < ninodes (sb (fsys s));
  of_disk : disk_ok (fsys s);
  of_idle : held (fsys s) = ∅ /\ dirty (fsys s) = ∅ /\ 0 <= ops (fsys s);
  of_off : 0 <= f_off y <= size x;
}.

(** What a write of [bs] at the offset of [f] that stored [tot] bytes leaves behind. *)
Record wrote (s : ks P) (f ip : nat) (y : file) (x : inode) (bs : list Z) (tot : Z) (x' : inode) (s' : ks P) : Prop := {
  wo_open : open_file s' f ip (set_off (f_off y + tot) y) x';
  wo_content : content x' (fsys s') = splice (content x (fsys s)) (f_off y) (take (Z.to_nat tot) bs);
  wo_rest : ftable s' = <[f := set_off (f_off y + tot) y]> (ftable s) /\ ofile s' = ofile s /\ pipes s' = pipes s;
  wo_others z : file_ok z (fsys s) -> disjoint x z (fsys s) ->
    file_ok z (fsys s') /\ content z (fsys s') = content z (fsys s) /\ disjoint x' z (fsys s');
}.

Lemma set_off_same y : set_off (f_off y + 0) y = y.
Proof. unfold set_off. rewrite Z.add_0_r. by destruct y. Qed.

Lemma max_file : MAXFILE * BSIZE < 2 ^ 31.
Proof. by vm_compute. Qed.

Lemma write_some_run s f ip y x addr i bs :
  open_file s f ip y x -> delivers (user_src (addr + i)) bs -> Forall byte bs ->
  f_off y + Z.of_nat (length bs) <= MAXFILE * BSIZE ->
  exists r x' s', write_some f ip addr i (Z.of_nat (length bs)) s = Ok r s' /\ 0 <= r <= Z.of_nat (length bs) /\
    (r < Z.of_nat (length bs) -> full (fsys s') \/ runs_out (user_src (addr + i)) (Z.of_nat (length bs))) /\ wrote s f ip y x bs r x' s'.
Proof.
  intros [Hy [Hty Hip] Hx (Hr & Hlk & Hv) Hf Hi Hd (Hh & Hdi & Hops) Ho] Hsrc Hbs Hmax.
  pose proof max_file as Hmf. assert (ip < length (itable (fsys s)))%nat as Hlt by (by eapply lookup_lt_Some).
  set (x2 := set_locked true x). set (t1 := with_ops (ops (fsys s) + 1) (fsys s)).
  set (t2 := with_itable (<[ip := x2]> (itable (fsys s))) t1).
  assert (itable t2 !! ip = Some x2) as Hx2 by (by apply list_lookup_insert_eq).
  assert (disk_ok t2) as Hd2 by (by destruct Hd). assert (file_ok x2 t2) as Hf2 by (by destruct Hf).
  assert (ready t2) as Hr2 by (split; [split; [simpl; lia|done]|done]).
  destruct (writei_run ip x2 t2 (user_src (addr + i)) bs (f_off y) Hd2 Hr2 Hx2 Hf2 Hi Hsrc Hbs Ho Hmax)
    as (r & x3 & t3 & Hw & Hrr & Hshort & _ & W).
  pose proof (wn_frame _ _ _ _ _ _ _ _ W) as Hfr. pose proof (wn_inode _ _ _ _ _ _ _ _ W) as Hxi.
  assert (itable t3 = <[ip := x3]> (itable (fsys s))) as Hit3 by (rewrite Hfr; simpl; by rewrite list_insert_insert_eq).
  assert (itable t3 !! ip = Some x3) as Hx3 by (rewrite Hit3; by apply list_lookup_insert_eq).
  assert (ref x3 = ref x /\ locked x3 = true /\ valid x3 = true /\ inum x3 = inum x) as (Hr3 & Hl3 & Hv3 & Hi3) by (by rewrite Hxi).
  set (x4 := set_locked false x3). set (t4 := with_ops (ops t3 - 1) (with_itable (<[ip := x4]> (itable (fsys s))) t3)).
  set (y' := set_off (f_off y + r) y). set (s' := mkKs t4 (ftable_lock s) (<[f := y']> (ftable s)) (ofile s) (pipes s)).
  assert (f < length (ftable s))%nat as Hflt by (by eapply lookup_lt_Some).
  exists r, x4, s'. split_and!; [|lia|lia|done|].
  - unfold write_some. rewrite (bind_ok _ _ _ _ _ (in_fs_run _ s tt t1 eq_refl)).
    rewrite (bind_ok _ _ _ tt (with_fsys t2 s)) by (unfold in_fs; cbn [fsys with_fsys]; by rewrite (ilock_valid ip t1 x Hx Hr Hlk Hv)).
    rewrite (bind_ok _ _ _ _ _ (fat_run f (with_fsys t2 s) y Hy)).
    rewrite (bind_ok _ _ _ _ _ (in_fs_run _ (with_fsys t2 s) r t3 Hw)).
    rewrite (bind_ok _ _ _ tt (mkKs t3 (ftable_lock s) (<[f := y']> (ftable s)) (ofile s) (pipes s))).
    2: { case_decide.
         - rewrite (fmod_run f _ _ y) by done. do 2 f_equal. unfold u32. rewrite uwrap_small; [done|].
           change (2 ^ 32) with (2 * 2 ^ 31). lia.
         - unfold y'. replace r with 0 by lia. rewrite set_off_same. rewrite list_insert_id by done. by destruct s. }
    rewrite (bind_ok _ _ _ tt (mkKs (with_itable (<[ip := x4]> (itable t3)) t3) (ftable_lock s) (<[f := y']> (ftable s)) (ofile s) (pipes s))).
    2: { unfold in_fs. cbn [fsys]. by rewrite (iunlock_valid ip t3 x3 Hx3) by (done || lia). }
    rewrite Hit3, list_insert_insert_eq. done.
  - assert (forall z, file_ok z t3 -> file_ok z t4) as H34 by (intros z []; by split).
    split.
    + split; [by apply list_lookup_insert_eq|done|by apply list_lookup_insert_eq|split_and!; [simpl; lia|done|done]| | | | |].
      * destruct (H34 x3 (wn_file _ _ _ _ _ _ _ _ W)). by split.
      * cbn [fsys s' t4 sb with_ops with_itable]. rewrite Hfr. simpl. by rewrite Hi3.
      * by destruct (wn_disk _ _ _ _ _ _ _ _ W).
      * cbn [fsys s' t4 held dirty ops with_ops with_itable]. rewrite Hfr. simpl. split_and!; [done|done|lia].
      * cbn [f_off y' set_off]. change (size x4) with (size x3).
        pose proof (wn_content _ _ _ _ _ _ _ _ W) as Hc. apply (f_equal (fun l => Z.of_nat (length l))) in Hc.
        rewrite length_content in Hc by apply (wn_file _ _ _ _ _ _ _ _ W).
        pose proof (length_content x2 t2 ltac:(apply Hf2)) as Hlc. change (size x2) with (size x) in Hlc.
        rewrite length_splice_max in Hc by lia. rewrite length_take in Hc. lia.
    + exact (wn_content _ _ _ _ _ _ _ _ W).
    + done.
    + intros z Hz Hxz. assert (file_ok z t2) as Hz2 by (by destruct Hz).
      destruct (wn_others _ _ _ _ _ _ _ _ W z Hz2 Hxz) as (A & B & C). split_and!; [by apply H34|exact B|exact C].
Qed.

Lemma wrote_refl s f ip y x bs : open_file s f ip y x -> wrote s f ip y x bs 0 x s.
Proof.
  intros H. split; rewrite ?set_off_same; [done| |split_and!; [|done..]|done].
  - unfold splice. change (Z.to_nat 0) with 0%nat. cbn [take length]. rewrite Nat.add_0_r. by rewrite app_nil_l, take_drop.
  - by rewrite list_insert_id by apply H.
Qed.

Lemma wrote_trans s f ip y x bs a x1 s1 b x2 s2 :
  wrote s f ip y x (take (Z.to_nat a) bs) a x1 s1 -> open_file s f ip y x -> 0 <= a <= Z.of_nat (length bs) -> 0 <= b ->
  wrote s1 f ip (set_off (f_off y + a) y) x1 (drop (Z.to_nat a) bs) b x2 s2 -> wrote s f ip y x bs (a + b) x2 s2.
Proof.
  intros [O1 C1 (F1 & D1 & P1) R1] Ho Ha Hb [O2 C2 (F2 & D2 & P2) R2].
  assert (set_off (f_off (set_off (f_off y + a) y) + b) (set_off (f_off y + a) y) = set_off (f_off y + (a + b)) y) as He
    by (unfold set_off; cbn; by rewrite Z.add_assoc).
  rewrite He in O2, F2. split; [done| |split_and!|].
  - rewrite C2, C1, take_take, Nat.min_id. cbn [f_off set_off].
    pose proof (length_content x (fsys s) (proj1 (fo_size _ _ (of_ok _ _ _ _ _ Ho)))) as Hlc. destruct (of_off _ _ _ _ _ Ho).
    replace (f_off y + a) with (f_off y + Z.of_nat (length (take (Z.to_nat a) bs))) by (rewrite length_take; lia).
    rewrite splice_splice by lia. f_equal. rewrite Z2Nat.inj_add by lia. by rewrite take_take_drop.
  - rewrite F2, F1. apply list_insert_insert_eq.
  - by rewrite D2.
  - by rewrite P2.
  - intros z Hz Hxz. destruct (R1 z Hz Hxz) as (A & B & C). destruct (R2 z A C) as (A' & B' & C').
    split_and!; [done|by rewrite B'|done].
Qed.

(** User memory at [addr] holds [bs], of which a piece may turn out to be unmapped. *)
Definition holds (addr : Z) (bs : list Z) : Prop :=
  forall j, 0 <= j <= Z.of_nat (length bs) -> delivers (user_src (addr + j)) (drop (Z.to_nat j) bs).
Definition unmapped (addr n : Z) : Prop := exists j, 0 <= j < n /\ runs_out (user_src (addr + j)) (n - j).

Lemma delivers_take src bs k : delivers src bs -> delivers src (take k bs).
Proof.
  intros H t m Ht Hm Hl. rewrite length_take in Hl. destruct (H t m Ht Hm ltac:(lia)) as [-> | ->]; [left|by right].
  unfold slice. rewrite skipn_firstn_comm, take_take. do 2 f_equal. lia.
Qed.

Lemma drop_length_Z {A} (l : list A) i : 0 <= i -> Z.of_nat (length (drop (Z.to_nat i) l)) = Z.max 0 (Z.of_nat (length l) - i).
Proof. rewrite length_drop. lia. Qed.

Lemma max_write_val : max_write = 3072.
Proof. done. Qed.

(** The loop of filewrite stores the bytes from [i] on, up to a turn that stops short. *)
Lemma filewrite_loop_run f ip addr bs fuel : holds addr bs -> Forall byte bs -> forall s y x i,
  let n := Z.of_nat (length bs) in
  open_file s f ip y x -> 0 <= i <= n -> f_off y + (n - i) <= MAXFILE * BSIZE -> n - i <= max_write * (Z.of_nat fuel - 1) ->
  exists r tot x' s', filewrite_loop fuel f ip addr n i s = Ok r s' /\ 0 <= tot <= n - i /\
    (r = n /\ tot = n - i \/ r < n /\ tot < n - i /\ (full (fsys s') \/ unmapped addr n)) /\
    wrote s f ip y x (drop (Z.to_nat i) bs) tot x' s'.
Proof.
  intros Hh Hbs. induction fuel as [|fuel IH]; intros s y x i n HO Hi Hmax Hfuel.
  { rewrite max_write_val in Hfuel. lia. }
  cbn [filewrite_loop]. destruct (decide (i < n)) as [Hlt|Hge].
  2: { exists i, 0, x, s. split_and!; [done|lia|lia|left; lia|by apply wrote_refl]. }
  set (n1 := Z.min (n - i) max_write). assert (0 < n1 <= n - i) as Hn1 by (unfold n1; rewrite max_write_val; lia).
  set (rest := drop (Z.to_nat i) bs). assert (Z.of_nat (length rest) = n - i) as Hrest by (unfold rest; rewrite drop_length_Z; lia).
  set (now := take (Z.to_nat n1) rest). assert (Z.of_nat (length now) = n1) as Hnow by (unfold now; rewrite length_take; lia).
  destruct (write_some_run s f ip y x addr i now HO) as (r & x1 & s1 & Hw & Hr & Hshort & W1).
  { apply delivers_take, Hh. lia. } { apply Forall_take, Forall_drop, Hbs. } { lia. }
  rewrite Hnow in Hw, Hr, Hshort. rewrite (bind_ok _ _ _ _ _ Hw). destruct (decide (r <> n1)) as [Hne|Heq].
  - exists i, r, x1, s1. split_and!; [done|lia|lia| |].
    + right. split_and!; [lia|lia|]. destruct (Hshort ltac:(lia)) as [?|(t & m & ? & ? & ? & ?)]; [by left|right].
      exists i. split; [lia|]. exists t, m. split_and!; [lia|lia|lia|done].
    + destruct W1 as [A B C D]. split; [done| |done|done]. rewrite B. unfold now. rewrite take_take. f_equal. f_equal. lia.
  - assert (r = n1) as -> by (destruct (decide (r = n1)); tauto).
    destruct (IH s1 (set_off (f_off y + n1) y) x1 (i + n1)) as (r & tot & x2 & s2 & Hrun & Ht & Hres & W2); fold n.
    { apply W1. } { lia. } { cbn [f_off set_off]. lia. } { unfold n1. rewrite max_write_val in *. lia. }
    fold n in Hrun, Ht, Hres. exists r, (n1 + tot), x2, s2. split_and!; [done|lia|lia| |].
    + destruct Hres as [[-> ->]|(? & ? & ?)]; [left; lia|right]. split_and!; [lia|lia|done].
    + apply (wrote_trans _ _ _ _ _ _ _ x1 s1); [done|done|lia|lia|].
      unfold rest. rewrite drop_drop, <- Z2Nat.inj_add by lia. done.
Qed.

(** What a read at the offset of [f] delivers. *)
Lemma fileread_run s f ip y x addr n :
  open_file s f ip y x -> readable y = true -> 0 <= n < 2 ^ 31 -> (forall t m, user_dst addr t m = true) ->
  let l := slice (content x (fsys s)) (f_off y) (Z.min n (size x - f_off y)) in
  fileread f addr n s = Ok (Z.of_nat (length l), l) (with_ftable (<[f := set_off (f_off y + Z.of_nat (length l)) y]> (ftable s)) s).
Proof.
  intros [Hy [Hty Hip] Hx (Hr & Hlk & Hv) Hf Hi Hd (Hh & Hdi & Hops) Ho] Hrd Hn Hdst l.
  pose proof max_file as Hmf. pose proof (fo_size _ _ Hf) as Hsz.
  assert (Z.of_nat (length l) = Z.min n (size x - f_off y)) as Hl.
  { unfold l. rewrite length_slice; [lia|lia|lia|]. rewrite length_content by lia. lia. }
  unfold File.fileread. rewrite (bind_ok _ _ _ _ _ (fat_run _ _ _ Hy)), Hrd. cbn [negb]. rewrite Hty, Hip.
  set (t1 := with_itable (<[ip := set_locked true x]> (itable (fsys s))) (fsys s)).
  assert (ip < length (itable (fsys s)))%nat as Hlt by (by eapply lookup_lt_Some).
  assert (itable t1 !! ip = Some (set_locked true x)) as Hx1 by (by apply list_lookup_insert_eq).
  rewrite (bind_ok _ _ _ _ _ (in_fs_run _ s tt t1 (ilock_valid ip (fsys s) x Hx Hr Hlk Hv))).
  unfold u32. rewrite uwrap_small by (change (2 ^ 32) with (2 * 2 ^ 31); lia).
  destruct (readi_run ip (set_locked true x) t1 (user_dst addr) (f_off y) n) as [Hrun|(t & m & l' & Hno & _)];
    [by destruct Hd|done|done|by destruct Hf|done|done| |by rewrite Hdst in Hno].
  unfold FsFile.readable in Hrun. change (size (set_locked true x)) with (size x) in Hrun.
  change (content (set_locked true x) t1) with (content x (fsys s)) in Hrun. fold l in Hrun. rewrite <- Hl in Hrun.
  rewrite (bind_ok _ _ _ _ _ (in_fs_run _ (with_fsys t1 s) _ t1 Hrun)).
  rewrite (bind_ok _ _ _ tt (with_ftable (<[f := set_off (f_off y + Z.of_nat (length l)) y]> (ftable s)) (with_fsys t1 s))).
  2: { case_decide.
       - rewrite (fmod_run f _ _ y) by done. do 2 f_equal. unfold u32. rewrite uwrap_small; [done|].
         change (2 ^ 32) with (2 * 2 ^ 31). lia.
       - replace (Z.of_nat (length l)) with 0 by lia. rewrite set_off_same, list_insert_id by done. by destruct s. }
  rewrite (bind_ok _ _ _ tt (with_ftable (<[f := set_off (f_off y + Z.of_nat (length l)) y]> (ftable s)) s)); [done|].
  unfold in_fs. cbn [fsys with_ftable with_fsys]. rewrite (iunlock_valid ip t1 (set_locked true x) Hx1) by (done || simpl; lia).
  unfold t1. cbn [itable with_itable]. rewrite list_insert_insert_eq.
  replace (set_locked false (set_locked true x)) with x by (destruct x; simpl in *; by subst).
  rewrite list_insert_id by done. by destruct s as [[] ? ? ? ?].
Qed.

Lemma slice_splice l off b : 0 <= off <= Z.of_nat (length l) -> slice (splice l off b) off (Z.of_nat (length b)) = b.
Proof.
  intros H. unfold slice, splice. rewrite drop_app_ge by (rewrite length_take; lia).
  rewrite length_take, Nat.min_l, Nat.sub_diag by lia. rewrite drop_0, Nat2Z.id. apply take_app_length.
Qed.

(** Another open file for the same inode after a write. *)
Lemma wrote_other s f g ip y x z bs tot x' s' :
  wrote s f ip y x bs tot x' s' -> open_file s g ip z x -> f <> g -> f_off z <= f_off y + tot -> open_file s' g ip z x'.
Proof.
  intros [[F _ I R K N D L O] _ (E & _) _] Hz Hne Ho. destruct Hz as [Hz Hzt _ _ _ _ _ _ Hzo].
  split; try done. by rewrite E, list_lookup_insert_ne. cbn [f_off set_off] in O. lia.
Qed.


End FileProps.

(** The file of the small disk, opened twice. *)
Definition fd_rw (off : Z) : file := mkFile FD_INODE 1 true true 0 0 off 0.
Definition ks64 : ks unit :=
  mkKs (with_ops 0 fs64) false (fd_rw 2 :: fd_rw 2 :: replicate 98 free_file) (Some 0%nat :: Some 1%nat :: replicate 14 None) tt.
Lemma ks64_open f : (f < 2)%nat -> open_file ks64 f 0 (fd_rw 2) (mkInode 1 2 1 false true 2 0 0 1 3 (7 :: replicate 12 0)).
Proof.
  intros Hf. split; try done.
  - by destruct f as [|[|]]; [done|done|lia].
  - by destruct file64.
  - by destruct disk_ok64.
Qed.
(** User memory of 4096 bytes, each the low byte of its address. *)
Definition mem4096 (a : Z) : source := fun t m =>
  if decide (0 <= a + t /\ a + t + m <= 4096) then ((fun k => k mod 256) <$> zrange (a + t) (a + t + m), true) else ([], false).

Lemma mem4096_holds : holds mem4096 300 [44; 45; 46; 47; 48].
Proof.
  intros j Hj t m Ht Hm Hl. left. rewrite length_drop in Hl. cbn [length] in *.
  assert (forall k, 0 <= k <= 5 -> k ∈ zrange 0 6) as H6 by (intros; apply elem_of_zrange; lia).
  assert (Forall (fun j => Forall (fun t => Forall (fun m => 5 < j + t + m \/ mem4096 (300 + j) t m = (slice (drop (Z.to_nat j) [44; 45; 46; 47; 48]) t m, true))
    (zrange 0 6)) (zrange 0 6)) (zrange 0 6)) as H by (apply (bool_decide_unpack _); by vm_compute).
  rewrite Forall_forall in H. specialize (H j (H6 j ltac:(lia))). rewrite Forall_forall in H.
  specialize (H t (H6 t ltac:(lia))). rewrite Forall_forall in H. destruct (H m (H6 m ltac:(lia))); [lia|done].
Qed.


(** Make a directory, go there, remove it, create a file x in it and come back. *)
Definition orphan : M (ks unit) Z :=
  sys_mkdir [] (Some [47; 100]) ;;
  sys_chdir [] (Some [100]) ;;
  sys_unlink [] (Some [47; 100]) ;;
  let! fd := sys_open (fun _ _ => ret tt) [] (Some [120]) (O_CREATE + O_RDWR) in
  sys_close (fun _ _ => ret tt) fd ;;
  sys_chdir [] (Some [47]) ;;
  ret fd.
(** create looks neither at the link count of the directory nor at its own result's: the file
    keeps a link count of 1 on the disk, though the directory that named it is gone, the
    root names only the inode 2, and nobody has it open. *)
Lemma create_in_removed_directory : exists s, orphan ks64 = Ok 2 s /\
  type (dn (fsys s) 4) = T_FILE /\ nlink (dn (fsys s) 4) = 1 /\ type (dn (fsys s) 3) = 0 /\
  dir_get [97] (data 6 (fsys s)) = Some 2 /\ dir_get [120] (data 6 (fsys s)) = None /\
  Forall (fun x => inum x <> 4 \/ ref x = 0) (itable (fsys s)).
Proof.
  eexists. split; [vm_compute; reflexivity|]. split_and!; try (vm_compute; reflexivity).
  apply (bool_decide_unpack _). vm_compute. exact I.
Qed.
