(* ===== verification/FileCount.v ===== *)
(** * kernel/file.c and sysfile.c: open files are counted

    The reference count of an open file is the number of descriptors that name it, those of
    the process and those held elsewhere, and every system call keeps it so.  What the
    calls do to inodes, pipes and user memory does not matter here and is left open. *)

From Stdlib Require Import ZArith Lia.
From stdpp Require Import base numbers list gmap strings.
From S2P Require Import Prelude Fs File FileProps.
Open Scope Z_scope.

(** The descriptors in [l] that name [f]. *)
Fixpoint uses (f : nat) (l : list (option nat)) : Z :=
  match l with [] => 0 | o :: l' => (if decide (o = Some f) then 1 else 0) + uses f l' end.
(** One more reference to [f]. *)
Definition bump (f : nat) (e : nat -> Z) : nat -> Z := fun g => (if decide (g = f) then 1 else 0) + e g.

Lemma uses_nonneg f l : 0 <= uses f l.
Proof. induction l as [|o l IH]; simpl; [lia|]. case_decide; lia. Qed.
Lemma uses_insert f l k o o' :
  l !! k = Some o -> uses f (<[k := o']> l) = uses f l - (if decide (o = Some f) then 1 else 0) + (if decide (o' = Some f) then 1 else 0).
Proof.
  revert k. induction l as [|p l IH]; intros [|k] H; simplify_eq/=; [lia|]. rewrite (IH k H). lia.
Qed.
Lemma uses_pos f l k : l !! k = Some (Some f) -> 1 <= uses f l.
Proof.
  revert k. induction l as [|p l IH]; intros [|k] H; simplify_eq/=.
  - rewrite decide_True by done. pose proof (uses_nonneg f l). lia.
  - specialize (IH k H). case_decide; lia.
Qed.

Lemma first_free_Some l k f : first_free l k = Some f -> (k <= f)%nat /\ exists y, l !! (f - k)%nat = Some y /\ f_ref y = 0.
Proof.
  revert k. induction l as [|x l IH]; intros k H; simpl in H; [done|]. case_decide as E.
  - simplify_eq. rewrite Nat.sub_diag. split; [lia|]. by exists x.
  - apply IH in H as [Hk (y & Hy & Hr)]. split; [lia|]. exists y. split; [|done].
    replace (f - k)%nat with (S (f - S k)) by lia. done.
Qed.
Lemma first_none_Some l k d :
  first_none l k = Some d -> (k <= d)%nat /\ l !! (d - k)%nat = Some None /\ forall j, (j < d - k)%nat -> exists f, l !! j = Some (Some f).
Proof.
  revert k. induction l as [|x l IH]; intros k H; simpl in H; [done|]. destruct x as [f|].
  - apply IH in H as (Hk & Hd & Hj). replace (d - k)%nat with (S (d - S k)) by lia. split_and!; [lia|done|].
    intros [|j] Hlt; [by exists f|]. simpl. apply Hj. lia.
  - simplify_eq. rewrite Nat.sub_diag. split_and!; [lia|done|lia].
Qed.

Section Count.
Context {P : Type}.

(** [e f] counts the references to [f] that are not descriptors of the process; the open
    files in [X] have been allocated and not set up yet. *)
Record counted (e : nat -> Z) (X : gset nat) (s : ks P) : Prop := {
  ct_lock : ftable_lock s = false;
  ct_ref f y : ftable s !! f = Some y -> f_ref y = e f + uses f (ofile s);
  ct_type f y : ftable s !! f = Some y -> f ∉ X -> f_type y = FD_NONE <-> f_ref y = 0;
  ct_used d f : ofile s !! d = Some (Some f) -> (f < length (ftable s))%nat;
  ct_rest f : 0 <= e f;
}.

Lemma counted_ext e e' X s : (forall f, e f = e' f) -> counted e X s -> counted e' X s.
Proof. intros He [L R T U N]. split; try done; intros; rewrite <- He; auto. Qed.

(** An update of one open file that adds [d] to its references. *)
Lemma counted_fmod e e' X X' s f y y' :
  counted e X s -> ftable s !! f = Some y ->
  f_ref y' = f_ref y + (e' f - e f) -> (f ∉ X' -> f_type y' = FD_NONE <-> f_ref y' = 0) ->
  (forall g, g <> f -> e' g = e g) -> (forall g, g <> f -> g ∉ X' -> g ∉ X) -> 0 <= e' f ->
  counted e' X' (with_ftable (<[f := y']> (ftable s)) s).
Proof.
  intros [L R T U N] Hy Hr Ht He HX Hf. assert (f < length (ftable s))%nat by (by eapply lookup_lt_Some).
  split; [done| | | |]; cbn [ftable ofile with_ftable].
  - intros g z. destruct (decide (g = f)) as [->|Hne].
    + rewrite list_lookup_insert_eq by done. intros [= <-]. rewrite Hr, (R f y Hy). lia.
    + rewrite list_lookup_insert_ne by done. intros Hz. rewrite He by done. by apply R.
  - intros g z. destruct (decide (g = f)) as [->|Hne].
    + rewrite list_lookup_insert_eq by done. by intros [= <-].
    + rewrite list_lookup_insert_ne by done. intros Hz Hg. apply (T g z Hz). by apply HX.
  - intros d g Hd. rewrite length_insert. by eapply U.
  - intros g. destruct (decide (g = f)) as [->|Hne]; [done|]. by rewrite He.
Qed.

Lemma counted_frame e X s s' :
  ftable_lock s' = ftable_lock s -> ftable s' = ftable s -> ofile s' = ofile s -> counted e X s -> counted e X s'.
Proof. intros E1 E2 E3 [L R T U N]. split; rewrite ?E1, ?E2, ?E3; done. Qed.
Lemma counted_in_fs {A} e X (m : M fs A) s a s' : in_fs m s = Ok a s' -> counted e X s -> counted e X s' /\ ofile s' = ofile s /\ ftable s' = ftable s.
Proof. unfold in_fs. destruct (m (fsys s)); intros [= <- <-] H. split; [by apply (counted_frame e X s)|done]. Qed.
Lemma counted_in_pipes {A} e X (m : M P A) s a s' : in_pipes m s = Ok a s' -> counted e X s -> counted e X s' /\ ofile s' = ofile s /\ ftable s' = ftable s.
Proof. unfold in_pipes. destruct (m (pipes s)); intros [= <- <-] H. split; [by apply (counted_frame e X s)|done]. Qed.

Lemma fat_at f (s : ks P) y : ftable s !! f = Some y -> fat f s = Ok y s.
Proof. intros H. unfold fat. by rewrite H. Qed.
Lemma fat_inv f (s : ks P) y s' : fat f s = Ok y s' -> s' = s /\ ftable s !! f = Some y.
Proof. unfold fat. destruct (ftable s !! f); [by intros [= <- <-]|done]. Qed.
Lemma fmod_at f g (s : ks P) y : ftable s !! f = Some y -> fmod f g s = Ok tt (with_ftable (<[f := g y]> (ftable s)) s).
Proof. intros H. unfold fmod. by rewrite (bind_ok _ _ _ _ _ (fat_at _ _ _ H)). Qed.
Lemma facquire_ok (s : ks P) : ftable_lock s = false -> facquire s = Ok tt (with_flock true s).
Proof. intros H. unfold facquire. by rewrite H. Qed.
Lemma unlocked l (s : ks P) : ftable_lock s = false -> with_flock false (with_ftable l (with_flock true s)) = with_ftable l s.
Proof. destruct s. by intros [= ->]. Qed.
Lemma same_ftable (s : ks P) : with_ftable (ftable s) s = s.
Proof. by destruct s. Qed.

(** ** Operations on the tables *)

Lemma filealloc_run e X s : counted e X s ->
  filealloc s = Ok None s \/
  exists f y, ftable s !! f = Some y /\ f_ref y = 0 /\ e f = 0 /\ uses f (ofile s) = 0 /\ filealloc s = Ok (Some f) (with_ftable (<[f := set_fref 1 y]> (ftable s)) s).
Proof.
  intros H. pose proof (ct_lock _ _ _ H) as HL. unfold filealloc. rewrite (bind_ok _ _ _ _ _ (facquire_ok _ HL)).
  rewrite (bind_ok (gets ftable) _ (with_flock true s) (ftable s) _ eq_refl). destruct (first_free (ftable s) 0) as [f|] eqn:E; [right|left].
  - apply first_free_Some in E as [_ (y & Hy & Hr)]. rewrite Nat.sub_0_r in Hy. exists f, y.
    pose proof (ct_ref _ _ _ H f y Hy). pose proof (ct_rest _ _ _ H f). pose proof (uses_nonneg f (ofile s)).
    split_and!; [done|done|lia|lia|]. rewrite (bind_ok _ _ _ _ _ (fmod_at f _ (with_flock true s) y Hy)).
    unfold frelease, bind. cbn [ftable_lock with_ftable with_flock]. unfold ret. f_equal. by apply unlocked.
  - unfold frelease, bind, ret. cbn [ftable_lock with_flock]. f_equal. destruct s; simpl in *; by subst.
Qed.
Lemma counted_alloc e X s f y : counted e X s -> ftable s !! f = Some y -> f_ref y = 0 -> e f = 0 ->
  counted (bump f e) ({[f]} ∪ X) (with_ftable (<[f := set_fref 1 y]> (ftable s)) s).
Proof.
  intros H Hy Hr He. eapply counted_fmod; [exact H|exact Hy|..]; unfold bump.
  - rewrite decide_True by done. cbn. lia.
  - set_solver.
  - intros g Hg. by rewrite decide_False.
  - set_solver.
  - rewrite decide_True by done. lia.
Qed.

Lemma filedup_run (s : ks P) f y : ftable_lock s = false -> ftable s !! f = Some y -> 1 <= f_ref y ->
  filedup f s = Ok f (with_ftable (<[f := set_fref (f_ref y + 1) y]> (ftable s)) s).
Proof.
  intros HL Hy Hr. unfold filedup. rewrite (bind_ok _ _ _ _ _ (facquire_ok _ HL)).
  rewrite (bind_ok _ _ _ _ _ (fat_at f (with_flock true s) y Hy)), decide_False by lia.
  rewrite (bind_ok _ _ _ _ _ (fmod_at f _ (with_flock true s) y Hy)).
  unfold frelease, bind, ret. cbn [ftable_lock with_ftable with_flock]. f_equal. by apply unlocked.
Qed.

Lemma fdalloc_run f (s : ks P) :
  fdalloc f s = Ok (-1) s \/
  exists d, ofile s !! d = Some None /\ (forall j, (j < d)%nat -> exists g, ofile s !! j = Some (Some g)) /\
    fdalloc f s = Ok (Z.of_nat d) (with_ofile (<[d := Some f]> (ofile s)) s).
Proof.
  unfold fdalloc, gets, bind. destruct (first_none (ofile s) 0) as [d|] eqn:E; [right|by left].
  apply first_none_Some in E as (_ & Hd & Hj). rewrite Nat.sub_0_r in *. by exists d.
Qed.
(** A reference turns into a descriptor, and back. *)
Lemma counted_fd e X s f d : counted (bump f e) X s -> ofile s !! d = Some None -> (f < length (ftable s))%nat -> 0 <= e f ->
  counted e X (with_ofile (<[d := Some f]> (ofile s)) s).
Proof.
  intros [L R T U N] Hd Hf He. split; try done; cbn [ftable ofile with_ofile].
  - intros g y Hy. rewrite (R g y Hy), (uses_insert _ _ _ _ _ Hd). unfold bump.
    repeat case_decide; simplify_eq; lia.
  - intros d' g. destruct (decide (d' = d)) as [->|Hne].
    + rewrite list_lookup_insert_eq by (by eapply lookup_lt_Some). by intros [= <-].
    + rewrite list_lookup_insert_ne by done. apply U.
  - intros g. specialize (N g). unfold bump in N. case_decide; [by subst|lia].
Qed.
Lemma counted_clear e X s f d : counted e X s -> ofile s !! d = Some (Some f) -> counted (bump f e) X (with_ofile (<[d := None]> (ofile s)) s).
Proof.
  intros [L R T U N] Hd. split; try done; cbn [ftable ofile with_ofile].
  - intros g y Hy. rewrite (R g y Hy), (uses_insert _ _ _ _ _ Hd). unfold bump.
    repeat case_decide; simplify_eq; lia.
  - intros d' g. destruct (decide (d' = d)) as [->|Hne].
    + by rewrite list_lookup_insert_eq by (by eapply lookup_lt_Some).
    + rewrite list_lookup_insert_ne by done. apply U.
  - intros g. specialize (N g). unfold bump. case_decide; lia.
Qed.

Context (pipeclose : nat -> bool -> M P unit).
Lemma fileclose_inv e X s f u s' :
  counted (bump f e) X s -> 0 <= e f -> (f ∈ X -> e f + uses f (ofile s) = 0) -> fileclose pipeclose f s = Ok u s' ->
  counted e (X ∖ {[f]}) s' /\ ofile s' = ofile s /\ length (ftable s') = length (ftable s).
Proof.
  intros H He HX Hc. pose proof (ct_lock _ _ _ H) as HL. unfold fileclose in Hc.
  rewrite (bind_ok _ _ _ _ _ (facquire_ok _ HL)) in Hc. apply bind_inv in Hc as (y & s1 & Hy & Hc).
  apply fat_inv in Hy as [-> Hy]. change (ftable s !! f = Some y) in Hy.
  pose proof (ct_ref _ _ _ H f y Hy) as Hr. unfold bump in Hr. rewrite decide_True in Hr by done.
  pose proof (uses_nonneg f (ofile s)) as Hu. rewrite (decide_False (P := f_ref y < 1)) in Hc by lia.
  rewrite (bind_ok _ _ _ _ _ (fmod_at f _ (with_flock true s) y Hy)) in Hc.
  destruct (decide (f_ref y - 1 > 0)) as [Hgt|Hle].
  - unfold frelease in Hc. cbn [ftable_lock with_ftable with_flock] in Hc. injection Hc as _ <-.
    rewrite unlocked by done. split_and!; [|done|cbn; by rewrite length_insert].
    eapply counted_fmod; [exact H|exact Hy|..]; unfold bump.
    + rewrite decide_True by done. cbn. lia.
    + intros HfX. cbn. assert (f ∉ X) as HnX by (intros HIn; specialize (HX HIn); lia).
      pose proof (ct_type _ _ _ H f y Hy HnX). split; intros; [naive_solver lia|lia].
    + intros g Hg. by rewrite decide_False.
    + set_solver.
    + done.
  - set (y1 := set_fref (f_ref y - 1) y) in Hc. set (s1 := with_ftable (<[f := y1]> (ftable (with_flock true s))) (with_flock true s)) in Hc.
    assert (f < length (ftable s))%nat as Hlt by (by eapply lookup_lt_Some).
    assert (ftable s1 !! f = Some y1) as Hy1 by (by apply list_lookup_insert_eq).
    rewrite (bind_ok _ _ _ _ _ (fat_at f s1 y1 Hy1)), (bind_ok _ _ _ _ _ (fmod_at f _ s1 y1 Hy1)) in Hc.
    set (y2 := set_ftype FD_NONE (set_fref 0 y1)) in Hc. set (s2 := with_ftable (<[f := y2]> (ftable s)) s).
    rewrite (bind_ok _ _ _ tt s2) in Hc.
    2: { unfold frelease. cbn [ftable_lock with_ftable with_flock s1]. f_equal. unfold s1. cbn [ftable with_ftable with_flock].
         rewrite list_insert_insert_eq. by apply (unlocked _ s). }
    assert (counted e (X ∖ {[f]}) s2) as H2.
    { eapply counted_fmod; [exact H|exact Hy|..]; unfold bump.
      - rewrite decide_True by done. cbn. lia.
      - done.
      - intros g Hg. by rewrite decide_False.
      - set_solver.
      - done. }
    assert (length (ftable s2) = length (ftable s)) as Hl2 by (cbn; by rewrite length_insert).
    destruct (f_type y1).
    + by injection Hc as _ <-.
    + apply (counted_in_pipes e (X ∖ {[f]})) in Hc as (A & B & C); [|done]. by rewrite C.
    + apply (counted_in_fs e (X ∖ {[f]})) in Hc as (A & B & C); [|done]. by rewrite C.
    + apply (counted_in_fs e (X ∖ {[f]})) in Hc as (A & B & C); [|done]. by rewrite C.
Qed.

(** ** System calls *)

Context (pipe_new : M P (option nat)) (piperead pipewrite : nat -> Z -> Z -> M P Z)
        (devsw_read devsw_write : Z -> option (Z -> Z -> M P Z))
        (user_dst : Z -> Z -> Z -> bool) (user_src : Z -> source) (copyout : Z -> Z -> bool).

(** The system calls of sysfile.c, with the values of their arguments. *)
Inductive call : Type :=
  | Dup (fd : Z) | Read (fd p n : Z) | Write (fd p n : Z) | Close (fd : Z) | Fstat (fd st : Z)
  | Link (name : list Z) (old new : option (list Z)) | Unlink (name : list Z) (path : option (list Z))
  | Open (name : list Z) (path : option (list Z)) (omode : Z) | Mkdir (name : list Z) (path : option (list Z))
  | Mknod (name : list Z) (path : option (list Z)) (major minor : Z) | Chdir (name : list Z) (path : option (list Z))
  | Pipe (fdarray : Z).
Definition run_call (c : call) : M (ks P) Z :=
  match c with
  | Dup fd => sys_dup fd
  | Read fd p n => let! r := sys_read piperead devsw_read user_dst fd p n in ret r.1
  | Write fd p n => sys_write pipewrite devsw_write user_src fd p n
  | Close fd => sys_close pipeclose fd
  | Fstat fd st => let! r := sys_fstat copyout fd st in ret r.1
  | Link name old new => sys_link name old new
  | Unlink name path => sys_unlink name path
  | Open name path omode => sys_open pipeclose name path omode
  | Mkdir name path => sys_mkdir name path
  | Mknod name path mj mn => sys_mknod name path mj mn
  | Chdir name path => sys_chdir name path
  | Pipe a => let! r := sys_pipe pipe_new pipeclose copyout a in ret r.1
  end.

Lemma argfd_inv fd (s : ks P) o s' : argfd fd s = Ok o s' ->
  s' = s /\ match o with Some f => 0 <= fd /\ ofile s !! Z.to_nat fd = Some (Some f) | None => True end.
Proof.
  unfold argfd. case_decide as E; [by intros [= <- <-]|]. unfold gets, bind, from_option, ret.
  destruct (ofile s !! Z.to_nat fd) as [o'|] eqn:Ho; [|done]. intros [= <- <-]. split; [done|].
  destruct o'; [|done]. split; [lia|done].
Qed.

(** The open file behind a descriptor. *)
Lemma counted_open e s d f : counted e ∅ s -> ofile s !! d = Some (Some f) ->
  exists y, ftable s !! f = Some y /\ 1 <= f_ref y /\ f_type y <> FD_NONE.
Proof.
  intros H Hd. destruct (lookup_lt_is_Some_2 (ftable s) f) as [y Hy]; [by eapply ct_used|].
  pose proof (ct_ref _ _ _ H f y Hy). pose proof (ct_rest _ _ _ H f). pose proof (uses_pos f _ _ Hd).
  exists y. split_and!; [done|lia|]. intros Ht. apply (ct_type _ _ _ H f y Hy) in Ht; [lia|set_solver].
Qed.

(** An update that leaves the references and the type alone. *)
Lemma counted_keep e X s f g u s' : counted e X s -> (forall y, f_ref (g y) = f_ref y /\ f_type (g y) = f_type y) ->
  fmod f g s = Ok u s' -> counted e X s' /\ ofile s' = ofile s.
Proof.
  intros H Hg Hm. unfold fmod in Hm. apply bind_inv in Hm as (y & s1 & Hy & Hm). apply fat_inv in Hy as [-> Hy].
  injection Hm as _ <-. destruct (Hg y) as [E1 E2]. split; [|done]. eapply counted_fmod; [exact H|exact Hy|..]; try done.
  - lia.
  - intros HX. rewrite E1, E2. by apply (ct_type _ _ _ H f y).
  - apply (ct_rest _ _ _ H).
Qed.

(** [d] is the lowest free descriptor. *)
Definition lowest (d : nat) (l : list (option nat)) : Prop :=
  l !! d = Some None /\ forall j, (j < d)%nat -> exists g, l !! j = Some (Some g).

Lemma sys_dup_counts e s fd r s' : counted e ∅ s -> sys_dup fd s = Ok r s' ->
  counted e ∅ s' /\ (r < 0 -> ofile s' = ofile s) /\
  (0 <= r -> exists f, ofile s !! Z.to_nat fd = Some (Some f) /\ lowest (Z.to_nat r) (ofile s) /\ ofile s' = <[Z.to_nat r := Some f]> (ofile s)).
Proof.
  intros H Hr. unfold sys_dup in Hr. apply bind_inv in Hr as (o & s1 & Ha & Hr). apply argfd_inv in Ha as [-> Ho].
  destruct o as [f|]; [|injection Hr as <- <-; split_and!; done || lia]. destruct Ho as [Hfd Ho].
  destruct (counted_open _ _ _ _ H Ho) as (y & Hy & Hy1 & _).
  destruct (fdalloc_run f s) as [E|(d & Hd & Hj & E)]; rewrite (bind_ok _ _ _ _ _ E) in Hr.
  { injection Hr as <- <-. split_and!; done || lia. }
  rewrite decide_False in Hr by lia. set (s2 := with_ofile _ s) in Hr.
  rewrite (bind_ok _ _ _ _ _ (filedup_run s2 f y (ct_lock _ _ _ H) Hy Hy1)) in Hr. injection Hr as <- <-. split_and!; [|lia|].
  - set (s3 := with_ftable (<[f := set_fref (f_ref y + 1) y]> (ftable s)) s).
    assert (counted (bump f e) ∅ s3) as H3.
    { eapply counted_fmod; [exact H|exact Hy|..]; unfold bump; pose proof (ct_rest _ _ _ H f).
      - rewrite decide_True by done. cbn. lia.
      - intros HX. cbn. pose proof (ct_type _ _ _ H f y Hy HX). split; intros; [naive_solver lia|lia].
      - intros g Hg. by rewrite decide_False.
      - done.
      - rewrite decide_True by done. lia. }
    apply (counted_fd e ∅ s3 f d H3 Hd); [|apply (ct_rest _ _ _ H)].
    cbn. rewrite length_insert. by eapply lookup_lt_Some.
  - intros _. exists f. rewrite Nat2Z.id. by split_and!.
Qed.

Lemma sys_close_counts e s fd r s' : counted e ∅ s -> sys_close pipeclose fd s = Ok r s' ->
  counted e ∅ s' /\ (r < 0 -> ofile s' = ofile s) /\
  (0 <= r -> (exists f, ofile s !! Z.to_nat fd = Some (Some f)) /\ ofile s' = <[Z.to_nat fd := None]> (ofile s)).
Proof.
  intros H Hr. unfold sys_close in Hr. apply bind_inv in Hr as (o & s1 & Ha & Hr). apply argfd_inv in Ha as [-> Ho].
  destruct o as [f|]; [|injection Hr as <- <-; split_and!; done || lia]. destruct Ho as [Hfd Ho].
  rewrite (bind_ok _ _ _ _ _ (eq_refl : clear_fd fd s = Ok tt _)) in Hr. apply bind_inv in Hr as (u & s2 & Hc & Hr).
  injection Hr as <- <-. eapply fileclose_inv in Hc as (A & B & _).
  2: by eapply counted_clear. 2: apply (ct_rest _ _ _ H). 2: set_solver.
  replace (∅ ∖ {[f]} : gset nat) with (∅ : gset nat) in A by set_solver.
  split_and!; [done|lia|]. intros _. split; [by exists f|done].
Qed.

(** A new open file that is set up leaves the state counted. *)
Lemma counted_setup e X s f y g : counted e X s -> ftable s !! f = Some y -> f_ref (g y) = f_ref y -> f_type (g y) <> FD_NONE -> 1 <= f_ref y ->
  fmod f g s = Ok tt (with_ftable (<[f := g y]> (ftable s)) s) /\ counted e (X ∖ {[f]}) (with_ftable (<[f := g y]> (ftable s)) s).
Proof.
  intros H Hy Hr Ht H1. split; [by apply fmod_at|]. eapply counted_fmod; [exact H|exact Hy|..]; try done.
  - lia.
  - intros _. split; [done|lia].
  - set_solver.
  - apply (ct_rest _ _ _ H).
Qed.

Lemma fs_then_counts {A} e X (m : M fs A) (v r : Z) s s' : counted e X s -> (in_fs m ;; ret v) s = Ok r s' -> r = v /\ counted e X s' /\ ofile s' = ofile s.
Proof.
  intros H Hr. apply bind_inv in Hr as (u & s1 & Hm & Hr). injection Hr as <- <-.
  by destruct (counted_in_fs e X _ _ _ _ Hm H) as (? & ? & _).
Qed.
Lemma one_out (f : nat) : ({[f]} ∪ ∅) ∖ {[f]} = (∅ : gset nat).
Proof. set_solver. Qed.

Lemma sys_open_counts e s name path omode r s' : counted e ∅ s -> sys_open pipeclose name path omode s = Ok r s' ->
  counted e ∅ s' /\ (r < 0 -> ofile s' = ofile s) /\
  (0 <= r -> exists f, e f = 0 /\ uses f (ofile s) = 0 /\ lowest (Z.to_nat r) (ofile s) /\ ofile s' = <[Z.to_nat r := Some f]> (ofile s)).
Proof.
  intros H Hr. unfold sys_open in Hr. destruct path as [path|]; [|injection Hr as <- <-; split_and!; done || lia].
  apply bind_inv in Hr as (u & s1 & Hm & Hr). destruct (counted_in_fs e ∅ _ _ _ _ Hm H) as (H1 & O1 & _). clear Hm.
  apply bind_inv in Hr as (ip & s2 & Hm & Hr). destruct (counted_in_fs e ∅ _ _ _ _ Hm H1) as (H2 & O2 & _). clear Hm.
  rewrite <- O1, <- O2 in *. clear O1 O2 H1 H u s s1. rename s2 into s, H2 into H.
  destruct ip as [ip|]; [|apply (fs_then_counts e ∅) in Hr as (-> & ? & ?); [split_and!; done || lia|done]].
  apply bind_inv in Hr as (x & s1 & Hm & Hr). destruct (counted_in_fs e ∅ _ _ _ _ Hm H) as (H1 & O1 & _).
  rewrite <- O1 in *. clear Hm O1 H s. rename s1 into s, H1 into H.
  destruct (decide _) as [_|_]; [apply (fs_then_counts e ∅) in Hr as (-> & ? & ?); [split_and!; done || lia|done]|].
  destruct (filealloc_run e ∅ s H) as [E|(f & y & Hy & Hy0 & He & Hu & E)]; rewrite (bind_ok _ _ _ _ _ E) in Hr.
  { apply (fs_then_counts e ∅) in Hr as (-> & ? & ?); [split_and!; done || lia|done]. }
  pose proof (counted_alloc e ∅ s f y H Hy Hy0 He) as H1. set (s1 := with_ftable _ s) in *.
  assert (f < length (ftable s))%nat as Hlt by (by eapply lookup_lt_Some).
  destruct (fdalloc_run f s1) as [E1|(d & Hd & Hj & E1)]; rewrite (bind_ok _ _ _ _ _ E1) in Hr.
  - rewrite decide_True in Hr by lia. apply bind_inv in Hr as (u & s2 & Hc & Hr).
    eapply fileclose_inv in Hc as (A & B & _); [|exact H1|lia|intros _; change (e f + uses f (ofile s) = 0); lia]. rewrite one_out in A.
    apply (fs_then_counts e ∅) in Hr as (-> & C & D); [|done]. split_and!; [done|by rewrite D, B|lia].
  - rewrite decide_False in Hr by lia. set (s2 := with_ofile _ s1) in *.
    assert (counted e ({[f]} ∪ ∅) s2) as H2.
    { apply counted_fd; [done|done| |lia]. cbn. by rewrite length_insert. }
    destruct (counted_setup e _ s2 f (set_fref 1 y) (opened ip x omode) H2) as [E2 H3].
    { by apply list_lookup_insert_eq. } { unfold opened. by destruct (decide (type x = T_DEVICE)). } { unfold opened. by destruct (decide (type x = T_DEVICE)). } { done. }
    rewrite (bind_ok _ _ _ _ _ E2) in Hr. rewrite one_out in H3.
    apply (fs_then_counts e ∅) in Hr as (-> & C & D); [|done]. split_and!; [done|lia|].
    intros _. exists f. rewrite Nat2Z.id. by split_and!.
Qed.

(** ** Pipes *)

(** pipealloc: two new open files, or nothing. *)
Lemma pipealloc_counts e s r s' : counted e ∅ s -> pipealloc pipe_new pipeclose s = Ok r s' -> ofile s' = ofile s /\
  match r with
  | None => counted e ∅ s'
  | Some (f0, f1) => counted (bump f1 (bump f0 e)) ∅ s' /\ f0 <> f1 /\ e f0 = 0 /\ e f1 = 0 /\
      uses f0 (ofile s) = 0 /\ uses f1 (ofile s) = 0 /\ (f0 < length (ftable s'))%nat /\ (f1 < length (ftable s'))%nat
  end.
Proof.
  intros H Hr. unfold pipealloc in Hr.
  destruct (filealloc_run e ∅ s H) as [E|(f0 & y0 & Hy0 & Hz0 & He0 & Hu0 & E)]; rewrite (bind_ok _ _ _ _ _ E) in Hr.
  { by injection Hr as <- <-. }
  pose proof (counted_alloc e ∅ s f0 y0 H Hy0 Hz0 He0) as H1. set (s1 := with_ftable _ s) in *.
  assert (f0 < length (ftable s))%nat as Hl0 by (by eapply lookup_lt_Some).
  destruct (filealloc_run _ _ s1 H1) as [E1|(f1 & y1 & Hy1 & Hz1 & He1 & Hu1 & E1)]; rewrite (bind_ok _ _ _ _ _ E1) in Hr.
  { rewrite (bind_ok _ _ _ None s1 eq_refl) in Hr. apply bind_inv in Hr as (u & s2 & Hc & Hr). injection Hr as <- <-.
    eapply fileclose_inv in Hc as (A & B & _); [|exact H1|lia|intros _; change (e f0 + uses f0 (ofile s) = 0); lia].
    rewrite one_out in A. done. }
  assert (f1 <> f0) as Hne by (intros ->; unfold bump in He1; rewrite decide_True in He1 by done; lia).
  unfold bump in He1. rewrite decide_False in He1 by done.
  pose proof (counted_alloc _ _ s1 f1 y1 H1 Hy1 Hz1 ltac:(unfold bump; rewrite decide_False by done; lia)) as H2.
  set (s2 := with_ftable _ s1) in *. change (ofile s1) with (ofile s) in *.
  assert (f1 < length (ftable s1))%nat as Hl1 by (by eapply lookup_lt_Some).
  assert (length (ftable s1) = length (ftable s)) as Hs1 by (cbn; apply length_insert).
  apply bind_inv in Hr as (pi & s3 & Hp & Hr). destruct (counted_in_pipes _ _ _ _ _ _ Hp H2) as (H3 & O3 & F3).
  change (ofile s2) with (ofile s) in *.
  assert (length (ftable s3) = length (ftable s)) as Hs3 by (rewrite F3; cbn; by rewrite !length_insert).
  assert (ftable s3 !! f1 = Some (set_fref 1 y1)) as L1 by (rewrite F3; by apply list_lookup_insert_eq).
  assert (ftable s3 !! f0 = Some (set_fref 1 y0)) as L0.
  { rewrite F3. cbn. rewrite list_lookup_insert_ne by done. by apply list_lookup_insert_eq. }
  destruct pi as [pi|].
  - destruct (counted_setup _ _ s3 f0 _ (pipe_end pi false) H3 L0) as [E4 H4]; [done|done|done|].
    rewrite (bind_ok _ _ _ _ _ E4) in Hr. set (s4 := with_ftable _ s3) in *.
    assert (ftable s4 !! f1 = Some (set_fref 1 y1)) as L1' by (cbn; by rewrite list_lookup_insert_ne).
    destruct (counted_setup _ _ s4 f1 _ (pipe_end pi true) H4 L1') as [E5 H5]; [done|done|done|].
    rewrite (bind_ok _ _ _ _ _ E5) in Hr. injection Hr as <- <-. split; [done|].
    assert (({[f1]} ∪ ({[f0]} ∪ ∅)) ∖ {[f0]} ∖ {[f1]} = (∅ : gset nat)) as EX by set_solver. rewrite EX in H5.
    split_and!; [done|done|done|done|done|done|cbn; rewrite !length_insert; lia|cbn; rewrite !length_insert; lia].
  - apply bind_inv in Hr as (u & s4 & Hc0 & Hr). apply bind_inv in Hr as (u' & s5 & Hc1 & Hr). injection Hr as <- <-.
    eapply (fileclose_inv (bump f1 e)) in Hc0 as (A & B & _).
    2: { eapply counted_ext; [|exact H3]. intros g. unfold bump. lia. }
    2: { unfold bump. rewrite decide_False by done. lia. } 
    2: { unfold bump. rewrite decide_False by done. rewrite O3. lia. }
    eapply (fileclose_inv e) in Hc1 as (A1 & B1 & _); [|exact A|lia|rewrite B, O3; lia].
    assert (({[f1]} ∪ ({[f0]} ∪ ∅)) ∖ {[f0]} ∖ {[f1]} = (∅ : gset nat)) as EX by set_solver. rewrite EX in A1.
    by rewrite B1, B.
Qed.

Lemma close_two_counts {A} e s f0 f1 (v r : A) s' : counted (bump f1 (bump f0 e)) ∅ s -> 0 <= e f0 -> 0 <= e f1 ->
  (fileclose pipeclose f0 ;; fileclose pipeclose f1 ;; ret v) s = Ok r s' -> r = v /\ counted e ∅ s' /\ ofile s' = ofile s.
Proof.
  intros H H0 H1 Hr. apply bind_inv in Hr as (u & s1 & Hc0 & Hr). apply bind_inv in Hr as (u' & s2 & Hc1 & Hr). injection Hr as <- <-.
  assert (forall f, ∅ ∖ {[f]} = (∅ : gset nat)) as EX by set_solver.
  eapply (fileclose_inv (bump f1 e) ∅) in Hc0 as (A0 & B0 & _).
  2: { eapply counted_ext; [|exact H]. intros g. unfold bump. lia. }
  2: { unfold bump. case_decide; lia. } 2: set_solver.
  rewrite EX in A0. eapply (fileclose_inv e ∅) in Hc1 as (A1 & B1 & _); [|done|done|set_solver].
  rewrite EX in A1. by rewrite B1.
Qed.

Lemma clear_back (l : list (option nat)) d f : l !! d = Some None -> <[d := None]> (<[d := Some f]> l) = l.
Proof. intros H. by rewrite list_insert_insert_eq, list_insert_id. Qed.

Lemma sys_pipe_counts e s a r s' : counted e ∅ s -> sys_pipe pipe_new pipeclose copyout a s = Ok r s' ->
  counted e ∅ s' /\ (r.1 < 0 -> ofile s' = ofile s) /\
  (0 <= r.1 -> exists d0 d1 f0 f1, r.2 = Some (Z.of_nat d0, Z.of_nat d1) /\ f0 <> f1 /\ e f0 = 0 /\ e f1 = 0 /\
     uses f0 (ofile s) = 0 /\ uses f1 (ofile s) = 0 /\ lowest d0 (ofile s) /\ lowest d1 (<[d0 := Some f0]> (ofile s)) /\
     ofile s' = <[d1 := Some f1]> (<[d0 := Some f0]> (ofile s))).
Proof.
  intros H Hr. unfold sys_pipe in Hr. apply bind_inv in Hr as (o & s1 & Hp & Hr).
  apply (pipealloc_counts e s o s1 H) in Hp as [O1 Hp]. destruct o as [[f0 f1]|]; [|injection Hr as <- <-; split_and!; done || (simpl; lia)].
  destruct Hp as (H1 & Hne & He0 & He1 & Hu0 & Hu1 & Hl0 & Hl1). rewrite <- O1 in *. clear O1.
  destruct (fdalloc_run f0 s1) as [E|(d0 & Hd0 & Hj0 & E)]; rewrite (bind_ok _ _ _ _ _ E) in Hr.
  { rewrite (bind_ok _ _ _ (-1) s1 eq_refl) in Hr. apply (close_two_counts e) in Hr as (-> & A & B); [|done|lia|lia].
    split_and!; [done|done|simpl; lia]. }
  rewrite (decide_False (P := Z.of_nat d0 < 0)) in Hr by lia. set (s2 := with_ofile _ s1) in *.
  assert (counted (bump f1 e) ∅ s2) as H2.
  { apply counted_fd; [|done|done|unfold bump; rewrite (decide_False (P := f0 = f1)) by done; lia]. eapply counted_ext; [|exact H1]. intros g. unfold bump. lia. }
  assert (ofile s2 !! d0 = Some (Some f0)) as L0 by (apply list_lookup_insert_eq; by eapply lookup_lt_Some).
  assert (0 <= e f0 /\ 0 <= e f1) as [Hp0 Hp1] by lia.
  destruct (fdalloc_run f1 s2) as [E1|(d1 & Hd1 & Hj1 & E1)]; rewrite (bind_ok _ _ _ _ _ E1) in Hr.
  - rewrite decide_True in Hr by lia. rewrite decide_True in Hr by lia.
    rewrite (bind_ok _ _ _ _ _ (eq_refl : clear_fd (Z.of_nat d0) s2 = Ok tt _)), Nat2Z.id in Hr.
    apply (close_two_counts e) in Hr as (-> & A & B); [|eapply counted_ext; [|by eapply counted_clear]|done|done].
    + split_and!; [done| |simpl; lia]. intros _. rewrite B. cbn. by apply clear_back.
    + intros g. unfold bump. lia.
  - rewrite decide_False in Hr by lia. set (s3 := with_ofile _ s2) in *.
    assert (counted e ∅ s3) as H3 by (by apply counted_fd).
    assert (d1 <> d0) as Hd by (intros ->; congruence).
    destruct (_ && _).
    + injection Hr as <- <-. split_and!; [done|simpl; lia|]. intros _. exists d0, d1, f0, f1. by split_and!.
    + rewrite (bind_ok _ _ _ _ _ (eq_refl : clear_fd (Z.of_nat d0) s3 = Ok tt _)) in Hr.
      rewrite (bind_ok _ _ _ _ _ (eq_refl : clear_fd (Z.of_nat d1) _ = Ok tt _)), !Nat2Z.id in Hr.
      apply (close_two_counts e) in Hr as (-> & A & B); [| |done|done].
      * split_and!; [done| |simpl; lia]. intros _. rewrite B. cbn.
        rewrite (list_insert_insert_ne _ d0 d1), list_insert_insert_eq by done.
        rewrite clear_back by done.
        apply list_insert_id. cbn in Hd1. by rewrite list_lookup_insert_ne in Hd1.
      * apply (counted_clear (bump f0 e)).
        -- apply counted_clear; [done|]. cbn. by rewrite list_lookup_insert_ne.
        -- cbn. rewrite list_lookup_insert_ne by done. apply list_lookup_insert_eq. by eapply lookup_lt_Some.
Qed.

(** ** Reading and writing *)

(** A step that keeps the counts and the descriptors. *)
Definition quiet {A} (m : M (ks P) A) : Prop :=
  forall e s a s', counted e ∅ s -> m s = Ok a s' -> counted e ∅ s' /\ ofile s' = ofile s.

Lemma quiet_ret {A} (a : A) : quiet (ret a).
Proof. intros e s b s' H [= <- <-]. done. Qed.
Lemma quiet_panic {A} msg : quiet (panic (A := A) msg).
Proof. by intros e s b s' H [=]. Qed.
Lemma quiet_bind {A B} (m : M (ks P) A) (k : A -> M (ks P) B) : quiet m -> (forall a, quiet (k a)) -> quiet (bind m k).
Proof.
  intros Hm Hk e s b s' H Hr. apply bind_inv in Hr as (a & s1 & E1 & E2).
  destruct (Hm e s a s1 H E1) as [H1 O1]. destruct (Hk a e s1 b s' H1 E2) as [H2 O2]. by rewrite O2.
Qed.
Lemma quiet_in_fs {A} (m : M fs A) : quiet (in_fs m).
Proof. intros e s a s' H Hr. by destruct (counted_in_fs e ∅ _ _ _ _ Hr H) as (? & ? & _). Qed.
Lemma quiet_in_pipes {A} (m : M P A) : quiet (in_pipes m).
Proof. intros e s a s' H Hr. by destruct (counted_in_pipes e ∅ _ _ _ _ Hr H) as (? & ? & _). Qed.
Lemma quiet_fat f : quiet (fat f).
Proof. intros e s a s' H Hr. by apply fat_inv in Hr as [-> _]. Qed.
Lemma quiet_argfd fd : quiet (argfd fd).
Proof. intros e s a s' H Hr. by apply argfd_inv in Hr as [-> _]. Qed.
Lemma quiet_move f r : quiet (fmod f (fun y => set_off (u32 (f_off y + r)) y)).
Proof. intros e s a s' H Hr. by eapply counted_keep in Hr. Qed.
Create HintDb quiet.
#[local] Hint Resolve quiet_ret quiet_panic quiet_in_fs quiet_in_pipes quiet_fat quiet_argfd quiet_move : quiet.
Ltac quiet := repeat first
  [ progress intros | solve [auto with quiet nocore] | apply quiet_bind
  | match goal with |- quiet (if ?b then _ else _) => destruct b end
  | match goal with |- quiet (match ?x with _ => _ end) => destruct x end ].

Lemma quiet_write_some f ip addr i n1 : quiet (write_some user_src f ip addr i n1).
Proof. unfold write_some. quiet. Qed.
Lemma quiet_write_loop fuel f ip addr n i : quiet (filewrite_loop user_src fuel f ip addr n i).
Proof.
  revert i. induction fuel as [|fuel IH]; intros i; cbn [filewrite_loop]; [by intros e s a s' H [=]|].
  pose proof quiet_write_some. quiet.
Qed.
Lemma quiet_filewrite f addr n : quiet (filewrite pipewrite devsw_write user_src f addr n).
Proof. pose proof quiet_write_loop. unfold filewrite. quiet. Qed.
Lemma quiet_fileread f addr n : quiet (fileread piperead devsw_read user_dst f addr n).
Proof. unfold fileread. quiet. Qed.
Lemma quiet_filestat f addr : quiet (filestat copyout f addr).
Proof. unfold filestat. quiet. Qed.

(** Calls that make no new descriptors and close none. *)
Definition silent (c : call) : Prop :=
  match c with Dup _ | Close _ | Open _ _ _ | Pipe _ => False | _ => True end.
Lemma quiet_silent c : silent c -> quiet (run_call c).
Proof.
  pose proof quiet_filewrite. pose proof quiet_fileread. pose proof quiet_filestat.
  destruct c; intros []; unfold run_call, sys_read, sys_write, sys_fstat, sys_link, sys_unlink, sys_mkdir, sys_mknod, sys_mknode, sys_chdir; quiet.
Qed.

(** C14: Open files are counted.  When the reference count of every open file is the number of
    descriptors of the process that name it plus the references held elsewhere, and exactly
    the free ones have no type, then this holds again after every system call of sysfile.c
    that returns, whatever the file system, the pipes and user memory do.  So a descriptor
    never names a free open file, which fileread, filewrite, filedup and fileclose would
    panic on.  A call that fails leaves the descriptors as they were; dup, open and pipe take
    the lowest free ones, the latter two for open files that nobody used. *)
Theorem descriptors_counted e c s r s' : counted e ∅ s -> run_call c s = Ok r s' ->
  counted e ∅ s' /\ (r < 0 -> ofile s' = ofile s) /\
  (forall d f, ofile s' !! d = Some (Some f) -> exists y, ftable s' !! f = Some y /\ 1 <= f_ref y /\ f_type y <> FD_NONE) /\
  (0 <= r ->
   match c with
   | Dup fd => exists f, ofile s !! Z.to_nat fd = Some (Some f) /\ lowest (Z.to_nat r) (ofile s) /\ ofile s' = <[Z.to_nat r := Some f]> (ofile s)
   | Close fd => (exists f, ofile s !! Z.to_nat fd = Some (Some f)) /\ ofile s' = <[Z.to_nat fd := None]> (ofile s)
   | Open _ _ _ => exists f, e f = 0 /\ uses f (ofile s) = 0 /\ lowest (Z.to_nat r) (ofile s) /\ ofile s' = <[Z.to_nat r := Some f]> (ofile s)
   | Pipe _ => exists d0 d1 f0 f1, f0 <> f1 /\ e f0 = 0 /\ e f1 = 0 /\ uses f0 (ofile s) = 0 /\ uses f1 (ofile s) = 0 /\
       lowest d0 (ofile s) /\ lowest d1 (<[d0 := Some f0]> (ofile s)) /\ ofile s' = <[d1 := Some f1]> (<[d0 := Some f0]> (ofile s))
   | _ => ofile s' = ofile s
   end).
Proof.
  intros H Hr.
  assert (silent c \/ ~ silent c) as [Hs|Hs] by (destruct c; simpl; tauto).
  - destruct (quiet_silent c Hs e s r s' H Hr) as [H' O']. split_and!; [done|done|by intros; eapply counted_open|].
    destruct c; done.
  - destruct c; try (exfalso; by apply Hs); cbn [run_call] in Hr.
    + apply (sys_dup_counts e) in Hr as (A & B & C); [|done]. split_and!; [done|done|by intros; eapply counted_open|done].
    + apply (sys_close_counts e) in Hr as (A & B & C); [|done]. split_and!; [done|done|by intros; eapply counted_open|done].
    + apply (sys_open_counts e) in Hr as (A & B & C); [|done]. split_and!; [done|done|by intros; eapply counted_open|done].
    + apply bind_inv in Hr as (v & s1 & Hr & Hv). injection Hv as <- <-.
      apply (sys_pipe_counts e) in Hr as (A & B & C); [|done]. split_and!; [done|done|by intros; eapply counted_open|].
      intros Hr0. destruct (C Hr0) as (d0 & d1 & f0 & f1 & _ & D). by exists d0, d1, f0, f1.
Qed.

End Count.

Lemma uses_replicate f k : uses f (replicate k None) = 0.
Proof. induction k as [|k IH]; [done|]. cbn [replicate uses]. by rewrite decide_False, IH. Qed.
Lemma ks64_counted : counted (fun _ => 0) ∅ ks64.
Proof.
  assert (forall f y, ftable ks64 !! f = Some y -> (f < 2)%nat /\ y = fd_rw 2 \/ (2 <= f)%nat /\ y = free_file) as HF.
  { intros [|[|f]] y H; [left; split; [lia|by simplify_eq/=]..|right]. split; [lia|].
    by apply (lookup_replicate_1 98 free_file y f) in H as [-> _]. }
  split; [done| | | |done].
  - intros f y Hy. change (ofile ks64) with (Some 0%nat :: Some 1%nat :: replicate 14 None). cbn [uses].
    rewrite uses_replicate. destruct (HF f y Hy) as [[Hf ->]|[Hf ->]].
    + by destruct f as [|[|]]; [done|done|lia].
    + rewrite !decide_False by (intros [= <-]; lia). done.
  - intros f y Hy _. by destruct (HF f y Hy) as [[_ ->]|[_ ->]].
  - intros [|[|d]] f H; [simplify_eq/=; lia..|]. by apply (lookup_replicate_1 14 None _ d) in H as [? _].
Qed.

Lemma descriptors_counted_witness : exists s',
  run_call (P := unit) (fun _ _ => ret tt) (ret None) (fun _ _ _ => ret 0) (fun _ _ _ => ret 0) (fun _ => None) (fun _ => None)
    (fun _ _ _ => true) mem4096 (fun _ _ => true) (Dup 1) ks64 = Ok 2 s' /\ counted (fun _ => 0) ∅ s' /\
  take 4 (ofile s') = [Some 0%nat; Some 1%nat; Some 1%nat; None].
Proof.
  eexists. split; [vm_compute; reflexivity|]. split.
  - eapply (descriptors_counted (P := unit) (fun _ _ => ret tt) (ret None) (fun _ _ _ => ret 0) (fun _ _ _ => ret 0) (fun _ => None) (fun _ => None)
      (fun _ _ _ => true) mem4096 (fun _ _ => true) (fun _ => 0) (Dup 1) ks64 2); [apply ks64_counted|vm_compute; reflexivity].
  - vm_compute. reflexivity.
Defined.
