(* ===== verification/Console.v ===== *)
(** * kernel/console.c: line editing

    The ring of input characters with its three indices, what is echoed to the serial
    line, and the process list, as what consoleintr and consoleread change.  A character
    is a byte.  A reader that finds no input sleeps on [cons_r]. *)

From Stdlib Require Import ZArith Lia.
From stdpp Require Import base numbers list gmap strings.
From S2P Require Import Prelude.
Open Scope Z_scope.

Definition INPUT_BUF_SIZE : Z := 128.
Definition BACKSPACE : Z := 256.
(** C('D'), C('P'), C('U'), C('H'). *)
Definition ctrl_D : Z := 4.
Definition ctrl_P : Z := 16.
Definition ctrl_U : Z := 21.
Definition ctrl_H : Z := 8.
Definition DEL : Z := 127.
Definition NL : Z := 10.
Definition CR : Z := 13.

Record cons : Type := mkCons {
  lock : bool;
  buf : list Z;
  r : Z;
  w : Z;
  e : Z;
  uart : list Z;       (* what has been sent to the serial line *)
  dumps : nat;         (* process lists printed *)
  wakeups : nat;
}.
Definition with_lock v s := mkCons v (buf s) (r s) (w s) (e s) (uart s) (dumps s) (wakeups s).
Definition with_buf v s := mkCons (lock s) v (r s) (w s) (e s) (uart s) (dumps s) (wakeups s).
Definition with_r v s := mkCons (lock s) (buf s) v (w s) (e s) (uart s) (dumps s) (wakeups s).
Definition with_w v s := mkCons (lock s) (buf s) (r s) v (e s) (uart s) (dumps s) (wakeups s).
Definition with_e v s := mkCons (lock s) (buf s) (r s) (w s) v (uart s) (dumps s) (wakeups s).
Definition with_uart v s := mkCons (lock s) (buf s) (r s) (w s) (e s) v (dumps s) (wakeups s).
Definition with_dumps v s := mkCons (lock s) (buf s) (r s) (w s) (e s) (uart s) v (wakeups s).
Definition with_wakeups v s := mkCons (lock s) (buf s) (r s) (w s) (e s) (uart s) (dumps s) v.

Definition cons_r : Z := 7000.

Definition acquire : M cons unit := fun s => if lock s then Fault (Panic "acquire") else Ok tt (with_lock true s).
Definition release : M cons unit := fun s => if lock s then Ok tt (with_lock false s) else Fault (Panic "release").

Definition uartputc_sync (c : Z) : M cons unit := modify (fun s => with_uart (uart s ++ [c]) s).
Definition consputc (c : Z) : M cons unit :=
  if decide (c = BACKSPACE) then uartputc_sync 8 ;; uartputc_sync 32 ;; uartputc_sync 8
  else uartputc_sync c.

(** cons.buf[i % INPUT_BUF_SIZE], with an unsigned index. *)
Definition buf_at (i : Z) : M cons Z := fun s => from_option "cons.buf" (arr_get (buf s) (u32 i mod INPUT_BUF_SIZE)) s.
Definition buf_put (i c : Z) : M cons unit := fun s =>
  match arr_set (buf s) (u32 i mod INPUT_BUF_SIZE) (u8 c) with
  | Some b => Ok tt (with_buf b s)
  | None => Fault (Undef "cons.buf")
  end.

Definition procdump : M cons unit := modify (fun s => with_dumps (S (dumps s)) s).
Definition wakeup : M cons unit := modify (fun s => with_wakeups (S (wakeups s)) s).

(** while(cons.e != cons.w && cons.buf[(cons.e-1) % INPUT_BUF_SIZE] != '\n') *)
Fixpoint kill_line (fuel : nat) : M cons unit :=
  match fuel with
  | O => fun _ => Fault OutOfFuel
  | S fuel =>
      let! s := get in
      if decide (e s = w s) then ret tt
      else
        let! c := buf_at (e s - 1) in
        if decide (c = NL) then ret tt
        else
          modify (with_e (u32 (e s - 1))) ;;
          consputc BACKSPACE ;;
          kill_line fuel
  end.

Definition consoleintr (c : Z) : M cons unit :=
  acquire ;;
  (if decide (c = ctrl_P) then procdump
   else if decide (c = ctrl_U) then kill_line (Z.to_nat INPUT_BUF_SIZE + 1)
   else if decide (c = ctrl_H \/ c = DEL) then
     let! s := get in
     if decide (e s <> w s) then modify (with_e (u32 (e s - 1))) ;; consputc BACKSPACE else ret tt
   else
     let! s := get in
     if decide (c <> 0 /\ u32 (e s - r s) < INPUT_BUF_SIZE) then
       let c := if decide (c = CR) then NL else c in
       consputc c ;;
       buf_put (e s) c ;;
       modify (with_e (u32 (e s + 1))) ;;
       let! s := get in
       if decide (c = NL \/ c = ctrl_D \/ u32 (e s - r s) = INPUT_BUF_SIZE) then
         modify (with_w (e s)) ;; wakeup
       else ret tt
     else ret tt) ;;
  release.

(** The loop of consoleread with [n] bytes to go: whether the process has been killed,
    whether byte [i] of the destination can be written; what it has copied so far.  The
    result is n and the bytes, or -1 for a killed process. *)
Fixpoint consoleread_loop (killed : bool) (dst : nat -> bool) (n : nat) (got : list Z) : M cons (option (list Z)) :=
  match n with
  | O => ret (Some got)
  | S n' =>
      let! s := get in
      if decide (r s = w s) then
        if killed then ret None
        else modify (with_lock false) ;; block cons_r
      else
        let! c := buf_at (r s) in
        modify (with_r (u32 (r s + 1))) ;;
        if decide (c = ctrl_D) then
          (if decide (got <> []) then modify (with_r (r s)) else ret tt) ;; ret (Some got)
        else if dst (length got) then
          if decide (c = NL) then ret (Some (got ++ [c])) else consoleread_loop killed dst n' (got ++ [c])
        else ret (Some got)
  end.

Definition consoleread (killed : bool) (dst : nat -> bool) (n : nat) : M cons (Z * list Z) :=
  acquire ;;
  let! r := consoleread_loop killed dst n [] in
  release ;;
  match r with
  | None => ret (-1, [])
  | Some got => ret (Z.of_nat (length got), got)
  end.

(** The source in pieces of 32 bytes: either_copyin of [nn] bytes at [i]. *)
Fixpoint consolewrite_loop (fuel : nat) (src : Z -> Z -> option (list Z)) (n i : Z) : M cons Z :=
  match fuel with
  | O => fun _ => Fault OutOfFuel
  | S fuel =>
      if decide (i < n) then
        let nn := Z.min 32 (n - i) in
        match src i nn with
        | None => ret i
        | Some l => modify (fun s => with_uart (uart s ++ l) s) ;; consolewrite_loop fuel src n (i + nn)
        end
      else ret i
  end.
Definition consolewrite (src : Z -> Z -> option (list Z)) (n : Z) : M cons Z :=
  consolewrite_loop (Z.to_nat n + 1) src n 0.

Definition consoleinit : M cons unit :=
  modify (fun s => mkCons false (buf s) (r s) (w s) (e s) (uart s) (dumps s) (wakeups s)).
