(* ===== verification/ConsoleProps.v ===== *)
(** * kernel/console.c refines a line editor

    The ring stands for two sequences: the input that is ready to be read, and the line
    that is being edited. *)

From Stdlib Require Import ZArith Lia Znumtheory.
From stdpp Require Import base numbers list gmap strings.
From S2P Require Import Prelude Console.
Open Scope Z_scope.

(** ** The line editor *)

(** What a typed character does to the input that is ready and the line being edited. *)
Definition typed (c : Z) (st : list Z * list Z) : list Z * list Z :=
  let '(ready, edit) := st in
  if decide (c = ctrl_P) then st
  else if decide (c = ctrl_U) then (ready, [])
  else if decide (c = ctrl_H \/ c = DEL) then (ready, take (length edit - 1) edit)
  else if decide (c <> 0 /\ Z.of_nat (length (ready ++ edit)) < INPUT_BUF_SIZE) then
    let c := if decide (c = CR) then NL else c in
    if decide (c = NL \/ c = ctrl_D \/ Z.of_nat (length (ready ++ edit)) + 1 = INPUT_BUF_SIZE)
    then (ready ++ edit ++ [c], []) else (ready, edit ++ [c])
  else st.

(** What it shows. *)
Definition rubout : list Z := [8; 32; 8].
Definition shown (c : Z) (st : list Z * list Z) : list Z :=
  let '(ready, edit) := st in
  if decide (c = ctrl_P) then []
  else if decide (c = ctrl_U) then concat (replicate (length edit) rubout)
  else if decide (c = ctrl_H \/ c = DEL) then match edit with [] => [] | _ => rubout end
  else if decide (c <> 0 /\ Z.of_nat (length (ready ++ edit)) < INPUT_BUF_SIZE) then [if decide (c = CR) then NL else c]
  else [].

(** What a read of [n] bytes gets, and what it leaves: up to the end of the first line, or
    to an end of file, which only an empty read uses up; [None] if it has to wait. *)
Fixpoint line (n : nat) (got ready : list Z) : option (list Z * list Z) :=
  match n, ready with
  | O, _ => Some (got, ready)
  | S _, [] => None
  | S n, c :: rest =>
      if decide (c = ctrl_D) then Some (got, if decide (got <> []) then ready else rest)
      else if decide (c = NL) then Some (got ++ [c], rest)
      else line n (got ++ [c]) rest
  end.

(** ** The ring *)

Definition at_ring (s : cons) (i : nat) : option Z := buf s !! Z.to_nat ((r s + Z.of_nat i) mod INPUT_BUF_SIZE).

Record rep (s : cons) (ready edit : list Z) : Prop := {
  rp_len : length (buf s) = Z.to_nat INPUT_BUF_SIZE;
  rp_r : 0 <= r s < 2 ^ 32;
  rp_w : w s = u32 (r s + Z.of_nat (length ready));
  rp_e : e s = u32 (r s + Z.of_nat (length (ready ++ edit)));
  rp_total : Z.of_nat (length (ready ++ edit)) <= INPUT_BUF_SIZE;
  rp_buf i c : (ready ++ edit) !! i = Some c -> at_ring s i = Some c;
  rp_edit : Forall (fun c => c <> NL) edit;
  rp_full : Z.of_nat (length (ready ++ edit)) = INPUT_BUF_SIZE -> edit = [];
}.

Lemma u32_mod x : u32 x mod INPUT_BUF_SIZE = x mod INPUT_BUF_SIZE.
Proof. unfold u32, uwrap. symmetry. apply Zmod_div_mod; [done|done|]. by exists (2 ^ 25). Qed.
Lemma u32_u32 x y : u32 (u32 x + y) = u32 (x + y).
Proof. unfold u32, uwrap. by rewrite Zplus_mod_idemp_l. Qed.
Lemma u32_small x : 0 <= x < 2 ^ 32 -> u32 x = x.
Proof. apply uwrap_small. Qed.
Lemma u32_dist x n m : 0 <= n < 2 ^ 32 -> 0 <= m < 2 ^ 32 -> u32 (x + n) = u32 (x + m) -> n = m.
Proof.
  unfold u32, uwrap. intros Hn Hm H. assert ((x + n - x) mod 2 ^ 32 = (x + m - x) mod 2 ^ 32) as E.
  { rewrite (Zminus_mod (x + n)), (Zminus_mod (x + m)). by rewrite H. }
  replace (x + n - x) with n in E by lia. replace (x + m - x) with m in E by lia. by rewrite !Z.mod_small in E.
Qed.
Lemma u32_diff x n : 0 <= n < 2 ^ 32 -> u32 (u32 (x + n) - x) = n.
Proof.
  intros Hn. unfold u32, uwrap. rewrite Zminus_mod_idemp_l. replace (x + n - x) with n by lia. by apply Z.mod_small.
Qed.

Lemma ring_index x n : (Z.to_nat ((x + n) mod INPUT_BUF_SIZE) < Z.to_nat INPUT_BUF_SIZE)%nat.
Proof. pose proof (Z.mod_pos_bound (x + n) INPUT_BUF_SIZE ltac:(done)). lia. Qed.
Lemma ring_inj x n m :
  0 <= n < INPUT_BUF_SIZE -> 0 <= m < INPUT_BUF_SIZE -> (x + n) mod INPUT_BUF_SIZE = (x + m) mod INPUT_BUF_SIZE -> n = m.
Proof.
  intros Hn Hm H. assert ((x + n - x) mod INPUT_BUF_SIZE = (x + m - x) mod INPUT_BUF_SIZE) as E.
  { rewrite (Zminus_mod (x + n)), (Zminus_mod (x + m)). by rewrite H. }
  replace (x + n - x) with n in E by lia. replace (x + m - x) with m in E by lia. by rewrite !Z.mod_small in E.
Qed.

(** The character before the end of the line being edited. *)
Lemma rep_last s ready edit c :
  rep s ready (edit ++ [c]) -> e s <> w s /\ buf_at (e s - 1) s = Ok c s /\
  u32 (e s - 1) = u32 (r s + Z.of_nat (length (ready ++ edit))) /\ c <> NL.
Proof.
  intros [Hl Hr Hw He Ht Hb Hed Hf]. rewrite app_assoc, length_app in He, Ht. simpl in He, Ht.
  unfold INPUT_BUF_SIZE in Ht. assert (length (ready ++ edit) < 128)%nat as Hlt by lia.
  assert (u32 (e s - 1) = u32 (r s + Z.of_nat (length (ready ++ edit)))) as E1.
  { rewrite He. rewrite <- Z.add_opp_r, u32_u32. f_equal. lia. }
  split_and!; [| |done|].
  - rewrite He, Hw. intros E. apply u32_dist in E; rewrite ?length_app in *; change (2 ^ 32) with 4294967296 in *; lia.
  - unfold buf_at. rewrite E1, u32_mod. specialize (Hb (length (ready ++ edit)) c). rewrite app_assoc, list_lookup_middle in Hb by done.
    specialize (Hb eq_refl). unfold at_ring in Hb. unfold arr_get. rewrite decide_True by (apply Z.mod_pos_bound; done). by rewrite Hb.
  - apply Forall_app in Hed as [_ Hed]. by apply Forall_cons in Hed as [? _].
Qed.

Lemma rep_drop s ready edit c e' :
  rep s ready (edit ++ [c]) -> e' = u32 (r s + Z.of_nat (length (ready ++ edit))) -> rep (with_e e' s) ready edit.
Proof.
  intros [Hl Hr Hw He Ht Hb Hed Hf] ->. rewrite app_assoc, length_app in Ht. simpl in Ht.
  split; try done; [lia| | |lia].
  - intros i d Hi. apply (Hb i d). rewrite app_assoc. by apply lookup_app_l_Some.
  - by apply Forall_app in Hed as [? _].
Qed.

Lemma rep_uart s ready edit u : rep s ready edit -> rep (with_uart u s) ready edit.
Proof. intros []. split; done. Qed.
Lemma rep_lock s ready edit b : rep s ready edit -> rep (with_lock b s) ready edit.
Proof. intros []. split; done. Qed.

(** ** consoleintr *)

Lemma consputc_rubout s : consputc BACKSPACE s = Ok tt (with_uart (uart s ++ rubout) s).
Proof. unfold consputc, uartputc_sync, bind, modify. simpl. unfold with_uart. simpl. by rewrite <- !app_assoc. Qed.

Lemma kill_line_run fuel : forall s ready edit,
  rep s ready edit -> (length edit < fuel)%nat ->
  exists s', kill_line fuel s = Ok tt s' /\ rep s' ready [] /\ lock s' = lock s /\ wakeups s' = wakeups s /\
    uart s' = uart s ++ concat (replicate (length edit) rubout).
Proof.
  induction fuel as [|fuel IH]; intros s ready edit R Hf; [lia|]. cbn [kill_line]. unfold get, bind at 1.
  destruct edit as [|c edit _] using rev_ind.
  - assert (e s = w s) as E by (rewrite (rp_e _ _ _ R), (rp_w _ _ _ R), app_nil_r; done). rewrite decide_True by done.
    exists s. rewrite app_nil_r. done.
  - destruct (rep_last _ _ _ _ R) as (Hne & Hb & He & Hnl). rewrite decide_False by done.
    rewrite (bind_ok _ _ _ _ _ Hb), decide_False by done. unfold modify, bind at 1. unfold bind at 1. rewrite consputc_rubout.
    rewrite length_app in Hf |- *. simpl in Hf.
    destruct (IH (with_uart (uart s ++ rubout) (with_e (u32 (e s - 1)) s)) ready edit) as (s' & Hrun & R' & Hl & Hw & Hu).
    { apply rep_uart. by eapply rep_drop. } { lia. }
    exists s'. split; [exact Hrun|]. split_and!; try done. rewrite Hu. simpl. rewrite Nat.add_1_r. simpl. by rewrite <- !app_assoc.
Qed.

Lemma rep_edited s ready edit :
  rep s ready edit -> u32 (e s - r s) = Z.of_nat (length (ready ++ edit)) /\ (e s = w s <-> edit = []).
Proof.
  intros [Hl Hr Hw He Ht Hb Hed Hf]. unfold INPUT_BUF_SIZE in Ht. split.
  - rewrite He. apply u32_diff. change (2 ^ 32) with 4294967296. lia.
  - rewrite He, Hw. split; intros E.
    + apply u32_dist in E; rewrite ?length_app in *; change (2 ^ 32) with 4294967296 in *; [|lia|lia]. destruct edit; [done|simpl in E; lia].
    + subst. by rewrite app_nil_r.
Qed.

(** A character is put at the end of the line. *)
Lemma rep_put s ready edit c :
  rep s ready edit -> Z.of_nat (length (ready ++ edit)) < INPUT_BUF_SIZE -> 0 <= c < 256 ->
  exists b, buf_put (e s) c s = Ok tt (with_buf b s) /\ length b = Z.to_nat INPUT_BUF_SIZE /\
    forall i d, (ready ++ edit ++ [c]) !! i = Some d -> b !! Z.to_nat ((r s + Z.of_nat i) mod INPUT_BUF_SIZE) = Some d.
Proof.
  intros [Hl Hr Hw He Ht Hb Hed Hf] Hlt Hc. set (p := (r s + Z.of_nat (length (ready ++ edit))) mod INPUT_BUF_SIZE).
  assert (0 <= p < INPUT_BUF_SIZE) as Hp by (apply Z.mod_pos_bound; done).
  exists (<[Z.to_nat p := c]> (buf s)). split_and!.
  - unfold buf_put. rewrite He, !u32_mod. fold p. rewrite arr_set_Some by (rewrite Hl; unfold INPUT_BUF_SIZE in *; lia).
    unfold u8. rewrite uwrap_small by done. done.
  - by rewrite length_insert.
  - intros i d Hi. rewrite app_assoc in Hi. destruct (decide (i = length (ready ++ edit))) as [->|Hne].
    + rewrite list_lookup_middle in Hi by done. simplify_eq. apply list_lookup_insert_eq. rewrite Hl. unfold INPUT_BUF_SIZE in *. lia.
    + assert (i < length (ready ++ edit))%nat as Hil.
      { apply lookup_lt_Some in Hi. rewrite length_app in Hi. simpl in Hi. lia. }
      rewrite lookup_app_l in Hi by done. rewrite list_lookup_insert_ne; [by apply Hb|]. intros E.
      pose proof (Z.mod_pos_bound (r s + Z.of_nat i) INPUT_BUF_SIZE ltac:(done)).
      assert (Z.of_nat (length (ready ++ edit)) = Z.of_nat i); [|lia].
      apply (ring_inj (r s)); [lia|lia|]. fold p. lia.
Qed.

(** A character is stored, and the line is handed over if it is complete. *)
Definition complete (c : Z) (n : Z) : Prop := c = NL \/ c = ctrl_D \/ n + 1 = INPUT_BUF_SIZE.
#[export] Instance complete_dec c n : Decision (complete c n).
Proof. unfold complete. apply _. Defined.

Lemma stored_char s ready edit c :
  rep s ready edit -> Z.of_nat (length (ready ++ edit)) < INPUT_BUF_SIZE -> 0 <= c < 256 ->
  exists s', (consputc c ;; buf_put (e s) c ;; modify (with_e (u32 (e s + 1))) ;;
      let! s := get in
      if decide (c = NL \/ c = ctrl_D \/ u32 (e s - r s) = INPUT_BUF_SIZE) then modify (with_w (e s)) ;; wakeup
      else ret tt) s = Ok tt s' /\ lock s' = lock s /\
    (if decide (complete c (Z.of_nat (length (ready ++ edit)))) then rep s' (ready ++ edit ++ [c]) [] else rep s' ready (edit ++ [c])) /\
    uart s' = uart s ++ [c] /\
    wakeups s' = (if decide (complete c (Z.of_nat (length (ready ++ edit)))) then S (wakeups s) else wakeups s).
Proof.
  intros R Hlt Hc. set (s1 := with_uart (uart s ++ [c]) s). pose proof (rep_uart s ready edit (uart s ++ [c]) R) as R1. fold s1 in R1.
  assert (consputc c s = Ok tt s1) as Hp by (unfold consputc; rewrite decide_False by (unfold BACKSPACE; lia); done).
  destruct (rep_put s1 ready edit c R1 Hlt Hc) as (b & Hb & Hbl & Hbi). change (e s1) with (e s) in Hb.
  rewrite (bind_ok _ _ _ _ _ Hp), (bind_ok _ _ _ _ _ Hb). unfold modify, bind at 1. unfold get, bind at 1.
  set (s2 := with_e (u32 (e s + 1)) (with_buf b s1)).
  destruct R as [Hl Hr Hw He Ht _ Hed Hf]. unfold INPUT_BUF_SIZE in Hlt.
  assert (e s2 = u32 (r s + Z.of_nat (length (ready ++ edit ++ [c])))) as He2.
  { simpl. rewrite He, u32_u32. f_equal. rewrite app_assoc, (length_app (ready ++ edit)). simpl. lia. }
  assert (Z.of_nat (length (ready ++ edit ++ [c])) = Z.of_nat (length (ready ++ edit)) + 1) as Hn.
  { rewrite app_assoc, (length_app (ready ++ edit)). simpl. lia. }
  assert (u32 (e s2 - r s2) = Z.of_nat (length (ready ++ edit)) + 1) as Hd.
  { rewrite He2, <- Hn. apply u32_diff. change (2 ^ 32) with 4294967296. lia. }
  rewrite Hd. fold (complete c (Z.of_nat (length (ready ++ edit)))). 
  destruct (decide (complete c (Z.of_nat (length (ready ++ edit))))) as [Hcm|Hnc].
  - exists (with_wakeups (S (wakeups s2)) (with_w (e s2) s2)). split_and!; try done.
    split; [done|done|exact He2|by rewrite app_nil_r| |intros i d Hi; rewrite app_nil_r in Hi; by apply Hbi|done|done].
    rewrite app_nil_r, Hn. unfold INPUT_BUF_SIZE. lia.
  - exists s2. split_and!; try done. unfold complete, INPUT_BUF_SIZE in Hnc.
    split; [done|done|exact Hw|exact He2|rewrite Hn; unfold INPUT_BUF_SIZE; lia|exact Hbi| |rewrite Hn; unfold INPUT_BUF_SIZE; lia].
    apply Forall_app. split; [done|]. constructor; [tauto|constructor].
Qed.

Lemma consoleintr_run s ready edit c :
  rep s ready edit -> lock s = false -> 0 <= c < 256 ->
  exists s', consoleintr c s = Ok tt s' /\ lock s' = false /\
    rep s' (typed c (ready, edit)).1 (typed c (ready, edit)).2 /\ uart s' = uart s ++ shown c (ready, edit) /\
    (wakeups s < wakeups s' <-> (typed c (ready, edit)).1 <> ready)%nat.
Proof.
  intros R Hl Hc. unfold consoleintr, acquire. unfold bind at 1. rewrite Hl.
  pose proof (rep_lock s ready edit true R) as R1. set (s1 := with_lock true s) in *.
  assert (forall s2, lock s2 = true -> release s2 = Ok tt (with_lock false s2)) as Hrel.
  { intros s2 H. unfold release. by rewrite H. }
  unfold typed, shown. destruct (decide (c = ctrl_P)) as [->|HP].
  { exists (with_lock false (with_dumps (S (dumps s)) s1)). unfold procdump, modify, bind. simpl. split_and!; try done.
    - destruct R. split; done.
    - by rewrite app_nil_r.
    - split; [lia|done]. }
  destruct (decide (c = ctrl_U)) as [->|HU].
  { destruct (kill_line_run (Z.to_nat INPUT_BUF_SIZE + 1) s1 ready edit R1) as (s2 & Hrun & R2 & Hl2 & Hw2 & Hu2).
    { pose proof (rp_total _ _ _ R). rewrite length_app in *. lia. }
    rewrite (bind_ok _ _ _ _ _ Hrun). rewrite Hrel by (by rewrite Hl2). exists (with_lock false s2). split_and!; try done.
    - by apply rep_lock.
    - simpl. rewrite Hw2. simpl. split; [lia|done]. }
  destruct (decide (c = ctrl_H \/ c = DEL)) as [HH|HH].
  { destruct (rep_edited _ _ _ R1) as [_ Hed]. destruct edit as [|d edit _] using rev_ind.
    - rewrite (bind_ok _ _ _ tt s1). 2: { unfold get, bind. by rewrite (decide_False (P := e s1 <> w s1)) by tauto. }
      rewrite Hrel by done. exists (with_lock false s1).
      split_and!; try done; [by apply rep_lock|by rewrite app_nil_r|simpl; split; [lia|done]].
    - destruct (rep_last _ _ _ _ R1) as (Hne & Hb & He & Hnl).
      rewrite (bind_ok _ _ _ tt (with_uart (uart s1 ++ rubout) (with_e (u32 (e s1 - 1)) s1))).
      2: { unfold get, bind at 1. rewrite decide_True by done. exact (consputc_rubout (with_e (u32 (e s1 - 1)) s1)). }
      rewrite Hrel by done. eexists. split; [done|]. split_and!; try done.
      + cbn [fst snd]. replace (length (edit ++ [d]) - 1)%nat with (length edit) by (rewrite length_app; simpl; lia).
        rewrite take_app_length. apply rep_lock, rep_uart. by eapply rep_drop.
      + simpl. by destruct (edit ++ [d]) eqn:Ed; [by destruct edit|].
      + simpl. split; [lia|done]. }
  destruct (rep_edited _ _ _ R1) as [Hlen _].
  destruct (decide (c <> 0 /\ Z.of_nat (length (ready ++ edit)) < INPUT_BUF_SIZE)) as [[Hc0 Hlt]|Hno].
  2: { rewrite (bind_ok _ _ _ tt s1). 2: { unfold get, bind at 1. by rewrite Hlen, decide_False. }
       rewrite Hrel by done. exists (with_lock false s1).
       split_and!; try done; [by apply rep_lock|by rewrite app_nil_r|simpl; split; [lia|done]]. }
  set (c' := if decide (c = CR) then NL else c). assert (0 <= c' < 256) as Hc' by (unfold c'; case_decide; [by cbv|done]).
  destruct (stored_char s1 ready edit c' R1 Hlt Hc') as (s2 & Hst & Hl2 & R2 & Hu2 & Hw2).
  rewrite (bind_ok _ _ _ tt s2).
  2: { unfold get, bind at 1. rewrite Hlen, decide_True by done. fold c'. exact Hst. }
  rewrite Hrel by (by rewrite Hl2). exists (with_lock false s2). split; [done|]. split; [done|].
  change (wakeups s) with (wakeups s1). fold c'.
  destruct (decide (complete c' (Z.of_nat (length (ready ++ edit))))) as [Hcm|Hcm];
    [rewrite !(decide_True (P := c' = NL \/ _)) by exact Hcm|rewrite !(decide_False (P := c' = NL \/ _)) by exact Hcm];
    (split; [by apply rep_lock|split; [exact Hu2|]]); cbn [wakeups with_lock fst snd]; rewrite Hw2; split; try lia; try done.
  intros _ E. apply (f_equal length) in E. rewrite !length_app in E. simpl in E. lia.
Qed.

(** ** consoleread *)

Lemma rep_take s c ready edit :
  rep s (c :: ready) edit -> r s <> w s /\ buf_at (r s) s = Ok c s /\ rep (with_r (u32 (r s + 1)) s) ready edit.
Proof.
  intros [Hl Hr Hw He Ht Hb Hed Hf]. unfold INPUT_BUF_SIZE in Ht. simpl in Ht.
  split_and!.
  - rewrite Hw. intros E. rewrite <- (u32_small (r s)) in E at 1 by done. rewrite <- (Z.add_0_r (r s)) in E at 1.
    apply u32_dist in E; simpl in *; rewrite ?length_app in *; change (2 ^ 32) with 4294967296 in *; lia.
  - specialize (Hb 0%nat c eq_refl). unfold at_ring in Hb. rewrite Z.add_0_r in Hb. unfold buf_at, arr_get.
    rewrite u32_mod. rewrite decide_True by (apply Z.mod_pos_bound; done). by rewrite Hb.
  - split; cbn [buf r w e with_r]; try done.
    + apply uwrap_range. done.
    + rewrite Hw, u32_u32. f_equal. simpl. lia.
    + rewrite He, u32_u32. f_equal. simpl. lia.
    + unfold INPUT_BUF_SIZE. lia.
    + intros i d Hi. specialize (Hb (S i) d Hi). unfold at_ring in *. cbn [buf r with_r].
      replace ((u32 (r s + 1) + Z.of_nat i) mod INPUT_BUF_SIZE) with ((r s + Z.of_nat (S i)) mod INPUT_BUF_SIZE); [done|].
      rewrite (Zplus_mod (u32 (r s + 1))), u32_mod, <- Zplus_mod. f_equal. lia.
    + unfold INPUT_BUF_SIZE. lia.
Qed.

Lemma rep_none s edit : rep s [] edit -> r s = w s.
Proof. intros [_ Hr Hw _ _ _ _ _]. rewrite Hw. simpl. by rewrite Z.add_0_r, u32_small. Qed.

Lemma consoleread_loop_run killed n : forall s ready edit got,
  rep s ready edit ->
  match line n got ready with
  | Some (got', ready') => exists s', consoleread_loop killed (fun _ => true) n got s = Ok (Some got') s' /\
      rep s' ready' edit /\ lock s' = lock s /\ uart s' = uart s
  | None => exists s', rep s' [] edit /\ uart s' = uart s /\
      if killed then consoleread_loop killed (fun _ => true) n got s = Ok None s' /\ lock s' = lock s
      else consoleread_loop killed (fun _ => true) n got s = Blocked cons_r s' /\ lock s' = false
  end.
Proof.
  induction n as [|n IH]; intros s ready edit got R; cbn [line]; [by exists s|].
  destruct ready as [|c ready].
  - assert (r s = w s) as E by (by eapply rep_none).
    destruct killed; [exists s|exists (with_lock false s)]; (split_and!; try done; try (by apply rep_lock));
      cbn [consoleread_loop]; unfold get, bind at 1; by rewrite decide_True.
  - destruct (rep_take _ _ _ _ R) as (Hne & Hb & R'). set (s1 := with_r (u32 (r s + 1)) s) in *.
    eassert (consoleread_loop killed (fun _ => true) (S n) got s = _) as ->.
    { cbn [consoleread_loop]. unfold get, bind at 1. rewrite (decide_False (P := r s = w s)) by done.
      rewrite (bind_ok _ _ _ _ _ Hb). unfold modify, bind at 1. fold s1. reflexivity. }
    destruct (decide (c = ctrl_D)) as [HD|HD].
    + case_decide as Hg; [|by exists s1]. exists s. split_and!; try done. unfold bind, ret. f_equal. by destruct s.
    + destruct (decide (c = NL)) as [HN|HN]; [by exists s1|].
      specialize (IH s1 ready edit (got ++ [c]) R'). destruct (line n (got ++ [c]) ready) as [[? ?]|]; exact IH.
Qed.

(** ** The refinement *)

Definition cons0 : cons := mkCons false (replicate 128 0) 0 0 0 [] 0 0.

(** C17: The console is a line editor.  From boot on, whatever is typed, the ring stands for
    the input that is ready and the line being edited, however the indices wrap around: a
    character is added to the line and echoed, backspace rubs out its last character and
    ^U all of it, and a newline, ^D or a full ring hands the line over and wakes the
    reader.  A read gets the input that is ready up to the end of a line or to a ^D, no
    more, and waits exactly if there is not enough; nothing that is being edited is
    ever read, and no more than 128 characters are kept. *)
Theorem console_refines s ready edit :
  rep s ready edit -> lock s = false ->
  rep cons0 [] [] /\
  (forall c, 0 <= c < 256 -> exists s', consoleintr c s = Ok tt s' /\ lock s' = false /\
     rep s' (typed c (ready, edit)).1 (typed c (ready, edit)).2 /\ uart s' = uart s ++ shown c (ready, edit) /\
     (wakeups s < wakeups s' <-> (typed c (ready, edit)).1 <> ready)%nat) /\
  (forall n, match line n [] ready with
     | Some (got, ready') => exists s', consoleread false (fun _ => true) n s = Ok (Z.of_nat (length got), got) s' /\
         rep s' ready' edit /\ lock s' = false
     | None => exists s', consoleread false (fun _ => true) n s = Blocked cons_r s' /\ rep s' [] edit /\ lock s' = false
     end).
Proof.
  intros R Hl. split_and!.
  - split; try done; by vm_compute.
  - intros c Hc. by apply consoleintr_run.
  - intros n. pose proof (consoleread_loop_run false n (with_lock true s) ready edit [] (rep_lock _ _ _ true R)) as H.
    eassert (consoleread false (fun _ => true) n s = bind (consoleread_loop false (fun _ => true) n []) _ (with_lock true s)) as ->.
    { unfold consoleread, acquire. unfold bind at 1. rewrite Hl. reflexivity. }
    destruct (line n [] ready) as [[got ready']|].
    + destruct H as (s' & Hrun & R' & Hl' & _). exists (with_lock false s'). rewrite (bind_ok _ _ _ _ _ Hrun).
      unfold release, bind. rewrite Hl'. split_and!; [done|by apply rep_lock|done].
    + destruct H as (s' & R' & _ & Hrun & Hl'). exists s'. unfold bind. by rewrite Hrun.
Qed.

(** The input ab, a backspace, c and a return, read by a program. *)
Lemma console_refines_witness :
  exists s', (consoleintr 97 ;; consoleintr 98 ;; consoleintr 8 ;; consoleintr 99 ;; consoleintr 13 ;;
              consoleread false (fun _ => true) 100) cons0 = Ok (3, [97; 99; 10]) s'.
Proof.
  assert (rep cons0 [] []) as R0 by (split; try done; by vm_compute).
  destruct (console_refines cons0 [] [] R0 eq_refl) as (_ & H & _). destruct (H 97 ltac:(lia)) as (s1 & E1 & L1 & R1 & _).
  destruct (console_refines s1 _ _ R1 L1) as (_ & H1 & _). destruct (H1 98 ltac:(lia)) as (s2 & E2 & L2 & R2 & _).
  destruct (console_refines s2 _ _ R2 L2) as (_ & H2 & _). destruct (H2 8 ltac:(lia)) as (s3 & E3 & L3 & R3 & _).
  destruct (console_refines s3 _ _ R3 L3) as (_ & H3 & _). destruct (H3 99 ltac:(lia)) as (s4 & E4 & L4 & R4 & _).
  destruct (console_refines s4 _ _ R4 L4) as (_ & H4 & _). destruct (H4 13 ltac:(lia)) as (s5 & E5 & L5 & R5 & _).
  destruct (console_refines s5 _ _ R5 L5) as (_ & _ & H5). specialize (H5 100%nat).
  assert (line 100 [] (typed 13 (typed 99 (typed 8 (typed 98 (typed 97 ([], [])))))).1 = Some ([97; 99; 10], [])) as E by (vm_compute; reflexivity).
  assert (forall p : list Z * list Z, (p.1, p.2) = p) as Hp by (intros []; done). rewrite !Hp, E in H5.
  destruct H5 as (s6 & E6 & _). exists s6.
  rewrite (bind_ok _ _ _ _ _ E1), (bind_ok _ _ _ _ _ E2), (bind_ok _ _ _ _ _ E3), (bind_ok _ _ _ _ _ E4), (bind_ok _ _ _ _ _ E5).
  exact E6.
Defined.
