(* ===== verification/Printf.v ===== *)
(** * user/printf.c and kernel/printf.c: formatted output

    The two differ in their digits, in where a character goes and in how they walk over the
    format; numbers, pointers and conversions are printed by the same code, which takes the
    digits and the output of a character as parameters here.  An argument is a 64-bit
    register or a string; a format is the bytes before its NUL. *)

From Stdlib Require Import ZArith Lia.
From stdpp Require Import base numbers list strings.
From S2P Require Import Prelude Console.
Open Scope Z_scope.

Inductive arg : Type := AReg (v : Z) | AStr (s : option (list Z)).

Definition PERCENT : Z := 37.
Definition MINUS : Z := 45.
Definition ch_0 : Z := 48.
Definition ch_x : Z := 120.
Definition ch_d : Z := 100.
Definition ch_l : Z := 108.
Definition ch_u : Z := 117.
Definition ch_p : Z := 112.
Definition ch_c : Z := 99.
Definition ch_s : Z := 115.
(** The string (null). *)
Definition null_text : list Z := [40; 110; 117; 108; 108; 41].

(** What follows a percent sign. *)
Inductive conv : Type :=
  | CInt (long : bool) (base : Z) (sgn : bool)
  | CPtr | CChar | CStr | CPercent | CUnknown (c : Z).

(** The chain of tests on c0, c1 and c2, and by how much i is advanced. *)
Definition conv_of (c0 c1 c2 : Z) : conv * nat :=
  if decide (c0 = ch_d) then (CInt false 10 true, 0%nat)
  else if decide (c0 = ch_l /\ c1 = ch_d) then (CInt true 10 true, 1%nat)
  else if decide (c0 = ch_l /\ c1 = ch_l /\ c2 = ch_d) then (CInt true 10 true, 2%nat)
  else if decide (c0 = ch_u) then (CInt false 10 false, 0%nat)
  else if decide (c0 = ch_l /\ c1 = ch_u) then (CInt true 10 false, 1%nat)
  else if decide (c0 = ch_l /\ c1 = ch_l /\ c2 = ch_u) then (CInt true 10 false, 2%nat)
  else if decide (c0 = ch_x) then (CInt false 16 false, 0%nat)
  else if decide (c0 = ch_l /\ c1 = ch_x) then (CInt true 16 false, 1%nat)
  else if decide (c0 = ch_l /\ c1 = ch_l /\ c2 = ch_x) then (CInt true 16 false, 2%nat)
  else if decide (c0 = ch_p) then (CPtr, 0%nat)
  else if decide (c0 = ch_c) then (CChar, 0%nat)
  else if decide (c0 = ch_s) then (CStr, 0%nat)
  else if decide (c0 = PERCENT) then (CPercent, 0%nat)
  else (CUnknown c0, 0%nat).

(** c1 and c2: the next two characters, 0 at the end. *)
Definition peek1 (rest : list Z) : Z := nth 0 rest 0.
Definition peek2 (rest : list Z) : Z := if decide (peek1 rest = 0) then 0 else nth 1 rest 0.

Section Print.
Context {S : Type} (digits : list Z) (putc : Z -> M S unit).

(** do buf[i++] = digits[x % base]; while((x /= base) != 0), for the array of 20 characters. *)
Definition push (buf : list Z) (c : Z) : M S (list Z) :=
  if decide (Z.of_nat (length buf) < 20) then ret (buf ++ [c]) else undef "buf".
Fixpoint digits_loop (fuel : nat) (x base : Z) (buf : list Z) : M S (list Z) :=
  match fuel with
  | O => fun _ => Fault OutOfFuel
  | Datatypes.S fuel =>
      let! d := from_option "digits" (arr_get digits (x mod base)) in
      let! buf := push buf d in
      if decide (x / base <> 0) then digits_loop fuel (x / base) base buf else ret buf
  end.
Definition printint (xx base : Z) (sgn : bool) : M S unit :=
  let neg := sgn && bool_decide (xx < 0) in
  let! x := (if neg then (if decide (xx = - 2 ^ 63) then undef "-xx" else ret (- xx)) else ret (u64 xx)) in
  let! buf := digits_loop 65 x base [] in
  let! buf := (if neg then push buf MINUS else ret buf) in
  for_each (rev buf) putc.

Fixpoint hex_loop (n : nat) (x : Z) : M S unit :=
  match n with
  | O => ret tt
  | Datatypes.S n =>
      let! d := from_option "digits" (arr_get digits (Z.shiftr x 60)) in
      putc d ;;
      hex_loop n (u64 (Z.shiftl x 4))
  end.
Definition printptr (x : Z) : M S unit :=
  putc ch_0 ;;
  putc ch_x ;;
  hex_loop 16 x.

(** va_arg for an integer of 32 or 64 bits, signed or not, and for a string; what the call did
    not pass is undefined. *)
Definition va_reg (ap : list arg) : M S (Z * list arg) :=
  match ap with AReg v :: ap => ret (v, ap) | _ => undef "va_arg" end.
Definition va_str (ap : list arg) : M S (option (list Z) * list arg) :=
  match ap with AStr s :: ap => ret (s, ap) | _ => undef "va_arg" end.

(** The branch for a conversion; the arguments that are left. *)
Definition convert (c : conv) (ap : list arg) : M S (list arg) :=
  match c with
  | CInt long base sgn =>
      let! (v, ap) := va_reg ap in
      (* (int), (uint32) or (uint64), then long long *)
      printint (if long then i64 v else if sgn then i32 v else u32 v) base sgn ;;
      ret ap
  | CPtr => let! (v, ap) := va_reg ap in printptr (u64 v) ;; ret ap
  | CChar => let! (v, ap) := va_reg ap in putc (u32 v) ;; ret ap
  | CStr => let! (s, ap) := va_str ap in for_each (default null_text s) putc ;; ret ap
  | CPercent => putc PERCENT ;; ret ap
  | CUnknown c => putc PERCENT ;; putc c ;; ret ap
  end.

End Print.

(** ** user/printf.c *)

Module User.

(** What has been written to which descriptor. *)
Definition out : Type := list (Z * Z).
(** "0123456789ABCDEF" *)
Definition digits : list Z := [48; 49; 50; 51; 52; 53; 54; 55; 56; 57; 65; 66; 67; 68; 69; 70].
Definition putc (fd c : Z) : M out unit := modify (fun o => o ++ [(fd, u8 c)]).

(** [pct]: state == '%'. *)
Fixpoint vprintf_loop (fd : Z) (pct : bool) (fmt : list Z) (ap : list arg) : M out unit :=
  match fmt with
  | [] => ret tt
  | c0 :: rest =>
      if pct then
        let (c, skip) := conv_of c0 (peek1 rest) (peek2 rest) in
        let! ap := convert digits (putc fd) c ap in
        match skip, rest with
        | O, _ => vprintf_loop fd false rest ap
        | 1%nat, _ :: rest => vprintf_loop fd false rest ap
        | _, _ :: _ :: rest => vprintf_loop fd false rest ap
        | _, _ => undef "past the end of the format"
        end
      else if decide (c0 = PERCENT) then vprintf_loop fd true rest ap
      else putc fd c0 ;; vprintf_loop fd false rest ap
  end.
Definition vprintf (fd : Z) (fmt : list Z) (ap : list arg) : M out unit := vprintf_loop fd false fmt ap.
Definition fprintf : Z -> list Z -> list arg -> M out unit := vprintf.
Definition printf (fmt : list Z) (ap : list arg) : M out unit := vprintf 1 fmt ap.

End User.

(** ** kernel/printf.c *)

Module Kernel.

Record pr : Type := mkPr { pr_lock : bool; panicking : bool; panicked : bool; console : cons }.
Definition with_lock v s := mkPr v (panicking s) (panicked s) (console s).
Definition with_panicking v s := mkPr (pr_lock s) v (panicked s) (console s).
Definition with_panicked v s := mkPr (pr_lock s) (panicking s) v (console s).
(** "0123456789abcdef" *)
Definition digits : list Z := [48; 49; 50; 51; 52; 53; 54; 55; 56; 57; 97; 98; 99; 100; 101; 102].

Definition putc (c : Z) : M pr unit := fun s =>
  match consputc c (console s) with
  | Ok a t => Ok a (mkPr (pr_lock s) (panicking s) (panicked s) t)
  | Blocked ch t => Blocked ch (mkPr (pr_lock s) (panicking s) (panicked s) t)
  | Fault f => Fault f
  end.
Definition acquire : M pr unit := fun s => if pr_lock s then Fault (Panic "acquire") else Ok tt (with_lock true s).
Definition release : M pr unit := fun s => if pr_lock s then Ok tt (with_lock false s) else Fault (Panic "release").

Definition printfinit : M pr unit := modify (with_lock false).

Fixpoint printf_loop (fmt : list Z) (ap : list arg) : M pr unit :=
  match fmt with
  | [] => ret tt
  | cx :: fmt =>
      if decide (cx <> PERCENT) then putc cx ;; printf_loop fmt ap
      else
        match fmt with
        | [] => ret tt
        | c0 :: rest =>
            let (c, skip) := conv_of c0 (peek1 rest) (peek2 rest) in
            let! ap := convert digits putc c ap in
            match skip, rest with
            | O, _ => printf_loop rest ap
            | 1%nat, _ :: rest => printf_loop rest ap
            | _, _ :: _ :: rest => printf_loop rest ap
            | _, _ => undef "past the end of the format"
            end
        end
  end.
Definition printf (fmt : list Z) (ap : list arg) : M pr Z :=
  let! p := gets panicking in
  (if (p : bool) then ret tt else acquire) ;;
  printf_loop fmt ap ;;
  let! p := gets panicking in
  (if (p : bool) then ret tt else release) ;;
  ret 0.

(** "panic: " and "%s\n"; then the CPU spins forever. *)
Definition spin : Z := -1.
Definition panic (s : list Z) : M pr unit :=
  modify (with_panicking true) ;;
  printf [112; 97; 110; 105; 99; 58; 32] [] ;;
  printf [PERCENT; ch_s; 10] [AStr (Some s)] ;;
  modify (with_panicked true) ;;
  block spin.

End Kernel.
