(* ===== verification/PrintfProps.v ===== *)
(** * printf: numbers read back, and well-typed formats *)

From Stdlib Require Import ZArith Lia.
From stdpp Require Import base numbers list strings.
From S2P Require Import Prelude CString Ulib Console Printf.
Open Scope Z_scope.

(** ** Numerals *)

(** The digits of [x], the least significant first, and the number they stand for. *)
Fixpoint lsd (fuel : nat) (x base : Z) : list Z :=
  match fuel with
  | O => []
  | S fuel => x mod base :: (if decide (x / base = 0) then [] else lsd fuel (x / base) base)
  end.
Fixpoint number (base : Z) (l : list Z) : Z := match l with [] => 0 | d :: l => d + base * number base l end.

Lemma lsd_number fuel x base : 2 <= base -> 0 <= x < base ^ Z.of_nat fuel -> number base (lsd fuel x base) = x.
Proof.
  intros Hb. revert x. induction fuel as [|fuel IH]; intros x Hx; [simpl in *; lia|]. cbn [lsd number].
  pose proof (Z.div_mod x base ltac:(lia)) as D. case_decide as E; [simpl; lia|].
  rewrite IH; [lia|]. rewrite Nat2Z.inj_succ, Z.pow_succ_r in Hx by lia.
  split; [apply Z.div_pos; lia|]. apply Z.div_lt_upper_bound; lia.
Qed.
Lemma lsd_digits fuel x base : 2 <= base -> Forall (fun d => 0 <= d < base) (lsd fuel x base).
Proof.
  intros Hb. revert x. induction fuel as [|fuel IH]; intros x; [constructor|]. cbn [lsd].
  constructor; [apply Z.mod_pos_bound; lia|]. case_decide; [constructor|apply IH].
Qed.
(** No more digits than needed, and enough fuel is enough. *)
Lemma lsd_length fuel x base k : 2 <= base -> (1 <= k)%nat -> 0 <= x < base ^ Z.of_nat k -> (length (lsd fuel x base) <= k)%nat.
Proof.
  intros Hb. revert x k. induction fuel as [|fuel IH]; intros x k Hk Hx; [simpl; lia|]. cbn [lsd length].
  case_decide as E; [simpl; lia|]. destruct k as [|[|k]]; [lia| |].
  - exfalso. apply E. apply Z.div_small. change (Z.of_nat 1) with 1 in Hx. lia.
  - apply le_n_S, IH; [lia|]. rewrite Nat2Z.inj_succ, Z.pow_succ_r in Hx by lia.
    split; [apply Z.div_pos; lia|]. apply Z.div_lt_upper_bound; lia.
Qed.
Lemma lsd_top fuel x base : 2 <= base -> 0 <= x < base ^ Z.of_nat fuel -> (1 <= fuel)%nat ->
  lsd fuel x base = [0] \/ exists l d, lsd fuel x base = l ++ [d] /\ d <> 0.
Proof.
  intros Hb. revert x. induction fuel as [|fuel IH]; intros x Hx Hf; [lia|]. cbn [lsd]. case_decide as E.
  - destruct (decide (x mod base = 0)) as [->|Hne]; [by left|right]. by exists [], (x mod base).
  - assert (0 <= x / base < base ^ Z.of_nat fuel) as Hq.
    { rewrite Nat2Z.inj_succ, Z.pow_succ_r in Hx by lia. split; [apply Z.div_pos; lia|]. apply Z.div_lt_upper_bound; lia. }
    assert (1 <= fuel)%nat as Hf1 by (destruct fuel; [simpl in Hq; lia|lia]).
    right. destruct (IH _ Hq Hf1) as [H|(l & d & -> & Hd)].
    + pose proof (lsd_number fuel (x / base) base Hb Hq) as Hn. rewrite H in Hn. simpl in Hn. lia.
    + by exists (x mod base :: l), d.
Qed.

(** The number whose digits are printed. *)
Definition magnitude (xx : Z) (sgn : bool) : Z := if sgn && bool_decide (xx < 0) then - xx else u64 xx.

(** The bounds that keep the 20 characters of buf enough. *)
Definition printable (xx base : Z) (sgn : bool) : Prop :=
  (base = 10 \/ base = 16) /\ - 2 ^ 63 <= xx < 2 ^ 64 /\ (sgn = true -> - 2 ^ 63 < xx < 2 ^ 63).

Lemma pow10 : 2 ^ 64 < 10 ^ Z.of_nat 20 /\ 2 ^ 63 < 10 ^ Z.of_nat 19 /\ 2 ^ 64 = 16 ^ Z.of_nat 16.
Proof. by vm_compute. Qed.
Lemma magnitude_range xx base sgn : printable xx base sgn ->
  0 <= magnitude xx sgn < 2 ^ 64 /\ (sgn = true -> magnitude xx sgn = Z.abs xx /\ magnitude xx sgn < 2 ^ 63).
Proof.
  intros (_ & Hr & Hs). unfold magnitude. change (2 ^ 64) with (2 * 2 ^ 63) in *. destruct sgn; cbn [andb].
  - specialize (Hs eq_refl). destruct (decide (xx < 0)) as [Hn|Hp].
    + rewrite bool_decide_true by done. lia.
    + rewrite bool_decide_false by done. unfold u64. rewrite uwrap_small by (change (2 ^ 64) with (2 * 2 ^ 63); lia). lia.
  - split; [apply (uwrap_range 64); lia|done].
Qed.
Lemma digits_enough xx base sgn : printable xx base sgn ->
  magnitude xx sgn < base ^ Z.of_nat 65 /\ (length (lsd 65 (magnitude xx sgn) base) <= if sgn then 19 else 20)%nat.
Proof.
  intros H. destruct (magnitude_range xx base sgn H) as [Hm Hs]. destruct H as (Hb & _ & _). destruct pow10 as (P1 & P2 & P3).
  destruct Hb as [-> | ->].
  - split; [assert (2 ^ 64 < 10 ^ Z.of_nat 65) by (by vm_compute); lia|].
    destruct sgn; apply lsd_length; lia.
  - split; [assert (2 ^ 64 < 16 ^ Z.of_nat 65) by (by vm_compute); lia|].
    assert (length (lsd 65 (magnitude xx sgn) 16) <= 16)%nat by (apply lsd_length; lia). destruct sgn; lia.
Qed.

Lemma fmap_rev {A B} (f : A -> B) l : f <$> rev l = rev (f <$> l).
Proof. induction l as [|x l IH]; [done|]. cbn [rev fmap list_fmap]. by rewrite fmap_app, IH. Qed.

Section Print.
Context {S : Type} (digits : list Z) (putc : Z -> M S unit).
Context (Hdigits : length digits = 16%nat).

Definition digit (d : Z) : Z := default 0 (arr_get digits d).
Lemma digit_at d : 0 <= d < 16 -> arr_get digits d = Some (digit d).
Proof.
  intros Hd. unfold digit. destruct (arr_get_lt digits d) as [x E]; [lia|]. by rewrite E.
Qed.

(** What is printed for a number. *)
Definition text_int (xx base : Z) (sgn : bool) : list Z :=
  (if sgn && bool_decide (xx < 0) then [MINUS] else []) ++ (digit <$> rev (lsd 65 (magnitude xx sgn) base)).

Lemma digits_loop_run fuel x base buf s : 2 <= base <= 16 -> 0 <= x < base ^ Z.of_nat fuel -> (1 <= fuel)%nat ->
  (length buf + length (lsd fuel x base) <= 20)%nat ->
  digits_loop (S := S) digits fuel x base buf s = Ok (buf ++ (digit <$> lsd fuel x base)) s.
Proof.
  intros Hb. revert x buf. induction fuel as [|fuel IH]; intros x buf Hx Hf Hlen; [lia|]. cbn [digits_loop lsd] in *.
  cbn [length] in Hlen. rewrite digit_at by (pose proof (Z.mod_pos_bound x base); lia).
  rewrite (bind_ok _ _ s (digit (x mod base)) s eq_refl). unfold push at 1. rewrite decide_True by lia.
  rewrite (bind_ok _ _ s (buf ++ [digit (x mod base)]) s eq_refl). destruct (decide (x / base = 0)) as [E|E].
  - rewrite decide_False by (intros Hn; by apply Hn). done.
  - rewrite decide_True by done.
    assert (0 <= x / base < base ^ Z.of_nat fuel) as Hq.
    { rewrite Nat2Z.inj_succ, Z.pow_succ_r in Hx by lia. split; [apply Z.div_pos; lia|]. apply Z.div_lt_upper_bound; lia. }
    assert (1 <= fuel)%nat as Hf1 by (destruct fuel; [simpl in Hq; lia|lia]).
    rewrite IH; [|done|done|rewrite length_app; cbn [length]; lia]. cbn [fmap list_fmap]. by rewrite <- app_assoc.
Qed.

Lemma printint_run xx base sgn s : printable xx base sgn ->
  printint digits putc xx base sgn s = for_each (text_int xx base sgn) putc s.
Proof.
  intros H. destruct (digits_enough xx base sgn H) as [Hm Hlen]. destruct (magnitude_range xx base sgn H) as [Hr _].
  destruct H as (Hb & _ & Hs). unfold printint. set (neg := sgn && bool_decide (xx < 0)).
  rewrite (bind_ok _ _ s (magnitude xx sgn) s).
  2: { unfold magnitude. fold neg. destruct neg eqn:E; [|done]. rewrite decide_False; [done|]. intros ->.
       unfold neg in E. destruct sgn; [|done]. specialize (Hs eq_refl). lia. }
  rewrite (bind_ok _ _ s (digit <$> lsd 65 (magnitude xx sgn) base) s).
  2: { rewrite digits_loop_run; [done|destruct Hb; lia|lia|lia|]. cbn [length]. destruct sgn; lia. }
  unfold text_int. fold neg. destruct neg eqn:E.
  - rewrite (bind_ok _ _ s ((digit <$> lsd 65 (magnitude xx sgn) base) ++ [MINUS]) s).
    + rewrite rev_app_distr. cbn [rev app]. by rewrite fmap_rev.
    + unfold push. rewrite length_fmap, decide_True; [done|]. unfold neg in E. destruct sgn; [|done]. lia.
  - by rewrite (bind_ok _ _ s (digit <$> lsd 65 (magnitude xx sgn) base) s eq_refl), fmap_rev.
Qed.
End Print.

Lemma decimal_number l : Forall (fun d => 0 <= d < 10) l -> decimal 0 (digit User.digits <$> rev l) = number 10 l.
Proof.
  induction l as [|d l IH]; intros H; [done|]. apply Forall_cons in H as [Hd H]. cbn [rev number].
  rewrite fmap_app. unfold decimal in *. rewrite fold_left_app, (IH H). cbn [fmap list_fmap fold_left].
  assert (digit User.digits d = 48 + d) as ->; [|lia].
  assert (d ∈ zrange 0 10) as Hin by (by apply elem_of_zrange). revert d Hd Hin.
  assert (Forall (fun d => digit User.digits d = 48 + d) (zrange 0 10)) as HF by (apply (bool_decide_unpack _); by vm_compute).
  intros d _ Hin. rewrite Forall_forall in HF. by apply HF.
Qed.
Lemma digit_decimal d : 0 <= d < 10 -> is_digit (digit User.digits d).
Proof.
  intros Hd. assert (d ∈ zrange 0 10) as Hin by (by apply elem_of_zrange).
  assert (Forall (fun d => 48 <= digit User.digits d <= 57) (zrange 0 10)) as HF by (apply (bool_decide_unpack _); by vm_compute).
  rewrite Forall_forall in HF. by apply HF.
Qed.

Lemma user_puts fd l o : for_each l (User.putc fd) o = Ok tt (o ++ ((fun c => (fd, u8 c)) <$> l)).
Proof.
  revert o. induction l as [|c l IH]; intros o; [by rewrite app_nil_r|]. cbn [for_each].
  rewrite (bind_ok (User.putc fd c) _ o tt (o ++ [(fd, u8 c)]) eq_refl), IH, <- app_assoc. done.
Qed.

(** ** Formats *)

(** A format as a list of pieces; [ll] chooses between l and ll. *)
Inductive piece : Type := Lit (c : Z) | Conv (c : conv) (ll : bool).
Definition letter (base : Z) (sgn : bool) : Z := if sgn then ch_d else if decide (base = 16) then ch_x else ch_u.
Definition spell (c : conv) (ll : bool) : list Z :=
  match c with
  | CInt long base sgn => (if long then if ll then [ch_l; ch_l] else [ch_l] else []) ++ [letter base sgn]
  | CPtr => [ch_p] | CChar => [ch_c] | CStr => [ch_s] | CPercent => [PERCENT] | CUnknown c => [c]
  end.
Definition write_piece (p : piece) : list Z := match p with Lit c => [c] | Conv c ll => PERCENT :: spell c ll end.
Definition format_of (ps : list piece) : list Z := ps ≫= write_piece.

(** The value that a conversion takes from a register. *)
Definition int_of (long sgn : bool) (v : Z) : Z := if long then i64 v else if sgn then i32 v else u32 v.
(** The arguments that a list of pieces calls for. *)
Inductive typed : list piece -> list arg -> Prop :=
  | ty_nil ap : typed [] ap
  | ty_lit c ps ap : c <> PERCENT -> typed ps ap -> typed (Lit c :: ps) ap
  | ty_int long base sgn ll v ps ap :
      base = 10 \/ (base = 16 /\ sgn = false) -> (long && sgn = true -> i64 v <> - 2 ^ 63) -> typed ps ap ->
      typed (Conv (CInt long base sgn) ll :: ps) (AReg v :: ap)
  | ty_ptr ll v ps ap : typed ps ap -> typed (Conv CPtr ll :: ps) (AReg v :: ap)
  | ty_chr ll v ps ap : typed ps ap -> typed (Conv CChar ll :: ps) (AReg v :: ap)
  | ty_str ll t ps ap : typed ps ap -> typed (Conv CStr ll :: ps) (AStr t :: ap)
  | ty_pct ll ps ap : typed ps ap -> typed (Conv CPercent ll :: ps) ap.

(** What they print. *)
Section Text.
Context (digits : list Z).
Definition hex16 (v : Z) : list Z := (fun k => digit digits (Z.shiftr v (4 * k) mod 16)) <$> [15; 14; 13; 12; 11; 10; 9; 8; 7; 6; 5; 4; 3; 2; 1; 0].
Definition text (c : conv) (a : arg) : list Z :=
  match c, a with
  | CInt long base sgn, AReg v => text_int digits (int_of long sgn v) base sgn
  | CPtr, AReg v => [ch_0; ch_x] ++ hex16 (u64 v)
  | CChar, AReg v => [u32 v]
  | CStr, AStr t => default null_text t
  | _, _ => []
  end.
Fixpoint render (ps : list piece) (ap : list arg) : list Z :=
  match ps with
  | [] => []
  | Lit c :: ps => c :: render ps ap
  | Conv CPercent _ :: ps => PERCENT :: render ps ap
  | Conv c _ :: ps => match ap with a :: ap => text c a ++ render ps ap | [] => [] end
  end.
End Text.

Section Convert.
Context {S : Type} (digits : list Z) (putc : Z -> M S unit).
Context (Hdigits : length digits = 16%nat).

Lemma int_printable long base sgn v : base = 10 \/ (base = 16 /\ sgn = false) -> (long && sgn = true -> i64 v <> - 2 ^ 63) ->
  printable (int_of long sgn v) base sgn.
Proof.
  intros Hb Hl. unfold int_of, printable. pose proof (swrap_range 64 v ltac:(lia)). pose proof (swrap_range 32 v ltac:(lia)).
  pose proof (uwrap_range 32 v ltac:(lia)). unfold i64, i32, u32 in *.
  change (2 ^ (64 - 1)) with (2 ^ 63) in *. change (2 ^ 64) with (2 * 2 ^ 63). change (2 ^ (32 - 1)) with (2 ^ 31) in *.
  assert (2 ^ 32 < 2 ^ 63 /\ 2 ^ 31 < 2 ^ 63) as [? ?] by (by vm_compute).
  split; [naive_solver|]. destruct long, sgn; cbn [andb] in Hl; try specialize (Hl eq_refl); split; try discriminate; lia.
Qed.

Lemma top_digit y k : 0 <= k <= 15 -> Z.shiftr (u64 (Z.shiftl y (4 * k))) 60 = Z.shiftr y (4 * (15 - k)) mod 16.
Proof.
  intros Hk. apply Z.bits_inj'. intros j Hj. change 16 with (2 ^ 4). rewrite Z.shiftr_spec by lia. unfold u64, uwrap.
  destruct (decide (j < 4)) as [Hlt|Hge].
  - rewrite !Z.mod_pow2_bits_low, Z.shiftl_spec, Z.shiftr_spec by lia. f_equal. lia.
  - by rewrite !Z.mod_pow2_bits_high by lia.
Qed.
Lemma next_digit y k : 0 <= k -> u64 (Z.shiftl (u64 (Z.shiftl y (4 * k))) 4) = u64 (Z.shiftl y (4 * (k + 1))).
Proof.
  intros Hk. unfold u64, uwrap. rewrite !Z.shiftl_mul_pow2 by lia. rewrite Z.mul_mod_idemp_l by done.
  f_equal. rewrite <- Z.mul_assoc, <- Z.pow_add_r by lia. do 2 f_equal. lia.
Qed.
Lemma hex_loop_run n y k s : Z.of_nat n + k = 16 -> 0 <= k ->
  hex_loop digits putc n (u64 (Z.shiftl y (4 * k))) s =
  for_each ((fun j => digit digits (Z.shiftr y (4 * j) mod 16)) <$> rev (zrange 0 (Z.of_nat n))) putc s.
Proof.
  revert k s. induction n as [|n IH]; intros k s Hn Hk; [done|]. cbn [hex_loop].
  rewrite top_digit, digit_at by (done || lia || (apply Z.mod_pos_bound; lia)).
  set (d := digit digits _). rewrite (bind_ok (from_option _ (Some d)) _ s d s eq_refl).
  rewrite Nat2Z.inj_succ. rewrite (zrange_split 0 (Z.of_nat n)) by lia. unfold Z.succ. rewrite zrange_one, rev_app_distr.
  cbn [rev app fmap list_fmap for_each]. assert (15 - k = Z.of_nat n) as Ek by lia. unfold d. rewrite Ek.
  unfold bind. destruct (putc _ s) as [[] t| |]; [|done|done]. rewrite next_digit by done. apply IH; lia.
Qed.
Lemma printptr_run v s : 0 <= v < 2 ^ 64 -> printptr digits putc v s = for_each ([ch_0; ch_x] ++ hex16 digits v) putc s.
Proof.
  intros Hv. unfold printptr. cbn [app for_each]. unfold bind. destruct (putc ch_0 s) as [[] t| |]; [|done|done].
  destruct (putc ch_x t) as [[] t'| |]; [|done|done].
  rewrite <- (uwrap_small 64 v Hv) at 1. pose proof (hex_loop_run 16 v 0 t' eq_refl ltac:(lia)) as H.
  rewrite Z.shiftl_0_r in H. exact H.
Qed.

(** A conversion prints the text of its argument and takes it. *)
Lemma convert_run c a ap s : c <> CPercent -> (forall u, c <> CUnknown u) -> (forall ll, typed [Conv c ll] [a]) ->
  convert digits putc c (a :: ap) s = (for_each (text digits c a) putc ;; ret ap) s.
Proof.
  intros H1 H2 H3. specialize (H3 true). inversion H3; subst; cbn [convert text].
  - rewrite (bind_ok (va_reg (AReg v :: ap)) _ s (v, ap) s eq_refl). unfold bind. fold (int_of long sgn v).
    by rewrite printint_run by (done || by apply int_printable).
  - rewrite (bind_ok (va_reg (AReg v :: ap)) _ s (v, ap) s eq_refl). unfold bind. by rewrite printptr_run by (apply (uwrap_range 64); lia).
  - rewrite (bind_ok (va_reg (AReg v :: ap)) _ s (v, ap) s eq_refl). cbn [for_each]. unfold bind. by destruct (putc (u32 v) s) as [[] ?| |].
  - by rewrite (bind_ok (va_str (AStr t :: ap)) _ s (t, ap) s eq_refl).
  - done.
Qed.
End Convert.

(** The tests on the three characters recognise every conversion that is spelled out. *)
Definition known (c : conv) : Prop :=
  match c with CInt _ base sgn => base = 10 \/ (base = 16 /\ sgn = false) | CUnknown _ => False | _ => True end.
Lemma conv_spell c ll rest : known c -> exists c0 tl, spell c ll = c0 :: tl /\ c0 <> 0 /\ (length tl <= 2)%nat /\
  conv_of c0 (peek1 (tl ++ rest)) (peek2 (tl ++ rest)) = (c, length tl).
Proof.
  intros Hk. destruct c as [long base sgn| | | | |c]; [|eexists _, _; split; [reflexivity|]; split_and!; [done|simpl; lia|reflexivity]..|done].
  destruct Hk as [-> | [-> ->]]; destruct long; try destruct sgn; try destruct ll;
    (eexists _, _; split; [reflexivity|]; split_and!; [done|simpl; lia|reflexivity]).
Qed.

Lemma user_step fd c ll rest ap o : known c ->
  User.vprintf_loop fd true (spell c ll ++ rest) ap o =
  (let! ap := convert User.digits (User.putc fd) c ap in User.vprintf_loop fd false rest ap) o.
Proof.
  intros Hk. destruct (conv_spell c ll rest Hk) as (c0 & tl & -> & _ & Hl & E). cbn [app User.vprintf_loop]. rewrite E.
  destruct tl as [|c1 [|c2 [|]]]; [done|done|done|simpl in Hl; lia].
Qed.
Lemma kernel_step c ll rest ap s : known c ->
  Kernel.printf_loop (PERCENT :: spell c ll ++ rest) ap s =
  (let! ap := convert Kernel.digits Kernel.putc c ap in Kernel.printf_loop rest ap) s.
Proof.
  intros Hk. destruct (conv_spell c ll rest Hk) as (c0 & tl & -> & _ & Hl & E). cbn [app Kernel.printf_loop].
  rewrite decide_False by (intros Hn; by apply Hn). rewrite E.
  destruct tl as [|c1 [|c2 [|]]]; [done|done|done|simpl in Hl; lia].
Qed.

Section Run.
Context {S : Type} (digits : list Z) (putc : Z -> M S unit) (loop : list Z -> list arg -> M S unit).
Context (Hdigits : length digits = 16%nat) (Hnil : forall ap s, loop [] ap s = Ok tt s)
        (Hlit : forall c rest ap s, c <> PERCENT -> loop (c :: rest) ap s = (putc c ;; loop rest ap) s)
        (Hconv : forall c ll rest ap s, known c ->
           loop (PERCENT :: spell c ll ++ rest) ap s = (let! ap := convert digits putc c ap in loop rest ap) s).

Lemma for_each_then {A} (l1 l2 : list A) (body : A -> M S unit) s :
  for_each (l1 ++ l2) body s = (for_each l1 body ;; for_each l2 body) s.
Proof. apply for_each_app. Qed.

(** One conversion of a format that continues with [ps]. *)
Lemma loop_conv c ll a ap ps s : known c -> c <> CPercent -> (forall ll, typed [Conv c ll] [a]) ->
  (forall s, loop (format_of ps) ap s = for_each (render digits ps ap) putc s) ->
  loop (format_of (Conv c ll :: ps)) (a :: ap) s = for_each (text digits c a ++ render digits ps ap) putc s.
Proof.
  intros Hk Hp Ht IH. unfold format_of. cbn [mbind list_bind write_piece]. rewrite <- app_comm_cons, Hconv by done.
  rewrite for_each_then. unfold bind at 1 2. rewrite (convert_run digits putc Hdigits) by (done || (intros u ->; done)).
  unfold bind. destruct (for_each (text digits c a) putc s) as [[] t| |]; [apply IH|done|done].
Qed.

Lemma loop_run ps ap : typed ps ap -> forall s, loop (format_of ps) ap s = for_each (render digits ps ap) putc s.
Proof.
  induction 1 as [ap|c ps ap Hc Ht IH|long base sgn ll v ps ap Hb Hv Ht IH|ll v ps ap Ht IH|ll v ps ap Ht IH|ll t ps ap Ht IH|ll ps ap Ht IH]; intros s.
  - apply Hnil.
  - unfold format_of. cbn [mbind list_bind write_piece app render for_each]. rewrite Hlit by done.
    unfold bind. destruct (putc c s) as [[] t| |]; [apply IH|done|done].
  - apply loop_conv; [done|done| |done]. intros. apply ty_int; first [done|apply ty_nil].
  - apply loop_conv; [done|done| |done]. intros. apply ty_ptr; first [done|apply ty_nil].
  - apply loop_conv; [done|done| |done]. intros. apply ty_chr; first [done|apply ty_nil].
  - apply loop_conv; [done|done| |done]. intros. apply ty_str; first [done|apply ty_nil].
  - unfold format_of. cbn [mbind list_bind write_piece render for_each]. rewrite <- app_comm_cons, Hconv by done.
    cbn [convert]. unfold bind. destruct (putc PERCENT s) as [[] t| |]; [apply IH|done|done].
Qed.
End Run.

Lemma user_run fd ps ap o : typed ps ap ->
  User.vprintf fd (format_of ps) ap o = Ok tt (o ++ ((fun c => (fd, u8 c)) <$> render User.digits ps ap)).
Proof.
  intros H. rewrite <- user_puts. apply (loop_run _ _ (User.vprintf_loop fd false)); try done.
  - intros c rest ap' s Hc. cbn [User.vprintf_loop]. by rewrite decide_False.
  - intros c ll rest ap' s Hk. cbn [User.vprintf_loop]. rewrite decide_True by done. by apply user_step.
Qed.
Lemma kernel_run ps ap s : typed ps ap ->
  Kernel.printf_loop (format_of ps) ap s = for_each (render Kernel.digits ps ap) Kernel.putc s.
Proof.
  intros H. apply (loop_run _ _ Kernel.printf_loop); try done.
  - intros c rest ap' t Hc. cbn [Kernel.printf_loop]. by rewrite decide_True.
  - intros. by apply kernel_step.
Qed.

Lemma kernel_puts l lk pk pd cs cs' : for_each l consputc cs = Ok tt cs' ->
  for_each l Kernel.putc (Kernel.mkPr lk pk pd cs) = Ok tt (Kernel.mkPr lk pk pd cs').
Proof.
  revert cs. induction l as [|c l IH]; intros cs H; cbn [for_each] in *; [by injection H as <-|].
  apply bind_inv in H as (u & t & E & H). rewrite (bind_ok _ _ _ u (Kernel.mkPr lk pk pd t)); [by apply IH|].
  unfold Kernel.putc. cbn [Kernel.console]. by rewrite E.
Qed.
Lemma console_puts l cs : exists cs', for_each l consputc cs = Ok tt cs'.
Proof.
  revert cs. induction l as [|c l IH]; intros cs; [by exists cs|]. cbn [for_each].
  assert (exists t, consputc c cs = Ok tt t) as [t E] by (unfold consputc; case_decide; by eexists).
  rewrite (bind_ok _ _ _ _ _ E). apply IH.
Qed.

(** The digits of a small number. *)
Lemma print_decimal fd n o : 0 <= n <= atoi_max -> exists ds,
  User.fprintf fd [PERCENT; ch_d] [AReg n] o = Ok tt (o ++ ((fun c => (fd, c)) <$> ds)) /\ Forall is_digit ds /\ decimal 0 ds = n.
Proof.
  intros Hn. unfold atoi_max in Hn. exists (digit User.digits <$> rev (lsd 65 n 10)).
  assert (0 <= n < 10 ^ Z.of_nat 65) as Hr by (assert (2 ^ 31 < 10 ^ Z.of_nat 65) by (by vm_compute); lia).
  assert (Forall is_digit (digit User.digits <$> rev (lsd 65 n 10))) as HD.
  { apply Forall_fmap, Forall_rev. eapply Forall_impl; [by apply (lsd_digits 65 n 10)|]. intros d Hd. by apply digit_decimal. }
  assert (typed [Conv (CInt false 10 true) false] [AReg n]) as HT by (apply ty_int; [by left|discriminate|constructor]).
  split_and!; [|done|].
  - pose proof (user_run fd _ _ o HT) as E. cbn [render text] in E. rewrite app_nil_r in E. unfold int_of in E.
    rewrite i32_small in E by (unfold in_int, INT_MIN, INT_MAX; lia). unfold text_int, magnitude in E.
    rewrite (bool_decide_false (n < 0)) in E by lia. cbn [andb app] in E. unfold u64 in E.
    rewrite uwrap_small in E by (assert (2 ^ 31 < 2 ^ 64) by (by vm_compute); lia).
    unfold User.fprintf. change [PERCENT; ch_d] with (format_of [Conv (CInt false 10 true) false]). rewrite E. do 2 f_equal.
    apply list_fmap_ext. intros i c Hc. f_equal. unfold u8. apply uwrap_small.
    rewrite Forall_forall in HD. pose proof (HD c (list_elem_of_lookup_2 _ _ _ Hc)) as [? ?]. change (2 ^ 8) with 256. lia.
  - rewrite decimal_number by (by apply lsd_digits). by apply lsd_number.
Qed.

(** C20: Numbers print as their numerals.  For bases 10 and 16 and every value but the smallest
    signed one, printint (of the kernel and of the user library) stays within its 20
    characters and prints a minus sign exactly for a negative signed number, then digits
    below the base, without superfluous zeros, that denote its magnitude.  And what the user
    printf prints for %d of a number up to 2147483599, atoi reads back. *)
Theorem printed_numbers :
  (forall S (digits : list Z) (putc : Z -> M S unit) xx base sgn s, length digits = 16%nat -> printable xx base sgn ->
     exists l, printint digits putc xx base sgn s =
         for_each ((if sgn && bool_decide (xx < 0) then [MINUS] else []) ++ (digit digits <$> l)) putc s /\
       Forall (fun d => 0 <= d < base) l /\ number base (rev l) = magnitude xx sgn /\ (sgn = true -> magnitude xx sgn = Z.abs xx) /\
       (l = [0] \/ exists d l', l = d :: l' /\ d <> 0) /\ (length l <= if sgn then 19 else 20)%nat) /\
  (forall fd n o, 0 <= n <= atoi_max -> exists ds,
     User.fprintf fd [PERCENT; ch_d] [AReg n] o = Ok tt (o ++ ((fun c => (fd, c)) <$> ds)) /\
     forall m s c, stored m s (ds ++ [c]) -> ~ is_digit c -> atoi (Datatypes.S (length ds)) s m = Ok n m).
Proof.
  split.
  - intros S digits putc xx base sgn s Hd Hp. rewrite (printint_run digits putc Hd _ _ _ _ Hp). unfold text_int.
    destruct (digits_enough xx base sgn Hp) as [Hm Hlen]. destruct (magnitude_range xx base sgn Hp) as [Hr Hs].
    assert (2 <= base) as Hb by (destruct Hp as [[-> | ->] _]; lia).
    exists (rev (lsd 65 (magnitude xx sgn) base)). split_and!; [done| | | | |].
    + apply Forall_rev, lsd_digits, Hb.
    + rewrite rev_involutive. apply lsd_number; [done|lia].
    + intros E. by apply Hs.
    + destruct (lsd_top 65 (magnitude xx sgn) base Hb) as [E|(l & d & E & Hne)]; [lia|lia|left; by rewrite E|right].
      exists d, (rev l). by rewrite E, rev_app_distr.
    + by rewrite length_rev.
  - intros fd n o Hn. destruct (print_decimal fd n o Hn) as (ds & H1 & H2 & H3). exists ds. split; [done|].
    intros m s c Hst Hc. rewrite <- H3. apply (atoi_loop_run ds m s 0 c); try done; lia.
Qed.
Lemma printed_numbers_witness :
  exists ds, User.fprintf 2 [PERCENT; ch_d] [AReg 1945] [] = Ok tt ((fun c => (2, c)) <$> ds) /\ length ds = 4%nat /\
    exists l, printint User.digits (User.putc 1) (-255) 16 true [] = for_each (MINUS :: (digit User.digits <$> l)) (User.putc 1) [] /\ number 16 (rev l) = 255.
Proof.
  destruct printed_numbers as [H1 H2]. destruct (H2 2 1945 [] ltac:(vm_compute; split; discriminate)) as (ds & E & _).
  exists ds. split; [exact E|]. split.
  - assert (length ((fun c => (2, c)) <$> ds) = 4%nat) as Hl; [|by rewrite length_fmap in Hl].
    assert (Ok tt ((fun c => (2, c)) <$> ds) = Ok tt [(2, 49); (2, 57); (2, 52); (2, 53)]) as Ho by (transitivity (User.fprintf 2 [PERCENT; ch_d] [AReg 1945] []); [symmetry; exact E|vm_compute; reflexivity]).
    injection Ho as ->. reflexivity.
  - destruct (H1 User.out User.digits (User.putc 1) (-255) 16 true [] eq_refl) as (l & F1 & _ & F2 & _).
    + split; [by right|]. split; [vm_compute; split; [discriminate|reflexivity]|]. intros _. vm_compute. split; reflexivity.
    + exists l. split; [exact F1|]. rewrite F2. reflexivity.
Defined.

(** C19: Well-typed formats are printed without undefined behaviour.  When the arguments of a call
    are of the kinds that the conversions of the format ask for (a string for %s, a register
    for the others, and not the smallest 64-bit number for %ld), user and kernel printf
    recognise every conversion, take exactly the arguments it stands for, and print the
    literal characters and the texts of the arguments in order; the kernel takes the
    lock of the console output and gives it back, unless the machine is panicking. *)
Theorem well_typed_formats ps ap fd o s : typed ps ap ->
  User.vprintf fd (format_of ps) ap o = Ok tt (o ++ ((fun c => (fd, u8 c)) <$> render User.digits ps ap)) /\
  ((Kernel.panicking s = false -> Kernel.pr_lock s = false) -> exists t, Kernel.printf (format_of ps) ap s = Ok 0 t /\
     (for_each (render Kernel.digits ps ap) consputc) (Kernel.console s) = Ok tt (Kernel.console t) /\
     Kernel.pr_lock t = Kernel.pr_lock s /\ Kernel.panicking t = Kernel.panicking s).
Proof.
  intros H. split; [by apply user_run|]. intros Hl. destruct s as [lk pk pd cs]. cbn in Hl.
  destruct (console_puts (render Kernel.digits ps ap) cs) as [cs' Hc].
  exists (Kernel.mkPr lk pk pd cs'). split_and!; [|exact Hc|done|done]. unfold Kernel.printf.
  set (held := if pk then lk else true).
  rewrite (bind_ok (gets Kernel.panicking) _ (Kernel.mkPr lk pk pd cs) pk (Kernel.mkPr lk pk pd cs) eq_refl).
  rewrite (bind_ok _ _ _ tt (Kernel.mkPr held pk pd cs)) by (destruct pk; [done|by rewrite Hl]).
  rewrite (bind_ok _ _ _ tt (Kernel.mkPr held pk pd cs')) by (rewrite kernel_run by done; by apply kernel_puts).
  rewrite (bind_ok (gets Kernel.panicking) _ (Kernel.mkPr held pk pd cs') pk (Kernel.mkPr held pk pd cs') eq_refl).
  destruct pk; [done|]. by rewrite (Hl eq_refl).
Qed.
Lemma well_typed_formats_witness :
  User.vprintf 1 [PERCENT; ch_d; 58; PERCENT; ch_l; ch_x; PERCENT; ch_s] [AReg 7; AReg 255; AStr None] [] =
    Ok tt ((fun c => (1, u8 c)) <$> [55; 58; 70; 70; 40; 110; 117; 108; 108; 41]).
Proof.
  assert (typed [Conv (CInt false 10 true) false; Lit 58; Conv (CInt true 16 false) false; Conv CStr false] [AReg 7; AReg 255; AStr None]) as HT.
  { apply ty_int; [by left|discriminate|]. apply ty_lit; [discriminate|]. apply ty_int; [by right|discriminate|]. apply ty_str, ty_nil. }
  destruct (well_typed_formats _ _ 1 [] (Kernel.mkPr false false false (mkCons false [] 0 0 0 [] 0 0)) HT) as [H _]. exact H.
Defined.
