(* ===== verification/UserProgs.v ===== *)
(** * user/cat.c, wc.c, echo.c, ls.c, rm.c, mkdir.c, ln.c, kill.c; stat of ulib.c

    The programs call the system through the class [Sys]; a process ends with [Exit].  An
    argument vector is a list of strings, the name of the program first.  printf is the one
    of [Printf], its characters written one by one. *)

From Stdlib Require Import ZArith Lia.
From stdpp Require Import base numbers list gmap strings.
From S2P Require Import Prelude Printf.
Open Scope Z_scope.

(** struct stat, as fstat fills it in. *)
Record stat_t : Type := mkStat { st_type : Z; st_ino : Z; st_size : Z }.

(** The system calls: what each returns; the bytes that read has put into the buffer, None
    for a result of -1. *)
Class Sys (S : Type) := {
  read : Z -> Z -> M S (option (list Z));
  write : Z -> list Z -> M S Z;
  open_ : list Z -> Z -> M S Z;
  close : Z -> M S Z;
  fstat : Z -> M S (option stat_t);
  unlink : list Z -> M S Z;
  mkdir : list Z -> M S Z;
  link : list Z -> list Z -> M S Z;
  kill : Z -> M S Z;
}.

(** How a function of a program ends: it returns, or it calls exit. *)
Inductive ended (A : Type) : Type := Returned (a : A) | Exit (status : Z).
Arguments Returned {A}. Arguments Exit {A}.

Definition O_RDONLY : Z := 0.
Definition T_DIR : Z := 1.
Definition T_FILE : Z := 2.
Definition T_DEVICE : Z := 3.
Definition DIRSIZ : nat := 14.

(** The characters of a string literal. *)
Fixpoint chars (s : string) : list Z :=
  match s with EmptyString => [] | String c s => Z.of_N (Ascii.N_of_ascii c) :: chars s end.
Definition NL : list Z := [10].

Section Programs.
Context {S : Type} `{Sys S}.

(** fprintf: the characters that vprintf puts out, in single writes. *)
Definition fprintf (fd : Z) (fmt : list Z) (ap : list arg) : M S unit :=
  match User.vprintf fd fmt ap [] with
  | Ok _ o => for_each o (fun x => write x.1 [x.2] ;; ret tt)
  | Blocked c _ => block c
  | Fault f => fun _ => Fault f
  end.
Definition printf : list Z -> list arg -> M S unit := fprintf 1.

(** stat of ulib.c. *)
Definition stat (n : list Z) : M S (option stat_t) :=
  let! fd := open_ n O_RDONLY in
  if decide (fd < 0) then ret None
  else
    let! r := fstat fd in
    close fd ;; ret r.

(** The loop of main over the remaining arguments. *)
Fixpoint for_args (l : list (list Z)) (body : list Z -> M S (ended unit)) : M S (ended unit) :=
  match l with
  | [] => ret (Returned tt)
  | a :: l => let! r := body a in match r with Returned _ => for_args l body | Exit n => ret (Exit n) end
  end.
(** exit(n) at the end of main. *)
Definition then_exit (r : ended unit) (n : Z) : Z := match r with Returned _ => n | Exit m => m end.

(** ** cat.c *)

Fixpoint cat (fuel : nat) (fd : Z) : M S (ended unit) :=
  match fuel with
  | O => fun _ => Fault OutOfFuel
  | Datatypes.S fuel =>
      let! r := read fd 512 in
      match r with
      | None => fprintf 2 (chars "cat: read error" ++ NL) [] ;; ret (Exit 1)
      | Some [] => ret (Returned tt)
      | Some buf =>
          let! n := write 1 buf in
          if decide (n <> Z.of_nat (length buf)) then fprintf 2 (chars "cat: write error" ++ NL) [] ;; ret (Exit 1)
          else cat fuel fd
      end
  end.
Definition cat_main (fuel : nat) (argv : list (list Z)) : M S Z :=
  match tail argv with
  | [] => let! r := cat fuel 0 in ret (then_exit r 0)
  | args =>
      let! r := for_args args (fun a =>
        let! fd := open_ a O_RDONLY in
        if decide (fd < 0) then fprintf 2 (chars "cat: cannot open %s" ++ NL) [AStr (Some a)] ;; ret (Exit 1)
        else
          let! r := cat fuel fd in
          match r with Exit n => ret (Exit n) | Returned _ => close fd ;; ret (Returned tt) end) in
      ret (then_exit r 0)
  end.

(** ** wc.c *)

(** int l, w, c, inword. *)
Record count : Type := mkCount { lines : Z; words : Z; bytes : Z; inword : bool }.
Definition incr (x : Z) : M S Z := if decide (in_int (x + 1)) then ret (x + 1) else undef "int overflow".
(** strchr in the string of space, return, tab, newline and vertical tab. *)
Definition blank (c : Z) : bool := bool_decide (c ∈ [32; 13; 9; 10; 11]).
Definition wc_byte (k : count) (b : Z) : M S count :=
  let! c := incr (bytes k) in
  let! l := (if decide (b = 10) then incr (lines k) else ret (lines k)) in
  if blank b then ret (mkCount l (words k) c false)
  else if negb (inword k) then let! w := incr (words k) in ret (mkCount l w c true)
  else ret (mkCount l (words k) c (inword k)).
Fixpoint wc_buf (k : count) (buf : list Z) : M S count :=
  match buf with [] => ret k | b :: buf => let! k := wc_byte k b in wc_buf k buf end.
Fixpoint wc_loop (fuel : nat) (fd : Z) (k : count) : M S (ended count) :=
  match fuel with
  | O => fun _ => Fault OutOfFuel
  | Datatypes.S fuel =>
      let! r := read fd 512 in
      match r with
      | None => printf (chars "wc: read error" ++ NL) [] ;; ret (Exit 1)
      | Some [] => ret (Returned k)
      | Some buf => let! k := wc_buf k buf in wc_loop fuel fd k
      end
  end.
Definition wc_format : list Z := chars "%d %d %d %s" ++ NL.
Definition wc (fuel : nat) (fd : Z) (name : list Z) : M S (ended unit) :=
  let! r := wc_loop fuel fd (mkCount 0 0 0 false) in
  match r with
  | Exit n => ret (Exit n)
  | Returned k => printf wc_format [AReg (lines k); AReg (words k); AReg (bytes k); AStr (Some name)] ;; ret (Returned tt)
  end.
Definition wc_main (fuel : nat) (argv : list (list Z)) : M S Z :=
  match tail argv with
  | [] => let! r := wc fuel 0 [] in ret (then_exit r 0)
  | args =>
      let! r := for_args args (fun a =>
        let! fd := open_ a O_RDONLY in
        if decide (fd < 0) then printf (chars "wc: cannot open %s" ++ NL) [AStr (Some a)] ;; ret (Exit 1)
        else
          let! r := wc fuel fd a in
          match r with Exit n => ret (Exit n) | Returned _ => close fd ;; ret (Returned tt) end) in
      ret (then_exit r 0)
  end.

(** ** echo.c *)

Fixpoint echo (args : list (list Z)) : M S unit :=
  match args with
  | [] => ret tt
  | a :: rest =>
      write 1 a ;;
      match rest with [] => write 1 NL ;; ret tt | _ => write 1 [32] ;; echo rest end
  end.
Definition echo_main (argv : list (list Z)) : M S Z := echo (tail argv) ;; ret 0.

(** ** rm.c, mkdir.c, ln.c, kill.c *)

(** The loop of rm and mkdir: it stops at the first failure. *)
Fixpoint each_path (op : list Z -> M S Z) (msg : list Z) (args : list (list Z)) : M S unit :=
  match args with
  | [] => ret tt
  | a :: args =>
      let! r := op a in
      if decide (r < 0) then fprintf 2 msg [AStr (Some a)] else each_path op msg args
  end.
Definition rm_main (argv : list (list Z)) : M S Z :=
  if decide (length argv < 2)%nat then fprintf 2 (chars "Usage: rm files..." ++ NL) [] ;; ret 1
  else each_path unlink (chars "rm: %s failed to delete" ++ NL) (tail argv) ;; ret 0.
Definition mkdir_main (argv : list (list Z)) : M S Z :=
  if decide (length argv < 2)%nat then fprintf 2 (chars "Usage: mkdir files..." ++ NL) [] ;; ret 1
  else each_path mkdir (chars "mkdir: %s failed to create" ++ NL) (tail argv) ;; ret 0.
Definition ln_main (argv : list (list Z)) : M S Z :=
  match argv with
  | [_; old; new] =>
      let! r := link old new in
      (if decide (r < 0) then fprintf 2 (chars "link %s %s: failed" ++ NL) [AStr (Some old); AStr (Some new)] else ret tt) ;;
      ret 0
  | _ => fprintf 2 (chars "Usage: ln old new" ++ NL) [] ;; ret 1
  end.
(** [atoi] is that of ulib.c, on the characters of the argument. *)
Fixpoint atoi (s : list Z) (n : Z) : M S Z :=
  match s with
  | [] => ret n
  | c :: s => if decide (48 <= c <= 57) then
                if decide (in_int (n * 10 + c)) then atoi s (n * 10 + c - 48) else undef "int overflow"
              else ret n
  end.
Definition kill_main (argv : list (list Z)) : M S Z :=
  if decide (length argv < 2)%nat then fprintf 2 (chars "usage: kill pid..." ++ NL) [] ;; ret 1
  else for_each (tail argv) (fun a => let! pid := atoi a 0 in kill pid ;; ret tt) ;; ret 0.

(** ** ls.c *)

(** The name after the last slash, padded with blanks to DIRSIZ characters. *)
Fixpoint after_slash (path last : list Z) : list Z :=
  match path with [] => last | c :: path => after_slash path (if decide (c = 47) then path else last) end.
Definition fmtname (path : list Z) : list Z :=
  let p := after_slash path path in
  if decide (DIRSIZ <= length p)%nat then p else p ++ replicate (DIRSIZ - length p) 32.

Definition ls_format : list Z := chars "%s %d %d %d" ++ NL.
Definition print_entry (path : list Z) (st : stat_t) : M S unit :=
  printf ls_format [AStr (Some (fmtname path)); AReg (st_type st); AReg (st_ino st); AReg (i32 (st_size st))].
(** A directory entry of 16 bytes: the inode number and the name up to its NUL. *)
Definition de_inum (de : list Z) : Z := match de with a :: b :: _ => a + 256 * b | _ => 0 end.
Fixpoint until_nul (l : list Z) : list Z := match l with [] => [] | c :: l => if decide (c = 0) then [] else c :: until_nul l end.
Definition de_name (de : list Z) : list Z := until_nul (take DIRSIZ (drop 2 de)).
Fixpoint ls_dir (fuel : nat) (fd : Z) (path : list Z) : M S unit :=
  match fuel with
  | O => fun _ => Fault OutOfFuel
  | Datatypes.S fuel =>
      let! r := read fd 16 in
      match r with
      | Some de =>
          if decide (length de = 16%nat) then
            if decide (de_inum de = 0) then ls_dir fuel fd path
            else
              let buf := path ++ [47] ++ de_name de in
              let! st := stat buf in
              match st with
              | None => printf (chars "ls: cannot stat %s" ++ NL) [AStr (Some buf)] ;; ls_dir fuel fd path
              | Some st => print_entry buf st ;; ls_dir fuel fd path
              end
          else ret tt
      | None => ret tt
      end
  end.
Definition ls (fuel : nat) (path : list Z) : M S unit :=
  let! fd := open_ path O_RDONLY in
  if decide (fd < 0) then fprintf 2 (chars "ls: cannot open %s" ++ NL) [AStr (Some path)]
  else
    let! st := fstat fd in
    match st with
    | None => fprintf 2 (chars "ls: cannot stat %s" ++ NL) [AStr (Some path)] ;; close fd ;; ret tt
    | Some st =>
        (if decide (st_type st = T_DEVICE \/ st_type st = T_FILE) then print_entry path st
         else if decide (st_type st = T_DIR) then
           if decide (Z.of_nat (length path) + 1 + Z.of_nat DIRSIZ + 1 > 512) then printf (chars "ls: path too long" ++ NL) []
           else ls_dir fuel fd path
         else ret tt) ;;
        close fd ;;
        ret tt
    end.
Definition ls_main (fuel : nat) (argv : list (list Z)) : M S Z :=
  (if decide (length argv < 2)%nat then ls fuel (chars ".") else for_each (tail argv) (ls fuel)) ;;
  ret 0.

End Programs.
