(* ===== verification/UserProgsProps.v ===== *)
(** * cat, wc and echo against an abstract file system

    [FileSys] states what a program may rely on: the contents of the files by path, what is left to
    read on each input descriptor and what was written to each output descriptor.  A read may
    deliver fewer bytes than asked for, but delivers none only at the end. *)

From Stdlib Require Import ZArith Lia.
From stdpp Require Import base numbers list gmap strings.
From S2P Require Import Prelude Printf PrintfProps UserProgs.
Open Scope Z_scope.

Record world : Type := mkWorld { disk : gmap (list Z) (list Z); ins : gmap Z (list Z); outs : gmap Z (list Z) }.
(** [t] written to [fd]; what is left to read on [fd]; [fd] closed. *)
Definition say (fd : Z) (t : list Z) (w : world) : world := mkWorld (disk w) (ins w) (alter (fun o => o ++ t) fd (outs w)).
Definition left_at (fd : Z) (l : list Z) (w : world) : world := mkWorld (disk w) (<[fd := l]> (ins w)) (outs w).
Definition shut (fd : Z) (w : world) : world := mkWorld (disk w) (delete fd (ins w)) (outs w).
Definition NOFILE : nat := 16.
(** A descriptor is free. *)
Definition room (w : world) : Prop := (size (dom (ins w) ∪ dom (outs w)) < NOFILE)%nat.

Class FileSys (S : Type) `{Sys S} := {
  view : S -> world;
  read_some s fd n l : ins (view s) !! fd = Some l -> 0 < n ->
    exists buf rest s', l = buf ++ rest /\ Z.of_nat (length buf) <= n /\ (buf = [] -> l = []) /\
      read fd n s = Ok (Some buf) s' /\ view s' = left_at fd rest (view s);
  write_all s fd l : is_Some (outs (view s) !! fd) ->
    exists s', write fd l s = Ok (Z.of_nat (length l)) s' /\ view s' = say fd l (view s);
  open_file s p l : disk (view s) !! p = Some l -> room (view s) ->
    exists fd s', open_ p O_RDONLY s = Ok fd s' /\ 0 <= fd /\ ins (view s) !! fd = None /\ view s' = left_at fd l (view s);
  open_missing s p : disk (view s) !! p = None ->
    exists s', open_ p O_RDONLY s = Ok (-1) s' /\ view s' = view s;
  close_input s fd : is_Some (ins (view s) !! fd) ->
    exists s', close fd s = Ok 0 s' /\ view s' = shut fd (view s);
}.

Lemma say_app fd t u w : say fd u (say fd t w) = say fd (t ++ u) w.
Proof.
  unfold say. cbn [disk ins outs]. f_equal. apply map_eq. intros k.
  destruct (decide (k = fd)) as [->|]; [|by rewrite !lookup_alter_ne]. rewrite !lookup_alter_eq.
  destruct (outs w !! fd) as [x|]; cbn; [by rewrite app_assoc|done].
Qed.
Lemma say_nil fd w : say fd [] w = w.
Proof.
  destruct w as [d i o]. unfold say. cbn [disk ins outs]. f_equal. apply map_eq. intros k.
  destruct (decide (k = fd)) as [->|]; [|by rewrite lookup_alter_ne]. rewrite lookup_alter_eq.
  destruct (o !! fd) as [x|]; cbn; [by rewrite app_nil_r|done].
Qed.
Lemma say_outs fd t w k : is_Some (outs (say fd t w) !! k) <-> is_Some (outs w !! k).
Proof.
  unfold say. cbn [outs]. destruct (decide (k = fd)) as [->|]; [|by rewrite lookup_alter_ne].
  rewrite lookup_alter_eq. apply fmap_is_Some.
Qed.
Lemma say_room fd t w : room (say fd t w) <-> room w.
Proof. unfold room, say. cbn [ins outs]. by rewrite dom_alter_L. Qed.
Lemma left_twice fd l l' w : left_at fd l (left_at fd l' w) = left_at fd l w.
Proof. unfold left_at. cbn [disk ins outs]. by rewrite insert_insert_eq. Qed.
Lemma shut_fresh fd l t w : ins w !! fd = None -> shut fd (left_at fd l (say 1 t w)) = say 1 t w.
Proof. intros H. unfold shut, left_at, say. cbn [disk ins outs]. by rewrite delete_insert_id. Qed.

(** ** Formats of literal text *)

Lemma typed_lits l ps ap : Forall (fun c => c <> PERCENT) l -> typed ps ap -> typed ((Lit <$> l) ++ ps) ap.
Proof. induction 1; intros Ht; [done|]. cbn. constructor; auto. Qed.
Lemma render_lits digits l ps ap : render digits ((Lit <$> l) ++ ps) ap = l ++ render digits ps ap.
Proof. induction l as [|c l IH]; [done|]. cbn. by rewrite IH. Qed.
Definition is_byte (c : Z) : Prop := 0 <= c < 256.
Lemma u8_bytes l : Forall is_byte l -> u8 <$> l = l.
Proof.
  induction 1 as [|c l Hc _ IH]; [done|]. cbn [fmap list_fmap]. f_equal; [|done]. by apply (uwrap_small 8).
Qed.
(** The numeral of a count. *)
Definition numeral (n : Z) : list Z := text_int User.digits n 10 true.
Lemma numeral_bytes n : 0 <= n <= INT_MAX -> Forall is_byte (numeral n).
Proof.
  intros Hn. unfold numeral, text_int. rewrite (bool_decide_false (n < 0)) by lia. cbn [andb app].
  apply Forall_fmap, Forall_rev. eapply Forall_impl; [by apply (lsd_digits 65 _ 10)|]. intros d Hd.
  destruct (digit_decimal d Hd). unfold is_byte, compose. lia.
Qed.

(** ** The counts of wc *)

(** The reference: newlines, bytes, and the positions where a word starts. *)
Definition newlines (l : list Z) : Z := Z.of_nat (length (filter (fun b => b = 10) l)).
Definition starts_word (l : list Z) (i : nat) : Prop :=
  match l !! i with
  | Some b => blank b = false /\ match i with O => True | Datatypes.S j => default true (blank <$> l !! j) = true end
  | None => False
  end.
#[export] Instance starts_word_dec l i : Decision (starts_word l i).
Proof. unfold starts_word. destruct (l !! i); [|apply _]. apply and_dec; [apply _|]. destruct i; apply _. Defined.
Definition word_count (l : list Z) : Z := Z.of_nat (length (filter (starts_word l) (seq 0 (length l)))).

(** The bytes of wc, one after the other, without the bounds. *)
Definition count_byte (k : count) (b : Z) : count :=
  mkCount (lines k + if decide (b = 10) then 1 else 0) (words k + if blank b || inword k then 0 else 1) (bytes k + 1) (negb (blank b)).
Definition count_of (l : list Z) : count := fold_left count_byte l (mkCount 0 0 0 false).

Lemma starts_word_app l b i : (i < length l)%nat -> starts_word (l ++ [b]) i <-> starts_word l i.
Proof.
  intros Hi. unfold starts_word. rewrite lookup_app_l by done. destruct i as [|j]; [done|]. by rewrite (lookup_app_l _ _ j) by lia.
Qed.
Lemma starts_word_last l b : starts_word (l ++ [b]) (length l) <-> blank b = false /\ default true (blank <$> last l) = true.
Proof.
  unfold starts_word. rewrite list_lookup_middle by done. apply and_iff_compat_l.
  destruct l as [|c l _] using rev_ind; [done|]. rewrite last_snoc, length_app, Nat.add_1_r.
  by rewrite <- app_assoc, (list_lookup_middle l [b] c) by done.
Qed.
Lemma filter_iff_in {A} (P Q : A -> Prop) `{forall x, Decision (P x), forall x, Decision (Q x)} (l : list A) :
  (forall x, x ∈ l -> P x <-> Q x) -> filter P l = filter Q l.
Proof.
  induction l as [|x l IH]; intros Hl; [done|]. rewrite !filter_cons, IH by (intros; apply Hl; by right).
  pose proof (Hl x ltac:(by left)). do 2 case_decide; naive_solver.
Qed.
Lemma count_of_spec l : count_of l =
  mkCount (newlines l) (word_count l) (Z.of_nat (length l)) (negb (default true (blank <$> last l))).
Proof.
  induction l as [|b l IH] using rev_ind; [done|]. unfold count_of in *. rewrite fold_left_app, IH. cbn [fold_left].
  unfold count_byte. cbn [lines words bytes inword]. rewrite last_snoc. f_equal.
  - unfold newlines. rewrite filter_app, length_app, filter_cons, filter_nil. case_decide; cbn [length]; lia.
  - unfold word_count. rewrite length_app, seq_app, filter_app, length_app. cbn [length seq plus].
    rewrite filter_cons, filter_nil, (filter_iff_in (starts_word (l ++ [b])) (starts_word l)).
    2: { intros i [_ Hi]%elem_of_seq. apply starts_word_app. lia. }
    pose proof (starts_word_last l b) as HL.
    destruct (blank b), (default true (blank <$> last l)); cbn [negb orb]; case_decide as D; cbn [length]; first [lia|naive_solver].
  - rewrite length_app. cbn [length]. lia.
Qed.
Lemma newlines_le l : newlines l <= Z.of_nat (length l).
Proof. unfold newlines. pose proof (length_filter (fun b => b = 10) l). lia. Qed.
Lemma word_count_le l : word_count l <= Z.of_nat (length l).
Proof. unfold word_count. pose proof (length_filter (starts_word l) (seq 0 (length l))) as H. rewrite length_seq in H. lia. Qed.

(** ** The programs *)

Section Programs.
Context {S : Type} `{FileSys S}.

Lemma puts_run fd l (s : S) : is_Some (outs (view s) !! fd) ->
  exists s', for_each ((fun c => (fd, c)) <$> l) (fun x => write x.1 [x.2] ;; ret tt) s = Ok tt s' /\ view s' = say fd l (view s).
Proof.
  revert s. induction l as [|c l IH]; intros s Ho; [exists s; by rewrite say_nil|]. cbn [fmap list_fmap for_each fst snd].
  destruct (write_all s fd [c] Ho) as (t & E & V).
  rewrite (bind_ok (write fd [c] ;; ret tt) _ s tt t) by (by rewrite (bind_ok _ _ _ _ _ E)).
  destruct (IH t) as (s' & E' & V'); [by rewrite V, say_outs|]. exists s'. split; [done|]. by rewrite V', V, say_app.
Qed.
Lemma fprintf_run fd ps ap (s : S) : typed ps ap -> Forall is_byte (render User.digits ps ap) -> is_Some (outs (view s) !! fd) ->
  exists s', fprintf fd (format_of ps) ap s = Ok tt s' /\ view s' = say fd (render User.digits ps ap) (view s).
Proof.
  intros Ht Hb Ho. unfold fprintf. rewrite (user_run fd ps ap [] Ht). cbn [app].
  assert ((fun c => (fd, u8 c)) <$> render User.digits ps ap = (fun c => (fd, c)) <$> render User.digits ps ap) as ->.
  { rewrite <- (u8_bytes _ Hb) at 2. by rewrite <- list_fmap_compose. }
  by apply puts_run.
Qed.

(** One file argument is opened, worked on and closed. *)
Definition message (prog name : list Z) : list Z := prog ++ chars ": cannot open " ++ name ++ NL.
Lemma message_run fd prog name (s : S) : Forall (fun c => c <> PERCENT /\ is_byte c) prog -> Forall is_byte name -> is_Some (outs (view s) !! fd) ->
  exists s', fprintf fd (prog ++ chars ": cannot open %s" ++ NL) [AStr (Some name)] s = Ok tt s' /\ view s' = say fd (message prog name) (view s).
Proof.
  intros Hp Hn Ho. set (ps := (Lit <$> (prog ++ chars ": cannot open ")) ++ [Conv CStr false; Lit 10]).
  assert (format_of ps = prog ++ chars ": cannot open %s" ++ NL) as <-.
  { unfold ps, format_of. rewrite bind_app, fmap_app. rewrite bind_app, <- app_assoc.
    assert (forall l, (Lit <$> l) ≫= write_piece = l) as HL by (induction l as [|c l IH]; [done|]; cbn; by f_equal).
    by rewrite !HL. }
  assert (render User.digits ps [AStr (Some name)] = message prog name) as E.
  { unfold ps. rewrite render_lits. cbn [render text default]. by rewrite <- app_assoc. }
  rewrite <- E. apply fprintf_run; [|rewrite E|done].
  - apply typed_lits; [|repeat (constructor; try done)]. apply Forall_app; split; [by eapply Forall_impl; [done|]; intros ? [? _]|].
    by apply (bool_decide_unpack _).
  - unfold message. repeat (apply Forall_app; split); try done; [by eapply Forall_impl; [done|]; intros ? [_ ?]|..];
      unfold is_byte; by apply (bool_decide_unpack _).
Qed.

Section Each.
Context (efd : Z) (prog : list Z) (work : Z -> list Z -> M S (ended unit)) (text : list Z -> list Z -> list Z).
Context (Hprog : Forall (fun c => c <> PERCENT /\ is_byte c) prog).

Definition each_file (a : list Z) : M S (ended unit) :=
  let! fd := open_ a O_RDONLY in
  if decide (fd < 0) then fprintf efd (prog ++ chars ": cannot open %s" ++ NL) [AStr (Some a)] ;; ret (Exit 1)
  else
    let! r := work fd a in
    match r with Exit n => ret (Exit n) | Returned _ => close fd ;; ret (Returned tt) end.

(** What [work] does with a readable descriptor. *)
Definition works_on (a l : list Z) : Prop := forall fd s, ins (view s) !! fd = Some l -> is_Some (outs (view s) !! 1) ->
  exists s', work fd a s = Ok (Returned tt) s' /\ view s' = left_at fd [] (say 1 (text a l) (view s)).

Lemma each_found a l s : works_on a l -> disk (view s) !! a = Some l -> room (view s) -> is_Some (outs (view s) !! 1) ->
  exists s', each_file a s = Ok (Returned tt) s' /\ view s' = say 1 (text a l) (view s).
Proof.
  intros Hw Hd Hr Ho. destruct (open_file s a l Hd Hr) as (fd & t & E & Hfd & Hnew & V). unfold each_file.
  rewrite (bind_ok _ _ _ _ _ E), decide_False by lia.
  destruct (Hw fd t) as (t' & E' & V'); [rewrite V; by apply lookup_insert_eq|by rewrite V|].
  rewrite (bind_ok _ _ _ _ _ E').
  destruct (close_input t' fd) as (t'' & E'' & V''); [rewrite V'; by eexists; apply lookup_insert_eq|].
  rewrite (bind_ok _ _ _ _ _ E''). exists t''. split; [done|]. rewrite V'', V', V.
  change (left_at fd [] (say 1 (text a l) (left_at fd l (view s)))) with (left_at fd [] (left_at fd l (say 1 (text a l) (view s)))).
  by rewrite left_twice, shut_fresh.
Qed.
Lemma each_missing a s : Forall is_byte a -> disk (view s) !! a = None -> is_Some (outs (view s) !! efd) ->
  exists s', each_file a s = Ok (Exit 1) s' /\ view s' = say efd (message prog a) (view s).
Proof.
  intros Ha Hd Ho. destruct (open_missing s a Hd) as (t & E & V). unfold each_file.
  rewrite (bind_ok _ _ _ _ _ E), decide_True by lia. destruct (message_run efd prog a t Hprog Ha) as (s' & E' & V'); [by rewrite V|].
  rewrite (bind_ok _ _ _ _ _ E'). exists s'. split; [done|]. by rewrite V', V.
Qed.

(** The arguments up to the first that does not exist. *)
Definition reads_args (w : world) (found : list (list Z * list Z)) (rest : list (list Z)) : Prop :=
  Forall (fun x => disk w !! x.1 = Some x.2) found /\
  match rest with [] => True | a :: _ => disk w !! a = None /\ Forall is_byte a end.
Definition texts (found : list (list Z * list Z)) : list Z := found ≫= fun x => text x.1 x.2.

Lemma each_run found rest s : Forall (fun x => works_on x.1 x.2) found -> reads_args (view s) found rest -> room (view s) ->
  is_Some (outs (view s) !! 1) -> is_Some (outs (view s) !! efd) ->
  exists s', for_args ((fst <$> found) ++ rest) each_file s = Ok (match rest with [] => Returned tt | _ => Exit 1 end) s' /\
    view s' = match rest with [] => say 1 (texts found) (view s) | a :: _ => say efd (message prog a) (say 1 (texts found) (view s)) end.
Proof.
  intros Hw. revert s. induction Hw as [|[a l] found Hal _ IH]; intros s [Hf Hrest] Hr H1 H2.
  - unfold texts. cbn [mbind list_bind fmap list_fmap app]. rewrite say_nil. destruct rest as [|a rest]; [by exists s|].
    destruct Hrest as [Hd Hb]. destruct (each_missing a s Hb Hd H2) as (s' & E & V). exists s'. split; [|done].
    cbn [for_args]. by rewrite (bind_ok _ _ _ _ _ E).
  - apply Forall_cons in Hf as [Hd Hf]. destruct (each_found a l s Hal Hd Hr H1) as (t & E & V).
    destruct (IH t) as (s' & E' & V'); [rewrite V; by split|by rewrite V, say_room|by rewrite V, say_outs|by rewrite V, say_outs|].
    exists s'. cbn [fmap list_fmap app for_args fst]. rewrite (bind_ok _ _ _ _ _ E). split; [done|]. rewrite V', V.
    destruct rest; by rewrite say_app.
Qed.
End Each.

Lemma cat_run fuel fd l (s : S) : (length l < fuel)%nat -> ins (view s) !! fd = Some l -> is_Some (outs (view s) !! 1) ->
  exists s', cat fuel fd s = Ok (Returned tt) s' /\ view s' = left_at fd [] (say 1 l (view s)).
Proof.
  revert l s. induction fuel as [|fuel IH]; intros l s Hf Hi Ho; [lia|]. cbn [cat].
  destruct (read_some s fd 512 l Hi ltac:(lia)) as (buf & rest & t & -> & Hn & Hend & E & V). rewrite (bind_ok _ _ _ _ _ E).
  destruct buf as [|b buf].
  - specialize (Hend eq_refl). cbn in Hend. subst rest. exists t. by rewrite V, say_nil.
  - destruct (write_all t 1 (b :: buf)) as (u & E' & V'); [by rewrite V|]. rewrite (bind_ok _ _ _ _ _ E').
    rewrite decide_False by (intros Hne; by apply Hne). rewrite length_app in Hf. cbn [length] in Hf.
    destruct (IH rest u) as (s' & E'' & V''); [lia|rewrite V', V; by apply lookup_insert_eq|by rewrite V', say_outs, V|].
    exists s'. split; [done|]. rewrite V'', V', V.
    change (say 1 (b :: buf) (left_at fd rest (view s))) with (left_at fd rest (say 1 (b :: buf) (view s))).
    change (say 1 rest (left_at fd rest (say 1 (b :: buf) (view s)))) with (left_at fd rest (say 1 rest (say 1 (b :: buf) (view s)))).
    by rewrite left_twice, say_app.
Qed.

Lemma incr_run x (s : S) : 0 <= x < INT_MAX -> incr x s = Ok (x + 1) s.
Proof. intros Hx. unfold incr. rewrite decide_True; [done|]. unfold in_int, INT_MIN, INT_MAX in *. lia. Qed.
(** The counts never exceed the number of bytes. *)
Definition bounded (k : count) : Prop := 0 <= lines k <= bytes k /\ 0 <= words k <= bytes k.
Lemma wc_byte_run k b (s : S) : bounded k -> bytes k < INT_MAX -> wc_byte k b s = Ok (count_byte k b) s /\ bounded (count_byte k b).
Proof.
  intros [Hl Hw] Hc. unfold wc_byte. rewrite (bind_ok (incr (bytes k)) _ s (bytes k + 1) s) by (apply incr_run; lia).
  unfold bounded, count_byte. cbn [lines words bytes]. split.
  - rewrite (bind_ok (if decide (b = 10) then incr (lines k) else ret (lines k)) _ s (lines k + if decide (b = 10) then 1 else 0) s).
    2: { case_decide; [apply incr_run; lia|by rewrite Z.add_0_r]. }
    destruct (blank b) eqn:B; cbn [orb negb]; [by rewrite Z.add_0_r|]. destruct (inword k) eqn:I; cbn [negb]; [by rewrite Z.add_0_r|].
    by rewrite (bind_ok (incr (words k)) _ s (words k + 1) s) by (apply incr_run; lia).
  - case_decide; destruct (blank b || inword k); lia.
Qed.
Lemma wc_buf_run buf k (s : S) : bounded k -> bytes k + Z.of_nat (length buf) <= INT_MAX ->
  wc_buf k buf s = Ok (fold_left count_byte buf k) s /\ bounded (fold_left count_byte buf k).
Proof.
  revert k. induction buf as [|b buf IH]; intros k Hk Hc; [done|]. cbn [wc_buf fold_left length] in *.
  destruct (wc_byte_run k b s Hk ltac:(lia)) as [E Hk']. rewrite (bind_ok _ _ _ _ _ E). apply IH; [done|].
  unfold count_byte. cbn [bytes]. lia.
Qed.
Lemma count_bytes l k : bytes (fold_left count_byte l k) = bytes k + Z.of_nat (length l).
Proof. revert k. induction l as [|b l IH]; intros k; cbn [fold_left length]; [lia|]. rewrite IH. unfold count_byte. cbn [bytes]. lia. Qed.
Lemma wc_loop_run fuel fd l k (s : S) : (length l < fuel)%nat -> ins (view s) !! fd = Some l -> bounded k ->
  bytes k + Z.of_nat (length l) <= INT_MAX ->
  exists s', wc_loop fuel fd k s = Ok (Returned (fold_left count_byte l k)) s' /\ view s' = left_at fd [] (view s).
Proof.
  revert l k s. induction fuel as [|fuel IH]; intros l k s Hf Hi Hk Hc; [lia|]. cbn [wc_loop].
  destruct (read_some s fd 512 l Hi ltac:(lia)) as (buf & rest & t & -> & Hn & Hend & E & V). rewrite (bind_ok _ _ _ _ _ E).
  destruct buf as [|b buf].
  - specialize (Hend eq_refl). cbn in Hend. subst rest. exists t. by rewrite V.
  - rewrite length_app in Hf, Hc. rewrite fold_left_app. set (l := b :: buf) in *.
    destruct (wc_buf_run l k t Hk ltac:(lia)) as [E' Hk']. rewrite (bind_ok _ _ _ _ _ E').
    assert (0 < length l)%nat by (cbn; lia).
    destruct (IH rest (fold_left count_byte l k) t) as (s' & E'' & V''); [lia|rewrite V; by apply lookup_insert_eq|done|rewrite count_bytes; lia|].
    exists s'. split; [done|]. by rewrite V'', V, left_twice.
Qed.

(** The line that wc prints. *)
Definition wc_line (name l : list Z) : list Z :=
  numeral (newlines l) ++ [32] ++ numeral (word_count l) ++ [32] ++ numeral (Z.of_nat (length l)) ++ [32] ++ name ++ NL.
Definition int_piece : piece := Conv (CInt false 10 true) false.
Definition wc_pieces : list piece := [int_piece; Lit 32; int_piece; Lit 32; int_piece; Lit 32; Conv CStr false; Lit 10].
Lemma wc_render a b c name : 0 <= a <= INT_MAX -> 0 <= b <= INT_MAX -> 0 <= c <= INT_MAX ->
  render User.digits wc_pieces [AReg a; AReg b; AReg c; AStr (Some name)] =
  numeral a ++ [32] ++ numeral b ++ [32] ++ numeral c ++ [32] ++ name ++ NL.
Proof.
  intros Ha Hb Hc. cbn [wc_pieces int_piece render text default int_of app].
  by rewrite !i32_small by (unfold in_int, INT_MIN, INT_MAX in *; lia).
Qed.
Lemma wc_run fuel fd name l (s : S) : (length l < fuel)%nat -> Z.of_nat (length l) <= INT_MAX -> Forall is_byte name ->
  ins (view s) !! fd = Some l -> is_Some (outs (view s) !! 1) ->
  exists s', wc fuel fd name s = Ok (Returned tt) s' /\ view s' = left_at fd [] (say 1 (wc_line name l) (view s)).
Proof.
  intros Hf Hmax Hn Hi Ho. unfold wc.
  destruct (wc_loop_run fuel fd l (mkCount 0 0 0 false) s Hf Hi) as (t & E & V); [by split|done|].
  rewrite (bind_ok _ _ _ _ _ E). fold (count_of l). rewrite count_of_spec. cbn [lines words bytes].
  pose proof (newlines_le l). pose proof (word_count_le l).
  assert (0 <= newlines l /\ 0 <= word_count l) as [? ?] by (unfold newlines, word_count; lia).
  pose proof (wc_render (newlines l) (word_count l) (Z.of_nat (length l)) name ltac:(lia) ltac:(lia) ltac:(lia)) as R.
  change wc_format with (format_of wc_pieces). unfold printf.
  match goal with |- context [fprintf 1 (format_of wc_pieces) ?ap] => destruct (fprintf_run 1 wc_pieces ap t) as (s' & E' & V') end.
  - repeat first [apply ty_nil|apply ty_lit; [done|]|apply ty_int; [by left|done|]|apply ty_str].
  - assert (Forall is_byte [32] /\ Forall is_byte NL) as [? ?] by (by repeat constructor).
    rewrite R. rewrite !Forall_app. split_and!; try done; apply numeral_bytes; lia.
  - by rewrite V.
  - rewrite (bind_ok _ _ _ _ _ E'). exists s'. split; [done|]. rewrite V', V, R. done.
Qed.

(** echo: the arguments, separated by blanks, and a newline. *)
Definition echo_text (args : list (list Z)) : list Z :=
  match args with [] => [] | a :: args => a ++ (args ≫= cons 32) ++ NL end.
Lemma echo_run args (s : S) : is_Some (outs (view s) !! 1) ->
  exists s', echo args s = Ok tt s' /\ view s' = say 1 (echo_text args) (view s).
Proof.
  revert s. induction args as [|a rest IH]; intros s Ho; [exists s; by rewrite say_nil|]. cbn [echo].
  destruct (write_all s 1 a Ho) as (t & E & V). rewrite (bind_ok _ _ _ _ _ E).
  assert (is_Some (outs (view t) !! 1)) as Ht by (by rewrite V, say_outs).
  destruct rest as [|b rest].
  - destruct (write_all t 1 NL Ht) as (u & E' & V'). rewrite (bind_ok _ _ _ _ _ E'). exists u. split; [done|]. by rewrite V', V, say_app.
  - destruct (write_all t 1 [32] Ht) as (u & E' & V'). rewrite (bind_ok _ _ _ _ _ E').
    destruct (IH u) as (s' & E'' & V''); [by rewrite V', say_outs|]. exists s'. split; [done|]. rewrite V'', V', V, !say_app.
    f_equal. unfold echo_text. cbn [mbind list_bind]. by rewrite <- !app_assoc.
Qed.
End Programs.

(** cat writes what its files hold.  In every system that keeps the promises of [FileSys],
    however short its reads are, cat with the paths of existing files, up to the first path
    that does not exist, appends exactly the concatenation of their contents to descriptor 1,
    closes what it has opened and exits with 0; at a missing file it names it on descriptor 2,
    looks at no later argument and exits with 1.  Without arguments it copies what is left on
    descriptor 0. *)
Lemma cat_concatenates {S} `{FileSys S} fuel name found rest l0 (s : S) :
  reads_args (view s) found rest -> room (view s) -> is_Some (outs (view s) !! 1) -> is_Some (outs (view s) !! 2) ->
  Forall (fun x => (length x.2 < fuel)%nat) found -> (fst <$> found) ++ rest <> [] ->
  ins (view s) !! 0 = Some l0 -> (length l0 < fuel)%nat ->
  (exists s', cat_main fuel (name :: (fst <$> found) ++ rest) s = Ok (match rest with [] => 0 | _ => 1 end) s' /\
     let written := say 1 (concat (snd <$> found)) (view s) in
     view s' = match rest with [] => written | a :: _ => say 2 (chars "cat: cannot open " ++ a ++ NL) written end) /\
  (exists s', cat_main fuel [name] s = Ok 0 s' /\ view s' = left_at 0 [] (say 1 l0 (view s))).
Proof.
  intros Hr Hroom H1 H2 Hf Hne H0' Hf0. split.
  - destruct (each_run 2 (chars "cat") (fun fd _ => cat fuel fd) (fun _ l => l)) with (found := found) (rest := rest) (s := s)
      as (s' & E & V); try done.
    + apply (bool_decide_unpack _). unfold is_byte. by vm_compute.
    + eapply Forall_impl; [exact Hf|]. intros [a l] Hl fd t Hi Ho. by apply cat_run.
    + exists s'. unfold cat_main. cbn [tail]. destruct ((fst <$> found) ++ rest) as [|a args]; [done|].
      cbv zeta. rewrite (bind_ok _ _ _ _ _ E). split; [by destruct rest|]. rewrite V.
      assert (texts (fun _ l => l) found = concat (snd <$> found)) as -> by (clear; induction found as [|[a l] found IH]; cbn in *; by f_equal).
      by destruct rest.
  - destruct (cat_run fuel 0 l0 s Hf0 H0' H1) as (s' & E & V). exists s'. unfold cat_main. cbn [tail].
    by rewrite (bind_ok _ _ _ _ _ E).
Qed.

(** C21: wc counts as the reference does.  In every system that keeps the promises of [FileSys],
    and however its reads cut a file into pieces, wc prints one line for each file before the
    first that does not exist: the number of its newlines, the number of positions where a
    word starts (a byte that is no blank, first or after a blank), the number of its bytes, in
    decimal, and the name.  No counter overflows on files of at most INT_MAX bytes.  It exits
    with 0, or with 1 after naming the missing file. *)
Theorem wc_counts {S} `{FileSys S} fuel name found rest (s : S) :
  reads_args (view s) found rest -> room (view s) -> is_Some (outs (view s) !! 1) ->
  Forall (fun x => Forall is_byte x.1 /\ (length x.2 < fuel)%nat /\ Z.of_nat (length x.2) <= INT_MAX) found ->
  (fst <$> found) ++ rest <> [] ->
  exists s', wc_main fuel (name :: (fst <$> found) ++ rest) s = Ok (match rest with [] => 0 | _ => 1 end) s' /\
    let written := say 1 (concat ((fun x => wc_line x.1 x.2) <$> found)) (view s) in
    view s' = match rest with [] => written | a :: _ => say 1 (chars "wc: cannot open " ++ a ++ NL) written end.
Proof.
  intros Hr Hroom H1 Hf Hne.
  destruct (each_run 1 (chars "wc") (fun fd a => wc fuel fd a) wc_line) with (found := found) (rest := rest) (s := s)
    as (s' & E & V); try done.
  - apply (bool_decide_unpack _). unfold is_byte. by vm_compute.
  - eapply Forall_impl; [exact Hf|]. intros [a l] (Hb & Hl & Hm) fd t Hi Ho. by apply wc_run.
  - exists s'. unfold wc_main. cbn [tail]. destruct ((fst <$> found) ++ rest) as [|a args]; [done|].
    cbv zeta. rewrite (bind_ok _ _ _ _ _ E). split; [by destruct rest|]. rewrite V.
    assert (texts wc_line found = concat ((fun x => wc_line x.1 x.2) <$> found)) as ->
      by (clear; induction found as [|[a l] found IH]; cbn in *; by f_equal).
    by destruct rest.
Qed.

(** ** A system that keeps the promises, with reads of at most three bytes *)

Module Memory.

Definition used (w : world) : gset Z := dom (ins w) ∪ dom (outs w).
Definition free_fds (w : world) : list Z := filter (fun fd => fd ∉ used w) (seqZ 0 (Z.of_nat NOFILE)).
#[export] Instance memory_sys : Sys world := {|
  read fd n w := match ins w !! fd with
                 | Some l => let k := Nat.min 3 (Z.to_nat n) in Ok (Some (take k l)) (left_at fd (drop k l) w)
                 | None => Ok None w
                 end;
  write fd l w := match outs w !! fd with Some _ => Ok (Z.of_nat (length l)) (say fd l w) | None => Ok (-1) w end;
  open_ p _ w := match disk w !! p, free_fds w with Some l, fd :: _ => Ok fd (left_at fd l w) | _, _ => Ok (-1) w end;
  close fd w := if decide (is_Some (ins w !! fd)) then Ok 0 (shut fd w) else Ok (-1) w;
  fstat fd w := Ok (None) w;
  unlink p w := if decide (is_Some (disk w !! p)) then Ok 0 (mkWorld (delete p (disk w)) (ins w) (outs w)) else Ok (-1) w;
  mkdir p w := Ok (-1) w;
  link p q w := Ok (-1) w;
  kill pid w := Ok (-1) w;
|}.
Lemma free_some w : room w -> exists fd l, free_fds w = fd :: l /\ 0 <= fd /\ ins w !! fd = None.
Proof.
  intros Hr. destruct (free_fds w) as [|fd l] eqn:E.
  - exfalso. assert (list_to_set (seqZ 0 (Z.of_nat NOFILE)) ⊆ used w) as Hs.
    { intros x Hx%elem_of_list_to_set. destruct (decide (x ∈ used w)) as [|Hn]; [done|].
      assert (x ∈ free_fds w) as Hf by (by apply list_elem_of_filter). rewrite E in Hf. by apply not_elem_of_nil in Hf. }
    apply subseteq_size in Hs. rewrite size_list_to_set, length_seqZ in Hs by apply NoDup_seqZ.
    unfold room in Hr. unfold used in Hs. unfold NOFILE in *. lia.
  - assert (fd ∈ free_fds w) as Hf by (rewrite E; by left). apply list_elem_of_filter in Hf as [Hn Hin%elem_of_seqZ].
    exists fd, l. split_and!; [done|lia|]. apply not_elem_of_dom. unfold used in Hn. set_solver.
Qed.
#[export, program] Instance memory_file_sys : FileSys world := {| view w := w |}.
Next Obligation.
  intros w fd n l Hl Hn. set (k := Nat.min 3 (Z.to_nat n)). exists (take k l), (drop k l), (left_at fd (drop k l) w).
  cbn [read memory_sys]. rewrite Hl. fold k. split_and!; [by rewrite take_drop|rewrite length_take; unfold k; lia| |done|done].
  intros E. apply (f_equal length) in E. rewrite length_take in E. unfold k in E. cbn [length] in E. apply nil_length_inv. lia.
Qed.
Next Obligation. intros w fd l [o Ho]. cbn. rewrite Ho. by eexists. Qed.
Next Obligation.
  intros w p l Hp Hr. destruct (free_some w Hr) as (fd & r & E & Hfd & Hi). cbn. rewrite Hp, E. by exists fd, (left_at fd l w).
Qed.
Next Obligation. intros w p Hp. cbn. rewrite Hp. by exists w. Qed.
Next Obligation. intros w fd Hi. cbn. rewrite decide_True by done. by eexists. Qed.

Definition a_txt : list Z := chars "one two" ++ NL ++ chars "three" ++ NL.
Definition start : world :=
  mkWorld {[ chars "a" := a_txt; chars "b" := chars " x" ]} {[ 0 := chars "typed" ]} {[ 1 := []; 2 := [] ]}.

End Memory.
Import Memory.

Lemma start_reads : reads_args Memory.start [(chars "a", Memory.a_txt); (chars "b", chars " x")] [chars "c"] /\ room Memory.start.
Proof.
  split; [|unfold room; by apply (bool_decide_unpack _); vm_compute]. split; [repeat constructor|]. split; [done|]. unfold is_byte. by apply (bool_decide_unpack _).
Qed.
Lemma start_outs : is_Some (outs Memory.start !! 1) /\ is_Some (outs Memory.start !! 2).
Proof. split; by eexists. Qed.

Example cat_three_files : exists w,
  cat_main 100 [chars "cat"; chars "a"; chars "b"; chars "c"] Memory.start = Ok 1 w /\
  w = say 2 (chars "cat: cannot open c" ++ NL) (say 1 (Memory.a_txt ++ chars " x") Memory.start).
Proof.
  destruct start_reads as [Hr Hroom]. destruct start_outs as [H1 H2].
  destruct (cat_concatenates 100 (chars "cat") [(chars "a", Memory.a_txt); (chars "b", chars " x")] [chars "c"] (chars "typed") Memory.start)
    as [(w & E & V) _]; [exact Hr|exact Hroom|exact H1|exact H2|repeat constructor; cbn; lia|discriminate|reflexivity|cbn; lia|].
  exists w. split; [exact E|exact V].
Qed.
Lemma wc_counts_witness : exists w,
  wc_main 100 [chars "wc"; chars "a"; chars "b"; chars "c"] Memory.start = Ok 1 w /\
  w = say 1 (chars "wc: cannot open c" ++ NL) (say 1 (chars "2 3 14 a" ++ NL ++ chars "0 1 2 b" ++ NL) Memory.start).
Proof.
  destruct start_reads as [Hr Hroom]. destruct start_outs as [H1 _].
  destruct (wc_counts 100 (chars "wc") [(chars "a", Memory.a_txt); (chars "b", chars " x")] [chars "c"] Memory.start)
    as (w & E & V); [exact Hr|exact Hroom|exact H1| |discriminate|].
  - repeat (apply List.Forall_cons || apply List.Forall_nil); unfold is_byte, INT_MAX; cbn;
      (split; [repeat constructor; lia|split; lia]).
  - exists w. split; [exact E|exact V].
Defined.
