(* ===== verification/Virtio.v ===== *)
(** * kernel/virtio_disk.c: the disk driver

    The queue that the driver shares with the device: descriptors, the ring of available
    requests and the ring of used ones.  An address that the driver hands to the device is
    the object it points to ([ptr]); a buffer is its index.  The registers are read through
    a function and the writes to them recorded.  A process that has to wait ends [Blocked],
    the lock released, and goes on with [rw_wait] or a new [rw_start] when it is woken. *)

From Stdlib Require Import ZArith Lia.
From stdpp Require Import base numbers list gmap strings.
From S2P Require Import Prelude.
Open Scope Z_scope.

Definition NUM : Z := 8.
Definition BSIZE : Z := 1024.
Definition VIRTIO_BLK_T_IN : Z := 0.
Definition VIRTIO_BLK_T_OUT : Z := 1.
Definition F_NEXT : Z := 1.
Definition F_WRITE : Z := 2.

Inductive ptr : Type := PNull | POp (i : Z) | PData (b : nat) | PStatus (i : Z).
#[export] Instance ptr_dec : EqDecision ptr.
Proof. solve_decision. Defined.

Record desc : Type := mkDesc { addr : ptr; len : Z; flags : Z; next : Z }.
Definition no_desc : desc := mkDesc PNull 0 0 0.
Record blk_req : Type := mkReq { rtype : Z; reserved : Z; sector : Z }.
Record info_t : Type := mkInfo { info_b : option nat; status : Z }.
(** What the driver uses of struct buf. *)
Record buf : Type := mkBuf { blockno : Z; bdisk : bool; data : list Z }.
Definition set_bdisk v b := mkBuf (blockno b) v (data b).
Definition set_data v b := mkBuf (blockno b) (bdisk b) v.

Record disk : Type := mkDisk {
  vlock : bool;
  free : list bool;
  descs : list desc;
  avail_ring : list Z; avail_idx : Z;
  used_ring : list Z; used_i : Z;
  used_idx : Z;
  infos : list info_t;
  ops : list blk_req;
  bufs : list buf;
  regs : list (Z * Z);      (* writes to device registers, the latest first *)
  woken : list Z;           (* channels passed to wakeup, the latest first *)
}.
Definition with_vlock v s := mkDisk v (free s) (descs s) (avail_ring s) (avail_idx s) (used_ring s) (used_i s) (used_idx s) (infos s) (ops s) (bufs s) (regs s) (woken s).
Definition with_free v s := mkDisk (vlock s) v (descs s) (avail_ring s) (avail_idx s) (used_ring s) (used_i s) (used_idx s) (infos s) (ops s) (bufs s) (regs s) (woken s).
Definition with_descs v s := mkDisk (vlock s) (free s) v (avail_ring s) (avail_idx s) (used_ring s) (used_i s) (used_idx s) (infos s) (ops s) (bufs s) (regs s) (woken s).
Definition with_avail r i s := mkDisk (vlock s) (free s) (descs s) r i (used_ring s) (used_i s) (used_idx s) (infos s) (ops s) (bufs s) (regs s) (woken s).
Definition with_used r i s := mkDisk (vlock s) (free s) (descs s) (avail_ring s) (avail_idx s) r i (used_idx s) (infos s) (ops s) (bufs s) (regs s) (woken s).
Definition with_used_idx v s := mkDisk (vlock s) (free s) (descs s) (avail_ring s) (avail_idx s) (used_ring s) (used_i s) v (infos s) (ops s) (bufs s) (regs s) (woken s).
Definition with_infos v s := mkDisk (vlock s) (free s) (descs s) (avail_ring s) (avail_idx s) (used_ring s) (used_i s) (used_idx s) v (ops s) (bufs s) (regs s) (woken s).
Definition with_reqs v s := mkDisk (vlock s) (free s) (descs s) (avail_ring s) (avail_idx s) (used_ring s) (used_i s) (used_idx s) (infos s) v (bufs s) (regs s) (woken s).
Definition with_bufs v s := mkDisk (vlock s) (free s) (descs s) (avail_ring s) (avail_idx s) (used_ring s) (used_i s) (used_idx s) (infos s) (ops s) v (regs s) (woken s).
Definition with_regs v s := mkDisk (vlock s) (free s) (descs s) (avail_ring s) (avail_idx s) (used_ring s) (used_i s) (used_idx s) (infos s) (ops s) (bufs s) v (woken s).
Definition with_woken v s := mkDisk (vlock s) (free s) (descs s) (avail_ring s) (avail_idx s) (used_ring s) (used_i s) (used_idx s) (infos s) (ops s) (bufs s) (regs s) v.

(** The channels: &disk.free[0] and the buffers. *)
Definition free_chan : Z := -2.
Definition buf_chan (b : nat) : Z := Z.of_nat b.

Definition acquire : M disk unit := fun s => if vlock s then Fault (Panic "acquire") else Ok tt (with_vlock true s).
Definition release : M disk unit := fun s => if vlock s then Ok tt (with_vlock false s) else Fault (Panic "release").
Definition wakeup (c : Z) : M disk unit := modify (fun s => with_woken (c :: woken s) s).
Definition write_reg (r v : Z) : M disk unit := modify (fun s => with_regs ((r, v) :: regs s) s).

(** One element of an array of the state, read and updated. *)
Definition at_ {A} (get : disk -> list A) (i : Z) : M disk A := fun s => from_option "array index" (arr_get (get s) i) s.
Definition upd {A} (get : disk -> list A) (put : list A -> disk -> disk) (i : Z) (f : A -> A) : M disk unit :=
  let! x := at_ get i in modify (fun s => put (<[Z.to_nat i := f x]> (get s)) s).
Definition upd_desc : Z -> (desc -> desc) -> M disk unit := upd descs with_descs.
Definition upd_free (i : Z) (v : bool) : M disk unit := upd free with_free i (fun _ => v).
Definition upd_info : Z -> (info_t -> info_t) -> M disk unit := upd infos with_infos.
Definition upd_op : Z -> (blk_req -> blk_req) -> M disk unit := upd ops with_reqs.
Definition upd_buf (b : nat) : (buf -> buf) -> M disk unit := upd bufs with_bufs (Z.of_nat b).

(** ** Registers *)

Definition MMIO_MAGIC_VALUE : Z := 0.
Definition MMIO_VERSION : Z := 4.
Definition MMIO_DEVICE_ID : Z := 8.
Definition MMIO_VENDOR_ID : Z := 12.
Definition MMIO_DEVICE_FEATURES : Z := 16.
Definition MMIO_DRIVER_FEATURES : Z := 32.
Definition MMIO_QUEUE_SEL : Z := 48.
Definition MMIO_QUEUE_NUM_MAX : Z := 52.
Definition MMIO_QUEUE_NUM : Z := 56.
Definition MMIO_QUEUE_READY : Z := 68.
Definition MMIO_QUEUE_NOTIFY : Z := 80.
Definition MMIO_INTERRUPT_STATUS : Z := 96.
Definition MMIO_INTERRUPT_ACK : Z := 100.
Definition MMIO_STATUS : Z := 112.
Definition MMIO_QUEUE_DESC_LOW : Z := 128.
Definition MMIO_QUEUE_DESC_HIGH : Z := 132.
Definition MMIO_DRIVER_DESC_LOW : Z := 144.
Definition MMIO_DRIVER_DESC_HIGH : Z := 148.
Definition MMIO_DEVICE_DESC_LOW : Z := 160.
Definition MMIO_DEVICE_DESC_HIGH : Z := 164.
Definition S_ACKNOWLEDGE : Z := 1.
Definition S_DRIVER : Z := 2.
Definition S_DRIVER_OK : Z := 4.
Definition S_FEATURES_OK : Z := 8.
(** Features the driver turns off: RO, SCSI, CONFIG_WCE, MQ, ANY_LAYOUT, EVENT_IDX, INDIRECT_DESC. *)
Definition unwanted : list Z := [5; 7; 11; 12; 27; 29; 28].

(** [rd] is what reading a register gives, [kalloc] the three pages that are allocated, 0 for
    a failure. *)
Definition virtio_disk_init (rd : Z -> Z) (kalloc : Z * Z * Z) : M disk unit :=
  modify (with_vlock false) ;;
  if decide (rd MMIO_MAGIC_VALUE <> 0x74726976 \/ rd MMIO_VERSION <> 2 \/ rd MMIO_DEVICE_ID <> 2 \/ rd MMIO_VENDOR_ID <> 0x554d4551)
  then panic "could not find virtio disk"
  else
    write_reg MMIO_STATUS 0 ;;
    write_reg MMIO_STATUS S_ACKNOWLEDGE ;;
    write_reg MMIO_STATUS (Z.lor S_ACKNOWLEDGE S_DRIVER) ;;
    let features := fold_left (fun f bit => Z.land f (Z.lnot (Z.shiftl 1 bit))) unwanted (u32 (rd MMIO_DEVICE_FEATURES)) in
    write_reg MMIO_DRIVER_FEATURES (u32 features) ;;
    write_reg MMIO_STATUS (Z.lor (Z.lor S_ACKNOWLEDGE S_DRIVER) S_FEATURES_OK) ;;
    let status := u32 (rd MMIO_STATUS) in
    if decide (Z.land status S_FEATURES_OK = 0) then panic "virtio disk FEATURES_OK unset"
    else
      write_reg MMIO_QUEUE_SEL 0 ;;
      if decide (rd MMIO_QUEUE_READY <> 0) then panic "virtio disk should not be ready"
      else if decide (u32 (rd MMIO_QUEUE_NUM_MAX) = 0) then panic "virtio disk has no queue 0"
      else if decide (u32 (rd MMIO_QUEUE_NUM_MAX) < NUM) then panic "virtio disk max queue too short"
      else
        let '(pdesc, pavail, pused) := kalloc in
        if decide (pdesc = 0 \/ pavail = 0 \/ pused = 0) then panic "virtio disk kalloc"
        else
          modify (fun s => with_used (replicate (Z.to_nat NUM) 0) 0 (with_avail (replicate (Z.to_nat NUM) 0) 0
                             (with_descs (replicate (Z.to_nat NUM) no_desc) s))) ;;
          write_reg MMIO_QUEUE_NUM NUM ;;
          write_reg MMIO_QUEUE_DESC_LOW (u32 pdesc) ;;
          write_reg MMIO_QUEUE_DESC_HIGH (u32 (Z.shiftr pdesc 32)) ;;
          write_reg MMIO_DRIVER_DESC_LOW (u32 pavail) ;;
          write_reg MMIO_DRIVER_DESC_HIGH (u32 (Z.shiftr pavail 32)) ;;
          write_reg MMIO_DEVICE_DESC_LOW (u32 pused) ;;
          write_reg MMIO_DEVICE_DESC_HIGH (u32 (Z.shiftr pused 32)) ;;
          write_reg MMIO_QUEUE_READY 1 ;;
          for_each (zrange 0 NUM) (fun i => upd_free i true) ;;
          write_reg MMIO_STATUS (Z.lor status S_DRIVER_OK).

(** ** Descriptors *)

Definition alloc_desc : M disk Z :=
  let! r := for_until (zrange 0 NUM) (fun i =>
    let! f := at_ free i in
    if (f : bool) then upd_free i false ;; ret (Some i) else ret None) in
  ret (default (-1) r).

Definition free_desc (i : Z) : M disk unit :=
  if decide (i >= NUM) then panic "free_desc 1"
  else
    let! f := at_ free i in
    if (f : bool) then panic "free_desc 2"
    else
      upd_desc i (fun _ => no_desc) ;;
      upd_free i true ;;
      wakeup free_chan.

Fixpoint free_chain (fuel : nat) (i : Z) : M disk unit :=
  match fuel with
  | O => fun _ => Fault OutOfFuel
  | S fuel =>
      let! d := at_ descs i in
      free_desc i ;;
      if decide (Z.land (flags d) F_NEXT <> 0) then free_chain fuel (next d) else ret tt
  end.

(** The three indices, or nothing with all of them given back. *)
Definition alloc3_desc : M disk (option (Z * Z * Z)) :=
  let! i0 := alloc_desc in
  if decide (i0 < 0) then ret None
  else
    let! i1 := alloc_desc in
    if decide (i1 < 0) then free_desc i0 ;; ret None
    else
      let! i2 := alloc_desc in
      if decide (i2 < 0) then free_desc i0 ;; free_desc i1 ;; ret None
      else ret (Some (i0, i1, i2)).

(** ** Requests *)

(** The descriptors of a request for buffer [b]; the driver sets every field. *)
Definition format (b : nat) (write : bool) (sec i0 i1 i2 : Z) : M disk unit :=
  upd_op i0 (fun _ => mkReq (if write then VIRTIO_BLK_T_OUT else VIRTIO_BLK_T_IN) 0 sec) ;;
  upd_desc i0 (fun _ => mkDesc (POp i0) 16 F_NEXT i1) ;;
  upd_desc i1 (fun _ => mkDesc (PData b) BSIZE (Z.lor (if write then 0 else F_WRITE) F_NEXT) i2) ;;
  upd_info i0 (fun x => mkInfo (info_b x) 255) ;;
  upd_desc i2 (fun _ => mkDesc (PStatus i0) 1 F_WRITE 0).

(** From the entry of virtio_disk_rw to the wait for the device: the head of the chain, or
    sleep until descriptors are free. *)
Definition rw_start (b : nat) (write : bool) : M disk Z :=
  let! x := at_ bufs (Z.of_nat b) in
  let sec := u32 (blockno x * (BSIZE / 512)) in
  acquire ;;
  let! r := alloc3_desc in
  match r with
  | None => release ;; block free_chan
  | Some (i0, i1, i2) =>
      format b write sec i0 i1 i2 ;;
      upd_buf b (set_bdisk true) ;;
      upd_info i0 (fun x => mkInfo (Some b) (status x)) ;;
      let! a := gets avail_idx in
      upd avail_ring (fun l s => with_avail l (avail_idx s) s) (a mod NUM) (fun _ => i0) ;;
      modify (fun s => with_avail (avail_ring s) (u16 (avail_idx s + 1)) s) ;;
      write_reg MMIO_QUEUE_NOTIFY 0 ;;
      ret i0
  end.
(** With the lock held: sleep until the device is done with the buffer, then free the chain. *)
Definition rw_wait (b : nat) (i0 : Z) : M disk unit :=
  let! x := at_ bufs (Z.of_nat b) in
  if bdisk x then release ;; block (buf_chan b)
  else
    upd_info i0 (fun x => mkInfo None (status x)) ;;
    free_chain (Z.to_nat NUM) i0 ;;
    release.
Definition virtio_disk_rw (b : nat) (write : bool) : M disk unit :=
  let! i0 := rw_start b write in rw_wait b i0.

(** ** Completion *)

Fixpoint intr_loop (fuel : nat) : M disk unit :=
  match fuel with
  | O => fun _ => Fault OutOfFuel
  | S fuel =>
      let! s := get in
      if decide (used_idx s = used_i s) then ret tt
      else
        let! id := at_ used_ring (used_idx s mod NUM) in
        let! x := at_ infos id in
        if decide (status x <> 0) then panic "virtio_disk_intr status"
        else
          match info_b x with
          | None => undef "null buffer"
          | Some b =>
              upd_buf b (set_bdisk false) ;;
              wakeup (buf_chan b) ;;
              modify (fun s => with_used_idx (u16 (used_idx s + 1)) s) ;;
              intr_loop fuel
          end
  end.
(** The two indices are 16 bits wide. *)
Definition intr_fuel : nat := Z.to_nat (2 ^ 16).
Definition virtio_disk_intr (rd : Z -> Z) : M disk unit :=
  acquire ;;
  write_reg MMIO_INTERRUPT_ACK (Z.land (rd MMIO_INTERRUPT_STATUS) 3) ;;
  intr_loop intr_fuel ;;
  release.
