(* ===== verification/VirtioSpec.v ===== *)
(** * The disk driver and its device, step by step

    A device that follows the virtio specification, any number of processes inside
    virtio_disk_rw, and interrupts, in every order.  What the device has transferred is
    recorded in a log, which the theorems compare with an atomic disk. *)

From Stdlib Require Import ZArith Lia.
From stdpp Require Import base numbers list gmap strings relations.
From S2P Require Import Prelude Virtio.
Open Scope Z_scope.

(** ** The device, after the virtio specification, version 1.1 *)

(** A request as the device reads it from a chain of descriptors (5.2.6): the direction, the
    sector, the buffer and the place of the status. *)
Record request : Type := mkRequest { q_write : bool; q_sector : Z; q_buf : nat; q_status : Z }.
Definition chain_of (d : disk) (h : Z) : option request :=
  d0 ← arr_get (descs d) h;
  d1 ← arr_get (descs d) (next d0);
  d2 ← arr_get (descs d) (next d1);
  match addr d0, addr d1, addr d2 with
  | POp i, PData b, PStatus j =>
      op ← arr_get (ops d) i;
      let write := bool_decide (rtype op = VIRTIO_BLK_T_OUT) in
      if decide (len d0 = 16 /\ len d1 = BSIZE /\ len d2 = 1 /\ flags d0 = F_NEXT /\
                 flags d1 = Z.lor (if write then 0 else F_WRITE) F_NEXT /\ flags d2 = F_WRITE /\
                 (rtype op = VIRTIO_BLK_T_OUT \/ rtype op = VIRTIO_BLK_T_IN))
      then Some (mkRequest write (sector op) b j) else None
  | _, _, _ => None
  end.

(** The device keeps how far it has read the available ring, the chains it is working on and
    the sectors of 512 bytes. *)
Record dev : Type := mkDev { seen : Z; taken : list Z; sectors : gmap Z (list Z) }.
Definition sector_at (m : gmap Z (list Z)) (i : Z) : list Z := default (replicate 512 0) (m !! i).
Definition read_block (m : gmap Z (list Z)) (sec : Z) : list Z := sector_at m sec ++ sector_at m (sec + 1).
Definition write_block (m : gmap Z (list Z)) (sec : Z) (l : list Z) : gmap Z (list Z) :=
  <[sec := take 512 l]> (<[sec + 1 := drop 512 l]> m).

(** A transfer: direction, buffer, sector, the bytes. *)
Record entry : Type := mkEntry { e_write : bool; e_buf : nat; e_sector : Z; e_data : list Z }.

Definition finish (q : request) (h : Z) (x : buf) (i : info_t) (l : list Z) (d : disk) : disk :=
  with_used (<[Z.to_nat (used_i d mod NUM) := h]> (used_ring d)) (u16 (used_i d + 1))
    (with_infos (<[Z.to_nat (q_status q) := mkInfo (info_b i) 0]> (infos d))
       (with_bufs (<[q_buf q := if q_write q then x else set_data l x]> (bufs d)) d)).

Inductive device_step : disk * dev -> option entry -> disk * dev -> Prop :=
  | dev_take d v h : seen v <> avail_idx d -> arr_get (avail_ring d) (seen v mod NUM) = Some h ->
      device_step (d, v) None (d, mkDev (u16 (seen v + 1)) (taken v ++ [h]) (sectors v))
  | dev_done d v l1 h l2 q x i : taken v = l1 ++ h :: l2 -> chain_of d h = Some q ->
      bufs d !! q_buf q = Some x -> arr_get (infos d) (q_status q) = Some i ->
      let l := if q_write q then data x else read_block (sectors v) (q_sector q) in
      device_step (d, v) (Some (mkEntry (q_write q) (q_buf q) (q_sector q) l))
        (finish q h x i l d,
         mkDev (seen v) (l1 ++ l2) (if q_write q then write_block (sectors v) (q_sector q) l else sectors v)).

(** ** The driver, its device and the processes *)

(** A process inside virtio_disk_rw: about to ask for descriptors, or waiting for the device
    with the chain [h], [m], [t]; then also the length of the log and the bytes of the buffer
    at the time of the request. *)
Inductive call : Type :=
  | Starting (w : bool)
  | Waiting (w : bool) (h m t : Z) (k : nat) (orig : list Z).
(** Each buffer is in use by at most one call, as its sleep lock sees to. *)
Record sys : Type := mkSys { sd : disk; sv : dev; calls : gmap nat call; log : list entry }.

Definition good_buf (x : buf) : Prop := 0 <= blockno x < 2 ^ 31 /\ length (data x) = 1024%nat.
Definition next_of (d : disk) (h : Z) : Z := default 0 (next <$> arr_get (descs d) h).
Definition bytes_of (d : disk) (b : nat) : list Z := default [] (data <$> bufs d !! b).

Section System.
Context (device : disk * dev -> option entry -> disk * dev -> Prop).

Inductive step : sys -> sys -> Prop :=
  (* the holder of an idle buffer gives it another block and other bytes *)
  | st_edit s b x y : calls s !! b = None -> bufs (sd s) !! b = Some x -> good_buf y -> bdisk y = bdisk x ->
      step s (mkSys (with_bufs (<[b := y]> (bufs (sd s))) (sd s)) (sv s) (calls s) (log s))
  | st_call s b w : calls s !! b = None -> (b < length (bufs (sd s)))%nat ->
      step s (mkSys (sd s) (sv s) (<[b := Starting w]> (calls s)) (log s))
  | st_start s b w h d1 c d2 : calls s !! b = Some (Starting w) -> rw_start b w (sd s) = Ok h d1 -> rw_wait b h d1 = Blocked c d2 ->
      step s (mkSys d2 (sv s) (<[b := Waiting w h (next_of d2 h) (next_of d2 (next_of d2 h)) (length (log s)) (bytes_of (sd s) b)]> (calls s)) (log s))
  | st_retry s b w c d : calls s !! b = Some (Starting w) -> rw_start b w (sd s) = Blocked c d ->
      step s (mkSys d (sv s) (calls s) (log s))
  | st_return s b w h m t k o d : calls s !! b = Some (Waiting w h m t k o) -> (acquire ;; rw_wait b h) (sd s) = Ok tt d ->
      step s (mkSys d (sv s) (delete b (calls s)) (log s))
  | st_wait s b w h m t k o c d : calls s !! b = Some (Waiting w h m t k o) -> (acquire ;; rw_wait b h) (sd s) = Blocked c d ->
      step s (mkSys d (sv s) (calls s) (log s))
  | st_intr s rd d : virtio_disk_intr rd (sd s) = Ok tt d -> step s (mkSys d (sv s) (calls s) (log s))
  | st_dev s o d v : device (sd s, sv s) o (d, v) -> step s (mkSys d v (calls s) (log s ++ option_list o)).

End System.

(** ** An atomic disk *)

(** The log is a history of a disk that does one whole transfer after the other: [m] are the
    sectors before it and [m'] those after. *)
Inductive history : gmap Z (list Z) -> list entry -> gmap Z (list Z) -> Prop :=
  | h_nil m : history m [] m
  | h_read m b sec l m' : history m l m' -> history m (l ++ [mkEntry false b sec (read_block m' sec)]) m'
  | h_write m b sec l m' bs : history m l m' -> history m (l ++ [mkEntry true b sec bs]) (write_block m' sec bs).

(** Exactly one transfer for [b] since position [k], and it is [e]. *)
Definition once (lg : list entry) (k : nat) (b : nat) (e : entry) : Prop :=
  exists l1 l2, drop k lg = l1 ++ e :: l2 /\ e_buf e = b /\ Forall (fun x => e_buf x <> b) l1 /\ Forall (fun x => e_buf x <> b) l2.
Definition none_yet (lg : list entry) (k : nat) (b : nat) : Prop := Forall (fun x => e_buf x <> b) (drop k lg).
