(* ===== verification/VirtioProps.v ===== *)
(** * kernel/virtio_disk.c: requests are atomic transfers *)

From Stdlib Require Import ZArith Lia.
From stdpp Require Import base numbers list gmap strings relations.
From S2P Require Import Prelude Virtio VirtioSpec.
Open Scope Z_scope.

(** ** Arrays of the state *)

Lemma at_run {A} (get : disk -> list A) i s x : arr_get (get s) i = Some x -> at_ get i s = Ok x s.
Proof. intros H. unfold at_. by rewrite H. Qed.
Lemma upd_run {A} (get : disk -> list A) put i f s x :
  arr_get (get s) i = Some x -> upd get put i f s = Ok tt (put (<[Z.to_nat i := f x]> (get s)) s).
Proof. intros H. unfold upd. by rewrite (bind_ok _ _ _ _ _ (at_run _ _ _ _ H)). Qed.

Definition eight {A} (l : list A) : Prop := length l = 8%nat.
Definition idx (i : Z) : Prop := 0 <= i < NUM.
Lemma eight_get {A} (l : list A) i : eight l -> idx i -> exists x, arr_get l i = Some x.
Proof.
  intros Hl Hi. unfold arr_get. rewrite decide_True by (unfold idx in Hi; lia).
  apply lookup_lt_is_Some_2. unfold eight, idx, NUM in *. lia.
Qed.
Lemma get_idx {A} (l : list A) i x : eight l -> arr_get l i = Some x -> idx i.
Proof. intros Hl H. apply arr_get_range in H. unfold eight, idx, NUM in *. lia. Qed.
Lemma eight_insert {A} (l : list A) i x : eight l -> eight (<[i := x]> l).
Proof. unfold eight. by rewrite length_insert. Qed.
Lemma get_insert {A} (l : list A) i j x : eight l -> idx i -> idx j ->
  arr_get (<[Z.to_nat i := x]> l) j = if decide (j = i) then Some x else arr_get l j.
Proof.
  intros Hl Hi Hj. unfold arr_get, idx, NUM, eight in *. rewrite !(decide_True (P := 0 <= j)) by lia. case_decide.
  - subst. apply list_lookup_insert_eq. lia.
  - apply list_lookup_insert_ne. lia.
Qed.
#[local] Hint Resolve eight_insert : core.

(** ** Rings *)

(** The ring holds [q] from index [start] on. *)
Definition ring_holds (l : list Z) (start : Z) (q : list Z) : Prop :=
  forall i h, q !! i = Some h -> arr_get l ((start + Z.of_nat i) mod NUM) = Some h.

Lemma mod_idx i : idx (i mod NUM).
Proof. unfold idx, NUM. apply Z.mod_pos_bound. lia. Qed.
Lemma u16_mod x : u16 x mod NUM = x mod NUM.
Proof.
  unfold u16, uwrap, NUM. change (2 ^ 16) with (8 * 8192). rewrite Z.rem_mul_r by lia.
  rewrite (Z.mul_comm 8), Z.mod_add by lia. apply Z.mod_mod. lia.
Qed.
Lemma ring_tail l start h q : ring_holds l start (h :: q) -> ring_holds l (u16 (start + 1)) q.
Proof.
  intros H i g Hg. specialize (H (S i) g Hg). rewrite Z.add_mod, u16_mod, <- Z.add_mod by done.
  replace (start + 1 + Z.of_nat i) with (start + Z.of_nat (S i)) by lia. done.
Qed.
Lemma ring_head l start h q : ring_holds l start (h :: q) -> arr_get l (start mod NUM) = Some h.
Proof. intros H. specialize (H 0%nat h eq_refl). by rewrite Z.add_0_r in H. Qed.
Lemma ring_snoc l start q h :
  eight l -> ring_holds l start q -> (length q < 8)%nat ->
  ring_holds (<[Z.to_nat ((start + Z.of_nat (length q)) mod NUM) := h]> l) start (q ++ [h]).
Proof.
  intros Hl H Hq i g Hg. rewrite get_insert by (done || apply mod_idx). case_decide as E.
  - assert (i = length q) as ->.
    { apply lookup_lt_Some in Hg. rewrite length_app in Hg. simpl in Hg.
      unfold NUM in E. assert ((Z.of_nat (length q) - Z.of_nat i) mod 8 = 0) as Hm.
      { replace (Z.of_nat (length q) - Z.of_nat i) with ((start + Z.of_nat (length q)) - (start + Z.of_nat i)) by lia.
        rewrite Zminus_mod, E, Z.sub_diag. done. }
      rewrite Z.mod_small in Hm; lia. }
    rewrite lookup_app_r, Nat.sub_diag in Hg by lia. by simplify_eq/=.
  - apply H. apply lookup_app_Some in Hg as [Hg|[Hi Hg]]; [done|]. exfalso. apply E. f_equal.
    apply lookup_lt_Some in Hg. simpl in Hg. lia.
Qed.
(** The index behind the ring. *)
Lemma ring_empty start (q : list Z) : 0 <= start < 2 ^ 16 -> (length q <= 8)%nat -> start = u16 (start + Z.of_nat (length q)) -> q = [].
Proof.
  intros Hs Hq E. destruct q as [|h q]; [done|exfalso]. unfold u16, uwrap in E. cbn [length] in *. change (2 ^ 16) with 65536 in *.
  destruct (decide (start + Z.of_nat (S (length q)) < 65536)) as [Hlt|Hge].
  - rewrite Z.mod_small in E by lia. lia.
  - assert ((start + Z.of_nat (S (length q))) mod 65536 = start + Z.of_nat (S (length q)) - 65536) as Em.
    { symmetry. apply (Z.mod_unique_pos _ _ 1); lia. }
    lia.
Qed.
Lemma u16_add a b : u16 (u16 a + b) = u16 (a + b).
Proof. unfold u16, uwrap. by rewrite Z.add_mod_idemp_l. Qed.

(** ** Descriptors *)

Lemma alloc_desc_run s : eight (free s) ->
  (exists i, idx i /\ arr_get (free s) i = Some true /\ alloc_desc s = Ok i (with_free (<[Z.to_nat i := false]> (free s)) s)) \/
  alloc_desc s = Ok (-1) s.
Proof.
  intros Hf. unfold alloc_desc.
  set (body := fun i => let! f := at_ free i in if (f : bool) then upd_free i false ;; ret (Some i) else ret None).
  assert (forall y, y ∈ zrange 0 NUM -> arr_get (free s) y <> Some true -> body y s = Ok None s) as Hno.
  { intros y Hy Hn. apply elem_of_zrange in Hy. destruct (eight_get (free s) y Hf Hy) as [[] E]; [done|].
    unfold body. by rewrite (bind_ok _ _ _ _ _ (at_run _ _ _ _ E)). }
  destruct (first_split (fun i => arr_get (free s) i = Some true) (zrange 0 NUM)) as [H|(l1 & i & l2 & El & Hi & H)].
  - right. by rewrite (bind_ok _ _ _ None s) by (apply for_until_none; auto).
  - left. exists i. assert (idx i) as Hidx by (apply elem_of_zrange; rewrite El; set_solver). split_and!; [done|done|].
    rewrite El. erewrite bind_ok; [|apply for_until_found].
    + done.
    + intros y Hy. apply Hno; [|by apply H]. rewrite El. set_solver.
    + unfold body. rewrite (bind_ok _ _ _ _ _ (at_run _ _ _ _ Hi)). unfold upd_free.
      by rewrite (bind_ok _ _ _ _ _ (upd_run _ _ _ _ _ _ Hi)).
Qed.

Lemma free_desc_run s i x : idx i -> arr_get (free s) i = Some false -> arr_get (descs s) i = Some x ->
  free_desc i s = Ok tt (with_woken (free_chan :: woken s)
    (with_free (<[Z.to_nat i := true]> (free s)) (with_descs (<[Z.to_nat i := no_desc]> (descs s)) s))).
Proof.
  intros Hi Hf Hx. unfold free_desc. rewrite decide_False by (unfold idx in Hi; lia).
  rewrite (bind_ok _ _ _ _ _ (at_run _ _ _ _ Hf)). unfold upd_desc, upd_free.
  rewrite (bind_ok _ _ _ _ _ (upd_run _ _ _ _ _ _ Hx)). by rewrite (bind_ok _ _ _ _ _ (upd_run free with_free i _ (with_descs _ s) false Hf)).
Qed.

(** What a failed attempt leaves: descriptors that are free may have been cleared. *)
Record tried (s s' : disk) : Prop := {
  tr_state : s' = with_woken (woken s') (with_descs (descs s') s);
  tr_eight : eight (descs s');
  tr_descs i : arr_get (free s) i = Some false -> arr_get (descs s') i = arr_get (descs s) i;
}.

Lemma insert_back {A} (l : list A) i x y : arr_get l i = Some x -> <[Z.to_nat i := x]> (<[Z.to_nat i := y]> l) = l.
Proof. intros H. apply arr_get_Some in H as [_ H]. by rewrite list_insert_insert_eq, list_insert_id. Qed.
Lemma insert_swap {A} (l : list A) i j x y : idx i -> idx j -> i <> j ->
  <[Z.to_nat i := x]> (<[Z.to_nat j := y]> l) = <[Z.to_nat j := y]> (<[Z.to_nat i := x]> l).
Proof. intros Hi Hj Hne. apply list_insert_insert_ne. unfold idx in *. lia. Qed.

Definition taken3 (i0 i1 i2 : Z) (l : list bool) : list bool :=
  <[Z.to_nat i2 := false]> (<[Z.to_nat i1 := false]> (<[Z.to_nat i0 := false]> l)).

Lemma alloc3_run s : eight (free s) -> eight (descs s) ->
  (exists s', alloc3_desc s = Ok None s' /\ tried s s') \/
  (exists i0 i1 i2, idx i0 /\ idx i1 /\ idx i2 /\ i0 <> i1 /\ i0 <> i2 /\ i1 <> i2 /\
     arr_get (free s) i0 = Some true /\ arr_get (free s) i1 = Some true /\ arr_get (free s) i2 = Some true /\
     alloc3_desc s = Ok (Some (i0, i1, i2)) (with_free (taken3 i0 i1 i2 (free s)) s)).
Proof.
  intros Hf Hd. unfold alloc3_desc.
  destruct (alloc_desc_run s Hf) as [(i0 & H0 & F0 & E0)|E0]; rewrite (bind_ok _ _ _ _ _ E0).
  2: { left. exists s. split; [done|]. split; [by destruct s|done|done]. }
  rewrite decide_False by (unfold idx in H0; lia). set (s0 := with_free _ s).
  destruct (eight_get (descs s) i0 Hd H0) as [x0 X0].
  assert (arr_get (free s0) i0 = Some false) as F00 by (cbn; rewrite get_insert, decide_True by done; done).
  destruct (alloc_desc_run s0) as [(i1 & H1 & F1 & E1)|E1]; [by apply eight_insert| |]; rewrite (bind_ok _ _ _ _ _ E1).
  2: { left. rewrite decide_True by lia. rewrite (bind_ok _ _ _ _ _ (free_desc_run s0 i0 x0 H0 F00 X0)). eexists. split; [done|].
       split; cbn; [|by apply eight_insert|].
       - rewrite insert_back by done. by destruct s.
       - intros i Hi. pose proof (get_idx _ _ _ Hf Hi). rewrite get_insert by done. rewrite decide_False; [done|]. intros ->. congruence. }
  assert (i1 <> i0) as N01 by (intros ->; congruence). cbn in F1. rewrite get_insert, decide_False in F1 by done.
  rewrite decide_False by (unfold idx in H1; lia). set (s1 := with_free _ s0).
  destruct (eight_get (descs s) i1 Hd H1) as [x1 X1].
  destruct (alloc_desc_run s1) as [(i2 & H2 & F2 & E2)|E2]; [by do 2 apply eight_insert| |]; rewrite (bind_ok _ _ _ _ _ E2).
  2: { left. rewrite decide_True by lia.
       assert (arr_get (free s1) i0 = Some false) as F10 by (cbn; by rewrite get_insert, decide_False by auto).
       rewrite (bind_ok _ _ _ _ _ (free_desc_run s1 i0 x0 H0 F10 X0)).
       erewrite bind_ok; [|apply (free_desc_run _ i1 x1 H1); cbn].
       2: { rewrite get_insert by auto. rewrite decide_False by done. by rewrite get_insert, decide_True by auto. }
       2: { by rewrite get_insert, decide_False by auto. }
       eexists. split; [done|]. split; cbn; [|by do 2 apply eight_insert|].
       - rewrite (insert_swap _ i0 i1), (insert_back _ i0) by done. rewrite insert_back by done. by destruct s.
       - intros i Hi. pose proof (get_idx _ _ _ Hf Hi). rewrite !get_insert by auto. rewrite !decide_False; [done|..]; intros ->; congruence. }
  assert (i2 <> i0 /\ i2 <> i1) as [N02 N12].
  { cbn in F2. rewrite !get_insert in F2 by auto. by repeat case_decide. }
  cbn in F2. rewrite !get_insert, !decide_False in F2 by auto.
  rewrite decide_False by (unfold idx in H2; lia). right. exists i0, i1, i2. split_and!; done.
Qed.

(** ** The two halves of virtio_disk_rw *)

Definition d_head (h m : Z) : desc := mkDesc (POp h) 16 F_NEXT m.
Definition d_data (b : nat) (w : bool) (t : Z) : desc := mkDesc (PData b) BSIZE (Z.lor (if w then 0 else F_WRITE) F_NEXT) t.
Definition d_status (h : Z) : desc := mkDesc (PStatus h) 1 F_WRITE 0.
Definition op_of (w : bool) (sec : Z) : blk_req := mkReq (if w then VIRTIO_BLK_T_OUT else VIRTIO_BLK_T_IN) 0 sec.
Definition sector_of (x : buf) : Z := u32 (blockno x * (BSIZE / 512)).

(** The state after a request has been handed to the device. *)
Definition submitted (b : nat) (w : bool) (h m t : Z) (x : buf) (s : disk) : disk :=
  with_regs ((MMIO_QUEUE_NOTIFY, 0) :: regs s)
    (with_avail (<[Z.to_nat (avail_idx s mod NUM) := h]> (avail_ring s)) (u16 (avail_idx s + 1))
      (with_infos (<[Z.to_nat h := mkInfo (Some b) 255]> (infos s))
        (with_bufs (<[b := set_bdisk true x]> (bufs s))
          (with_reqs (<[Z.to_nat h := op_of w (sector_of x)]> (ops s))
            (with_descs (<[Z.to_nat t := d_status h]> (<[Z.to_nat m := d_data b w t]> (<[Z.to_nat h := d_head h m]> (descs s))))
              (with_free (taken3 h m t (free s)) s)))))).

Definition arrays (s : disk) : Prop :=
  eight (free s) /\ eight (descs s) /\ eight (avail_ring s) /\ eight (used_ring s) /\ eight (infos s) /\ eight (ops s).

Lemma buf_get b (s : disk) x : bufs s !! b = Some x -> arr_get (bufs s) (Z.of_nat b) = Some x.
Proof. intros H. apply arr_get_Some. split; [lia|]. by rewrite Nat2Z.id. Qed.

Lemma vacquire_run s : vlock s = false -> acquire s = Ok tt (with_vlock true s).
Proof. intros H. unfold acquire. by rewrite H. Qed.

Lemma rw_start_run b w s x : arrays s -> vlock s = false -> bufs s !! b = Some x ->
  (exists s', rw_start b w s = Blocked free_chan s' /\ tried s s') \/
  (exists h m t, idx h /\ idx m /\ idx t /\ h <> m /\ h <> t /\ m <> t /\
     arr_get (free s) h = Some true /\ arr_get (free s) m = Some true /\ arr_get (free s) t = Some true /\
     rw_start b w s = Ok h (with_vlock true (submitted b w h m t x s))).
Proof.
  intros (Af & Ad & Aa & Au & Ai & Ao) HL Hx. unfold rw_start.
  rewrite (bind_ok _ _ _ _ _ (at_run bufs _ _ _ (buf_get _ _ _ Hx))), (bind_ok _ _ _ _ _ (vacquire_run _ HL)).
  destruct (alloc3_run (with_vlock true s) Af Ad) as [(s' & E & [T1 T2 T3])|(h & m & t & Hh & Hm & Ht & Nhm & Nht & Nmt & Fh & Fm & Ft & E)];
    rewrite (bind_ok _ _ _ _ _ E).
  - left. exists (with_vlock false s'). split.
    + unfold release, bind, block. rewrite T1. done.
    + split; [|done|done]. rewrite T1. destruct s; cbn in *. by subst.
  - right. exists h, m, t. split_and!; try done.
    destruct (eight_get (ops s) h Ao Hh) as [o Eo]. destruct (eight_get (infos s) h Ai Hh) as [i Ei].
    destruct (eight_get (descs s) h Ad Hh) as [dh Eh]. destruct (eight_get (descs s) m Ad Hm) as [dm Em].
    destruct (eight_get (descs s) t Ad Ht) as [dt Et]. destruct (eight_get (avail_ring s) _ Aa (mod_idx (avail_idx s))) as [a Ea].
    unfold format, upd_op, upd_desc, upd_info, upd_buf. rewrite !bind_assoc.
    erewrite bind_ok by (apply (upd_run ops with_reqs); exact Eo). rewrite !bind_assoc.
    erewrite bind_ok by (apply (upd_run descs with_descs); exact Eh). rewrite !bind_assoc.
    erewrite bind_ok by (apply (upd_run descs with_descs); cbn; rewrite get_insert, decide_False by auto; exact Em). rewrite !bind_assoc.
    erewrite bind_ok by (apply (upd_run infos with_infos); exact Ei).
    erewrite bind_ok by (apply (upd_run descs with_descs); cbn; rewrite !get_insert, !decide_False by auto; exact Et).
    erewrite bind_ok by (apply (upd_run bufs with_bufs); exact (buf_get _ _ _ Hx)). rewrite Nat2Z.id.
    erewrite bind_ok by (apply (upd_run infos with_infos); cbn; rewrite get_insert, decide_True by auto; reflexivity).
    erewrite bind_ok by reflexivity. erewrite bind_ok by (apply upd_run; exact Ea).
    unfold modify, write_reg, bind, ret. cbn. do 2 f_equal. unfold submitted. cbn. by rewrite list_insert_insert_eq.
Qed.

Lemma free_chain_run b w s h m t :
  arrays s -> idx h -> idx m -> idx t -> h <> m -> h <> t -> m <> t ->
  arr_get (free s) h = Some false -> arr_get (free s) m = Some false -> arr_get (free s) t = Some false ->
  arr_get (descs s) h = Some (d_head h m) -> arr_get (descs s) m = Some (d_data b w t) -> arr_get (descs s) t = Some (d_status h) ->
  free_chain (Z.to_nat NUM) h s = Ok tt (with_woken (free_chan :: free_chan :: free_chan :: woken s)
    (with_free (<[Z.to_nat t := true]> (<[Z.to_nat m := true]> (<[Z.to_nat h := true]> (free s))))
      (with_descs (<[Z.to_nat t := no_desc]> (<[Z.to_nat m := no_desc]> (<[Z.to_nat h := no_desc]> (descs s)))) s))).
Proof.
  intros (Af & Ad & _) Hh Hm Ht Nhm Nht Nmt Fh Fm Ft Dh Dm Dt. change (Z.to_nat NUM) with 8%nat. cbn [free_chain].
  rewrite (bind_ok _ _ _ _ _ (at_run descs _ _ _ Dh)), (bind_ok _ _ _ _ _ (free_desc_run _ _ _ Hh Fh Dh)).
  rewrite decide_True by done. cbn [next d_head].
  erewrite bind_ok by (apply (at_run descs); cbn; rewrite get_insert, decide_False by auto; exact Dm).
  erewrite bind_ok by (eapply free_desc_run; [done|cbn; rewrite get_insert, decide_False by auto; exact Fm|cbn; rewrite get_insert, decide_False by auto; exact Dm]).
  rewrite decide_True by (by destruct w). cbn [next d_data].
  erewrite bind_ok by (apply (at_run descs); cbn; rewrite !get_insert, !decide_False by auto; exact Dt).
  erewrite bind_ok by (eapply free_desc_run; [done|cbn; rewrite !get_insert, !decide_False by auto; exact Ft|cbn; rewrite !get_insert, !decide_False by auto; exact Dt]).
  by rewrite decide_False by (intros Hn; apply Hn; done).
Qed.

Lemma rw_wait_run b w s h m t x i :
  arrays s -> idx h -> idx m -> idx t -> h <> m -> h <> t -> m <> t ->
  arr_get (free s) h = Some false -> arr_get (free s) m = Some false -> arr_get (free s) t = Some false ->
  arr_get (descs s) h = Some (d_head h m) -> arr_get (descs s) m = Some (d_data b w t) -> arr_get (descs s) t = Some (d_status h) ->
  bufs s !! b = Some x -> arr_get (infos s) h = Some i -> vlock s = true ->
  rw_wait b h s = if bdisk x then Blocked (buf_chan b) (with_vlock false s) else
    Ok tt (with_vlock false (with_woken (free_chan :: free_chan :: free_chan :: woken s)
      (with_free (<[Z.to_nat t := true]> (<[Z.to_nat m := true]> (<[Z.to_nat h := true]> (free s))))
        (with_descs (<[Z.to_nat t := no_desc]> (<[Z.to_nat m := no_desc]> (<[Z.to_nat h := no_desc]> (descs s))))
          (with_infos (<[Z.to_nat h := mkInfo None (status i)]> (infos s)) s))))).
Proof.
  intros HA Hh Hm Ht Nhm Nht Nmt Fh Fm Ft Dh Dm Dt Hx Hi HL. unfold rw_wait.
  rewrite (bind_ok _ _ _ _ _ (at_run bufs _ _ _ (buf_get _ _ _ Hx))). destruct (bdisk x).
  - unfold release, bind, block. by rewrite HL.
  - unfold upd_info. rewrite (bind_ok _ _ _ _ _ (upd_run infos with_infos _ _ _ _ Hi)).
    set (s1 := with_infos _ s). assert (arrays s1) as HA1.
    { destruct HA as (? & ? & ? & ? & ? & ?). split_and!; try done. by apply eight_insert. }
    rewrite (bind_ok _ _ _ _ _ (free_chain_run b w s1 h m t HA1 Hh Hm Ht Nhm Nht Nmt Fh Fm Ft Dh Dm Dt)).
    unfold release. cbn. by rewrite HL.
Qed.

(** ** The invariant *)

Definition owned (c : call) : list Z := match c with Waiting _ h m t _ _ => [h; m; t] | Starting _ => [] end.

(** A request in the queue [Q], in the hands of the device [T], in the used ring [U] or, in none
    of them, seen by the interrupt handler. *)
Record call_ok (d : disk) (Q T U : list Z) (lg : list entry) (b : nat) (w : bool) (h m t : Z) (k : nat) (o : list Z) (x : buf) (i : info_t) : Prop := {
  co_idx : idx h /\ idx m /\ idx t /\ h <> m /\ h <> t /\ m <> t;
  co_descs : arr_get (descs d) h = Some (d_head h m) /\ arr_get (descs d) m = Some (d_data b w t) /\ arr_get (descs d) t = Some (d_status h);
  co_op : arr_get (ops d) h = Some (op_of w (sector_of x));
  co_buf : bufs d !! b = Some x;
  co_info : arr_get (infos d) h = Some i /\ info_b i = Some b;
  co_log : (k <= length lg)%nat;
  co_phase :
    (h ∈ Q ++ T /\ bdisk x = true /\ data x = o /\ none_yet lg k b) \/
    (h ∉ Q ++ T /\ (bdisk x = true <-> h ∈ U) /\ status i = 0 /\
      once lg k b (mkEntry w b (2 * blockno x) (data x)) /\ (w = true -> data x = o));
}.

Record inv (m0 : gmap Z (list Z)) (s : sys) (Q U : list Z) : Prop := {
  iv_lock : vlock (sd s) = false;
  iv_arrays : arrays (sd s);
  iv_blocks b x : bufs (sd s) !! b = Some x -> 0 <= blockno x < 2 ^ 31;
  iv_range b c : calls s !! b = Some c -> (b < length (bufs (sd s)))%nat;
  iv_call b w h m t k o : calls s !! b = Some (Waiting w h m t k o) ->
    exists x i, call_ok (sd s) Q (taken (sv s)) U (log s) b w h m t k o x i;
  iv_owner i b1 b2 c1 c2 : calls s !! b1 = Some c1 -> calls s !! b2 = Some c2 -> i ∈ owned c1 -> i ∈ owned c2 -> b1 = b2;
  iv_free i : idx i -> arr_get (free (sd s)) i = Some false <-> exists b c, calls s !! b = Some c /\ i ∈ owned c;
  iv_heads h : h ∈ Q ++ taken (sv s) ++ U -> exists b w m t k o, calls s !! b = Some (Waiting w h m t k o);
  iv_nodup : NoDup (Q ++ taken (sv s) ++ U);
  iv_avail : ring_holds (avail_ring (sd s)) (seen (sv s)) Q /\ avail_idx (sd s) = u16 (seen (sv s) + Z.of_nat (length Q)) /\ 0 <= seen (sv s) < 2 ^ 16;
  iv_used : ring_holds (used_ring (sd s)) (used_idx (sd s)) U /\ used_i (sd s) = u16 (used_idx (sd s) + Z.of_nat (length U)) /\ 0 <= used_idx (sd s) < 2 ^ 16;
  iv_hist : history m0 (log s) (sectors (sv s));
}.

Lemma call_ok_frame d d' Q T U Q' T' U' lg b w h m t k o x i :
  call_ok d Q T U lg b w h m t k o x i ->
  (forall j, j ∈ [h; m; t] -> arr_get (descs d') j = arr_get (descs d) j) ->
  arr_get (ops d') h = arr_get (ops d) h -> arr_get (infos d') h = arr_get (infos d) h -> bufs d' !! b = bufs d !! b ->
  (h ∈ Q' ++ T' <-> h ∈ Q ++ T) -> (h ∈ U' <-> h ∈ U) -> call_ok d' Q' T' U' lg b w h m t k o x i.
Proof.
  intros [A (B1 & B2 & B3) C D E F G] Hd Ho Hi Hb HQ HU. split; try done; rewrite ?Hb, ?Ho, ?Hi; try done.
  - rewrite !Hd by set_solver. done.
  - by rewrite HQ, HU.
Qed.

Lemma heads_bound (l : list Z) : NoDup l -> (forall h, h ∈ l -> idx h) -> (length l <= 8)%nat.
Proof.
  intros Hn Hi. change 8%nat with (length (zrange 0 NUM)). apply submseteq_length, NoDup_submseteq; [done|].
  intros h Hh. apply elem_of_zrange. by apply Hi.
Qed.

Section Inv.
Context (m0 : gmap Z (list Z)).

Lemma inv_idx s Q U h : inv m0 s Q U -> h ∈ Q ++ taken (sv s) ++ U -> idx h.
Proof.
  intros HI Hh. destruct (iv_heads _ _ _ _ HI h Hh) as (b & w & m & t & k & o & Hc).
  destruct (iv_call _ _ _ _ HI _ _ _ _ _ _ _ Hc) as (x & i & Hok). apply (co_idx _ _ _ _ _ _ _ _ _ _ _ _ _ _ Hok).
Qed.
Lemma inv_bound s Q U : inv m0 s Q U -> (length Q + length (taken (sv s)) + length U <= 8)%nat.
Proof.
  intros HI. pose proof (heads_bound _ (iv_nodup _ _ _ _ HI) (fun h => inv_idx s Q U h HI)) as H. rewrite !length_app in H. lia.
Qed.
(** The descriptors of a waiting call are not free. *)
Lemma inv_owned s Q U b w h m t k o : inv m0 s Q U -> calls s !! b = Some (Waiting w h m t k o) -> forall j, j ∈ [h; m; t] -> idx j /\ arr_get (free (sd s)) j = Some false.
Proof.
  intros HI Hc j Hj. destruct (iv_call _ _ _ _ HI _ _ _ _ _ _ _ Hc) as (x & i & Hok).
  assert (idx j) as Hidx by (destruct (co_idx _ _ _ _ _ _ _ _ _ _ _ _ _ _ Hok); set_solver). split; [done|].
  apply (iv_free _ _ _ _ HI j Hidx). by exists b, (Waiting w h m t k o).
Qed.

(** A change of the driver's state that no call notices. *)
Lemma inv_frame s Q U d : inv m0 s Q U ->
  vlock d = false -> arrays d -> free d = free (sd s) ->
  (forall i, arr_get (free (sd s)) i = Some false -> arr_get (descs d) i = arr_get (descs (sd s)) i) ->
  infos d = infos (sd s) -> ops d = ops (sd s) ->
  length (bufs d) = length (bufs (sd s)) -> (forall b x, bufs d !! b = Some x -> 0 <= blockno x < 2 ^ 31) ->
  (forall b c, calls s !! b = Some c -> bufs d !! b = bufs (sd s) !! b) ->
  avail_ring d = avail_ring (sd s) -> avail_idx d = avail_idx (sd s) -> used_ring d = used_ring (sd s) -> used_i d = used_i (sd s) ->
  used_idx d = used_idx (sd s) ->
  inv m0 (mkSys d (sv s) (calls s) (log s)) Q U.
Proof.
  intros HI HL HA Hf Hd Hi Ho Hbl Hbb Hbc E1 E2 E3 E4 E5. pose proof HI as [_ _ _ R C O F H N A Us Hs].
  split; cbn [sd sv calls log]; rewrite ?E1, ?E2, ?E3, ?E4, ?E5, ?Hf; try done.
  - intros b c Hc. rewrite Hbl. by eapply R.
  - intros b w h m t k o Hc. destruct (C _ _ _ _ _ _ _ Hc) as (x & i & Hok). exists x, i.
    eapply call_ok_frame; [exact Hok| |by rewrite Ho|by rewrite Hi|by eapply Hbc|done|done].
    intros j Hj. apply Hd. by eapply inv_owned.
Qed.

Lemma get_insert3 {A} (l : list A) h m t a b c j : eight l -> idx h -> idx m -> idx t -> idx j -> j ∉ [h; m; t] ->
  arr_get (<[Z.to_nat t := c]> (<[Z.to_nat m := b]> (<[Z.to_nat h := a]> l))) j = arr_get l j.
Proof. intros. rewrite !get_insert by auto. rewrite !decide_False by set_solver. done. Qed.
Lemma get_same3 {A} (l : list A) h m t a j : eight l -> idx h -> idx m -> idx t -> idx j ->
  arr_get (<[Z.to_nat t := a]> (<[Z.to_nat m := a]> (<[Z.to_nat h := a]> l))) j = if decide (j ∈ [h; m; t]) then Some a else arr_get l j.
Proof.
  intros. case_decide as Hj; [|by apply get_insert3]. rewrite !get_insert by auto. repeat case_decide; try done. set_solver.
Qed.

Lemma inv_submit s Q U b w h m t x : inv m0 s Q U -> calls s !! b = Some (Starting w) -> bufs (sd s) !! b = Some x ->
  idx h -> idx m -> idx t -> h <> m -> h <> t -> m <> t ->
  arr_get (free (sd s)) h = Some true -> arr_get (free (sd s)) m = Some true -> arr_get (free (sd s)) t = Some true ->
  inv m0 (mkSys (submitted b w h m t x (sd s)) (sv s) (<[b := Waiting w h m t (length (log s)) (data x)]> (calls s)) (log s)) (Q ++ [h]) U.
Proof.
  intros HI Hb Hx Hh Hm Ht Nhm Nht Nmt Fh Fm Ft.
  pose proof HI as [L (Af & Ad & Aa & Au & Ai & Ao) B R C O F H N (A1 & A2 & A3) Us Hs].
  assert (b < length (bufs (sd s)))%nat as Hlt by (by eapply lookup_lt_Some).
  assert (forall b' c j, calls s !! b' = Some c -> j ∈ owned c -> idx j -> j ∉ [h; m; t]) as Hout.
  { intros b' c j Hc Hj Hij Hin. assert (arr_get (free (sd s)) j = Some false) as Hj' by (apply (F j Hij); by exists b', c). set_solver. }
  assert (forall h', h' ∈ Q ++ taken (sv s) ++ U -> h' <> h) as Hnew.
  { intros h' Hh' ->. destruct (H h Hh') as (b' & w' & m' & t' & k' & o' & Hc').
    apply (Hout b' _ h Hc'); [by left|done|by left]. }
  split; cbn [sd sv calls log]; [done| | | | | | | | | |done|done].
  - unfold arrays. cbn. unfold taken3. split_and!; auto.
  - intros b' y. cbn. destruct (decide (b' = b)) as [->|Hne].
    + rewrite list_lookup_insert_eq by done. intros [= <-]. by apply (B b x).
    + rewrite list_lookup_insert_ne by done. apply B.
  - intros b' c. cbn. rewrite length_insert. destruct (decide (b' = b)) as [->|Hne]; [done|].
    rewrite lookup_insert_ne by done. apply R.
  - intros b' w' h' m' t' k' o'. destruct (decide (b' = b)) as [->|Hne].
    + rewrite lookup_insert_eq. intros [= <- <- <- <- <- <-]. exists (set_bdisk true x), (mkInfo (Some b) 255). split; cbn.
      * done.
      * rewrite !get_insert by auto. split_and!; repeat case_decide; congruence.
      * rewrite get_insert, decide_True by auto. done.
      * by apply list_lookup_insert_eq.
      * rewrite get_insert, decide_True by auto. done.
      * done.
      * left. split_and!; [set_solver|done|done|]. unfold none_yet. by rewrite drop_all.
    + rewrite lookup_insert_ne by done. intros Hc. destruct (C _ _ _ _ _ _ _ Hc) as (y & i & Hok). exists y, i.
      pose proof (co_idx _ _ _ _ _ _ _ _ _ _ _ _ _ _ Hok) as (I1 & I2 & I3 & _).
      assert (h' <> h) as Hh' by (intros ->; apply (Hout b' _ h Hc); [by left|done|by left]).
      eapply call_ok_frame; [exact Hok|..]; cbn.
      * intros j Hj. assert (idx j) by set_solver. apply get_insert3; auto. by eapply Hout.
      * by rewrite get_insert, decide_False by auto.
      * by rewrite get_insert, decide_False by auto.
      * by rewrite list_lookup_insert_ne.
      * set_solver.
      * done.
  - intros j b1 b2 c1 c2. destruct (decide (b1 = b)) as [->|H1], (decide (b2 = b)) as [->|H2]; [done|..].
    + rewrite lookup_insert_eq, lookup_insert_ne by done. intros [= <-] Hc2 Hj1 Hj2. exfalso.
      apply (Hout b2 c2 j Hc2 Hj2); [set_solver|done].
    + rewrite lookup_insert_eq, lookup_insert_ne by done. intros Hc1 [= <-] Hj1 Hj2. exfalso.
      apply (Hout b1 c1 j Hc1 Hj1); [set_solver|done].
    + rewrite !lookup_insert_ne by done. apply O.
  - intros j Hj. cbn. unfold taken3. rewrite get_same3 by done. case_decide as Hin.
    + split; [|done]. intros _. exists b, (Waiting w h m t (length (log s)) (data x)). by rewrite lookup_insert_eq.
    + rewrite (F j Hj). split; intros (b' & c & Hc & Hjc).
      * exists b', c. split; [|done]. rewrite lookup_insert_ne; [done|]. intros <-. rewrite Hb in Hc. simplify_eq. set_solver.
      * exists b', c. split; [|done]. destruct (decide (b' = b)) as [->|Hne].
        -- rewrite lookup_insert_eq in Hc. by simplify_eq.
        -- by rewrite lookup_insert_ne in Hc.
  - intros h' Hh'. assert (h' = h \/ h' ∈ Q ++ taken (sv s) ++ U) as [->|Hin] by set_solver.
    + exists b, w, m, t, (length (log s)), (data x). by rewrite lookup_insert_eq.
    + destruct (H h' Hin) as (b' & w' & m' & t' & k' & o' & Hc). exists b', w', m', t', k', o'.
      rewrite lookup_insert_ne; [done|]. intros <-. congruence.
  - rewrite <- app_assoc. apply NoDup_app in N as (N1 & N2 & N3). apply NoDup_app. split_and!; [done|set_solver|].
    constructor; [|done]. intros Hin. apply (Hnew h); [set_solver|done].
  - cbn. split_and!; [| |lia|lia].
    + rewrite A2, u16_mod. apply ring_snoc; [done|done|].
      assert (length (h :: Q) <= 8)%nat; [|done]. apply heads_bound.
      * apply NoDup_app in N as (N1 & _). constructor; [|done]. intros Hin. apply (Hnew h); [set_solver|done].
      * intros g [-> | Hg]%elem_of_cons; [done|]. apply (inv_idx s Q U g HI). set_solver.
    + rewrite A2, u16_add, length_app. f_equal. simpl. lia.
Qed.

(** The end of a call: its descriptors are free again. *)
Definition freed (h m t : Z) (i : info_t) (d : disk) : disk :=
  with_woken (free_chan :: free_chan :: free_chan :: woken d)
    (with_free (<[Z.to_nat t := true]> (<[Z.to_nat m := true]> (<[Z.to_nat h := true]> (free d))))
      (with_descs (<[Z.to_nat t := no_desc]> (<[Z.to_nat m := no_desc]> (<[Z.to_nat h := no_desc]> (descs d))))
        (with_infos (<[Z.to_nat h := mkInfo None (status i)]> (infos d)) d))).

Lemma inv_return s Q U b w h m t k o x i : inv m0 s Q U -> calls s !! b = Some (Waiting w h m t k o) ->
  call_ok (sd s) Q (taken (sv s)) U (log s) b w h m t k o x i -> bdisk x = false ->
  inv m0 (mkSys (freed h m t i (sd s)) (sv s) (delete b (calls s)) (log s)) Q U.
Proof.
  intros HI Hb Hok Hdisk. pose proof HI as [L (Af & Ad & Aa & Au & Ai & Ao) B R C O F H N As Us Hs].
  pose proof (co_idx _ _ _ _ _ _ _ _ _ _ _ _ _ _ Hok) as (Hh & Hm & Ht & Nhm & Nht & Nmt).
  assert (forall b' c j, b' <> b -> calls s !! b' = Some c -> j ∈ owned c -> j ∉ [h; m; t]) as Hout.
  { intros b' c j Hne Hc Hj Hin. apply Hne. by eapply (O j). }
  assert (h ∉ Q ++ taken (sv s) ++ U) as Hgone.
  { destruct (co_phase _ _ _ _ _ _ _ _ _ _ _ _ _ _ Hok) as [(_ & E & _)|(E1 & E2 & _)]; [congruence|].
    assert (h ∉ U) by (intros E; apply E2 in E; congruence). set_solver. }
  split; cbn [sd sv calls log]; [done| |done| | | | | |done|done|done|done].
  - unfold arrays. cbn. split_and!; auto.
  - intros b' c Hc. apply lookup_delete_Some in Hc as [_ Hc]. by eapply R.
  - intros b' w' h' m' t' k' o' Hc. apply lookup_delete_Some in Hc as [Hne Hc].
    destruct (C _ _ _ _ _ _ _ Hc) as (y & j & Hok'). exists y, j.
    pose proof (co_idx _ _ _ _ _ _ _ _ _ _ _ _ _ _ Hok') as (I1 & I2 & I3 & _).
    eapply call_ok_frame; [exact Hok'|..]; cbn; try done.
    + intros g Hg. apply get_insert3; auto; [set_solver|]. by eapply Hout.
    + rewrite get_insert, decide_False; auto. intros ->. by apply (Hout b' _ h (not_eq_sym Hne) Hc); left.
  - intros j b1 b2 c1 c2 Hc1 Hc2. apply lookup_delete_Some in Hc1 as [_ Hc1]. apply lookup_delete_Some in Hc2 as [_ Hc2]. by apply O.
  - intros j Hj. cbn. rewrite get_same3 by done. case_decide as Hin.
    + split; [done|]. intros (b' & c & Hc & Hjc). apply lookup_delete_Some in Hc as [Hne Hc]. by destruct (Hout b' c j (not_eq_sym Hne) Hc Hjc).
    + rewrite (F j Hj). split; intros (b' & c & Hc & Hjc).
      * exists b', c. rewrite lookup_delete_ne; [done|]. intros <-. rewrite Hb in Hc. by simplify_eq.
      * apply lookup_delete_Some in Hc as [_ Hc]. by exists b', c.
  - intros h' Hh'. destruct (H h' Hh') as (b' & w' & m' & t' & k' & o' & Hc). exists b', w', m', t', k', o'.
    rewrite lookup_delete_ne; [done|]. intros <-. rewrite Hb in Hc. by simplify_eq.
Qed.

(** The device reads the next entry of the available ring. *)
Lemma inv_take s Q U h : inv m0 s Q U -> seen (sv s) <> avail_idx (sd s) -> arr_get (avail_ring (sd s)) (seen (sv s) mod NUM) = Some h ->
  exists Q', inv m0 (mkSys (sd s) (mkDev (u16 (seen (sv s) + 1)) (taken (sv s) ++ [h]) (sectors (sv s))) (calls s) (log s)) Q' U.
Proof.
  intros HI Hne Hh. pose proof HI as [L A B R C O F H N (A1 & A2 & A3) Us Hs].
  destruct Q as [|q Q]; [exfalso; apply Hne; rewrite A2; unfold u16; rewrite uwrap_small; simpl; lia|].
  apply ring_head in A1 as Hq. rewrite Hq in Hh. simplify_eq. exists Q.
  assert (forall g, g ∈ Q ++ (taken (sv s) ++ [h]) <-> g ∈ (h :: Q) ++ taken (sv s)) as Hmem by set_solver.
  split; cbn [sd sv calls log taken seen sectors]; try done.
  - intros b w h' m t k o Hc. destruct (C _ _ _ _ _ _ _ Hc) as (x & i & Hok). exists x, i.
    eapply call_ok_frame; [exact Hok|..]; try done.
  - intros g Hg. apply H. set_solver.
  - rewrite <- app_assoc. eapply NoDup_Permutation_proper; [|exact N]. simpl. symmetry.
    rewrite (app_assoc Q), (app_assoc Q (taken _)). apply Permutation_middle.
  - split_and!; [by eapply ring_tail| | |].
    + rewrite A2, u16_add. f_equal. simpl. lia.
    + apply uwrap_range. lia.
    + apply uwrap_range. lia.
Qed.

(** The interrupt handler takes the next entry of the used ring. *)
Definition reaped (b : nat) (x : buf) (d : disk) : disk :=
  with_used_idx (u16 (used_idx d + 1)) (with_woken (buf_chan b :: woken d) (with_bufs (<[b := set_bdisk false x]> (bufs d)) d)).

Lemma inv_reap s Q U h : inv m0 s Q (h :: U) -> exists b x i,
  arr_get (used_ring (sd s)) (used_idx (sd s) mod NUM) = Some h /\ used_idx (sd s) <> used_i (sd s) /\
  arr_get (infos (sd s)) h = Some i /\ status i = 0 /\ info_b i = Some b /\ bufs (sd s) !! b = Some x /\
  inv m0 (mkSys (reaped b x (sd s)) (sv s) (calls s) (log s)) Q U.
Proof.
  intros HI. pose proof (inv_bound _ _ _ HI) as Hbd. pose proof HI as [L A B R C O F H N As (U1 & U2 & U3) Hs].
  destruct (H h ltac:(set_solver)) as (b & w & m & t & k & o & Hc). destruct (C _ _ _ _ _ _ _ Hc) as (x & i & Hok).
  pose proof Hok as [J1 J2 J3 J4 [J5 J5'] J6 J7].
  assert (h ∉ Q ++ taken (sv s) /\ h ∉ U /\ NoDup (Q ++ taken (sv s) ++ U)) as (NQ & NU & ND).
  { rewrite app_assoc in N. apply NoDup_app in N as (N1 & N2 & N3). apply NoDup_cons in N3 as [N3 N4]. split_and!; [|done|].
    - intros E. apply (N2 h E). by left.
    - rewrite app_assoc. apply NoDup_app. split_and!; [done|set_solver|done]. }
  destruct J7 as [(E & _)|(_ & E1 & E2 & E3 & E4)]; [done|].
  exists b, x, i. split_and!; [by eapply ring_head| |done|done|done|done|].
  - intros E. rewrite U2 in E. apply ring_empty in E; [done|done|simpl in *; lia].
  - assert (b < length (bufs (sd s)))%nat as Hlt by (by eapply lookup_lt_Some).
    split; cbn [sd sv calls log]; try done.
    + intros b' y. cbn. destruct (decide (b' = b)) as [->|Hne].
      * rewrite list_lookup_insert_eq by done. intros [= <-]. by apply (B b x).
      * rewrite list_lookup_insert_ne by done. apply B.
    + intros b' c Hc'. cbn. rewrite length_insert. by eapply R.
    + intros b' w' h' m' t' k' o' Hc'. destruct (decide (b' = b)) as [->|Hne].
      * rewrite Hc in Hc'. simplify_eq. exists (set_bdisk false x), i. split; try done; cbn.
        -- by apply list_lookup_insert_eq.
        -- right. split_and!; try done.
      * destruct (C _ _ _ _ _ _ _ Hc') as (y & j & Hok'). exists y, j. eapply call_ok_frame; [exact Hok'|..]; cbn; try done.
        -- by rewrite list_lookup_insert_ne.
        -- assert (h' <> h); [|set_solver]. intros ->. apply Hne. by apply (O h b' b _ _ Hc' Hc); left.
    + intros g Hg. apply H. set_solver.
    + split_and!; [by eapply ring_tail| |apply uwrap_range; lia..].
      change (used_i (sd s) = u16 (u16 (used_idx (sd s) + 1) + Z.of_nat (length U))).
      rewrite U2, u16_add. f_equal. simpl. lia.
Qed.

Lemma intr_loop_run fuel : forall s Q U, inv m0 (mkSys (with_vlock false (sd s)) (sv s) (calls s) (log s)) Q U -> vlock (sd s) = true -> (length U < fuel)%nat ->
  exists d, intr_loop fuel (sd s) = Ok tt d /\ vlock d = true /\ inv m0 (mkSys (with_vlock false d) (sv s) (calls s) (log s)) Q [].
Proof.
  induction fuel as [|fuel IH]; intros s Q U HI HL Hf; [lia|]. cbn [intr_loop].
  rewrite (bind_ok get _ (sd s) (sd s) (sd s)) by done. destruct U as [|h U].
  - destruct (iv_used _ _ _ _ HI) as (_ & E & Hr). cbn in E, Hr. exists (sd s). split_and!; [|done|done].
    rewrite decide_True; [done|]. rewrite E. unfold u16. rewrite uwrap_small; lia.
  - destruct (inv_reap _ _ _ _ HI) as (b & x & i & E1 & E2 & E3 & E4 & E5 & E6 & HI'). cbn [sd] in *.
    rewrite decide_False by exact E2. rewrite (bind_ok _ _ _ _ _ (at_run used_ring _ (sd s) _ E1)).
    rewrite (bind_ok _ _ _ _ _ (at_run infos _ (sd s) _ E3)), decide_False, E5 by (rewrite E4; naive_solver).
    unfold upd_buf. rewrite (bind_ok _ _ _ _ _ (upd_run bufs with_bufs _ _ (sd s) _ (buf_get _ _ _ E6))), Nat2Z.id.
    destruct (IH (mkSys (reaped b x (sd s)) (sv s) (calls s) (log s)) Q U HI' HL ltac:(simpl in *; lia)) as (d & Hrun & Hd & HId).
    exists d. split_and!; [exact Hrun|done|done].
Qed.

Lemma intr_run s Q U rd : inv m0 s Q U ->
  exists d, virtio_disk_intr rd (sd s) = Ok tt d /\ inv m0 (mkSys d (sv s) (calls s) (log s)) Q [].
Proof.
  intros HI. unfold virtio_disk_intr. rewrite (bind_ok _ _ _ _ _ (vacquire_run _ (iv_lock _ _ _ _ HI))).
  unfold write_reg. erewrite bind_ok by done. set (d1 := with_regs _ _).
  destruct (intr_loop_run intr_fuel (mkSys d1 (sv s) (calls s) (log s)) Q U) as (d & Hrun & Hd & HI').
  - by apply (inv_frame s Q U); try done; apply HI.
  - done.
  - pose proof (inv_bound s Q U HI). unfold intr_fuel. change (2 ^ 16) with 65536. lia.
  - exists (with_vlock false d). split; [|done]. cbn [sd] in Hrun. rewrite (bind_ok _ _ _ _ _ Hrun).
    unfold release. by rewrite Hd.
Qed.

Lemma chain_of_call d Q T U lg b w h m t k o x i : call_ok d Q T U lg b w h m t k o x i ->
  chain_of d h = Some (mkRequest w (sector_of x) b h).
Proof.
  intros [_ (D1 & D2 & D3) Hop _ _ _ _]. unfold chain_of. rewrite D1. cbn [mbind option_bind d_head next].
  rewrite D2. cbn [mbind option_bind d_data next]. rewrite D3. cbn [mbind option_bind d_head d_data d_status next addr]. rewrite Hop.
  cbn [mbind option_bind op_of rtype]. destruct w; by rewrite decide_True by (split_and!; try done; naive_solver).
Qed.
Lemma sector_val x : 0 <= blockno x < 2 ^ 31 -> sector_of x = 2 * blockno x.
Proof.
  intros H. unfold sector_of. change (BSIZE / 512) with 2. unfold u32. rewrite uwrap_small; [lia|].
  change (2 ^ 32) with (2 * 2 ^ 31). lia.
Qed.

Lemma call_ok_log d Q T U lg b w h m t k o x i e : call_ok d Q T U lg b w h m t k o x i -> e_buf e <> b ->
  call_ok d Q T U (lg ++ [e]) b w h m t k o x i.
Proof.
  intros [A B C D E F G] He. split; try done.
  - rewrite length_app. lia.
  - unfold none_yet, once in *. rewrite drop_app_le by done. destruct G as [(G1 & G2 & G3 & G4)|(G1 & G2 & G3 & (l1 & l2 & G4 & G5 & G6 & G7) & G8)]; [left|right].
    + split_and!; try done. apply Forall_app. by split; [|constructor].
    + split_and!; try done. exists l1, (l2 ++ [e]). rewrite G4, <- app_assoc. split_and!; try done.
      apply Forall_app. by split; [|constructor].
Qed.

Lemma inv_done s Q U l1 h l2 q x i : inv m0 s Q U -> taken (sv s) = l1 ++ h :: l2 -> chain_of (sd s) h = Some q ->
  bufs (sd s) !! q_buf q = Some x -> arr_get (infos (sd s)) (q_status q) = Some i ->
  let l := if q_write q then data x else read_block (sectors (sv s)) (q_sector q) in
  inv m0 (mkSys (finish q h x i l (sd s))
            (mkDev (seen (sv s)) (l1 ++ l2) (if q_write q then write_block (sectors (sv s)) (q_sector q) l else sectors (sv s)))
            (calls s) (log s ++ [mkEntry (q_write q) (q_buf q) (q_sector q) l])) Q (U ++ [h]).
Proof.
  intros HI HT Hq Hx Hi l. pose proof (inv_bound _ _ _ HI) as Hbd.
  pose proof HI as [L (Af & Ad & Aa & Au & Ai & Ao) B R C O F H N As (U1 & U2 & U3) Hs].
  rewrite HT in *. destruct (H h ltac:(set_solver)) as (b & w & m & t & k & o & Hc).
  destruct (C _ _ _ _ _ _ _ Hc) as (x' & i' & Hok). rewrite (chain_of_call _ _ _ _ _ _ _ _ _ _ _ _ _ _ Hok) in Hq.
  injection Hq as <-. cbn [q_write q_sector q_buf q_status] in *.
  pose proof Hok as [J1 J2 J3 J4 [J5 J5'] J6 J7]. rewrite Hx in J4. injection J4 as ->. rewrite Hi in J5. injection J5 as ->.
  rewrite (sector_val x') in * by (by eapply B).
  assert (h ∉ Q ++ l1 ++ l2 /\ h ∉ U) as [NQ NU].
  { rewrite <- !app_assoc in N. simpl in N. apply NoDup_app in N as (N1 & N2 & N3). apply NoDup_app in N3 as (N3 & N4 & N5).
    apply NoDup_cons in N5 as [N5 N6]. set_solver. }
  destruct J7 as [(_ & K1 & K2 & K3)|(E & _)]; [|exfalso; apply E; set_solver].
  destruct J1 as (Hh & Hm & Ht & Nhm & Nht & Nmt). assert (b < length (bufs (sd s)))%nat as Hlt by (by eapply lookup_lt_Some).
  set (y := if w then x' else set_data l x'). assert (blockno y = blockno x' /\ bdisk y = bdisk x') as [Y1 Y2] by (by destruct w).
  set (e := mkEntry w b (2 * blockno x') l).
  split; cbn [sd sv calls log taken seen sectors]; try done.
  - unfold arrays. cbn. split_and!; auto.
  - intros b' z. cbn. destruct (decide (b' = b)) as [->|Hne].
    + rewrite list_lookup_insert_eq by done. intros [= <-]. fold y. rewrite Y1. by apply (B b).
    + rewrite list_lookup_insert_ne by done. apply B.
  - intros b' c Hc'. cbn. rewrite length_insert. by eapply R.
  - intros b' w' h' m' t' k' o' Hc'. destruct (decide (b' = b)) as [->|Hne].
    + rewrite Hc in Hc'. simplify_eq. exists y, (mkInfo (info_b i') 0). split; try done; cbn.
      * rewrite J3, (sector_val y), Y1; [done|]. rewrite Y1. by apply (B b).
      * by apply list_lookup_insert_eq.
      * by rewrite get_insert, decide_True.
      * rewrite length_app. lia.
      * right. split_and!; [set_solver|rewrite Y2; set_solver|done| |].
        -- exists (drop k' (log s)), []. rewrite Y1. rewrite drop_app_le by done. split_and!; [|done|done|done].
           do 2 f_equal. unfold e. f_equal. unfold y, l. by destruct w'.
        -- intros ->. done.
    + destruct (C _ _ _ _ _ _ _ Hc') as (z & j & Hok'). exists z, j.
      assert (h' <> h) as Hh' by (intros ->; apply Hne; by apply (O h b' b _ _ Hc' Hc); left).
      pose proof (co_idx _ _ _ _ _ _ _ _ _ _ _ _ _ _ Hok') as (I1 & _).
      apply call_ok_log; [|cbn; done]. eapply call_ok_frame; [exact Hok'|..]; cbn; try done.
      * by rewrite get_insert, decide_False.
      * by rewrite list_lookup_insert_ne.
      * set_solver.
      * set_solver.
  - intros g Hg. apply H. set_solver.
  - eapply NoDup_Permutation_proper; [|exact N]. rewrite <- !app_assoc. f_equiv. f_equiv. simpl. rewrite app_assoc. 
    symmetry. rewrite (Permutation_cons_append (l2 ++ U) h). done.
  - split_and!; [| |exact (proj1 U3)|exact (proj2 U3)].
    + cbn [used_ring finish with_used used_idx]. change (ring_holds (<[Z.to_nat (used_i (sd s) mod NUM) := h]> (used_ring (sd s))) (used_idx (sd s)) (U ++ [h])).
      rewrite U2, u16_mod. apply ring_snoc; [done|done|]. rewrite length_app in Hbd. simpl in Hbd. lia.
    + change (u16 (used_i (sd s) + 1) = u16 (used_idx (sd s) + Z.of_nat (length (U ++ [h])))).
      rewrite U2, u16_add, length_app. f_equal. simpl. lia.
  - assert (l = if w then data x' else read_block (sectors (sv s)) (2 * blockno x')) as El
      by (unfold l; rewrite sector_val; [done|by apply (B b)]).
    unfold e. rewrite El. destruct w; by constructor.
Qed.

(** ** Every step *)

Lemma next_submitted b w h m t x d : eight (descs d) -> idx h -> idx m -> idx t -> h <> m -> h <> t -> m <> t ->
  next_of (submitted b w h m t x d) h = m /\ next_of (submitted b w h m t x d) m = t.
Proof.
  intros Hd Hh Hm Ht N1 N2 N3. unfold next_of. cbn. rewrite !get_insert by auto.
  rewrite (decide_False (P := h = t)), (decide_False (P := h = m)), (decide_True (P := h = h)) by done.
  by rewrite (decide_False (P := m = t)), (decide_True (P := m = m)) by done.
Qed.

Lemma start_run s Q U b w : inv m0 s Q U -> calls s !! b = Some (Starting w) ->
  (exists d, rw_start b w (sd s) = Blocked free_chan d /\ inv m0 (mkSys d (sv s) (calls s) (log s)) Q U) \/
  (exists h d1 d2, rw_start b w (sd s) = Ok h d1 /\ rw_wait b h d1 = Blocked (buf_chan b) d2 /\
     inv m0 (mkSys d2 (sv s) (<[b := Waiting w h (next_of d2 h) (next_of d2 (next_of d2 h)) (length (log s)) (bytes_of (sd s) b)]> (calls s)) (log s)) (Q ++ [h]) U).
Proof.
  intros HI Hc. destruct (lookup_lt_is_Some_2 (bufs (sd s)) b) as [x Hx]; [by eapply (iv_range _ _ _ _ HI)|].
  pose proof (iv_arrays _ _ _ _ HI) as HA. pose proof (iv_lock _ _ _ _ HI) as HL.
  destruct (rw_start_run b w (sd s) x HA HL Hx) as [(d & Hrun & [T1 T2 T3])|(h & m & t & Hh & Hm & Ht & N1 & N2 & N3 & F1 & F2 & F3 & Hrun)].
  - left. exists d. split; [done|]. rewrite T1. destruct HA as (? & ? & ? & ? & ? & ?).
    apply (inv_frame s Q U); try done. apply HI.
  - right. set (d2 := submitted b w h m t x (sd s)) in *. exists h, (with_vlock true d2), d2. destruct HA as (A1 & A2 & A3 & A4 & A5 & A6).
    destruct (next_submitted b w h m t x (sd s) A2 Hh Hm Ht N1 N2 N3) as [E1 E2]. fold d2 in E1, E2.
    split_and!; [done| |].
    + unfold rw_wait. erewrite bind_ok.
      2: { apply (at_run bufs), buf_get. cbn. apply list_lookup_insert_eq. by eapply lookup_lt_Some. }
      cbn [bdisk set_bdisk]. unfold release, block, bind. cbn [vlock with_vlock]. f_equal. change (with_vlock false d2 = d2).
      assert (vlock d2 = false) as H2 by done. destruct d2. cbn in *. by subst.
    + rewrite E1, E2. unfold bytes_of. rewrite Hx. by apply inv_submit.
Qed.

Lemma wait_run s Q U b w h m t k o : inv m0 s Q U -> calls s !! b = Some (Waiting w h m t k o) ->
  exists x i, call_ok (sd s) Q (taken (sv s)) U (log s) b w h m t k o x i /\
  (acquire ;; rw_wait b h) (sd s) = if bdisk x then Blocked (buf_chan b) (sd s) else Ok tt (freed h m t i (sd s)).
Proof.
  intros HI Hc. destruct (iv_call _ _ _ _ HI _ _ _ _ _ _ _ Hc) as (x & i & Hok). exists x, i. split; [done|].
  pose proof Hok as [(H1 & H2 & H3 & N1 & N2 & N3) (D1 & D2 & D3) _ Hx [Hi _] _ _]. pose proof (iv_lock _ _ _ _ HI) as HL.
  pose proof (inv_owned _ _ _ _ _ _ _ _ _ _ HI Hc) as HF.
  destruct (HF h ltac:(set_solver)) as [_ F1]. destruct (HF m ltac:(set_solver)) as [_ F2]. destruct (HF t ltac:(set_solver)) as [_ F3].
  rewrite (bind_ok _ _ _ _ _ (vacquire_run _ HL)).
  rewrite (rw_wait_run b w (with_vlock true (sd s)) h m t x i (iv_arrays _ _ _ _ HI)) by done.
  destruct (bdisk x); f_equal; unfold freed, with_vlock; cbn; destruct (sd s); cbn in *; by subst.
Qed.

Lemma sys_inv_step device s s' Q U : (forall x o y, device x o y -> device_step x o y) ->
  inv m0 s Q U -> step device s s' -> exists Q' U', inv m0 s' Q' U'.
Proof.
  intros Hdev HI Hs. destruct Hs as [s b x y Hc Hx Hy Hd|s b w Hc Hb|s b w h d1 c d2 Hc H1 H2|s b w c d Hc H1|s b w h m t k o d Hc H1|s b w h m t k o c d Hc H1|s rd d H1|s o d v H1].
  - exists Q, U. pose proof (iv_arrays _ _ _ _ HI) as HA. pose proof (iv_lock _ _ _ _ HI) as HL.
    apply (inv_frame s Q U); try done; cbn.
    + by rewrite length_insert.
    + intros b' z. destruct (decide (b' = b)) as [->|Hne].
      * rewrite list_lookup_insert_eq by (by eapply lookup_lt_Some). intros [= <-]. apply Hy.
      * rewrite list_lookup_insert_ne by done. apply HI.
    + intros b' c' Hc'. rewrite list_lookup_insert_ne; [done|]. intros <-. congruence.
  - exists Q, U. destruct HI as [L A B R C O F H N As Us Hs]. split; cbn [sd sv calls log]; try done.
    + intros b' c. destruct (decide (b' = b)) as [->|Hne]; [done|]. rewrite lookup_insert_ne by done. apply R.
    + intros b' w' h m t k o. destruct (decide (b' = b)) as [->|Hne]; [by rewrite lookup_insert_eq|].
      rewrite lookup_insert_ne by done. apply C.
    + intros i b1 b2 c1 c2. destruct (decide (b1 = b)) as [->|H1]; [rewrite lookup_insert_eq; intros [= <-] _ Hi%not_elem_of_nil; done|].
      destruct (decide (b2 = b)) as [->|H2]; [rewrite lookup_insert_eq; intros _ [= <-] _ Hi%not_elem_of_nil; done|].
      rewrite !lookup_insert_ne by done. apply O.
    + intros i Hi. rewrite (F i Hi). split; intros (b' & c & Hc' & Hi'); exists b', c; (split; [|done]).
      * rewrite lookup_insert_ne; [done|]. intros <-. congruence.
      * destruct (decide (b' = b)) as [->|Hne]; [|by rewrite lookup_insert_ne in Hc'].
        rewrite lookup_insert_eq in Hc'. simplify_eq. by apply not_elem_of_nil in Hi'.
    + intros h Hh. destruct (H h Hh) as (b' & w' & m & t & k & o & Hc'). exists b', w', m, t, k, o.
      rewrite lookup_insert_ne; [done|]. intros <-. congruence.
  - destruct (start_run s Q U b w HI Hc) as [(d & Hr & _)|(h' & d1' & d2' & Hr1 & Hr2 & HI')]; [congruence|].
    rewrite H1 in Hr1. injection Hr1 as <- <-. rewrite H2 in Hr2. injection Hr2 as _ <-. eauto.
  - destruct (start_run s Q U b w HI Hc) as [(d' & Hr & HI')|(h' & d1' & d2' & Hr1 & _)]; [|congruence].
    rewrite H1 in Hr. injection Hr as _ <-. eauto.
  - destruct (wait_run s Q U b w h m t k o HI Hc) as (x & i & Hok & Hr). rewrite H1 in Hr.
    destruct (bdisk x) eqn:E; [done|]. injection Hr as ->. exists Q, U. by eapply inv_return.
  - destruct (wait_run s Q U b w h m t k o HI Hc) as (x & i & Hok & Hr). rewrite H1 in Hr.
    destruct (bdisk x) eqn:E; [|done]. injection Hr as _ ->. exists Q, U. by destruct s.
  - destruct (intr_run s Q U rd HI) as (d' & Hr & HI'). rewrite H1 in Hr. injection Hr as <-. eauto.
  - apply Hdev in H1. inversion H1; subst; cbn [option_list].
    + rewrite app_nil_r. destruct (inv_take s Q U h HI) as [Q' HI']; [done|done|]. eauto.
    + exists Q, (U ++ [h]). by apply inv_done.
Qed.

End Inv.

(** ** From the initialised driver on *)

(** struct disk before virtio_disk_init: all zero. *)
Definition zero_disk (bs : list buf) : disk :=
  mkDisk false (replicate 8 false) (replicate 8 no_desc) (replicate 8 0) 0 (replicate 8 0) 0 0
    (replicate 8 (mkInfo None 0)) (replicate 8 (mkReq 0 0 0)) bs [] [].

Lemma write_reg_run r v s : write_reg r v s = Ok tt (with_regs ((r, v) :: regs s) s).
Proof. done. Qed.
Lemma free_all_run s : free s = replicate 8 false ->
  for_each (zrange 0 NUM) (fun i => upd_free i true) s = Ok tt (with_free (replicate 8 true) s).
Proof. intros H. destruct s. cbn in H. subst. reflexivity. Qed.
Lemma init_run rd pages bs d : virtio_disk_init rd pages (zero_disk bs) = Ok tt d ->
  d = with_regs (regs d) (with_free (replicate 8 true) (zero_disk bs)).
Proof.
  intros H. unfold virtio_disk_init in H.
  rewrite (bind_ok (modify (with_vlock false)) _ (zero_disk bs) tt (zero_disk bs) eq_refl) in H.
  case_decide; [done|]. rewrite !(bind_ok _ _ _ _ _ (write_reg_run _ _ _)) in H. case_decide; [done|].
  rewrite (bind_ok _ _ _ _ _ (write_reg_run _ _ _)) in H. case_decide; [done|]. case_decide; [done|]. case_decide; [done|].
  destruct pages as [[p1 p2] p3]. case_decide; [done|].
  erewrite (bind_ok (modify _)) in H by reflexivity. rewrite !(bind_ok _ _ _ _ _ (write_reg_run _ _ _)) in H.
  match type of H with bind _ _ ?t = _ => rewrite (bind_ok _ _ _ _ _ (free_all_run t eq_refl)) in H end.
  rewrite write_reg_run in H. match type of H with Ok _ ?t = _ => assert (d = t) as -> by congruence end. reflexivity.
Qed.

Lemma inv_init m0 rd pages bs d : (forall x, x ∈ bs -> 0 <= blockno x < 2 ^ 31) ->
  virtio_disk_init rd pages (zero_disk bs) = Ok tt d -> inv m0 (mkSys d (mkDev 0 [] m0) ∅ []) [] [].
Proof.
  intros Hbs Hd. apply init_run in Hd. rewrite Hd. split; cbn [sd sv calls log taken seen sectors]; try done.
  - intros b x Hx. apply Hbs. by eapply list_elem_of_lookup_2.
  - intros i Hi. split; [|by intros (b & c & Hc & _)]. intros E. exfalso. apply arr_get_Some in E as [_ E].
    apply (lookup_replicate_1 8 true) in E as [E _]. done.
  - intros h Hh. by apply not_elem_of_nil in Hh.
  - constructor.
  - constructor.
Qed.

Lemma inv_reach device m0 s s' Q U : (forall x o y, device x o y -> device_step x o y) ->
  inv m0 s Q U -> rtc (step device) s s' -> exists Q' U', inv m0 s' Q' U'.
Proof.
  intros Hdev HI Hr. revert Q U HI. induction Hr as [s|s1 s2 s3 H12 _ IH]; intros Q U HI; [by exists Q, U|].
  destruct (sys_inv_step m0 device s1 s2 Q U Hdev HI H12) as (Q' & U' & HI'). by eapply IH.
Qed.


(** A device that answers, and a buffer for block 3. *)
Definition rd1 (r : Z) : Z :=
  if decide (r = MMIO_MAGIC_VALUE) then 0x74726976 else if decide (r = MMIO_VERSION) then 2 else if decide (r = MMIO_DEVICE_ID) then 2
  else if decide (r = MMIO_VENDOR_ID) then 0x554d4551 else if decide (r = MMIO_STATUS) then 11 else if decide (r = MMIO_QUEUE_NUM_MAX) then 1024 else 0.
Definition bufs1 : list buf := [mkBuf 3 false [1; 2; 3]].
Definition result {A} (r : res disk A) : disk := match r with Ok _ d | Blocked _ d => d | Fault _ => zero_disk [] end.
Definition booted : disk := result (virtio_disk_init rd1 (4096, 8192, 12288) (zero_disk bufs1)).
Definition asked : disk := result (virtio_disk_rw 0 true booted).
Definition served : disk := finish (mkRequest true 6 0 0) 0 (mkBuf 3 true [1; 2; 3]) (mkInfo (Some 0%nat) 255) [1; 2; 3] asked.
Definition write1 : sys :=
  mkSys served (mkDev 1 [] (write_block ∅ 6 [1; 2; 3])) {[0%nat := Waiting true 0 1 2 0 [1; 2; 3]]} [mkEntry true 0 6 [1; 2; 3]].

Definition waiting1 : gmap nat call := {[0%nat := Waiting true 0 1 2 0 [1; 2; 3]]}.
Lemma step_to s a b : step device_step s a -> a = b -> step device_step s b.
Proof. by intros H <-. Qed.

Lemma write1_reach : rtc (step device_step) (mkSys booted (mkDev 0 [] ∅) ∅ []) write1.
Proof.
  eapply rtc_l; [apply (st_call _ _ 0 true); [done|vm_compute; lia]|]. cbn [sd sv calls log].
  apply (rtc_l _ _ (mkSys asked (mkDev 0 [] ∅) waiting1 [])).
  { eapply step_to; [eapply (st_start _ _ 0 true 0 _ _ asked); [done|vm_compute; reflexivity|vm_compute; reflexivity]|].
    vm_compute. reflexivity. }
  apply (rtc_l _ _ (mkSys asked (mkDev 1 [0] ∅) waiting1 [])).
  { apply (st_dev _ (mkSys asked (mkDev 0 [] ∅) waiting1 []) None asked (mkDev 1 [0] ∅)).
    apply (dev_take asked (mkDev 0 [] ∅) 0); by vm_compute. }
  apply (rtc_l _ _ write1); [|apply rtc_refl].
  apply (st_dev _ (mkSys asked (mkDev 1 [0] ∅) waiting1 []) (Some (mkEntry true 0 6 [1; 2; 3])) served
           (mkDev 1 [] (write_block ∅ 6 [1; 2; 3]))).
  apply (dev_done asked (mkDev 1 [0] ∅) [] 0 [] (mkRequest true 6 0 0) (mkBuf 3 true [1; 2; 3]) (mkInfo (Some 0%nat) 255)); by vm_compute.
Qed.

