(* ===== verification/Exec.v ===== *)
(** * kernel/exec.c and sys_exec of sysfile.c: a new user image

    The file system of [Fs], the memory of [Kalloc] and [Vm], and the fields of the calling
    process that exec changes.  The headers are decoded from the bytes of the file.  argv is
    the addresses of the strings in kernel memory up to the null pointer, and [ustack] the
    address of the array on the kernel stack. *)

From Stdlib Require Import ZArith Lia.
From stdpp Require Import base numbers list gmap strings.
From S2P Require Import Prelude Spinlock Kalloc Vm.
From S2P Require Fs.
Open Scope Z_scope.

Definition ELF_MAGIC : Z := 0x464C457F.
Definition ELF_PROG_LOAD : Z := 1.
Definition MAXARG : Z := 32.
Definition USERSTACK : Z := 1.

(** The little-endian integer of [n] bytes at [off]. *)
Definition field (l : list Z) (off n : Z) : Z := Fs.unle (Fs.slice l off n).
Record elfhdr : Type := mkElf { e_magic : Z; entry : Z; phoff : Z; phnum : Z }.
Definition elf_of (l : list Z) : elfhdr := mkElf (field l 0 4) (field l 24 8) (field l 32 8) (field l 56 2).
Definition elf_size : Z := 64.
Record proghdr : Type := mkPh { ph_type : Z; ph_flags : Z; ph_off : Z; vaddr : Z; filesz : Z; memsz : Z }.
Definition ph_of (l : list Z) : proghdr :=
  mkPh (field l 0 4) (field l 4 4) (field l 8 8) (field l 16 8) (field l 32 8) (field l 40 8).
Definition ph_size : Z := 56.

Definition flags2perm (flags : Z) : Z :=
  let perm := if decide (Z.land flags 1 <> 0) then PTE_X else 0 in
  if decide (Z.land flags 2 <> 0) then Z.lor perm PTE_W else perm.

(** What exec changes of struct proc and its trapframe. *)
Record image : Type := mkImage { sz : Z; pagetable : Z; a1 : Z; epc : Z; usp : Z; pname : list Z }.
Record ex : Type := mkEx { efs : Fs.fs; emem : K; eproc : image }.
Definition with_fs v s := mkEx v (emem s) (eproc s).
Definition with_mem v s := mkEx (efs s) v (eproc s).
Definition with_proc v s := mkEx (efs s) (emem s) v.

Definition in_fs {A} (m : M Fs.fs A) : M ex A := fun s =>
  match m (efs s) with
  | Ok a t => Ok a (with_fs t s) | Blocked c t => Blocked c (with_fs t s) | Fault f => Fault f
  end.
Definition in_mem {A} (m : M K A) : M ex A := fun s =>
  match m (emem s) with
  | Ok a t => Ok a (with_mem t s) | Blocked c t => Blocked c (with_mem t s) | Fault f => Fault f
  end.

(** strlen of a string in kernel memory. *)
Fixpoint strlen (fuel : nat) (a : Z) : M K Z :=
  match fuel with
  | O => fun _ => Fault OutOfFuel
  | S fuel => let! b := load8 a in if decide (b = 0) then ret 0 else let! n := strlen fuel (a + 1) in ret (n + 1)
  end.

Section Exec.
(** The end of the kernel, the trampoline page, the trapframe of the process, its array
    ustack, and the bytes a path element is first read into. *)
Context (end_ trampoline trapframe ustack : Z) (name0 : list Z).

Fixpoint loadseg_loop (fuel : nat) (pt va : Z) (ip : nat) (offset size i : Z) : M ex Z :=
  if decide (i < size) then
    match fuel with
    | O => fun _ => Fault OutOfFuel
    | S fuel =>
        let! pa := in_mem (walkaddr pt (u64 (va + i))) in
        if decide (pa = 0) then panic "loadseg: address should exist"
        else
          let n := if decide (size - i < PGSIZE) then size - i else PGSIZE in
          let! (r, l) := in_fs (Fs.readi ip Fs.whole (u32 (offset + i)) n) in
          in_mem (store_bytes pa l) ;;
          if decide (r <> n) then ret (-1) else loadseg_loop fuel pt va ip offset size (u32 (i + PGSIZE))
    end
  else ret 0.
Definition loadseg (pt va : Z) (ip : nat) (offset size : Z) : M ex Z :=
  loadseg_loop (Z.to_nat (size / PGSIZE + 1)) pt va ip offset size 0.

(** The loop over the program headers: the size so far, and whether it went well. *)
Fixpoint load_program (n : nat) (pt : Z) (ip : nat) (off size : Z) : M ex (Z * bool) :=
  match n with
  | O => ret (size, true)
  | S n =>
      let! (r, l) := in_fs (Fs.readi ip Fs.whole (u32 off) ph_size) in
      if decide (r <> ph_size) then ret (size, false)
      else
        let ph := ph_of l in
        if decide (ph_type ph <> ELF_PROG_LOAD) then load_program n pt ip (i32 (off + ph_size)) size
        else if decide (memsz ph < filesz ph) then ret (size, false)
        else if decide (u64 (vaddr ph + memsz ph) < vaddr ph) then ret (size, false)
        else if decide (vaddr ph mod PGSIZE <> 0) then ret (size, false)
        else
          let! sz1 := in_mem (uvmalloc end_ pt size (u64 (vaddr ph + memsz ph)) (flags2perm (ph_flags ph))) in
          if decide (sz1 = 0) then ret (size, false)
          else
            let! r := loadseg pt (vaddr ph) ip (u32 (ph_off ph)) (u32 (filesz ph)) in
            if decide (r < 0) then ret (sz1, false)
            else load_program n pt ip (i32 (off + ph_size)) sz1
  end.

(** The current process, as copyout sees it. *)
Definition current : M ex uproc := gets (fun s => mkUproc (sz (eproc s)) (pagetable (eproc s))).

(** The loop over the arguments: argc and sp, or failure. *)
Fixpoint push_args (argv : list Z) (pt stackbase argc sp : Z) : M ex (option (Z * Z)) :=
  match argv with
  | [] => ret (Some (argc, sp))
  | a :: argv =>
      if decide (argc >= MAXARG) then ret None
      else
        let! len := in_mem (strlen (Z.to_nat PGSIZE + 1) a) in
        let sp := u64 (sp - (len + 1)) in
        let sp := sp - sp mod 16 in
        if decide (sp < stackbase) then ret None
        else
          let! p := current in
          let! r := in_mem (copyout end_ p pt sp a (len + 1)) in
          if decide (r < 0) then ret None
          else in_mem (store64 (ustack + 8 * argc) sp) ;; push_args argv pt stackbase (argc + 1) sp
  end.

(** The part of the path after the last slash. *)
Fixpoint last_elem (path last : list Z) : list Z :=
  match path with
  | [] => last
  | c :: path => last_elem path (if decide (c = Fs.SLASH) then path else last)
  end.

(** bad: with the inode still locked, or after it has been put. *)
Definition bad (ip : option nat) (pt size : Z) : M ex Z :=
  (if decide (pt <> 0) then in_mem (proc_freepagetable end_ pt size) else ret tt) ;;
  match ip with Some ip => in_fs (Fs.iunlockput ip ;; Fs.end_op) | None => ret tt end ;;
  ret (-1).

(** From the loaded program on: the stack, the arguments, and the commit. *)
Definition build_stack (path : list Z) (argv : list Z) (elf : elfhdr) (pt size : Z) : M ex Z :=
  let! oldsz := gets (fun s => sz (eproc s)) in
  let size := PGROUNDUP64 size in
  let! sz1 := in_mem (uvmalloc end_ pt size (u64 (size + (USERSTACK + 1) * PGSIZE)) PTE_W) in
  if decide (sz1 = 0) then bad None pt size
  else
    in_mem (uvmclear pt (u64 (sz1 - (USERSTACK + 1) * PGSIZE))) ;;
    let stackbase := u64 (sz1 - USERSTACK * PGSIZE) in
    let! r := push_args argv pt stackbase 0 sz1 in
    match r with
    | None => bad None pt sz1
    | Some (argc, sp) =>
        if decide (argc >= MAXARG) then undef "ustack"
        else
          in_mem (store64 (ustack + 8 * argc) 0) ;;
          let sp := u64 (sp - (argc + 1) * 8) in
          let sp := sp - sp mod 16 in
          if decide (sp < stackbase) then bad None pt sz1
          else
            let! p := current in
            let! r := in_mem (copyout end_ p pt sp ustack ((argc + 1) * 8)) in
            if decide (r < 0) then bad None pt sz1
            else
              let! old := gets (fun s => pagetable (eproc s)) in
              modify (with_proc (mkImage sz1 pt sp (entry elf) sp (take 15 (last_elem path path)))) ;;
              in_mem (proc_freepagetable end_ old oldsz) ;;
              ret argc
    end.

Definition kexec (path : list Z) (argv : list Z) : M ex Z :=
  in_fs Fs.begin_op ;;
  let! ip := in_fs (Fs.namei name0 path) in
  match ip with
  | None => in_fs Fs.end_op ;; ret (-1)
  | Some ip =>
      in_fs (Fs.ilock ip) ;;
      let! (r, l) := in_fs (Fs.readi ip Fs.whole 0 elf_size) in
      if decide (r <> elf_size) then bad (Some ip) 0 0
      else
        let elf := elf_of l in
        if decide (e_magic elf <> ELF_MAGIC) then bad (Some ip) 0 0
        else
          let! pt := in_mem (proc_pagetable end_ trampoline trapframe) in
          if decide (pt = 0) then bad (Some ip) 0 0
          else
            let! (size, ok) := load_program (Z.to_nat (phnum elf)) pt ip (i32 (phoff elf)) 0 in
            if negb ok then bad (Some ip) pt size
            else
              in_fs (Fs.iunlockput ip ;; Fs.end_op) ;;
              build_stack path argv elf pt size
  end.

(** ** sys_exec *)

(** fetchaddr and fetchstr, for the arguments of the process: [fetch a] is the word at the
    user address [a], and [fetch_into a p] copies the string at [a] to the page [p]. *)
Context (fetch : Z -> M ex (option Z)) (fetch_into : Z -> Z -> M ex bool).

(** The loop over uargv: the pages that hold the arguments, and whether all went well. *)
Fixpoint fetch_args (n : nat) (uargv i : Z) (argv : list Z) : M ex (list Z * bool) :=
  match n with
  | O => ret (argv, false)
  | S n =>
      let! uarg := fetch (u64 (uargv + 8 * i)) in
      match uarg with
      | None => ret (argv, false)
      | Some uarg =>
          if decide (uarg = 0) then ret (argv, true)
          else
            let! p := in_mem kalloc in
            if decide (p = 0) then ret (argv, false)
            else
              let! ok := fetch_into uarg p in
              if negb ok then ret (argv ++ [p], false) else fetch_args n uargv (i + 1) (argv ++ [p])
      end
  end.
Definition sys_exec (path : option (list Z)) (uargv : Z) : M ex Z :=
  match path with
  | None => ret (-1)
  | Some path =>
      let! (argv, ok) := fetch_args (Z.to_nat MAXARG) uargv 0 [] in
      let! r := (if (ok : bool) then kexec path argv else ret (-1)) in
      for_each argv (fun p => in_mem (kfree end_ p)) ;;
      ret r
  end.

End Exec.
