(* ===== verification/ExecProps.v ===== *)
(** * kernel/exec.c: all or nothing, and the layout of the new stack *)

From Stdlib Require Import ZArith Lia.
From stdpp Require Import base numbers list gmap strings.
From S2P Require Import Prelude Spinlock Kalloc Vm VmSpec Exec.
From S2P Require Fs FsWrite FsProps.
Open Scope Z_scope.

(** ** What a computation does to the process *)

Definition still {A} (m : M ex A) : Prop := forall s a s', m s = Ok a s' -> eproc s' = eproc s.

Lemma still_ret {A} (a : A) : still (ret a).
Proof. by intros s b s' [= _ <-]. Qed.
Lemma still_fault {A} f : still (fun _ => Fault f : res ex A).
Proof. by intros s b s'. Qed.
Lemma still_bind {A B} (m : M ex A) (k : A -> M ex B) : still m -> (forall a, still (k a)) -> still (bind m k).
Proof. intros Hm Hk s b s' H. apply bind_inv in H as (a & t & E1 & E2). rewrite (Hk a _ _ _ E2). by eapply Hm. Qed.
Lemma still_fs {A} (m : M Fs.fs A) : still (in_fs m).
Proof. intros s a s'. unfold in_fs. destruct (m (efs s)); by intros [= <- <-]. Qed.
Lemma still_mem {A} (m : M K A) : still (in_mem m).
Proof. intros s a s'. unfold in_mem. destruct (m (emem s)); by intros [= <- <-]. Qed.
Lemma still_gets {A} (f : ex -> A) : still (gets f).
Proof. by intros s a s' [= _ <-]. Qed.
Lemma still_panic {A} msg : still (panic (A := A) msg).
Proof. by intros s a s'. Qed.
Create HintDb still.
#[local] Hint Resolve still_ret still_fault still_fs still_mem still_gets still_panic : still.
Ltac still := repeat first
  [ progress intros | solve [auto with still nocore] | apply still_bind
  | match goal with |- still (if ?b then _ else _) => destruct b end
  | match goal with |- still (match ?x with _ => _ end) => destruct x end ].

Section Exec.
Context (end_ trampoline trapframe ustack : Z) (name0 : list Z).
Notation kexec := (kexec end_ trampoline trapframe ustack name0).
Notation push_args := (push_args end_ ustack).

Lemma still_loadseg pt va ip off size : still (loadseg pt va ip off size).
Proof.
  unfold loadseg. generalize (Z.to_nat (size / PGSIZE + 1)). intros fuel. generalize 0. induction fuel as [|fuel IH]; intros i; cbn [loadseg_loop].
  - case_decide; [apply still_fault|apply still_ret].
  - still.
Qed.
Lemma still_load n pt ip off size : still (load_program end_ n pt ip off size).
Proof. pose proof still_loadseg. revert off size. induction n as [|n IH]; intros off size; cbn [load_program]; still. Qed.
Lemma still_push argv pt base argc sp : still (push_args argv pt base argc sp).
Proof. revert argc sp. induction argv as [|a argv IH]; intros argc sp; cbn [Exec.push_args]; unfold current; still. Qed.
Lemma still_bad ip pt size : still (bad end_ ip pt size).
Proof. unfold bad. still. Qed.

(** bad returns -1. *)
Lemma bad_result ip pt size s r s' : bad end_ ip pt size s = Ok r s' -> r = -1 /\ eproc s' = eproc s.
Proof.
  intros H. split; [|by eapply still_bad]. unfold bad in H. apply bind_inv in H as (? & ? & _ & H).
  apply bind_inv in H as (? & ? & _ & H). by injection H as <- _.
Qed.

(** ** The stack *)

(** [ptrs] are the places of the arguments: each a multiple of 16, with the [len + 1] bytes of
    its string below the one before; [sp] is the lowest so far. *)
Inductive layout (base : Z) : Z -> list Z -> list Z -> Z -> Prop :=
  | lay_nil top : layout base top [] [] top
  | lay_cons top p len ptrs lens sp : p mod 16 = 0 -> base <= p -> 0 <= len -> p + len + 1 <= top ->
      layout base p ptrs lens sp -> layout base top (p :: ptrs) (len :: lens) sp.

Lemma strlen_bound fuel a s n s' : strlen fuel a s = Ok n s' -> 0 <= n < Z.of_nat fuel.
Proof.
  revert a n s s'. induction fuel as [|fuel IH]; intros a n s s' H; cbn [strlen] in H; [done|].
  apply bind_inv in H as (b & t & _ & H). case_decide; [injection H as <- _; lia|].
  apply bind_inv in H as (k & t' & E & H). injection H as <- _. apply IH in E. lia.
Qed.

(** copyout succeeds only below MAXVA. *)
Lemma copyout_va p pt dst src len s r s' : 0 < len -> copyout end_ p pt dst src len s = Ok r s' -> 0 <= r -> dst < MAXVA + 4096.
Proof.
  intros Hl H Hr. unfold copyout in H. destruct (Z.to_nat len) as [|fuel] eqn:E; [lia|]. cbn [copyout_loop] in H.
  rewrite (decide_False (P := len <= 0)) in H by lia. case_decide as Hva; [injection H as <- _; lia|].
  rewrite pgrounddown_eq in Hva. pose proof (Z.mod_pos_bound dst 4096). lia.
Qed.

Lemma align16 x : 0 <= x -> (x - x mod 16) mod 16 = 0 /\ x - 15 <= x - x mod 16 <= x /\ 0 <= x - x mod 16.
Proof.
  intros Hx. pose proof (Z.mod_pos_bound x 16). pose proof (Z.div_mod x 16 ltac:(done)).
  split; [|lia]. replace (x - x mod 16) with (x / 16 * 16) by lia. by rewrite Z.mod_mul.
Qed.
(** A step down from [sp] that ends below MAXVA has not wrapped. *)
Lemma step_down sp n : 0 <= sp < 2 ^ 63 -> 0 < n <= 8192 -> u64 (sp - n) - u64 (sp - n) mod 16 < MAXVA + 4096 -> u64 (sp - n) = sp - n /\ 0 <= sp - n.
Proof.
  intros Hs Hn Hva. assert (MAXVA = 2 ^ 38) as Hm by done. rewrite Hm in Hva.
  destruct (decide (n <= sp)) as [Hle|Hgt].
  - split; [|lia]. apply uwrap_small. change (2 ^ 64) with (2 * 2 ^ 63). lia.
  - exfalso. assert (u64 (sp - n) = sp - n + 2 ^ 64) as E.
    { unfold u64, uwrap. symmetry. apply (Z.mod_unique_pos _ _ (-1)); [|lia]. change (2 ^ 64) with (2 * 2 ^ 63). lia. }
    rewrite E in Hva. pose proof (Z.mod_pos_bound (sp - n + 2 ^ 64) 16).
    change (2 ^ 38) with 274877906944 in Hva. change (2 ^ 64) with 18446744073709551616 in *. lia.
Qed.

Lemma push_args_run argv pt base argc sp s r s' : 0 <= argc -> 0 <= sp < 2 ^ 63 ->
  push_args argv pt base argc sp s = Ok r s' ->
  match r with
  | None => True
  | Some (argc', sp') => argc' = argc + Z.of_nat (length argv) /\ 0 <= sp' <= sp /\
      exists ptrs lens, length ptrs = length argv /\ layout base sp ptrs lens sp'
  end.
Proof.
  revert argc sp s. induction argv as [|a argv IH]; intros argc sp s Ha Hs H; cbn [Exec.push_args] in H.
  { injection H as <- <-. split_and!; [simpl; lia|lia|lia|]. exists [], []. split; [done|constructor]. }
  destruct (decide (argc >= MAXARG)); [by injection H as <- _|]. apply bind_inv in H as (len & s1 & Hlen & H).
  unfold in_mem in Hlen. destruct (strlen _ a (emem s)) as [len' m| |] eqn:El; [|done|done]. injection Hlen as -> _.
  apply strlen_bound in El. rewrite Nat2Z.inj_add, Z2Nat.id in El by (unfold PGSIZE; lia). unfold PGSIZE in El.
  set (sp1 := u64 (sp - (len + 1)) - u64 (sp - (len + 1)) mod 16) in *.
  destruct (decide (sp1 < base)) as [|Hb]; [by injection H as <- _|]. apply bind_inv in H as (p & s2 & Hp & H). injection Hp as <- <-.
  apply bind_inv in H as (c & s3 & Hc & H). destruct (decide (c < 0)); [by injection H as <- _|].
  unfold in_mem in Hc. destruct (copyout _ _ _ _ _ _ _) as [c' m'| |] eqn:Eo; [|done|done]. injection Hc as -> _.
  apply copyout_va in Eo; [|lia|lia]. destruct (step_down sp (len + 1) Hs ltac:(lia) Eo) as [E E0].
  destruct (align16 (sp - (len + 1)) E0) as (A1 & A2 & A3). unfold sp1 in *. rewrite E in *.
  apply bind_inv in H as (u & s4 & _ & H). apply IH in H; [|lia|lia]. destruct r as [[argc' sp']|]; [|done].
  destruct H as (-> & Hsp & ptrs & lens & Hl & HL). split_and!; [simpl; lia|lia|lia|].
  exists ((sp - (len + 1) - (sp - (len + 1)) mod 16) :: ptrs), (len :: lens). split; [simpl; lia|].
  constructor; [done|lia|lia|lia|done].
Qed.

Lemma alloc_page_result pt old perm a s v s' : alloc_page end_ pt old perm a s = Ok (Some v) s' -> v = 0.
Proof.
  intros H. unfold alloc_page in H. apply bind_inv in H as (m & t & _ & H). case_decide.
  - apply bind_inv in H as (? & ? & _ & H). by injection H as <- _.
  - apply bind_inv in H as (? & ? & _ & H). apply bind_inv in H as (rr & ? & _ & H). case_decide; [|done].
    apply bind_inv in H as (? & ? & _ & H). apply bind_inv in H as (? & ? & _ & H). by injection H as <- _.
Qed.
(** uvmalloc returns the new size, the old one if that is larger, or 0. *)
Lemma uvmalloc_result pt old new perm s r s' : uvmalloc end_ pt old new perm s = Ok r s' -> r = 0 \/ r = old \/ r = new.
Proof.
  intros H. unfold uvmalloc in H. case_decide; [injection H as <- _; auto|].
  apply bind_inv in H as (x & t & E & H). injection H as <- _. destruct x as [v|]; [left|by auto]. cbn.
  revert s E. generalize (pages_from (PGROUNDUP64 old) new). intros l. induction l as [|a l IH]; intros s E; [done|].
  cbn [for_until] in E. apply bind_inv in E as ([w|] & t' & Ea & E); [injection E as <- _; by eapply alloc_page_result|by eapply IH].
Qed.
Lemma in_u64 x : 0 <= PGROUNDUP64 x < 2 ^ 64.
Proof.
  unfold PGROUNDUP64. pose proof (uwrap_range 64 (x + PGSIZE - 1) ltac:(lia)) as H. fold (u64 (x + PGSIZE - 1)) in H.
  change (Z.land (u64 (x + PGSIZE - 1)) (Z.lnot (PGSIZE - 1))) with (PGROUNDDOWN (u64 (x + PGSIZE - 1))). rewrite pgrounddown_eq.
  pose proof (Z.mod_pos_bound (u64 (x + PGSIZE - 1)) 4096 eq_refl). pose proof (Z.mod_le (u64 (x + PGSIZE - 1)) 4096 ltac:(lia) eq_refl). lia.
Qed.
(** uvmclear of the guard page bounds the size. *)
Lemma guard_bound pt sz1 s u s' : 0 <= sz1 < 2 ^ 64 -> uvmclear pt (u64 (sz1 - 8192)) s = Ok u s' -> 8192 <= sz1 < MAXVA + 8192.
Proof.
  intros Hs H. unfold uvmclear, walk in H. case_decide as Hva; [done|]. assert (MAXVA = 2 ^ 38) as Hm by done. rewrite Hm in *.
  destruct (decide (8192 <= sz1)) as [Hle|Hgt].
  - unfold u64 in Hva. rewrite uwrap_small in Hva by lia. lia.
  - exfalso. apply Hva. assert (u64 (sz1 - 8192) = sz1 - 8192 + 2 ^ 64) as ->.
    { unfold u64, uwrap. symmetry. apply (Z.mod_unique_pos _ _ (-1)); lia. }
    change (2 ^ 38) with 274877906944. change (2 ^ 64) with 18446744073709551616. lia.
Qed.

(** The image that a successful exec leaves. *)
Record loaded (path argv : list Z) (elf : elfhdr) (r : Z) (p : image) : Prop := {
  ld_argc : r = Z.of_nat (length argv) /\ r < MAXARG;
  ld_entry : e_magic elf = ELF_MAGIC /\ epc p = entry elf;
  ld_name : pname p = take 15 (last_elem path path);
  ld_size : 2 * PGSIZE <= sz p < MAXVA + 2 * PGSIZE;
  ld_sp : a1 p = usp p /\ usp p mod 16 = 0 /\ sz p - PGSIZE <= usp p;
  ld_layout : exists ptrs lens low, length ptrs = length argv /\ layout (sz p - PGSIZE) (sz p) ptrs lens low /\ usp p + 8 * (r + 1) <= low;
}.

Lemma build_stack_run path argv elf pt size s r s' : e_magic elf = ELF_MAGIC ->
  build_stack end_ ustack path argv elf pt size s = Ok r s' ->
  (r = -1 /\ eproc s' = eproc s) \/ (loaded path argv elf r (eproc s') /\ pagetable (eproc s') = pt).
Proof.
  intros Hm H. unfold build_stack in H. apply bind_inv in H as (old & s0 & E & H). injection E as <- <-.
  set (size0 := PGROUNDUP64 size) in *. pose proof (in_u64 size) as Hsz. fold size0 in Hsz.
  apply bind_inv in H as (sz1 & s1 & E1 & H). pose proof (still_mem _ _ _ _ E1) as Q1.
  destruct (decide (sz1 = 0)) as [|Hz]; [apply bad_result in H as [-> ->]; left; split; [done|congruence]|].
  unfold in_mem in E1. destruct (uvmalloc _ _ _ _ _ _) as [sz1' m1| |] eqn:Eu; [|done|done]. injection E1 as -> <-.
  apply uvmalloc_result in Eu.
  assert (0 <= sz1 < 2 ^ 64) as Hr1.
  { destruct Eu as [-> | [-> | ->]]; [lia|done|]. apply (uwrap_range 64). lia. }
  apply bind_inv in H as (u & s2 & E2 & H). pose proof (still_mem _ _ _ _ E2) as Q2.
  unfold in_mem in E2. destruct (uvmclear _ _ _) as [u' m2| |] eqn:Ec; [|done|done]. injection E2 as -> <-.
  apply guard_bound in Ec; [|done]. assert (MAXVA = 2 ^ 38) as HM by done.
  assert (2 ^ 38 + 8192 < 2 ^ 63) as Hbig by (by vm_compute).
  assert (u64 (sz1 - USERSTACK * PGSIZE) = sz1 - 4096) as Hbase.
  { unfold USERSTACK, PGSIZE. unfold u64. apply uwrap_small. change (2 ^ 64) with (2 * 2 ^ 63). lia. }
  rewrite Hbase in H. apply bind_inv in H as (o & s3 & E3 & H). pose proof (still_push _ _ _ _ _ _ _ _ E3) as Q3.
  apply push_args_run in E3; [|lia|lia]. destruct o as [[argc sp]|]; [|apply bad_result in H as [-> ->]; left; split; [done|congruence]].
  destruct E3 as (Hargc & Hsp & ptrs & lens & Hl & HL). destruct (decide (argc >= MAXARG)) as [|Hlt]; [done|].
  apply bind_inv in H as (u2 & s4 & E4 & H). pose proof (still_mem _ _ _ _ E4) as Q4.
  set (sp1 := u64 (sp - (argc + 1) * 8) - u64 (sp - (argc + 1) * 8) mod 16) in *.
  destruct (decide (sp1 < sz1 - 4096)) as [|Hb]; [apply bad_result in H as [-> ->]; left; split; [done|congruence]|].
  apply bind_inv in H as (p & s5 & E5 & H). injection E5 as <- <-.
  apply bind_inv in H as (c & s6 & E6 & H). pose proof (still_mem _ _ _ _ E6) as Q6.
  destruct (decide (c < 0)) as [|Hc]; [apply bad_result in H as [-> ->]; left; split; [done|congruence]|].
  unfold in_mem in E6. destruct (copyout _ _ _ _ _ _ _) as [c' m6| |] eqn:Eo; [|done|done]. injection E6 as -> <-.
  unfold MAXARG in Hlt. apply copyout_va in Eo; [|lia|lia].
  destruct (step_down sp ((argc + 1) * 8) ltac:(lia) ltac:(lia) Eo) as [Ew E0]. destruct (align16 _ E0) as (A1 & A2 & A3).
  unfold sp1 in *. rewrite Ew in *. apply bind_inv in H as (old & s7 & E7 & H). injection E7 as <- <-.
  apply bind_inv in H as (u3 & s8 & E8 & H). injection E8 as _ <-. apply bind_inv in H as (u4 & s9 & E9 & H).
  pose proof (still_mem _ _ _ _ E9) as Q9. injection H as <- <-. right. rewrite Q9. cbn [with_proc eproc]. split; [|done].
  split; cbn [sz pagetable a1 epc usp pname].
  - unfold MAXARG. lia.
  - done.
  - done.
  - unfold PGSIZE. lia.
  - unfold PGSIZE. split_and!; [done|done|lia].
  - exists ptrs, lens, sp. split_and!; [done|exact HL|lia].
Qed.


End Exec.

(** ** sys_exec *)

(** sys_exec hands kexec fewer than MAXARG arguments, so its array ustack has room for the
    null pointer, which kexec on its own does not see to. *)
Lemma fetch_args_few fetch fetch_into n uargv i argv s l s' :
  fetch_args fetch fetch_into n uargv i argv s = Ok (l, true) s' -> (length l < n + length argv)%nat.
Proof.
  revert i argv s. induction n as [|n IH]; intros i argv s H; cbn [fetch_args] in H; [done|].
  apply bind_inv in H as ([ua|] & s1 & _ & H); [|done]. case_decide; [injection H as <- _; lia|].
  apply bind_inv in H as (p & s2 & _ & H). case_decide; [done|]. apply bind_inv in H as (ok & s3 & _ & H).
  destruct ok; cbn [negb] in H; [|done]. apply IH in H. rewrite length_app in H. simpl in H. lia.
Qed.

(** ** A program on a disk *)

(** One header, and a segment of eight bytes at address 0. *)
Definition elf_bytes : list Z :=
  Fs.le 4 ELF_MAGIC ++ replicate 12 0 ++ Fs.le 2 2 ++ Fs.le 2 243 ++ Fs.le 4 1 ++ Fs.le 8 4 ++ Fs.le 8 64 ++ replicate 16 0 ++
  Fs.le 2 1 ++ replicate 6 0 ++
  Fs.le 4 1 ++ Fs.le 4 5 ++ Fs.le 8 120 ++ Fs.le 8 0 ++ Fs.le 8 0 ++ Fs.le 8 8 ++ Fs.le 8 8 ++ Fs.le 8 4096 ++ [1; 2; 3; 4; 5; 6; 7; 8].
Definition exe_inode : Fs.inode := Fs.mkInode 0 2 0 false false 2 0 0 1 128 (7 :: replicate 12 0).
Definition exe_disk : gmap Z (list Z) :=
  <[2 := Fs.splice (Fs.splice Fs.zero_block 64 (FsWrite.dinode_bytes FsProps.root_inode)) 128 (FsWrite.dinode_bytes exe_inode)]>
    (<[4 := FsProps.block4]> (<[6 := FsProps.block6]> (<[7 := Fs.splice Fs.zero_block 0 elf_bytes]> ∅))).
Definition exe_fs : Fs.fs := Fs.mkFs exe_disk ∅ ∅ 0 FsProps.sb64 false
  (Fs.mkInode 1 1 1 false true Fs.T_DIR 0 0 1 16 (6 :: replicate 12 0) :: replicate 49 Fs.free_inode) 0.
Definition end24 : Z := PHYSTOP - 24 * PGSIZE.
Definition kmem24 : K :=
  mkK 0 (mkCpu 0 true true) (mkSpinlock 0 "" None)
    (mkKmem 0 (list_to_map ((fun i => (PHYSTOP - i * PGSIZE, filled 0)) <$> zrange 1 25))) [].
(** A process with one page; its arguments are the strings a and xy. *)
Definition prepare : M ex Z :=
  in_mem (kinit end24) ;;
  let! stack := in_mem kalloc in
  let! arg := in_mem kalloc in
  let! tf := in_mem kalloc in
  in_mem (store_bytes arg [97; 0; 120; 121; 0]) ;;
  let! pt := in_mem (proc_pagetable end24 KERNBASE tf) in
  let! r := in_mem (uvmalloc end24 pt 0 4096 PTE_W) in
  modify (with_proc (mkImage 4096 pt 0 0 0 [])) ;;
  ret arg.
Definition start : ex := mkEx exe_fs kmem24 (mkImage 0 0 0 0 0 []).
Definition prepared : ex := match prepare start with Ok _ s => s | _ => start end.
Definition arg_page : Z := PHYSTOP - 2 * PGSIZE.
Definition exec_a : res ex Z :=
  kexec end24 KERNBASE (PHYSTOP - 3 * PGSIZE) (PHYSTOP - PGSIZE) [] [97] [arg_page; arg_page + 2] prepared.

Lemma exec_a_result : match exec_a with Ok r _ => r | _ => 0 end = 2.
Proof. vm_compute. reflexivity. Qed.

