(* ===== verification/ProcOps.v ===== *)
(** * The operations of proc.c on states at rest

    [kkill], [allocproc], [kfork], [kexit] and [kwait], each with the plain
    function it computes on the table. *)

From Stdlib Require Import ZArith Lia.
From stdpp Require Import base numbers list vector fin finite strings.
From S2P Require Import Prelude Spinlock Proc ProcSpec.
Open Scope Z_scope.

Section Ops.
Context {E : Type} `{ProcEnv E}.
Notation K := (kst E).

Lemma tell_taken_p p f (s : K) :
  tell f (taken (plock p) s) = Ok tt (taken (plock p) (with_env (f (env s)) s)).
Proof. done. Qed.
Lemma ask_taken_p p f (s : K) r e :
  f (env s) = (r, e) -> ask f (taken (plock p) s) = Ok r (taken (plock p) (with_env e s)).
Proof. intros Hf. unfold ask. simpl. by rewrite Hf. Qed.

Lemma env_upd p f e (s : K) : with_env e (upd p f s) = upd p f (with_env e s).
Proof. done. Qed.

Lemma env_env e e' (s : K) : with_env e (with_env e' s) = with_env e s.
Proof. done. Qed.

Ltac pm := rewrite (bind_ok _ _ _ _ _ (pmod_upd _ _ _)); rewrite ?upd_taken_p by apply _; cbv beta.

Lemma release_upd p f (s : K) `{!KeepsLock f} :
  procs_free s -> release (plock p) (taken (plock p) (upd p f s)) = Ok tt (upd p f s).
Proof.
  intros Hs. pose proof (procs_free_upd p f s Hs) as [Hc Hf]. by apply release_p.
Qed.

(** The environment answers [r] and becomes [e]. *)
Ltac asked r e Hr :=
  match goal with
  | |- context [bind (ask ?f) _ (taken (plock ?p) ?t)] =>
      rewrite (bind_ok _ _ _ _ _ (ask_taken_p p f t r e Hr)), env_upd
  end.

Ltac released Hs :=
  match goal with
  | |- context [bind (release (plock ?p)) _ (taken (plock ?p) (upd ?p ?f ?t))] =>
      rewrite (bind_ok _ _ _ _ _ (release_upd p f t Hs))
  end.

(** ** Scans of the table *)

(** A scan whose body looks at each entry under its lock and stops at the first
    entry that satisfies [P]. *)
Lemma scan_run {B} (P : proc -> Prop) `{forall x, Decision (P x)}
    (body : fin NPROC -> M K (option B)) (s : K) :
  (forall q, ~ P (procs s !!! q) -> body q s = Ok None s) ->
  (for_until all_procs body s = Ok None s /\ forall p, ~ P (procs s !!! p)) \/
  exists p, P (procs s !!! p) /\
    forall b s', body p s = Ok (Some b) s' -> for_until all_procs body s = Ok (Some b) s'.
Proof.
  intros Hskip.
  destruct (first_split (fun q => P (procs s !!! q)) all_procs) as [Hn|(l1 & p & l2 & Hl & Hp & Hy)].
  - left. split; [|intros p; apply Hn, all_procs_in].
    apply for_until_none. intros q Hq. by apply Hskip, Hn.
  - right. exists p. split; [done|]. intros b s' Hb. rewrite Hl.
    apply for_until_found; [|done]. intros q Hq. by apply Hskip, Hy.
Qed.

(** ** kkill *)

Definition kill (x : proc) : proc :=
  p_state (if decide (state x = SLEEPING) then RUNNABLE else state x) (p_killed 1 x).
#[export] Instance kl_kill : KeepsLock kill.
Proof. split; intros; unfold kill; simpl; done. Qed.

Lemma kkill_run target (s : K) :
  procs_free s ->
  (kkill target s = Ok (-1) s /\ forall p, pid (procs s !!! p) <> target) \/
  exists p, pid (procs s !!! p) = target /\ kkill target s = Ok 0 (upd p kill s).
Proof.
  intros Hs0. pose proof Hs0 as [Hc Hf]. unfold kkill.
  match goal with |- context [for_until all_procs ?b] => set (body := b) end.
  destruct (scan_run (fun x => pid x = target) body s) as [[Hrun Hn]|(p & Hp & Hrun)].
  - intros q Hq. unfold body. rewrite (bind_ok _ _ _ _ _ (acquire_p q s (Hf q))).
    destruct (pget_taken q q s) as [l Hl]. rewrite (bind_ok _ _ _ _ _ Hl).
    rewrite decide_False by done. by rewrite (bind_ok _ _ _ _ _ (release_p q s Hc (Hf q))).
  - left. by rewrite (bind_ok _ _ _ _ _ Hrun).
  - right. exists p. split; [done|].
    assert (body p s = Ok (Some 0) (upd p kill s)) as Hb; [|by rewrite (bind_ok _ _ _ _ _ (Hrun _ _ Hb))].
    unfold body. rewrite (bind_ok _ _ _ _ _ (acquire_p p s (Hf p))).
    destruct (pget_taken p p s) as [l Hl]. rewrite (bind_ok _ _ _ _ _ Hl), decide_True by done. pm.
    change (state (p_lock l (procs s !!! p))) with (state (procs s !!! p)).
    case_decide as Hs.
    + pm. rewrite upd_upd. rewrite (bind_ok _ _ _ _ _ (release_upd p _ s Hs0)).
      unfold ret. f_equal. apply upd_ext. unfold kill. by rewrite decide_True.
    + rewrite bind_ret. rewrite (bind_ok _ _ _ _ _ (release_upd p _ s Hs0)).
      unfold ret. f_equal. apply upd_ext. unfold kill. by rewrite decide_False.
Qed.

(** ** allocproc *)

Lemma find_unused_run (s : K) :
  procs_free s ->
  (find_unused s = Ok None s /\ forall p, state (procs s !!! p) <> UNUSED) \/
  exists p, state (procs s !!! p) = UNUSED /\ find_unused s = Ok (Some p) (taken (plock p) s).
Proof.
  intros [Hc Hf]. unfold find_unused.
  match goal with |- context [for_until all_procs ?b] => set (body := b) end.
  destruct (scan_run (fun x => state x = UNUSED) body s) as [[Hrun Hn]|(p & Hp & Hrun)].
  - intros q Hq. unfold body. rewrite (bind_ok _ _ _ _ _ (acquire_p q s (Hf q))).
    destruct (pget_taken q q s) as [l Hl]. rewrite (bind_ok _ _ _ _ _ Hl).
    rewrite decide_False by done. by rewrite (bind_ok _ _ _ _ _ (release_p q s Hc (Hf q))).
  - by left.
  - right. exists p. split; [done|]. apply Hrun. unfold body.
    rewrite (bind_ok _ _ _ _ _ (acquire_p p s (Hf p))).
    destruct (pget_taken p p s) as [l Hl]. by rewrite (bind_ok _ _ _ _ _ Hl), decide_True by done.
Qed.

Lemma allocpid_run p (s : K) :
  cpu_ok (kcpu s) -> is_free (pid_lock s) -> in_int (nextpid s + 1) ->
  allocpid (taken (plock p) s) =
    Ok (nextpid s) (taken (plock p) (with_nextpid (nextpid s + 1) s)).
Proof.
  intros Hc Hf Hn. set (t := taken (plock p) s). unfold allocpid.
  rewrite (bind_ok _ _ _ _ _ (acquire_run the_pid_lock t Hf)).
  unfold gets. unfold bind at 1. change (nextpid (taken the_pid_lock t)) with (nextpid s).
  rewrite decide_True by done. unfold modify. unfold bind at 1. rewrite nextpid_taken.
  assert (cpu_ok (get_cpu (with_nextpid (nextpid s + 1) t))) as Hg by exact (cpu_push_ok _ Hc).
  by rewrite (bind_ok _ _ _ _ _ (release_taken the_pid_lock _ Hg Hf)).
Qed.

(** What freeproc leaves of an entry: only its lock, kernel stack, files, saved
    registers and trace mask. *)
Definition freed (x : proc) : proc :=
  mkProc (lock x) UNUSED 0 0 0 0 None (kstack x) 0 0 0 (tf x) (cont x) (ofile x) (cwd x) [] (trace_mask x).
Definition free_env (x : proc) (e : E) : E :=
  let e := if decide (trapframe_ x <> 0) then e_kfree (trapframe_ x) e else e in
  if decide (pagetable x <> 0) then e_proc_freepagetable (pagetable x) (sz x) e else e.
#[export] Instance kl_freed : KeepsLock freed.
Proof. by split. Qed.

Lemma freeproc_run p (s : K) :
  freeproc p (taken (plock p) s) =
    Ok tt (taken (plock p) (upd p freed (with_env (free_env (procs s !!! p) (env s)) s))).
Proof.
  unfold freeproc. destruct (pget_taken p p s) as [l Hl]. rewrite (bind_ok _ _ _ _ _ Hl).
  change (trapframe_ (p_lock l (procs s !!! p))) with (trapframe_ (procs s !!! p)).
  change (pagetable (p_lock l (procs s !!! p))) with (pagetable (procs s !!! p)).
  change (sz (p_lock l (procs s !!! p))) with (sz (procs s !!! p)).
  unfold free_env.
  destruct (decide (trapframe_ (procs s !!! p) <> 0));
    [rewrite (bind_ok _ _ _ _ _ (tell_taken_p p _ _))|rewrite bind_ret]; pm;
  (destruct (decide (pagetable (procs s !!! p) <> 0));
    [rewrite (bind_ok _ _ _ _ _ (tell_taken_p p _ _))|rewrite bind_ret]); repeat pm;
  rewrite pmod_upd, upd_taken_p by apply _; rewrite ?env_upd, ?upd_upd;
  f_equal; f_equal; apply upd_ext; done.
Qed.

(** A new entry with its pid, trapframe page and page table. *)
Definition born (n page pt : Z) (x : proc) : proc :=
  p_cont KFork (p_pagetable pt (p_trapframe page (p_state USED (p_pid n x)))).

(** How allocproc may fail: no unused entry, or memory ran out for entry [p],
    which is unused again (its pid is gone). *)
Definition alloc_failed (s s' : K) : Prop :=
  s' = s \/
  exists p e k, state (procs s !!! p) = UNUSED /\
    s' = upd p (fun x => freed (p_cont k x)) (with_env e (with_nextpid (nextpid s + 1) s)).

Lemma allocproc_run (s : K) :
  at_rest s -> in_int (nextpid s + 1) ->
  (exists s', allocproc s = Ok None s' /\ alloc_failed s s') \/
  exists p page pt e, state (procs s !!! p) = UNUSED /\ page <> 0 /\ pt <> 0 /\
    allocproc s = Ok (Some p) (taken (plock p)
      (upd p (born (nextpid s) page pt) (with_env e (with_nextpid (nextpid s + 1) s)))).
Proof.
  intros Hr Hn. pose proof (procs_free_rest s Hr) as Hs. unfold allocproc.
  destruct (find_unused_run s Hs) as [[Hrun Hfull]|(p & Hp & Hrun)].
  { left. exists s. rewrite (bind_ok _ _ _ _ _ Hrun). split; [done|by left]. }
  rewrite (bind_ok _ _ _ _ _ Hrun).
  rewrite (bind_ok _ _ _ _ _ (allocpid_run p s (ar_cpu s Hr) (ar_pid s Hr) Hn)).
  set (s1 := with_nextpid (nextpid s + 1) s). do 2 pm. rewrite upd_upd.
  destruct (e_kalloc (env s1)) as [page e1] eqn:Hk.
  assert (procs_free s1) as Hs1 by done.
  asked page e1 Hk. pm. rewrite upd_upd.
  case_decide as Hz.
  { left. eexists. rewrite (bind_ok _ _ _ _ _ (freeproc_run p _)).
    rewrite env_upd, upd_upd. released Hs1.
    split; [done|]. right. exists p. eexists _, (cont (procs s !!! p)). split; [done|].
    by apply upd_ext. }
  destruct (e_proc_pagetable page e1) as [pt e2] eqn:Hpt.
  asked pt e2 Hpt. pm. rewrite upd_upd.
  case_decide as Hz2.
  { left. eexists. rewrite (bind_ok _ _ _ _ _ (freeproc_run p _)).
    rewrite env_upd, upd_upd. released Hs1.
    split; [done|]. right. exists p. eexists _, (cont (procs s !!! p)). split; [done|].
    by apply upd_ext. }
  right. exists p, page, pt, e2. split; [done|]. split; [done|]. split; [done|].
  pm. by rewrite upd_upd.
Qed.

(** ** kfork *)

(** Files duplicated from [x] into an entry, for the descriptors in [l]. *)
Definition dup_ofile (x : proc) (l : list (fin NOFILE)) (fs : vec Z NOFILE) : vec Z NOFILE :=
  fold_left (fun fs i => if decide (ofile x !!! i <> 0) then vinsert i (ofile x !!! i) fs else fs) l fs.
Definition dup_env (x : proc) (l : list (fin NOFILE)) (e : E) : E :=
  fold_left (fun e i => if decide (ofile x !!! i <> 0) then e_filedup (ofile x !!! i) e else e) l e.

#[export] Instance kl_dup x l : KeepsLock (fun y => p_ofile (dup_ofile x l (ofile y)) y).
Proof. keeps_lock. Qed.

Lemma dup_files_run p np (s : K) :
  p <> np ->
  dup_files p np (taken (plock np) s) =
    Ok tt (taken (plock np)
      (upd np (fun y => p_ofile (dup_ofile (procs s !!! p) (fin_enum NOFILE) (ofile y)) y)
         (with_env (dup_env (procs s !!! p) (fin_enum NOFILE) (env s)) s))).
Proof.
  intros Hne. unfold dup_files. generalize (fin_enum NOFILE) as l. intros l. revert s.
  induction l as [|i l IH]; intros s.
  { cbn [for_each]. unfold dup_env, dup_ofile, ret. cbn [fold_left]. f_equal. f_equal. symmetry.
    assert (with_env (env s) s = s) as -> by (by destruct s). apply upd_id.
    by destruct (procs s !!! np). }
  cbn [for_each].
  assert (pget p (taken (plock np) s) = Ok (procs s !!! p) (taken (plock np) s)) as Hg.
  { destruct (lookup_taken_p np p s) as (l0 & Hl & Hl0). unfold pget, gets. rewrite Hl, Hl0 by done.
    by destruct (procs s !!! p). }
  rewrite bind_assoc, (bind_ok _ _ _ _ _ Hg). unfold dup_env, dup_ofile. cbn [fold_left].
  case_decide as Hz.
  - rewrite bind_assoc, (bind_ok _ _ _ _ _ (tell_taken_p np _ _)). pm.
    rewrite IH. unfold dup_env, dup_ofile. rewrite lookup_upd_ne by done.
    rewrite env_upd, upd_upd. f_equal.
  - rewrite bind_ret. apply IH.
Qed.

#[local] Opaque dup_ofile dup_env.

(** The child of [p] in entry [y]: a copy of the parent's memory, registers,
    files, directory, name and trace mask, that returns 0 from fork. *)
Definition forked (p : fin NPROC) (x : proc) (n page pt : Z) (y : proc) : proc :=
  mkProc (lock y) RUNNABLE (chan y) (killed_ y) (xstate y) n (Some p) (kstack y) (sz x) pt page
    (set_a0 0 (tf x)) KFork (dup_ofile x (fin_enum NOFILE) (ofile y)) (cwd x)
    (take 15 (name x)) (trace_mask x).

(** The same entry before it has a parent and may run. *)
Definition copied_from (x : proc) (n page pt : Z) (y : proc) : proc :=
  mkProc (lock y) USED (chan y) (killed_ y) (xstate y) n (parent y) (kstack y) (sz x) pt page
    (set_a0 0 (tf x)) KFork (dup_ofile x (fin_enum NOFILE) (ofile y)) (cwd x)
    (take 15 (name x)) (trace_mask x).

#[export] Instance kl_forked p x n page pt : KeepsLock (forked p x n page pt).
Proof. keeps_lock. Qed.
#[export] Instance kl_copied_from x n page pt : KeepsLock (copied_from x n page pt).
Proof. keeps_lock. Qed.

Lemma at_rest_upd_env np f e v (s : K) `{!KeepsLock f} :
  at_rest s -> at_rest (upd np f (with_env e (with_nextpid v s))).
Proof. intros Hr. apply at_rest_upd; [apply _|]. by apply at_rest_env, at_rest_nextpid. Qed.

Lemma kfork_run p (s : K) :
  at_rest s -> in_int (nextpid s + 1) -> curproc s = Some p -> state (procs s !!! p) = RUNNING ->
  (exists s', kfork s = Ok (-1) s' /\ alloc_failed s s') \/
  exists np page pt e, state (procs s !!! np) = UNUSED /\ page <> 0 /\ pt <> 0 /\
    kfork s = Ok (nextpid s)
      (upd np (forked p (procs s !!! p) (nextpid s) page pt)
         (with_env e (with_nextpid (nextpid s + 1) s))).
Proof.
  intros Hr Hn Hcur Hrun. unfold kfork. rewrite (bind_ok _ _ _ _ _ (my_run p s (ar_cpu s Hr) Hcur)).
  destruct (allocproc_run s Hr Hn) as [(s' & Ha & Hfail)|(np & page & pt & e & Hun & Hpg & Hpt & Ha)].
  { left. exists s'. by rewrite (bind_ok _ _ _ _ _ Ha). }
  rewrite (bind_ok _ _ _ _ _ Ha). assert (p <> np) as Hne by (intros ->; congruence).
  set (s1 := with_env e (with_nextpid (nextpid s + 1) s)).
  set (s2 := upd np (born (nextpid s) page pt) s1).
  assert (procs_free s1) as Hs1 by (exact (procs_free_rest s Hr)).
  assert (pget p (taken (plock np) s2) = Ok (procs s !!! p) (taken (plock np) s2)) as Hg.
  { destruct (lookup_taken_p np p s2) as (l0 & Hl & Hl0). unfold pget, gets.
    rewrite Hl, Hl0 by done. unfold s2. rewrite lookup_upd_ne by done. by destruct (procs s !!! p). }
  rewrite (bind_ok _ _ _ _ _ Hg). destruct (pget_taken np np s2) as [ly Hy].
  rewrite (bind_ok _ _ _ _ _ Hy).
  change (pagetable (p_lock ly (procs s2 !!! np))) with (pagetable (procs s2 !!! np)).
  assert (pagetable (procs s2 !!! np) = pt) as -> by (unfold s2; rewrite lookup_upd; done).
  set (x := procs s !!! p).
  destruct (e_uvmcopy (pagetable x) pt (sz x) (env s2)) as [r e2] eqn:Hcp.
  unfold s2. asked r e2 Hcp. case_decide as Hneg.
  { left. eexists. rewrite (bind_ok _ _ _ _ _ (freeproc_run np _)). rewrite env_upd, upd_upd. released Hs1.
    unfold s1. rewrite !env_env. split; [done|]. right. exists np. eexists _, KFork. split; [done|].
    by apply upd_ext. }
  right. exists np, page, pt. eexists. split; [done|]. split; [done|]. split; [done|].
  do 3 pm. rewrite !upd_upd.
  rewrite (bind_ok _ _ _ _ _ (dup_files_run p np _ Hne)), env_upd, !upd_upd, lookup_upd_ne by done.
  rewrite (bind_ok _ _ _ _ _ (tell_taken_p np _ _)), env_upd. do 3 pm. rewrite !upd_upd.
  match goal with |- context [taken (plock np) (upd np ?g ?t)] => set (t0 := t);
    replace (upd np g t0) with (upd np (copied_from x (nextpid s) page pt) t0) by (by apply upd_ext) end.
  set (g0 := copied_from x (nextpid s) page pt).
  assert (at_rest t0) as Ht0 by (unfold t0, s1; repeat apply at_rest_env; by apply at_rest_nextpid).
  assert (KeepsLock g0) as Hk0 by apply _.
  assert (KeepsLock (fun x0 => p_parent (Some p) (g0 x0))) as Hk1
    by exact (kl_compose _ _ _ Hk0).
  assert (KeepsLock (fun x0 => p_state RUNNABLE (p_parent (Some p) (g0 x0)))) as Hk2
    by exact (kl_compose _ _ _ Hk1).
  destruct (pget_taken np np (upd np g0 t0)) as [lz Hz]. rewrite (bind_ok _ _ _ _ _ Hz).
  change (pid (p_lock lz (procs (upd np g0 t0) !!! np))) with (pid (procs (upd np g0 t0) !!! np)).
  rewrite lookup_upd. change (pid (g0 (procs t0 !!! np))) with (nextpid s).
  released (procs_free_rest t0 Ht0).
  assert (at_rest (upd np g0 t0)) as Hr1 by (by apply at_rest_upd).
  rewrite (bind_ok _ _ _ _ _ (acquire_w _ (ar_wait _ Hr1))).
  rewrite (bind_ok _ _ _ _ _ (pmod_upd _ _ _)), upd_taken_w, upd_upd.
  pose proof (@at_rest_upd _ np _ t0 Hk1 Ht0) as Hr2.
  rewrite (bind_ok _ _ _ _ _ (release_w _ (ar_cpu _ Hr2) (ar_wait _ Hr2))).
  rewrite (bind_ok _ _ _ _ _ (acquire_p np _ (ar_procs _ Hr2 np))). pm. rewrite upd_upd.
  released (procs_free_rest t0 Ht0). done.
Qed.
End Ops.
