(* ===== verification/ProcExit.v ===== *)
(** * kexit and kwait on states at rest *)

From Stdlib Require Import ZArith Lia.
From stdpp Require Import base numbers list vector fin finite strings.
From S2P Require Import Prelude Spinlock Proc ProcSpec ProcOps.
Open Scope Z_scope.

Section Exit.
Context {E : Type} `{ProcEnv E}.
Notation K := (kst E).

(** ** Closing the files *)

Definition zero_fds (l : list (fin NOFILE)) (fs : vec Z NOFILE) : vec Z NOFILE :=
  fold_left (fun fs i => vinsert i 0 fs) l fs.

Lemma zero_fds_lookup l fs j :
  zero_fds l fs !!! j = if decide (j ∈ l) then 0 else fs !!! j.
Proof.
  unfold zero_fds. revert fs. induction l as [|i l IH]; intros fs; [done|]. cbn [fold_left].
  rewrite IH. destruct (decide (j ∈ l)) as [Hj|Hj].
  - by rewrite decide_True by (by right).
  - destruct (decide (i = j)) as [->|Hne].
    + rewrite vlookup_insert, decide_True by left. done.
    + rewrite vlookup_insert_ne by done. rewrite decide_False; [done|].
      intros [->|?]%elem_of_cons; done.
Qed.

Lemma zero_fds_all fs : zero_fds (fin_enum NOFILE) fs = vreplicate NOFILE 0.
Proof.
  assert (forall i : fin NOFILE, i ∈ fin_enum NOFILE) as Hall.
  { intros i. pose proof (elem_of_enum i) as Hp. unfold enum, fin_finite in Hp. exact Hp. }
  apply vec_eq. intros i. by rewrite zero_fds_lookup, vlookup_replicate, decide_True.
Qed.

#[export] Instance kl_zero_fds l : KeepsLock (fun y => p_ofile (zero_fds l (ofile y)) y).
Proof. keeps_lock. Qed.
#[local] Opaque zero_fds.

Lemma close_files_run p (s : K) :
  exists e, close_files p s = Ok tt (upd p (p_ofile (vreplicate NOFILE 0)) (with_env e s)).
Proof.
  enough (exists e, close_files p s =
    Ok tt (upd p (fun y => p_ofile (zero_fds (fin_enum NOFILE) (ofile y)) y) (with_env e s)))
    as [e He].
  { exists e. rewrite He. f_equal. apply upd_ext. by rewrite zero_fds_all. }
  unfold close_files. generalize (fin_enum NOFILE) as l. intros l. revert s.
  induction l as [|i l IH]; intros s.
  { exists (env s). cbn [for_each]. unfold ret. f_equal. symmetry.
    assert (with_env (env s) s = s) as -> by (by destruct s). apply upd_id.
    by destruct (procs s !!! p). }
  cbn [for_each]. rewrite bind_assoc, (bind_ok _ _ _ _ _ (pget_run _ _)).
  case_decide as Hz.
  - rewrite bind_assoc, (bind_ok _ _ _ _ _ (tell_run _ _)), (bind_ok _ _ _ _ _ (pmod_upd _ _ _)).
    match goal with |- context [for_each l _ ?t] => destruct (IH t) as [e He] end.
    exists e. rewrite He, env_upd, env_env, upd_upd. done.
  - destruct (IH s) as [e He]. exists e. rewrite bind_ret, He. f_equal. apply upd_ext. f_equal.
    change (zero_fds (i :: l) (ofile (procs (with_env e s) !!! p))) with
      (zero_fds l (vinsert i 0 (ofile (procs s !!! p)))).
    replace (vinsert i 0 (ofile (procs s !!! p))) with (ofile (procs s !!! p)); [done|].
    destruct (decide (ofile (procs s !!! p) !!! i = 0)) as [<-|Hne]; [by rewrite vlookup_insert_self|].
    by destruct Hz.
Qed.

(** ** Giving the children to init *)

(** An entry before and after some wakeups. *)
Definition woke (x y : proc) : Prop := y = x \/ (state x = SLEEPING /\ y = p_state RUNNABLE x).

Lemma woke_wakes c cur p x y : woke x y -> woke x (wakes c cur p y).
Proof.
  intros [->|[Hs ->]]; unfold wakes.
  - case_decide as Hd; [|by left]. right. naive_solver.
  - rewrite decide_False; [by right|]. simpl. naive_solver.
Qed.

Lemma woke_parent v x y : woke x y -> woke (p_parent v x) (p_parent v y).
Proof. intros [->|[Hs ->]]; [by left|]. by right. Qed.

(** [s'] differs from [s] in its table only. *)
Definition table_of (s s' : K) : Prop := s' = with_procs (fun _ => procs s') s.

Lemma table_of_refl (s : K) : table_of s s.
Proof. by destruct s. Qed.

(** The entries in [ps] whose parent is [p] have been given to [ip]. *)
Definition given (p : fin NPROC) (ip : option (fin NPROC)) (ps : list (fin NPROC)) (s s' : K) : Prop :=
  table_of s s' /\
  forall q, exists y, woke (procs s !!! q) y /\
    procs s' !!! q = if decide (q ∈ ps /\ parent (procs s !!! q) = Some p) then p_parent ip y else y.

Lemma given_lock p ip ps s s' q :
  given p ip ps s s' -> lock (procs s' !!! q) = lock (procs s !!! q).
Proof.
  intros [_ Hg]. destruct (Hg q) as (y & Hy & ->). destruct Hy as [->|[_ ->]]; by case_decide.
Qed.

Lemma given_free p ip ps s s' : given p ip ps s s' -> procs_free s -> procs_free s'.
Proof.
  intros Hg [Hc Hf]. pose proof Hg as [-> _]. split; [done|]. intros q. unfold free_p.
  rewrite (given_lock _ _ _ _ _ _ Hg). apply Hf.
Qed.

Lemma reparent_run p ip (s : K) :
  procs_free s -> initproc s = Some ip ->
  exists s', reparent p s = Ok tt s' /\ given p (Some ip) all_procs s s'.
Proof.
  intros Hs Hip. unfold reparent.
  destruct (for_each_inv (fun dn s' => given p (Some ip) dn s s')
    (fun pp =>
       let! x := pget pp in
       if decide (parent x = Some p) then
         let! ip := gets initproc in
         pmod pp (p_parent ip) ;;
         match ip with Some i => wakeup (proc_chan i) | None => undef "initproc" end
       else ret tt) all_procs s) as (s' & Hrun & Hg); [| |by exists s'].
  - split; [apply table_of_refl|]. intros q. exists (procs s !!! q). split; [by left|].
    rewrite decide_False; [done|]. intros [Hin _]. by apply not_elem_of_nil in Hin.
  - intros dn pp rest s0 Hl Hg. pose proof Hg as [Ht Hq]. pose proof (given_free _ _ _ _ _ Hg Hs) as Hf.
    assert (pp ∉ dn) as Hni.
    { pose proof all_procs_nodup as Hnd. rewrite Hl in Hnd. apply NoDup_app in Hnd as (_ & Hd & _).
      intros Hin. apply (Hd pp Hin). left. }
    unfold pget, gets. unfold bind at 1.
    destruct (Hq pp) as (yp & Hyp & Hpp). rewrite decide_False in Hpp by tauto.
    assert (parent (procs s0 !!! pp) = parent (procs s !!! pp)) as Hpar.
    { rewrite Hpp. by destruct Hyp as [->|[_ ->]]. }
    case_decide as Hp.
    + assert (initproc s0 = Some ip) as Hip0 by (rewrite Ht; done).
      unfold bind at 1. rewrite Hip0. rewrite (bind_ok _ _ _ _ _ (pmod_upd _ _ _)).
      rewrite wakeup_run by (apply procs_free_upd; [apply _|done]).
      eexists. split; [done|]. split.
      { rewrite Ht. done. }
      intros q. simpl. unfold woken. rewrite lookup_fun_to_vec. destruct (decide (pp = q)) as [<-|Hne].
      * rewrite lookup_upd, Hpp. exists (wakes (proc_chan ip) (curproc s0) pp yp).
        split; [by apply woke_wakes|]. rewrite decide_True.
        { unfold wakes. simpl. by case_decide. }
        split; [apply elem_of_app; right; left|congruence].
      * rewrite lookup_upd_ne by done. destruct (Hq q) as (y & Hy & ->).
        exists (wakes (proc_chan ip) (curproc s0) q y). split; [by apply woke_wakes|].
        destruct (decide (q ∈ dn /\ parent (procs s !!! q) = Some p)) as [Hd|Hd].
        -- rewrite decide_True; [|destruct Hd; split; [apply elem_of_app; by left|done]].
           unfold wakes. simpl. by case_decide.
        -- rewrite decide_False; [done|]. rewrite elem_of_app, list_elem_of_singleton. naive_solver.
    + eexists. split; [done|]. split; [done|]. intros q. destruct (Hq q) as (y & Hy & Hqy).
      exists y. split; [done|]. rewrite Hqy.
      destruct (decide (q ∈ dn /\ parent (procs s !!! q) = Some p)) as [Hd|Hd].
      * rewrite decide_True; [done|]. destruct Hd. split; [apply elem_of_app; by left|done].
      * rewrite decide_False; [done|]. rewrite elem_of_app, list_elem_of_singleton.
        intros [[?| ->] ?]; [naive_solver|]. congruence.
Qed.

(** ** Switching to the scheduler *)

Lemma holding_taken p (t : K) : holding (plock p) (taken (plock p) t) = Ok true (taken (plock p) t).
Proof.
  unfold holding, gets. f_equal. apply bool_decide_eq_true_2.
  unfold taken, plock, with_procs. simpl. rewrite vlookup_insert. done.
Qed.

Lemma sched_run k p (t : K) :
  procs_free t -> curproc t = Some p -> noff (kcpu t) = 0 -> state (procs t !!! p) <> RUNNING ->
  sched k (taken (plock p) t) = Ok tt (with_curproc None (upd p (p_cont (k (intr (kcpu t)))) t)).
Proof.
  intros [Hc Hf] Hcur Hn Hst. unfold sched.
  rewrite (bind_ok _ _ _ _ _ (my_run p (taken (plock p) t) (cpu_taken_p p t Hc) Hcur)).
  rewrite (bind_ok _ _ _ _ _ (holding_taken p t)).
  unfold gets. unfold bind at 1. destruct (pget_taken p p t) as [l Hl].
  rewrite (bind_ok _ _ _ _ _ Hl). unfold intr_get, gets. unfold bind at 1.
  rewrite decide_False by done. rewrite decide_False by (simpl; lia).
  change (state (p_lock l (procs t !!! p))) with (state (procs t !!! p)).
  rewrite decide_False by done. change (intr (get_cpu (taken (plock p) t))) with false.
  assert (intena (kcpu (taken (plock p) t)) = intr (kcpu t)) as -> by (simpl; by rewrite decide_True).
  rewrite (bind_ok _ _ _ _ _ (pmod_upd _ _ _)), upd_taken_p by apply _.
  unfold modify. unfold bind at 1. rewrite curproc_taken_p.
  destruct (procs_free_upd p (p_cont (k (intr (kcpu t)))) t) as [Hc' Hf']; [by split|].
  apply release_p; [exact Hc'|exact (Hf' p)].
Qed.

Lemma yield_run p (s : K) :
  at_rest s -> curproc s = Some p -> noff (kcpu s) = 0 ->
  yield s = Ok tt (with_curproc None (upd p (fun x => p_cont (KYield (intr (kcpu s))) (p_state RUNNABLE x)) s)).
Proof.
  intros Hr Hcur Hn. unfold yield. rewrite (bind_ok _ _ _ _ _ (my_run p s (ar_cpu s Hr) Hcur)).
  rewrite (bind_ok _ _ _ _ _ (acquire_p p s (ar_procs s Hr p))).
  rewrite (bind_ok _ _ _ _ _ (pmod_upd _ _ _)), upd_taken_p by apply _.
  rewrite sched_run; [by rewrite upd_upd|apply procs_free_upd|..]; try done.
  - by apply procs_free_rest.
  - by rewrite lookup_upd.
Qed.

(** sleep on a lock outside this component. *)
Lemma sleep_run p c (s : K) :
  at_rest s -> curproc s = Some p -> noff (kcpu s) = 0 ->
  sleep c false s = Ok tt (with_curproc None
    (upd p (fun x => p_cont (KSleep false (intr (kcpu s))) (p_state SLEEPING (p_chan c x))) s)).
Proof.
  intros Hr Hcur Hn. unfold sleep, sleep_on. rewrite (bind_ok _ _ _ _ _ (my_run p s (ar_cpu s Hr) Hcur)).
  rewrite (bind_ok _ _ _ _ _ (acquire_p p s (ar_procs s Hr p))). rewrite bind_ret.
  do 2 (rewrite (bind_ok _ _ _ _ _ (pmod_upd _ _ _)), upd_taken_p by apply _). rewrite !upd_upd.
  rewrite sched_run; [by rewrite upd_upd|apply procs_free_upd|..]; try done.
  - by apply procs_free_rest.
  - by rewrite lookup_upd.
Qed.

(** A lock that is not part of a table entry. *)
Class OuterLock (lk : lockref K) : Prop := {
  #[global] ol_laws :: LockLaws lk;
  ol_procs : forall s, procs (taken lk s) = procs s;
  ol_cur : forall s, curproc (taken lk s) = curproc s;
  ol_lget : forall p s, lget lk (taken (plock p) s) = lget lk s;
  ol_comm : forall p s, taken (plock p) (taken lk s) = taken lk (taken (plock p) s) }.

#[export] Instance wait_lock_outer : OuterLock the_wait_lock.
Proof. split; try apply _; intros; by destruct s. Qed.

Lemma free_taken_outer lk `{!OuterLock lk} p (s : K) : free_p s p -> free_p (taken lk s) p.
Proof. unfold free_p. by rewrite ol_procs. Qed.

Lemma cpu_taken_outer lk `{!OuterLock lk} (s : K) : cpu_ok (kcpu s) -> cpu_ok (kcpu (taken lk s)).
Proof.
  intros Hc. assert (kcpu (taken lk s) = cpu_push (kcpu s)) as ->; [|by apply cpu_push_ok].
  change (kcpu (taken lk s)) with (get_cpu (taken lk s)). unfold taken. by rewrite lock_cpu.
Qed.

(** sleep on such a lock, which is given up. *)
Lemma sleep_on_run lk `{!OuterLock lk} k p c (s : K) :
  at_rest s -> is_free (lget lk s) -> curproc s = Some p -> noff (kcpu s) = 0 ->
  sleep_on c (Some lk) k (taken lk s) = Ok tt (with_curproc None
    (upd p (fun x => p_cont (k (intr (kcpu s))) (p_state SLEEPING (p_chan c x))) s)).
Proof.
  intros Hr Hfr Hcur Hn. pose proof (procs_free_rest s Hr) as Hs. unfold sleep_on.
  rewrite <- (ol_cur s) in Hcur.
  rewrite (bind_ok _ _ _ _ _ (my_run p (taken lk s) (cpu_taken_outer lk s (ar_cpu s Hr)) Hcur)).
  rewrite (bind_ok _ _ _ _ _ (acquire_p p _ (free_taken_outer lk p s (ar_procs s Hr p)))), ol_comm.
  assert (cpu_ok (get_cpu (taken (plock p) s))) as Hcp by (apply cpu_taken_p, Hr).
  assert (is_free (lget lk (taken (plock p) s))) as Hw by (by rewrite ol_lget).
  rewrite (bind_ok _ _ _ _ _ (release_taken lk _ Hcp Hw)). rewrite ol_cur in Hcur.
  do 2 (rewrite (bind_ok _ _ _ _ _ (pmod_upd _ _ _)), upd_taken_p by apply _). rewrite !upd_upd.
  rewrite sched_run; [by rewrite upd_upd|apply procs_free_upd|..]; try done.
  by rewrite lookup_upd.
Qed.

Lemma killed_run lk `{!OuterLock lk} p (s : K) : at_rest s ->
  killed p (taken lk s) = Ok (killed_ (procs s !!! p)) (taken lk s).
Proof.
  intros Hr. unfold killed.
  rewrite (bind_ok _ _ _ _ _ (acquire_p p _ (free_taken_outer lk p s (ar_procs s Hr p)))).
  destruct (pget_taken p p (taken lk s)) as [l Hl]. rewrite (bind_ok _ _ _ _ _ Hl).
  rewrite (bind_ok _ _ _ _ _ (release_p p (taken lk s)
      (cpu_taken_outer lk _ (ar_cpu _ Hr)) (free_taken_outer lk p _ (ar_procs _ Hr p)))).
  by rewrite ol_procs.
Qed.

(** ** kexit *)

(** The process that exits gives up its files and its directory, and then its
    entry becomes a zombie. *)
Definition closed (x : proc) : proc := p_cwd 0 (p_ofile (vreplicate NOFILE 0) x).
Definition zombie (status : Z) (i : bool) (x : proc) : proc :=
  p_cont (KExit i) (p_state ZOMBIE (p_xstate status x)).
#[export] Instance kl_closed : KeepsLock closed.
Proof. keeps_lock. Qed.
#[export] Instance kl_zombie st i : KeepsLock (zombie st i).
Proof. keeps_lock. Qed.

(** The channel kexit wakes: the parent's. *)
Definition parent_chan (x : proc) : Z :=
  match parent x with None => 0 | Some q => proc_chan q end.

Lemma given_taken_w p ip ps (s s' : K) :
  given p ip ps (taken the_wait_lock s) s' ->
  exists s1, s' = taken the_wait_lock s1 /\ given p ip ps s s1.
Proof.
  intros [Ht Hq]. exists (with_procs (fun _ => procs s') s). split; [exact Ht|]. by split.
Qed.

Lemma at_rest_table (s s' : K) :
  table_of s s' -> at_rest s -> (forall q, lock (procs s' !!! q) = lock (procs s !!! q)) -> at_rest s'.
Proof.
  intros Ht [Hc Hp Hi Hw] Hl. rewrite Ht. split; try done. intros q. unfold free_p. simpl.
  rewrite Hl. apply Hp.
Qed.

Lemma table_wakeup c (s : K) : table_of s (after_wakeup c s).
Proof. done. Qed.

Lemma lookup_wakeup c (s : K) q :
  procs (after_wakeup c s) !!! q = wakes c (curproc s) q (procs s !!! q).
Proof. simpl. unfold woken. by rewrite lookup_fun_to_vec. Qed.

Lemma wakeup_taken_w c (s : K) :
  after_wakeup c (taken the_wait_lock s) = taken the_wait_lock (after_wakeup c s).
Proof. done. Qed.

Lemma kexit_run p ip status (s : K) :
  at_rest s -> curproc s = Some p -> noff (kcpu s) = 0 -> initproc s = Some ip -> p <> ip ->
  exists s1 s2 e, s1 = upd p closed (with_env e s) /\ given p (Some ip) all_procs s1 s2 /\
    kexit status s = Ok tt (with_curproc None (upd p (zombie status (intr (kcpu s)))
      (after_wakeup (parent_chan (procs s2 !!! p)) s2))).
Proof.
  intros Hr Hcur Hn Hip Hne. unfold kexit.
  rewrite (bind_ok _ _ _ _ _ (my_run p s (ar_cpu s Hr) Hcur)).
  unfold gets. unfold bind at 1. rewrite decide_False by (rewrite Hip; congruence).
  destruct (close_files_run p s) as [e1 He1]. rewrite (bind_ok _ _ _ _ _ He1).
  rewrite (bind_ok _ _ _ _ _ (pget_run _ _)), (bind_ok _ _ _ _ _ (tell_run _ _)).
  rewrite env_upd, env_env, (bind_ok _ _ _ _ _ (pmod_upd _ _ _)), upd_upd.
  match goal with |- context [with_env ?e s] => set (e2 := e) end.
  change (fun x => p_cwd 0 (p_ofile (vreplicate NOFILE 0) x)) with closed.
  set (s1 := upd p closed (with_env e2 s)).
  assert (at_rest s1) as Hr1 by (apply at_rest_upd; [apply _|by apply at_rest_env]).
  rewrite (bind_ok _ _ _ _ _ (acquire_w _ (ar_wait _ Hr1))).
  destruct (reparent_run p ip (taken the_wait_lock s1)
    (procs_free_w _ (procs_free_rest _ Hr1)) Hip) as (s2w & Hrep & Hg).
  rewrite (bind_ok _ _ _ _ _ Hrep). apply given_taken_w in Hg as (s2 & -> & Hg).
  exists s1, s2, e2. split; [done|]. split; [done|].
  rewrite (bind_ok _ _ _ _ _ (pget_run _ _)).
  change (procs (taken the_wait_lock s2)) with (procs s2).
  assert (at_rest s2) as Hr2.
  { apply (at_rest_table s1); [apply Hg|done|]. intros q. by eapply given_lock. }
  set (c := parent_chan (procs s2 !!! p)).
  assert (match parent (procs s2 !!! p) with None => wakeup 0 | Some q => wakeup (proc_chan q) end
          (taken the_wait_lock s2) = Ok tt (taken the_wait_lock (after_wakeup c s2))) as Hwk.
  { unfold c, parent_chan. destruct (parent (procs s2 !!! p));
      (rewrite wakeup_run by (by apply procs_free_w, procs_free_rest); done). }
  rewrite (bind_ok _ _ _ _ _ Hwk). set (s3 := after_wakeup c s2).
  assert (at_rest s3) as Hr3.
  { apply (at_rest_table s2); [done|done|]. intros q. unfold s3. by rewrite lookup_wakeup, kl_lock. }
  rewrite (bind_ok _ _ _ _ _ (acquire_p p _ (free_taken_w p s3 (ar_procs s3 Hr3 p)))).
  do 2 (rewrite (bind_ok _ _ _ _ _ (pmod_upd _ _ _)), upd_taken_p, upd_taken_w by apply _).
  rewrite upd_upd. set (f := fun x => p_state ZOMBIE (p_xstate status x)).
  set (s4 := upd p f s3).
  assert (at_rest s4) as Hr4 by (by apply at_rest_upd; [apply _|]).
  rewrite taken_pw.
  assert (cpu_ok (kcpu (taken (plock p) s4))) as Hcp by (apply cpu_taken_p, Hr4).
  assert (is_free (wait_lock (taken (plock p) s4))) as Hw by exact (ar_wait s4 Hr4).
  rewrite (bind_ok _ _ _ _ _ (release_w _ Hcp Hw)).
  destruct Hg as [Hts2 _].
  rewrite sched_run; [unfold s4, f; rewrite upd_upd| | | |].
  - unfold s3. rewrite Hts2. reflexivity.
  - by apply procs_free_rest.
  - unfold s4, s3. rewrite Hts2. exact Hcur.
  - unfold s4, s3. rewrite Hts2. exact Hn.
  - unfold s4. by rewrite lookup_upd.
Qed.

(** ** kwait *)

Definition child_of (p : fin NPROC) (s : K) (q : fin NPROC) : Prop := parent (procs s !!! q) = Some p.
Definition zombie_of (p : fin NPROC) (s : K) (q : fin NPROC) : Prop :=
  child_of p s q /\ state (procs s !!! q) = ZOMBIE.
#[export] Instance child_of_dec p s q : Decision (child_of p s q).
Proof. unfold child_of. apply _. Defined.
#[export] Instance zombie_of_dec p s q : Decision (zombie_of p s q).
Proof. unfold zombie_of. apply _. Defined.

(** Reaping the zombie [q]: its status is copied to [addr] (unless that is 0) and
    its entry freed; nothing is freed if the copy fails. *)
Definition reaped (p : fin NPROC) (addr : Z) (q : fin NPROC) (s : K) (v : Z) (s' : K) : Prop :=
  exists r e, (if decide (addr <> 0)
               then e_copyout (pagetable (procs s !!! p)) addr (xstate (procs s !!! q)) (env s)
               else (0, env s)) = (r, e) /\
    if decide (r < 0) then v = -1 /\ s' = with_env e s
    else v = pid (procs s !!! q) /\
         s' = upd q freed (with_env (free_env (procs s !!! q) e) s).

Lemma reap_step p addr q (s : K) l hk :
  at_rest s -> zombie_of p s q ->
  exists v s', wait_scan (q :: l) p addr hk (taken the_wait_lock s) = Ok (inl v) s' /\
               reaped p addr q s v s'.
Proof.
  intros Hr [Hch Hz]. cbn [wait_scan].
  rewrite (bind_ok _ _ _ _ _ (pget_run _ _)), decide_True by exact Hch.
  rewrite (bind_ok _ _ _ _ _ (acquire_p q _ (free_taken_w q s (ar_procs s Hr q)))), taken_pw.
  set (t := taken (plock q) s).
  destruct (lookup_taken_p q q s) as (lq & Hlq & _). destruct (lookup_taken_p q p s) as (lp & Hlp & _).
  assert (pget q (taken the_wait_lock t) = Ok (p_lock lq (procs s !!! q)) (taken the_wait_lock t)) as Hgq.
  { unfold pget, gets. change (procs (taken the_wait_lock t)) with (procs t). unfold t. by rewrite Hlq. }
  assert (pget p (taken the_wait_lock t) = Ok (p_lock lp (procs s !!! p)) (taken the_wait_lock t)) as Hgp.
  { unfold pget, gets. change (procs (taken the_wait_lock t)) with (procs t). unfold t. by rewrite Hlp. }
  rewrite (bind_ok _ _ _ _ _ Hgq), decide_True by exact Hz. rewrite (bind_ok _ _ _ _ _ Hgp).
  change (pagetable (p_lock lp (procs s !!! p))) with (pagetable (procs s !!! p)).
  change (xstate (p_lock lq (procs s !!! q))) with (xstate (procs s !!! q)).
  change (pid (p_lock lq (procs s !!! q))) with (pid (procs s !!! q)).
  unfold reaped.
  destruct (if decide (addr <> 0)
            then e_copyout (pagetable (procs s !!! p)) addr (xstate (procs s !!! q)) (env s)
            else (0, env s)) as [r e] eqn:Hcp.
  assert ((if decide (addr <> 0) then ask (e_copyout (pagetable (procs s !!! p)) addr (xstate (procs s !!! q)))
           else ret 0) (taken the_wait_lock t) = Ok r (taken the_wait_lock (taken (plock q) (with_env e s)))) as Hask.
  { case_decide; [unfold ask; simpl; by rewrite Hcp|]. injection Hcp as <- <-. by destruct s. }
  rewrite (bind_ok _ _ _ _ _ Hask).
  assert (at_rest (with_env e s)) as Hre by (by apply at_rest_env).
  destruct (decide (r < 0)) as [Hneg|Hneg].
  - rewrite <- taken_pw.
    rewrite (bind_ok _ _ _ _ _ (release_p q (taken the_wait_lock (with_env e s))
      (cpu_taken_w _ (ar_cpu _ Hre)) (free_taken_w q _ (ar_procs _ Hre q)))).
    rewrite (bind_ok _ _ _ _ _ (release_w _ (ar_cpu _ Hre) (ar_wait _ Hre))).
    eexists _, _. split; [done|]. exists r, e. by rewrite decide_True.
  - rewrite <- taken_pw, (bind_ok _ _ _ _ _ (freeproc_run q _)).
    change (procs (taken the_wait_lock (with_env e s))) with (procs s).
    change (env (taken the_wait_lock (with_env e s))) with e.
    rewrite env_taken_w, upd_taken_w, env_env.
    set (s' := upd q freed (with_env (free_env (procs s !!! q) e) s)).
    assert (at_rest s') as Hr' by (apply at_rest_upd; [apply _|by apply at_rest_env]).
    rewrite (bind_ok _ _ _ _ _ (release_p q (taken the_wait_lock s')
      (cpu_taken_w _ (ar_cpu _ Hr')) (free_taken_w q _ (ar_procs _ Hr' q)))).
    rewrite (bind_ok _ _ _ _ _ (release_w _ (ar_cpu _ Hr') (ar_wait _ Hr'))).
    eexists _, _. split; [done|]. exists r, e. by rewrite decide_False.
Qed.

(** A child that is not a zombie is passed over, and so is any other entry. *)
Lemma scan_skip p addr q l hk (s : K) :
  at_rest s -> ~ zombie_of p s q ->
  wait_scan (q :: l) p addr hk (taken the_wait_lock s) =
    wait_scan l p addr (if decide (child_of p s q) then true else hk) (taken the_wait_lock s).
Proof.
  intros Hr Hnz. cbn [wait_scan]. rewrite (bind_ok _ _ _ _ _ (pget_run _ _)).
  change (procs (taken the_wait_lock s)) with (procs s). unfold child_of.
  destruct (decide (parent (procs s !!! q) = Some p)) as [Hch|Hch]; [|by destruct (child_of_dec p s q)].
  rewrite (bind_ok _ _ _ _ _ (acquire_p q _ (free_taken_w q s (ar_procs s Hr q)))).
  destruct (pget_taken q q (taken the_wait_lock s)) as [lq Hlq]. rewrite (bind_ok _ _ _ _ _ Hlq).
  rewrite decide_False by (intros Hz; apply Hnz; by split).
  by rewrite (bind_ok _ _ _ _ _ (release_p q (taken the_wait_lock s)
      (cpu_taken_w _ (ar_cpu _ Hr)) (free_taken_w q _ (ar_procs _ Hr q)))).
Qed.

Lemma wait_scan_run p addr (s : K) l hk :
  at_rest s ->
  (exists q v s', q ∈ l /\ zombie_of p s q /\ reaped p addr q s v s' /\
     wait_scan l p addr hk (taken the_wait_lock s) = Ok (inl v) s') \/
  ((forall q, q ∈ l -> ~ zombie_of p s q) /\
   exists b, wait_scan l p addr hk (taken the_wait_lock s) = Ok (inr b) (taken the_wait_lock s) /\
     (b = true <-> hk = true \/ exists q, q ∈ l /\ child_of p s q)).
Proof.
  intros Hr. revert hk. induction l as [|q l IH]; intros hk.
  - right. split; [by intros q Hq%not_elem_of_nil|]. exists hk. split; [done|].
    split; [by left|]. intros [?|(q & Hq & _)]; [done|by apply not_elem_of_nil in Hq].
  - destruct (decide (zombie_of p s q)) as [Hz|Hz].
    + left. destruct (reap_step p addr q s l hk Hr Hz) as (v & s' & Hf & Hre).
      exists q, v, s'. split; [left|done].
    + rewrite scan_skip by done.
      destruct (IH (if decide (child_of p s q) then true else hk))
        as [(q' & v & s' & Hin & Hz' & Hre & Hrun)|[Hnz (b & Hrun & Hb)]].
      * left. exists q', v, s'. split; [by right|done].
      * right. split; [by intros q' [->|Hq']%elem_of_cons; [|apply Hnz]|].
        exists b. split; [done|]. rewrite Hb. case_decide as Hch.
        -- split; [intros _; right; exists q; split; [left|done]|by left].
        -- split.
           ++ intros [?|(q' & Hq' & Hc')]; [by left|]. right. exists q'. split; [by right|done].
           ++ intros [?|(q' & [->|Hq']%elem_of_cons & Hc')]; [by left|done|].
              right. by exists q'.
Qed.

(** From the top of the loop, with wait_lock held: a zombie child is reaped, or the
    call fails, or the process sleeps on its own channel. *)
Lemma kwait_loop_run p addr (s : K) :
  at_rest s -> curproc s = Some p -> noff (kcpu s) = 0 ->
  (exists q v s', zombie_of p s q /\ reaped p addr q s v s' /\ kwait_loop addr (taken the_wait_lock s) = Ok (WaitRet v) s') \/
  ((forall q, ~ zombie_of p s q) /\
   ((forall q, ~ child_of p s q) \/ killed_ (procs s !!! p) <> 0) /\
   kwait_loop addr (taken the_wait_lock s) = Ok (WaitRet (-1)) s) \/
  ((forall q, ~ zombie_of p s q) /\ (exists q, child_of p s q) /\ killed_ (procs s !!! p) = 0 /\
   kwait_loop addr (taken the_wait_lock s) = Ok WaitSleep (with_curproc None
     (upd p (fun x => p_cont (KSleep true (intr (kcpu s))) (p_state SLEEPING (p_chan (proc_chan p) x))) s))).
Proof.
  intros Hr Hcur Hn. unfold kwait_loop.
  rewrite (bind_ok _ _ _ _ _ (my_run p (taken the_wait_lock s) (cpu_taken_w s (ar_cpu s Hr)) Hcur)).
  destruct (wait_scan_run p addr s all_procs false Hr)
    as [(q & v & s' & _ & Hz & Hre & Hrun)|[Hnz (b & Hrun & Hb)]]; rewrite (bind_ok _ _ _ _ _ Hrun).
  { left. exists q, v, s'. done. }
  right. assert (forall q, ~ zombie_of p s q) as Hnz' by (intros q; apply Hnz, all_procs_in).
  destruct b.
  - assert (exists q, child_of p s q) as Hkid.
    { destruct Hb as [Hb _]. destruct (Hb eq_refl) as [?|(q & _ & Hq)]; [done|by exists q]. }
    rewrite (bind_ok _ _ _ _ _ (killed_run the_wait_lock p s Hr)). case_decide as Hk.
    + left. rewrite (bind_ok _ _ _ _ _ (release_w s (ar_cpu s Hr) (ar_wait s Hr))).
      split; [done|]. split; [by right|done].
    + right. unfold sleep. rewrite (bind_ok _ _ _ _ _ (sleep_on_run the_wait_lock _ p _ s Hr (ar_wait s Hr) Hcur Hn)).
      split; [done|]. split; [done|]. split; [lia|done].
  - left. rewrite bind_ret, decide_True by done.
    rewrite (bind_ok _ _ _ _ _ (release_w s (ar_cpu s Hr) (ar_wait s Hr))).
    split; [done|]. split; [|done]. left. intros q Hq. destruct Hb as [_ Hb].
    assert (false = true) by (apply Hb; right; exists q; split; [apply all_procs_in|done]). done.
Qed.

Lemma kwait_enter addr (s : K) :
  at_rest s -> kwait addr s = kwait_loop addr (taken the_wait_lock s).
Proof. intros Hr. unfold kwait. by rewrite (bind_ok _ _ _ _ _ (acquire_w s (ar_wait s Hr))). Qed.

End Exit.
