(* ===== verification/ProcInv.v ===== *)
(** * The invariant of the process table

    [inv] is what the table of kernel/proc.c satisfies whenever no kernel activation
    is under way on the CPU.  [kexec] is one activation: a system call or trap of the
    running process, a wakeup from a device, or a turn of the scheduler.  Every
    activation that may happen runs to its end, without a panic, and re-establishes
    [inv]. *)

From Stdlib Require Import ZArith Lia.
From stdpp Require Import base numbers list vector fin finite strings.
From S2P Require Import Prelude Spinlock Proc ProcSpec ProcOps ProcExit.
Open Scope Z_scope.

Section Inv.
Context {E : Type} `{ProcEnv E}.
Notation K := (kst E).
#[local] Opaque dup_ofile dup_env.

Definition alive (x : proc) : Prop := state x <> UNUSED /\ state x <> ZOMBIE.

(** What is true of the entry [p] whose contents are [x]. *)
Record entry_ok (s : K) (p : fin NPROC) (x : proc) : Prop := {
  eo_unused : state x = UNUSED ->
    pid x = 0 /\ parent x = None /\ trapframe_ x = 0 /\ pagetable x = 0;
  eo_used : state x <> UNUSED ->
    0 < pid x < nextpid s /\ trapframe_ x <> 0 /\ pagetable x <> 0;
  eo_parent : state x <> UNUSED -> initproc s <> Some p ->
    exists q, parent x = Some q /\ alive (procs s !!! q);
  eo_orphan : initproc s = Some p -> parent x = None;
  eo_rest : state x <> USED;
  eo_running : state x = RUNNING <-> curproc s = Some p;
  eo_closed : ~ alive x -> ofile x = vreplicate NOFILE 0 /\ cwd x = 0;
  eo_cont : forall i, state x <> UNUSED -> cont x = KExit i -> state x = ZOMBIE }.

Record inv (s : K) : Prop := {
  inv_rest : at_rest s;
  inv_noff : noff (kcpu s) = 0;
  inv_init : exists i, initproc s = Some i /\ alive (procs s !!! i);
  inv_next : 0 < nextpid s;
  inv_entry : forall p, entry_ok s p (procs s !!! p);
  inv_pids : forall p q, pid (procs s !!! p) = pid (procs s !!! q) ->
    state (procs s !!! p) <> UNUSED -> p = q }.

(** An entry as another activation may leave it: its identity, memory and place
    in the tree are the same, and it may have been woken. *)
Record kept (x y : proc) : Prop := {
  kp_pid : pid y = pid x;
  kp_parent : parent y = parent x;
  kp_tf : trapframe_ y = trapframe_ x;
  kp_pt : pagetable y = pagetable x;
  kp_ofile : ofile y = ofile x;
  kp_cwd : cwd y = cwd x;
  kp_cont : cont y = cont x;
  kp_state : state y = state x \/ (state x = SLEEPING /\ state y = RUNNABLE) }.

Lemma kept_refl x : kept x x.
Proof. split; auto. Qed.

Lemma kept_alive x y : kept x y -> alive x -> alive y.
Proof. intros [? ? ? ? ? ? ? Hs] [? ?]. unfold alive. destruct Hs as [->|[? ->]]; split; congruence. Qed.

Lemma kept_dead x y : kept x y -> ~ alive y -> ~ alive x.
Proof. intros Hk Hy Hx. by apply Hy, (kept_alive x). Qed.

Lemma kept_unused x y : kept x y -> state y <> UNUSED <-> state x <> UNUSED.
Proof. intros [? ? ? ? ? ? ? [->|[-> ->]]]; [done|]. by split. Qed.

(** The context an entry is judged in may change as long as living parents stay. *)
Lemma entry_ok_kept (s s' : K) p x y :
  kept x y ->
  nextpid s <= nextpid s' -> initproc s' = initproc s ->
  (curproc s' = Some p <-> curproc s = Some p) ->
  (forall q, parent x = Some q -> alive (procs s !!! q) -> alive (procs s' !!! q)) ->
  entry_ok s p x -> entry_ok s' p y.
Proof.
  intros Hk Hn Hi Hc Ha [H1 H2 H3 H4 H5 H6 H7 H8].
  pose proof (kept_unused _ _ Hk) as Hu. pose proof (kept_dead _ _ Hk) as Hd. destruct Hk as [Kp Kq Kt Kg Ko Kw Kc Ks].
  split; rewrite ?Kp, ?Kq, ?Kt, ?Kg, ?Ko, ?Kw, ?Kc, ?Hi.
  - destruct Ks as [->|[? ?]]; [done|congruence].
  - rewrite Hu. intros Hs. specialize (H2 Hs). split; [lia|apply H2].
  - rewrite Hu. intros Hs Hp. destruct (H3 Hs Hp) as (q & Hq & Hal). eauto.
  - done.
  - destruct Ks as [->|[_ ->]]; done.
  - rewrite Hc, <- H6. destruct Ks as [->|[-> ->]]; done.
  - auto.
  - intros i. rewrite Hu. intros Hs He. specialize (H8 i Hs He).
    destruct Ks as [->|[? ?]]; congruence.
Qed.

(** Activations that only wake, kill or resize processes. *)
Lemma inv_kept (s s' : K) :
  inv s -> at_rest s' -> noff (kcpu s') = 0 ->
  nextpid s <= nextpid s' -> initproc s' = initproc s -> curproc s' = curproc s ->
  (forall q, kept (procs s !!! q) (procs s' !!! q)) -> inv s'.
Proof.
  intros [Hr Ho (i & Hi & Hal) Hn He Hp] Hr' Ho' Hn' Hi' Hc' Hk. split; try done.
  - exists i. rewrite Hi'. split; [done|]. by eapply kept_alive.
  - lia.
  - intros p. eapply entry_ok_kept; [apply Hk|done|done| | |apply He].
    + by rewrite Hc'.
    + intros q _ Hq. by eapply kept_alive.
  - intros p q. rewrite (kp_pid _ _ (Hk p)), (kp_pid _ _ (Hk q)), (kept_unused _ _ (Hk p)). apply Hp.
Qed.

(** One entry [p] is replaced. *)
Lemma inv_one (s s' : K) p :
  inv s -> at_rest s' -> noff (kcpu s') = 0 ->
  nextpid s <= nextpid s' -> initproc s' = initproc s ->
  (forall q, p <> q -> curproc s' = Some q <-> curproc s = Some q) ->
  (forall q, p <> q -> procs s' !!! q = procs s !!! q) ->
  (alive (procs s !!! p) -> alive (procs s' !!! p)) ->
  (forall q, p <> q -> pid (procs s' !!! p) = pid (procs s !!! q) ->
     state (procs s' !!! p) = UNUSED /\ state (procs s !!! q) = UNUSED) ->
  entry_ok s' p (procs s' !!! p) -> inv s'.
Proof.
  intros [Hr Ho (i & Hi & Hal) Hn He Hp] Hr' Ho' Hn' Hi' Hc' Hq Hpa Hpid Hep.
  assert (forall q, alive (procs s !!! q) -> alive (procs s' !!! q)) as Hlive.
  { intros q. destruct (decide (p = q)) as [->|Hne]; [done|]. by rewrite Hq. }
  split; try done.
  - exists i. rewrite Hi'. auto.
  - lia.
  - intros q. destruct (decide (p = q)) as [->|Hne]; [done|]. rewrite Hq by done.
    eapply entry_ok_kept; [apply kept_refl|done|done|auto|auto|apply He].
  - intros a b. destruct (decide (p = a)) as [->|Hna], (decide (a = b)) as [->|Hab]; try done.
    + rewrite (Hq b) by done. intros Heq Hs. by destruct (Hpid b Hab Heq).
    + destruct (decide (p = b)) as [->|Hnb].
      * rewrite (Hq a) by done. intros Heq Hs. destruct (Hpid a) as [_ ?]; congruence.
      * rewrite (Hq a), (Hq b) by done. apply Hp.
Qed.

(** ** Activations *)

Inductive kop : Type :=
| OFork | OExit (status : Z) | OWait (addr : Z) | OGrow (n : Z) | OYield | OSleep (c : Z)
| OKill (target : Z) | OSetkilled (p : fin NPROC) | OWakeup (c : Z)
| OSchedule (p : fin NPROC) (addr : Z).

(** A process that the scheduler resumes inside kwait goes on with its loop; [addr]
    is the argument of that call, kept on its kernel stack. *)
Definition kexec (o : kop) : M K unit :=
  match o with
  | OFork => kfork ;; ret tt
  | OExit status => kexit status
  | OWait addr => kwait addr ;; ret tt
  | OGrow n => growproc n ;; ret tt
  | OYield => yield
  | OSleep c => sleep c false
  | OKill target => kkill target ;; ret tt
  | OSetkilled p => setkilled p
  | OWakeup c => wakeup c
  | OSchedule p addr =>
      let! x := pget p in
      let! run := scheduler_run p in
      match run, cont x with
      | true, KSleep true _ => kwait_loop addr ;; ret tt
      | _, _ => ret tt
      end
  end.

(** When an activation may happen: system calls are made by the process on the
    CPU, init does not exit, pids are below the limit of int, and the scheduler runs
    when no process does. *)
Definition enabled (o : kop) (s : K) : Prop :=
  match o with
  | OFork => curproc s <> None /\ in_int (nextpid s + 1)
  | OExit _ => curproc s <> None /\ curproc s <> initproc s
  | OWait _ | OGrow _ | OYield | OSleep _ => curproc s <> None
  | OKill _ | OSetkilled _ | OWakeup _ => True
  | OSchedule _ _ => curproc s = None
  end.

Definition good (o : kop) (s : K) : Prop := exists s', kexec o s = Ok tt s' /\ inv s'.

Lemma good_intro o (s s' : K) : kexec o s = Ok tt s' -> inv s' -> good o s.
Proof. by exists s'. Qed.

Lemma inv_curproc (s : K) p : inv s -> curproc s = Some p -> state (procs s !!! p) = RUNNING.
Proof. intros Hi Hc. by apply (eo_running s p _ (inv_entry s Hi p)). Qed.

Lemma inv_env e (s : K) : inv s -> inv (with_env e s).
Proof.
  intros Hi. apply (inv_kept s); try done; [by apply at_rest_env, Hi|apply Hi|].
  intros q. apply kept_refl.
Qed.

(** A change of one entry that keeps what the invariant looks at. *)
Lemma inv_upd_kept p f (s : K) `{!KeepsLock f} :
  inv s -> kept (procs s !!! p) (f (procs s !!! p)) -> inv (upd p f s).
Proof.
  intros Hi Hk. apply (inv_kept s); try done; [by apply at_rest_upd; [|apply Hi]|apply Hi|].
  intros q. destruct (decide (p = q)) as [->|Hne].
  - by rewrite lookup_upd.
  - rewrite lookup_upd_ne by done. apply kept_refl.
Qed.

Lemma good_kill target (s : K) : inv s -> good (OKill target) s.
Proof.
  intros Hi. destruct (kkill_run target s) as [[Hrun _]|(p & Hp & Hrun)];
    [by apply procs_free_rest, Hi| |]; (eapply good_intro; [simpl; by rewrite (bind_ok _ _ _ _ _ Hrun)|]).
  - done.
  - apply inv_upd_kept; [apply _|done|]. split; try done. unfold kill. simpl.
    case_decide; [by right|by left].
Qed.

Lemma setkilled_run p (s : K) : procs_free s -> setkilled p s = Ok tt (upd p (p_killed 1) s).
Proof.
  intros Hs. pose proof Hs as [Hc Hf]. unfold setkilled.
  rewrite (bind_ok _ _ _ _ _ (acquire_p p s (Hf p))).
  rewrite (bind_ok _ _ _ _ _ (pmod_upd _ _ _)), upd_taken_p by apply _. by apply release_upd.
Qed.

Lemma good_setkilled p (s : K) : inv s -> good (OSetkilled p) s.
Proof.
  intros Hi. eapply good_intro; [by apply setkilled_run, procs_free_rest, Hi|].
  apply inv_upd_kept; [apply _|done|]. split; auto.
Qed.

Lemma wakes_kept c cur p x : kept x (wakes c cur p x).
Proof.
  unfold wakes. case_decide as Hd; [|apply kept_refl]. split; try done. right. by destruct Hd as (_ & ? & _).
Qed.

Lemma at_rest_wakeup c (s : K) : at_rest s -> at_rest (after_wakeup c s).
Proof.
  intros Hr. apply (at_rest_table s); [done|done|]. intros q. by rewrite lookup_wakeup, kl_lock.
Qed.

Lemma inv_wakeup c (s : K) : inv s -> inv (after_wakeup c s).
Proof.
  intros Hi. apply (inv_kept s); try done; [by apply at_rest_wakeup, Hi|apply Hi|].
  intros q. rewrite lookup_wakeup. apply wakes_kept.
Qed.

Lemma good_wakeup c (s : K) : inv s -> good (OWakeup c) s.
Proof.
  intros Hi. eapply good_intro; [by apply wakeup_run, procs_free_rest, Hi|]. by apply inv_wakeup.
Qed.

Lemma growproc_run n p (s : K) :
  at_rest s -> curproc s = Some p ->
  exists r v e, growproc n s = Ok r (upd p (p_sz v) (with_env e s)).
Proof.
  intros Hr Hc. unfold growproc. rewrite (bind_ok _ _ _ _ _ (my_run p s (ar_cpu s Hr) Hc)).
  rewrite (bind_ok _ _ _ _ _ (pget_run _ _)). set (x := procs s !!! p).
  assert (forall v (t : K), sz (procs t !!! p) = v -> upd p (p_sz v) t = t) as Hid.
  { intros v t Hv. apply upd_id. rewrite <- Hv. by destruct (procs t !!! p). }
  case_decide; [|case_decide].
  - destruct (e_uvmalloc (pagetable x) (sz x) (u64 (sz x + n)) (env s)) as [v e] eqn:Hv.
    rewrite (bind_ok _ _ _ v (with_env e s)) by (unfold ask; by rewrite Hv). case_decide.
    + exists (-1), (sz x), e. by rewrite Hid.
    + exists 0, v, e. by rewrite (bind_ok _ _ _ _ _ (pmod_upd _ _ _)).
  - destruct (e_uvmdealloc (pagetable x) (sz x) (u64 (sz x + n)) (env s)) as [v e] eqn:Hv.
    rewrite (bind_ok _ _ _ v (with_env e s)) by (unfold ask; by rewrite Hv).
    exists 0, v, e. by rewrite (bind_ok _ _ _ _ _ (pmod_upd _ _ _)).
  - exists 0, (sz x), (env s). rewrite (bind_ok _ _ _ _ _ (pmod_upd _ _ _)). by destruct s.
Qed.

Lemma good_grow n p (s : K) : inv s -> curproc s = Some p -> good (OGrow n) s.
Proof.
  intros Hi Hc. destruct (growproc_run n p s (inv_rest s Hi) Hc) as (r & v & e & Hrun).
  eapply good_intro; [simpl; by rewrite (bind_ok _ _ _ _ _ Hrun)|].
  apply inv_upd_kept; [apply _|by apply inv_env|]. split; auto.
Qed.

(** ** Giving up and taking the CPU *)

(** What the scheduler and the operations that leave the CPU change of an entry. *)
Record switched (x y : proc) : Prop := {
  sw_pid : pid y = pid x;
  sw_parent : parent y = parent x;
  sw_tf : trapframe_ y = trapframe_ x;
  sw_pt : pagetable y = pagetable x;
  sw_old : alive x;
  sw_new : alive y;
  sw_rest : state y <> USED;
  sw_cont : forall i, cont y <> KExit i }.

Lemma entry_switched (s s' : K) p x y :
  switched x y -> nextpid s' = nextpid s -> initproc s' = initproc s ->
  (state y = RUNNING <-> curproc s' = Some p) ->
  (forall q, alive (procs s !!! q) -> alive (procs s' !!! q)) ->
  entry_ok s p x -> entry_ok s' p y.
Proof.
  intros [Sp Sq St Sg [Su Sz] [Su' Sz'] Sr Sc] Hn Hi Hrun Hal [H1 H2 H3 H4 H5 H6 H7 H8].
  split; rewrite ?Sp, ?Sq, ?St, ?Sg, ?Hn, ?Hi; try done.
  - intros _. by apply H2.
  - intros _ Hp. destruct (H3 Su Hp) as (q & Hq & Ha). eauto.
  - intros []. by split.
  - intros i _ He. by destruct (Sc i).
Qed.

Lemma inv_switched (s s' : K) p :
  inv s -> at_rest s' -> noff (kcpu s') = 0 -> nextpid s' = nextpid s -> initproc s' = initproc s ->
  (forall q, p <> q -> curproc s' = Some q <-> curproc s = Some q) ->
  (forall q, p <> q -> procs s' !!! q = procs s !!! q) ->
  switched (procs s !!! p) (procs s' !!! p) ->
  (state (procs s' !!! p) = RUNNING <-> curproc s' = Some p) -> inv s'.
Proof.
  intros Hi Hr Ho Hn Hin Hc Hq Hsw Hrun.
  assert (forall q, alive (procs s !!! q) -> alive (procs s' !!! q)) as Hlive.
  { intros q. destruct (decide (p = q)) as [->|Hne]; [|by rewrite Hq]. intros _. apply Hsw. }
  eapply (inv_one s s' p); try done.
  - lia.
  - auto.
  - intros q Hne Hpid. rewrite (sw_pid _ _ Hsw) in Hpid. destruct Hne.
    apply (inv_pids s Hi p q Hpid), Hsw.
  - eapply entry_switched; try done. by apply inv_entry.
Qed.

Lemma inv_leave p g (s : K) `{!KeepsLock g} :
  inv s -> curproc s = Some p -> switched (procs s !!! p) (g (procs s !!! p)) ->
  state (g (procs s !!! p)) <> RUNNING -> inv (with_curproc None (upd p g s)).
Proof.
  intros Hi Hc Hsw Hst. apply (inv_switched s _ p); try done.
  - apply at_rest_curproc, at_rest_upd; [apply _|apply Hi].
  - apply Hi.
  - intros q Hne. rewrite Hc. simpl. split; congruence.
  - intros q Hne. by rewrite <- (lookup_upd_ne p q g s).
  - simpl. by rewrite vlookup_insert.
  - simpl. rewrite vlookup_insert. done.
Qed.

Lemma running_alive (s : K) p : inv s -> curproc s = Some p -> alive (procs s !!! p).
Proof. intros Hi Hc. unfold alive. by rewrite (inv_curproc s p Hi Hc). Qed.

Lemma good_yield p (s : K) : inv s -> curproc s = Some p -> good OYield s.
Proof.
  intros Hi Hc. eapply good_intro; [by apply (yield_run p); [apply Hi| |apply Hi]|].
  apply inv_leave; [apply _|done..| |done]. by split; [..|by apply running_alive| | |].
Qed.

Lemma inv_sleep c w i p (s : K) :
  inv s -> curproc s = Some p ->
  inv (with_curproc None (upd p (fun x => p_cont (KSleep w i) (p_state SLEEPING (p_chan c x))) s)).
Proof.
  intros Hi Hc. apply inv_leave; [apply _|done..| |done]. by split; [..|by apply running_alive| | |].
Qed.

Lemma good_sleep c p (s : K) : inv s -> curproc s = Some p -> good (OSleep c) s.
Proof.
  intros Hi Hc. eapply good_intro; [by apply (sleep_run p); [apply Hi| |apply Hi]|]. by apply inv_sleep.
Qed.

(** ** fork *)

Lemma unused_not_init (s : K) p : inv s -> state (procs s !!! p) = UNUSED -> initproc s <> Some p.
Proof. intros Hi Hu Hp. destruct (inv_init s Hi) as (i & Hi' & [Ha _]). congruence. Qed.

(** A pid of 0 is that of an unused entry. *)
Lemma zero_pid_unused (s : K) p : inv s -> pid (procs s !!! p) = 0 <-> state (procs s !!! p) = UNUSED.
Proof.
  intros Hi. destruct (inv_entry s Hi p) as [Hu Hs _ _ _ _ _ _]. split; [|by intros Hp; apply Hu].
  intros Hz. destruct (decide (state (procs s !!! p) = UNUSED)) as [?|Hn]; [done|].
  destruct (Hs Hn). lia.
Qed.

(** An entry that becomes, or stays, unused. *)
Lemma inv_freed p f e n (s : K) `{!KeepsLock f} :
  inv s -> nextpid s <= n -> ~ alive (procs s !!! p) -> initproc s <> Some p ->
  let x := f (procs s !!! p) in
  state x = UNUSED -> pid x = 0 -> parent x = None -> trapframe_ x = 0 -> pagetable x = 0 ->
  ofile x = ofile (procs s !!! p) -> cwd x = cwd (procs s !!! p) ->
  inv (upd p f (with_env e (with_nextpid n s))).
Proof.
  intros Hi Hn Hna Hin x Hs Hpid Hpar Htf Hpt Hof Hcw.
  apply (inv_one s _ p); rewrite ?lookup_upd; try done.
  - apply at_rest_upd_env; [apply _|apply Hi].
  - apply Hi.
  - intros q Hne. by rewrite lookup_upd_ne.
  - intros q Hne Heq. split; [done|]. apply (zero_pid_unused s); [done|]. by rewrite <- Heq.
  - simpl. fold x. split; simpl; try done.
    + rewrite Hs. done.
    + rewrite Hs. split; [done|]. intros Hc. destruct Hna. by apply running_alive.
    + intros _. rewrite Hof, Hcw. by apply (eo_closed _ _ _ (inv_entry s Hi p)).
Qed.

Lemma alloc_failed_inv (s s' : K) : inv s -> alloc_failed s s' -> inv s'.
Proof.
  intros Hi [->|(p & e & k & Hu & ->)]; [done|].
  apply (inv_freed p (fun x => freed (p_cont k x)) e _ s); try done; [lia| |].
  - intros [? _]. done.
  - by apply unused_not_init.
Qed.

Lemma inv_forked p np page pt e (s : K) :
  inv s -> curproc s = Some p -> state (procs s !!! np) = UNUSED -> page <> 0 -> pt <> 0 ->
  inv (upd np (forked p (procs s !!! p) (nextpid s) page pt)
         (with_env e (with_nextpid (nextpid s + 1) s))).
Proof.
  intros Hi Hc Hu Hpg Hpt. pose proof (inv_next s Hi) as Hnp.
  assert (np <> p) as Hne by (intros ->; pose proof (inv_curproc s p Hi Hc); congruence).
  apply (inv_one s _ np); rewrite ?lookup_upd; try done.
  - apply at_rest_upd_env; [apply _|apply Hi].
  - apply Hi.
  - simpl. lia.
  - intros q Hq. by rewrite lookup_upd_ne.
  - intros q Hq Heq. simpl in Heq. exfalso. destruct (inv_entry s Hi q) as [H1 H2 _ _ _ _ _ _].
    destruct (decide (state (procs s !!! q) = UNUSED)) as [Hq0|Hq0].
    + destruct (H1 Hq0). lia.
    + destruct (H2 Hq0). lia.
  - split; try done.
    + intros _. simpl. split; [lia|done].
    + intros _ _. exists p. split; [done|]. rewrite lookup_upd_ne by done. exact (running_alive s p Hi Hc).
    + simpl. intros Hin. by destruct (unused_not_init s np Hi Hu).
    + simpl. rewrite Hc. split; congruence.
    + intros []. by split.
Qed.

Lemma good_fork p (s : K) :
  inv s -> curproc s = Some p -> in_int (nextpid s + 1) -> good OFork s.
Proof.
  intros Hi Hc Hn.
  destruct (kfork_run p s (inv_rest s Hi) Hn Hc (inv_curproc s p Hi Hc))
    as [(s' & Hrun & Hf)|(np & page & pt & e & Hu & Hpg & Hpt & Hrun)];
    (eapply good_intro; [simpl; by rewrite (bind_ok _ _ _ _ _ Hrun)|]).
  - by eapply alloc_failed_inv.
  - by apply inv_forked.
Qed.

(** ** wait *)

Lemma reaped_inv p addr q (s s' : K) v :
  inv s -> zombie_of p s q -> reaped p addr q s v s' -> inv s'.
Proof.
  intros Hi [Hch Hz] (r & e & _ & Hre). case_decide; destruct Hre as [_ ->]; [by apply inv_env|].
  assert (with_env (free_env (procs s !!! q) e) s =
          with_env (free_env (procs s !!! q) e) (with_nextpid (nextpid s) s)) as -> by (by destruct s).
  apply inv_freed; try done; [by intros [_ ?]|].
  intros Hin. destruct (inv_init s Hi) as (i & Hi' & [_ ?]). congruence.
Qed.

Lemma kwait_loop_inv p addr (s : K) :
  inv s -> curproc s = Some p ->
  exists r s', kwait_loop addr (taken the_wait_lock s) = Ok r s' /\ inv s'.
Proof.
  intros Hi Hc.
  destruct (kwait_loop_run p addr s (inv_rest s Hi) Hc (inv_noff s Hi))
    as [(q & v & s' & Hz & Hre & Hrun)|[(_ & _ & Hrun)|(_ & _ & _ & Hrun)]]; eexists _, _; (split; [exact Hrun|]).
  - by eapply reaped_inv.
  - done.
  - by apply inv_sleep.
Qed.

Lemma good_wait addr p (s : K) : inv s -> curproc s = Some p -> good (OWait addr) s.
Proof.
  intros Hi Hc. destruct (kwait_loop_inv p addr s Hi Hc) as (r & s' & Hrun & Hi').
  eapply good_intro; [|exact Hi']. simpl.
  rewrite <- (kwait_enter addr s (inv_rest s Hi)) in Hrun. by rewrite (bind_ok _ _ _ _ _ Hrun).
Qed.

(** ** exit *)

(** An entry whose parent was [p] now has [ip] as parent. *)
Definition given_to (p ip : fin NPROC) (x : proc) : proc :=
  if decide (parent x = Some p) then p_parent (Some ip) x else x.

Lemma woke_kept x y : woke x y -> kept x y.
Proof. intros [->|[Hs ->]]; [apply kept_refl|]. split; auto. Qed.

Lemma kept_trans x y z : kept x y -> kept y z -> kept x z.
Proof.
  intros [K1 K2 K3 K4 K5 K6 K7 K8] [L1 L2 L3 L4 L5 L6 L7 L8]. split; try congruence.
  destruct K8 as [K8|[? K8]], L8 as [L8|[? ?]]; rewrite ?L8, ?K8; auto; try congruence.
  right. by rewrite <- K8.
Qed.

(** Process [q] sleeps on its own channel, as kwait does. *)
Definition waits (q : fin NPROC) (x : proc) : Prop := state x = SLEEPING /\ chan x = proc_chan q.

Lemma waits_woken c p q x y :
  woke x y -> waits q x -> p <> q -> c = proc_chan q ->
  state (wakes c (Some p) q y) = RUNNABLE /\ forall v, state (wakes c (Some p) q (p_parent v y)) = RUNNABLE.
Proof.
  intros Hy [Hs Hch] Hne ->. unfold wakes.
  destruct Hy as [->|[_ ->]]; (split; [|intros v]); simpl; case_decide as Hd; try done;
    destruct Hd; split; simpl; try done; try congruence.
Qed.

(** Every entry after an exit of [p]. *)
Lemma kexit_entries p ip status (s : K) :
  inv s -> curproc s = Some p -> initproc s = Some ip -> p <> ip ->
  exists s', kexit status s = Ok tt s' /\ at_rest s' /\ noff (kcpu s') = 0 /\
    nextpid s' = nextpid s /\ initproc s' = Some ip /\ curproc s' = None /\
    (forall q, p <> q -> kept (given_to p ip (procs s !!! q)) (procs s' !!! q)) /\
    (forall q, parent (procs s !!! p) = Some q -> waits q (procs s !!! q) ->
       state (procs s' !!! q) = RUNNABLE) /\
    exists y, kept (given_to p ip (closed (procs s !!! p))) y /\
      procs s' !!! p = zombie status (intr (kcpu s)) y.
Proof.
  intros Hi Hc Hip Hne.
  destruct (kexit_run p ip status s (inv_rest s Hi) Hc (inv_noff s Hi) Hip Hne)
    as (s1 & s2 & e & -> & Hg & Hrun).
  eexists. split; [exact Hrun|]. pose proof Hg as [Ht Hq].
  assert (at_rest s2) as Hr2.
  { eapply at_rest_table; [exact Ht| |intros q; by eapply given_lock].
    apply at_rest_upd; [apply _|]. apply at_rest_env, Hi. }
  set (c := parent_chan (procs s2 !!! p)). set (s3 := after_wakeup c s2).
  assert (forall q, kept (given_to p ip (procs (upd p closed (with_env e s)) !!! q)) (procs s3 !!! q)) as Hk.
  { intros q. unfold s3. rewrite lookup_wakeup. eapply kept_trans; [|apply wakes_kept].
    destruct (Hq q) as (y & Hy & ->). unfold given_to. pose proof (woke_kept _ _ Hy) as Hk.
    destruct (decide (parent (procs (upd p closed (with_env e s)) !!! q) = Some p)) as [Hp|Hp].
    - rewrite decide_True by (split; [apply all_procs_in|done]). by apply woke_kept, woke_parent.
    - rewrite decide_False by (by intros [_ ?]). done. }
  repeat apply conj.
  - apply at_rest_curproc, at_rest_upd; [apply _|]. by apply at_rest_wakeup.
  - simpl. rewrite Ht. apply (inv_noff s Hi).
  - simpl. by rewrite Ht.
  - simpl. by rewrite Ht.
  - done.
  - intros q Hpq. specialize (Hk q). rewrite lookup_upd_ne in Hk by done.
    change (procs (with_curproc None ?t)) with (procs t). by rewrite lookup_upd_ne.
  - intros q Hpar Hw.
    assert (p <> q) as Hpq by (intros <-; pose proof (inv_curproc s p Hi Hc); destruct Hw; congruence).
    assert (parent (procs s2 !!! p) = Some q) as Hp2.
    { destruct (Hq p) as (y & Hy & ->). rewrite lookup_upd in Hy |- *.
      rewrite decide_False by (intros [_ Hd]; cbn in Hd; congruence).
      by rewrite (kp_parent _ _ (woke_kept _ _ Hy)). }
    change (procs (with_curproc None ?t)) with (procs t). rewrite lookup_upd_ne by done.
    unfold s3. rewrite lookup_wakeup. assert (curproc s2 = Some p) as -> by (rewrite Ht; exact Hc).
    assert (c = proc_chan q) as Hcq by (unfold c, parent_chan; by rewrite Hp2).
    destruct (Hq q) as (y & Hy & ->). rewrite lookup_upd_ne in Hy |- * by done.
    destruct (waits_woken c p q _ y Hy Hw Hpq Hcq). by case_decide.
  - exists (procs s3 !!! p). split.
    + specialize (Hk p). by rewrite lookup_upd in Hk.
    + change (procs (with_curproc None ?t)) with (procs t). by rewrite lookup_upd.
Qed.

Lemma given_to_same p ip x :
  pid (given_to p ip x) = pid x /\ state (given_to p ip x) = state x /\
  trapframe_ (given_to p ip x) = trapframe_ x /\ pagetable (given_to p ip x) = pagetable x /\
  ofile (given_to p ip x) = ofile x /\ cwd (given_to p ip x) = cwd x /\
  cont (given_to p ip x) = cont x.
Proof. unfold given_to. by case_decide. Qed.

Lemma given_to_alive p ip x : alive x -> alive (given_to p ip x).
Proof. unfold alive. destruct (given_to_same p ip x) as (_ & -> & _). done. Qed.

Lemma given_to_parent p ip x : p <> ip -> parent (given_to p ip x) <> Some p.
Proof. intros Hne. unfold given_to. case_decide; simpl; congruence. Qed.

Lemma given_to_ok (s : K) p ip q x :
  alive (procs s !!! ip) -> entry_ok s q x -> entry_ok s q (given_to p ip x).
Proof.
  intros Hal He. unfold given_to. case_decide as Hp; [|done].
  destruct He as [H1 H2 H3 H4 H5 H6 H7 H8]. split; simpl; try done.
  - intros Hu. destruct (H1 Hu) as (_ & ? & _). congruence.
  - intros _ _. by exists ip.
  - intros Hq. specialize (H4 Hq). congruence.
Qed.

Lemma kexit_inv p ip status (s : K) :
  inv s -> curproc s = Some p -> initproc s = Some ip -> p <> ip ->
  exists s', kexit status s = Ok tt s' /\ inv s'.
Proof.
  intros Hi Hc Hip Hne.
  destruct (kexit_entries p ip status s Hi Hc Hip Hne)
    as (s' & Hrun & Hr & Ho & Hn & Hin & Hc' & Hk & _ & y & Hy & Hp).
  exists s'. split; [done|].
  assert (alive (procs s !!! ip)) as Hal.
  { destruct (inv_init s Hi) as (i & Hi' & Ha). congruence. }
  assert (forall q, p <> q -> alive (procs s !!! q) -> alive (procs s' !!! q)) as Hlive.
  { intros q Hq Ha. eapply kept_alive; [by apply Hk|]. by apply given_to_alive. }
  assert (pid (procs s' !!! p) = pid (procs s !!! p)) as Hpid.
  { rewrite Hp. simpl. rewrite (kp_pid _ _ Hy). by destruct (given_to_same p ip (closed (procs s !!! p))) as (-> & _). }
  assert (forall q, pid (procs s' !!! q) = pid (procs s !!! q)) as Hpids.
  { intros q. destruct (decide (p = q)) as [<-|Hq]; [done|]. rewrite (kp_pid _ _ (Hk q Hq)).
    by destruct (given_to_same p ip (procs s !!! q)) as (-> & _). }
  split; try done.
  - exists ip. auto.
  - rewrite Hn. apply Hi.
  - intros q. destruct (decide (p = q)) as [<-|Hq].
    + rewrite Hp. pose proof (inv_entry s Hi p) as He.
      pose proof (given_to_ok s p ip p _ Hal He) as [_ H2 H3 _ _ _ _ _].
      assert (state (given_to p ip (procs s !!! p)) <> UNUSED) as Hu
        by apply (given_to_alive _ _ _ (running_alive s p Hi Hc)).
      destruct (given_to_same p ip (closed (procs s !!! p))) as (Gp & Gs & Gt & Gg & Go & Gw & _).
      destruct (given_to_same p ip (procs s !!! p)) as (Gp' & _ & Gt' & Gg' & _).
      destruct (H2 Hu) as (Hlt & Htf & Hpt). destruct (H3 Hu) as (a & Ha & Haa); [congruence|].
      split; simpl; try done.
      * intros _. rewrite (kp_pid _ _ Hy), (kp_tf _ _ Hy), (kp_pt _ _ Hy), Gp, Gt, Gg, Hn.
        rewrite Gp', Gt', Gg' in *. done.
      * intros _ _. exists a. rewrite (kp_parent _ _ Hy). split.
        -- rewrite <- Ha. unfold given_to. simpl. by case_decide.
        -- apply Hlive; [|done]. intros <-. by destruct (given_to_parent p ip (procs s !!! p) Hne).
      * intros ?. congruence.
      * split; [done|]. congruence.
      * intros _. by rewrite (kp_ofile _ _ Hy), (kp_cwd _ _ Hy), Go, Gw.
    + eapply entry_ok_kept; [by apply Hk| | | | |by apply given_to_ok, inv_entry].
      * lia.
      * congruence.
      * rewrite Hc', Hc. split; congruence.
      * intros a Ha Haa. apply Hlive; [|done]. intros <-.
        by destruct (given_to_parent p ip (procs s !!! q) Hne).
  - intros a b. rewrite !Hpids. intros Heq Hs. apply (inv_pids s Hi a b Heq).
    destruct (decide (p = a)) as [<-|Ha]; [apply (running_alive s p Hi Hc)|].
    rewrite (kept_unused _ _ (Hk a Ha)) in Hs.
    by destruct (given_to_same p ip (procs s !!! a)) as (_ & <- & _).
Qed.

Lemma good_exit status p (s : K) :
  inv s -> curproc s = Some p -> curproc s <> initproc s -> good (OExit status) s.
Proof.
  intros Hi Hc Hne. destruct (inv_init s Hi) as (ip & Hip & _).
  destruct (kexit_inv p ip status s Hi Hc Hip) as (s' & Hrun & Hi'); [congruence|]. by exists s'.
Qed.

(** ** The scheduler *)

(** The interrupt state of the process that goes on. *)
Definition with_intr (i : bool) (s : K) : K := set_cpu (mkCpu (noff (kcpu s)) i i) s.

Lemma set_intena_run i p (t : K) :
  noff (kcpu t) = 0 ->
  set_intena i (taken (plock p) t) = Ok tt (taken (plock p) (with_intr i t)).
Proof.
  intros Hn. unfold set_intena, modify, with_intr, taken, entered, cpu_push. simpl. rewrite Hn. done.
Qed.

Lemma at_rest_intr i (s : K) : noff (kcpu s) = 0 -> at_rest s -> at_rest (with_intr i s).
Proof. intros Hn [Hc Hp Hi Hw]. split; try done. by left. Qed.

(** Process [p], resumed; [f] is what the tail of its kernel call does to its entry. *)
Definition resumed (p : fin NPROC) (f : proc -> proc) (i : bool) (s : K) : K :=
  with_curproc (Some p) (upd p (fun x => f (p_state RUNNING x)) (with_intr i s)).

Lemma inv_resumed p f i (s : K) `{!KeepsLock f} :
  inv s -> curproc s = None -> state (procs s !!! p) = RUNNABLE ->
  (forall x, f x = x \/ f x = p_chan 0 x) -> inv (resumed p f i s).
Proof.
  intros Hi Hc Hst Hf. apply (inv_switched s _ p); try done.
  - apply at_rest_curproc, at_rest_upd; [apply _|]. by apply at_rest_intr; apply Hi.
  - apply Hi.
  - intros q Hq. simpl. rewrite Hc. split; congruence.
  - intros q Hq. unfold resumed. simpl. by rewrite vlookup_insert_ne.
  - unfold resumed. simpl. rewrite vlookup_insert.
    pose proof (inv_entry s Hi p) as He.
    assert (forall j, cont (procs s !!! p) <> KExit j) as Hx.
    { intros j Hj. pose proof (eo_cont _ _ _ He j) as Hz. rewrite Hst in Hz. by specialize (Hz ltac:(done) Hj). }
    assert (alive (procs s !!! p)) as Ha by (unfold alive; by rewrite Hst).
    destruct (Hf (p_state RUNNING (procs s !!! p))) as [->| ->]; by split.
  - unfold resumed. simpl. rewrite vlookup_insert.
    destruct (Hf (p_state RUNNING (procs s !!! p))) as [->| ->]; by split.
Qed.

Lemma with_intr_id (s : K) : inv s -> with_intr (intr (kcpu s)) s = s.
Proof.
  intros Hi. destruct (ar_cpu s (inv_rest s Hi)) as [[Hn He]|[Hn _]].
  - unfold with_intr. rewrite <- He at 1. destruct s as [? [] ? ? ? ? ? ? ?]. done.
  - rewrite (inv_noff s Hi) in Hn. lia.
Qed.

(** The turn of [p] in the scheduler's scan. *)
Lemma scheduler_run_idle p (s : K) :
  inv s -> state (procs s !!! p) <> RUNNABLE -> scheduler_run p s = Ok false s.
Proof.
  intros Hi Hst. pose proof (procs_free_rest s (inv_rest s Hi)) as [Hc Hf]. unfold scheduler_run.
  rewrite (bind_ok _ _ _ _ _ (acquire_p p s (Hf p))).
  destruct (pget_taken p p s) as [l Hl]. rewrite (bind_ok _ _ _ _ _ Hl).
  rewrite decide_False by done. by rewrite (bind_ok _ _ _ _ _ (release_p p s Hc (Hf p))).
Qed.

Lemma curproc_p p v (t : K) :
  modify (with_curproc v) (taken (plock p) t) = Ok tt (taken (plock p) (with_curproc v t)).
Proof. done. Qed.

Lemma scheduler_run_resume p (s : K) :
  inv s -> curproc s = None -> state (procs s !!! p) = RUNNABLE ->
  exists f i, KeepsLock f /\ inv (resumed p f i s) /\
    scheduler_run p s = Ok true
      (match cont (procs s !!! p) with
       | KSleep true _ => taken the_wait_lock (resumed p f i s) | _ => resumed p f i s end).
Proof.
  intros Hi Hcur Hst. pose proof (procs_free_rest s (inv_rest s Hi)) as [Hc Hf].
  assert (forall f i, KeepsLock f -> (forall x, f x = x \/ f x = p_chan 0 x) ->
    inv (resumed p f i s) /\
    release (plock p) (taken (plock p) (resumed p f i s)) = Ok tt (resumed p f i s)) as Hres.
  { intros f i Hkl Hfx. pose proof (inv_resumed p f i s Hi Hcur Hst Hfx) as Hi'. split; [done|].
    apply release_p; apply (inv_rest _ Hi'). }
  unfold scheduler_run. rewrite (bind_ok _ _ _ _ _ (acquire_p p s (Hf p))).
  destruct (pget_taken p p s) as [l Hl]. rewrite (bind_ok _ _ _ _ _ Hl).
  rewrite decide_True by done. change (cont (p_lock l (procs s !!! p))) with (cont (procs s !!! p)).
  rewrite (bind_ok _ _ _ _ _ (pmod_upd _ _ _)), upd_taken_p by apply _.
  rewrite (bind_ok _ _ _ _ _ (curproc_p _ _ _)).
  set (t := with_curproc (Some p) (upd p (p_state RUNNING) s)).
  assert (noff (kcpu t) = 0) as Hn by apply (inv_noff s Hi).
  destruct (cont (procs s !!! p)) as [|i|w i|i] eqn:Hcont.
  - exists (fun x => x), (intr (kcpu s)). split; [apply _|].
    destruct (Hres (fun x => x) (intr (kcpu s)) _) as [Hi' Hrel]; [by left|]. split; [done|].
    assert (t = resumed p (fun x => x) (intr (kcpu s)) s) as ->
      by (unfold resumed; by rewrite with_intr_id).
    by rewrite (bind_ok _ _ _ _ _ Hrel).
  - exists (fun x => x), i. split; [apply _|].
    destruct (Hres (fun x => x) i _) as [Hi' Hrel]; [by left|]. split; [done|].
    rewrite (bind_ok _ _ _ _ _ (set_intena_run i p t Hn)).
    change (with_intr i t) with (resumed p (fun x => x) i s). by rewrite (bind_ok _ _ _ _ _ Hrel).
  - exists (p_chan 0), i. split; [apply _|].
    destruct (Hres (p_chan 0) i _) as [Hi' Hrel]; [by right|]. split; [done|].
    rewrite (bind_ok _ _ _ _ _ (set_intena_run i p t Hn)).
    rewrite (bind_ok _ _ _ _ _ (pmod_upd _ _ _)), upd_taken_p by apply _.
    assert (upd p (p_chan 0) (with_intr i t) = resumed p (p_chan 0) i s) as ->.
    { change (with_intr i t) with (with_curproc (Some p) (upd p (p_state RUNNING) (with_intr i s))).
      unfold resumed. by rewrite <- (upd_upd p (p_chan 0) (p_state RUNNING)). }
    rewrite (bind_ok _ _ _ _ _ Hrel). destruct w; [|by rewrite bind_ret].
    by rewrite (bind_ok _ _ _ _ _ (acquire_w _ (ar_wait _ (inv_rest _ Hi')))).
  - pose proof (eo_cont _ _ _ (inv_entry s Hi p) i) as Hz. rewrite Hst in Hz.
    by specialize (Hz ltac:(done) Hcont).
Qed.

Lemma good_schedule p addr (s : K) : inv s -> curproc s = None -> good (OSchedule p addr) s.
Proof.
  intros Hi Hc. unfold good, kexec. rewrite (bind_ok _ _ _ _ _ (pget_run _ _)).
  destruct (decide (state (procs s !!! p) = RUNNABLE)) as [Hst|Hst].
  - destruct (scheduler_run_resume p s Hi Hc Hst) as (f & i & Hkl & Hi' & Hrun).
    rewrite (bind_ok _ _ _ _ _ Hrun).
    destruct (cont (procs s !!! p)) as [|?|[] ?|?]; try by eexists.
    destruct (kwait_loop_inv p addr _ Hi' eq_refl) as (r & s' & Hw & Hiw).
    exists s'. by rewrite (bind_ok _ _ _ _ _ Hw).
  - rewrite (bind_ok _ _ _ _ _ (scheduler_run_idle p s Hi Hst)). by exists s.
Qed.

(** Every enabled activation completes and keeps the invariant. *)
Lemma kexec_good o (s : K) : inv s -> enabled o s -> good o s.
Proof.
  intros Hi He.
  assert (forall P : Prop, curproc s <> None -> (forall p, curproc s = Some p -> P) -> P) as Hcur.
  { intros P Hn HP. destruct (curproc s) as [p|]; [by apply (HP p)|done]. }
  destruct o; simpl in He.
  - destruct He as [Hn Hb]. apply Hcur; [done|]. intros p Hp. by apply (good_fork p).
  - destruct He as [Hn Hb]. apply Hcur; [done|]. intros p Hp. by apply (good_exit _ p).
  - apply Hcur; [done|]. intros p Hp. by apply (good_wait _ p).
  - apply Hcur; [done|]. intros p Hp. by apply (good_grow _ p).
  - apply Hcur; [done|]. intros p Hp. by apply (good_yield p).
  - apply Hcur; [done|]. intros p Hp. by apply (good_sleep _ p).
  - by apply good_kill.
  - by apply good_setkilled.
  - by apply good_wakeup.
  - by apply good_schedule.
Qed.

(** A run of the kernel: a sequence of activations, each enabled when it starts. *)
Inductive kruns : K -> list kop -> K -> Prop :=
| kr_nil s : kruns s [] s
| kr_cons s o s1 l s2 : enabled o s -> kexec o s = Ok tt s1 -> kruns s1 l s2 -> kruns s (o :: l) s2.

Lemma kruns_inv s l s' : kruns s l s' -> inv s -> inv s'.
Proof.
  induction 1 as [|s o s1 l s2 He Hx Hr IH]; [done|]. intros Hi. apply IH.
  destruct (kexec_good o s Hi He) as (t & Ht & Hit). congruence.
Qed.
End Inv.
