(* ===== verification/ProcProps.v ===== *)
(** * Properties of the process table

    The boot state and the invariant of every run from it; what fork, exit, wait and
    kill do to the table; and what kill does with pid 0. *)

From Stdlib Require Import ZArith Lia.
From stdpp Require Import base numbers list vector fin finite strings.
From S2P Require Import Prelude Spinlock Proc ProcSpec ProcOps ProcExit ProcInv.
Open Scope Z_scope.

(** The table before main() runs: static storage is zero. *)
Definition no_lock : spinlock := mkSpinlock 0 "" None.
Definition zero_proc : proc :=
  mkProc no_lock UNUSED 0 0 0 0 None 0 0 0 0 tf0 KFork (vreplicate NOFILE 0) 0 [] 0.
Definition cold {E} (cpuid : nat) (e : E) : kst E :=
  mkKst cpuid (mkCpu 0 false false) (vreplicate NPROC zero_proc) 1 no_lock no_lock None None e.

Section Boot.
Context {E : Type} `{ProcEnv E}.
Notation K := (kst E).

(** The two calls of main() that concern the table. *)
Definition boot : M K unit := procinit ;; userinit.

Definition fresh_entry (p : fin NPROC) : proc :=
  mkProc (mkSpinlock 0 "proc" None) UNUSED 0 0 0 0 None (KSTACK p) 0 0 0 tf0 KFork
    (vreplicate NOFILE 0) 0 [] 0.
Definition initialized (cpuid : nat) (e : E) : K :=
  mkKst cpuid (mkCpu 0 false false) (fun_to_vec fresh_entry) 1
    (mkSpinlock 0 "nextpid" None) (mkSpinlock 0 "wait_lock" None) None None e.

Lemma initlock_run (lk : lockref K) n (s : K) :
  initlock lk n s = Ok tt (lset lk (mkSpinlock 0 n None) s).
Proof. done. Qed.

Lemma procinit_run c e : procinit (cold c e) = Ok tt (initialized c e).
Proof.
  unfold procinit. rewrite !(bind_ok _ _ _ _ _ (initlock_run _ _ _)).
  match goal with |- _ ?t = _ => set (s := t) end.
  rewrite (for_all_procs (fun p x => p_kstack (KSTACK p) (p_state UNUSED (p_lock (mkSpinlock 0 "proc" None) x)))).
  - rewrite applied_all. reflexivity.
  - intros p ps. change (initlock (plock p) "proc") with (pmod (E := E) p (p_lock (mkSpinlock 0 "proc" None))).
    rewrite !(bind_ok _ _ _ _ _ (pmod_upd _ _ _)), pmod_upd. by rewrite !upd_upd.
Qed.

Lemma initialized_rest c e : at_rest (initialized c e).
Proof.
  split; try done; [by left|]. intros p. unfold free_p. simpl. by rewrite lookup_fun_to_vec.
Qed.

#[local] Instance kl_born n page pt : KeepsLock (born n page pt).
Proof. keeps_lock. Qed.

(** userinit: entry [p] is the first process, ready to run. *)
Lemma userinit_run (s s' : K) :
  at_rest s -> in_int (nextpid s + 1) -> userinit s = Ok tt s' ->
  exists p page pt e, state (procs s !!! p) = UNUSED /\ page <> 0 /\ pt <> 0 /\
    s' = with_initproc (Some p)
      (upd p (fun x => p_state RUNNABLE (p_cwd e_root (born (nextpid s) page pt x)))
         (with_env e (with_nextpid (nextpid s + 1) s))).
Proof.
  intros Hr Hn. unfold userinit.
  destruct (allocproc_run s Hr Hn) as [(s1 & Ha & _)|(p & page & pt & e & Hu & Hpg & Hpt & Ha)];
    rewrite (bind_ok _ _ _ _ _ Ha); [done|].
  set (t := with_env e (with_nextpid (nextpid s + 1) s)).
  assert (modify (with_initproc (Some p)) (taken (plock p) (upd p (born (nextpid s) page pt) t)) =
    Ok tt (taken (plock p) (upd p (born (nextpid s) page pt) (with_initproc (Some p) t)))) as Hm by done.
  rewrite (bind_ok _ _ _ _ _ Hm), (bind_ok _ _ _ _ _ (tell_taken_p p _ _)), env_upd.
  do 2 (rewrite (bind_ok _ _ _ _ _ (pmod_upd _ _ _)), upd_taken_p by apply _). rewrite !upd_upd.
  rewrite release_upd; [|apply _|exact (procs_free_rest s Hr)]. intros [= <-].
  exists p, page, pt. eexists. done.
Qed.

Lemma boot_inv c e (s : K) : boot (cold c e) = Ok tt s -> inv s.
Proof.
  unfold boot. rewrite (bind_ok _ _ _ _ _ (procinit_run c e)). intros Hu.
  destruct (userinit_run _ _ (initialized_rest c e) ltac:(by vm_compute) Hu)
    as (p & page & pt & e' & _ & Hpg & Hpt & ->).
  match goal with |- inv ?t => set (s := t) end.
  assert (forall q, procs s !!! q = if decide (p = q) then
    p_state RUNNABLE (p_cwd e_root (born 1 page pt (fresh_entry p))) else fresh_entry q) as Hq.
  { intros q. unfold s. simpl. case_decide as Hpq.
    - subst q. by rewrite vlookup_insert, lookup_fun_to_vec.
    - by rewrite vlookup_insert_ne, lookup_fun_to_vec. }
  split.
  - unfold s. set (t := upd _ _ _).
    assert (at_rest t) as [? ? ? ?] by (apply at_rest_upd_env; [apply _|apply initialized_rest]). by split.
  - done.
  - exists p. split; [done|]. rewrite Hq, decide_True by done. done.
  - done.
  - intros q. rewrite Hq. case_decide as Hpq; split; simpl; try done; try congruence.
    intros []. by split.
  - intros a b. rewrite !Hq. do 2 case_decide; simpl; congruence.
Qed.


#[local] Transparent dup_ofile.
Lemma dup_ofile_lookup x l fs j :
  dup_ofile x l fs !!! j =
    if decide (j ∈ l /\ ofile x !!! j <> 0) then ofile x !!! j else fs !!! j.
Proof.
  revert fs. induction l as [|i l IH]; intros fs; [done|].
  change (dup_ofile x (i :: l) fs) with
    (dup_ofile x l (if decide (ofile x !!! i <> 0) then vinsert i (ofile x !!! i) fs else fs)).
  rewrite IH. destruct (decide (i = j)) as [->|Hne].
  - destruct (decide (ofile x !!! j <> 0)) as [Hz|Hz].
    + rewrite vlookup_insert, (decide_True (P := j ∈ j :: l /\ _)) by (split; [left|done]).
      by case_decide.
    + rewrite !decide_False by (by intros [_ ?]). done.
  - assert ((if decide (ofile x !!! i <> 0) then vinsert i (ofile x !!! i) fs else fs) !!! j = fs !!! j) as ->
      by (destruct (decide (ofile x !!! i <> 0)); [by rewrite vlookup_insert_ne|done]).
    destruct (decide (j ∈ l /\ ofile x !!! j <> 0)) as [[Hj Hz]|Hj].
    + by rewrite decide_True by (split; [by right|done]).
    + rewrite decide_False; [done|]. intros [[->|Hin]%elem_of_cons Hz]; [done|by apply Hj].
Qed.

Lemma dup_ofile_all x : dup_ofile x (fin_enum NOFILE) (vreplicate NOFILE 0) = ofile x.
Proof.
  apply vec_eq. intros j. rewrite dup_ofile_lookup. case_decide as Hd; [done|].
  rewrite vlookup_replicate. destruct (decide (ofile x !!! j = 0)) as [?|Hz]; [done|].
  destruct Hd. split; [|done]. pose proof (elem_of_enum j) as Hp. unfold enum, fin_finite in Hp. exact Hp.
Qed.

(** The child that fork makes of [x] in an entry that held [y]. *)
Record is_child (p : fin NPROC) (x y c : proc) (n : Z) : Prop := {
  ch_state : state c = RUNNABLE;
  ch_pid : pid c = n;
  ch_parent : parent c = Some p;
  ch_size : sz c = sz x;
  ch_regs : tf c = set_a0 0 (tf x);
  ch_files : ofile c = ofile x;
  ch_cwd : cwd c = cwd x;
  ch_name : name c = take 15 (name x);
  ch_mask : trace_mask c = trace_mask x;
  ch_start : cont c = KFork;
  ch_killed : killed_ c = killed_ y }.

(** C34: fork.  Called by process [p], it either returns -1 and every entry is as before
    (an unused one may only have been used and given back), or it returns a pid that no
    entry had, and exactly one unused entry has become a runnable child of [p]: same
    memory size, same registers but for a return value of 0, the same open files and
    directory, the name cut to 15 characters, and the trace mask of the parent. *)
Theorem fork_child (s : K) p :
  inv s -> curproc s = Some p -> in_int (nextpid s + 1) ->
  (exists s', kfork s = Ok (-1) s' /\ forall q, procs s' !!! q = procs s !!! q \/
     (state (procs s !!! q) = UNUSED /\ state (procs s' !!! q) = UNUSED)) \/
  exists np s', kfork s = Ok (nextpid s) s' /\
    (forall q, pid (procs s !!! q) <> nextpid s) /\
    state (procs s !!! np) = UNUSED /\
    is_child p (procs s !!! p) (procs s !!! np) (procs s' !!! np) (nextpid s) /\
    forall q, np <> q -> procs s' !!! q = procs s !!! q.
Proof.
  intros Hi Hc Hn.
  destruct (kfork_run p s (inv_rest s Hi) Hn Hc (inv_curproc s p Hi Hc))
    as [(s' & Hrun & Hf)|(np & page & pt & e & Hu & Hpg & Hpt & Hrun)].
  - left. exists s'. split; [done|]. intros q. destruct Hf as [->|(p' & e & k & Hu & ->)]; [by left|].
    destruct (decide (p' = q)) as [->|Hne]; [right|left; by rewrite lookup_upd_ne].
    by rewrite lookup_upd.
  - right. exists np. eexists. split; [exact Hrun|]. split.
    { intros q Hq. pose proof (inv_next s Hi). destruct (inv_entry s Hi q) as [H1 H2 _ _ _ _ _ _].
      destruct (decide (state (procs s !!! q) = UNUSED)) as [Hq0|Hq0];
        [destruct (H1 Hq0)|destruct (H2 Hq0)]; lia. }
    split; [done|]. split; [|intros q Hq; by rewrite lookup_upd_ne].
    rewrite lookup_upd. split; try done. unfold forked. cbn [ofile].
    change (procs (with_env ?e ?t)) with (procs t). change (procs (with_nextpid ?e ?t)) with (procs t).
    destruct (eo_closed _ _ _ (inv_entry s Hi np)) as [-> _]; [by intros [? _]|]. apply dup_ofile_all.
Qed.

(** exit.  A process [p] other than init that exits leaves the CPU as a zombie with
    its exit status, its pid and no open files or directory; its children become
    children of init, so that nothing refers to [p] any more but its own parent; every
    other entry is as it was, or has been woken; and a parent that sleeps in wait is
    made runnable, so that the exit is not missed. *)
Lemma exit_zombie (s : K) p ip status :
  inv s -> curproc s = Some p -> initproc s = Some ip -> p <> ip ->
  exists s', kexit status s = Ok tt s' /\ curproc s' = None /\
    state (procs s' !!! p) = ZOMBIE /\ xstate (procs s' !!! p) = status /\
    pid (procs s' !!! p) = pid (procs s !!! p) /\
    ofile (procs s' !!! p) = vreplicate NOFILE 0 /\ cwd (procs s' !!! p) = 0 /\
    (forall q, parent (procs s' !!! q) =
       if decide (parent (procs s !!! q) = Some p) then Some ip else parent (procs s !!! q)) /\
    (forall q, p <> q -> kept (given_to p ip (procs s !!! q)) (procs s' !!! q)) /\
    (forall q, parent (procs s !!! p) = Some q -> waits q (procs s !!! q) ->
       state (procs s' !!! q) = RUNNABLE).
Proof.
  intros Hi Hc Hip Hne.
  destruct (kexit_entries p ip status s Hi Hc Hip Hne)
    as (s' & Hrun & _ & _ & _ & _ & Hc' & Hk & Hw & y & Hy & Hp).
  destruct (given_to_same p ip (closed (procs s !!! p))) as (Gp & _ & _ & _ & Go & Gw & _).
  exists s'. split; [done|]. split; [done|]. rewrite Hp. cbn.
  rewrite (kp_pid _ _ Hy), (kp_ofile _ _ Hy), (kp_cwd _ _ Hy), Gp, Go, Gw.
  repeat (split; [done|]). split; [|done].
  intros q. destruct (decide (p = q)) as [<-|Hq].
  - rewrite Hp. cbn. rewrite (kp_parent _ _ Hy). unfold given_to.
    change (parent (closed ?x)) with (parent x). by destruct (decide (parent (procs s !!! p) = Some p)).
  - rewrite (kp_parent _ _ (Hk q Hq)). unfold given_to. by destruct (decide (parent (procs s !!! q) = Some p)).
Qed.

(** What wait does for process [p]. *)
Inductive wait_outcome (p : fin NPROC) (addr : Z) (s : K) : waitres -> K -> Prop :=
| wo_reap q e : zombie_of p s q ->
    (addr <> 0 -> exists r e', e_copyout (pagetable (procs s !!! p)) addr (xstate (procs s !!! q)) (env s) = (r, e') /\ 0 <= r) ->
    wait_outcome p addr s (WaitRet (pid (procs s !!! q))) (upd q freed (with_env e s))
| wo_fault q e : zombie_of p s q -> addr <> 0 ->
    (exists r, e_copyout (pagetable (procs s !!! p)) addr (xstate (procs s !!! q)) (env s) = (r, e) /\ r < 0) ->
    wait_outcome p addr s (WaitRet (-1)) (with_env e s)
| wo_none : (forall q, ~ child_of p s q) -> wait_outcome p addr s (WaitRet (-1)) s
| wo_killed : (forall q, ~ zombie_of p s q) -> killed_ (procs s !!! p) <> 0 ->
    wait_outcome p addr s (WaitRet (-1)) s
| wo_sleep : (forall q, ~ zombie_of p s q) -> (exists q, child_of p s q) ->
    killed_ (procs s !!! p) = 0 ->
    wait_outcome p addr s WaitSleep (with_curproc None
      (upd p (fun x => p_cont (KSleep true (intr (kcpu s))) (p_state SLEEPING (p_chan (proc_chan p) x))) s)).

(** wait.  It returns at once or sleeps, and the branch it takes is determined by the
    children of [p]: if one is a zombie, its status is copied out, its entry becomes
    unused and its pid is returned (a failed copy reaps nothing); without children it
    fails; with living children only, it fails when [p] has been killed, and otherwise
    sleeps on its own channel, the one exit wakes.  No other entry changes. *)
Lemma wait_reaps (s : K) p addr :
  inv s -> curproc s = Some p ->
  exists r s', kwait addr s = Ok r s' /\ wait_outcome p addr s r s'.
Proof.
  intros Hi Hc. rewrite kwait_enter by apply Hi.
  destruct (kwait_loop_run p addr s (inv_rest s Hi) Hc (inv_noff s Hi))
    as [(q & v & s' & Hz & Hre & Hrun)|[(Hnz & Hk & Hrun)|(Hnz & Hkid & Hk & Hrun)]];
    eexists _, _; (split; [exact Hrun|]).
  - destruct Hre as (r & e & Hcp & Hre). case_decide as Hneg; destruct Hre as [-> ->].
    + case_decide as Ha; [|injection Hcp; lia]. eapply wo_fault; [done..|]. by exists r.
    + apply wo_reap; [done|]. intros Ha. rewrite decide_True in Hcp by done. exists r, e. split; [done|lia].
  - destruct Hk as [Hk|Hk]; [by apply wo_none|by apply wo_killed].
  - by apply wo_sleep.
Qed.


(** kill.  For a pid other than 0, kill returns 0 exactly when a process has that pid;
    then only that process changes: it is marked killed and, if it slept, made runnable.
    Otherwise the table is untouched and the result is -1. *)
Lemma kill_exact (s : K) target :
  inv s -> target <> 0 ->
  (kkill target s = Ok (-1) s /\ forall p, pid (procs s !!! p) <> target) \/
  exists p, kkill target s = Ok 0 (upd p kill s) /\ state (procs s !!! p) <> UNUSED /\
    forall q, pid (procs s !!! q) = target <-> q = p.
Proof.
  intros Hi Ht. destruct (kkill_run target s) as [?|(p & Hp & Hrun)];
    [by apply procs_free_rest, Hi|by left|right].
  exists p. split; [done|].
  assert (state (procs s !!! p) <> UNUSED) as Hu by (rewrite <- (zero_pid_unused s p Hi); congruence).
  split; [done|]. intros q. split; [|by intros ->]. intros Hq. symmetry.
  apply (inv_pids s Hi); [congruence|done].
Qed.

(** Running a list of activations, as far as they are enabled. *)
#[export] Instance enabled_dec o (s : K) : Decision (enabled o s).
Proof. destruct o; simpl; apply _. Defined.

Fixpoint kexecs (l : list kop) (s : K) : option K :=
  match l with
  | [] => Some s
  | o :: l =>
      if decide (enabled o s) then
        match kexec o s with Ok _ s1 => kexecs l s1 | _ => None end
      else None
  end.

Lemma kexecs_kruns l (s s' : K) : kexecs l s = Some s' -> kruns s l s'.
Proof.
  revert s. induction l as [|o l IH]; intros s; simpl.
  - intros [= ->]. constructor.
  - case_decide as He; [|done]. destruct (kexec o s) as [[] s1| |] eqn:Hx; [|done..].
    intros Hr. eapply kr_cons; [done..|by apply IH].
Qed.
End Boot.

(** ** A concrete machine: memory is a counter, copies succeed *)

#[local] Instance bump_env : ProcEnv Z := {
  e_kalloc := fun e => (e, e + PGSIZE);
  e_kfree := fun _ e => e;
  e_proc_pagetable := fun _ e => (e, e + PGSIZE);
  e_proc_freepagetable := fun _ _ e => e;
  e_uvmcopy := fun _ _ _ e => (0, e);
  e_uvmalloc := fun _ _ new e => (new, e);
  e_uvmdealloc := fun _ _ new e => (new, e);
  e_copyout := fun _ _ _ e => (0, e);
  e_filedup := fun _ e => e;
  e_fileclose := fun _ e => e;
  e_idup := fun _ e => e;
  e_iput := fun _ e => e;
  e_root := 1;
  e_namei_root := fun e => e }.

Definition booted : kst Z :=
  match boot (cold 0 PGSIZE) with Ok _ s => s | _ => cold 0 PGSIZE end.
Definition after (l : list kop) : kst Z :=
  match kexecs l booted with Some s => s | None => booted end.

Lemma booted_run : boot (cold 0 PGSIZE) = Ok tt booted.
Proof. vm_compute. reflexivity. Qed.

Lemma after_run l : is_Some (kexecs l booted) -> kruns booted l (after l).
Proof. intros [s Hs]. unfold after. rewrite Hs. by apply kexecs_kruns. Qed.

Lemma after_inv l : is_Some (kexecs l booted) -> inv (after l).
Proof. intros Hl. eapply kruns_inv; [by apply after_run|]. by eapply boot_inv, booted_run. Qed.

(** init runs, forks, yields, and its child runs. *)
Definition child_runs : list kop := [OSchedule 0%fin 0; OFork; OYield; OSchedule 1%fin 0].


(** The states the witnesses start from. *)
Definition init_runs : list kop := [OSchedule 0%fin 0].
Definition child_exited : list kop := child_runs ++ [OExit 7; OSchedule 0%fin 0].

Ltac by_run := apply after_inv; vm_compute; by eexists.

Lemma fork_child_witness :
  in_int (nextpid (after init_runs) + 1) /\
  ((exists s', kfork (after init_runs) = Ok (-1) s' /\
      forall q, procs s' !!! q = procs (after init_runs) !!! q \/
       (state (procs (after init_runs) !!! q) = UNUSED /\ state (procs s' !!! q) = UNUSED)) \/
   exists np s', kfork (after init_runs) = Ok 2 s' /\
      (forall q, pid (procs (after init_runs) !!! q) <> 2) /\
      state (procs (after init_runs) !!! np) = UNUSED /\
      is_child 0%fin (procs (after init_runs) !!! 0%fin) (procs (after init_runs) !!! np) (procs s' !!! np) 2 /\
      forall q, np <> q -> procs s' !!! q = procs (after init_runs) !!! q).
Proof.
  assert (inv (after init_runs)) as Hi by by_run. split; [by vm_compute|].
  apply (fork_child (after init_runs) 0%fin Hi); by vm_compute.
Defined.


(** kill(0) is not refused: the entries that are unused have pid 0, and kill takes the
      first of them for its target.  On the booted machine with init running, kill(0)
      reports success, and the child of the next fork starts with [killed] set, because
      allocproc does not reset it: it will be made to exit before its first instruction. *)
Lemma kill_zero_dooms_fork :
  exists s1 s2, kkill 0 (after init_runs) = Ok 0 s1 /\ kfork s1 = Ok 2 s2 /\
    state (procs (after init_runs) !!! 1%fin) = UNUSED /\
    state (procs s2 !!! 1%fin) = RUNNABLE /\ pid (procs s2 !!! 1%fin) = 2 /\
    killed_ (procs s2 !!! 1%fin) = 1.
Proof. eexists _, _. split; [by vm_compute|]. split; [by vm_compute|]. by vm_compute. Qed.
