(* ===== verification/Syscall.v ===== *)
(** * kernel/syscall.c and kernel/sysproc.c: system calls and tracing

    The state is that of the process table, whose environment also holds the clock
    and the console.  A system call that sleeps or exits ends the activation; when it
    is resumed and returns, [syscall_ret] is the rest of [syscall].  The calls of
    kernel/sysfile.c are an interface. *)

From Stdlib Require Import ZArith Lia.
From stdpp Require Import base numbers list vector fin finite strings.
From S2P Require Import Prelude Spinlock Proc.
Open Scope Z_scope.

(** A line that syscall() or a trap prints. *)
Inductive line : Type :=
| LTrace (pid : Z) (name : string) (ret : Z)   (* "%d: syscall %s -> %d\n" *)
| LTraceNum (pid : Z) (num ret : Z)            (* "%d: syscall %d -> %d\n" *)
| LUnknown (pid : Z) (name : list Z) (num : Z) (* "%d %s: unknown sys call %d\n" *)
| LUsertrap (scause pid sepc stval : Z)        (* the two lines of usertrap() *)
| LKerneltrap (scause sepc stval : Z)          (* "scause=0x%lx sepc=0x%lx stval=0x%lx\n" *)
| LIrq (irq : Z).                              (* "unexpected interrupt irq=%d\n" *)

(** The clock and the console beside the environment [F] of the process table. *)
Record senv (F : Type) : Type := mkSenv {
  tickslock : spinlock; ticks : Z; console : list line; rest : F }.
Arguments mkSenv {F}. Arguments tickslock {F}. Arguments ticks {F}.
Arguments console {F}. Arguments rest {F}.

Definition in_rest {F} (f : F -> F) (e : senv F) : senv F :=
  mkSenv (tickslock e) (ticks e) (console e) (f (rest e)).
Definition in_rest_r {F A} (f : F -> A * F) (e : senv F) : A * senv F :=
  let '(r, x) := f (rest e) in (r, mkSenv (tickslock e) (ticks e) (console e) x).

#[export] Instance senv_proc F `{ProcEnv F} : ProcEnv (senv F) := {
  e_kalloc := in_rest_r e_kalloc;
  e_kfree := fun a => in_rest (e_kfree a);
  e_proc_pagetable := fun a => in_rest_r (e_proc_pagetable a);
  e_proc_freepagetable := fun a b => in_rest (e_proc_freepagetable a b);
  e_uvmcopy := fun a b c => in_rest_r (e_uvmcopy a b c);
  e_uvmalloc := fun a b c => in_rest_r (e_uvmalloc a b c);
  e_uvmdealloc := fun a b c => in_rest_r (e_uvmdealloc a b c);
  e_copyout := fun a b c => in_rest_r (e_copyout a b c);
  e_filedup := fun a => in_rest (e_filedup a);
  e_fileclose := fun a => in_rest (e_fileclose a);
  e_idup := fun a => in_rest (e_idup a);
  e_iput := fun a => in_rest (e_iput a);
  e_root := e_root;
  e_namei_root := in_rest e_namei_root }.

(** How a handler ends: with a value, or asleep, or with the process gone. *)
Inductive sysres : Type := Ret (v : Z) | Slept | Gone.

(** Reading user memory: [e_copyin] the 8 bytes at an address, as a number,
    [e_copyinstr] a string of at most [max] bytes with its NUL; [None] when the
    address is not mapped or no NUL is found. *)
Class VmEnv (F : Type) := {
  e_copyin : Z -> Z -> F -> option Z;
  e_copyinstr : Z -> Z -> Z -> F -> option (list Z) }.

Definition SBRK_EAGER : Z := 1.

Section Syscall.
Context {F : Type} `{ProcEnv F} `{VmEnv F}.
Notation K := (kst (senv F)).

(** ** Arguments *)

Definition fetchaddr (addr : Z) : M K (option Z) :=
  let! p := my in
  let! x := pget p in
  if decide (addr >= sz x \/ u64 (addr + 8) > sz x) then ret None
  else gets (fun s => e_copyin (pagetable x) addr (rest (env s))).

(** The length of the string and the string, or -1. *)
Definition fetchstr (addr max : Z) : M K (Z * list Z) :=
  let! p := my in
  let! x := pget p in
  let! r := gets (fun s => e_copyinstr (pagetable x) addr max (rest (env s))) in
  match r with
  | None => ret (-1, [])
  | Some buf => ret (Z.of_nat (length buf), buf)
  end.

Definition argraw (n : Z) : M K Z :=
  let! p := my in
  let! x := pget p in
  if decide (n = 0) then ret (a0 (tf x))
  else if decide (n = 1) then ret (a1 (tf x))
  else if decide (n = 2) then ret (a2 (tf x))
  else if decide (n = 3) then ret (a3 (tf x))
  else if decide (n = 4) then ret (a4 (tf x))
  else if decide (n = 5) then ret (a5 (tf x))
  else panic "argraw".

Definition argint (n : Z) : M K Z :=
  let! v := argraw n in ret (i32 v).

Definition argaddr (n : Z) : M K Z := argraw n.

Definition argstr (n max : Z) : M K (Z * list Z) :=
  let! addr := argaddr n in
  fetchstr addr max.

(** ** sysproc.c *)

Definition the_tickslock : lockref K :=
  mkLockref (fun s => tickslock (env s))
    (fun l s => with_env (mkSenv l (ticks (env s)) (console (env s)) (rest (env s))) s).

Definition sys_trace : M K sysres :=
  let! mask := argint 0 in
  let! p := my in
  pmod p (p_trace_mask mask) ;;
  ret (Ret 0).

Definition sys_exit : M K sysres :=
  let! n := argint 0 in
  kexit n ;;
  ret Gone.

Definition sys_getpid : M K sysres :=
  let! p := my in
  let! x := pget p in
  ret (Ret (u64 (pid x))).

Definition sys_fork : M K sysres :=
  let! r := kfork in
  ret (Ret (u64 r)).

Definition sys_wait : M K sysres :=
  let! a := argaddr 0 in
  let! r := kwait a in
  match r with WaitRet v => ret (Ret (u64 v)) | WaitSleep => ret Slept end.

Definition sys_sbrk : M K sysres :=
  let! n := argint 0 in
  let! t := argint 1 in
  let! p := my in
  let! x := pget p in
  let addr := sz x in
  if decide (t = SBRK_EAGER \/ n < 0) then
    let! r := growproc n in
    if decide (r < 0) then ret (Ret (u64 (-1))) else ret (Ret addr)
  else if decide (u64 (addr + n) < addr) then ret (Ret (u64 (-1)))
  else
    let! q := my in
    pmod q (fun y => p_sz (u64 (sz y + n)) y) ;;
    ret (Ret addr).

(** The channel of the clock: the address of [ticks]. *)
Definition ticks_chan : Z := 999.

(** sys_pause from the test of its loop, with tickslock held. *)
Definition pause_loop (ticks0 n : Z) : M K sysres :=
  let! now := gets (fun s => ticks (env s)) in
  if decide (u32 (now - ticks0) < n) then
    let! p := my in
    let! k := killed p in
    if decide (k <> 0) then
      release the_tickslock ;;
      ret (Ret (u64 (-1)))
    else
      sleep_on ticks_chan (Some the_tickslock) (KSleep false) ;;
      ret Slept
  else
    release the_tickslock ;;
    ret (Ret 0).

Definition sys_pause : M K sysres :=
  let! n := argint 0 in
  let n := if decide (n < 0) then 0 else n in
  acquire the_tickslock ;;
  let! ticks0 := gets (fun s => ticks (env s)) in
  pause_loop ticks0 n.

Definition sys_kill : M K sysres :=
  let! pid := argint 0 in
  let! r := kkill pid in
  ret (Ret (u64 r)).

Definition sys_uptime : M K sysres :=
  acquire the_tickslock ;;
  let! xticks := gets (fun s => ticks (env s)) in
  release the_tickslock ;;
  ret (Ret xticks).

(** ** The dispatcher *)

(** The handlers of sysfile.c. *)
Record sysfile : Type := mkSysfile {
  sys_pipe : M K sysres; sys_read : M K sysres; sys_exec : M K sysres;
  sys_fstat : M K sysres; sys_chdir : M K sysres; sys_dup : M K sysres;
  sys_open : M K sysres; sys_write : M K sysres; sys_mknod : M K sysres;
  sys_unlink : M K sysres; sys_link : M K sysres; sys_mkdir : M K sysres;
  sys_close : M K sysres }.

Context (files : sysfile).

(** The array syscalls[]; [None] is a null pointer. *)
Definition syscalls : list (option (M K sysres)) :=
  [ None; Some sys_fork; Some sys_exit; Some sys_wait; Some (sys_pipe files);
    Some (sys_read files); Some sys_kill; Some (sys_exec files); Some (sys_fstat files);
    Some (sys_chdir files); Some (sys_dup files); Some sys_getpid; Some sys_sbrk;
    Some sys_pause; Some sys_uptime; Some (sys_open files); Some (sys_write files);
    Some (sys_mknod files); Some (sys_unlink files); Some (sys_link files);
    Some (sys_mkdir files); Some (sys_close files); Some sys_trace ].

Definition syscall_names : list (option string) :=
  [ None; Some "fork"; Some "exit"; Some "wait"; Some "pipe"; Some "read"; Some "kill";
    Some "exec"; Some "fstat"; Some "chdir"; Some "dup"; Some "getpid"; Some "sbrk";
    Some "pause"; Some "uptime"; Some "open"; Some "write"; Some "mknod"; Some "unlink";
    Some "link"; Some "mkdir"; Some "close"; Some "trace" ]%string.

Definition printf (l : line) : M K unit :=
  modify (fun s => with_env
    (mkSenv (tickslock (env s)) (ticks (env s)) (console (env s) ++ [l]) (rest (env s))) s).

(** The test p->trace_mask & (1 << num). *)
Definition traced (mask num : Z) : bool := bool_decide (Z.land mask (Z.shiftl 1 num) <> 0).

(** syscall() once the handler of call [num] has returned [ret]. *)
Definition syscall_ret (p : fin NPROC) (num v : Z) : M K unit :=
  pmod p (fun x => p_tf (set_a0 v (tf x)) x) ;;
  let! x := pget p in
  if traced (trace_mask x) num then
    match mjoin (arr_get syscall_names num) with
    | Some name => printf (LTrace (pid x) name (i32 v))
    | None => printf (LTraceNum (pid x) num (i32 v))
    end
  else ret tt.

Definition syscall : M K unit :=
  let! p := my in
  let! x := pget p in
  let num := i32 (a7 (tf x)) in
  match (if decide (0 < num) then mjoin (arr_get syscalls num) else None) with
  | Some handler =>
      let! r := handler in
      match r with
      | Ret v => syscall_ret p num v
      | Slept | Gone => ret tt
      end
  | None =>
      let! y := pget p in
      printf (LUnknown (pid y) (name y) num) ;;
      pmod p (fun z => p_tf (set_a0 (u64 (-1)) (tf z)) z)
  end.
End Syscall.
