(* ===== verification/SyscallProps.v ===== *)
(** * Properties of the system call layer

    The dispatcher stores the result and prints exactly the trace lines the mask asks
    for; the calls of sysproc.c keep the invariant of the process table. *)

From Stdlib Require Import ZArith Lia.
From stdpp Require Import base numbers list vector fin finite strings.
From S2P Require Import Prelude CString Ulib Spinlock Proc ProcSpec ProcOps ProcExit ProcInv ProcProps Syscall.
Open Scope Z_scope.

Section Calls.
Context {F : Type} `{ProcEnv F} `{VmEnv F}.
Notation K := (kst (senv F)).
Context (files : sysfile (F := F)).

Lemma traced_testbit mask num : 0 <= num -> traced mask num = Z.testbit mask num.
Proof.
  intros Hn. unfold traced. rewrite Z.shiftl_1_l.
  destruct (Z.testbit mask num) eqn:Hb.
  - apply bool_decide_eq_true_2. intros Hz.
    assert (Z.testbit (Z.land mask (2 ^ num)) num = true) as Ht
      by (rewrite Z.land_spec, Hb, Z.pow2_bits_true by done; done).
    by rewrite Hz, Z.bits_0 in Ht.
  - apply bool_decide_eq_false_2. intros Hz. apply Hz. apply Z.bits_inj'. intros i Hi.
    rewrite Z.land_spec, Z.bits_0. destruct (decide (i = num)) as [->|Hne].
    + by rewrite Hb.
    + by rewrite Z.pow2_bits_false, andb_false_r by lia.
Qed.

(** Every call that has a handler has a name. *)
Lemma names_match num h :
  arr_get (syscalls files) num = Some (Some h) ->
  exists n, arr_get syscall_names num = Some (Some n).
Proof.
  intros Hh. apply arr_get_Some in Hh as [Hn Hh].
  unfold arr_get. rewrite decide_True by lia. revert Hh.
  generalize (Z.to_nat num) as k. intros k Hk.
  pose proof (lookup_lt_Some _ _ _ Hk) as Hlt. cbn in Hlt.
  destruct k as [|k]; [done|]. do 22 (destruct k as [|k]; [by eexists|]). lia.
Qed.

(** The trace line of a call. *)
Definition trace_line (x : proc) (num v : Z) : list line :=
  if Z.testbit (trace_mask x) num then
    match mjoin (arr_get syscall_names num) with
    | Some n => [LTrace (pid x) n (i32 v)] | None => [] end
  else [].

Lemma syscall_ret_run p num v h (s : K) :
  0 < num -> arr_get (syscalls files) num = Some (Some h) ->
  exists s', syscall_ret p num v s = Ok tt s' /\
    procs s' = procs (upd p (fun x => p_tf (set_a0 v (tf x)) x) s) /\
    console (env s') = console (env s) ++ trace_line (procs s !!! p) num v.
Proof.
  intros Hn Hh. destruct (names_match num h Hh) as (nm & Hnm).
  unfold syscall_ret. rewrite (bind_ok _ _ _ _ _ (pmod_upd _ _ _)), (bind_ok _ _ _ _ _ (pget_run _ _)).
  rewrite lookup_upd, traced_testbit, Hnm by lia. unfold trace_line. rewrite Hnm. cbn -[upd].
  destruct (Z.testbit (trace_mask (procs s !!! p)) num); eexists; (split; [done|]); (split; [done|]).
  - done.
  - by rewrite app_nil_r.
Qed.

(** C37: System call dispatch and tracing.  For a call number with a handler that returns
    [v], the caller finds [v] in a0, no other entry is touched after the handler, and
    exactly one trace line, with the caller's pid, the name of the call and the result
    as an int, is printed if the bit of that number is set in the caller's mask as the
    handler left it, and nothing otherwise.  A number without a handler prints one
    complaint and makes a0 -1. *)
Theorem syscall_traces (s : K) p num :
  cpu_ok (kcpu s) -> curproc s = Some p -> num = i32 (a7 (tf (procs s !!! p))) ->
  (forall h v s1, 0 < num -> arr_get (syscalls files) num = Some (Some h) -> h s = Ok (Ret v) s1 ->
     exists s', syscall files s = Ok tt s' /\
       procs s' = procs (upd p (fun x => p_tf (set_a0 v (tf x)) x) s1) /\
       console (env s') = console (env s1) ++ trace_line (procs s1 !!! p) num v) /\
  ((num <= 0 \/ 22 < num) ->
     exists s', syscall files s = Ok tt s' /\
       procs s' = procs (upd p (fun x => p_tf (set_a0 (2 ^ 64 - 1) (tf x)) x) s) /\
       console (env s') = console (env s) ++ [LUnknown (pid (procs s !!! p)) (name (procs s !!! p)) num]).
Proof.
  intros Hc Hp Hnum. unfold syscall. rewrite (bind_ok _ _ _ _ _ (my_run p s Hc Hp)).
  rewrite (bind_ok _ _ _ _ _ (pget_run _ _)), <- Hnum. split.
  - intros h v s1 Hn Hh Hrun. rewrite decide_True by done. rewrite Hh. cbn [mjoin option_join].
    rewrite (bind_ok _ _ _ _ _ Hrun). by eapply syscall_ret_run.
  - intros Hout.
    assert ((if decide (0 < num) then mjoin (arr_get (syscalls files) num) else None) = None) as ->.
    { case_decide as Hn; [|done]. destruct (arr_get (syscalls files) num) as [o|] eqn:Ho; [|done].
      apply arr_get_Some in Ho as [_ Ho]. apply lookup_lt_Some in Ho. cbn in Ho. lia. }
    rewrite (bind_ok _ _ _ _ _ (pget_run _ _)). unfold printf, modify. unfold bind at 1.
    rewrite pmod_upd. eexists. split; [done|]. split; [done|]. done.
Qed.

(** ** The calls of sysproc.c *)

#[export] Instance tickslock_laws : LockLaws (the_tickslock (F := F)).
Proof. split; intros; destruct s as [? ? ? ? ? ? ? ? []]; done. Qed.
#[export] Instance tickslock_outer : OuterLock (the_tickslock (F := F)).
Proof. split; try apply _; intros; destruct s as [? ? ? ? ? ? ? ? []]; done. Qed.

Lemma argraw_run n p (s : K) :
  cpu_ok (kcpu s) -> curproc s = Some p -> 0 <= n <= 5 -> exists v, argraw n s = Ok v s.
Proof.
  intros Hc Hp Hn. unfold argraw. rewrite (bind_ok _ _ _ _ _ (my_run p s Hc Hp)).
  rewrite (bind_ok _ _ _ _ _ (pget_run _ _)). repeat (case_decide; [by eexists|]). lia.
Qed.

Lemma argint_run n p (s : K) :
  cpu_ok (kcpu s) -> curproc s = Some p -> 0 <= n <= 5 -> exists v, argint n s = Ok v s.
Proof.
  intros Hc Hp Hn. destruct (argraw_run n p s Hc Hp Hn) as [v Hv]. unfold argint.
  rewrite (bind_ok _ _ _ _ _ Hv). by eexists.
Qed.

Definition safe (h : M K sysres) (s : K) : Prop := exists r s', h s = Ok r s' /\ inv s'.

(** A handler that ends with an activation of the process table. *)
Lemma safe_op {A} (o : kop) (m : M K A) (f : A -> sysres) (s : K) :
  inv s -> enabled o s -> (forall s', kexec o s = Ok tt s' -> exists a, m s = Ok a s') ->
  safe (let! a := m in ret (f a)) s.
Proof.
  intros Hi He Hm. destruct (kexec_good o s Hi He) as (s' & Hs' & Hi').
  destruct (Hm s' Hs') as [a Ha]. exists (f a), s'. by rewrite (bind_ok _ _ _ _ _ Ha).
Qed.

Lemma drop_result {A} (m : M K A) (s s' : K) : (m ;; ret tt) s = Ok tt s' -> exists a, m s = Ok a s'.
Proof. intros (a & t & Ha & Ht)%bind_inv. injection Ht as <-. by exists a. Qed.

Lemma args_of n p (s : K) : inv s -> curproc s = Some p -> 0 <= n <= 5 -> exists v, argint n s = Ok v s.
Proof. intros Hi Hp Hn. eapply argint_run; [apply Hi|exact Hp|done]. Qed.

Lemma safe_sbrk p (s : K) : inv s -> curproc s = Some p -> safe sys_sbrk s.
Proof.
  intros Hi Hp. destruct (args_of 0 p s Hi Hp ltac:(lia)) as [n Hn].
  destruct (args_of 1 p s Hi Hp ltac:(lia)) as [t Ht].
  pose proof (my_run p s (ar_cpu s (inv_rest s Hi)) Hp) as Hmy.
  unfold safe, sys_sbrk. rewrite (bind_ok _ _ _ _ _ Hn), (bind_ok _ _ _ _ _ Ht), (bind_ok _ _ _ _ _ Hmy).
  rewrite (bind_ok _ _ _ _ _ (pget_run _ _)). case_decide.
  - destruct (kexec_good (OGrow n) s Hi) as (s' & Hs' & Hi'); [simpl; congruence|].
    destruct (drop_result _ _ _ Hs') as [r Hr]. rewrite (bind_ok _ _ _ _ _ Hr).
    case_decide; by eexists _, _.
  - case_decide; [by eexists _, _|]. rewrite (bind_ok _ _ _ _ _ Hmy), (bind_ok _ _ _ _ _ (pmod_upd _ _ _)).
    eexists _, _. split; [done|]. apply inv_upd_kept; [|done|]; [keeps_lock|]. split; auto.
Qed.

(** sys_pause: the clock lock is given back on every path. *)
Lemma pause_loop_safe t0 n p (s : K) :
  inv s -> curproc s = Some p -> is_free (tickslock (env s)) ->
  exists r s', pause_loop t0 n (taken the_tickslock s) = Ok r s' /\ inv s'.
Proof.
  intros Hi Hp Hf. pose proof (inv_rest s Hi) as Hr. unfold pause_loop, gets.
  unfold bind at 1. assert (is_free (lget the_tickslock s)) as Hfl by exact Hf.
  assert (cpu_ok (get_cpu s)) as Hcg by apply Hr.
  pose proof (release_taken the_tickslock s Hcg Hfl) as Hrel.
  case_decide.
  - assert (my (taken the_tickslock s) = Ok p (taken the_tickslock s)) as Hmy.
    { apply my_run; [by apply cpu_taken_outer; [apply _|]|by rewrite ol_cur]. }
    rewrite (bind_ok _ _ _ _ _ Hmy), (bind_ok _ _ _ _ _ (killed_run the_tickslock p s Hr)). case_decide.
    + rewrite (bind_ok _ _ _ _ _ Hrel). by eexists _, _.
    + rewrite (bind_ok _ _ _ _ _ (sleep_on_run the_tickslock _ p _ s Hr Hfl Hp (inv_noff s Hi))).
      eexists _, _. split; [done|]. by apply inv_sleep.
  - rewrite (bind_ok _ _ _ _ _ Hrel). by eexists _, _.
Qed.

Lemma safe_pause p (s : K) :
  inv s -> curproc s = Some p -> is_free (tickslock (env s)) -> safe sys_pause s.
Proof.
  intros Hi Hp Hf. destruct (args_of 0 p s Hi Hp ltac:(lia)) as [n Hn].
  unfold safe, sys_pause. rewrite (bind_ok _ _ _ _ _ Hn).
  assert (is_free (lget the_tickslock s)) as Hfl by exact Hf.
  rewrite (bind_ok _ _ _ _ _ (acquire_run the_tickslock s Hfl)). unfold gets. unfold bind at 1.
  by eapply pause_loop_safe.
Qed.

Lemma safe_uptime (s : K) : inv s -> is_free (tickslock (env s)) -> safe sys_uptime s.
Proof.
  intros Hi Hf. unfold safe, sys_uptime. assert (is_free (lget the_tickslock s)) as Hfl by exact Hf.
  rewrite (bind_ok _ _ _ _ _ (acquire_run the_tickslock s Hfl)). unfold gets. unfold bind at 1.
  assert (cpu_ok (get_cpu s)) as Hcg by apply Hi.
  rewrite (bind_ok _ _ _ _ _ (release_taken the_tickslock s Hcg Hfl)). by eexists _, _.
Qed.

Lemma safe_fork p (s : K) :
  inv s -> curproc s = Some p -> in_int (nextpid s + 1) -> safe sys_fork s.
Proof.
  intros Hi Hp Hn. apply (safe_op OFork); [done|split; congruence|]. intros s'. apply drop_result.
Qed.

Lemma safe_exit p (s : K) :
  inv s -> curproc s = Some p -> curproc s <> initproc s -> safe sys_exit s.
Proof.
  intros Hi Hp Hn. destruct (args_of 0 p s Hi Hp ltac:(lia)) as [n Ha].
  unfold safe, sys_exit. rewrite (bind_ok _ _ _ _ _ Ha).
  destruct (kexec_good (OExit n) s Hi) as (s' & Hs' & Hi'); [split; congruence|].
  rewrite (bind_ok _ _ _ _ _ Hs'). by eexists _, _.
Qed.

Lemma safe_wait p (s : K) : inv s -> curproc s = Some p -> safe sys_wait s.
Proof.
  intros Hi Hp. destruct (argraw_run 0 p s (ar_cpu s (inv_rest s Hi)) Hp ltac:(lia)) as [a Ha].
  unfold safe, sys_wait, argaddr. rewrite (bind_ok _ _ _ _ _ Ha).
  destruct (kexec_good (OWait a) s Hi) as (s' & Hs' & Hi'); [simpl; congruence|].
  destruct (drop_result _ _ _ Hs') as [r Hr]. rewrite (bind_ok _ _ _ _ _ Hr). destruct r; by eexists _, _.
Qed.

Lemma safe_kill p (s : K) : inv s -> curproc s = Some p -> safe sys_kill s.
Proof.
  intros Hi Hp. destruct (args_of 0 p s Hi Hp ltac:(lia)) as [n Ha].
  unfold safe, sys_kill. rewrite (bind_ok _ _ _ _ _ Ha).
  apply (safe_op (OKill n) (kkill n) (fun r => Ret (u64 r))); [done|done|]. intros s'. apply drop_result.
Qed.

Lemma safe_getpid p (s : K) : inv s -> curproc s = Some p -> safe sys_getpid s.
Proof.
  intros Hi Hp. unfold safe, sys_getpid.
  rewrite (bind_ok _ _ _ _ _ (my_run p s (ar_cpu s (inv_rest s Hi)) Hp)). by eexists _, _.
Qed.

Lemma safe_trace p (s : K) : inv s -> curproc s = Some p -> safe sys_trace s.
Proof.
  intros Hi Hp. destruct (args_of 0 p s Hi Hp ltac:(lia)) as [n Ha].
  unfold safe, sys_trace. rewrite (bind_ok _ _ _ _ _ Ha).
  rewrite (bind_ok _ _ _ _ _ (my_run p s (ar_cpu s (inv_rest s Hi)) Hp)), (bind_ok _ _ _ _ _ (pmod_upd _ _ _)).
  eexists _, _. split; [done|]. apply inv_upd_kept; [apply _|done|]. split; auto.
Qed.

Lemma syscall_ret_inv p num v (s : K) : inv s -> exists s', syscall_ret p num v s = Ok tt s' /\ inv s'.
Proof.
  intros Hi. unfold syscall_ret. rewrite (bind_ok _ _ _ _ _ (pmod_upd _ _ _)), (bind_ok _ _ _ _ _ (pget_run _ _)).
  assert (inv (upd p (fun x => p_tf (set_a0 v (tf x)) x) s)) as Hi'
    by (apply inv_upd_kept; [apply _|done|]; split; auto).
  destruct (traced _ _); [|by eexists].
  destruct (mjoin (arr_get syscall_names num)); (eexists; split; [done|]; by apply inv_env).
Qed.

(** The numbers of the calls in sysproc.c. *)
Definition sysproc_nums : list Z := [1; 2; 3; 6; 11; 12; 13; 14; 22].

(** The system calls of sysproc.c (fork, exit, wait, kill, getpid, sbrk, pause, uptime
    and trace) are safe: whatever its arguments, such a call of the running process,
    through syscall(), completes, returning, sleeping or exiting, without a panic, and
    leaves the process table consistent, with no lock counted against the CPU (init must
    not exit, and pids must not have run out). *)
Lemma sysproc_safe (s : K) p num :
  inv s -> curproc s = Some p -> is_free (tickslock (env s)) ->
  num = i32 (a7 (tf (procs s !!! p))) -> num ∈ sysproc_nums ->
  (num = 1 -> in_int (nextpid s + 1)) -> (num = 2 -> initproc s <> Some p) ->
  exists s', syscall files s = Ok tt s' /\ inv s'.
Proof.
  intros Hi Hp Hf Hnum Hin Hfork Hexit.
  assert (exists h, arr_get (syscalls files) num = Some (Some h) /\ 0 < num /\ safe h s) as (h & Hh & Hpos & Hs).
  { unfold sysproc_nums in Hin. repeat (apply elem_of_cons in Hin as [Heq|Hin]; [clear Hnum; subst num; eexists;
      split; [reflexivity|]; split; [lia|] |]); [..|by apply not_elem_of_nil in Hin].
    - by apply (safe_fork p); [..|apply Hfork].
    - apply (safe_exit p); [done|done|]. rewrite Hp. intros He. by apply Hexit.
    - by apply (safe_wait p).
    - by apply (safe_kill p).
    - by apply (safe_getpid p).
    - by apply (safe_sbrk p).
    - by apply (safe_pause p).
    - by apply safe_uptime.
    - by apply (safe_trace p). }
  destruct Hs as (r & s1 & Hrun & Hi1). unfold syscall.
  rewrite (bind_ok _ _ _ _ _ (my_run p s (ar_cpu s (inv_rest s Hi)) Hp)), (bind_ok _ _ _ _ _ (pget_run _ _)).
  rewrite <- Hnum, decide_True, Hh by done. cbn [mjoin option_join]. rewrite (bind_ok _ _ _ _ _ Hrun).
  destruct r as [v| |]; [by apply syscall_ret_inv|by exists s1|by exists s1].
Qed.
End Calls.

(** ** A concrete machine *)

#[local] Existing Instance bump_env.
#[export] Instance no_vm : VmEnv Z := {
  e_copyin := fun _ _ _ => None; e_copyinstr := fun _ _ _ _ => None }.

Definition no_files : sysfile (F := Z) :=
  let h := ret (Ret 0) in mkSysfile h h h h h h h h h h h h h.

Definition sbooted : kst (senv Z) :=
  match boot (cold 0 (mkSenv (mkSpinlock 0 "time" None) 0 [] PGSIZE)) with
  | Ok _ s => s | _ => cold 0 (mkSenv no_lock 0 [] 0) end.
Definition srunning : kst (senv Z) :=
  match kexecs [OSchedule 0%fin 0] sbooted with Some s => s | None => sbooted end.
(** init calls trace(mask). *)
Definition calls_trace (mask : Z) : kst (senv Z) :=
  upd 0%fin (p_tf (mkTf 0 0 0 0 0 mask 0 0 0 0 0 22 [])) srunning.

Lemma srunning_inv : inv srunning.
Proof.
  assert (boot (cold 0 (mkSenv (mkSpinlock 0 "time" None) 0 [] PGSIZE)) = Ok tt sbooted) as Hb
    by (vm_compute; reflexivity).
  apply (kruns_inv sbooted [OSchedule 0%fin 0]); [|exact (boot_inv _ _ _ Hb)].
  apply kexecs_kruns. by vm_compute.
Qed.

Lemma calls_trace_inv mask : inv (calls_trace mask).
Proof.
  unfold calls_trace. generalize srunning_inv. generalize srunning. intros s Hs.
  apply inv_upd_kept; [apply _|exact Hs|]. split; auto.
Qed.

(** trace(1 << 22) traces itself: the mask is tested as the call left it. *)
Lemma syscall_traces_witness :
  exists s', syscall no_files (calls_trace (2 ^ 22)) = Ok tt s' /\
    console (env s') = [LTrace 1 "trace" 0].
Proof.
  destruct (syscall_traces no_files (calls_trace (2 ^ 22)) 0%fin 22) as [Hcall _];
    [apply calls_trace_inv|by vm_compute..|].
  destruct (Hcall sys_trace 0 (upd 0%fin (p_trace_mask (2 ^ 22)) (calls_trace (2 ^ 22))))
    as (s' & Hrun & _ & Hcon); [done|done|by vm_compute|].
  exists s'. split; [done|]. etrans; [exact Hcon|by vm_compute].
Defined.

(** The names of the calls that a mask selects, by the test of syscall(). *)
Definition selected (mask : Z) : list string :=
  omap (fun num => if traced mask num then mjoin (arr_get syscall_names num) else None) (zrange 1 23).

(** The characters of "0xFFFFFFFF". *)
Definition hex_ones : list Z := [48; 120; 70; 70; 70; 70; 70; 70; 70; 70].

(** Call n is selected by bit n of the mask, that is by the value 2^n.  The mask 32 of
    the design's first test selects read alone, but the mask 48 of its second test selects
    pipe and read, not read and write as it says, since write is call 16 and needs 65536.
    The mask -1 selects every call, but the argument 0xFFFFFFFF of its third test, meant to
    do so, is no decimal number: atoi stops at the x, the program calls trace(0), and no
    call is traced. *)
Lemma trace_masks_select :
  selected 32 = ["read"]%string /\ selected 48 = ["pipe"; "read"]%string /\
  selected (32 + 65536) = ["read"; "write"]%string /\ selected 0 = [] /\
  length (selected (-1)) = 22%nat /\
  exists m, trace_main 20 3 [100; 0; 200] false (str_mem hex_ones) = Ok [UTrace 0; UExec 200 [200]] m.
Proof. repeat (split; [by vm_compute|]). eexists. vm_compute. reflexivity. Qed.
