(* ===== verification/ProcKeeps.v ===== *)
(** * Operations of the process table that leave init alone

    [keeps f m]: the operation [m], when it returns, has not changed what [f] sees of the
    state.  The tactic [keep] follows the structure of an operation. *)

From Stdlib Require Import ZArith Lia.
From stdpp Require Import base numbers list vector fin finite strings.
From S2P Require Import Prelude Spinlock Proc ProcSpec ProcOps ProcExit ProcInv ProcProps Syscall SyscallProps.
Open Scope Z_scope.

Definition keeps {S V A} (f : S -> V) (m : M S A) : Prop := forall s a s', m s = Ok a s' -> f s' = f s.
Section Keeps.
Context {S V : Type} (f : S -> V).
Lemma keeps_ret {A} (a : A) : keeps f (ret a).
Proof. by intros s x s' [= <- <-]. Qed.
Lemma keeps_bind {A B} (m : M S A) (k : A -> M S B) : keeps f m -> (forall a, keeps f (k a)) -> keeps f (bind m k).
Proof. intros Hm Hk s b s' (a & t & E & E')%bind_inv. by rewrite (Hk _ _ _ _ E'), (Hm _ _ _ E). Qed.
Lemma keeps_gets {A} (g : S -> A) : keeps f (gets g).
Proof. by intros s x s' [= <- <-]. Qed.
Lemma keeps_modify g : (forall s, f (g s) = f s) -> keeps f (modify g).
Proof. by intros Hg s x s' [= <- <-]. Qed.
Lemma keeps_panic {A} m : keeps f (panic (A := A) m).
Proof. done. Qed.
Lemma keeps_undef {A} m : keeps f (undef (A := A) m).
Proof. done. Qed.
Lemma keeps_block {A} c : keeps f (block (A := A) c).
Proof. done. Qed.
Lemma keeps_for_each {A} (l : list A) body : (forall x, keeps f (body x)) -> keeps f (for_each l body).
Proof. intros Hb. induction l; cbn [for_each]; [apply keeps_ret|by apply keeps_bind]. Qed.
Lemma keeps_for_until {A B} (l : list A) (body : A -> M S (option B)) : (forall x, keeps f (body x)) -> keeps f (for_until l body).
Proof.
  intros Hb. induction l; cbn [for_until]; [apply keeps_ret|]. apply keeps_bind; [done|]. intros [|]; [apply keeps_ret|done].
Qed.
End Keeps.
Create HintDb keeps.
Ltac keep_step :=
  match goal with
  | |- keeps _ (bind _ _) => apply keeps_bind; [|intros ?]
  | |- keeps _ (ret _) => apply keeps_ret
  | |- keeps _ (gets _) => apply keeps_gets
  | |- keeps _ (modify _) => apply keeps_modify; intros; reflexivity
  | |- keeps _ (panic _) => apply keeps_panic
  | |- keeps _ (undef _) => apply keeps_undef
  | |- keeps _ (block _) => apply keeps_block
  | |- keeps _ (for_each _ _) => apply keeps_for_each; intros ?
  | |- keeps _ (for_until _ _) => apply keeps_for_until; intros ?
  | |- keeps _ (if ?b then _ else _) => destruct b
  | |- keeps _ (match ?o with _ => _ end) => destruct o
  | |- keeps _ _ => progress (eauto 2 with keeps)
  end.
Ltac keep := repeat keep_step.

Section Init.
Context {E : Type} `{ProcEnv E}.
Notation K := (kst E).
Notation kinit := (keeps (initproc (E := E))).

Lemma init_cpu : kinit push_off /\ kinit pop_off.
Proof. unfold push_off, pop_off, intr_off, intr_on, intr_set, intr_get, set_noff, set_intena. split; keep. Qed.
Lemma init_acquire (lk : lockref K) : (forall l s, initproc (lset lk l s) = initproc s) -> kinit (acquire lk).
Proof. intros Hl. unfold acquire, holding. pose proof (proj1 init_cpu). keep. apply keeps_modify. intros s. apply Hl. Qed.
Lemma init_release (lk : lockref K) : (forall l s, initproc (lset lk l s) = initproc s) -> kinit (release lk).
Proof. intros Hl. unfold release, holding. pose proof (proj2 init_cpu). keep. apply keeps_modify. intros s. apply Hl. Qed.

Lemma init_take_p p : kinit (acquire (plock p)).
Proof. by apply init_acquire. Qed.
Lemma init_give_p p : kinit (release (plock p)).
Proof. by apply init_release. Qed.
Lemma init_take_w : kinit (acquire the_wait_lock).
Proof. by apply init_acquire. Qed.
Lemma init_give_w : kinit (release the_wait_lock).
Proof. by apply init_release. Qed.
Lemma init_take_pid : kinit (acquire the_pid_lock).
Proof. by apply init_acquire. Qed.
Lemma init_give_pid : kinit (release the_pid_lock).
Proof. by apply init_release. Qed.
Lemma init_pget p : kinit (pget p).
Proof. apply keeps_gets. Qed.
Lemma init_pmod p g : kinit (pmod p g).
Proof. by apply keeps_modify. Qed.
Lemma init_tell g : kinit (tell g).
Proof. by apply keeps_modify. Qed.
Lemma init_ask g : kinit (ask g).
Proof. intros s a s' E'. unfold ask in E'. destruct (g (env s)). by injection E' as <- <-. Qed.
Lemma init_myproc : kinit myproc.
Proof. unfold myproc. pose proof init_cpu as [? ?]. keep. Qed.
#[local] Hint Resolve init_take_p init_give_p init_take_w init_give_w init_take_pid init_give_pid init_pget init_pmod init_tell init_ask init_myproc : keeps.
Lemma init_my : kinit my.
Proof. unfold my. keep. Qed.
#[local] Hint Resolve init_my : keeps.
Lemma init_freeproc p : kinit (freeproc p).
Proof. unfold freeproc. keep. Qed.
#[local] Hint Resolve init_freeproc : keeps.
Lemma init_kfork : kinit kfork.
Proof. unfold kfork, allocproc, find_unused, allocpid, dup_files. keep. Qed.
Lemma init_wakeup c : kinit (wakeup c).
Proof. unfold wakeup. keep. Qed.
#[local] Hint Resolve init_wakeup : keeps.
Lemma init_sched k : kinit (sched k).
Proof. unfold sched, holding, intr_get. keep. Qed.
#[local] Hint Resolve init_sched : keeps.
Lemma init_kexit n : kinit (kexit n).
Proof. unfold kexit, close_files, reparent. keep. Qed.
Lemma init_killed p : kinit (killed p).
Proof. unfold killed. keep. Qed.
#[local] Hint Resolve init_killed : keeps.
Lemma init_sleep_on c lk k : (forall r, lk = Some r -> kinit (release r)) -> kinit (sleep_on c lk k).
Proof. intros Hl. unfold sleep_on. keep. Qed.
Lemma init_wait_scan l p addr h : kinit (wait_scan l p addr h).
Proof. revert h. induction l as [|q l IH]; intros h; cbn [wait_scan]; keep; apply IH. Qed.
#[local] Hint Resolve init_wait_scan : keeps.
Lemma init_kwait addr : kinit (kwait addr).
Proof. unfold kwait, kwait_loop, sleep. keep. apply init_sleep_on. intros r [= <-]. apply init_give_w. Qed.
Lemma init_growproc n : kinit (growproc n).
Proof. unfold growproc. keep. Qed.
Lemma init_kkill n : kinit (kkill n).
Proof. unfold kkill. keep. Qed.
End Init.
#[export] Hint Resolve init_take_p init_give_p init_pget init_pmod init_my init_kfork init_kexit init_killed init_kwait init_growproc init_kkill : keeps.

(** ** The calls of sysproc.c *)

Section Calls.
Context {F : Type} `{ProcEnv F} `{VmEnv F}.
Notation kinit := (keeps (initproc (E := senv F))).

Lemma init_take_t : kinit (acquire the_tickslock).
Proof. by apply init_acquire. Qed.
Lemma init_give_t : kinit (release the_tickslock).
Proof. by apply init_release. Qed.
Lemma init_argraw n : kinit (argraw n).
Proof. unfold argraw. keep. Qed.
#[local] Hint Resolve init_take_t init_give_t init_argraw : keeps.
Lemma init_sysproc files num h : num ∈ sysproc_nums -> arr_get (syscalls files) num = Some (Some h) -> kinit h.
Proof.
  intros Hin. unfold sysproc_nums in Hin.
  repeat (apply elem_of_cons in Hin as [->|Hin]; [intros [= <-]|]); [..|by apply not_elem_of_nil in Hin].
  - unfold sys_fork. keep.
  - unfold sys_exit, argint. keep.
  - unfold sys_wait, argaddr. keep.
  - unfold sys_kill, argint. keep.
  - unfold sys_getpid. keep.
  - unfold sys_sbrk, argint. keep.
  - unfold sys_pause, pause_loop, argint. keep. apply init_sleep_on. intros r [= <-]. apply init_give_t.
  - unfold sys_uptime. keep.
  - unfold sys_trace, argint. keep.
Qed.
Lemma init_syscall files (s : kst (senv F)) p num s' :
  cpu_ok (kcpu s) -> curproc s = Some p -> num = i32 (a7 (tf (procs s !!! p))) -> num ∈ sysproc_nums ->
  syscall files s = Ok tt s' -> initproc s' = initproc s.
Proof.
  intros Hc Hp Hnum Hin. unfold syscall.
  rewrite (bind_ok _ _ _ _ _ (my_run p s Hc Hp)), (bind_ok _ _ _ _ _ (pget_run _ _)), <- Hnum.
  destruct (if decide (0 < num) then mjoin (arr_get (syscalls files) num) else None) as [h|] eqn:E.
  - assert (kinit h) as Hk.
    { apply (init_sysproc files num); [done|]. case_decide; [|done]. by destruct (arr_get (syscalls files) num) as [[|]|]; simplify_eq/=. }
    assert (forall p num v, kinit (syscall_ret p num v)) as Hr by (intros; unfold syscall_ret, printf; keep).
    refine ((_ : kinit _) s tt s'). keep.
  - refine ((_ : kinit _) s tt s'). unfold printf. keep.
Qed.
End Calls.
