(* ===== verification/Trap.v ===== *)
(** * kernel/trap.c and kernel/plic.c: traps and interrupts

    The state is that of the system call layer, with the control registers of the hart beside
    the environment of the process table.  A trap ends when the process goes back to user
    mode ([TRet]) or has left the CPU ([TLeft]); [usertrap_tail] is where it goes on
    afterwards.  The interrupt-enable bit of sstatus is the [intr] of the CPU. *)

From Stdlib Require Import ZArith Lia.
From stdpp Require Import base numbers list vector fin finite strings.
From S2P Require Import Prelude Spinlock Proc Syscall.
Open Scope Z_scope.

Record regs : Type := mkRegs {
  sst : Z;         (* sstatus but for SIE *)
  stvec : Z; sepc : Z; scause : Z; stval : Z; satp : Z; stimecmp : Z }.
Definition with_sst v r := mkRegs v (stvec r) (sepc r) (scause r) (stval r) (satp r) (stimecmp r).
Definition with_stvec v r := mkRegs (sst r) v (sepc r) (scause r) (stval r) (satp r) (stimecmp r).
Definition with_sepc v r := mkRegs (sst r) (stvec r) v (scause r) (stval r) (satp r) (stimecmp r).
Definition with_stimecmp v r := mkRegs (sst r) (stvec r) (sepc r) (scause r) (stval r) (satp r) v.

(** The registers beside the environment [G] of the process table. *)
Record tenv (G : Type) : Type := mkTenv { hart : regs; mach : G }.
Arguments mkTenv {G}. Arguments hart {G}. Arguments mach {G}.
Definition in_mach {G} (f : G -> G) (e : tenv G) : tenv G := mkTenv (hart e) (f (mach e)).
Definition in_mach_r {G A} (f : G -> A * G) (e : tenv G) : A * tenv G :=
  let '(r, x) := f (mach e) in (r, mkTenv (hart e) x).

#[export] Instance tenv_proc G `{ProcEnv G} : ProcEnv (tenv G) := {
  e_kalloc := in_mach_r e_kalloc;
  e_kfree := fun a => in_mach (e_kfree a);
  e_proc_pagetable := fun a => in_mach_r (e_proc_pagetable a);
  e_proc_freepagetable := fun a b => in_mach (e_proc_freepagetable a b);
  e_uvmcopy := fun a b c => in_mach_r (e_uvmcopy a b c);
  e_uvmalloc := fun a b c => in_mach_r (e_uvmalloc a b c);
  e_uvmdealloc := fun a b c => in_mach_r (e_uvmdealloc a b c);
  e_copyout := fun a b c => in_mach_r (e_copyout a b c);
  e_filedup := fun a => in_mach (e_filedup a);
  e_fileclose := fun a => in_mach (e_fileclose a);
  e_idup := fun a => in_mach (e_idup a);
  e_iput := fun a => in_mach (e_iput a);
  e_root := e_root;
  e_namei_root := in_mach e_namei_root }.
#[export] Instance tenv_vm G `{VmEnv G} : VmEnv (tenv G) := {
  e_copyin := fun a b e => e_copyin a b (mach e);
  e_copyinstr := fun a b c e => e_copyinstr a b c (mach e) }.

(** The machine: device registers of 32 bits, the clock, vmfault of vm.c, and the addresses
    that the linker gives to the entry points. *)
Class Machine (G : Type) := {
  io_load : Z -> G -> Z * G;
  io_store : Z -> Z -> G -> G;
  m_time : G -> Z * G;
  m_vmfault : Z -> Z -> bool -> G -> Z * G;
  kernelvec : Z; uservec_off : Z; usertrap_addr : Z }.

Definition SSTATUS_SPP : Z := Z.shiftl 1 8.
Definition SSTATUS_SPIE : Z := Z.shiftl 1 5.
Definition SSTATUS_SIE : Z := Z.shiftl 1 1.
Definition MAKE_SATP (pagetable : Z) : Z := Z.lor (Z.shiftl 8 60) (Z.shiftr pagetable 12).
Definition TRAMPOLINE : Z := Z.shiftl 1 38 - PGSIZE.
Definition UART0_IRQ : Z := 10.
Definition VIRTIO0_IRQ : Z := 1.
Definition PLIC : Z := 201326592.
Definition PLIC_SENABLE (hart : Z) : Z := PLIC + 8320 + hart * 256.
Definition PLIC_SPRIORITY (hart : Z) : Z := PLIC + 2101248 + hart * 8192.
Definition PLIC_SCLAIM (hart : Z) : Z := PLIC + 2101252 + hart * 8192.

(** How a trap ends. *)
Inductive trapres : Type := TRet (satp : Z) | TLeft.

Section Trap.
Context {G : Type} `{ProcEnv G} `{VmEnv G} `{Machine G}.
Notation F := (tenv G).
Notation K := (kst (senv F)).

Definition the_regs (s : K) : regs := hart (rest (env s)).
Definition in_tenv (f : F -> F) (s : K) : K := with_env (in_rest f (env s)) s.
Definition r_reg (f : regs -> Z) : M K Z := gets (fun s => f (the_regs s)).
Definition w_reg (f : regs -> regs) : M K unit := modify (in_tenv (fun e => mkTenv (f (hart e)) (mach e))).
Definition machine {A} (f : G -> A * G) : M K A := fun s =>
  let '(a, g) := f (mach (rest (env s))) in Ok a (in_tenv (fun e => mkTenv (hart e) g) s).

Definition r_sstatus : M K Z := gets (fun s => Z.lor (Z.ldiff (sst (the_regs s)) SSTATUS_SIE) (if intr (kcpu s) then SSTATUS_SIE else 0)).
Definition w_sstatus (x : Z) : M K unit :=
  w_reg (with_sst (Z.ldiff x SSTATUS_SIE)) ;;
  intr_set (bool_decide (Z.land x SSTATUS_SIE <> 0)).
Definition cpuid : M K Z := gets (fun s => Z.of_nat (kcpuid s)).

(** ** plic.c *)

Definition iowrite (a v : Z) : M K unit := machine (fun g => (tt, io_store a v g)).
Definition plicinit : M K unit :=
  iowrite (PLIC + UART0_IRQ * 4) 1 ;;
  iowrite (PLIC + VIRTIO0_IRQ * 4) 1.
Definition plicinithart : M K unit :=
  let! hart := cpuid in
  iowrite (PLIC_SENABLE hart) (Z.lor (Z.shiftl 1 UART0_IRQ) (Z.shiftl 1 VIRTIO0_IRQ)) ;;
  iowrite (PLIC_SPRIORITY hart) 0.
Definition plic_claim : M K Z :=
  let! hart := cpuid in
  let! irq := machine (io_load (PLIC_SCLAIM hart)) in
  ret (i32 irq).
Definition plic_complete (irq : Z) : M K unit :=
  let! hart := cpuid in
  iowrite (PLIC_SCLAIM hart) (u32 irq).

(** ** trap.c *)

Definition trapinit : M K unit := initlock the_tickslock "time".
Definition trapinithart : M K unit := w_reg (with_stvec kernelvec).

Definition clockintr : M K unit :=
  let! id := cpuid in
  (if decide (id = 0) then
     acquire the_tickslock ;;
     modify (fun s => with_env (mkSenv (tickslock (env s)) (u32 (ticks (env s) + 1)) (console (env s)) (rest (env s))) s) ;;
     wakeup ticks_chan ;;
     release the_tickslock
   else ret tt) ;;
  let! t := machine m_time in
  w_reg (with_stimecmp (u64 (t + 1000000))).

(** The handlers of the devices, and the system calls of sysfile.c. *)
Context (uartintr virtio_disk_intr : M K unit) (files : sysfile (F := F)).

Definition devintr : M K Z :=
  let! cause := r_reg scause in
  if decide (cause = 2 ^ 63 + 9) then
    let! irq := plic_claim in
    (if decide (irq = UART0_IRQ) then uartintr
     else if decide (irq = VIRTIO0_IRQ) then virtio_disk_intr
     else if decide (irq <> 0) then printf (LIrq irq)
     else ret tt) ;;
    (if decide (irq <> 0) then plic_complete irq else ret tt) ;;
    ret 1
  else if decide (cause = 2 ^ 63 + 5) then clockintr ;; ret 2
  else ret 0.

Definition prepare_return : M K unit :=
  let! p := my in
  intr_off ;;
  w_reg (with_stvec (TRAMPOLINE + uservec_off)) ;;
  let! ksatp := r_reg satp in
  let! hart := cpuid in
  pmod p (fun x => p_tf (set_kernel ksatp (kstack x + PGSIZE) usertrap_addr hart (tf x)) x) ;;
  let! x := r_sstatus in
  w_sstatus (Z.lor (Z.ldiff x SSTATUS_SPP) SSTATUS_SPIE) ;;
  let! x := pget p in
  w_reg (with_sepc (epc (tf x))).

(** The end of usertrap, from prepare_return on. *)
Definition usertrap_tail (p : fin NPROC) : M K trapres :=
  prepare_return ;;
  let! x := pget p in
  ret (TRet (MAKE_SATP (pagetable x))).
(** From the second test of killed on. *)
Definition usertrap_end (p : fin NPROC) (which_dev : Z) : M K trapres :=
  let! k := killed p in
  if decide (k <> 0) then kexit (-1) ;; ret TLeft
  else if decide (which_dev = 2) then yield ;; ret TLeft
  else usertrap_tail p.

(** The branch of a system call; the process may be off the CPU when syscall() is done. *)
Definition usertrap_syscall (p : fin NPROC) : M K trapres :=
  let! k := killed p in
  if decide (k <> 0) then kexit (-1) ;; ret TLeft
  else
    pmod p (fun x => p_tf (set_epc (u64 (epc (tf x) + 4)) (tf x)) x) ;;
    intr_on ;;
    syscall files ;;
    let! c := gets curproc in
    if decide (c = Some p) then usertrap_end p 0 else ret TLeft.
(** The branches for what is no interrupt. *)
Definition usertrap_fault (p : fin NPROC) : M K trapres :=
  let! cause := r_reg scause in
  let! val := r_reg stval in
  let! x := pget p in
  let! mem := (if decide (cause = 15 \/ cause = 13) then machine (m_vmfault (pagetable x) val (bool_decide (cause = 13)))
               else ret 0) in
  (if decide (mem <> 0) then ret tt
   else
     let! pc := r_reg sepc in
     printf (LUsertrap cause (pid x) pc val) ;;
     setkilled p) ;;
  usertrap_end p 0.
Definition usertrap : M K trapres :=
  let! x := r_sstatus in
  if decide (Z.land x SSTATUS_SPP <> 0) then panic "usertrap: not from user mode"
  else
    w_reg (with_stvec kernelvec) ;;
    let! p := my in
    let! pc := r_reg sepc in
    pmod p (fun x => p_tf (set_epc pc (tf x)) x) ;;
    let! cause := r_reg scause in
    if decide (cause = 8) then usertrap_syscall p
    else
      let! which_dev := devintr in
      if decide (which_dev <> 0) then usertrap_end p which_dev else usertrap_fault p.

(** forkret of proc.c once it has released the lock; [first] is its static variable. *)
Definition forkret (fsinit : M K unit) (kexec_init : M K Z) (first : bool) : M K (Z * bool) :=
  let! p := my in
  (if first then
     fsinit ;;
     let! argc := kexec_init in
     pmod p (fun x => p_tf (set_a0 (u64 argc) (tf x)) x) ;;
     if decide (u64 argc = u64 (-1)) then panic "exec" else ret tt
   else ret tt) ;;
  prepare_return ;;
  let! x := pget p in
  ret (MAKE_SATP (pagetable x), false).

(** kerneltrap, up to a switch; [kerneltrap_tail] is what follows it. *)
Definition kerneltrap_tail (pc st : Z) : M K unit :=
  w_reg (with_sepc pc) ;;
  w_sstatus st.
Definition kerneltrap : M K bool :=
  let! pc := r_reg sepc in
  let! st := r_sstatus in
  let! cause := r_reg scause in
  if decide (Z.land st SSTATUS_SPP = 0) then panic "kerneltrap: not from supervisor mode"
  else
    let! i := intr_get in
    if i then panic "kerneltrap: interrupts enabled"
    else
      let! which_dev := devintr in
      if decide (which_dev = 0) then
        let! pc' := r_reg sepc in
        let! val := r_reg stval in
        printf (LKerneltrap cause pc' val) ;;
        panic "kerneltrap"
      else
        let! p := (if decide (which_dev = 2) then myproc else ret None) in
        match p with
        | Some _ => yield ;; ret false
        | None => kerneltrap_tail pc st ;; ret true
        end.

End Trap.
