(* ===== verification/TrapProps.v ===== *)
(** * Traps are handled, and return to user mode in a fit state *)

From Stdlib Require Import ZArith Lia.
From stdpp Require Import base numbers list vector fin finite strings.
From S2P Require Import Prelude Spinlock Proc ProcSpec ProcOps ProcExit ProcInv ProcProps ProcKeeps Syscall SyscallProps Trap.
Open Scope Z_scope.

Section Props.
Context {G : Type} `{ProcEnv G} `{VmEnv G} `{Machine G}.
Notation F := (tenv G).
Notation K := (kst (senv F)).

(** ** Interrupts and locks *)

(** The [intena] of a CPU without locks is stale; the next push_off and pop_off renew it. *)
Lemma my_settles p (s : K) : noff (kcpu s) = 0 -> curproc s = Some p -> my s = Ok p (with_intr (intr (kcpu s)) s).
Proof.
  destruct s as [id [n e i] pr np pl wl ip cur en]. cbn. intros -> ->. by destruct i.
Qed.
Lemma my_then {A} (k : fin NPROC -> M K A) p (s : K) : noff (kcpu s) = 0 -> curproc s = Some p ->
  (let! q := my in k q) s = k p (with_intr (intr (kcpu s)) s).
Proof. intros Hn Hc. by rewrite (bind_ok _ _ _ _ _ (my_settles p s Hn Hc)). Qed.
Lemma inv_intr i (s : K) : inv s -> inv (with_intr i s).
Proof.
  intros Hi. apply (inv_kept s); try done; [apply at_rest_intr; apply Hi|apply Hi|]. intros q. apply kept_refl.
Qed.
Lemma killed_at p (s : K) : at_rest s -> killed p s = Ok (killed_ (procs s !!! p)) s.
Proof.
  intros Hr. unfold killed. rewrite (bind_ok _ _ _ _ _ (acquire_p p s (ar_procs s Hr p))).
  destruct (pget_taken p p s) as [l Hl]. rewrite (bind_ok _ _ _ _ _ Hl).
  by rewrite (bind_ok _ _ _ _ _ (release_p p s (ar_cpu s Hr) (ar_procs s Hr p))).
Qed.

(** ** Going back to user mode *)

(** What trampoline.S and sret rely on. *)
Record ready (p : fin NPROC) (v : Z) (s : K) : Prop := {
  rd_intr : intr (kcpu s) = false;
  rd_spp : Z.testbit (sst (the_regs s)) 8 = false;
  rd_spie : Z.testbit (sst (the_regs s)) 5 = true;
  rd_vec : stvec (the_regs s) = TRAMPOLINE + uservec_off;
  rd_sepc : sepc (the_regs s) = epc (tf (procs s !!! p));
  rd_kernel : let t := tf (procs s !!! p) in
    kernel_satp t = satp (the_regs s) /\ kernel_sp t = kstack (procs s !!! p) + PGSIZE /\
    kernel_trap t = usertrap_addr /\ kernel_hartid t = Z.of_nat (kcpuid s);
  rd_satp : v = MAKE_SATP (pagetable (procs s !!! p)) }.

(** The word that prepare_return writes to sstatus. *)
Lemma user_sstatus v : let x := Z.lor (Z.ldiff (Z.lor (Z.ldiff v SSTATUS_SIE) 0) SSTATUS_SPP) SSTATUS_SPIE in
  Z.testbit (Z.ldiff x SSTATUS_SIE) 8 = false /\ Z.testbit (Z.ldiff x SSTATUS_SIE) 5 = true /\
  bool_decide (Z.land x SSTATUS_SIE <> 0) = false.
Proof.
  cbv zeta. unfold SSTATUS_SPP, SSTATUS_SPIE, SSTATUS_SIE. rewrite Z.lor_0_r. split_and!.
  - rewrite Z.ldiff_spec, Z.lor_spec, !Z.ldiff_spec. cbn. by rewrite andb_false_r.
  - rewrite Z.ldiff_spec, Z.lor_spec, !Z.ldiff_spec. cbn. by rewrite orb_true_r.
  - apply bool_decide_false. intros Hne. apply Hne. apply Z.bits_inj'. intros k Hk.
    rewrite Z.land_spec, Z.lor_spec, !Z.ldiff_spec, !Z.shiftl_1_l, !Z.pow2_bits_eqb, Z.bits_0 by lia.
    destruct (Z.eqb_spec 1 k) as [<-|]; [cbn|by rewrite andb_false_r]. by rewrite andb_false_r.
Qed.

(** The trapframe up to what prepare_return writes. *)
Definition user_part (t : trapframe) : trapframe := set_kernel 0 0 0 0 t.
Lemma prepare_run p (s : K) : inv (with_intr (intr (kcpu s)) s) -> curproc s = Some p ->
  exists s', prepare_return s = Ok tt s' /\ ready p (MAKE_SATP (pagetable (procs s' !!! p))) s' /\ inv (with_intr false s') /\
    curproc s' = Some p /\ user_part (tf (procs s' !!! p)) = user_part (tf (procs s !!! p)) /\
    killed_ (procs s' !!! p) = killed_ (procs s !!! p).
Proof.
  intros Hi Hc. assert (noff (kcpu s) = 0) as Hn by exact (inv_noff _ Hi).
  unfold prepare_return. rewrite (my_then _ p) by done.
  destruct (user_sstatus (sst (the_regs s))) as (Hspp & Hspie & Hsie).
  eexists. split; [reflexivity|]. split; [|split; [|split; [exact Hc|]]].
  - split; cbn; rewrite ?vlookup_insert; done.
  - apply (inv_intr false), (inv_upd_kept p (fun x => p_tf (set_kernel (satp (the_regs s)) (kstack x + PGSIZE) usertrap_addr (Z.of_nat (kcpuid s)) (tf x)) x)) in Hi.
    + eapply inv_env in Hi. exact Hi.
    + keeps_lock.
    + split; auto.
  - cbn. rewrite vlookup_insert. done.
Qed.
Lemma tail_run p (s : K) : inv (with_intr (intr (kcpu s)) s) -> curproc s = Some p ->
  exists v s', usertrap_tail p s = Ok (TRet v) s' /\ ready p v s' /\ inv (with_intr false s') /\ curproc s' = Some p /\
    user_part (tf (procs s' !!! p)) = user_part (tf (procs s !!! p)) /\ killed_ (procs s' !!! p) = killed_ (procs s !!! p).
Proof.
  intros Hi Hc. destruct (prepare_run p s Hi Hc) as (s' & E & R). unfold usertrap_tail. rewrite (bind_ok _ _ _ _ _ E).
  by eexists _, s'.
Qed.

(** ** Interrupts *)

(** What an interrupt handler may change for the processes: it may wake them. *)
Definition nudged (x y : proc) : Prop := y = x \/ (state x = SLEEPING /\ y = p_state RUNNABLE x).
Record calm (s s' : K) : Prop := {
  cm_cur : curproc s' = curproc s;
  cm_cpu : kcpu s' = kcpu s;
  cm_init : initproc s' = initproc s;
  cm_id : kcpuid s' = kcpuid s;
  cm_next : nextpid s' = nextpid s;
  cm_regs : with_stimecmp 0 (the_regs s') = with_stimecmp 0 (the_regs s);
  cm_tick : tickslock (env s') = tickslock (env s);
  cm_entry : forall q, nudged (procs s !!! q) (procs s' !!! q) }.
Lemma nudged_refl x : nudged x x.
Proof. by left. Qed.
Lemma calm_refl s : calm s s.
Proof. split; try done. intros q. apply nudged_refl. Qed.
Lemma calm_trans s1 s2 s3 : calm s1 s2 -> calm s2 s3 -> calm s1 s3.
Proof.
  intros [] []. split; try congruence. intros q. specialize (cm_entry0 q). specialize (cm_entry1 q). unfold nudged in *.
  destruct cm_entry0 as [E|[? E]], cm_entry1 as [E2|[Hst E2]]; rewrite E in *; auto.
Qed.
(** A handler of a device. *)
Definition handles (m : M K unit) : Prop := forall s, inv s -> is_free (tickslock (env s)) ->
  exists s', m s = Ok tt s' /\ inv s' /\ calm s s'.

Lemma wakes_nudged c cur p x : nudged x (wakes c cur p x).
Proof. unfold wakes. case_decide as D; [right; by destruct D as (_ & ? & _)|by left]. Qed.
Lemma calm_wakeup c s : calm s (after_wakeup c s).
Proof. split; try done. intros q. rewrite lookup_wakeup. apply wakes_nudged. Qed.
Lemma handles_wakeup c : handles (wakeup c).
Proof.
  intros s Hi _. exists (after_wakeup c s). split; [apply wakeup_run, procs_free_rest, Hi|].
  split; [by apply inv_wakeup|apply calm_wakeup].
Qed.

(** The clock after a tick, with its sleepers woken. *)
Definition ticked (s : K) : K :=
  with_env (mkSenv (tickslock (env s)) (u32 (ticks (env s) + 1)) (console (env s)) (rest (env s))) s.
Lemma wakeup_taken c (s : K) : after_wakeup c (taken the_tickslock s) = taken the_tickslock (after_wakeup c s).
Proof. by destruct s as [? ? ? ? ? ? ? ? []]. Qed.
Lemma tick_run (s : K) : inv s -> is_free (tickslock (env s)) ->
  (acquire the_tickslock ;;
   modify (fun s => with_env (mkSenv (tickslock (env s)) (u32 (ticks (env s) + 1)) (console (env s)) (rest (env s))) s) ;;
   wakeup ticks_chan ;;
   release the_tickslock) s = Ok tt (after_wakeup ticks_chan (ticked s)).
Proof.
  intros Hi Hf. assert (is_free (lget the_tickslock s)) as Hfl by exact Hf.
  rewrite (bind_ok _ _ _ _ _ (acquire_run the_tickslock s Hfl)).
  unfold modify at 1, bind at 1.
  change (with_env _ (taken the_tickslock s)) with (taken the_tickslock (ticked s)).
  assert (procs_free (taken the_tickslock (ticked s))) as Hpf.
  { split; [apply cpu_taken_outer; [apply _|apply Hi]|intros q; apply free_taken_outer; [apply _|apply Hi]]. }
  rewrite (bind_ok _ _ _ _ _ (wakeup_run ticks_chan _ Hpf)), wakeup_taken.
  by apply (release_taken the_tickslock); [apply Hi|].
Qed.

Lemma machine_run {A} (f : G -> A * G) (s : K) : exists s', machine f s = Ok (f (mach (rest (env s)))).1 s' /\ (inv s -> inv s') /\ calm s s' /\
  ticks (env s') = ticks (env s) /\ the_regs s' = the_regs s /\ procs s' = procs s /\ mach (rest (env s')) = (f (mach (rest (env s)))).2.
Proof.
  unfold machine. destruct (f (mach (rest (env s)))) as [a g]. eexists. split; [reflexivity|].
  split; [apply inv_env|]. split; [|done]. by split; try done; intros q; left.
Qed.

Lemma clockintr_run (s : K) : inv s -> is_free (tickslock (env s)) ->
  exists s', clockintr s = Ok tt s' /\ inv s' /\ calm s s' /\
    (kcpuid s = 0%nat -> ticks (env s') = u32 (ticks (env s) + 1) /\
       forall q, state (procs s !!! q) = SLEEPING -> chan (procs s !!! q) = ticks_chan -> curproc s <> Some q ->
         state (procs s' !!! q) = RUNNABLE) /\
    (kcpuid s <> 0%nat -> ticks (env s') = ticks (env s)) /\
    stimecmp (the_regs s') = u64 ((m_time (mach (rest (env s)))).1 + 1000000).
Proof.
  intros Hi Hf. unfold clockintr. unfold cpuid, gets at 1, bind at 1.
  set (s1 := if decide (Z.of_nat (kcpuid s) = 0) then after_wakeup ticks_chan (ticked s) else s).
  rewrite (bind_ok _ _ s tt s1).
  2: { unfold s1. case_decide; [by apply tick_run|done]. }
  assert (inv s1 /\ calm s s1) as [Hi1 Hc1].
  { unfold s1. case_decide; [|by split; [|apply calm_refl]].
    split; [by apply inv_wakeup, inv_env|]. eapply calm_trans; [|apply calm_wakeup]. by split; try done; intros q; left. }
  destruct (machine_run m_time s1) as (s2 & E2 & Hi2 & Hc2 & Ht2 & Hr2 & Hp2 & _). rewrite (bind_ok _ _ _ _ _ E2).
  eexists. split; [reflexivity|]. split; [by apply inv_env, Hi2|]. split.
  { eapply calm_trans; [exact Hc1|]. eapply calm_trans; [exact Hc2|]. by split; try done; intros q; left. }
  split_and!.
  - intros Hid. cbn. rewrite Ht2, Hp2. unfold s1. rewrite decide_True by (by rewrite Hid). split; [done|].
    intros q Hs Hq Hcur. rewrite lookup_wakeup. cbn. unfold wakes. rewrite decide_True; [done|]. split_and!; congruence.
  - intros Hid. cbn. rewrite Ht2. unfold s1. by rewrite decide_False by lia.
  - cbn. unfold s1. by case_decide.
Qed.

Lemma printf_run l (s : K) : exists s', printf l s = Ok tt s' /\ (inv s -> inv s') /\ calm s s' /\
  the_regs s' = the_regs s /\ procs s' = procs s /\ console (env s') = console (env s) ++ [l].
Proof. eexists. split; [reflexivity|]. split; [apply inv_env|]. split; [|done]. by split; try done; intros q; left. Qed.

Context (uartintr virtio_disk_intr : M K unit) (files : sysfile (F := F)).
Context (Huart : handles uartintr) (Hdisk : handles virtio_disk_intr).
Notation devintr := (devintr uartintr virtio_disk_intr).
Notation usertrap := (usertrap uartintr virtio_disk_intr files).

Lemma claim_run (s : K) : exists irq s', plic_claim s = Ok irq s' /\ (inv s -> inv s') /\ calm s s'.
Proof.
  unfold plic_claim, cpuid, gets at 1. unfold bind at 1.
  destruct (machine_run (io_load (PLIC_SCLAIM (Z.of_nat (kcpuid s)))) s) as (s' & E & Hi & Hc & _).
  rewrite (bind_ok _ _ _ _ _ E). by eexists _, s'.
Qed.
Lemma complete_run irq (s : K) : exists s', plic_complete irq s = Ok tt s' /\ (inv s -> inv s') /\ calm s s'.
Proof.
  unfold plic_complete, cpuid, gets at 1. unfold bind at 1.
  destruct (machine_run (fun g => (tt, io_store (PLIC_SCLAIM (Z.of_nat (kcpuid s))) (u32 irq) g)) s) as (s' & E & Hi & Hc & _).
  by exists s'.
Qed.

(** What devintr makes of the cause. *)
Definition device_of (cause : Z) : Z := if decide (cause = 2 ^ 63 + 9) then 1 else if decide (cause = 2 ^ 63 + 5) then 2 else 0.
Lemma devintr_run (s : K) : inv s -> is_free (tickslock (env s)) ->
  exists s', devintr s = Ok (device_of (scause (the_regs s))) s' /\ inv s' /\ calm s s'.
Proof.
  intros Hi Hf. unfold Trap.devintr, device_of, r_reg, gets. unfold bind at 1. case_decide as D1.
  - destruct (claim_run s) as (irq & s1 & E1 & Hi1 & Hc1). rewrite (bind_ok _ _ _ _ _ E1). specialize (Hi1 Hi).
    assert (exists s2, (if decide (irq = UART0_IRQ) then uartintr
       else if decide (irq = VIRTIO0_IRQ) then virtio_disk_intr
       else if decide (irq <> 0) then printf (LIrq irq) else ret tt) s1 = Ok tt s2 /\ inv s2 /\ calm s1 s2) as (s2 & E2 & Hi2 & Hc2).
    { assert (is_free (tickslock (env s1))) as Hf1 by (by rewrite (cm_tick _ _ Hc1)).
      case_decide; [by apply Huart|]. case_decide; [by apply Hdisk|]. case_decide; [|exists s1; split_and!; [done|done|apply calm_refl]].
      destruct (printf_run (LIrq irq) s1) as (s2 & E & Hi2 & Hc2 & _). exists s2. by split_and!; [|apply Hi2|]. }
    rewrite (bind_ok _ _ _ _ _ E2).
    assert (exists s3, (if decide (irq <> 0) then plic_complete irq else ret tt) s2 = Ok tt s3 /\ inv s3 /\ calm s2 s3) as (s3 & E3 & Hi3 & Hc3).
    { destruct (decide (irq <> 0)); [|exists s2; split_and!; [done|done|apply calm_refl]].
      destruct (complete_run irq s2) as (s3 & E & Hi3 & Hc3). exists s3. by split_and!; [|apply Hi3|]. }
    rewrite (bind_ok _ _ _ _ _ E3). exists s3. split_and!; [done|done|]. eapply calm_trans; [exact Hc1|]. by eapply calm_trans.
  - case_decide as D2.
    + destruct (clockintr_run s Hi Hf) as (s' & E & Hi' & Hc' & _). rewrite (bind_ok _ _ _ _ _ E). by exists s'.
    + exists s. split_and!; [done|done|apply calm_refl].
Qed.

(** ** Leaving the CPU *)

Lemma exit_leaves p st (s : K) : inv s -> curproc s = Some p -> initproc s <> Some p ->
  exists s', kexit st s = Ok tt s' /\ inv s' /\ curproc s' = None.
Proof.
  intros Hi Hc Hne. destruct (inv_init s Hi) as (ip & Hip & _). assert (p <> ip) as Hpi by congruence.
  destruct (kexit_entries p ip st s Hi Hc Hip Hpi) as (s' & E & _ & _ & _ & _ & Hc' & _).
  destruct (kexit_inv p ip st s Hi Hc Hip Hpi) as (s2 & E2 & Hi2). rewrite E in E2. injection E2 as <-. by exists s'.
Qed.
Lemma yield_leaves p (s : K) : inv s -> curproc s = Some p -> exists s', yield s = Ok tt s' /\ inv s' /\ curproc s' = None.
Proof.
  intros Hi Hc. destruct (good_yield p s Hi Hc) as (s' & E & Hi').
  pose proof (yield_run p s (inv_rest s Hi) Hc (inv_noff s Hi)) as Hy. cbn [kexec] in E. rewrite Hy in E.
  injection E as <-. by eexists.
Qed.

(** How a trap of [p] may end, for what its trapframe holds when the handling is over. *)
Definition ends (p : fin NPROC) (t : trapframe) (r : trapres) (s' : K) : Prop :=
  match r with
  | TLeft => inv s' /\ curproc s' <> Some p
  | TRet v => ready p v s' /\ inv (with_intr false s') /\ curproc s' = Some p /\ killed_ (procs s' !!! p) = 0 /\
      user_part (tf (procs s' !!! p)) = user_part t
  end.
Lemma end_run p w (s : K) : inv s -> curproc s = Some p -> initproc s <> Some p ->
  exists r s', usertrap_end p w s = Ok r s' /\ ends p (tf (procs s !!! p)) r s' /\
    (r = TLeft <-> killed_ (procs s !!! p) <> 0 \/ w = 2).
Proof.
  intros Hi Hc Hne. unfold usertrap_end. rewrite (bind_ok _ _ _ _ _ (killed_at p s (inv_rest s Hi))). case_decide as D1.
  - destruct (exit_leaves p (-1) s Hi Hc Hne) as (s' & E & Hi' & Hc'). rewrite (bind_ok _ _ _ _ _ E).
    exists TLeft, s'. split_and!; [done|split; congruence|naive_solver].
  - case_decide as D2.
    + destruct (yield_leaves p s Hi Hc) as (s' & E & Hi' & Hc'). rewrite (bind_ok _ _ _ _ _ E).
      exists TLeft, s'. split_and!; [done|split; congruence|naive_solver].
    + destruct (tail_run p s) as (v & s' & E & Hr & Hi' & Hc' & Ht & Hk); [by apply inv_intr|done|].
      exists (TRet v), s'. split_and!; [done| |split; [done|naive_solver]]. cbn. split_and!; try done. by rewrite Hk; destruct (decide (killed_ (procs s !!! p) = 0)).
Qed.

(** ** usertrap *)

(** The process as the trap finds it: its program counter is saved. *)
Definition saved (s : K) (x : proc) : proc := p_tf (set_epc (sepc (the_regs s)) (tf x)) x.
Definition trapped (p : fin NPROC) (s : K) : K :=
  upd p (saved s) (in_tenv (fun e => mkTenv (with_stvec kernelvec (hart e)) (mach e)) (with_intr false s)).
(** The state in which syscall() is called: past the ecall, with interrupts on. *)
Definition past_ecall (s : K) (x : proc) : proc := p_tf (set_epc (u64 (sepc (the_regs s) + 4)) (tf x)) x.
Definition calling (p : fin NPROC) (s : K) : K :=
  upd p (past_ecall s) (in_tenv (fun e => mkTenv (with_stvec kernelvec (hart e)) (mach e)) (with_intr true s)).

(** What holds when a trap from user mode of a process other than init enters the kernel. *)
Record from_user (p : fin NPROC) (s : K) : Prop := {
  fu_inv : inv (with_intr false s);
  fu_intr : intr (kcpu s) = false;
  fu_cur : curproc s = Some p;
  fu_init : initproc s <> Some p;
  fu_spp : Z.testbit (sst (the_regs s)) 8 = false;
  fu_tick : is_free (tickslock (env s)) }.

Lemma spp_clear v : Z.testbit v 8 = false -> Z.land (Z.lor (Z.ldiff v SSTATUS_SIE) 0) SSTATUS_SPP = 0.
Proof.
  intros Hv. rewrite Z.lor_0_r. unfold SSTATUS_SIE, SSTATUS_SPP. apply Z.bits_inj'. intros k Hk.
  rewrite Z.land_spec, Z.ldiff_spec, !Z.shiftl_1_l, !Z.pow2_bits_eqb, Z.bits_0 by lia.
  destruct (Z.eqb_spec 8 k) as [<-|]; [by rewrite Hv|by rewrite andb_false_r].
Qed.
Lemma inv_trapped p (s : K) : from_user p s -> inv (trapped p s).
Proof.
  intros Hu. apply inv_upd_kept; [keeps_lock|apply inv_env, Hu|]. split; auto.
Qed.
Lemma inv_calling p (s : K) : from_user p s -> inv (calling p s).
Proof.
  intros Hu. apply inv_upd_kept; [keeps_lock| |split; auto]. apply inv_env. apply (inv_intr true _ (fu_inv _ _ Hu)).
Qed.

Lemma usertrap_enters p (s : K) : from_user p s ->
  usertrap s = (if decide (scause (the_regs s) = 8) then usertrap_syscall files p
                else let! which_dev := devintr in
                     if decide (which_dev <> 0) then usertrap_end p which_dev else usertrap_fault p) (trapped p s).
Proof.
  intros Hu. unfold Trap.usertrap, r_sstatus, gets. unfold bind at 1.
  rewrite (fu_intr p s Hu), spp_clear by apply Hu. rewrite decide_False by (intros Hn; by apply Hn).
  unfold w_reg, modify at 1. unfold bind at 1. rewrite (my_then _ p); [|exact (inv_noff _ (fu_inv _ _ Hu))|exact (fu_cur _ _ Hu)].
  cbn [kcpu]. change (kcpu (in_tenv ?f s)) with (kcpu s). rewrite (fu_intr p s Hu). reflexivity.
Qed.

(** A fault that vmfault of vm.c repairs, by mapping a page of the lazily grown heap. *)
Definition repaired (p : fin NPROC) (s : K) : Prop := let r := the_regs s in
  (scause r = 15 \/ scause r = 13) /\
  (m_vmfault (pagetable (procs s !!! p)) (stval r) (bool_decide (scause r = 13)) (mach (rest (env s)))).1 <> 0.

Lemma fault_run p (s : K) : inv s -> curproc s = Some p -> initproc s <> Some p ->
  exists r s', usertrap_fault p s = Ok r s' /\ ends p (tf (procs s !!! p)) r s' /\
    (r = TLeft <-> killed_ (procs s !!! p) <> 0 \/ ~ repaired p s).
Proof.
  intros Hi Hc Hne. unfold usertrap_fault, r_reg, gets. unfold bind at 1. unfold bind at 1.
  rewrite (bind_ok _ _ _ _ _ (pget_run _ _)).
  set (g := m_vmfault (pagetable (procs s !!! p)) (stval (the_regs s)) (bool_decide (scause (the_regs s) = 13))).
  assert (exists mem s1, (if decide (scause (the_regs s) = 15 \/ scause (the_regs s) = 13) then machine g else ret 0) s = Ok mem s1 /\
     inv s1 /\ calm s s1 /\ procs s1 = procs s /\ (mem <> 0 <-> repaired p s)) as (mem & s1 & E1 & Hi1 & Hc1 & Hp1 & Hm).
  { unfold repaired. fold g. case_decide as D.
    - destruct (machine_run g s) as (s1 & E & Hi1 & Hc1 & _ & _ & Hp1 & _). eexists _, s1. split_and!; [exact E|by apply Hi1|done|done|tauto].
    - exists 0, s. split_and!; [done|done|apply calm_refl|done|tauto]. }
  rewrite (bind_ok _ _ _ _ _ E1). destruct (decide (mem <> 0)) as [D|D].
  - unfold bind, ret. destruct (end_run p 0 s1) as (r & s' & E & He & Hr); [done|by rewrite (cm_cur _ _ Hc1)|by rewrite (cm_init _ _ Hc1)|].
    exists r, s'. rewrite Hp1 in *. split_and!; [done|done|]. rewrite Hr. assert (repaired p s) by tauto.
    split; [intros [|]; [by left|lia]|tauto].
  - unfold bind at 1. unfold bind at 1.
    destruct (printf_run (LUsertrap (scause (the_regs s)) (pid (procs s !!! p)) (sepc (the_regs s1)) (stval (the_regs s))) s1)
      as (s2 & E2 & Hi2 & Hc2 & _ & Hp2 & _). specialize (Hi2 Hi1). rewrite (bind_ok _ _ _ _ _ E2).
    rewrite (setkilled_run p s2) by (apply procs_free_rest, Hi2).
    set (s3 := upd p (p_killed 1) s2).
    assert (inv s3) as Hi3 by (apply inv_upd_kept; [apply _|done|split; auto]).
    assert (procs s3 !!! p = p_killed 1 (procs s !!! p)) as Hp3 by (unfold s3; by rewrite lookup_upd, Hp2, Hp1).
    destruct (end_run p 0 s3) as (r & s' & E & He & Hr);
      [done|unfold s3; cbn; by rewrite (cm_cur _ _ Hc2), (cm_cur _ _ Hc1)|unfold s3; cbn; by rewrite (cm_init _ _ Hc2), (cm_init _ _ Hc1)|].
    exists r, s'. rewrite Hp3 in *. split_and!; [exact E|done|]. rewrite Hr. cbn. split; [intros _; right; tauto|by left].
Qed.

(** A trap that is no system call. *)
Lemma other_run p (s : K) : from_user p s -> scause (the_regs s) <> 8 ->
  exists r s', usertrap s = Ok r s' /\ ends p (set_epc (sepc (the_regs s)) (tf (procs s !!! p))) r s' /\
    (r = TLeft <-> killed_ (procs s !!! p) <> 0 \/ device_of (scause (the_regs s)) = 2 \/
       (device_of (scause (the_regs s)) = 0 /\ ~ repaired p s)).
Proof.
  intros Hu Hne. rewrite (usertrap_enters p s Hu), decide_False by done. pose proof (inv_trapped p s Hu) as Hi.
  destruct (devintr_run (trapped p s) Hi (fu_tick _ _ Hu)) as (s1 & E1 & Hi1 & Hc1). rewrite (bind_ok _ _ _ _ _ E1).
  change (scause (the_regs (trapped p s))) with (scause (the_regs s)).
  assert (curproc s1 = Some p) as Hcur by (rewrite (cm_cur _ _ Hc1); exact (fu_cur _ _ Hu)).
  assert (initproc s1 <> Some p) as Hini by (rewrite (cm_init _ _ Hc1); exact (fu_init _ _ Hu)).
  assert (procs (trapped p s) !!! p = saved s (procs s !!! p)) as Htp by (unfold trapped; by rewrite lookup_upd).
  assert (procs s1 !!! p = saved s (procs s !!! p)) as Hp.
  { rewrite <- Htp. destruct (cm_entry _ _ Hc1 p) as [E|[Hs E]]; [done|]. exfalso.
    pose proof (inv_curproc _ p Hi (fu_cur _ _ Hu)). congruence. }
  unfold device_of in *. destruct (decide (scause (the_regs s) = 2 ^ 63 + 9)) as [D1|D1]; [|destruct (decide (scause (the_regs s) = 2 ^ 63 + 5)) as [D2|D2]].
  - rewrite decide_True by lia. destruct (end_run p 1 s1 Hi1 Hcur Hini) as (r & s' & E & He & Hr). rewrite Hp in *.
    exists r, s'. split_and!; [done|done|]. rewrite Hr. cbn. split; [intros [|]; [by left|lia]|intros [|[|[? _]]]; [by left|lia|lia]].
  - rewrite decide_True by lia. destruct (end_run p 2 s1 Hi1 Hcur Hini) as (r & s' & E & He & Hr). rewrite Hp in *.
    exists r, s'. split_and!; [done|done|]. rewrite Hr. cbn. tauto.
  - assert (s1 = trapped p s) as ->.
    { unfold Trap.devintr, r_reg, gets in E1. unfold bind at 1 in E1.
      change (scause (the_regs (trapped p s))) with (scause (the_regs s)) in E1.
      rewrite !decide_False in E1 by done. by injection E1. }
    rewrite decide_False by (intros Hn; by apply Hn).
    destruct (fault_run p (trapped p s) Hi Hcur Hini) as (r & s' & E & He & Hr). rewrite Hp in *.
    exists r, s'. split_and!; [done|done|]. rewrite Hr. cbn.
    assert (repaired p (trapped p s) <-> repaired p s) as Hrep by (unfold repaired; by rewrite Hp). rewrite Hrep.
    split; [intros [|]; [by left|right; right; done]|intros [|[|[_ ?]]]; [by left|lia|by right]].
Qed.

(** A system call. *)
Lemma call_run p (s : K) : from_user p s -> scause (the_regs s) = 8 ->
  (killed_ (procs s !!! p) <> 0 -> exists s', usertrap s = Ok TLeft s' /\ ends p tf0 TLeft s') /\
  (killed_ (procs s !!! p) = 0 -> forall s2, syscall files (calling p s) = Ok tt s2 -> inv s2 -> initproc s2 = initproc s ->
     exists r s', usertrap s = Ok r s' /\ ends p (tf (procs s2 !!! p)) r s' /\
       (r = TLeft <-> curproc s2 <> Some p \/ killed_ (procs s2 !!! p) <> 0)).
Proof.
  intros Hu H8. rewrite (usertrap_enters p s Hu), decide_True by done. pose proof (inv_trapped p s Hu) as Hi.
  unfold usertrap_syscall. rewrite (bind_ok _ _ _ _ _ (killed_at p _ (inv_rest _ Hi))).
  assert (killed_ (procs (trapped p s) !!! p) = killed_ (procs s !!! p)) as -> by (unfold trapped; by rewrite lookup_upd).
  split; intros Hk.
  - rewrite decide_True by done.
    destruct (exit_leaves p (-1) (trapped p s) Hi (fu_cur _ _ Hu) (fu_init _ _ Hu)) as (s' & E & Hi' & Hc').
    rewrite (bind_ok _ _ _ _ _ E). exists s'. split; [done|]. split; congruence.
  - intros s2 Hs2 Hi2 Hin2. rewrite decide_False by (intros Hn; by apply Hn).
    rewrite (bind_ok _ _ _ _ _ (pmod_upd _ _ _)). unfold trapped at 1. rewrite upd_upd. unfold intr_on, intr_set, modify. unfold bind at 1.
    set (s1 := set_cpu _ _). assert (syscall files s1 = syscall files (calling p s)) as Hsame.
    { unfold syscall at 1. rewrite (my_then _ p); [|exact (inv_noff _ Hi)|exact (fu_cur _ _ Hu)].
      unfold syscall. rewrite (bind_ok _ _ _ _ _ (my_run p (calling p s) (ar_cpu _ (inv_rest _ (inv_calling p s Hu))) (fu_cur _ _ Hu))).
      reflexivity. }
    rewrite (bind_ok _ _ s1 tt s2) by (by rewrite Hsame). unfold gets. unfold bind at 1. case_decide as D.
    + destruct (end_run p 0 s2 Hi2 D) as (r & s' & E & He & Hr); [rewrite Hin2; exact (fu_init _ _ Hu)|].
      exists r, s'. split_and!; [done|done|]. rewrite Hr. split; [intros [|]; [by right|lia]|tauto].
    + exists TLeft, s2. split_and!; [done|done|naive_solver].
Qed.

(** The calls of sysproc.c reach their end from a trap. *)
Lemma sysproc_call p (s : K) num : from_user p s -> num = i32 (a7 (tf (procs s !!! p))) -> num ∈ sysproc_nums ->
  (num = 1 -> in_int (nextpid s + 1)) ->
  exists s2, syscall files (calling p s) = Ok tt s2 /\ inv s2 /\ initproc s2 = initproc s.
Proof.
  intros Hu Hnum Hin Hfork. pose proof (inv_calling p s Hu) as Hi.
  assert (num = i32 (a7 (tf (procs (calling p s) !!! p)))) as Hn by (unfold calling; by rewrite lookup_upd).
  destruct (sysproc_safe files (calling p s) p num Hi (fu_cur _ _ Hu) (fu_tick _ _ Hu) Hn Hin Hfork (fun _ => fu_init _ _ Hu)) as (s2 & E & Hi2).
  exists s2. split_and!; [done|done|]. by apply (init_syscall files _ p num s2 (ar_cpu _ (inv_rest _ Hi)) (fu_cur _ _ Hu) Hn Hin) in E.
Qed.

(** ** kerneltrap *)

(** The interrupted kernel code goes on with its registers, whatever ran meanwhile. *)
Lemma tail_restores (s t : K) :
  exists t', kerneltrap_tail (sepc (the_regs s)) (Z.lor (Z.ldiff (sst (the_regs s)) SSTATUS_SIE) 0) t = Ok tt t' /\
    sepc (the_regs t') = sepc (the_regs s) /\ sst (the_regs t') = Z.ldiff (sst (the_regs s)) SSTATUS_SIE /\ intr (kcpu t') = false.
Proof.
  eexists. split; [reflexivity|]. cbn. rewrite Z.lor_0_r. split_and!; [done| |].
  - apply Z.bits_inj'. intros k Hk. rewrite !Z.ldiff_spec. by destruct (Z.testbit (sst _) k), (Z.testbit SSTATUS_SIE k).
  - apply bool_decide_false. intros Hne. apply Hne. apply Z.bits_inj'. intros k Hk.
    rewrite Z.land_spec, Z.ldiff_spec, Z.bits_0. by destruct (Z.testbit (sst _) k), (Z.testbit SSTATUS_SIE k).
Qed.
Lemma kerneltrap_restores (s s' : K) : kerneltrap uartintr virtio_disk_intr s = Ok true s' ->
  sepc (the_regs s') = sepc (the_regs s) /\ sst (the_regs s') = Z.ldiff (sst (the_regs s)) SSTATUS_SIE /\
  intr (kcpu s) = false /\ intr (kcpu s') = false /\ device_of (scause (the_regs s)) <> 0.
Proof.
  unfold kerneltrap, r_reg, r_sstatus, intr_get, gets. do 3 (unfold bind at 1). case_decide; [done|]. unfold bind at 1.
  cbn [get_cpu kst_cpu]. destruct (intr (kcpu s)) eqn:Ei; [done|]. intros (v & s1 & E1 & E2)%bind_inv.
  assert (v <> 0 -> device_of (scause (the_regs s)) <> 0) as Hv.
  { intros Hv Hd. apply Hv. unfold device_of in Hd. unfold Trap.devintr, r_reg, gets in E1. unfold bind at 1 in E1.
    destruct (decide (scause (the_regs s) = 2 ^ 63 + 9)); [done|]. destruct (decide (scause (the_regs s) = 2 ^ 63 + 5)); [done|].
    by injection E1. }
  destruct (decide (v = 0)) as [D|D]; [by apply bind_inv in E2 as (? & ? & _ & E2)|].
  apply bind_inv in E2 as (o & s2 & _ & E2). destruct o as [q|]; [by apply bind_inv in E2 as (? & ? & _ & [= ])|].
  destruct (tail_restores s s2) as (t' & Et & H3 & H4 & H5). rewrite (bind_ok _ _ _ _ _ Et) in E2. injection E2 as <-. split_and!; [done|done|done|done|by apply Hv].
Qed.
End Props.


(** ** A concrete machine *)

#[local] Existing Instance bump_env.
#[local] Instance quiet_machine : Machine Z := {|
  io_load _ g := (0, g); io_store _ _ g := g; m_time g := (0, g); m_vmfault _ _ _ g := (0, g);
  kernelvec := 4096; uservec_off := 0; usertrap_addr := 8192 |}.
Definition quiet_files : sysfile (F := tenv Z) :=
  let h := ret (Ret 0) in mkSysfile h h h h h h h h h h h h h.
Definition tcold : kst (senv (tenv Z)) :=
  cold 0 (mkSenv (mkSpinlock 0 "time" None) 0 [] (mkTenv (mkRegs 0 0 0 8 0 0 0) PGSIZE)).
Definition tbooted : kst (senv (tenv Z)) := match boot tcold with Ok _ s => s | _ => tcold end.
(** The child of init calls getpid. *)
Definition tchild : kst (senv (tenv Z)) :=
  match kexecs child_runs tbooted with Some s => s | None => tbooted end.
Definition asks_pid : kst (senv (tenv Z)) :=
  with_intr false (upd 1%fin (p_tf (mkTf 0 0 0 0 0 0 0 0 0 0 0 11 [])) tchild).

Lemma asks_pid_from_user : from_user 1%fin asks_pid.
Proof.
  split; try (by vm_compute).
  assert (boot tcold = Ok tt tbooted) as Hb by (vm_compute; reflexivity).
  assert (kruns tbooted child_runs tchild) as Hr by (apply kexecs_kruns; vm_compute; reflexivity).
  unfold asks_pid. generalize (kruns_inv _ _ _ Hr (boot_inv _ _ _ Hb)). generalize tchild. intros s Hs.
  apply inv_intr, inv_intr. apply inv_upd_kept; [apply _|exact Hs|]. split; auto.
Qed.
Lemma asks_pid_facts : scause (the_regs asks_pid) = 8 /\ killed_ (procs asks_pid !!! 1%fin) = 0 /\
  i32 (a7 (tf (procs asks_pid !!! 1%fin))) = 11.
Proof. split_and!; by vm_compute. Qed.
