(* ===== verification/Uart.v ===== *)
(** * kernel/uart.c: the serial line

    The driver of a 16550 UART, whose registers are reached through [Serial].  uartwrite is
    one activation: from progress [i] until it is done or sleeps on [tx_chan].  What
    console.c does with an input character is the list of characters that it echoes. *)

From Stdlib Require Import ZArith Lia.
From stdpp Require Import base numbers list strings.
From S2P Require Import Prelude Spinlock.
Open Scope Z_scope.

Definition RHR : Z := 0.
Definition THR : Z := 0.
Definition IER : Z := 1.
Definition IER_RX_ENABLE : Z := Z.shiftl 1 0.
Definition IER_TX_ENABLE : Z := Z.shiftl 1 1.
Definition FCR : Z := 2.
Definition FCR_FIFO_ENABLE : Z := Z.shiftl 1 0.
Definition FCR_FIFO_CLEAR : Z := Z.shiftl 3 1.
Definition ISR : Z := 2.
Definition LCR : Z := 3.
Definition LCR_EIGHT_BITS : Z := Z.shiftl 3 0.
Definition LCR_BAUD_LATCH : Z := Z.shiftl 1 7.
Definition LSR : Z := 5.
Definition LSR_RX_READY : Z := Z.shiftl 1 0.
Definition LSR_TX_IDLE : Z := Z.shiftl 1 5.

(** The registers of the device: reading one may change the device. *)
Class Serial (D : Type) := { load : Z -> D -> Z * D; store : Z -> Z -> D -> D }.

Record uart (D : Type) : Type := mkUart {
  tx_busy : Z; panicking : bool; panicked : bool;
  received : list Z;      (* what consoleintr has been given *)
  dev : D }.
Arguments mkUart {D}. Arguments tx_busy {D}. Arguments panicking {D}. Arguments panicked {D}.
Arguments received {D}. Arguments dev {D}.

Definition tx_chan : Z := 8000.

(** How uartwrite ends: it returns, or sleeps with [i] bytes handed over. *)
Inductive uout : Type := UDone | USleep (i : Z).

Section Uart.
Context {D : Type} `{Serial D}.
Notation U := (uart D).

Definition set_busy v (u : U) : U := mkUart v (panicking u) (panicked u) (received u) (dev u).
Definition set_dev d (u : U) : U := mkUart (tx_busy u) (panicking u) (panicked u) (received u) d.
Definition set_received l (u : U) : U := mkUart (tx_busy u) (panicking u) (panicked u) l (dev u).

Definition ReadReg (reg : Z) : M (kobj U) Z :=
  let! u := kget in
  let '(v, d) := load reg (dev u) in
  kmod (set_dev d) ;;
  ret v.
Definition WriteReg (reg v : Z) : M (kobj U) unit := kmod (fun u => set_dev (store reg (u8 v) (dev u)) u).

Definition uartinit : M (kobj U) unit :=
  WriteReg IER 0 ;;
  WriteReg LCR LCR_BAUD_LATCH ;;
  WriteReg 0 3 ;;
  WriteReg 1 0 ;;
  WriteReg LCR LCR_EIGHT_BITS ;;
  WriteReg FCR (Z.lor FCR_FIFO_ENABLE FCR_FIFO_CLEAR) ;;
  WriteReg IER (Z.lor IER_TX_ENABLE IER_RX_ENABLE) ;;
  initlock the_lock "uart".

(** The loop from [i] on, with the lock held. *)
Fixpoint uartwrite_loop (fuel : nat) (buf : list Z) (i : Z) : M (kobj U) uout :=
  match fuel with
  | O => fun _ => Fault OutOfFuel
  | Datatypes.S fuel =>
      if decide (i < Z.of_nat (length buf)) then
        let! u := kget in
        if decide (tx_busy u <> 0) then release the_lock ;; ret (USleep i)
        else
          let! c := from_option "buf" (arr_get buf i) in
          WriteReg THR c ;;
          kmod (set_busy 1) ;;
          uartwrite_loop fuel buf (i + 1)
      else release the_lock ;; ret UDone
  end.
Definition uartwrite (buf : list Z) (i : Z) : M (kobj U) uout :=
  acquire the_lock ;;
  uartwrite_loop (Datatypes.S (length buf)) buf i.

(** while((ReadReg(LSR) & LSR_TX_IDLE) == 0) *)
Fixpoint wait_idle (fuel : nat) : M (kobj U) unit :=
  match fuel with
  | O => fun _ => Fault OutOfFuel
  | Datatypes.S fuel =>
      let! v := ReadReg LSR in
      if decide (Z.land v LSR_TX_IDLE = 0) then wait_idle fuel else ret tt
  end.
(** for(;;); on a panicked system. *)
Definition forever : Z := 8001.
Definition uartputc_sync (fuel : nat) (c : Z) : M (kobj U) unit :=
  let! u := kget in
  (if panicking u then ret tt else push_off) ;;
  (if panicked u then block forever else ret tt) ;;
  wait_idle fuel ;;
  WriteReg THR c ;;
  if panicking u then ret tt else pop_off.

Definition uartgetc : M (kobj U) Z :=
  let! v := ReadReg LSR in
  if decide (Z.land v LSR_RX_READY <> 0) then ReadReg RHR else ret (-1).

Context (echo : Z -> list Z).
Definition consoleintr (fuel : nat) (c : Z) : M (kobj U) unit :=
  kmod (fun u => set_received (received u ++ [c]) u) ;;
  for_each (echo c) (uartputc_sync fuel).

Fixpoint uartintr_loop (n fuel : nat) : M (kobj U) unit :=
  match n with
  | O => fun _ => Fault OutOfFuel
  | Datatypes.S n =>
      let! c := uartgetc in
      if decide (c = -1) then ret tt else consoleintr fuel c ;; uartintr_loop n fuel
  end.
Definition uartintr (n fuel : nat) : M (kobj U) unit :=
  ReadReg ISR ;;
  acquire the_lock ;;
  let! v := ReadReg LSR in
  (if decide (Z.land v LSR_TX_IDLE <> 0) then kmod (set_busy 0) ;; kwakeup tx_chan else ret tt) ;;
  release the_lock ;;
  uartintr_loop n fuel.

End Uart.
