(* ===== verification/UartProps.v ===== *)
(** * The serial line loses no character *)

From Stdlib Require Import ZArith Lia.
From stdpp Require Import base numbers list strings.
From S2P Require Import Prelude Spinlock Uart.
Open Scope Z_scope.

(** What a 16550 promises: [queue] is its transmit FIFO of 16 bytes, [sent] what has left it,
    [input] what waits to be read.  The device may send while it is looked at, and after
    [patience] polls the queue is empty. *)
Class SerialLaws (D : Type) `{Serial D} := {
  queue : D -> list Z; sent : D -> list Z; input : D -> list Z; delay : D -> nat; patience : nat;
  drained d d' := exists k, queue d' = drop k (queue d) /\ sent d' = sent d ++ take k (queue d) /\ input d' = input d;
  load_isr d : drained d (load ISR d).2;
  load_lsr d : drained d (load LSR d).2 /\
    (Z.testbit (load LSR d).1 5 = true <-> queue (load LSR d).2 = []) /\
    (Z.testbit (load LSR d).1 0 = true <-> input (load LSR d).2 <> []) /\
    (queue (load LSR d).2 = [] \/ (delay (load LSR d).2 < delay d)%nat);
  load_rhr d c l : input d = c :: l -> (load RHR d).1 = c /\
    let d' := (load RHR d).2 in queue d' = queue d /\ sent d' = sent d /\ input d' = l;
  store_thr d c : (length (queue d) < 16)%nat ->
    let d' := store THR c d in queue d' = queue d ++ [c] /\ sent d' = sent d /\ input d' = input d;
  input_bytes d : Forall (fun c => 0 <= c < 256) (input d);
  delay_bound d : (delay d < patience)%nat }.

Lemma bit_test v k : 0 <= k -> Z.land v (Z.shiftl 1 k) <> 0 <-> Z.testbit v k = true.
Proof.
  intros Hk. rewrite Z.shiftl_1_l. destruct (Z.testbit v k) eqn:E; split; try done.
  - intros _ Hz. assert (Z.testbit (Z.land v (2 ^ k)) k = true) as Ht by (by rewrite Z.land_spec, E, Z.pow2_bits_true).
    by rewrite Hz, Z.bits_0 in Ht.
  - intros Hn. exfalso. apply Hn. apply Z.bits_inj'. intros i Hi. rewrite Z.land_spec, Z.pow2_bits_eqb, Z.bits_0 by lia.
    destruct (Z.eqb_spec k i) as [<-|]; [by rewrite E|by rewrite andb_false_r].
Qed.

Section Props.
Context {D : Type} `{SerialLaws D}.
Notation U := (uart D).

(** Everything handed to the device, in order. *)
Definition out (d : D) : list Z := sent d ++ queue d.
Lemma drained_out d d' : drained d d' -> out d' = out d /\ input d' = input d /\ (length (queue d') <= length (queue d))%nat.
Proof.
  intros (k & Hq & Hs & Hi). unfold out. rewrite Hq, Hs, <- app_assoc, take_drop, length_drop. split_and!; [done|done|lia].
Qed.

(** The driver never fills the queue: at most two bytes, one while no write is under way. *)
Definition fifo_ok (u : U) : Prop := (length (queue (dev u)) <= 2)%nat /\ (tx_busy u = 0 -> (length (queue (dev u)) <= 1)%nat).
(** From [u] to [u'] the bytes [bs] have been handed to the device. *)
Record handed (u u' : U) (bs : list Z) : Prop := {
  hd_out : out (dev u') = out (dev u) ++ bs;
  hd_input : input (dev u') = input (dev u);
  hd_flags : panicking u' = panicking u /\ panicked u' = panicked u;
  hd_fifo : fifo_ok u -> fifo_ok u' }.
Lemma handed_trans u1 u2 u3 b c : handed u1 u2 b -> handed u2 u3 c -> handed u1 u3 (b ++ c).
Proof. intros [? ? [? ?] ?] [? ? [? ?] ?]. split; [by rewrite app_assoc; congruence|congruence|split; congruence|tauto]. Qed.

Definition kput (s : kobj U) (u : U) : kobj U := mkK (kme s) (kcpu s) (klock s) u (kwoken s).
Lemma read_reg r (s : kobj U) : ReadReg r s = Ok (load r (dev (kdata s))).1 (kput s (set_dev (load r (dev (kdata s))).2 (kdata s))).
Proof. unfold ReadReg, kget, gets. unfold bind at 1. by destruct (load r (dev (kdata s))). Qed.

Lemma wait_idle_run fuel (s : kobj U) : (delay (dev (kdata s)) < fuel)%nat ->
  exists d, wait_idle fuel s = Ok tt (kput s (set_dev d (kdata s))) /\ out d = out (dev (kdata s)) /\
    input d = input (dev (kdata s)) /\ queue d = [].
Proof.
  revert s. induction fuel as [|fuel IH]; intros s Hf; [lia|]. cbn [wait_idle]. rewrite (bind_ok _ _ _ _ _ (read_reg LSR s)).
  destruct (load_lsr (dev (kdata s))) as (Hd & Hb & _ & Hdel). set (d1 := (load LSR (dev (kdata s))).2) in *.
  destruct (drained_out _ _ Hd) as (Ho & Hi & _). unfold LSR_TX_IDLE. pose proof (bit_test (load LSR (dev (kdata s))).1 5 ltac:(lia)) as Ht.
  case_decide as Dz.
  - destruct (IH (kput s (set_dev d1 (kdata s)))) as (d & E & H1 & H2 & H3).
    { cbn. destruct Hdel as [Hq|Hlt]; [|lia]. apply Hb, Ht in Hq. done. }
    exists d. cbn in *. split_and!; [exact E|congruence|congruence|done].
  - exists d1. split_and!; [done|done|done|]. by apply Hb, Ht.
Qed.

Lemma putc_run c (s : kobj U) : cpu_ok (kcpu s) -> panicked (kdata s) = false ->
  exists u, uartputc_sync patience c s = Ok tt (kput s u) /\ handed (kdata s) u [u8 c] /\
    tx_busy u = tx_busy (kdata s) /\ received u = received (kdata s).
Proof.
  intros Hc Hp. unfold uartputc_sync, kget, gets. unfold bind at 1.
  set (s1 := if panicking (kdata s) then s else entered s).
  rewrite (bind_ok _ _ s tt s1) by (unfold s1; destruct (panicking (kdata s)); [done|apply push_off_run]).
  rewrite Hp, (bind_ok (ret tt) _ s1 tt s1 eq_refl).
  assert (kdata s1 = kdata s) as Hk by (unfold s1; by destruct (panicking (kdata s))).
  destruct (wait_idle_run patience s1 (delay_bound _)) as (d & E & Ho & Hi & Hq). rewrite (bind_ok _ _ _ _ _ E), Hk in *.
  destruct (store_thr d (u8 c)) as (Hq' & Hs' & Hi'); [rewrite Hq; cbn; lia|].
  set (u := set_dev (store THR (u8 c) d) (kdata s)).
  rewrite (bind_ok _ _ _ tt (kput s1 u)) by done. exists u. split_and!; [| |done|done].
  - unfold s1. destruct (panicking (kdata s)); [done|].
    assert (cpu_ok (get_cpu (kput s u))) as Hg by exact Hc.
    change (kput (entered s) u) with (set_cpu (cpu_push (kcpu s)) (kput s u)).
    by rewrite (pop_off_run (set_cpu (cpu_push (kcpu s)) (kput s u)) (kput s u) (kcpu s) Hg eq_refl).
  - split; unfold u, out, fifo_ok; cbn; [|congruence|done|].
    + rewrite Hq', Hs', app_assoc. unfold out in Ho. by rewrite Ho.
    + rewrite Hq', Hq. cbn. lia.
Qed.

(** ** uartwrite *)

Lemma uwrite_run buf i (s : kobj U) : quiet s -> fifo_ok (kdata s) -> 0 <= i <= Z.of_nat (length buf) ->
  exists bs o u, uartwrite buf i s = Ok o (kput s u) /\ handed (kdata s) u (u8 <$> bs) /\
    take (length bs) (drop (Z.to_nat i) buf) = bs /\ received u = received (kdata s) /\
    match o with
    | UDone => i + Z.of_nat (length bs) = Z.of_nat (length buf)
    | USleep j => j = i + Z.of_nat (length bs) /\ j < Z.of_nat (length buf) /\ tx_busy u <> 0
    end.
Proof.
  intros Hq Hok Hi. unfold uartwrite. rewrite (bind_ok _ _ _ _ _ (kacquire s Hq)). cbn [uartwrite_loop].
  destruct (decide (i < Z.of_nat (length buf))) as [Hlt|Hge].
  2: { rewrite (bind_ok _ _ _ _ _ (krelease s _ _ Hq)). exists [], UDone, (kdata s).
       split_and!; [by destruct s| |done|done|cbn; lia]. split; [by rewrite app_nil_r|done|done|done]. }
  ksteps. destruct (decide (tx_busy (kdata s) <> 0)) as [Hb|Hb].
  { rewrite (bind_ok _ _ _ _ _ (krelease s _ _ Hq)). exists [], (USleep i), (kdata s).
    split_and!; [by destruct s| |done|done|cbn; lia|done|done]. split; [by rewrite app_nil_r|done|done|done]. }
  destruct (arr_get_lt buf i) as [c Hget]; [lia|]. rewrite Hget. unfold from_option. ksteps.
  unfold WriteReg. ksteps. set (u := set_busy 1 _).
  assert (tx_busy (kdata s) = 0) as Hz by lia. destruct Hok as [H2 H1]. specialize (H1 Hz).
  destruct (store_thr (dev (kdata s)) (u8 c)) as (Hqq & Hss & Hii); [lia|].
  assert (handed (kdata s) u [u8 c]) as HH.
  { split; unfold u, out, fifo_ok; cbn; [by rewrite Hqq, Hss, app_assoc|done|done|].
    intros _. rewrite Hqq, length_app. cbn. split; [lia|done]. }
  assert (take 1 (drop (Z.to_nat i) buf) = [c]) as Htk.
  { apply arr_get_Some in Hget as [_ Hget]. by rewrite (drop_S _ _ _ Hget). }
  destruct buf as [|b buf]; [cbn in Hlt; lia|]. cbn [length uartwrite_loop].
  destruct (decide (i + 1 < Z.of_nat (Datatypes.S (length buf)))) as [Hl1|Hl1].
  - ksteps. rewrite decide_True by done. rewrite (bind_ok _ _ _ _ _ (krelease s _ _ Hq)).
    exists [c], (USleep (i + 1)), u. split_and!; [done|done|done|done|cbn; lia|done|done].
  - rewrite (bind_ok _ _ _ _ _ (krelease s _ _ Hq)). exists [c], UDone, u. split_and!; [done|done|done|done|].
    cbn [length] in *. lia.
Qed.

(** ** uartintr *)

Context (echo : Z -> list Z).
Lemma putcs_run l (s : kobj U) : cpu_ok (kcpu s) -> panicked (kdata s) = false ->
  exists u, for_each l (uartputc_sync patience) s = Ok tt (kput s u) /\ handed (kdata s) u (u8 <$> l) /\
    tx_busy u = tx_busy (kdata s) /\ received u = received (kdata s).
Proof.
  revert s. induction l as [|c l IH]; intros s Hc Hp.
  - exists (kdata s). split_and!; [by destruct s| |done|done]. split; [by rewrite app_nil_r|done|done|done].
  - cbn [for_each]. destruct (putc_run c s Hc Hp) as (u & E & Hh & Hb & Hr). rewrite (bind_ok _ _ _ _ _ E).
    destruct (IH (kput s u)) as (u' & E' & Hh' & Hb' & Hr'); [done|cbn; destruct (hd_flags _ _ _ Hh); congruence|].
    exists u'. cbn in *. split_and!; [exact E'|by apply (handed_trans _ u _ [_])|congruence|congruence].
Qed.

Lemma getc_run (s : kobj U) : exists d, uartgetc s = Ok (match input (dev (kdata s)) with [] => -1 | c :: _ => c end) (kput s (set_dev d (kdata s))) /\
  out d = out (dev (kdata s)) /\ input d = tail (input (dev (kdata s))) /\ (length (queue d) <= length (queue (dev (kdata s))))%nat.
Proof.
  unfold uartgetc. rewrite (bind_ok _ _ _ _ _ (read_reg LSR s)). destruct (load_lsr (dev (kdata s))) as (Hd & _ & Hb & _).
  pose proof (bit_test (load LSR (dev (kdata s))).1 0 ltac:(lia)) as Ht. destruct (drained_out _ _ Hd) as (Ho & Hi & Hl).
  set (d1 := (load LSR (dev (kdata s))).2) in *. unfold LSR_RX_READY. rewrite <- Hi in *. destruct (decide (Z.land _ _ <> 0)) as [Dn|Dn].
  - destruct (input d1) as [|c l] eqn:Ein; [exfalso; by apply Ht, Hb in Dn|].
    destruct (load_rhr d1 c l Ein) as (Hv & Hq & Hs & Hin). rewrite read_reg. cbn [kdata kput dev set_dev]. rewrite Hv.
    eexists. split; [reflexivity|]. split_and!; [unfold out in *; congruence|done|by rewrite Hq].
  - assert (input d1 = []) as Hnil.
    { destruct (input d1) as [|c l]; [done|]. exfalso. apply Dn, Ht, Hb. done. }
    exists d1. rewrite Hnil. by split_and!.
Qed.

Lemma uloop_run n (s : kobj U) : cpu_ok (kcpu s) -> panicked (kdata s) = false -> (length (input (dev (kdata s))) < n)%nat ->
  exists u, uartintr_loop echo n patience s = Ok tt (kput s u) /\ input (dev u) = [] /\
    received u = received (kdata s) ++ input (dev (kdata s)) /\ tx_busy u = tx_busy (kdata s) /\
    out (dev u) = out (dev (kdata s)) ++ (u8 <$> (input (dev (kdata s)) ≫= echo)) /\ (fifo_ok (kdata s) -> fifo_ok u).
Proof.
  revert s. induction n as [|n IH]; intros s Hc Hp Hn; [lia|]. cbn [uartintr_loop].
  pose proof (input_bytes (dev (kdata s))) as HF.
  destruct (getc_run s) as (d & E & Ho & Hi & Hl). rewrite (bind_ok _ _ _ _ _ E).
  assert (fifo_ok (kdata s) -> fifo_ok (set_dev d (kdata s))) as Hfd by (unfold fifo_ok; cbn; intros [? ?]; split; [lia|intros; naive_solver lia]).
  destruct (input (dev (kdata s))) as [|c l] eqn:Ein.
  - rewrite decide_True by done. eexists. split; [done|]. cbn. rewrite !app_nil_r. split_and!; done.
  - apply Forall_cons in HF as [Hc1 _]. rewrite decide_False by lia. unfold consoleintr at 1. rewrite bind_assoc.
    set (u0 := set_received (received (kdata s) ++ [c]) (set_dev d (kdata s))).
    rewrite (bind_ok _ _ _ tt (kput s u0)) by done.
    destruct (putcs_run (echo c) (kput s u0) Hc Hp) as (u & E1 & Hh & Hb & Hr). rewrite (bind_ok _ _ _ _ _ E1).
    pose proof (hd_input _ _ _ Hh) as Hin. cbn in Hin, Hb, Hr. rewrite Hi in Hin. cbn in Hin.
    destruct (IH (kput (kput s u0) u)) as (u' & E' & H1 & H2 & H3 & H4 & H5);
      [done|cbn; destruct (hd_flags _ _ _ Hh); cbn in *; congruence|cbn; rewrite Hin; cbn in Hn; lia|].
    exists u'. cbn in *. rewrite Hin in *. split_and!; [exact E'|done| |congruence| |].
    + rewrite H2, Hr, <- app_assoc. done.
    + rewrite H4, (hd_out _ _ _ Hh). cbn. by rewrite Ho, fmap_app, app_assoc.
    + intros Hf. by apply H5, Hh, Hfd.
Qed.

Lemma uintr_run n (s : kobj U) : quiet s -> panicked (kdata s) = false -> (length (input (dev (kdata s))) < n)%nat ->
  exists u w, uartintr echo n patience s = Ok tt (mkK (kme s) (kcpu s) (klock s) u w) /\ input (dev u) = [] /\
    received u = received (kdata s) ++ input (dev (kdata s)) /\
    out (dev u) = out (dev (kdata s)) ++ (u8 <$> (input (dev (kdata s)) ≫= echo)) /\ (fifo_ok (kdata s) -> fifo_ok u) /\
    (queue (dev (kdata s)) = [] -> tx_busy u = 0 /\ w = kwoken s ++ [tx_chan]).
Proof.
  intros Hq Hp Hn. unfold uartintr. rewrite (bind_ok _ _ _ _ _ (read_reg ISR s)).
  destruct (drained_out _ _ (load_isr (dev (kdata s)))) as (Ho1 & Hi1 & Hl1). set (d1 := (load ISR (dev (kdata s))).2) in *.
  set (s1 := kput s (set_dev d1 (kdata s))). assert (quiet s1) as Hq1 by exact Hq.
  rewrite (bind_ok _ _ _ _ _ (kacquire s1 Hq1)). rewrite (bind_ok _ _ _ _ _ (read_reg LSR _)). cbn [kdata held s1 kput dev set_dev].
  destruct (load_lsr d1) as (Hd & Hb & _ & _). destruct (drained_out _ _ Hd) as (Ho2 & Hi2 & Hl2). set (d2 := (load LSR d1).2) in *.
  pose proof (bit_test (load LSR d1).1 5 ltac:(lia)) as Ht. unfold LSR_TX_IDLE.
  change (kput (held s1 (kdata s1) (kwoken s1)) (set_dev d2 (set_dev d1 (kdata s)))) with (held s1 (set_dev d2 (kdata s)) (kwoken s)).
  set (idle := Z.land (load LSR d1).1 (Z.shiftl 1 5) <> 0) in *.
  set (u2 := if decide idle then set_busy 0 (set_dev d2 (kdata s)) else set_dev d2 (kdata s)).
  set (w := if decide idle then kwoken s ++ [tx_chan] else kwoken s).
  rewrite (bind_ok _ _ _ tt (held s1 u2 w)) by (unfold u2, w; destruct (decide idle); done).
  rewrite (bind_ok _ _ _ _ _ (krelease s1 u2 w Hq1)).
  assert (dev u2 = d2 /\ received u2 = received (kdata s) /\ panicked u2 = panicked (kdata s)) as (Hdv & Hrc & Hpk)
    by (unfold u2; by destruct (decide idle)).
  destruct (uloop_run n (mkK (kme s) (kcpu s) (klock s) u2 w)) as (u & E & H1 & H2 & H3 & H4 & H5);
    [apply Hq|cbn; congruence|cbn; rewrite Hdv, Hi2, Hi1; done|].
  cbn in H2, H3, H4, H5. rewrite Hdv, Hi2, Hi1 in *. exists u, w. split_and!; [exact E|done|congruence| | |].
  - rewrite H4. congruence.
  - intros [Hf1 Hf2]. apply H5. unfold u2, fifo_ok. destruct (decide idle) as [Dn|Dn]; cbn.
    + assert (queue d2 = []) as -> by (by apply Hb, Ht). cbn. lia.
    + split; [lia|]. intros Hz. specialize (Hf2 Hz). lia.
  - intros Hz. assert (idle) as Hidle by (apply Ht, Hb; rewrite Hz in *; apply nil_length_inv; cbn in *; lia).
    split; [rewrite H3; unfold u2|unfold w]; by rewrite decide_True.
Qed.
End Props.

(** C15: The serial line loses no character and keeps their order.  On any device that keeps
    the promises of a 16550, the driver never has more than two bytes in the transmit FIFO,
    whatever mix of writers, echoing and interrupts drives it.  An activation of uartwrite
    hands over the next bytes of its buffer and returns when all are handed over, or sleeps,
    only while a transmission is under way; uartputc_sync hands over its character, with the
    interrupt state restored; and uartintr passes every waiting input byte to the console, in
    order, hands over what is echoed, and, when the queue is empty, wakes the writers. *)
Theorem serial_line {D} `{SerialLaws D} echo (s : kobj (uart D)) :
  quiet s -> fifo_ok (kdata s) -> panicked (kdata s) = false ->
  (forall buf i, 0 <= i <= Z.of_nat (length buf) -> exists bs o u,
     uartwrite buf i s = Ok o (kput s u) /\ fifo_ok u /\ take (length bs) (drop (Z.to_nat i) buf) = bs /\
     out (dev u) = out (dev (kdata s)) ++ (u8 <$> bs) /\ input (dev u) = input (dev (kdata s)) /\
     match o with
     | UDone => i + Z.of_nat (length bs) = Z.of_nat (length buf)
     | USleep j => j = i + Z.of_nat (length bs) /\ j < Z.of_nat (length buf) /\ tx_busy u <> 0
     end) /\
  (forall c, exists u, uartputc_sync patience c s = Ok tt (kput s u) /\ fifo_ok u /\
     out (dev u) = out (dev (kdata s)) ++ [u8 c] /\ input (dev u) = input (dev (kdata s)) /\ tx_busy u = tx_busy (kdata s)) /\
  (forall n, (length (input (dev (kdata s))) < n)%nat -> exists u w,
     uartintr echo n patience s = Ok tt (mkK (kme s) (kcpu s) (klock s) u w) /\ fifo_ok u /\ input (dev u) = [] /\
     received u = received (kdata s) ++ input (dev (kdata s)) /\
     out (dev u) = out (dev (kdata s)) ++ (u8 <$> (input (dev (kdata s)) ≫= echo)) /\
     (queue (dev (kdata s)) = [] -> tx_busy u = 0 /\ w = kwoken s ++ [tx_chan])).
Proof.
  intros Hq Hf Hp. split_and!.
  - intros buf i Hi. destruct (uwrite_run buf i s Hq Hf Hi) as (bs & o & u & E & [Ho Hin _ Hfu] & Ht & _ & Hend).
    exists bs, o, u. split_and!; auto.
  - intros c. destruct (putc_run c s (proj1 Hq) Hp) as (u & E & [Ho Hin _ Hfu] & Hb & _). exists u. split_and!; auto.
  - intros n Hn. destruct (uintr_run echo n s Hq Hp Hn) as (u & w & E & H1 & H2 & H3 & H4 & H5). exists u, w. split_and!; auto.
Qed.

(** ** A device that sends whenever its status is read *)

Record line : Type := mkLine { lqueue : list Z; lsent : list Z; linput : list Z }.
#[local] Instance line_serial : Serial line := {|
  load r d :=
    if decide (r = LSR) then ((if decide (linput d = []) then 32 else 33), mkLine [] (lsent d ++ lqueue d) (linput d))
    else if decide (r = RHR) then (match linput d with [] => 0 | c :: _ => u8 c end, mkLine (lqueue d) (lsent d) (tail (linput d)))
    else (0, d);
  store r v d := if decide (r = THR) then mkLine (lqueue d ++ [v]) (lsent d) (linput d) else d |}.
#[local, program] Instance line_laws : SerialLaws line := {|
  queue := lqueue; sent := lsent; input d := u8 <$> linput d; delay _ := 0%nat; patience := 1%nat |}.
Next Obligation. intros d. exists 0%nat. cbn. by rewrite drop_0, app_nil_r. Qed.
Next Obligation.
  intros d. cbn. split; [exists (length (lqueue d)); cbn; by rewrite drop_all, firstn_all|].
  destruct (linput d) as [|c l]; cbn; split_and!; try (by split); by left.
Qed.
Next Obligation. intros d c l E. cbn in *. destruct (linput d) as [|x xs]; [done|]. cbn in *. by injection E as <- <-. Qed.
Next Obligation. intros d c _. by cbn. Qed.
Next Obligation. intros d. apply Forall_fmap, Forall_true. intros x. apply (uwrap_range 8). lia. Qed.
Next Obligation. intros d. cbn. lia. Qed.

Definition busy_line : kobj (uart line) :=
  mkK 0 (mkCpu 0 true true) (mkSpinlock 0 "uart" None) (mkUart 0 false false [] (mkLine [65] [] [97; 98])) [].
Lemma serial_line_witness :
  (exists u, uartwrite [66; 67] 0 busy_line = Ok (USleep 1) (kput busy_line u) /\ out (dev u) = [65; 66]) /\
  (exists u w, uartintr (fun c => [c]) 3 1 busy_line = Ok tt (mkK 0 (mkCpu 0 true true) (mkSpinlock 0 "uart" None) u w) /\
     received u = [97; 98] /\ out (dev u) = [65; 97; 98]).
Proof.
  assert (quiet busy_line) as Hq by (split; [by left|done]).
  assert (fifo_ok (kdata busy_line)) as Hf by (split; cbn; intros; lia).
  destruct (serial_line (fun c => [c]) busy_line Hq Hf eq_refl) as (Hw & _ & Hi). split.
  - destruct (Hw [66; 67] 0 ltac:(cbn; lia)) as (bs & o & u & E & _ & _ & Ho & _ & Hend). exists u.
    vm_compute in E. injection E as <- <-. split; [reflexivity|reflexivity].
  - destruct (Hi 3%nat ltac:(cbn; lia)) as (u & w & E & _ & _ & Hr & Ho & _). exists u, w. split; [exact E|split; [exact Hr|exact Ho]].
Defined.
